(* ===== verification/_CoqProject ===== *)
-Q . S2P
Prelude.v
Addr.v
PhysMem.v
PageTable.v
PtDestroy.v
FreshPages.v
PtCopy.v
Vm.v
MmapWarehouse.v
Uvm.v
PhysBytes.v
UserString.v
UserGrowth.v
MmapRegions.v
Munmap.v
Lru.v
BufferCache.v
Debug.v
BufferList.v
FsState.v
Bitmap.v
InodeLayer.v
FileWrite.v
FileDelete.v
Directory.v
DirWrite.v
FsTest.v
Mkfs.v
Xtask.v
FileTable.v
FsSyscall.v
RunQueue.v
Scheduler.v
Plic.v
Utf8.v
Uart.v
Dtb.v
Virtio.v
Machine.v
Asm.v
Boot.v
Process.v
Exec.v
Syscall.v
Trap.v
