(* ===== verification/Prelude.v ===== *)
(** * A verification development for the Glenda kernel

    Glenda is a RISC-V (Sv39) teaching kernel in Rust. This library translates
    it into Rocq functions and proves what makes each part correct. Paths below
    are under [src/kernel/src/] unless they begin with [xtask].

    ** How the code is read

    Stateful code is a function [M S A := S -> outcome S A]: it returns
    ([Ret]), panics ([Panic msg], the kernel's panics and the overflow checks of
    the debug profile) or never returns ([Hang], a spin lock taken twice, a
    wait for a device that never answers, or a loop out of fuel). Machine
    integers are [Z]; [uadd], [usub], [umul] and the 32-bit ones panic on
    overflow, [wrap32] and the like are [as] casts, bit operations are
    [Z.land], [Z.lor] and shifts. A [while] is [loop fuel body], a [for] over a
    range is [for_each]. [wp m Q s] says that [m] run from [s] returns and its
    result satisfies [Q]: it is total correctness, so every theorem stated with
    [wp] also says that the code returns. A component's routines run on its
    own state; [zoom get set] runs them on a larger one.

    Fuel: every [loop] is given a bound that the code cannot exceed (pages of
    the range plus one, bytes of the buffer plus one, entries of a directory
    plus two, nodes of the mmap warehouse plus two, 512-byte pieces of a 32-bit
    file size plus three, bytes a device still holds plus one); the theorems
    about these loops prove that the bound is never reached, since running out
    of it is [Hang]. Where the code waits for the outside world (the disk, the
    serial line, a context switch that comes back) the fuel is a parameter and
    the theorems say how much is enough.

    ** The parts and the files that model them

    - [Prelude]: the monad, the program logic and its tactics, integers, bytes.

    Memory.
    - [Addr] ([mem/mod.rs], [mem/addr.rs], [mem/pte.rs]): page arithmetic,
      Sv39 indices and page-table entries, with their closed forms.
    - [PhysMem] ([mem/pmem.rs], [mem/frame.rs]): the two page pools, their free
      lists threaded through the pages, the reference array. State: [pmem],
      physical memory included. [pmem_inv] is the allocator's invariant;
      [alloc_post] and [free_post] its contract, which the page table and user
      memory are verified against; [client_step] the moves of its clients.
    - [PageTable] ([mem/pagetable.rs]): walk, lookup, map, unmap, destroy and
      copy. [pt_wf s root T] says that the tables in memory form the tree [T];
      [trans] is the translation it gives; [extends] and [unmapped] say how the
      operations may change it.
    - [PtDestroy]: what [destroy] gives back, by recursion over the levels;
      [space_ok] is what it needs of an address space.
    - [PtCopy]: [copy] as a fold over the leaves of the tree ([leaves2]),
      [space_copied] its contract; copying and destroying together.
    - [FreshPages]: loops that map fresh pages one after the other, for the
      pools, flags and contents their callers choose ([grown_range]).
    - [Vm] ([mem/vm.rs]): the kernel page table built at boot, and kernel
      stacks. [boot_env] holds the linker's and the device tree's addresses.
    - [MmapWarehouse] ([mem/mmap.rs]): the pool of mmap region nodes.
    - [Uvm] ([mem/uvm.rs]): copies between kernel and user memory, heap, stack,
      mmap and munmap. [read_user] and [write_user] are the bytewise reference
      the page-wise copies are proved equal to.
    - [PhysBytes]: bytes and fields in the word memory, for loaders and rings.
    - [UserString]: [copyin_str] as the bytewise read of a string.
    - [UserGrowth]: what the allocation loops of [mem/uvm.rs] do to an address
      space, and two defects of mmap.
    - [MmapRegions], [Munmap]: the region list of a process as the set of
      mapped addresses it claims, which mmap adds a range to and munmap takes
      one from.

    Files.
    - [Lru], [BufferCache] ([fs/buffer/]): the linked lists of buffers as two
      plain lists ([lru_rep]); the block cache over a device (class
      [BlockDevice], with a RAM disk as instance). [hold s v H] says that the
      cache stands for the block store [v] while the blocks of [H] are held; the
      layers above are proved against it.
    - [FsState] ([fs/fs.rs], structures of [fs/inode.rs]): superblock, inode
      layout, the shared file-system state [fsys], and its boot.
    - [Bitmap] ([fs/bitmap.rs], [alloc] and [free] of [fs/inode.rs]).
    - [InodeLayer] ([fs/inode.rs]): inode cache, block maps, file data.
    - [BufferList] ([fs/buffer_list.rs]): the older lists of buffers, two
      circular ones with sentinels ([dll_rep]).
    - [FileWrite]: writes and growing files. The block map is a tree of slots;
      [file_ok] says that no block is named twice and all are marked used.
    - [FileDelete]: the freeing of an inode's blocks when its last reference
      goes.
    - [Directory] ([fs/dentry.rs], [fs/path.rs], the boot self-test of
      [fs/fs.rs]): entries, paths, and the boot of a fresh disk.
    - [DirWrite]: creating and deleting entries, as changes of the list of
      entries and of what names resolve to.
    - [FsTest]: the self-test [fs_init] runs on the disk it boots from: what it
      needs ([core]) and what it keeps.
    - [Mkfs] ([mkfs] of [xtask/src/main.rs]): the disk image, read back with
      the kernel's own routines.
    - [Xtask] ([xtask/src/main.rs]): the subcommands of the build driver over
      a host given by its answers ([Host]); [plan_of] is what each should do.
    - [FileTable] ([fs/file.rs]): open files, and the state [kernel] a
      file-system call works on (file system, memory, file table, process).
    - [FsSyscall] ([syscall/fs.rs]): every [fs_*] routine and [sys_*] handler.

    Devices.
    - [Plic] ([irq/plic.rs], [irq/clint.rs]): interrupt-controller registers;
      the class [Mmio] of devices behind registers.
    - [Utf8], [Uart] ([drivers/uart/]): the UTF-8 decoder and line widths, the
      serial driver, the kernel's writer and both receive handlers. [SerialLine]
      is what the driver relies on of the UART.
    - [Dtb] ([dtb/]): what the kernel reads from the device tree; the crate
      [fdt] is the class [FdtOps].
    - [Virtio] ([drivers/virtio/]): initialisation, request queue and interrupt
      of the legacy disk; [tick] is the device's side of the shared ring.

    Processes.
    - [RunQueue] ([proc/runnable_queue.rs], [proc/table.rs]): the runnable
      bitmap and the process table with their spin locks.
    - [Scheduler] ([proc/scheduler.rs], [alloc] and [exit] of
      [proc/process.rs]): the scheduler cut at [switch_context], its invariant
      [sched_inv] and the step relation [sched_step].
    - [Machine] ([irq/trap/mod.rs], [proc/context.rs], [hart.rs],
      [printk.rs]): the components put together, with control registers,
      process memory, trap frames and devices: the state [machine].
    - [Asm] ([asm/switch.S], [asm/vector.S], [asm/enter.S], [asm/boot.S]):
      the assembly as instruction lists with an evaluator.
    - [Boot] ([init/], [main.rs], [sbi.rs]): all harts through [init], as
      interleaved steps.
    - [Debug] ([PageTable::print], the dumps of [mem/mmap.rs] and
      [fs/buffer/mod.rs], [backtrace] of [main.rs]): what each prints, as a
      list of lines.
    - [Process] ([proc/process.rs]): creation, fork, exec of a flat image,
      launch, exit, reaping. [Exec]: [proc_exec] of an ELF file.
    - [Syscall] ([syscall/], [irq/timer.rs]): all other calls and the
      dispatcher.
    - [Trap] ([irq/trap/], [asm/trampoline.S]): from the instruction a program
      traps at to the one it resumes at.

    ** What the theorems show

    - Memory: pages are never shared between clients and never lost; map, unmap
      and lookup implement the translation they promise, within a stated number
      of table pages; a copied address space translates user pages and kernel
      data to frames of its own with the same contents and kernel code to the
      shared frames, and destroying one gives
      back each of its pages once; copyin and copyout are the bytewise accesses and a round
      trip; heap growth maps fresh zeroed frames and nothing else, and [brk]
      grows and shrinks by it; mmap maps such frames
      at the lowest place free or the one asked for, munmap gives back exactly
      the pages of its range, and both keep the region list equal to what is
      mapped, with what happens instead when the node pool is empty stated in
      the same theorems; with a PLIC in the device tree the kernel
      page table maps each region with its permissions and nothing else, never
      writable and executable at once (without one the pools stay unmapped, a
      defect); a kernel stack freed gives back all its pages.
    - Files: the cache gives what was last stored, or after a release without
      a write possibly what was last written, and its updates reach the disk; block and
      inode allocation take the first free one and change one bit; inodes
      survive a write and a read; reads return the bytes of the file through all
      three levels of its block map, and writes change the range written and
      nothing else, in this file or another, allocating what they need; deleting a
      file frees its blocks, all of them and no others; created
      entries resolve and deleted ones do not; names and paths are compared and split as
      meant; descriptors and reference counts agree; a whole session of calls
      gives the right answers; the kernel boots from the image [mkfs] wrote, its
      self-test passes there, and it reads the
      files that were put there, whose blocks its allocators avoid; the
      build driver writes that image after the build and before QEMU starts.
    - Devices: a disk request transfers exactly its block and returns, unless
      the device finishes before the driver marks the status byte, when it
      never returns; every register of the interrupt controller that the kernel's
      accessors touch is mapped; the decoder
      accepts well-formed UTF-8 and nothing else, typed text is echoed as
      typed, and the receive handler drains any input.
    - Processes: the bitmap always holds exactly the runnable processes, and
      picking, waking, exiting and waiting do what they should; a payload is
      loaded to where it runs; a child's exit gives back the file references
      fork took; a context switch resumes what it suspended.
    - Traps: an interrupted program goes on at the same instruction with its
      registers (three excepted, a defect), a system call gets its result and
      goes on after the call (its fourth argument lost, a defect), a trap in the
      kernel restores the registers when the handler keeps its frame.
    - Boot: in every interleaving of the harts each part is initialised once,
      in order and before it is used, and all harts get through when every
      part returns, none when one panics.
    - Diagnostics: the page-table dump shows the translations and no
      complaint, the other dumps the lists they walk, and the backtrace the
      first twenty call frames; all of them end.
    - Defects: theorems whose kind is an error state what the code does wrong
      (a deadlock in [sleep] and [wait], registers changed by traps, a panic
      with more than 128 MiB, an uncounted second holder of a buffer, a leaked
      inode per boot, addresses returned twice and pages leaked by [mmap], overflows a program
      can trigger, starvation, and others).

    ** Assumptions

    The block cache works over any [BlockDevice] (what is written to a block is
    read back, other blocks are unaffected); [Virtio] proves that one request
    is such an access when the device follows the legacy virtio rules and has
    not finished when the driver marks the status byte. Devices
    behind registers are any [Mmio] with the rules their data sheets give; the
    crate [fdt] is a parameter. In [Process], [Syscall] and [Trap] a context
    switch is the argument [switch], what runs until the process is resumed;
    [Asm] proves that the switch itself keeps the context. The addresses of
    statics and the size of a process are parameters, the size being positive.
    One hart runs the scheduler and the processes, as in [main.rs]; [Boot] is
    about all harts, up to the end of [init].

    ** Not modelled

    Printing has no state and is left out, apart from what the dumps of
    [Debug] and the calls of a program print; with it the logo and the names of
    exceptions. The kernel's own tests ([tests/]) are test code. The parser of
    the build tool's command line is a library, and [build.rs] only hands the
    assembly files to the C compiler. TLB fences, memory ordering between harts
    and the mutexes around tables that no flow of control takes twice are left
    out. Modelled but not in a theorem of its own: [proc_exec] as a whole. *)
From stdpp Require Export base tactics numbers option list strings gmap sets.
From Stdlib Require Export ZArith Lia.
#[global] Open Scope Z_scope.
#[global] Set Default Goal Selector "!".

(** ** Outcomes and the kernel monad *)

(** A kernel routine started in state [s] returns a value and a new state,
    panics ([main.rs]'s handler never returns, so no state is kept), or never
    comes back: it spins on a lock it already holds, or a loop outlives the
    fuel its model was given. *)
Inductive outcome (S A : Type) : Type :=
  | Ret (a : A) (s : S)
  | Panic (why : string)
  | Hang (why : string).
Arguments Ret {S A} a s.
Arguments Panic {S A} why.
Arguments Hang {S A} why.

Definition M (S A : Type) : Type := S -> outcome S A.

(** Rust's [Result]. *)
Inductive result (T E : Type) : Type :=
  | Ok (t : T)
  | Err (e : E).
Arguments Ok {T E} t.
Arguments Err {T E} e.

#[global] Instance M_ret S : MRet (M S) := fun A a s => Ret a s.
#[global] Instance M_bind S : MBind (M S) := fun A B k m s =>
  match m s with
  | Ret a s' => k a s'
  | Panic w => Panic w
  | Hang w => Hang w
  end.

Definition panic {S A} (why : string) : M S A := fun _ => Panic why.
Definition hang {S A} (why : string) : M S A := fun _ => Hang why.
Definition gets {S A} (f : S -> A) : M S A := fun s => Ret (f s) s.
Definition modify {S} (f : S -> S) : M S unit := fun s => Ret tt (f s).

(** [opt.expect(msg)] *)
Definition expect {S A} (o : option A) (msg : string) : M S A :=
  match o with Some a => mret a | None => panic msg end.

(** Run a computation on a component of a larger state. *)
Definition zoom {S T A} (get : S -> T) (set : T -> S -> S) (m : M T A) : M S A :=
  fun s => match m (get s) with
           | Ret a t => Ret a (set t s)
           | Panic w => Panic w
           | Hang w => Hang w
           end.

(** A loop whose body says whether to go round again ([inl], the new loop
    variables) or to leave ([inr]: [break], [return] or the exit test). *)
Fixpoint loop {S A B} (fuel : nat) (body : A -> M S (A + B)) (a : A) : M S B :=
  match fuel with
  | O => hang "loop: out of fuel"
  | S fuel' =>
      r ← body a;
      match r with
      | inl a' => loop fuel' body a'
      | inr b => mret b
      end
  end.

(** [for x in xs], threading the variables the body assigns; [inr] leaves
    early with the value the code after the loop sees. *)
Fixpoint for_each {S X A B} (xs : list X) (body : A -> X -> M S (A + B)) (a : A) : M S (A + B) :=
  match xs with
  | [] => mret (inl a)
  | x :: xs' =>
      r ← body a x;
      match r with
      | inl a' => for_each xs' body a'
      | inr b => mret (inr b)
      end
  end.

(** [lo..hi] *)
Definition range (lo hi : Z) : list Z := seqZ lo (hi - lo).

(** ** Machine integers *)

Definition U8 : Z := 2 ^ 8.
Definition U16 : Z := 2 ^ 16.
Definition U32 : Z := 2 ^ 32.
Definition U64 : Z := 2 ^ 64.
Definition USIZE_MAX : Z := U64 - 1.

(** [x as u32] and friends *)
Definition wrap8 (x : Z) : Z := x mod U8.
Definition wrap16 (x : Z) : Z := x mod U16.
Definition wrap32 (x : Z) : Z := x mod U32.
Definition wrap64 (x : Z) : Z := x mod U64.
(** [x as i32] *)
Definition as_i32 (x : Z) : Z :=
  let y := x mod U32 in if y <? 2 ^ 31 then y else y - U32.

(** Arithmetic of the debug profile: overflow panics. *)
Definition checked {S} (bound : Z) (op : string) (x : Z) : M S Z :=
  if (0 <=? x) && (x <? bound) then mret x else panic ("attempt to " +:+ op +:+ " with overflow").
Definition uadd {S} (x y : Z) : M S Z := checked U64 "add" (x + y).
Definition usub {S} (x y : Z) : M S Z := checked U64 "subtract" (x - y).
Definition umul {S} (x y : Z) : M S Z := checked U64 "multiply" (x * y).
Definition uadd32 {S} (x y : Z) : M S Z := checked U32 "add" (x + y).
Definition usub32 {S} (x y : Z) : M S Z := checked U32 "subtract" (x - y).
(** [a.saturating_sub(b)] *)
Definition sat_sub (x y : Z) : Z := Z.max 0 (x - y).

(** ** Little-endian byte strings *)

Fixpoint le_bytes (n : nat) (x : Z) : list Z :=
  match n with
  | O => []
  | S n' => x mod 256 :: le_bytes n' (x / 256)
  end.

Fixpoint le_value (bs : list Z) : Z :=
  match bs with
  | [] => 0
  | b :: bs' => b + 256 * le_value bs'
  end.

(** ** Arrays *)

(** [a[i]] on an array of known length; out of range panics. *)
Definition index {S A} (l : list A) (i : Z) : M S A :=
  if i <? 0 then panic "index out of bounds"
  else expect (l !! Z.to_nat i) "index out of bounds".

(** ** Weakest preconditions: the routine returns, and returns well *)

Definition wp {S A} (m : M S A) (Q : A -> S -> Prop) (s : S) : Prop :=
  match m s with Ret a s' => Q a s' | _ => False end.

(** The state a run ends in (the start state when it does not return). *)
Definition final {S A} (m : M S A) (s : S) : S :=
  match m s with Ret _ s' => s' | _ => s end.

Section wp.
Context {S : Type}.
Implicit Types (s : S).

Lemma wp_ret {A} (a : A) Q s : Q a s -> wp (mret a) Q s.
Proof. done. Qed.

Lemma wp_bind {A B} (m : M S A) (k : A -> M S B) Q s :
  wp m (fun a s' => wp (k a) Q s') s -> wp (m ≫= k) Q s.
Proof. unfold wp, mbind, M_bind. by destruct (m s). Qed.

Lemma wp_bind_assoc {A B C} (m : M S A) (k : A -> M S B) (h : B -> M S C) Q s :
  wp ((m ≫= k) ≫= h) Q s -> wp (m ≫= fun a => k a ≫= h) Q s.
Proof. unfold wp, mbind, M_bind. by destruct (m s). Qed.

Lemma wp_gets {A} (f : S -> A) Q s : Q (f s) s -> wp (gets f) Q s.
Proof. done. Qed.

Lemma wp_modify (f : S -> S) Q s : Q tt (f s) -> wp (modify f) Q s.
Proof. done. Qed.

Lemma wp_mono {A} (m : M S A) (P Q : A -> S -> Prop) s :
  (forall a s', P a s' -> Q a s') -> wp m P s -> wp m Q s.
Proof. unfold wp. destruct (m s); naive_solver. Qed.

Lemma wp_and {A} (m : M S A) (P Q : A -> S -> Prop) s :
  wp m P s -> wp m Q s -> wp m (fun a s' => P a s' /\ Q a s') s.
Proof. unfold wp. by destruct (m s). Qed.

Lemma wp_elim {A} (m : M S A) Q s :
  wp m Q s -> exists a s', m s = Ret a s' /\ Q a s'.
Proof. unfold wp. destruct (m s); naive_solver. Qed.

Lemma wp_final {A} (m : M S A) (P : S -> Prop) s : wp m (fun _ s' => P s') s -> P (final m s).
Proof. unfold wp, final. by destruct (m s). Qed.

Lemma wp_intro {A} (m : M S A) (Q : A -> S -> Prop) s a s' :
  m s = Ret a s' -> Q a s' -> wp m Q s.
Proof. unfold wp. by intros ->. Qed.

Lemma checked_run bound op x s : 0 <= x < bound -> checked bound op x s = Ret x s.
Proof.
  intros Hx. unfold checked.
  by rewrite (proj2 (Z.leb_le 0 x)), (proj2 (Z.ltb_lt x bound)) by lia.
Qed.

Lemma checked_panic bound op x s : bound <= x ->
  checked bound op x s = Panic ("attempt to " +:+ op +:+ " with overflow").
Proof.
  intros Hx. unfold checked. by rewrite (proj2 (Z.ltb_ge x bound)), andb_false_r by lia.
Qed.

Lemma wp_checked bound op x Q s :
  0 <= x < bound -> Q x s -> wp (checked bound op x) Q s.
Proof. intros Hx HQ. eapply wp_intro; [by apply checked_run|done]. Qed.

Lemma wp_expect {A} (o : option A) msg a Q s :
  o = Some a -> Q a s -> wp (expect o msg) Q s.
Proof. by intros ->. Qed.

Lemma wp_index {A} (l : list A) i a Q s :
  0 <= i -> l !! Z.to_nat i = Some a -> Q a s -> wp (index l i) Q s.
Proof.
  intros Hi Hl HQ. unfold index.
  rewrite (proj2 (Z.ltb_ge i 0)) by lia. by apply (wp_expect _ _ a).
Qed.

(** Total correctness of [loop]: an invariant kept while a measure falls. *)
Lemma wp_loop {A B} (I : A -> S -> Prop) (mu : A -> S -> nat) body (Q : B -> S -> Prop) :
  (forall a s, I a s -> wp (body a) (fun r s' =>
     match r with
     | inl a' => I a' s' /\ (mu a' s' < mu a s)%nat
     | inr b => Q b s'
     end) s) ->
  forall fuel a s, I a s -> (mu a s < fuel)%nat -> wp (loop fuel body a) Q s.
Proof.
  intros Hbody fuel. induction fuel as [|fuel IH]; intros a s HI Hmu; [lia|].
  simpl. apply wp_bind. eapply wp_mono; [|by apply Hbody].
  intros [a'|b] s'; simpl; [|done]. intros [HI' Hlt]. apply IH; [done|lia].
Qed.

(** Loops with bodies that run alike. *)
Lemma loop_ext {A B} (body body' : A -> M S (A + B)) : (forall a s, body a s = body' a s) ->
  forall fuel a s, loop fuel body a s = loop fuel body' a s.
Proof.
  intros Hb fuel. induction fuel as [|fuel IH]; intros a s; [done|]. cbn [loop]. unfold mbind, M_bind. rewrite Hb.
  destruct (body' a s) as [[a'|b] s'| |]; done.
Qed.
Lemma wp_loop_ext {A B} (body body' : A -> M S (A + B)) fuel a (Q : B -> S -> Prop) s :
  (forall a s, body a s = body' a s) -> wp (loop fuel body' a) Q s -> wp (loop fuel body a) Q s.
Proof. intros Hb. unfold wp. by rewrite (loop_ext body body'). Qed.

(** [for_each]: an invariant over the elements already visited. *)
Lemma wp_for_each {X A B} (I : list X -> A -> S -> Prop) body (Q : A + B -> S -> Prop) xs a s :
  I [] a s ->
  (forall done x rest a s, xs = done ++ x :: rest -> I done a s ->
     wp (body a x) (fun r s' =>
       match r with inl a' => I (done ++ [x]) a' s' | inr b => Q (inr b) s' end) s) ->
  (forall a s, I xs a s -> Q (inl a) s) ->
  wp (for_each xs body a) Q s.
Proof.
  intros H0 Hstep Hend.
  assert (Hgen : forall rest dn a s, xs = dn ++ rest -> I dn a s ->
    wp (for_each rest body a) Q s).
  { induction rest as [|x rest IH]; intros dn a' s' Hxs HI; simpl.
    - rewrite app_nil_r in Hxs. subst. by apply wp_ret, Hend.
    - apply wp_bind. eapply wp_mono; [|by eapply Hstep].
      intros [a''|b] s''; simpl; [|done]. intros HI'.
      apply (IH (dn ++ [x])); [|done]. by rewrite Hxs, <-app_assoc. }
  by apply (Hgen xs []).
Qed.

(** A loop that stops at the first element with a property. *)
Lemma for_each_find {X B} (p : X -> bool) (body : unit -> X -> M S (unit + B)) (g : X -> B) (h : X -> S) xs s :
  (forall x, x ∈ xs -> p x = false -> body tt x s = Ret (inl tt) s) ->
  (forall x, x ∈ xs -> p x = true -> body tt x s = Ret (inr (g x)) (h x)) ->
  for_each xs body tt s = match find p xs with Some x => Ret (inr (g x)) (h x) | None => Ret (inl tt) s end.
Proof.
  induction xs as [|x xs IH]; intros Hf Ht; [done|]. simpl. unfold mbind, M_bind.
  destruct (p x) eqn:Hp; [by rewrite (Ht x) by (done || left)|]. rewrite (Hf x) by (done || left).
  apply IH; intros y Hy; [apply Hf|apply Ht]; by right.
Qed.

(** A loop whose rounds each deal with a stretch of one list. *)
Lemma wp_for_each_flat {X Y B} (g : X -> list Y) (L : list Y) (I : list Y -> S -> Prop)
  (body : unit -> X -> M S (unit + B)) xs : forall pre s,
  (forall dn x s, x ∈ xs -> I dn s -> dn ++ g x `prefix_of` L ->
     wp (body tt x) (fun r s' => r = inl tt /\ I (dn ++ g x) s') s) ->
  I pre s -> pre ++ (xs ≫= g) `prefix_of` L ->
  wp (for_each xs body tt) (fun r s' => r = inl tt /\ I (pre ++ (xs ≫= g)) s') s.
Proof.
  induction xs as [|x xs IH]; intros pre s Hb HI Hpre.
  - cbn [for_each]. apply wp_ret. by rewrite app_nil_r.
  - cbn [for_each]. rewrite bind_cons, app_assoc in *. apply wp_bind.
    eapply wp_mono; [|apply (Hb pre x s); [left|done|by eapply prefix_app_l]].
    intros r s' [-> HI']. apply IH; [|done|done]. intros dn y s'' Hy. apply Hb. by right.
Qed.

(** A [for] loop over a list in two parts. *)
Lemma for_each_app_run {X A B} (body : A -> X -> M S (A + B)) xs ys a s a' s' :
  for_each xs body a s = Ret (inl a') s' -> for_each (xs ++ ys) body a s = for_each ys body a' s'.
Proof.
  revert a s. induction xs as [|x xs IH]; intros a s; [by intros [= -> ->]|].
  cbn [for_each app]. unfold mbind, M_bind. destruct (body a x s) as [[a1|b] s1| |]; [apply IH|done|done|done].
Qed.

Lemma bind_Ret {A B} (m : M S A) (k : A -> M S B) s b s'' :
  (m ≫= k) s = Ret b s'' <-> exists a s', m s = Ret a s' /\ k a s' = Ret b s''.
Proof.
  unfold mbind, M_bind. split.
  - destruct (m s) as [a s'|w|w]; [eauto|done|done].
  - by intros (a & s' & -> & H).
Qed.

Lemma bind_run {A B} (m : M S A) (k : A -> M S B) s a s' :
  m s = Ret a s' -> (m ≫= k) s = k a s'.
Proof. unfold mbind, M_bind. by intros ->. Qed.

Lemma bind_panic {A B} (m : M S A) (k : A -> M S B) s w :
  m s = Panic w -> (m ≫= k) s = Panic w.
Proof. unfold mbind, M_bind. by intros ->. Qed.
End wp.

Lemma wp_zoom {S T A} (get : S -> T) (set : T -> S -> S) (m : M T A) Q s :
  wp m (fun a t => Q a (set t s)) (get s) -> wp (zoom get set m) Q s.
Proof. unfold wp, zoom. by destruct (m (get s)). Qed.

Create HintDb glenda.
Create Rewrite HintDb glenda_rw.
#[export] Hint Resolve wp_ret wp_gets wp_modify : glenda.

(** The solver of the arithmetic side conditions; later files extend it. *)
Ltac wp_side := unfold U64, U32 in *; lia.

(** A component adds its primitive accesses here. *)
Ltac wp_prim := fail.

(** One step of symbolic execution of a monadic body. *)
Ltac wp_step :=
  lazymatch goal with
  | |- wp (_ ≫= _) _ _ => apply wp_bind
  | |- wp (mret _) _ _ => apply wp_ret
  | |- wp (gets _) _ _ => apply wp_gets
  | |- wp (modify _) _ _ => apply wp_modify
  | |- wp (uadd _ _) _ _ => unfold uadd; apply wp_checked; [try wp_side|]
  | |- wp (usub _ _) _ _ => unfold usub; apply wp_checked; [try wp_side|]
  | |- wp (umul _ _) _ _ => unfold umul; apply wp_checked; [try wp_side|]
  | |- wp (uadd32 _ _) _ _ => unfold uadd32; apply wp_checked; [try wp_side|]
  | |- wp (usub32 _ _) _ _ => unfold usub32; apply wp_checked; [try wp_side|]
  | |- wp (checked _ _ _) _ _ => apply wp_checked; [try wp_side|]
  | |- wp (zoom _ _ _) _ _ => apply wp_zoom
  | |- wp (let _ := _ in _) _ _ => cbv zeta
  | |- wp ((fun _ => _) _) _ _ => cbv beta
  | |- _ => wp_prim
  end.
Ltac wp_steps := repeat (wp_step; cbv beta iota).

(** Turn boolean tests of the code into propositions. *)
Ltac breflect :=
  repeat match goal with
  | H : (_ <? _) = true |- _ => apply Z.ltb_lt in H
  | H : (_ <? _) = false |- _ => apply Z.ltb_ge in H
  | H : (_ <=? _) = true |- _ => apply Z.leb_le in H
  | H : (_ <=? _) = false |- _ => apply Z.leb_gt in H
  | H : (_ =? _) = true |- _ => apply Z.eqb_eq in H
  | H : (_ =? _) = false |- _ => apply Z.eqb_neq in H
  | H : _ && _ = true |- _ => apply andb_true_iff in H; destruct H
  | H : _ || _ = false |- _ => apply orb_false_iff in H; destruct H
  | H : negb _ = true |- _ => apply negb_true_iff in H
  | H : negb _ = false |- _ => apply negb_false_iff in H
  end.

(** Case on the test of the first [if] of the goal. *)
Ltac case_test :=
  match goal with
  | |- context [if ?b then _ else _] =>
      lazymatch type of b with bool => let E := fresh "E" in destruct b eqn:E; breflect end
  end.

Ltac Zb := first [apply Z.ltb_lt | apply Z.ltb_ge | apply Z.leb_le | apply Z.leb_gt
  | apply Z.eqb_eq | apply Z.eqb_neq]; lia.

(** ** Functions as memories *)

(** A store of words addressed by integers, updated in place. *)
Definition upd (m : Z -> Z) (a v : Z) : Z -> Z := fun b => if b =? a then v else m b.
Definition fill (m : Z -> Z) (lo n v : Z) : Z -> Z :=
  fun b => if (lo <=? b) && (b <? lo + n) then v else m b.
Definition copy_range (m : Z -> Z) (src dst n : Z) : Z -> Z :=
  fun b => if (dst <=? b) && (b <? dst + n) then m (b - dst + src) else m b.

Lemma upd_eq m a v : upd m a v a = v.
Proof. unfold upd. by rewrite Z.eqb_refl. Qed.
Lemma upd_ne m a v b : b <> a -> upd m a v b = m b.
Proof. intros H. unfold upd. by rewrite (proj2 (Z.eqb_neq b a) H). Qed.
Lemma upd_overwrite m a v w b : upd (upd m a v) a w b = upd m a w b.
Proof. unfold upd. by case_test. Qed.
Lemma fill_in m lo n v b : lo <= b < lo + n -> fill m lo n v b = v.
Proof.
  intros H. unfold fill.
  by rewrite (proj2 (Z.leb_le lo b)), (proj2 (Z.ltb_lt b (lo + n))) by lia.
Qed.
Lemma fill_out m lo n v b : ~ (lo <= b < lo + n) -> fill m lo n v b = m b.
Proof. intros H. unfold fill. case_test; [lia|done]. Qed.
Lemma copy_range_in m src dst n b :
  dst <= b < dst + n -> copy_range m src dst n b = m (b - dst + src).
Proof.
  intros H. unfold copy_range.
  by rewrite (proj2 (Z.leb_le dst b)), (proj2 (Z.ltb_lt b (dst + n))) by lia.
Qed.
Lemma copy_range_out m src dst n b : ~ (dst <= b < dst + n) -> copy_range m src dst n b = m b.
Proof. intros H. unfold copy_range. case_test; [lia|done]. Qed.
#[export] Hint Rewrite upd_eq upd_overwrite : glenda_rw.

(** ** Bits *)

Lemma testbit_high x n i : 0 <= x < 2 ^ n -> n <= i -> Z.testbit x i = false.
Proof.
  intros Hx Hi.
  destruct (Z.ltb_spec n 0) as [Hn|Hn]; [rewrite (Z.pow_neg_r 2 n) in Hx by lia; lia|].
  destruct (Z.eq_dec x 0) as [->|Hx0]; [by rewrite Z.bits_0|].
  apply Z.bits_above_log2; [lia|]. apply Z.log2_lt_pow2; [lia|].
  apply Z.lt_le_trans with (2 ^ n); [lia|]. apply Z.pow_le_mono_r; lia.
Qed.

(** Testing one bit with a mask, as the code does. *)
Lemma land_bit x j : 0 <= j -> (Z.land x (Z.shiftl 1 j) =? 0) = negb (Z.testbit x j).
Proof.
  intros Hj. rewrite Z.shiftl_1_l. destruct (Z.testbit x j) eqn:E; simpl.
  - apply Z.eqb_neq. intros H0. apply (f_equal (fun y => Z.testbit y j)) in H0.
    rewrite Z.land_spec, E, Z.pow2_bits_true, Z.bits_0 in H0 by done. done.
  - apply Z.eqb_eq, Z.bits_inj'. intros i Hi. rewrite Z.land_spec, Z.bits_0.
    destruct (decide (i = j)) as [->|]; [by rewrite E|].
    rewrite Z.pow2_bits_false by lia. by rewrite andb_false_r.
Qed.

(** ** Little-endian round trips *)

Lemma length_le_bytes n x : length (le_bytes n x) = n.
Proof. revert x. induction n; simpl; intros; [done|by f_equal]. Qed.

Lemma le_bytes_range n x : Forall (fun b => 0 <= b < 256) (le_bytes n x).
Proof.
  revert x. induction n as [|n IH]; intros x; simpl; constructor; [|done].
  by apply Z.mod_pos_bound.
Qed.

Lemma le_value_bytes n x : 0 <= x < 256 ^ Z.of_nat n -> le_value (le_bytes n x) = x.
Proof.
  revert x. induction n as [|n IH]; intros x Hx; simpl.
  - change (256 ^ Z.of_nat 0) with 1 in Hx. lia.
  - rewrite IH.
    + pose proof (Z.div_mod x 256). lia.
    + rewrite Nat2Z.inj_succ, Z.pow_succ_r in Hx by lia.
      split; [apply Z.div_pos; lia|]. apply Z.div_lt_upper_bound; lia.
Qed.

Lemma le_bytes_value bs :
  Forall (fun b => 0 <= b < 256) bs -> le_bytes (length bs) (le_value bs) = bs.
Proof.
  induction 1 as [|b bs Hb _ IH]; simpl; [done|]. f_equal.
  - rewrite (Z.mul_comm 256), Z.mod_add by lia. by apply Z.mod_small.
  - by rewrite (Z.mul_comm 256), Z.div_add, (Z.div_small b) by lia.
Qed.

Lemma le_value_bound bs :
  Forall (fun b => 0 <= b < 256) bs -> 0 <= le_value bs < 256 ^ Z.of_nat (length bs).
Proof.
  induction 1 as [|b bs Hb _ IH]; simpl length; [done|].
  rewrite Nat2Z.inj_succ, Z.pow_succ_r by lia. cbn [le_value]. lia.
Qed.

(** ** Lists *)

Lemma elem_of_range lo hi x : x ∈ range lo hi <-> lo <= x < hi.
Proof. unfold range. rewrite elem_of_seqZ. lia. Qed.

Lemma NoDup_range lo hi : NoDup (range lo hi).
Proof. apply NoDup_seqZ. Qed.
