(* ===== verification/Addr.v ===== *)
(** * Addresses and page-table entries ([mem/mod.rs], [mem/addr.rs], [mem/pte.rs])

    The layout constants, the page arithmetic and the Sv39 entry encoding,
    with the bit operations written as the code writes them and the facts the
    page tables rely on: alignment is exact, the three table indices and the
    offset determine the address, and an entry gives back what was stored. *)
From S2P Require Import Prelude.

(** ** [mem/mod.rs] *)

Definition PGSIZE : Z := 4096.
Definition PGNUM : Z := PGSIZE / 8.
Definition PGMASK : Z := PGSIZE - 1.
Definition VA_MAX : Z := Z.shiftl 1 38.
Definition KERN_PAGES : Z := 8192.
Definition MMAP_END : Z := VA_MAX - (16 * 256 + 2) * PGSIZE.
Definition MMAP_BEGIN : Z := MMAP_END - 64 * 256 * PGSIZE.

(** [!x] on a [usize] *)
Definition unot (x : Z) : Z := U64 - 1 - x.

(** ** [mem/addr.rs] *)

(** The addition of [align_up] panics when it overflows. *)
Definition align_up {S} (value : Z) : M S Z :=
  v ← uadd value PGMASK; mret (Z.land v (unot PGMASK)).
Definition align_down (value : Z) : Z := Z.land value (unot PGMASK).
Definition page_offset (addr : Z) : Z := Z.land addr PGMASK.

(** [vpn(va)[level]]; [ppn] of [addr.rs] computes the same three fields. *)
Definition vpn (addr level : Z) : Z :=
  Z.land (Z.shiftr addr (12 + 9 * level)) 0x1FF.

(** ** [mem/pte.rs] *)

Definition PTE_V : Z := Z.shiftl 1 0.
Definition PTE_R : Z := Z.shiftl 1 1.
Definition PTE_W : Z := Z.shiftl 1 2.
Definition PTE_X : Z := Z.shiftl 1 3.
Definition PTE_U : Z := Z.shiftl 1 4.
Definition PTE_G : Z := Z.shiftl 1 5.
Definition PTE_A : Z := Z.shiftl 1 6.
Definition PTE_D : Z := Z.shiftl 1 7.

Definition set_ppn (pte ppn : Z) : Z := Z.lor (Z.land pte 0x3FF) (wrap64 (Z.shiftl ppn 10)).
Definition get_ppn (pte : Z) : Z := Z.land (Z.shiftr pte 10) 0xFFFFFFFFFFF.
Definition set_flags (pte flags : Z) : Z := Z.lor (Z.land pte (unot 0x3FF)) (Z.land flags 0x3FF).
Definition get_flags (pte : Z) : Z := Z.land pte 0x3FF.
Definition is_valid (pte : Z) : bool := negb (Z.land pte PTE_V =? 0).
Definition is_leaf (pte : Z) : bool := negb (Z.land pte (Z.lor (Z.lor PTE_R PTE_W) PTE_X) =? 0).
Definition is_table (pte : Z) : bool := is_valid pte && negb (is_leaf pte).
Definition pte_to_pa (pte : Z) : Z := wrap64 (Z.shiftl (get_ppn pte) 12).
Definition pa_to_pte (pa flags : Z) : Z :=
  Z.lor (wrap64 (Z.shiftl (Z.land (Z.shiftr pa 12) 0xFFFFFFFFFFF) 10)) (Z.land flags 0x3FF).

(** Arithmetic with the page constants unfolded. *)
Ltac page_lia := unfold PGMASK, PGNUM, PGSIZE, U64, U32 in *; lia.
(** The same with division: page rounding in linear arithmetic. *)
Ltac div_lia := unfold PGSIZE in *; Z.to_euclidean_division_equations; lia.
Ltac wp_side ::= page_lia.

(** ** Bit-level facts *)

(** Decide an equality of words bit by bit. *)
Ltac bits_pre :=
  apply Z.bits_inj'; intros ?i ?Hi;
  repeat first
    [ rewrite Z.land_spec | rewrite Z.lor_spec
    | rewrite Z.shiftr_spec by lia | rewrite Z.shiftl_spec by lia
    | rewrite Z.testbit_ones_nonneg by lia ].

Lemma wrap64_small x : 0 <= x < U64 -> wrap64 x = x.
Proof. intros. by apply Z.mod_small. Qed.

Lemma wrap64_ones x : wrap64 x = Z.land x (Z.ones 64).
Proof. symmetry. by apply Z.land_ones. Qed.

Lemma land_low x n : 0 <= n -> Z.land x (Z.ones n) = x mod 2 ^ n.
Proof. intros. by apply Z.land_ones. Qed.

Lemma land_pgmask_not x : 0 <= x < U64 -> Z.land x (unot PGMASK) = x / PGSIZE * PGSIZE.
Proof.
  intros Hx. change (unot PGMASK) with (Z.shiftl (Z.ones 52) 12).
  replace (x / PGSIZE * PGSIZE) with (Z.shiftl (Z.shiftr x 12) 12)
    by (rewrite Z.shiftl_mul_pow2, Z.shiftr_div_pow2 by lia; done).
  bits_pre. destruct (Z.ltb_spec i 12) as [Hlt|Hge].
  - rewrite !(Z.testbit_neg_r _ (i - 12)) by lia. by rewrite andb_false_r.
  - rewrite Z.shiftr_spec, Z.testbit_ones_nonneg by lia. replace (i - 12 + 12) with i by lia.
    destruct (Z.ltb_spec (i - 12) 52); [by rewrite andb_true_r|].
    rewrite (testbit_high x 64) by (unfold U64 in Hx; lia). done.
Qed.

Lemma align_down_eq x : 0 <= x < U64 -> align_down x = x / PGSIZE * PGSIZE.
Proof. apply land_pgmask_not. Qed.

Lemma page_offset_eq x : page_offset x = x mod PGSIZE.
Proof. unfold page_offset. change PGMASK with (Z.ones 12). by rewrite land_low. Qed.

Lemma vpn_eq x level : 0 <= level -> vpn x level = x / 2 ^ (12 + 9 * level) mod 512.
Proof.
  intros. unfold vpn. change 0x1FF with (Z.ones 9).
  rewrite land_low, Z.shiftr_div_pow2 by lia. done.
Qed.

Lemma vpn_range x level : 0 <= level -> 0 <= vpn x level < PGNUM.
Proof. intros. rewrite vpn_eq by done. by apply Z.mod_pos_bound. Qed.

(** What [align_up] returns when it does not panic. *)
Definition align_up_val (x : Z) : Z := (x + PGMASK) / PGSIZE * PGSIZE.

Lemma align_up_run {S} (s : S) x :
  0 <= x -> x + PGMASK < U64 -> align_up x s = Ret (align_up_val x) s.
Proof.
  intros H0 H1. assert (0 <= x + PGMASK < U64) by (unfold PGMASK, PGSIZE in *; lia).
  unfold align_up. erewrite bind_run by by apply checked_run.
  by rewrite land_pgmask_not by done.
Qed.

Lemma wp_align_up {S} x Q (s : S) :
  0 <= x -> x + PGMASK < U64 -> Q (align_up_val x) s -> wp (align_up x) Q s.
Proof. intros H0 H1 HQ. eapply wp_intro; [by apply align_up_run|done]. Qed.

Lemma align_up_val_spec x :
  align_up_val x mod PGSIZE = 0 /\ x <= align_up_val x < x + PGSIZE.
Proof.
  unfold align_up_val, PGMASK, PGSIZE. split; [by rewrite Z.mod_mul|].
  pose proof (Z.div_mod (x + (4096 - 1)) 4096). pose proof (Z.mod_pos_bound (x + (4096 - 1)) 4096).
  lia.
Qed.

Lemma align_up_aligned x : x mod PGSIZE = 0 -> align_up_val x = x.
Proof.
  intros H. destruct (align_up_val_spec x) as [Ha Hb]. unfold PGSIZE in *.
  pose proof (Z.div_mod x 4096). pose proof (Z.div_mod (align_up_val x) 4096). lia.
Qed.

Lemma align_down_spec x : 0 <= x < U64 ->
  align_down x mod PGSIZE = 0 /\ align_down x <= x < align_down x + PGSIZE.
Proof.
  intros Hx. rewrite align_down_eq by done. unfold PGSIZE. split; [by rewrite Z.mod_mul|].
  pose proof (Z.div_mod x 4096). pose proof (Z.mod_pos_bound x 4096). lia.
Qed.

Lemma align_down_aligned x : 0 <= x < U64 -> x mod PGSIZE = 0 -> align_down x = x.
Proof.
  intros Hx H. rewrite align_down_eq by done. unfold PGSIZE in *.
  pose proof (Z.div_mod x 4096). lia.
Qed.

(** A loop that advances by a page makes progress. *)
Lemma page_measure x y : PGSIZE <= x -> y = x - PGSIZE ->
  (Z.to_nat (y / PGSIZE) < Z.to_nat (x / PGSIZE))%nat.
Proof.
  intros Hx ->. replace (x - PGSIZE) with (x + -1 * PGSIZE) by lia.
  rewrite Z.div_add by done.
  assert (1 <= x / PGSIZE) by (apply Z.div_le_lower_bound; page_lia). lia.
Qed.

(** The fields of an entry. *)
Lemma pa_to_pte_eq pa flags :
  0 <= pa -> pa_to_pte pa flags = (pa / PGSIZE) mod 2 ^ 44 * 1024 + flags mod 1024.
Proof.
  intros Hpa. unfold pa_to_pte.
  change 0xFFFFFFFFFFF with (Z.ones 44). change 0x3FF with (Z.ones 10).
  rewrite !land_low, Z.shiftr_div_pow2, Z.shiftl_mul_pow2 by lia.
  change (2 ^ 12) with PGSIZE. set (p := (pa / PGSIZE) mod 2 ^ 44).
  assert (0 <= p < 2 ^ 44) by (subst p; by apply Z.mod_pos_bound).
  rewrite wrap64_small by (unfold U64; lia).
  assert (Hland : Z.land (p * 2 ^ 10) (flags mod 2 ^ 10) = 0).
  { apply Z.bits_inj_0. intros i. rewrite Z.land_spec, <-Z.shiftl_mul_pow2 by lia.
    destruct (Z.ltb_spec i 10) as [Hlt|Hge].
    - by rewrite Z.shiftl_spec_low by lia.
    - by rewrite (testbit_high (flags mod 2 ^ 10) 10), andb_false_r
        by (try apply Z.mod_pos_bound; lia). }
  rewrite <-Z.lxor_lor by done. symmetry. by apply Z.add_nocarry_lxor.
Qed.

Lemma get_ppn_eq pte : get_ppn pte = pte / 1024 mod 2 ^ 44.
Proof.
  unfold get_ppn. change 0xFFFFFFFFFFF with (Z.ones 44).
  rewrite land_low, Z.shiftr_div_pow2 by lia. done.
Qed.

Lemma get_flags_eq pte : get_flags pte = pte mod 1024.
Proof. unfold get_flags. change 0x3FF with (Z.ones 10). by rewrite land_low. Qed.

Lemma pte_to_pa_eq pte : pte_to_pa pte = pte / 1024 mod 2 ^ 44 * PGSIZE.
Proof.
  unfold pte_to_pa. rewrite get_ppn_eq, Z.shiftl_mul_pow2 by lia.
  pose proof (Z.mod_pos_bound (pte / 1024) (2 ^ 44)).
  rewrite wrap64_small; [done|]. unfold U64. lia.
Qed.

Lemma pte_to_pa_aligned pte : pte_to_pa pte mod PGSIZE = 0.
Proof. rewrite pte_to_pa_eq. by rewrite Z.mod_mul. Qed.

Lemma pte_to_pa_range pte : 0 <= pte_to_pa pte < 2 ^ 56.
Proof.
  rewrite pte_to_pa_eq. pose proof (Z.mod_pos_bound (pte / 1024) (2 ^ 44)).
  unfold PGSIZE. lia.
Qed.

Lemma get_flags_pa_to_pte pa flags : 0 <= pa -> get_flags (pa_to_pte pa flags) = flags mod 1024.
Proof.
  intros. rewrite pa_to_pte_eq, get_flags_eq by done.
  rewrite Z.add_comm, Z.mod_add by lia. by rewrite Z.mod_mod.
Qed.

Lemma pte_to_pa_pa_to_pte pa flags :
  0 <= pa < 2 ^ 56 -> pte_to_pa (pa_to_pte pa flags) = pa / PGSIZE * PGSIZE.
Proof.
  intros. rewrite pa_to_pte_eq, pte_to_pa_eq by lia.
  rewrite Z.div_add_l, (Z.div_small (flags mod 1024)), Z.add_0_r, Z.mod_mod
    by (try apply Z.mod_pos_bound; lia).
  rewrite Z.mod_small; [done|]. unfold PGSIZE. split; [apply Z.div_pos; lia|].
  apply Z.div_lt_upper_bound; lia.
Qed.

(** A mask test looks at the flags only. *)
Lemma land_flags x mask : 0 <= mask < 1024 -> Z.land x mask = Z.land (x mod 1024) mask.
Proof.
  intros Hm. change 1024 with (2 ^ 10). rewrite <-land_low by lia.
  rewrite <-Z.land_assoc. f_equal. rewrite Z.land_comm, land_low by lia.
  by rewrite Z.mod_small.
Qed.

Lemma is_valid_flags x : is_valid x = is_valid (x mod 1024).
Proof. unfold is_valid. by rewrite land_flags. Qed.
Lemma is_leaf_flags x : is_leaf x = is_leaf (x mod 1024).
Proof. unfold is_leaf. by rewrite land_flags. Qed.

Lemma is_valid_pa_to_pte pa flags : 0 <= pa -> is_valid (pa_to_pte pa flags) = is_valid flags.
Proof.
  intros. rewrite is_valid_flags, <-get_flags_eq, get_flags_pa_to_pte by done.
  by rewrite <-is_valid_flags.
Qed.
Lemma is_leaf_pa_to_pte pa flags : 0 <= pa -> is_leaf (pa_to_pte pa flags) = is_leaf flags.
Proof.
  intros. rewrite is_leaf_flags, <-get_flags_eq, get_flags_pa_to_pte by done.
  by rewrite <-is_leaf_flags.
Qed.

Lemma is_valid_lor_V flags : is_valid (Z.lor flags PTE_V) = true.
Proof.
  unfold is_valid, PTE_V. apply negb_true_iff, Z.eqb_neq. intros H.
  assert (Ht : Z.testbit (Z.land (Z.lor flags (Z.shiftl 1 0)) (Z.shiftl 1 0)) 0 = true)
    by (rewrite Z.land_spec, Z.lor_spec; simpl; by rewrite orb_true_r).
  rewrite H in Ht. done.
Qed.

Lemma is_leaf_lor_V flags : is_leaf (Z.lor flags PTE_V) = is_leaf flags.
Proof.
  unfold is_leaf. f_equal. f_equal.
  change (Z.lor (Z.lor PTE_R PTE_W) PTE_X) with 14.
  rewrite Z.land_lor_distr_l. change (Z.land PTE_V 14) with 0. by rewrite Z.lor_0_r.
Qed.
