(* ===== verification/PhysMem.v ===== *)
(** * The physical page allocator ([mem/pmem.rs], [mem/frame.rs])

    Physical memory is a store of 64-bit words at their (8-aligned) addresses;
    the free lists of the two regions are threaded through the first word of
    each free page, as in the code, and the reference counts are the static
    [PAGE_REF]. The invariant [pmem_inv] says that each free list is a
    duplicate-free chain holding exactly the region's pages of count zero. *)
From S2P Require Import Prelude Addr.

(** ** State *)

Definition PHY_MEM_START : Z := 0x80000000.
Definition TOTAL_PAGES : Z := 128 * 1024 * 1024 / PGSIZE.

Record RegionBounds := mkBounds { rb_begin : Z; rb_end : Z }.
(** [head] is the address of the first free page, 0 for [None]. *)
Record RegionInner := mkInner { head : Z; allocable : Z }.
Record AllocRegion := mkRegion { bounds : option RegionBounds; inner : RegionInner }.
Record RegionInfo := mkInfo { ri_begin : Z; ri_end : Z; ri_allocable : Z }.
Record MemoryRange := mkRange { mr_start : Z; mr_size : Z }.

Record pmem := mkPmem {
  mem : Z -> Z;
  page_ref : Z -> Z;
  KERNEL_REGION : AllocRegion;
  USER_REGION : AllocRegion;
}.

Definition AllocRegion_new : AllocRegion := mkRegion None (mkInner 0 0).

(** Memory as the boot loader leaves it, with the statics of [pmem.rs]. *)
Definition pmem_boot (m : Z -> Z) : pmem :=
  mkPmem m (fun _ => 0) AllocRegion_new AllocRegion_new.

Definition set_mem (m : Z -> Z) (s : pmem) : pmem :=
  mkPmem m (page_ref s) (KERNEL_REGION s) (USER_REGION s).
Definition set_page_ref (r : Z -> Z) (s : pmem) : pmem :=
  mkPmem (mem s) r (KERNEL_REGION s) (USER_REGION s).

(** [region(for_kernel)] *)
Definition region (for_kernel : bool) (s : pmem) : AllocRegion :=
  if for_kernel then KERNEL_REGION s else USER_REGION s.
Definition set_region (for_kernel : bool) (r : AllocRegion) (s : pmem) : pmem :=
  if for_kernel then mkPmem (mem s) (page_ref s) r (USER_REGION s)
  else mkPmem (mem s) (page_ref s) (KERNEL_REGION s) r.
Definition set_inner (for_kernel : bool) (i : RegionInner) (s : pmem) : pmem :=
  set_region for_kernel (mkRegion (bounds (region for_kernel s)) i) s.

(** Word reads and writes through raw pointers. *)
Definition load (a : Z) : M pmem Z := gets (fun s => mem s a).
Definition store (a v : Z) : M pmem unit := modify (fun s => set_mem (upd (mem s) a v) s).
(** [ptr::write_bytes(p, 0, PGSIZE)] and the page-sized [copy_nonoverlapping] *)
Definition zero_page (p : Z) : M pmem unit :=
  modify (fun s => set_mem (fill (mem s) p PGSIZE 0) s).
Definition copy_page (src dst : Z) : M pmem unit :=
  modify (fun s => set_mem (copy_range (mem s) src dst PGSIZE) s).

Ltac wp_prim ::=
  lazymatch goal with
  | |- wp (store _ _) _ _ => unfold store
  | |- wp (load _) _ _ => unfold load
  | |- wp (zero_page _) _ _ => unfold zero_page
  | |- wp (copy_page _ _) _ _ => unfold copy_page
  end.

(** ** Operations *)

Definition pa_to_index (pa : Z) : M pmem Z :=
  if pa <? PHY_MEM_START then panic "pa_to_index: pa too low"
  else
    let offset := pa - PHY_MEM_START in
    let idx := offset / PGSIZE in
    if TOTAL_PAGES <=? idx then panic "pa_to_index: pa too high" else mret idx.

Definition region_contains (r : AllocRegion) (addr : Z) : bool :=
  match bounds r with
  | Some b => (rb_begin b <=? addr) && (addr <? rb_end b)
  | None => false
  end.

(** The [while] of [AllocRegion::init]: push every page of the range. *)
Definition region_init_body (end_aligned : Z) (st : Z * Z * Z)
  : M pmem (Z * Z * Z + Z * Z) :=
  let '(hd, count, current) := st in
  top ← uadd current PGSIZE;
  if top <=? end_aligned then
    store current hd;;
    count' ← uadd count 1;
    current' ← uadd current PGSIZE;
    mret (inl (current, count', current'))
  else mret (inr (hd, count)).

Definition region_init (for_kernel : bool) (begin end_ : Z) : M pmem unit :=
  begin_aligned ← align_up begin;
  let end_aligned := align_down end_ in
  let fuel := S (Z.to_nat ((end_aligned - begin_aligned) / PGSIZE)) in
  '(hd, count) ← loop fuel (region_init_body end_aligned) (0, 0, begin_aligned);
  r ← gets (region for_kernel);
  match bounds r with
  | Some _ => panic "AllocRegion::init called twice"
  | None =>
      modify (set_region for_kernel
        (mkRegion (Some (mkBounds begin_aligned end_aligned)) (mkInner hd count)))
  end.

Definition region_info (for_kernel : bool) : M pmem RegionInfo :=
  r ← gets (region for_kernel);
  b ← expect (bounds r) "region not initialized";
  mret (mkInfo (rb_begin b) (rb_end b) (allocable (inner r))).

Definition region_allocate (for_kernel : bool) : M pmem (option Z) :=
  r ← gets (region for_kernel);
  let hd := head (inner r) in
  if hd =? 0 then mret None
  else
    next ← load hd;
    modify (set_inner for_kernel (mkInner next (sat_sub (allocable (inner r)) 1)));;
    idx ← pa_to_index hd;
    old ← gets (fun s => page_ref s idx);
    modify (fun s => set_page_ref (upd (page_ref s) idx (wrap8 (old + 1))) s);;
    if old =? 0 then
      zero_page hd;;
      mret (Some hd)
    else panic "pmem_alloc: ref count corrupted (expected 0)".

Definition region_free (for_kernel : bool) (addr : Z) : M pmem unit :=
  r ← gets (region for_kernel);
  b ← expect (bounds r) "region not initialized";
  if (addr <? rb_begin b) || (rb_end b <=? addr) || negb (addr mod PGSIZE =? 0) then
    panic "pmem_free: address out of bounds"
  else
    idx ← pa_to_index addr;
    old ← gets (fun s => page_ref s idx);
    modify (fun s => set_page_ref (upd (page_ref s) idx (wrap8 (old - 1))) s);;
    if old =? 0 then panic "pmem_free: double free detected"
    else if 1 <? old then mret tt
    else
      r' ← gets (region for_kernel);
      store addr (head (inner r'));;
      n ← uadd (allocable (inner r')) 1;
      modify (set_inner for_kernel (mkInner addr n)).

Definition allocate_page (for_kernel : bool) : M pmem (option Z) := region_allocate for_kernel.

Definition pmem_alloc (for_kernel : bool) : M pmem Z :=
  o ← allocate_page for_kernel;
  match o with
  | Some ptr => mret ptr
  | None =>
      if for_kernel then panic "pmem_alloc: kernel region exhausted"
      else panic "pmem_alloc: user region exhausted"
  end.

Definition try_alloc (for_kernel : bool) : M pmem (option Z) := allocate_page for_kernel.

Definition pmem_free (addr : Z) (_for_kernel : bool) : M pmem unit :=
  k ← gets KERNEL_REGION;
  u ← gets USER_REGION;
  if region_contains k addr then region_free true addr
  else if region_contains u addr then region_free false addr
  else panic "pmem_free: address out of all regions".

Definition kernel_region_info : M pmem RegionInfo := region_info true.
Definition user_region_info : M pmem RegionInfo := region_info false.
Definition kernel_pool_range : M pmem (Z * Z) :=
  i ← region_info true; mret (ri_begin i, ri_end i).

Definition get_region (pa : Z) : M pmem (option bool) :=
  k ← kernel_region_info;
  u ← user_region_info;
  if (ri_begin k <=? pa) && (pa <? ri_end k) then mret (Some true)
  else if (ri_begin u <=? pa) && (pa <? ri_end u) then mret (Some false)
  else mret None.

Definition debug_assert {S} (b : bool) : M S unit :=
  if b then mret tt else panic "assertion failed".

(** [bss_end] and [alloc_start] are the linker's symbols; [range] is what
    [dtb::memory_range()] answers. *)
Definition initialize_regions (bss_end alloc_start : Z) (range : option MemoryRange)
  : M pmem unit :=
  kernel_end ← align_up bss_end;
  let mem_range := default (mkRange 0x80000000 (128 * 1024 * 1024)) range in
  mem_end ← uadd (mr_start mem_range) (mr_size mem_range);
  if mem_end <=? kernel_end then panic "pmem_init: kernel end beyond memory end"
  else
    let alloc_begin := alloc_start in
    debug_assert (kernel_end <=? alloc_begin);;
    debug_assert (Z.land alloc_begin (PGSIZE - 1) =? 0);;
    let alloc_end := mem_end in
    t ← uadd alloc_begin (KERN_PAGES * PGSIZE);
    split0 ← align_up t;
    let split1 := if alloc_end <? split0 then alloc_end else split0 in
    let kernel_split := if split1 <? alloc_begin then alloc_begin else split1 in
    region_init true alloc_begin kernel_split;;
    region_init false kernel_split alloc_end;;
    k ← region_info true;
    u ← region_info false;
    debug_assert (Z.land (ri_begin k) (PGSIZE - 1) =? 0);;
    debug_assert (Z.land (ri_end k) (PGSIZE - 1) =? 0);;
    debug_assert (Z.land (ri_begin u) (PGSIZE - 1) =? 0);;
    debug_assert (Z.land (ri_end u) (PGSIZE - 1) =? 0).

(** [PhysFrame] owns one kernel page and gives it back when dropped. *)
Record PhysFrame := mkFrame { frame_addr : Z }.
Definition PhysFrame_alloc : M pmem (option PhysFrame) :=
  pa ← pmem_alloc true;
  if pa =? 0 then mret None else mret (Some (mkFrame pa)).
Definition PhysFrame_drop (f : PhysFrame) : M pmem unit := pmem_free (frame_addr f) true.

(** ** Invariant *)

(** The list [l] of pages is threaded from [p] through the pages' first words. *)
Fixpoint chain (m : Z -> Z) (p : Z) (l : list Z) : Prop :=
  match l with
  | [] => p = 0
  | q :: l' => p = q /\ q <> 0 /\ chain m (m q) l'
  end.

Definition page_index (p : Z) : Z := (p - PHY_MEM_START) / PGSIZE.
Definition in_bounds (b : RegionBounds) (p : Z) : Prop :=
  rb_begin b <= p < rb_end b /\ p mod PGSIZE = 0.

Record region_ok (b : RegionBounds) (r : AllocRegion) (m refs : Z -> Z) (fl : list Z) : Prop := {
  ro_bounds : bounds r = Some b;
  ro_chain : chain m (head (inner r)) fl;
  ro_nodup : NoDup fl;
  ro_count : allocable (inner r) = Z.of_nat (length fl);
  ro_free : forall p, p ∈ fl <-> in_bounds b p /\ refs (page_index p) = 0;
}.

(** The two regions: page-aligned, adjacent, inside the 128 MiB that
    [PAGE_REF] covers. *)
Record layout_ok (kb ub : RegionBounds) : Prop := {
  lo_low : PHY_MEM_START <= rb_begin kb;
  lo_k : rb_begin kb <= rb_end kb;
  lo_ku : rb_end kb <= rb_begin ub;
  lo_u : rb_begin ub <= rb_end ub;
  lo_high : rb_end ub <= PHY_MEM_START + TOTAL_PAGES * PGSIZE;
  lo_al : Forall (fun a => a mod PGSIZE = 0) [rb_begin kb; rb_end kb; rb_begin ub; rb_end ub];
}.

Definition pick (for_kernel : bool) (kb ub : RegionBounds) : RegionBounds :=
  if for_kernel then kb else ub.

Record pmem_inv (kb ub : RegionBounds) (s : pmem) : Prop := {
  pi_layout : layout_ok kb ub;
  pi_region : forall fk, exists fl, region_ok (pick fk kb ub) (region fk s) (mem s) (page_ref s) fl;
  pi_ref : forall i, page_ref s i = 0 \/ page_ref s i = 1;
}.

(** A page some client holds. *)
Definition used (kb ub : RegionBounds) (s : pmem) (p : Z) : Prop :=
  (in_bounds kb p \/ in_bounds ub p) /\ page_ref s (page_index p) = 1.
Definition in_page (p a : Z) : Prop := p <= a < p + PGSIZE.

(** ** Chains and page indices *)

Lemma chain_ext m m' p l : (forall q, q ∈ l -> m' q = m q) -> chain m p l -> chain m' p l.
Proof.
  revert p. induction l as [|q l IH]; intros p Hext; simpl; [done|].
  intros (-> & Hq & Hc). split_and!; [done|done|].
  rewrite Hext by set_solver. apply IH; [set_solver|done].
Qed.

Lemma chain_head m p l : chain m p l -> p = 0 <-> l = [].
Proof. destruct l; simpl; [naive_solver|]. intros (-> & ? & _). naive_solver. Qed.

Lemma page_index_inj b b' p q :
  PHY_MEM_START <= rb_begin b -> PHY_MEM_START <= rb_begin b' ->
  in_bounds b p -> in_bounds b' q -> page_index p = page_index q -> p = q.
Proof.
  unfold in_bounds, page_index, PHY_MEM_START, PGSIZE. intros ? ? [? Hp] [? Hq] Heq.
  pose proof (Z.div_mod p 4096). pose proof (Z.div_mod q 4096).
  pose proof (Z.div_mod (p - 2147483648) 4096). pose proof (Z.div_mod (q - 2147483648) 4096).
  assert ((p - 2147483648) mod 4096 = 0) by (rewrite Zminus_mod, Hp; done).
  assert ((q - 2147483648) mod 4096 = 0) by (rewrite Zminus_mod, Hq; done). lia.
Qed.

Lemma region_set_mem fk m s : region fk (set_mem m s) = region fk s.
Proof. by destruct fk. Qed.
Lemma region_set_page_ref fk r s : region fk (set_page_ref r s) = region fk s.
Proof. by destruct fk. Qed.
Lemma region_set_inner_eq fk i s :
  region fk (set_inner fk i s) = mkRegion (bounds (region fk s)) i.
Proof. by destruct fk. Qed.
Lemma region_set_inner_ne fk i s : region (negb fk) (set_inner fk i s) = region (negb fk) s.
Proof. by destruct fk. Qed.
Lemma mem_set_inner fk i s : mem (set_inner fk i s) = mem s.
Proof. by destruct fk. Qed.
Lemma page_ref_set_inner fk i s : page_ref (set_inner fk i s) = page_ref s.
Proof. by destruct fk. Qed.
#[export] Hint Rewrite region_set_mem region_set_page_ref region_set_inner_eq
  region_set_inner_ne mem_set_inner page_ref_set_inner : glenda_rw.

Section inv.
Context {kb ub : RegionBounds}.
Implicit Types (s : pmem) (fk : bool).

Lemma layout_pick fk : layout_ok kb ub ->
  PHY_MEM_START <= rb_begin (pick fk kb ub) /\
  rb_begin (pick fk kb ub) <= rb_end (pick fk kb ub) <= PHY_MEM_START + TOTAL_PAGES * PGSIZE.
Proof. intros [????? _]. destruct fk; simpl; lia. Qed.

Lemma in_bounds_index fk p : layout_ok kb ub -> in_bounds (pick fk kb ub) p ->
  0 <= page_index p < TOTAL_PAGES /\ p <> 0.
Proof.
  intros HL Hp. destruct (layout_pick fk HL) as [Hlo Hhi].
  unfold in_bounds, page_index, PHY_MEM_START, TOTAL_PAGES, PGSIZE in *.
  change (128 * 1024 * 1024 / 4096) with 32768 in *.
  pose proof (Z.div_mod (p - 2147483648) 4096). pose proof (Z.mod_pos_bound (p - 2147483648) 4096).
  lia.
Qed.

Lemma pa_to_index_run fk p s : layout_ok kb ub -> in_bounds (pick fk kb ub) p ->
  pa_to_index p s = Ret (page_index p) s.
Proof.
  intros HL Hp. pose proof (in_bounds_index fk p HL Hp) as [Hi _].
  pose proof (layout_pick fk HL) as [Hlo _]. destruct Hp as [Hp _].
  unfold pa_to_index. rewrite (proj2 (Z.ltb_ge p PHY_MEM_START)) by lia.
  fold (page_index p). by rewrite (proj2 (Z.leb_gt TOTAL_PAGES (page_index p))) by lia.
Qed.

Lemma same_page fk fk' p q : layout_ok kb ub ->
  in_bounds (pick fk kb ub) p -> in_bounds (pick fk' kb ub) q ->
  page_index p = page_index q -> p = q.
Proof.
  intros HL. apply page_index_inj; by apply layout_pick.
Qed.

Lemma other_region fk p : layout_ok kb ub ->
  in_bounds (pick fk kb ub) p -> ~ in_bounds (pick (negb fk) kb ub) p.
Proof. intros [????? _] [? _] [? _]. destruct fk; simpl in *; lia. Qed.

(** Writes outside the first words of free pages keep the invariant. *)
Lemma pmem_inv_set_mem s m' :
  pmem_inv kb ub s ->
  (forall fk p, in_bounds (pick fk kb ub) p -> page_ref s (page_index p) = 0 -> m' p = mem s p) ->
  pmem_inv kb ub (set_mem m' s).
Proof.
  intros [HL Hreg Href] Hm. split; [done| |done].
  intros fk. rewrite region_set_mem. destruct (Hreg fk) as [fl [? Hc ? ? Hf]]. exists fl.
  split; try done. eapply chain_ext; [|done]. intros q Hq.
  apply Hf in Hq as [??]. by apply (Hm fk).
Qed.

Lemma used_store s p a v :
  pmem_inv kb ub s -> used kb ub s p -> in_page p a ->
  pmem_inv kb ub (set_mem (upd (mem s) a v) s).
Proof.
  intros Hinv [Hp Hr] Ha. apply pmem_inv_set_mem; [done|].
  intros fk q Hq Hq0. apply upd_ne. intros ->.
  assert (a = p) as ->; [|congruence].
  assert (p mod PGSIZE = 0) by (destruct Hp as [[]|[]]; done).
  destruct Hq as [_ Hq]. unfold in_page, PGSIZE in *.
  pose proof (Z.div_mod p 4096). pose proof (Z.div_mod a 4096). lia.
Qed.

(** What the page allocator hands out and takes back, in terms of the state. *)
Definition alloc_state fk p s : pmem :=
  set_mem (fill (mem s) p PGSIZE 0)
    (set_page_ref (upd (page_ref s) (page_index p) 1)
      (set_inner fk (mkInner (mem s p) (allocable (inner (region fk s)) - 1)) s)).
Definition free_state fk p s : pmem :=
  set_inner fk (mkInner p (allocable (inner (region fk s)) + 1))
    (set_mem (upd (mem s) p (head (inner (region fk s))))
      (set_page_ref (upd (page_ref s) (page_index p) 0) s)).

Lemma allocate_run s fk p fl :
  pmem_inv kb ub s ->
  region_ok (pick fk kb ub) (region fk s) (mem s) (page_ref s) (p :: fl) ->
  region_allocate fk s = Ret (Some p) (alloc_state fk p s).
Proof.
  intros [HL _ _] [Hb (Hhd & Hp0 & Hc) Hnd Hcnt Hf].
  destruct (proj1 (Hf p)) as [Hin Hr]; [set_solver|].
  unfold region_allocate. erewrite bind_run by done. rewrite Hhd.
  rewrite (proj2 (Z.eqb_neq p 0)) by done.
  do 2 erewrite bind_run by done.
  erewrite bind_run by by apply (pa_to_index_run fk).
  erewrite bind_run by done. rewrite page_ref_set_inner, Hr.
  erewrite bind_run by done. cbn [Z.eqb]. erewrite bind_run by done.
  unfold alloc_state, sat_sub. simpl length in Hcnt. rewrite Z.max_r by lia.
  f_equal. destruct fk; done.
Qed.

Lemma alloc_inv s fk p fl :
  pmem_inv kb ub s ->
  region_ok (pick fk kb ub) (region fk s) (mem s) (page_ref s) (p :: fl) ->
  pmem_inv kb ub (alloc_state fk p s) /\
  region_ok (pick fk kb ub) (region fk (alloc_state fk p s)) (mem (alloc_state fk p s))
    (page_ref (alloc_state fk p s)) fl.
Proof.
  intros [HL Hreg Href] [Hb (Hhd & Hp0 & Hc) Hnd Hcnt Hf].
  destruct (proj1 (Hf p)) as [Hin Hr]; [set_solver|].
  apply NoDup_cons in Hnd as [Hpn Hnd].
  assert (Hkeep : forall fk' q, in_bounds (pick fk' kb ub) q -> q <> p ->
    fill (mem s) p PGSIZE 0 q = mem s q /\
    upd (page_ref s) (page_index p) 1 (page_index q) = page_ref s (page_index q)).
  { intros fk' q Hq Hne. split.
    - apply fill_out. destruct Hin as [_ Hin], Hq as [_ Hq]. unfold PGSIZE in *.
      pose proof (Z.div_mod p 4096). pose proof (Z.div_mod q 4096). lia.
    - apply upd_ne. intros Heq. apply Hne. by apply (same_page fk' fk). }
  assert (Hok : region_ok (pick fk kb ub) (region fk (alloc_state fk p s))
    (mem (alloc_state fk p s)) (page_ref (alloc_state fk p s)) fl).
  { unfold alloc_state. autorewrite with glenda_rw. simpl in *. split; simpl; [done| |done|lia|].
    - eapply chain_ext; [|done]. intros q Hq. eapply (Hkeep fk); [|set_solver].
      apply (Hf q). set_solver.
    - intros q. destruct (decide (q = p)) as [->|Hne].
      + rewrite upd_eq. split; [done|]. intros [_ ?]. done.
      + transitivity (q ∈ p :: fl); [set_solver|]. rewrite Hf. split; intros [Hq ?].
        * destruct (Hkeep fk q Hq Hne) as [_ ->]. done.
        * destruct (Hkeep fk q Hq Hne) as [_ <-]. done. }
  split; [|done]. split; [done| |].
  - intros fk'. destruct (decide (fk' = fk)) as [->|Hne]; [by exists fl|].
    assert (fk' = negb fk) as -> by (destruct fk, fk'; done).
    destruct (Hreg (negb fk)) as [fl' [Hb' Hc' Hn' Hcnt' Hf']]. exists fl'.
    unfold alloc_state. autorewrite with glenda_rw. simpl.
    assert (Hnp : forall q, in_bounds (pick (negb fk) kb ub) q -> q <> p)
      by (intros q Hq ->; by apply (other_region fk p HL)).
    split; simpl; [done| |done|done|].
    + eapply chain_ext; [|done]. intros q Hq. apply Hf' in Hq as [Hq _].
      apply (Hkeep (negb fk)); [done|by apply Hnp].
    + intros q. rewrite Hf'. split; intros [Hq ?].
      * destruct (Hkeep (negb fk) q Hq) as [_ ->]; [by apply Hnp|done].
      * destruct (Hkeep (negb fk) q Hq) as [_ <-]; [by apply Hnp|done].
  - intros i. unfold alloc_state. autorewrite with glenda_rw. simpl. unfold upd.
    case_test; [by right|apply Href].
Qed.

Lemma bounds_contains fk p s : pmem_inv kb ub s -> in_bounds (pick fk kb ub) p ->
  forall fk', region_contains (region fk' s) p = bool_decide (fk' = fk).
Proof.
  intros [HL Hreg _] Hp fk'. destruct (Hreg fk') as [fl [Hb _ _ _ _]].
  unfold region_contains. rewrite Hb. destruct HL as [????? _]. destruct Hp as [Hp _].
  case_bool_decide as Heq.
  - subst fk'. rewrite (proj2 (Z.leb_le _ _)), (proj2 (Z.ltb_lt _ _)) by lia. done.
  - destruct fk, fk'; simpl in *; try done;
      apply andb_false_iff; [left; apply Z.leb_gt|right; apply Z.ltb_ge]; lia.
Qed.

Lemma region_free_eq s fk p :
  pmem_inv kb ub s -> in_bounds (pick fk kb ub) p ->
  region_free fk p s =
    if page_ref s (page_index p) =? 0 then Panic "pmem_free: double free detected"
    else Ret tt (free_state fk p s).
Proof.
  intros Hinv Hp. pose proof Hinv as [HL Hreg Href]. destruct (Hreg fk) as [fl [Hb Hc Hn Hcnt Hf]].
  pose proof Hp as [Hp1 Hp2]. pose proof (in_bounds_index fk p HL Hp) as [Hidx _].
  unfold region_free. erewrite bind_run by done. rewrite Hb. erewrite bind_run by done.
  rewrite (proj2 (Z.ltb_ge _ _)), (proj2 (Z.leb_gt _ _)), Hp2 by lia.
  cbn [orb negb Z.eqb]. erewrite bind_run by by apply (pa_to_index_run fk).
  do 2 erewrite bind_run by done.
  destruct (Href (page_index p)) as [Hr|Hr]; rewrite Hr; [done|].
  cbn [Z.eqb Z.ltb Z.compare Pos.compare Pos.compare_cont].
  do 2 erewrite bind_run by done. rewrite region_set_page_ref.
  assert (Hlen : (length fl <= Z.to_nat TOTAL_PAGES)%nat).
  { transitivity (length (range 0 TOTAL_PAGES)); [|unfold range; rewrite length_seqZ; lia].
    rewrite <-(length_fmap page_index). apply submseteq_length, NoDup_submseteq.
    - apply NoDup_fmap_2_strong; [|done]. intros x y Hx Hy.
      apply (same_page fk fk); [done|by apply Hf..].
    - intros i. rewrite list_elem_of_fmap. intros (q & -> & Hq).
      apply elem_of_range. apply (in_bounds_index fk q HL). by apply Hf. }
  erewrite bind_run; [by destruct fk|]. unfold uadd. rewrite Hcnt.
  apply checked_run. split; [lia|].
  change TOTAL_PAGES with 32768 in Hlen. unfold U64. lia.
Qed.

Lemma free_inv s fk p :
  pmem_inv kb ub s -> in_bounds (pick fk kb ub) p -> page_ref s (page_index p) = 1 ->
  pmem_inv kb ub (free_state fk p s).
Proof.
  intros [HL Hreg Href] Hp Hr. pose proof (in_bounds_index fk p HL Hp) as [Hidx Hp0].
  assert (Hkeep : forall fk' q, in_bounds (pick fk' kb ub) q -> q <> p ->
    upd (mem s) p (head (inner (region fk s))) q = mem s q /\
    upd (page_ref s) (page_index p) 0 (page_index q) = page_ref s (page_index q)).
  { intros fk' q Hq Hne. split; apply upd_ne; [done|].
    intros Heq. apply Hne. by apply (same_page fk' fk). }
  split; [done| |].
  2:{ intros i. unfold free_state. autorewrite with glenda_rw. simpl. unfold upd.
      case_test; [by left|apply Href]. }
  intros fk'. destruct (decide (fk' = fk)) as [->|Hne].
  - destruct (Hreg fk) as [fl [Hb Hc Hn Hcnt Hf]]. exists (p :: fl).
    assert (Hpn : p ∉ fl) by (rewrite Hf; intros [_ ?]; congruence).
    unfold free_state. autorewrite with glenda_rw. simpl. split; simpl; [done| | |lia|].
    + split_and!; [done|done|]. rewrite upd_eq. eapply chain_ext; [|done].
      intros q Hq. apply (Hkeep fk); [by apply Hf|set_solver].
    + by apply NoDup_cons.
    + intros q. destruct (decide (q = p)) as [->|Hqp].
      * rewrite upd_eq. split; [done|]. intros _. set_solver.
      * transitivity (q ∈ fl); [set_solver|]. rewrite Hf.
        split; intros [Hq ?]; destruct (Hkeep fk q Hq Hqp) as [_ Heq]; rewrite Heq in *; done.
  - assert (fk' = negb fk) as -> by (destruct fk, fk'; done).
    destruct (Hreg (negb fk)) as [fl' [Hb' Hc' Hn' Hcnt' Hf']]. exists fl'.
    unfold free_state. autorewrite with glenda_rw. simpl.
    assert (Hnp : forall q, in_bounds (pick (negb fk) kb ub) q -> q <> p)
      by (intros q Hq ->; by apply (other_region fk p HL)).
    split; simpl; [done| |done|done|].
    + eapply chain_ext; [|done]. intros q Hq. apply Hf' in Hq as [Hq _].
      apply (Hkeep (negb fk)); [done|by apply Hnp].
    + intros q. rewrite Hf'.
      split; intros [Hq ?]; destruct (Hkeep (negb fk) q Hq (Hnp q Hq)) as [_ Heq];
        rewrite Heq in *; done.
Qed.

(** The contract of an allocation: a page nobody held, zeroed; every other
    word, every other count and the bounds stay. *)
Record alloc_post fk (s : pmem) (p : Z) (s' : pmem) : Prop := {
  ap_in : in_bounds (pick fk kb ub) p;
  ap_fresh : page_ref s (page_index p) = 0;
  ap_used : page_ref s' (page_index p) = 1;
  ap_refs : forall i, i <> page_index p -> page_ref s' i = page_ref s i;
  ap_zero : forall a, in_page p a -> mem s' a = 0;
  ap_mem : forall a, ~ in_page p a -> mem s' a = mem s a;
  ap_count : allocable (inner (region fk s')) = allocable (inner (region fk s)) - 1;
  ap_other : region (negb fk) s' = region (negb fk) s;
  ap_inv : pmem_inv kb ub s';
}.

Lemma wp_pmem_alloc s fk :
  pmem_inv kb ub s -> 0 < allocable (inner (region fk s)) ->
  wp (pmem_alloc fk) (alloc_post fk s) s.
Proof.
  intros Hinv Hpos. pose proof (pi_region _ _ _ Hinv fk) as [fl Hok].
  pose proof Hok as [_ Hc _ Hcnt Hf].
  destruct fl as [|p fl]; [simpl in Hcnt; lia|].
  eapply wp_intro.
  { unfold pmem_alloc, allocate_page. erewrite bind_run by by eapply allocate_run. done. }
  destruct (alloc_inv s fk p fl Hinv Hok) as [Hinv' _].
  destruct (proj1 (Hf p)) as [Hin Hr]; [set_solver|].
  split; [done|done| | | | | | |done]; unfold alloc_state; autorewrite with glenda_rw; simpl.
  - by rewrite upd_eq.
  - intros i Hi. by rewrite upd_ne.
  - intros a Ha. by rewrite fill_in.
  - intros a Ha. by rewrite fill_out.
  - done.
  - done.
Qed.

Lemma pmem_alloc_exhausted s fk :
  pmem_inv kb ub s -> allocable (inner (region fk s)) <= 0 ->
  pmem_alloc fk s =
    Panic (if fk then "pmem_alloc: kernel region exhausted" else "pmem_alloc: user region exhausted").
Proof.
  intros Hinv Hz. destruct (pi_region _ _ _ Hinv fk) as [fl [_ Hc _ Hcnt _]].
  destruct fl; [|simpl in Hcnt; lia]. simpl in Hc.
  assert (Hrun : region_allocate fk s = Ret None s)
    by (unfold region_allocate; erewrite bind_run by done; by rewrite Hc).
  unfold pmem_alloc, allocate_page. erewrite bind_run by done. by destruct fk.
Qed.

Record free_post fk (s : pmem) (p : Z) (s' : pmem) : Prop := {
  fp_free : page_ref s' (page_index p) = 0;
  fp_refs : forall i, i <> page_index p -> page_ref s' i = page_ref s i;
  fp_mem : forall a, a <> p -> mem s' a = mem s a;
  fp_count : allocable (inner (region fk s')) = allocable (inner (region fk s)) + 1;
  fp_other : region (negb fk) s' = region (negb fk) s;
  fp_inv : pmem_inv kb ub s';
}.

Lemma pmem_free_eq s fk p hint :
  pmem_inv kb ub s -> in_bounds (pick fk kb ub) p ->
  pmem_free p hint s =
    if page_ref s (page_index p) =? 0 then Panic "pmem_free: double free detected"
    else Ret tt (free_state fk p s).
Proof.
  intros Hinv Hp. unfold pmem_free. do 2 erewrite bind_run by done.
  pose proof (bounds_contains fk p s Hinv Hp true) as Hk.
  pose proof (bounds_contains fk p s Hinv Hp false) as Hu. simpl in Hk, Hu. rewrite Hk, Hu.
  destruct fk; [by apply (region_free_eq s true)|by apply (region_free_eq s false)].
Qed.

Lemma free_state_post s fk p :
  pmem_inv kb ub s -> in_bounds (pick fk kb ub) p -> page_ref s (page_index p) = 1 ->
  free_post fk s p (free_state fk p s).
Proof.
  intros Hinv Hp Hr. split; [..|by apply free_inv];
    unfold free_state; autorewrite with glenda_rw; simpl; try done.
  - by rewrite upd_eq.
  - intros i Hi. by rewrite upd_ne.
  - intros a Ha. by rewrite upd_ne.
Qed.

Lemma wp_pmem_free s fk p hint :
  pmem_inv kb ub s -> in_bounds (pick fk kb ub) p -> page_ref s (page_index p) = 1 ->
  wp (pmem_free p hint) (fun _ s' => free_post fk s p s') s.
Proof.
  intros Hinv Hp Hr. eapply wp_intro.
  - rewrite (pmem_free_eq s fk p hint Hinv Hp), Hr. done.
  - by apply free_state_post.
Qed.

Lemma get_region_run s pa : pmem_inv kb ub s ->
  get_region pa s = Ret
    (if (rb_begin kb <=? pa) && (pa <? rb_end kb) then Some true
     else if (rb_begin ub <=? pa) && (pa <? rb_end ub) then Some false else None) s.
Proof.
  intros [_ Hreg _]. destruct (Hreg true) as [fl [Hk _ _ _ _]].
  destruct (Hreg false) as [fl' [Hu _ _ _ _]]. simpl in Hk, Hu.
  unfold get_region, kernel_region_info, user_region_info, region_info.
  assert (Hrun : forall fk b, bounds (region fk s) = Some b ->
    (r ← gets (region fk); b ← expect (bounds r) "region not initialized";
     mret (mkInfo (rb_begin b) (rb_end b) (allocable (inner r)))) s =
    Ret (mkInfo (rb_begin b) (rb_end b) (allocable (inner (region fk s)))) s).
  { intros fk b Hb. erewrite bind_run by done. rewrite Hb. done. }
  erewrite bind_run by by apply (Hrun true). erewrite bind_run by by apply (Hrun false).
  simpl. by repeat case_test.
Qed.
End inv.
Arguments alloc_post : clear implicits.
Arguments free_post : clear implicits.

(** ** Boot: [initialize_regions] establishes the invariant *)

(** The pages of a region as [AllocRegion::init] links them, last one first. *)
Fixpoint desc_pages (b : Z) (n : nat) : list Z :=
  match n with
  | O => []
  | S n' => b + Z.of_nat n' * PGSIZE :: desc_pages b n'
  end.

Lemma elem_of_desc_pages b n p :
  b mod PGSIZE = 0 ->
  p ∈ desc_pages b n <-> in_bounds (mkBounds b (b + Z.of_nat n * PGSIZE)) p.
Proof.
  intros Hb. unfold in_bounds. simpl. induction n as [|n IH]; simpl desc_pages.
  - split; [by intros ?%not_elem_of_nil|lia].
  - rewrite elem_of_cons, IH, Nat2Z.inj_succ. unfold PGSIZE in *.
    pose proof (Z.div_mod b 4096). pose proof (Z.div_mod p 4096). split.
    + intros [->|?]; [|lia]. rewrite Z.mod_add by lia. lia.
    + intros [Hp Hm]. destruct (decide (p = b + Z.of_nat n * 4096)); [by left|right]. lia.
Qed.

Lemma NoDup_desc_pages b n : b mod PGSIZE = 0 -> NoDup (desc_pages b n).
Proof.
  intros Hb. induction n as [|n IH]; simpl; constructor; [|done].
  rewrite elem_of_desc_pages by done. unfold in_bounds. simpl. lia.
Qed.

Lemma length_desc_pages b n : length (desc_pages b n) = n.
Proof. induction n; simpl; congruence. Qed.

Section boot.
Variables (b e : Z) (s0 : pmem).
Hypothesis b_pos : 0 < b.
Hypothesis b_le : b <= e.
Hypothesis e_max : e + PGSIZE < U64.
Hypothesis b_al : b mod PGSIZE = 0.
Hypothesis e_al : e mod PGSIZE = 0.

Definition init_inv (st : Z * Z * Z) (s : pmem) : Prop :=
  let '(hd, count, current) := st in
  exists n : nat, count = Z.of_nat n /\ current = b + Z.of_nat n * PGSIZE /\ current <= e /\
    chain (mem s) hd (desc_pages b n) /\
    (forall a, ~ (b <= a < current) -> mem s a = mem s0 a) /\
    page_ref s = page_ref s0 /\ forall fk, region fk s = region fk s0.

Lemma wp_init_loop :
  wp (loop (S (Z.to_nat ((e - b) / PGSIZE))) (region_init_body e) (0, 0, b))
    (fun '(hd, count) s =>
       chain (mem s) hd (desc_pages b (Z.to_nat ((e - b) / PGSIZE))) /\
       count = (e - b) / PGSIZE /\
       (forall a, ~ (b <= a < e) -> mem s a = mem s0 a) /\
       page_ref s = page_ref s0 /\ forall fk, region fk s = region fk s0) s0.
Proof.
  assert (Hdiv : forall k, b + k * PGSIZE <= e -> b + (k + 1) * PGSIZE > e -> k = (e - b) / PGSIZE).
  { intros k H1 H2. unfold PGSIZE in *. apply (Z.div_unique (e - b) 4096 k (e - b - 4096 * k)); lia. }
  eapply (wp_loop init_inv (fun st _ => Z.to_nat ((e - st.2) / PGSIZE))).
  - intros [[hd count] current] s (n & -> & -> & Hle & Hc & Hm & Hr & Hreg).
    unfold region_init_body. wp_steps.
    case_test; wp_steps.
    + split.
      * exists (S n). simpl desc_pages. simpl chain. rewrite Nat2Z.inj_succ.
        split_and!; [lia|lia|lia|done|unfold PGSIZE in *; lia| | |done|done].
        -- simpl. rewrite upd_eq. eapply chain_ext; [|done].
           intros q Hq. apply upd_ne. apply elem_of_desc_pages in Hq; [|done].
           unfold in_bounds in Hq. simpl in Hq. lia.
        -- intros a Ha. simpl. rewrite upd_ne by (unfold PGSIZE in *; lia). apply Hm. page_lia.
      * simpl. apply page_measure; lia.
    + assert (Hn : Z.of_nat n = (e - b) / PGSIZE) by (apply Hdiv; lia).
      rewrite <-Hn, Nat2Z.id. split_and!; [done|done| |done|done].
      intros a Ha. apply Hm. lia.
  - exists 0%nat. simpl. split_and!; try done; lia.
  - simpl. lia.
Qed.

Lemma wp_region_init fk e0 : bounds (region fk s0) = None -> 0 <= e0 < U64 -> align_down e0 = e ->
  (forall i, page_ref s0 i = 0) ->
  wp (region_init fk b e0) (fun _ s =>
    region_ok (mkBounds b e) (region fk s) (mem s) (page_ref s) (desc_pages b (Z.to_nat ((e - b) / PGSIZE))) /\
    (forall a, ~ (b <= a < e) -> mem s a = mem s0 a) /\
    page_ref s = page_ref s0 /\ region (negb fk) s = region (negb fk) s0) s0.
Proof.
  intros Hnone He0 He Href. unfold region_init. wp_step. apply wp_align_up; [lia| |].
  { unfold PGMASK, PGSIZE, U64 in *. lia. }
  rewrite align_up_aligned, He by done. cbv zeta. wp_step.
  eapply wp_mono; [|apply wp_init_loop].
  intros [hd count] s (Hc & -> & Hm & Hr & Hreg). wp_step. wp_step. rewrite Hreg, Hnone.
  wp_step. split_and!.
  - assert (Hn : e = b + Z.of_nat (Z.to_nat ((e - b) / PGSIZE)) * PGSIZE).
    { rewrite Z2Nat.id by (apply Z.div_pos; unfold PGSIZE; lia).
      pose proof (Z.div_mod (e - b) PGSIZE). assert ((e - b) mod PGSIZE = 0)
        by (rewrite Zminus_mod, e_al, b_al; done). unfold PGSIZE in *. lia. }
    destruct fk; simpl; (split; simpl;
      [done|done|by apply NoDup_desc_pages|rewrite length_desc_pages, Z2Nat.id;
        [done|apply Z.div_pos; unfold PGSIZE; lia]|]);
    intros p; rewrite elem_of_desc_pages, <-Hn by done; rewrite Hr, Href; naive_solver.
  - by destruct fk.
  - by destruct fk.
  - destruct fk; simpl; [apply (Hreg false)|apply (Hreg true)].
Qed.
End boot.

(** The linker and the device tree as the theorem needs them: the pool starts
    on a page boundary after the kernel, and memory is a whole number of pages
    inside the range [PAGE_REF] covers. *)
Record boot_ok (bss_end alloc_start mem_end : Z) : Prop := {
  bo_bss : 0 <= bss_end;
  bo_start : align_up_val bss_end <= alloc_start;
  bo_al : alloc_start mod PGSIZE = 0;
  bo_low : PHY_MEM_START <= alloc_start;
  bo_end : alloc_start < mem_end;
  bo_end_al : mem_end mod PGSIZE = 0;
  bo_high : mem_end <= PHY_MEM_START + TOTAL_PAGES * PGSIZE;
}.

Definition mem_end_of (range : option MemoryRange) : Z :=
  let r := default (mkRange 0x80000000 (128 * 1024 * 1024)) range in mr_start r + mr_size r.

Lemma wp_debug_assert {S} (b : bool) Q (s : S) : b = true -> Q tt s -> wp (debug_assert b) Q s.
Proof. by intros ->. Qed.

Lemma land_pgmask_0 x : x mod PGSIZE = 0 -> (Z.land x (PGSIZE - 1) =? 0) = true.
Proof.
  intros Hx. fold PGMASK. fold (page_offset x). rewrite page_offset_eq, Hx. done.
Qed.

Lemma wp_region_info {Q} fk b s :
  bounds (region fk s) = Some b ->
  Q (mkInfo (rb_begin b) (rb_end b) (allocable (inner (region fk s)))) s ->
  wp (region_info fk) Q s.
Proof. intros Hb HQ. unfold region_info. do 2 wp_step. rewrite Hb. done. Qed.

Definition kernel_split_of (alloc_start mem_end : Z) : Z :=
  Z.min (alloc_start + KERN_PAGES * PGSIZE) mem_end.

(** Two adjacent regions linked over freshly booted memory. *)
Definition regions_post (m0 : Z -> Z) (kb ub : RegionBounds) (s : pmem) : Prop :=
  pmem_inv kb ub s /\
  allocable (inner (region true s)) = (rb_end kb - rb_begin kb) / PGSIZE /\
  allocable (inner (region false s)) = (rb_end ub - rb_begin ub) / PGSIZE /\
  (forall i, page_ref s i = 0) /\
  (forall a, ~ (rb_begin kb <= a < rb_end ub) -> mem s a = m0 a).

Lemma regions_ok a b c m0 :
  layout_ok (mkBounds a b) (mkBounds b c) ->
  wp (region_init true a b) (fun _ s1 =>
    wp (region_init false b c) (fun _ s => regions_post m0 (mkBounds a b) (mkBounds b c) s) s1)
    (pmem_boot m0).
Proof.
  intros HL. pose proof HL as [Hlow Hab _ Hbc Hhigh Hal]. simpl in *.
  unfold PHY_MEM_START, TOTAL_PAGES in *. change (128 * 1024 * 1024 / PGSIZE) with 32768 in *.
  apply Forall_cons in Hal as [Ha Hal]. apply Forall_cons in Hal as [Hb Hal].
  apply Forall_cons in Hal as [_ Hal]. apply Forall_cons in Hal as [Hc _].
  eapply wp_mono; [|apply (wp_region_init a b (pmem_boot m0));
    try done; try page_lia; by apply align_down_aligned; [page_lia|]].
  intros _ s1 (Hk & Hm1 & Hr1 & Hu1).
  eapply wp_mono; [|apply (wp_region_init b c s1); try page_lia; try done].
  2:{ simpl in Hu1. simpl. by rewrite Hu1. }
  2:{ by apply align_down_aligned; [page_lia|]. }
  2:{ intros i. by rewrite Hr1. }
  intros _ s2 (Hu & Hm2 & Hr2 & Hk2). simpl in Hk2.
  assert (Href : forall i, page_ref s2 i = 0) by (intros i; by rewrite Hr2, Hr1).
  assert (Hkok : region_ok (mkBounds a b) (KERNEL_REGION s2) (mem s2) (page_ref s2)
    (desc_pages a (Z.to_nat ((b - a) / PGSIZE)))).
  { rewrite Hk2. destruct Hk as [? Hch ? ? Hf]. split; [done| |done|done|by rewrite Hr2].
    eapply chain_ext; [|exact Hch]. intros q Hq. apply Hm2.
    apply Hf in Hq as [[Hq _] _]. simpl in Hq. page_lia. }
  assert (Hcount : forall x y r fl, x <= y ->
    region_ok (mkBounds x y) r (mem s2) (page_ref s2) (desc_pages x (Z.to_nat ((y - x) / PGSIZE))) ->
    fl = desc_pages x (Z.to_nat ((y - x) / PGSIZE)) -> allocable (inner r) = (y - x) / PGSIZE).
  { intros x y r fl Hxy [_ _ _ Hcnt _] _. rewrite Hcnt, length_desc_pages.
    apply Z2Nat.id, Z.div_pos; page_lia. }
  unfold regions_post. split_and!; [|by eapply Hcount|by eapply Hcount|done|].
  - split; [done|intros fk|by left; apply Href].
    destruct fk; eexists; [exact Hkok|exact Hu].
  - simpl. intros x Hx. rewrite Hm2, Hm1 by lia. done.
Qed.

Lemma kernel_split_ok alloc_start mem_end :
  PHY_MEM_START <= alloc_start -> alloc_start <= mem_end ->
  mem_end <= PHY_MEM_START + TOTAL_PAGES * PGSIZE ->
  alloc_start mod PGSIZE = 0 -> mem_end mod PGSIZE = 0 ->
  layout_ok (mkBounds alloc_start (kernel_split_of alloc_start mem_end))
            (mkBounds (kernel_split_of alloc_start mem_end) mem_end).
Proof.
  intros Hlow Hle Hhigh Hal Hea. set (split := kernel_split_of alloc_start mem_end).
  assert (Hsplit : split mod PGSIZE = 0 /\ alloc_start <= split <= mem_end).
  { subst split. unfold kernel_split_of, KERN_PAGES.
    destruct (Z.le_ge_cases (alloc_start + 8192 * PGSIZE) mem_end).
    - rewrite Z.min_l by lia. split; [by rewrite Z.mod_add by done|]. page_lia.
    - rewrite Z.min_r by lia. split; [done|lia]. }
  destruct Hsplit as [? ?]. split; simpl; try lia; by repeat constructor.
Qed.

Lemma wp_initialize_regions bss_end alloc_start range m0 :
  boot_ok bss_end alloc_start (mem_end_of range) ->
  let split := kernel_split_of alloc_start (mem_end_of range) in
  wp (initialize_regions bss_end alloc_start range) (fun _ s =>
    regions_post m0 (mkBounds alloc_start split) (mkBounds split (mem_end_of range)) s) (pmem_boot m0).
Proof.
  intros [Hb Hst Hal Hlow Hend Hea Hhigh] split.
  pose proof (align_up_val_spec bss_end) as [_ Hup].
  assert (HL : layout_ok (mkBounds alloc_start split) (mkBounds split (mem_end_of range)))
    by (apply kernel_split_ok; done || lia).
  unfold TOTAL_PAGES, PHY_MEM_START in Hlow, Hhigh.
  change (128 * 1024 * 1024 / PGSIZE) with 32768 in Hhigh.
  unfold initialize_regions, KERN_PAGES. wp_step. apply wp_align_up; [lia|page_lia|].
  cbv zeta. fold (mem_end_of range). wp_step. wp_step; [unfold mem_end_of in *; page_lia|].
  fold (mem_end_of range). rewrite (proj2 (Z.leb_gt _ _)) by lia.
  wp_step. apply wp_debug_assert; [apply Z.leb_le; lia|].
  wp_step. apply wp_debug_assert; [by apply land_pgmask_0|].
  do 2 wp_step. wp_step. apply wp_align_up; [page_lia|page_lia|].
  rewrite align_up_aligned by (rewrite Z.mod_add by done; done).
  assert (Hks : (if (if mem_end_of range <? alloc_start + 8192 * PGSIZE then mem_end_of range
    else alloc_start + 8192 * PGSIZE) <? alloc_start then alloc_start
    else if mem_end_of range <? alloc_start + 8192 * PGSIZE then mem_end_of range
    else alloc_start + 8192 * PGSIZE) = split).
  { subst split. unfold kernel_split_of, KERN_PAGES.
    destruct (Z.ltb_spec (mem_end_of range) (alloc_start + 8192 * PGSIZE)); case_test; page_lia. }
  rewrite Hks. clear Hks. clearbody split.
  wp_step. eapply wp_mono; [|by apply regions_ok]. intros [] s1 H1.
  wp_step. eapply wp_mono; [|exact H1]. intros [] s2 Hpost. pose proof Hpost as [Hinv _].
  destruct (pi_region _ _ _ Hinv true) as [fl [Hbk _ _ _ _]].
  destruct (pi_region _ _ _ Hinv false) as [fl' [Hbu _ _ _ _]].
  wp_step. eapply wp_region_info; [done|]. wp_step. eapply wp_region_info; [done|].
  destruct HL as [_ _ _ _ _ Hals]. rewrite !Forall_cons in Hals. simpl in *.
  do 3 (wp_step; apply wp_debug_assert; [apply land_pgmask_0; tauto|]).
  apply wp_debug_assert; [apply land_pgmask_0; tauto|done].
Qed.

(** ** Clients *)

(** What holders of pages do: take one, write into one they hold, give one
    back. The set is the pages currently held. *)
Inductive client_step : pmem * gset Z -> pmem * gset Z -> Prop :=
  | client_alloc fk s p s' L :
      pmem_alloc fk s = Ret p s' -> client_step (s, L) (s', {[p]} ∪ L)
  | client_write s L p a v s' :
      p ∈ L -> in_page p a -> store a v s = Ret tt s' -> client_step (s, L) (s', L)
  | client_free s L p hint s' :
      p ∈ L -> pmem_free p hint s = Ret tt s' -> client_step (s, L) (s', L ∖ {[p]}).

Section clients.
Context {kb ub : RegionBounds}.

Definition free_pages (s : pmem) : Z :=
  allocable (inner (region true s)) + allocable (inner (region false s)).

Definition client_inv (total : Z) (st : pmem * gset Z) : Prop :=
  let '(s, L) := st in
  pmem_inv kb ub s /\ (forall p, p ∈ L <-> used kb ub s p) /\
  free_pages s + Z.of_nat (size L) = total.

Lemma used_pick s p : used kb ub s p -> exists fk, in_bounds (pick fk kb ub) p /\ page_ref s (page_index p) = 1.
Proof. intros [[H|H] Hr]; [by exists true|by exists false]. Qed.

Lemma pick_bounds fk p : in_bounds (pick fk kb ub) p -> in_bounds kb p \/ in_bounds ub p.
Proof. destruct fk; simpl; auto. Qed.

Lemma index_ne fk p q : layout_ok kb ub -> in_bounds (pick fk kb ub) p -> q <> p ->
  in_bounds kb q \/ in_bounds ub q -> page_index q <> page_index p.
Proof.
  intros HL Hin Hne Hq Heq. apply Hne. destruct Hq as [Hq|Hq];
    [by apply (@same_page kb ub true fk)|by apply (@same_page kb ub false fk)].
Qed.

Lemma used_iff_alloc fk s p s' q :
  pmem_inv kb ub s -> alloc_post kb ub fk s p s' ->
  used kb ub s' q <-> q = p \/ used kb ub s q.
Proof.
  intros [HL _ _] [Hin Hfr Hus Hrefs _ _ _ _ _]. unfold used.
  destruct (decide (q = p)) as [->|Hne].
  - pose proof (pick_bounds fk p Hin). naive_solver.
  - pose proof (index_ne fk p q HL Hin Hne) as Hidx. split.
    + intros [Hq Hr]. right. rewrite Hrefs in Hr by auto. done.
    + intros [?|[Hq Hr]]; [done|]. rewrite Hrefs by auto. done.
Qed.

Lemma used_iff_free fk s p s' q :
  pmem_inv kb ub s -> in_bounds (pick fk kb ub) p -> free_post kb ub fk s p s' ->
  used kb ub s' q <-> q <> p /\ used kb ub s q.
Proof.
  intros [HL _ _] Hin [Hfr Hrefs _ _ _ _]. unfold used.
  destruct (decide (q = p)) as [->|Hne].
  - split; [intros [_ ?]; congruence|naive_solver].
  - pose proof (index_ne fk p q HL Hin Hne) as Hidx. split.
    + intros [Hq Hr]. rewrite Hrefs in Hr by auto. done.
    + intros [_ [Hq Hr]]. rewrite Hrefs by auto. done.
Qed.

Lemma free_pages_alloc fk s p s' :
  alloc_post kb ub fk s p s' -> free_pages s' = free_pages s - 1.
Proof. intros [_ _ _ _ _ _ Hc Ho _]. unfold free_pages. destruct fk; simpl in *; rewrite Ho; lia. Qed.
Lemma free_pages_free fk s p s' :
  free_post kb ub fk s p s' -> free_pages s' = free_pages s + 1.
Proof. intros [_ _ _ Hc Ho _]. unfold free_pages. destruct fk; simpl in *; rewrite Ho; lia. Qed.

Lemma alloc_returns fk s p s' :
  pmem_inv kb ub s -> pmem_alloc fk s = Ret p s' -> alloc_post kb ub fk s p s'.
Proof.
  intros Hinv Hrun. destruct (Z.ltb_spec 0 (allocable (inner (region fk s)))) as [Hpos|Hz].
  - pose proof (wp_pmem_alloc s fk Hinv Hpos) as Hwp. unfold wp in Hwp. by rewrite Hrun in Hwp.
  - by rewrite (pmem_alloc_exhausted s fk Hinv Hz) in Hrun.
Qed.

Lemma client_step_inv total st st' :
  client_step st st' -> client_inv total st -> client_inv total st'.
Proof.
  destruct 1 as [fk s p s' L Hrun|s L p a v s' Hp Ha Hrun|s L p hint s' Hp Hrun];
    intros (Hinv & HL & Hsz).
  - pose proof (alloc_returns fk s p s' Hinv Hrun) as Hpost. split_and!.
    + apply Hpost.
    + intros q. rewrite elem_of_union, elem_of_singleton, HL.
      by rewrite (used_iff_alloc fk s p s' q Hinv Hpost).
    + assert (Hpn : p ∉ L). { rewrite HL. intros [_ Hr]. by rewrite (ap_fresh _ _ _ _ Hpost) in Hr. }
      rewrite size_union, size_singleton by set_solver.
      rewrite (free_pages_alloc fk s p s' Hpost). lia.
  - injection Hrun as <-. split_and!.
    + eapply used_store; [done| |done]. by apply HL.
    + intros q. rewrite HL. done.
    + rewrite <-Hsz. unfold free_pages. by rewrite !region_set_mem.
  - destruct (used_pick s p) as (fk & Hin & Hr); [by apply HL|].
    pose proof (wp_pmem_free s fk p hint Hinv Hin Hr) as Hwp. unfold wp in Hwp. rewrite Hrun in Hwp.
    split_and!.
    + apply Hwp.
    + intros q. rewrite elem_of_difference, elem_of_singleton, HL.
      rewrite (used_iff_free fk s p s' q Hinv Hin Hwp). tauto.
    + rewrite size_difference by set_solver. rewrite size_singleton.
      assert (size L <> 0%nat) by (apply size_non_empty_iff; set_solver).
      rewrite (free_pages_free fk s p s' Hwp). lia.
Qed.
End clients.

(** ** A small machine for the examples: sixteen pages in each region *)

Definition demo_kb : RegionBounds := mkBounds 0x80300000 0x80310000.
Definition demo_ub : RegionBounds := mkBounds 0x80310000 0x80320000.
Definition demo : pmem :=
  final (region_init true 0x80300000 0x80310000;; region_init false 0x80310000 0x80320000)
    (pmem_boot (fun _ => 0)).

Lemma demo_ok : regions_post (fun _ => 0) demo_kb demo_ub demo.
Proof.
  unfold demo. apply (wp_final _ (regions_post _ _ _)), wp_bind, regions_ok.
  split; vm_compute; try discriminate; by repeat constructor.
Qed.

Lemma demo_inv : pmem_inv demo_kb demo_ub demo.
Proof. apply demo_ok. Qed.

(** ** Properties *)

(** An allocation from a region with free pages returns a page of that
    region that nobody holds, cleared to zero, marks it held, and changes no
    other word, count or region; from an empty region it panics. *)
Theorem pmem_alloc_correct kb ub s fk :
  pmem_inv kb ub s ->
  (0 < allocable (inner (region fk s)) -> wp (pmem_alloc fk) (alloc_post kb ub fk s) s) /\
  (allocable (inner (region fk s)) <= 0 -> exists why, pmem_alloc fk s = Panic why).
Proof.
  intros Hinv. split; [by apply wp_pmem_alloc|].
  intros Hz. eexists. by apply (pmem_alloc_exhausted (kb := kb) (ub := ub)).
Qed.

Lemma pmem_alloc_correct_witness :
  wp (pmem_alloc false) (alloc_post demo_kb demo_ub false demo) demo.
Proof. apply (pmem_alloc_correct demo_kb demo_ub demo false demo_inv). reflexivity. Defined.

(** Freeing a held page of either region, whatever the caller's hint,
    returns it to that region's free list; a page already free is reported as
    a double free; an address outside both regions panics. *)
Theorem pmem_free_correct kb ub s p hint :
  pmem_inv kb ub s ->
  (forall fk, in_bounds (pick fk kb ub) p ->
     (page_ref s (page_index p) = 1 -> wp (pmem_free p hint) (fun _ s' => free_post kb ub fk s p s') s) /\
     (page_ref s (page_index p) = 0 -> pmem_free p hint s = Panic "pmem_free: double free detected")) /\
  (~ (rb_begin kb <= p < rb_end kb) -> ~ (rb_begin ub <= p < rb_end ub) ->
     pmem_free p hint s = Panic "pmem_free: address out of all regions").
Proof.
  intros Hinv. split.
  - intros fk Hp. split; intros Hr; [by apply wp_pmem_free|].
    by rewrite (pmem_free_eq s fk p hint Hinv Hp), Hr.
  - intros Hk Hu. destruct (pi_region _ _ _ Hinv true) as [fl [Hbk _ _ _ _]].
    destruct (pi_region _ _ _ Hinv false) as [fl' [Hbu _ _ _ _]].
    unfold pmem_free, region_contains. do 2 erewrite bind_run by done.
    simpl in Hbk, Hbu. rewrite Hbk, Hbu. by repeat (case_test; [lia|]).
Qed.

Lemma pmem_free_correct_witness :
  pmem_free 0x80300000 true demo = Panic "pmem_free: double free detected".
Proof.
  apply (pmem_free_correct demo_kb demo_ub demo 0x80300000 true demo_inv) with (fk := true);
    [by split|reflexivity].
Defined.

(** At boot, [initialize_regions] splits the memory after the kernel into
    the two page pools, at most [KERN_PAGES] pages for the kernel and the rest
    for user pages, links every page of both, touches nothing else, and leaves
    the allocator invariant established with no page held. *)
Theorem initialize_regions_correct bss_end alloc_start range m0 :
  boot_ok bss_end alloc_start (mem_end_of range) ->
  let split := kernel_split_of alloc_start (mem_end_of range) in
  wp (initialize_regions bss_end alloc_start range) (fun _ s =>
    regions_post m0 (mkBounds alloc_start split) (mkBounds split (mem_end_of range)) s) (pmem_boot m0).
Proof. apply wp_initialize_regions. Qed.

Lemma initialize_regions_correct_witness :
  wp (initialize_regions 0x802ffff0 0x80300000 None) (fun _ s =>
    regions_post (fun _ => 0) (mkBounds 0x80300000 0x82300000) (mkBounds 0x82300000 0x88000000) s)
    (pmem_boot (fun _ => 0)).
Proof.
  apply (initialize_regions_correct 0x802ffff0 0x80300000 None (fun _ => 0)).
  split; vm_compute; try discriminate; reflexivity.
Defined.

(** C1: whatever sequence of allocations, frees of held pages and writes into
    held pages the kernel performs, the pages handed out and not yet freed are
    exactly the held set, no page is lost, the next allocation is never a held
    page and leaves the contents of every held page alone, and freeing a held
    page always succeeds. *)
Theorem clients_never_share kb ub m0 s0 s L :
  regions_post m0 kb ub s0 -> rtc client_step (s0, ∅) (s, L) ->
  pmem_inv kb ub s /\ (forall p, p ∈ L <-> used kb ub s p) /\
  free_pages s + Z.of_nat (size L) = free_pages s0 /\
  (forall fk p s', pmem_alloc fk s = Ret p s' ->
     (p ∉ L) /\ forall q a, q ∈ L -> in_page q a -> mem s' a = mem s a) /\
  (forall p hint, p ∈ L -> exists s', pmem_free p hint s = Ret tt s').
Proof.
  intros (Hinv0 & _ & _ & Href0 & _) Hrun.
  assert (Hci : @client_inv kb ub (free_pages s0) (s, L)).
  { eapply (rtc_ind_r (fun st => @client_inv kb ub (free_pages s0) st) (s0, ∅)).
    - split_and!; [done| |rewrite size_empty; lia].
      intros p. unfold used. rewrite Href0. split; [set_solver|intros [_ Hz]; done].
    - intros st st' _ Hstep Hc. by eapply client_step_inv.
    - done. }
  destruct Hci as (Hinv & HL & Hsz). split_and!; [done|done|done| |].
  - intros fk p s' Ha. pose proof (alloc_returns fk s p s' Hinv Ha) as Hp.
    assert (Hpn : p ∉ L). { rewrite HL. intros [_ Hr]. by rewrite (ap_fresh _ _ _ _ Hp) in Hr. }
    split; [done|]. intros q a Hq Ha'. apply Hp. intros Hpa. apply Hpn.
    assert (p = q) as ->; [|done]. apply HL in Hq as [Hq _]. destruct (ap_in _ _ _ _ Hp) as [_ Hpm].
    assert (q mod PGSIZE = 0) by (destruct Hq as [[]|[]]; done).
    unfold in_page, PGSIZE in *. pose proof (Z.div_mod p 4096). pose proof (Z.div_mod q 4096). lia.
  - intros p hint Hp. destruct (@used_pick kb ub s p) as (fk & Hin & Hr); [by apply HL|].
    rewrite (pmem_free_eq s fk p hint Hinv Hin), Hr. by eexists.
Qed.

(** A kernel page and a user page are allocated, and the kernel page freed. *)
Lemma clients_never_share_witness : exists p1 s1 p2 s2 s3,
  pmem_alloc true demo = Ret p1 s1 /\ pmem_alloc false s1 = Ret p2 s2 /\ pmem_free p1 true s2 = Ret tt s3 /\
  p1 <> p2 /\ used demo_kb demo_ub s3 p2 /\ free_pages s3 + 1 = free_pages demo.
Proof.
  destruct (wp_elim _ _ _ (wp_pmem_alloc (kb := demo_kb) (ub := demo_ub) demo true (proj1 demo_ok) ltac:(vm_compute; reflexivity)))
    as (p1 & s1 & H1 & Hp1).
  assert (Hleft : 0 < allocable (inner (region false s1))).
  { rewrite (ap_other _ _ _ _ Hp1 : region false s1 = region false demo). vm_compute. reflexivity. }
  destruct (wp_elim _ _ _ (wp_pmem_alloc (kb := demo_kb) (ub := demo_ub) s1 false (ap_inv _ _ _ _ Hp1) Hleft)) as (p2 & s2 & H2 & _).
  pose proof (rtc_once _ _ (client_alloc true demo p1 s1 ∅ H1)) as Hrun1.
  pose proof (rtc_r _ _ _ Hrun1 (client_alloc false s1 p2 s2 _ H2)) as Hrun2.
  destruct (clients_never_share demo_kb demo_ub (fun _ => 0) demo s1 _ demo_ok Hrun1) as (_ & _ & _ & Hnew & _).
  destruct (clients_never_share demo_kb demo_ub (fun _ => 0) demo s2 _ demo_ok Hrun2) as (_ & _ & _ & _ & Hfree).
  destruct (Hnew false p2 s2 H2) as [Hne _]. assert (Hne' : p1 <> p2).
  { intros ->. apply Hne, elem_of_union_l, elem_of_singleton_2. reflexivity. }
  assert (Hin : p1 ∈ ({[p2]} ∪ ({[p1]} ∪ ∅) : gset Z)) by (apply elem_of_union_r, elem_of_union_l, elem_of_singleton_2; reflexivity).
  destruct (Hfree p1 true Hin) as [s3 H3].
  destruct (clients_never_share demo_kb demo_ub (fun _ => 0) demo s3 _ demo_ok (rtc_r _ _ _ Hrun2 (client_free s2 _ p1 true s3 Hin H3)))
    as (_ & HL & Hsz & _).
  assert (HS : ({[p2]} ∪ ({[p1]} ∪ ∅)) ∖ {[p1]} = ({[p2]} : gset Z)).
  { apply set_eq. intros q. rewrite elem_of_difference, !elem_of_union, !elem_of_singleton. split; [|intros ->; split; [by left|congruence]].
    intros [[?|[?|He]] ?]; [assumption|contradiction|]. by apply not_elem_of_empty in He. }
  rewrite HS in HL, Hsz. rewrite size_singleton in Hsz.
  exists p1, s1, p2, s2, s3. split; [exact H1|]. split; [exact H2|]. split; [exact H3|]. split; [exact Hne'|]. split; [|exact Hsz].
  apply HL, elem_of_singleton_2. reflexivity.
Defined.

(** On a machine with more memory than the 128 MiB [PAGE_REF] covers (the
    build tool offers [--mem 1G]) the very first user page allocation panics,
    because the free list starts at the top of memory. *)
Example large_memory_alloc_panics :
  (initialize_regions 0x80300000 0x80300000 (Some (mkRange 0x80000000 0x40000000));;
   pmem_alloc false) (pmem_boot (fun _ => 0)) = Panic "pa_to_index: pa too high".
Proof. vm_compute. reflexivity. Qed.
