(* ===== verification/PageTable.v ===== *)
(** * Sv39 page tables ([mem/pagetable.rs])

    Tables live in physical memory as the code lays them out: a page of 512
    words, reached through raw pointers. [walk], [lookup], [map], [unmap],
    [destroy] and [copy] are the methods of [PageTable]. The invariant
    [pt_wf] describes a table tree by the finite map from index paths to table
    pages, and [trans] is the translation the tree implements. *)
From S2P Require Import Prelude Addr PhysMem.

(** ** Operations *)

(** The address of [entries[idx]] of a table. *)
Definition entry (table idx : Z) : Z := table + 8 * idx.

Definition walk_body (va : Z) (alloc : bool) (table level : Z) : M pmem (Z + option Z) :=
  let idx := vpn va level in
  let pte_ref := entry table idx in
  pte ← load pte_ref;
  if is_valid pte then
    if is_leaf pte then mret (inr None)
    else
      let next_pa := pte_to_pa pte in
      if next_pa =? 0 then mret (inr None) else mret (inl next_pa)
  else if negb alloc then mret (inr None)
  else
    new_table ← pmem_alloc true;
    if new_table =? 0 then mret (inr None)
    else
      zero_page new_table;;
      store pte_ref (pa_to_pte new_table PTE_V);;
      mret (inl new_table).

(** The address of the level-0 entry of [va], if it can be reached. *)
Definition walk (root va : Z) (alloc : bool) : M pmem (option Z) :=
  if VA_MAX <=? va then mret None
  else
    r ← for_each [2; 1] (walk_body va alloc) root;
    match r with
    | inl table => mret (Some (entry table (vpn va 0)))
    | inr o => mret o
    end.

Definition lookup_body (va table level : Z) : M pmem (Z + option Z) :=
  pte ← load (entry table (vpn va level));
  if is_valid pte then
    if is_leaf pte then mret (inr None)
    else
      let next_pa := pte_to_pa pte in
      if next_pa =? 0 then mret (inr None) else mret (inl next_pa)
  else mret (inr None).

Definition pt_lookup (root va : Z) : M pmem (option Z) :=
  if VA_MAX <=? va then mret None
  else
    r ← for_each [2; 1] (lookup_body va) root;
    match r with
    | inl table => mret (Some (entry table (vpn va 0)))
    | inr o => mret o
    end.

(** The [while] of [map]: one page per round. *)
Definition map_body (root last flags : Z) (st : Z * Z) : M pmem (Z * Z + bool) :=
  let '(a, pa_cur) := st in
  if a <=? last then
    o ← walk root a true;
    match o with
    | None => mret (inr false)
    | Some pte =>
        cur ← load pte;
        if is_valid cur && (negb (is_leaf cur) || negb (pte_to_pa cur =? pa_cur)) then
          mret (inr false)
        else
          store pte (pa_to_pte pa_cur (Z.lor flags PTE_V));;
          if a =? last then mret (inr true)
          else
            a' ← uadd a PGSIZE;
            pa' ← uadd pa_cur PGSIZE;
            mret (inl (a', pa'))
    end
  else mret (inr true).

Definition pt_map (root va pa len flags : Z) : M pmem bool :=
  if len =? 0 then mret false
  else
    let start := align_down va in
    top ← uadd va len;
    end_ ← align_up top;
    let pa_cur := align_down pa in
    last ← usub end_ PGSIZE;
    loop (S (S (Z.to_nat ((last - start) / PGSIZE)))) (map_body root last flags) (start, pa_cur).

Definition unmap_body (root last : Z) (free : bool) (a : Z) : M pmem (Z + bool) :=
  if a <=? last then
    o ← pt_lookup root a;
    match o with
    | None => mret (inr false)
    | Some pte =>
        old ← load pte;
        if negb (is_valid old) || negb (is_leaf old) then mret (inr false)
        else
          let pa := pte_to_pa old in
          (if free then
             r ← get_region pa;
             match r with
             | Some for_kernel => pmem_free pa for_kernel
             | None => panic "vm_unmappages: PA out of bounds"
             end
           else mret tt);;
          store pte 0;;
          if a =? last then mret (inr true)
          else a' ← uadd a PGSIZE; mret (inl a')
    end
  else mret (inr true).

Definition pt_unmap (root va len : Z) (free : bool) : M pmem bool :=
  if len =? 0 then mret false
  else
    let start := align_down va in
    top ← uadd va len;
    end_ ← align_up top;
    last ← usub end_ PGSIZE;
    loop (S (S (Z.to_nat ((last - start) / PGSIZE)))) (unmap_body root last free) start.

(** One entry of [destroy_level]: a leaf gives its user frame back, a table is
    destroyed by [rec] and freed; either way the entry is cleared. *)
Definition destroy_entry (rec : Z -> M pmem unit) (table_pa i : Z) : M pmem (unit + Empty_set) :=
  pte ← load (entry table_pa i);
  if negb (is_valid pte) then mret (inl tt)
  else if is_leaf pte then
    let pa := pte_to_pa pte in
    r ← get_region pa;
    match r with
    | Some false => pmem_free pa false
    | _ => mret tt
    end;;
    store (entry table_pa i) 0;;
    mret (inl tt)
  else if is_table pte then
    let child_pa := pte_to_pa pte in
    (if negb (child_pa =? 0) then
       rec child_pa;;
       pmem_free child_pa true
     else mret tt);;
    store (entry table_pa i) 0;;
    mret (inl tt)
  else mret (inl tt).

(** [destroy_level] recurses once per table level; [depth] bounds the
    recursion, three levels being all an Sv39 tree has. *)
Fixpoint destroy_level (depth : nat) (table_pa : Z) : M pmem unit :=
  match depth with
  | O => hang "destroy_level: table tree too deep"
  | S depth' =>
      for_each (range 0 PGNUM) (fun _ i => destroy_entry (destroy_level depth') table_pa i) tt;;
      mret tt
  end.

Definition pt_destroy (root : Z) : M pmem unit := destroy_level 3 root.

(** Error values shared by [copy] and the user-memory routines. *)
Inductive UvmError := OutOfRange | NoMem | MapFailed.

(** The address of entry [k] of L0 table [j] of L1 table [i], sign-extended
    as [copy] does. *)
Definition copy_va (i j k : Z) : Z :=
  let va_raw := Z.lor (Z.lor (Z.shiftl i 30) (Z.shiftl j 21)) (Z.shiftl k 12) in
  let sign := Z.land (Z.shiftr va_raw 38) 1 in
  if sign =? 1 then Z.lor va_raw (wrap64 (Z.shiftl USIZE_MAX 39))
  else Z.land va_raw (Z.shiftl 1 39 - 1).

(** One leaf of the source tree: user pages are duplicated in user memory,
    executable kernel pages shared, other kernel pages duplicated. *)
Definition copy_leaf (dst_root va pte0 : Z) : M pmem (option UvmError) :=
  let pa := pte_to_pa pte0 in
  let flags := get_flags pte0 in
  let dup for_kernel :=
    new_pa ← pmem_alloc for_kernel;
    if new_pa =? 0 then mret (Some NoMem)
    else
      copy_page pa new_pa;;
      ok ← pt_map dst_root va new_pa PGSIZE flags;
      mret (if ok : bool then None else Some MapFailed) in
  if negb (Z.land flags PTE_U =? 0) then
    r ← get_region pa;
    match r with
    | Some false => dup false
    | _ => mret None
    end
  else if negb (Z.land flags PTE_X =? 0) then
    ok ← pt_map dst_root va pa PGSIZE flags;
    mret (if ok : bool then None else Some MapFailed)
  else
    r ← get_region pa;
    match r with
    | Some true => dup true
    | _ => mret None
    end.

(** The loop over a level-0 table. *)
Definition copy_l0 (dst_root i j l0_pa : Z) : M pmem (unit + UvmError) :=
  for_each (range 0 PGNUM) (fun (_ : unit) k =>
    pte0 ← load (entry l0_pa k);
    if negb (is_valid pte0) || negb (is_leaf pte0) then mret (inl tt)
    else
      o ← copy_leaf dst_root (copy_va i j k) pte0;
      match o with
      | None => mret (inl tt)
      | Some e => mret (inr e)
      end) tt.

(** A loop over the entries of a higher table, following those that lead on. *)
Definition copy_level (table : Z) (next : Z -> Z -> M pmem (unit + UvmError)) : M pmem (unit + UvmError) :=
  for_each (range 0 PGNUM) (fun (_ : unit) i =>
    pte ← load (entry table i);
    if negb (is_valid pte) || negb (is_table pte) then mret (inl tt)
    else if pte_to_pa pte =? 0 then mret (inl tt) else next i (pte_to_pa pte)) tt.

Definition pt_copy (root : Z) : M pmem (result Z UvmError) :=
  dst_root ← pmem_alloc true;
  if dst_root =? 0 then mret (Err NoMem)
  else
    zero_page dst_root;;
    r ← copy_level root (fun i l1_pa => copy_level l1_pa (fun j l0_pa => copy_l0 dst_root i j l0_pa));
    match r with
    | inl _ => mret (Ok dst_root)
    | inr e => mret (Err e)
    end.

(** ** The table tree *)

(** A page whose words no allocation will touch: outside both pools, or held. *)
Definition owned (kb ub : RegionBounds) (s : pmem) (p : Z) : Prop :=
  p mod PGSIZE = 0 /\ 0 < p < 2 ^ 56 /\
  forall fk, in_bounds (pick fk kb ub) p -> page_ref s (page_index p) = 1.

(** [T] maps each path of indices from the root to the table page there. *)
Record pt_wf (kb ub : RegionBounds) (s : pmem) (root : Z) (T : gmap (list Z) Z) : Prop := {
  wf_root : T !! [] = Some root;
  wf_owned : forall path p, T !! path = Some p -> owned kb ub s p;
  wf_path : forall path p, T !! path = Some p ->
    (length path <= 2)%nat /\ Forall (fun i => 0 <= i < PGNUM) path;
  wf_prefix : forall path i, is_Some (T !! (path ++ [i])) -> is_Some (T !! path);
  wf_inj : forall path path' p, T !! path = Some p -> T !! path' = Some p -> path = path';
  wf_entry : forall path p i, T !! path = Some p -> (length path < 2)%nat -> 0 <= i < PGNUM ->
    if is_valid (mem s (entry p i)) then
      is_leaf (mem s (entry p i)) = false /\ T !! (path ++ [i]) = Some (pte_to_pa (mem s (entry p i)))
    else T !! (path ++ [i]) = None;
}.

(** The level-0 entry of an address, and the translation it gives. *)
Definition leaf_ref (T : gmap (list Z) Z) (va : Z) : option Z :=
  t ← T !! [vpn va 2; vpn va 1]; Some (entry t (vpn va 0)).

Definition trans (s : pmem) (T : gmap (list Z) Z) (va : Z) : option Z :=
  a ← leaf_ref T va;
  if is_valid (mem s a) then Some (mem s a) else None.

(** ** Entries *)

Lemma entry_in_page p i : 0 <= i < PGNUM -> in_page p (entry p i).
Proof. unfold entry, in_page. change PGNUM with 512. page_lia. Qed.

Lemma page_unique p q a :
  p mod PGSIZE = 0 -> q mod PGSIZE = 0 -> in_page p a -> in_page q a -> p = q.
Proof.
  unfold in_page, PGSIZE. intros. pose proof (Z.div_mod p 4096). pose proof (Z.div_mod q 4096). lia.
Qed.

Lemma entry_inj p q i j :
  p mod PGSIZE = 0 -> q mod PGSIZE = 0 -> 0 <= i < PGNUM -> 0 <= j < PGNUM ->
  entry p i = entry q j -> p = q /\ i = j.
Proof.
  intros Hp Hq Hi Hj Heq. pose proof (entry_in_page p i Hi) as H1.
  pose proof (entry_in_page q j Hj) as H2. rewrite <-Heq in H2.
  assert (p = q) as -> by by eapply page_unique. unfold entry in Heq. split; [done|lia].
Qed.

(** The three indices and the page number determine each other. *)
Lemma vpn_split va : 0 <= va < VA_MAX ->
  va / PGSIZE = vpn va 2 * 2 ^ 18 + vpn va 1 * 2 ^ 9 + vpn va 0.
Proof.
  change VA_MAX with (2 ^ 38). intros H. rewrite !vpn_eq by lia.
  change (2 ^ (12 + 9 * 0)) with PGSIZE.
  change (2 ^ (12 + 9 * 1)) with (PGSIZE * 512).
  change (2 ^ (12 + 9 * 2)) with (PGSIZE * 512 * 512).
  rewrite <-!Z.div_div by page_lia.
  assert (0 <= va / PGSIZE < 2 ^ 26).
  { unfold PGSIZE. split; [apply Z.div_pos; lia|]. apply Z.div_lt_upper_bound; lia. }
  assert (0 <= va / PGSIZE / 512 < 2 ^ 17).
  { split; [apply Z.div_pos; lia|]. apply Z.div_lt_upper_bound; lia. }
  rewrite (Z.mod_small (va / PGSIZE / 512 / 512)).
  2:{ split; [apply Z.div_pos; lia|]. apply Z.div_lt_upper_bound; lia. }
  pose proof (Z.div_mod (va / PGSIZE) 512). pose proof (Z.div_mod (va / PGSIZE / 512) 512).
  lia.
Qed.

Lemma vpn_page va va' :
  0 <= va < VA_MAX -> 0 <= va' < VA_MAX ->
  vpn va 2 = vpn va' 2 -> vpn va 1 = vpn va' 1 -> vpn va 0 = vpn va' 0 ->
  va / PGSIZE = va' / PGSIZE.
Proof. intros ?? H2 H1 H0. by rewrite !vpn_split, H2, H1, H0. Qed.

Lemma vpn_same_page va va' level :
  0 <= level -> va / PGSIZE = va' / PGSIZE -> vpn va level = vpn va' level.
Proof.
  intros Hl Heq. rewrite !vpn_eq by done. f_equal.
  rewrite Z.pow_add_r by lia. change (2 ^ 12) with PGSIZE.
  assert (0 < 2 ^ (9 * level)) by (apply Z.pow_pos_nonneg; lia).
  rewrite <-!Z.div_div by (done || lia). by rewrite Heq.
Qed.

Lemma owned_entry kb ub s p i : owned kb ub s p -> 0 <= i < PGNUM ->
  pmem_inv kb ub s -> forall v, pmem_inv kb ub (set_mem (upd (mem s) (entry p i) v) s).
Proof.
  intros (Hal & _ & Hown) Hi Hinv v. apply pmem_inv_set_mem; [done|].
  intros fk q Hq Hq0. apply upd_ne. intros ->.
  assert (entry p i = p) as Heq.
  { apply (page_unique _ _ (entry p i)); [by destruct Hq|done| |by apply entry_in_page].
    unfold in_page. page_lia. }
  rewrite Heq in *. rewrite (Hown fk) in Hq0 by done. done.
Qed.

(** ** Growing a tree *)

(** From [s] to [s'] the tree may have gained table pages taken from the
    kernel pool (at most [k]); nothing that was held outside the tree has
    changed, nothing else was taken, and no new table lies above [VA_MAX]. *)
Record extends (kb ub : RegionBounds) (root : Z) (k : Z)
  (s : pmem) (T : gmap (list Z) Z) (s' : pmem) (T' : gmap (list Z) Z) : Prop := {
  ex_inv : pmem_inv kb ub s';
  ex_wf : pt_wf kb ub s' root T';
  ex_sub : T ⊆ T';
  ex_new : forall path p, T' !! path = Some p -> T !! path = Some p \/
    (in_bounds kb p /\ page_ref s (page_index p) = 0);
  ex_ref : forall i, page_ref s i = 1 -> page_ref s' i = 1;
  ex_frame : forall q a, owned kb ub s q -> (forall path, T !! path <> Some q) ->
    in_page q a -> mem s' a = mem s a;
  ex_count : allocable (inner (region true s)) - k <= allocable (inner (region true s'));
  ex_user : region false s' = region false s;
  ex_only : forall i, page_ref s' i = 1 -> page_ref s i = 1 \/
    exists path p, T' !! path = Some p /\ page_index p = i;
  ex_low : forall i l, is_Some (T' !! (i :: l)) -> is_Some (T !! [i]) \/ i < PGNUM / 2;
}.

Section tree.
Context {kb ub : RegionBounds} {root : Z}.
Implicit Types (s : pmem) (T : gmap (list Z) Z).
Local Abbreviation extends := (extends kb ub root).
Local Abbreviation pt_wf := (pt_wf kb ub).
Local Abbreviation owned := (owned kb ub).
Local Abbreviation pmem_inv := (pmem_inv kb ub).

Lemma owned_mono s s' p :
  (forall i, page_ref s i = 1 -> page_ref s' i = 1) -> owned s p -> owned s' p.
Proof. intros Href (? & ? & Ho). split; [done|split; [done|]]. intros fk Hin. by apply Href, (Ho fk). Qed.

Lemma tree_head s T i l : pt_wf s root T -> is_Some (T !! (i :: l)) -> is_Some (T !! [i]).
Proof.
  intros Hwf. induction l as [|x l IH] using rev_ind; [done|].
  intros H. apply IH, (wf_prefix _ _ _ _ _ Hwf _ x). by rewrite <-app_comm_cons.
Qed.

Lemma extends_refl s T : pmem_inv s -> pt_wf s root T -> extends 0 s T s T.
Proof. intros ? Hwf. split; auto; [lia|]. intros i l Hl. left. by eapply tree_head. Qed.

Lemma extends_trans k1 k2 s T s1 T1 s2 T2 :
  pmem_inv s -> extends k1 s T s1 T1 -> extends k2 s1 T1 s2 T2 -> extends (k1 + k2) s T s2 T2.
Proof.
  intros Hi [Hi1 Hw1 Hs1 Hn1 Hr1 Hf1 Hc1 Hu1 Ho1 Hl1] [Hi2 Hw2 Hs2 Hn2 Hr2 Hf2 Hc2 Hu2 Ho2 Hl2].
  split; [done|done|by etrans| |auto| |lia|by rewrite Hu2|..].
  - intros path p Hp. destruct (Hn2 path p Hp) as [Hp1|[Hin H0]]; [by apply Hn1|].
    right. split; [done|]. destruct (pi_ref _ _ _ Hi (page_index p)) as [|H1]; [done|].
    apply Hr1 in H1. lia.
  - intros q a Hq Hnot Ha. rewrite (Hf2 q a); [by apply (Hf1 q)|by eapply owned_mono| |done].
    intros path Hp. destruct (Hn1 path q Hp) as [Hp0|[Hin H0]]; [by apply (Hnot path)|].
    destruct Hq as (_ & _ & Ho). rewrite (Ho true Hin) in H0. done.
  - intros i [[?|(path & p & Hp & <-)]%Ho1|?]%Ho2; [by left| |by right].
    right. exists path, p. split; [|done]. by eapply lookup_weaken.
  - intros i l [H|]%Hl2; [by apply Hl1 in H|by right].
Qed.

(** *** A new table page *)

(** The state after the allocating branch of [walk_body], the new page being
    [p] and the allocator having ended in [s1]. *)
Definition grown (s1 : pmem) (e p : Z) : pmem :=
  set_mem (upd (fill (mem s1) p PGSIZE 0) e (pa_to_pte p PTE_V)) s1.

Lemma alloc_not_owned s p s1 q : alloc_post kb ub true s p s1 -> owned s q -> q <> p.
Proof.
  intros [Hin Hfr _ _ _ _ _ _ _] (_ & _ & Ho) ->. rewrite (Ho true Hin) in Hfr. done.
Qed.

Lemma grown_mem s p s1 e q a : alloc_post kb ub true s p s1 ->
  owned s q -> in_page q a -> a <> e -> mem (grown s1 e p) a = mem s a.
Proof.
  intros Hpost Hq Ha Hne. pose proof (alloc_not_owned s p s1 q Hpost Hq) as Hqp.
  assert (~ in_page p a) as Hpa.
  { intros Hpa. apply Hqp. destruct Hq as [Hq _], Hpost as [[_ Hp] _ _ _ _ _ _ _ _].
    by eapply page_unique. }
  simpl. rewrite upd_ne, fill_out by done. by apply Hpost.
Qed.

Lemma grown_zero s1 e p a : in_page p a -> a <> e -> mem (grown s1 e p) a = 0.
Proof. intros Ha Hne. simpl. rewrite upd_ne, fill_in by done. done. Qed.

Lemma grown_inv s p s1 q i : alloc_post kb ub true s p s1 -> owned s q -> 0 <= i < PGNUM ->
  pmem_inv (grown s1 (entry q i) p).
Proof.
  intros Hpost Hq Hi. pose proof Hpost as [Hin _ Hus Hrefs _ _ _ _ Hinv].
  assert (Hown : owned (set_mem (fill (mem s1) p PGSIZE 0) s1) q).
  { apply (owned_mono s); [|done]. intros j Hj.
    destruct (decide (j = page_index p)) as [->|Hne]; [done|]. simpl. by rewrite Hrefs. }
  apply (owned_entry kb ub _ q i Hown Hi). apply pmem_inv_set_mem; [done|].
  intros fk r [_ Hr] Hr0. apply fill_out. intros Hpr.
  assert (r = p) as ->; [|congruence].
  destruct Hin as [_ Hp]. apply (page_unique _ _ r); [done|done|unfold in_page; page_lia|done].
Qed.

Lemma pool_page_range p : layout_ok kb ub -> in_bounds kb p -> p mod PGSIZE = 0 /\ 0 < p < 2 ^ 56.
Proof.
  intros HL [Hp Hal]. destruct (layout_pick true HL) as [? ?]. simpl in *.
  unfold PHY_MEM_START, TOTAL_PAGES, PGSIZE in *. change (128 * 1024 * 1024 / 4096) with 32768 in *.
  split; [done|lia].
Qed.

Lemma new_pte p : layout_ok kb ub -> in_bounds kb p ->
  is_valid (pa_to_pte p PTE_V) = true /\ is_leaf (pa_to_pte p PTE_V) = false /\
  pte_to_pa (pa_to_pte p PTE_V) = p.
Proof.
  intros HL Hin. destruct (pool_page_range p HL Hin) as [Hal Hr].
  rewrite is_valid_pa_to_pte, is_leaf_pa_to_pte, pte_to_pa_pa_to_pte by lia.
  split_and!; [done|done|]. unfold PGSIZE in *. pose proof (Z.div_mod p 4096). lia.
Qed.

Lemma grown_wf s T p s1 path q i :
  pmem_inv s -> alloc_post kb ub true s p s1 -> pt_wf s root T ->
  T !! path = Some q -> (length path < 2)%nat -> 0 <= i < PGNUM -> T !! (path ++ [i]) = None ->
  pt_wf (grown s1 (entry q i) p) root (<[path ++ [i] := p]> T).
Proof.
  intros Hinv Hpost Hwf Hq Hlen Hi Hnone.
  pose proof Hpost as [Hin Hfr Hus Hrefs _ _ _ _ _]. simpl in Hin.
  pose proof (pi_layout _ _ _ Hinv) as HL.
  pose proof Hwf as [Hroot Hown Hpath Hpre Hinj Hent].
  assert (Hfresh : forall path' p', T !! path' = Some p' -> p' <> p)
    by (intros path' p' Hp'; eapply alloc_not_owned; eauto).
  split.
  - rewrite lookup_insert_ne by (by destruct path). done.
  - intros path' p' [[<- <-]|[Hne Hp']]%lookup_insert_Some.
    + destruct (pool_page_range p HL Hin) as [? ?]. split; [done|split; [done|]].
      intros fk _. done.
    + apply (owned_mono s); [|by eapply Hown]. intros j Hj. simpl.
      destruct (decide (j = page_index p)) as [->|?]; [done|]. by rewrite Hrefs.
  - intros path' p' [[<- <-]|[Hne Hp']]%lookup_insert_Some; [|by eapply Hpath].
    rewrite length_app. simpl. split; [lia|]. apply Forall_app. split; [|by constructor].
    by eapply Hpath.
  - intros path' j [p' [[Heq _]|[Hne Hp']]%lookup_insert_Some].
    + apply app_inj_tail in Heq as [-> _]. apply lookup_insert_is_Some'. right. by eexists.
    + apply lookup_insert_is_Some'. right. apply (Hpre _ j). by eexists.
  - intros path1 path2 p' [[<- <-]|[Hne1 Hp1]]%lookup_insert_Some
      [[<- Hpp]|[Hne2 Hp2]]%lookup_insert_Some; [done| | |by eapply Hinj].
    + by destruct (Hfresh _ _ Hp2).
    + subst p'. by destruct (Hfresh _ _ Hp1).
  - intros path' p' j [[<- <-]|[Hne Hp']]%lookup_insert_Some Hl' Hj.
    + rewrite grown_zero; [simpl| by apply entry_in_page|].
      * rewrite lookup_insert_ne.
        -- destruct (T !! ((path ++ [i]) ++ [j])) eqn:E; [|done].
           destruct (Hpre (path ++ [i]) j) as [? ?]; [by eexists|]. congruence.
        -- intros Heq%(f_equal length). rewrite !length_app in Heq. simpl in Heq. lia.
      * intros Heq. apply (entry_inj p q j i) in Heq as [-> _]; try done.
        -- by destruct (Hfresh _ _ Hq).
        -- by destruct Hin.
        -- by destruct (Hown _ _ Hq).
    + destruct (decide (path' = path /\ j = i)) as [[-> ->]|Hdiff].
      * replace p' with q by congruence. simpl. rewrite upd_eq.
        destruct (new_pte p HL Hin) as (-> & -> & ->). by rewrite lookup_insert_eq.
      * rewrite (grown_mem s p s1 _ p'); [|done|by eapply Hown|by apply entry_in_page|].
        -- rewrite lookup_insert_ne; [by apply Hent|].
           intros [-> ->]%app_inj_tail. by apply Hdiff.
        -- intros Heq. apply entry_inj in Heq as [-> ->]; [|by eapply Hown..|done|done].
           apply Hdiff. split; [|done]. by eapply Hinj.
Qed.

Lemma trans_grown s T p s1 path q i va :
  pmem_inv s -> alloc_post kb ub true s p s1 -> pt_wf s root T ->
  T !! path = Some q -> (length path < 2)%nat -> 0 <= i < PGNUM -> T !! (path ++ [i]) = None ->
  trans (grown s1 (entry q i) p) (<[path ++ [i] := p]> T) va = trans s T va.
Proof.
  intros Hinv Hpost Hwf Hq Hlen Hi Hnone. pose proof Hwf as [_ Hown _ _ Hinj _].
  assert (Hqp : q <> p) by by eapply alloc_not_owned; [|eapply Hown].
  pose proof Hpost as [[_ Hpal] _ _ _ _ _ _ _ _].
  assert (Hv : 0 <= vpn va 0 < PGNUM) by by apply vpn_range.
  unfold trans, leaf_ref.
  destruct (decide (path ++ [i] = [vpn va 2; vpn va 1])) as [Heq|Hne].
  - rewrite <-Heq, lookup_insert_eq, Hnone. simpl.
    pose proof (grown_zero s1 (entry q i) p (entry p (vpn va 0))) as Hz. simpl in Hz.
    rewrite Hz; [done|by apply entry_in_page|].
    intros He. apply entry_inj in He as [-> _]; try done. by eapply Hown.
  - rewrite lookup_insert_ne by done. destruct (T !! [vpn va 2; vpn va 1]) as [t|] eqn:Ht; [|done].
    simpl. pose proof (grown_mem s p s1 (entry q i) t (entry t (vpn va 0)) Hpost) as Hm.
    simpl in Hm. rewrite Hm; [done|by eapply Hown|by apply entry_in_page|].
    intros He. apply entry_inj in He as [-> _]; [|by eapply Hown..|done|done].
    assert (path = [vpn va 2; vpn va 1]) as -> by by eapply Hinj. simpl in Hlen. lia.
Qed.

Lemma grown_extends s T p s1 path q i :
  pmem_inv s -> alloc_post kb ub true s p s1 -> pt_wf s root T ->
  T !! path = Some q -> (length path < 2)%nat -> 0 <= i < PGNUM -> T !! (path ++ [i]) = None ->
  (path = [] -> i < PGNUM / 2) ->
  extends 1 s T (grown s1 (entry q i) p) (<[path ++ [i] := p]> T).
Proof.
  intros Hinv Hpost Hwf Hq Hlen Hi Hnone Hlow.
  pose proof Hpost as [Hin Hfr Hus Hrefs _ _ Hcount Hother _].
  assert (Hown : owned s q) by by eapply (wf_owned _ _ _ _ _ Hwf).
  split.
  - by apply (grown_inv s).
  - by apply (grown_wf s).
  - by apply insert_subseteq.
  - intros path' p' [[<- <-]|[_ Hp']]%lookup_insert_Some; [by right|by left].
  - intros j Hj. simpl. destruct (decide (j = page_index p)) as [->|?]; [done|]. by rewrite Hrefs.
  - intros r a Hr Hnot Ha. eapply (grown_mem s p s1 _ r); [done|done|done|]. intros ->.
    apply (Hnot path). rewrite Hq. f_equal.
    apply (page_unique _ _ (entry q i)); [apply Hown|apply Hr|by apply entry_in_page|done].
  - unfold grown. rewrite region_set_mem, Hcount. lia.
  - unfold grown. by rewrite region_set_mem.
  - intros j Hj. simpl in Hj. destruct (decide (j = page_index p)) as [->|?]; [|by rewrite Hrefs in Hj; auto].
    right. exists (path ++ [i]), p. by rewrite lookup_insert_eq.
  - intros j l [p' [[Heq _]|[_ Hp']]%lookup_insert_Some]; [|left; by eapply tree_head].
    destruct path as [|x path]; injection Heq as -> _; [by right; apply Hlow|left; by eapply tree_head].
Qed.

(** The number of table pages a walk to [path ++ [i]] has to create. *)
Definition absent T (path : list Z) : Z := if T !! path is Some _ then 0 else 1.

Lemma table_pte s T path q i :
  pt_wf s root T -> T !! path = Some q -> (length path < 2)%nat -> 0 <= i < PGNUM ->
  match T !! (path ++ [i]) with
  | Some t => is_valid (mem s (entry q i)) = true /\ is_leaf (mem s (entry q i)) = false /\
      pte_to_pa (mem s (entry q i)) = t /\ t <> 0
  | None => is_valid (mem s (entry q i)) = false
  end.
Proof.
  intros Hwf Hq Hlen Hi. pose proof (wf_entry _ _ _ _ _ Hwf path q i Hq Hlen Hi) as He.
  destruct (is_valid (mem s (entry q i))).
  - destruct He as [Hl Ht]. rewrite Ht. split_and!; [done|done|done|].
    destruct (wf_owned _ _ _ _ _ Hwf _ _ Ht) as (_ & ? & _). lia.
  - by rewrite He.
Qed.

Lemma wp_walk_body s T va table level path :
  pmem_inv s -> pt_wf s root T -> 0 <= level -> T !! path = Some table -> (length path < 2)%nat ->
  absent T (path ++ [vpn va level]) <= allocable (inner (region true s)) -> (path = [] -> vpn va level < PGNUM / 2) ->
  wp (walk_body va true table level) (fun r s' => exists T' t,
    r = inl t /\ T' !! (path ++ [vpn va level]) = Some t /\
    (forall va', trans s' T' va' = trans s T va') /\
    extends (absent T (path ++ [vpn va level])) s T s' T') s.
Proof.
  intros Hinv Hwf Hlv Hq Hlen Hall Hlow. pose proof (vpn_range va level Hlv) as Hi.
  pose proof (table_pte s T path table _ Hwf Hq Hlen Hi) as Hpte.
  unfold walk_body, absent in *. wp_steps.
  destruct (T !! (path ++ [vpn va level])) as [t|] eqn:Ht.
  - destruct Hpte as (-> & -> & -> & Hnz). rewrite (proj2 (Z.eqb_neq _ _) Hnz).
    apply wp_ret. exists T, t. split_and!; [done|done|done|by apply extends_refl].
  - rewrite Hpte. cbn [negb]. wp_step. eapply wp_mono; [|apply (wp_pmem_alloc (kb := kb) (ub := ub)); [done|lia]].
    intros p s1 Hpost. pose proof (ap_in _ _ _ _ Hpost) as Hin. simpl in Hin.
    destruct (pool_page_range p (pi_layout _ _ _ Hinv) Hin) as [_ Hp0].
    rewrite (proj2 (Z.eqb_neq p 0)) by lia. wp_steps.
    exists (<[path ++ [vpn va level] := p]> T), p.
    split_and!; [done|by rewrite lookup_insert_eq| |].
    { intros va'. exact (trans_grown s T p s1 path table _ va' Hinv Hpost Hwf Hq Hlen Hi Ht). }
    exact (grown_extends s T p s1 path table _ Hinv Hpost Hwf Hq Hlen Hi Ht Hlow).
Qed.

Lemma vpn_low va : 0 <= va < VA_MAX -> vpn va 2 < PGNUM / 2.
Proof.
  change VA_MAX with (256 * 2 ^ 30). change (PGNUM / 2) with 256. intros Hva. rewrite vpn_eq by lia.
  change (2 ^ (12 + 9 * 2)) with (2 ^ 30). rewrite Z.mod_small; [apply Z.div_lt_upper_bound; lia|].
  split; [apply Z.div_pos; lia|]. apply Z.div_lt_upper_bound; lia.
Qed.

Definition missing T (va : Z) : Z := absent T [vpn va 2] + absent T [vpn va 2; vpn va 1].

Lemma wp_walk s T va :
  pmem_inv s -> pt_wf s root T -> 0 <= va < VA_MAX ->
  missing T va <= allocable (inner (region true s)) ->
  wp (walk root va true) (fun r s' => exists T' t,
    T' !! [vpn va 2; vpn va 1] = Some t /\ r = Some (entry t (vpn va 0)) /\
    (forall va', trans s' T' va' = trans s T va') /\
    extends (missing T va) s T s' T') s.
Proof.
  intros Hinv Hwf Hva Hall. unfold walk. rewrite (proj2 (Z.leb_gt _ _)) by lia.
  assert (Hnn : forall path, 0 <= absent T path) by (intros path; unfold absent; by case_match).
  unfold missing in Hall. pose proof (Hnn [vpn va 2]). pose proof (Hnn [vpn va 2; vpn va 1]).
  wp_step. simpl for_each. wp_step.
  eapply wp_mono; [|apply (wp_walk_body s T va root 2 []); [done|done|lia|apply Hwf|simpl; lia|cbn [app]; lia|by intros _; apply vpn_low]].
  intros r s1 (T1 & t1 & -> & Ht1 & Htr1 & Hex1). cbn [app] in *.
  wp_step. assert (Habs : absent T1 [vpn va 2; vpn va 1] <= absent T [vpn va 2; vpn va 1]).
  { unfold absent at 2. destruct (T !! [vpn va 2; vpn va 1]) eqn:E; [|unfold absent; case_match; lia].
    unfold absent. erewrite lookup_weaken; [done|done|apply Hex1]. }
  eapply wp_mono; [|apply (wp_walk_body s1 T1 va t1 1 [vpn va 2]);
    [apply Hex1|apply Hex1|lia|done|simpl; lia| |done]].
  2:{ pose proof (ex_count _ _ _ _ _ _ _ _ Hex1). cbn [app]. lia. }
  intros r s2 (T2 & t2 & -> & Ht2 & Htr2 & Hex2). cbn [app] in *. wp_steps.
  exists T2, t2. split_and!; [done|done|by intros va'; rewrite Htr2|].
  pose proof (extends_trans _ _ _ _ _ _ _ _ Hinv Hex1 Hex2) as Hex.
  destruct Hex as [? ? ? ? ? ? Hc ? ? ?]. split; try done. unfold missing. lia.
Qed.

(** [lookup] finds the level-0 entry exactly when the tree has it. *)
Lemma lookup_body_run s T va table level path :
  pt_wf s root T -> 0 <= level -> T !! path = Some table -> (length path < 2)%nat ->
  lookup_body va table level s =
    Ret (match T !! (path ++ [vpn va level]) with Some t => inl t | None => inr None end) s.
Proof.
  intros Hwf Hlv Hq Hlen. pose proof (vpn_range va level Hlv) as Hi.
  pose proof (table_pte s T path table _ Hwf Hq Hlen Hi) as Hpte.
  unfold lookup_body. erewrite bind_run by done.
  destruct (T !! (path ++ [vpn va level])) as [t|].
  - destruct Hpte as (-> & -> & -> & Hnz). by rewrite (proj2 (Z.eqb_neq _ _) Hnz).
  - by rewrite Hpte.
Qed.

Lemma lookup_run s T va : pt_wf s root T -> va < VA_MAX -> pt_lookup root va s = Ret (leaf_ref T va) s.
Proof.
  intros Hwf Hva. unfold pt_lookup, leaf_ref. rewrite (proj2 (Z.leb_gt _ _)) by done.
  pose proof (lookup_body_run s T va root 2 [] Hwf) as H2. simpl in H2.
  unfold for_each, mbind, M_bind. rewrite H2; [|lia|apply Hwf|lia].
  destruct (T !! [vpn va 2]) as [t|] eqn:Ht; simpl.
  - pose proof (lookup_body_run s T va t 1 [vpn va 2] Hwf) as H1. simpl in H1.
    rewrite H1; [|lia|done|lia]. by destruct (T !! [vpn va 2; vpn va 1]).
  - destruct (T !! [vpn va 2; vpn va 1]) eqn:E; [|done].
    destruct (wf_prefix _ _ _ _ _ Hwf [vpn va 2] (vpn va 1)) as [? ?]; [by eexists|]. congruence.
Qed.

(** *** Storing a leaf *)

Lemma leaf_store_wf s T path t i v :
  pt_wf s root T -> T !! path = Some t -> length path = 2%nat -> 0 <= i < PGNUM ->
  pt_wf (set_mem (upd (mem s) (entry t i) v) s) root T.
Proof.
  intros Hwf Ht Hlen Hi. pose proof Hwf as [Hroot Hown Hpath Hpre Hinj Hent].
  split; [done|done|done|done|done|]. intros path' p j Hp Hl Hj. simpl.
  rewrite upd_ne; [by apply Hent|]. intros Heq.
  apply entry_inj in Heq as [-> _]; [|by eapply Hown..|done|done].
  assert (path' = path) as -> by by eapply Hinj. lia.
Qed.

Lemma trans_store s T va t v va' :
  pt_wf s root T -> T !! [vpn va 2; vpn va 1] = Some t ->
  0 <= va < VA_MAX -> 0 <= va' < VA_MAX ->
  trans (set_mem (upd (mem s) (entry t (vpn va 0)) v) s) T va' =
    if va' / PGSIZE =? va / PGSIZE then (if is_valid v then Some v else None) else trans s T va'.
Proof.
  intros Hwf Ht Hva Hva'. unfold trans, leaf_ref. pose proof Hwf as [_ Hown _ _ Hinj _].
  destruct (Z.eqb_spec (va' / PGSIZE) (va / PGSIZE)) as [Heq|Hne].
  - rewrite !(vpn_same_page va' va), Ht by lia. simpl. by rewrite upd_eq.
  - destruct (T !! [vpn va' 2; vpn va' 1]) as [t'|] eqn:Ht'; [|done]. simpl.
    rewrite upd_ne; [done|]. intros He. apply Hne.
    apply entry_inj in He as [-> H0]; [|by eapply Hown..|by apply vpn_range|by apply vpn_range].
    assert (Hpp : [vpn va' 2; vpn va' 1] = [vpn va 2; vpn va 1]) by by eapply Hinj.
    injection Hpp as H2 H1. by apply vpn_page.
Qed.

Lemma leaf_store_extends s T path t i v :
  pmem_inv s -> pt_wf s root T -> T !! path = Some t -> length path = 2%nat -> 0 <= i < PGNUM ->
  extends 0 s T (set_mem (upd (mem s) (entry t i) v) s) T.
Proof.
  intros Hinv Hwf Ht Hlen Hi. assert (Hown : owned s t) by by eapply (wf_owned _ _ _ _ _ Hwf).
  split; [by apply owned_entry|by eapply leaf_store_wf|done|by left|done| |by simpl; lia|done|by left|intros ? ? ?; left; by eapply tree_head].
  intros q a Hq Hnot Ha. simpl. apply upd_ne. intros ->. apply (Hnot path). rewrite Ht. f_equal.
  apply (page_unique _ _ (entry t i)); [apply Hown|apply Hq|by apply entry_in_page|done].
Qed.

(** *** Mapping a range *)

(** Table pages still to be created between two pages of a range, once those
    of the first are there: one per 2 MiB and one per GiB boundary crossed. *)
Definition budget (a last : Z) : Z :=
  (last / 2 ^ 21 - a / 2 ^ 21) + (last / 2 ^ 30 - a / 2 ^ 30).

Lemma missing_bound T va : 0 <= missing T va <= 2.
Proof. unfold missing, absent. repeat case_match; lia. Qed.

Lemma vpn_same_block va va' level :
  0 <= level -> va / 2 ^ (12 + 9 * level) = va' / 2 ^ (12 + 9 * level) -> vpn va level = vpn va' level.
Proof. intros Hl Heq. rewrite !vpn_eq by done. by rewrite Heq. Qed.

Lemma missing_next s T a t : pt_wf s root T -> T !! [vpn a 2; vpn a 1] = Some t ->
  missing T (a + PGSIZE) + budget (a + PGSIZE) (a + PGSIZE) <= budget a (a + PGSIZE).
Proof.
  intros Hwf Ht. destruct (wf_prefix _ _ _ _ _ Hwf [vpn a 2] (vpn a 1)) as [t1 Ht1]; [by eexists|].
  assert (H21 : a / 2 ^ 21 <= (a + PGSIZE) / 2 ^ 21) by (apply Z.div_le_mono; page_lia).
  assert (H30 : a / 2 ^ 30 <= (a + PGSIZE) / 2 ^ 30) by (apply Z.div_le_mono; page_lia).
  assert (Hin : a / 2 ^ 21 = (a + PGSIZE) / 2 ^ 21 -> a / 2 ^ 30 = (a + PGSIZE) / 2 ^ 30).
  { intros Heq. change (2 ^ 30) with (2 ^ 21 * 512). rewrite <-!Z.div_div by lia. by rewrite Heq. }
  unfold budget. rewrite !Z.sub_diag.
  destruct (Z.eq_dec (a / 2 ^ 30) ((a + PGSIZE) / 2 ^ 30)) as [E30|N30].
  - pose proof (vpn_same_block a (a + PGSIZE) 2 ltac:(lia) E30) as E2.
    unfold missing. rewrite <-E2. unfold absent at 1. rewrite Ht1.
    destruct (Z.eq_dec (a / 2 ^ 21) ((a + PGSIZE) / 2 ^ 21)) as [E21|N21].
    + pose proof (vpn_same_block a (a + PGSIZE) 1 ltac:(lia) E21) as E1.
      unfold absent. rewrite <-E1, Ht. lia.
    + unfold absent. case_match; lia.
  - pose proof (missing_bound T (a + PGSIZE)). destruct (Z.eq_dec (a / 2 ^ 21) ((a + PGSIZE) / 2 ^ 21)); [tauto|lia].
Qed.

(** The entry [map] writes for the page of [va'], [start] being mapped to [pa0]. *)
Definition mapped_pte (start pa0 flags va' : Z) : Z :=
  pa_to_pte (pa0 + (va' / PGSIZE * PGSIZE - start)) (Z.lor flags PTE_V).

Definition in_range (lo hi va : Z) : bool := (lo <=? va) && (va <? hi).

Lemma in_range_true lo hi va : in_range lo hi va = true <-> lo <= va < hi.
Proof. unfold in_range. rewrite andb_true_iff, Z.leb_le, Z.ltb_lt. done. Qed.

(** Nothing in the range is mapped, except to the frame it is to be given. *)
Definition no_conflict s T (start pa0 hi : Z) : Prop :=
  forall va', start <= va' < hi -> forall e, trans s T va' = Some e ->
    is_leaf e = true /\ pte_to_pa e = pa0 + (va' / PGSIZE * PGSIZE - start).

Record map_inv s0 T0 (start pa0 last flags : Z) (st : Z * Z) (s : pmem) (T : gmap (list Z) Z) : Prop := {
  mi_al : st.1 mod PGSIZE = 0;
  mi_rng : start <= st.1 <= last;
  mi_pa : st.2 = pa0 + (st.1 - start);
  mi_ext : extends (2 + budget start st.1 - missing T st.1) s0 T0 s T;
  mi_tr : forall va', 0 <= va' < VA_MAX -> trans s T va' =
    if in_range start st.1 va' then Some (mapped_pte start pa0 flags va') else trans s0 T0 va';
}.

Lemma extends_weaken k k' s T s' T' : k <= k' -> extends k s T s' T' -> extends k' s T s' T'.
Proof. intros Hk [? ? ? ? ? ? Hc ? ? ?]. split; try done. lia. Qed.

Lemma budget_mono start a b : a <= b -> budget start a <= budget start b.
Proof.
  intros H. unfold budget. pose proof (Z.div_le_mono a b (2 ^ 21)).
  pose proof (Z.div_le_mono a b (2 ^ 30)). lia.
Qed.

Lemma div_page_between a va : a mod PGSIZE = 0 -> va / PGSIZE = a / PGSIZE <-> a <= va < a + PGSIZE.
Proof.
  unfold PGSIZE. intros Ha. pose proof (Z.div_mod a 4096). pose proof (Z.div_mod va 4096).
  pose proof (Z.mod_pos_bound va 4096). split; [lia|]. intros H'.
  assert (4096 * (va / 4096) < 4096 * (a / 4096 + 1)) by lia.
  assert (4096 * (a / 4096 - 1) < 4096 * (va / 4096)) by lia. lia.
Qed.

(** Storing the entry of page [a] extends the mapped range by that page. *)
Lemma trans_next s0 T0 s T t start pa0 flags a va' :
  pt_wf s root T -> T !! [vpn a 2; vpn a 1] = Some t ->
  a mod PGSIZE = 0 -> start <= a -> 0 <= a < VA_MAX -> 0 <= va' < VA_MAX -> 0 <= pa0 ->
  trans s T va' = (if in_range start a va' then Some (mapped_pte start pa0 flags va') else trans s0 T0 va') ->
  trans (set_mem (upd (mem s) (entry t (vpn a 0))
      (pa_to_pte (pa0 + (a - start)) (Z.lor flags PTE_V))) s) T va' =
    if in_range start (a + PGSIZE) va' then Some (mapped_pte start pa0 flags va') else trans s0 T0 va'.
Proof.
  intros Hwf Ht Hal Hsa Ha Hva Hpa Htr. rewrite (trans_store s T a t) by done.
  destruct (Z.eqb_spec (va' / PGSIZE) (a / PGSIZE)) as [Heq|Hne].
  - rewrite is_valid_pa_to_pte, is_valid_lor_V by lia.
    pose proof (proj1 (div_page_between a va' Hal) Heq) as Hb.
    rewrite (proj2 (in_range_true _ _ _)) by lia. unfold mapped_pte. rewrite Heq.
    do 3 f_equal. unfold PGSIZE in *. pose proof (Z.div_mod a 4096). lia.
  - rewrite Htr. rewrite div_page_between in Hne by done.
    unfold in_range. destruct (Z.leb_spec start va'); [|done].
    destruct (Z.ltb_spec va' a), (Z.ltb_spec va' (a + PGSIZE)); try done; page_lia.
Qed.

Section map_range.
Context (s0 : pmem) (T0 : gmap (list Z) Z) (start pa0 last flags : Z).
Context (Hinv0 : pmem_inv s0) (Hstart : 0 <= start) (Hlast : last + PGSIZE <= VA_MAX)
  (Hlal : last mod PGSIZE = 0) (Hpa : 0 <= pa0) (Hpahi : pa0 + (last - start) + PGSIZE <= 2 ^ 56)
  (Hconf : no_conflict s0 T0 start pa0 (last + PGSIZE))
  (Hpages : 2 + budget start last <= allocable (inner (region true s0))).

(** The state once every page up to [last] is mapped. *)
Definition map_done (s : pmem) : Prop := exists T,
  extends (2 + budget start last) s0 T0 s T /\
  forall va', 0 <= va' < VA_MAX -> trans s T va' =
    if in_range start (last + PGSIZE) va' then Some (mapped_pte start pa0 flags va') else trans s0 T0 va'.

Lemma map_conflict_free a s T t s1 T1 :
  map_inv s0 T0 start pa0 last flags (a, pa0 + (a - start)) s T ->
  (forall va', trans s1 T1 va' = trans s T va') -> T1 !! [vpn a 2; vpn a 1] = Some t ->
  is_valid (mem s1 (entry t (vpn a 0))) &&
    (negb (is_leaf (mem s1 (entry t (vpn a 0)))) ||
     negb (pte_to_pa (mem s1 (entry t (vpn a 0))) =? pa0 + (a - start))) = false.
Proof.
  intros [Hal Hrng _ _ Htr] Htr1 Ht. simpl in *.
  destruct (is_valid (mem s1 (entry t (vpn a 0)))) eqn:Hv; [simpl|done].
  assert (Ha : trans s0 T0 a = Some (mem s1 (entry t (vpn a 0)))).
  { specialize (Htr a ltac:(page_lia)). rewrite <-Htr1 in Htr. unfold trans in Htr at 1.
    unfold leaf_ref in Htr. rewrite Ht in Htr. simpl in Htr. rewrite Hv in Htr.
    unfold in_range in Htr. rewrite (proj2 (Z.ltb_ge a a)), andb_false_r in Htr by lia. done. }
  destruct (Hconf a ltac:(page_lia) _ Ha) as [-> ->]. simpl. apply negb_false_iff, Z.eqb_eq.
  unfold PGSIZE in *. pose proof (Z.div_mod a 4096). lia.
Qed.

Lemma wp_map_body st s T :
  map_inv s0 T0 start pa0 last flags st s T ->
  wp (map_body root last flags st) (fun r s' =>
    match r with
    | inl st' => st'.1 = st.1 + PGSIZE /\ st'.1 <= last /\
        exists T', map_inv s0 T0 start pa0 last flags st' s' T'
    | inr ok => ok = true /\ map_done s'
    end) s.
Proof.
  destruct st as [a pa]. intros Hmi. pose proof Hmi as [Hal Hrng Hpc Hext Htr]. cbn [fst snd] in *. subst pa.
  pose proof (missing_bound T a) as Hmb. pose proof (budget_mono start a last ltac:(lia)) as Hbm.
  unfold map_body. rewrite (proj2 (Z.leb_le _ _)) by lia. wp_step.
  eapply wp_mono; [|apply (wp_walk s T a); [apply Hext|apply Hext|page_lia|]].
  2:{ pose proof (ex_count _ _ _ _ _ _ _ _ Hext). lia. }
  intros r s1 (T1 & t & Ht & -> & Htr1 & Hex1). wp_steps.
  rewrite (map_conflict_free a s T t s1 T1) by done. wp_steps.
  set (s2 := set_mem _ s1).
  assert (Hex2 : extends (2 + budget start a) s0 T0 s2 T1).
  { eapply extends_weaken; [|eapply (extends_trans _ _ s0 T0); [done|exact Hext|]].
    2:{ eapply extends_trans; [apply Hext|exact Hex1|].
        eapply (leaf_store_extends s1 T1 [vpn a 2; vpn a 1]); [apply Hex1|apply Hex1|done|done|].
        by apply vpn_range. }
    lia. }
  assert (Htr2 : forall va', 0 <= va' < VA_MAX -> trans s2 T1 va' =
    if in_range start (a + PGSIZE) va' then Some (mapped_pte start pa0 flags va') else trans s0 T0 va').
  { intros va' Hva'. apply trans_next; [apply Hex1|done|done|lia|page_lia|done|done|].
    rewrite Htr1. by apply Htr. }
  destruct (Z.eqb_spec a last) as [->|Hne].
  - apply wp_ret. split; [done|]. by exists T1.
  - assert (Hnext : a + PGSIZE <= last).
    { unfold PGSIZE in *. pose proof (Z.div_mod a 4096). pose proof (Z.div_mod last 4096). lia. }
    wp_step. wp_step; [change VA_MAX with (2 ^ 38) in *; page_lia|].
    do 2 wp_step. apply wp_ret. simpl. split; [done|]. split; [done|].
    exists T1. split; cbn [fst snd]; [|page_lia|lia| |done].
    + rewrite <-Z.add_mod_idemp_l, Hal by done. done.
    + eapply extends_weaken; [|exact Hex2].
      pose proof (missing_next s1 T1 a t (ex_wf _ _ _ _ _ _ _ _ Hex1) Ht). unfold budget in *. lia.
Qed.

Lemma wp_map_loop fuel : pt_wf s0 root T0 -> start mod PGSIZE = 0 -> start <= last ->
  (Z.to_nat ((last - start) / PGSIZE) < fuel)%nat ->
  wp (loop fuel (map_body root last flags) (start, pa0)) (fun ok s => ok = true /\ map_done s) s0.
Proof.
  intros Hwf Hsal Hle Hfuel.
  apply (wp_loop (fun st s => exists T, map_inv s0 T0 start pa0 last flags st s T)
    (fun st _ => Z.to_nat ((last - st.1) / PGSIZE))); [| |done].
  - intros st s [T Hmi]. eapply wp_mono; [|by apply (wp_map_body st s T)].
    intros [st'|ok] s'; [|done]. intros (Heq & Hle' & HT'). split; [done|].
    apply page_measure; [lia|lia].
  - exists T0. split; simpl; [done|lia|lia| |].
    + eapply extends_weaken; [|by apply extends_refl]. pose proof (missing_bound T0 start).
      unfold budget. lia.
    + intros va' _. unfold in_range. destruct (Z.leb_spec start va'); [|done].
      by rewrite (proj2 (Z.ltb_ge _ _)) by lia.
Qed.
End map_range.

(** Every page of [va .. va+len) becomes mapped, and nothing else changes. *)
Definition map_last (va len : Z) : Z := align_up_val (va + len) - PGSIZE.

Lemma map_last_spec va len : 0 <= va -> 0 < len -> va + len <= VA_MAX ->
  map_last va len mod PGSIZE = 0 /\ align_down va <= map_last va len /\
  map_last va len + PGSIZE <= VA_MAX /\ align_down va mod PGSIZE = 0 /\ 0 <= align_down va.
Proof.
  intros Hva Hlen Hhi. change VA_MAX with (2 ^ 38) in *.
  destruct (align_up_val_spec (va + len)) as [Hu1 Hu2]. unfold map_last.
  destruct (align_down_spec va) as [Hd1 Hd2]; [page_lia|].
  unfold PGSIZE in *. pose proof (Z.div_mod (align_up_val (va + len)) 4096).
  pose proof (Z.div_mod (align_down va) 4096). rewrite Zminus_mod, Hu1.
  split_and!; [done|lia| |done|lia].
  assert (2 ^ 38 mod 4096 = 0) by done. pose proof (Z.div_mod (2 ^ 38) 4096). lia.
Qed.

Lemma wp_pt_map s0 T0 va pa len flags :
  let start := align_down va in let last := map_last va len in let pa0 := align_down pa in
  pmem_inv s0 -> pt_wf s0 root T0 -> 0 <= va -> 0 < len -> va + len <= VA_MAX ->
  0 <= pa < 2 ^ 55 -> no_conflict s0 T0 start pa0 (last + PGSIZE) ->
  2 + budget start last <= allocable (inner (region true s0)) ->
  wp (pt_map root va pa len flags) (fun ok s => ok = true /\ map_done s0 T0 start pa0 last flags s) s0.
Proof.
  intros start last pa0 Hinv Hwf Hva Hlen Hhi Hpa Hconf Hpages.
  destruct (map_last_spec va len Hva Hlen Hhi) as (Hl1 & Hl2 & Hl3 & Hs1 & Hs2).
  change VA_MAX with (2 ^ 38) in *.
  unfold pt_map. rewrite (proj2 (Z.eqb_neq _ _)) by lia.
  do 3 wp_step. apply wp_align_up; [lia|page_lia|]. cbv zeta.
  destruct (align_up_val_spec (va + len)) as [_ Hu].
  destruct (align_down_spec pa) as [Hp1 Hp2]; [page_lia|].
  assert (0 <= pa0).
  { subst pa0. unfold PGSIZE in *. pose proof (Z.div_mod (align_down pa) 4096). lia. }
  wp_step. wp_step; [unfold map_last in *; page_lia|].
  fold start pa0. change (align_up_val (va + len) - PGSIZE) with last.
  apply wp_map_loop; try done; subst start last pa0; page_lia.
Qed.

(** A page that was free is taken for something else: the tree stays as it is. *)
Lemma take_frame_wf fk s T p s' :
  pt_wf s root T -> in_bounds (pick fk kb ub) p -> page_ref s (page_index p) = 0 ->
  page_ref s' (page_index p) = 1 -> (forall i, i <> page_index p -> page_ref s' i = page_ref s i) ->
  (forall a, ~ in_page p a -> mem s' a = mem s a) ->
  pt_wf s' root T /\ (forall va, trans s' T va = trans s T va) /\ (forall path, T !! path <> Some p).
Proof.
  intros [Hroot Hown Hpath Hpre Hinj Hent] Hin Hfr Hus Hrefs Hmem.
  assert (Hnot : forall path, T !! path <> Some p).
  { intros path Hp. destruct (Hown _ _ Hp) as (_ & _ & Ho). rewrite (Ho fk Hin) in Hfr. done. }
  assert (Hword : forall path q i, T !! path = Some q -> 0 <= i < PGNUM ->
    mem s' (entry q i) = mem s (entry q i)).
  { intros path q i Hq Hi. apply Hmem. intros Hp. apply (Hnot path). rewrite Hq. f_equal.
    apply (page_unique _ _ (entry q i)); [by eapply Hown|by destruct Hin|by apply entry_in_page|done]. }
  split_and!; [| |done].
  - split; [done| |done|done|done|].
    + intros path q Hq. eapply owned_mono; [|by eapply Hown]. intros j Hj.
      destruct (decide (j = page_index p)) as [->|?]; [done|]. by rewrite Hrefs.
    + intros path q i Hq Hl Hi. rewrite (Hword path) by done. by apply Hent.
  - intros va. unfold trans, leaf_ref. destruct (T !! [vpn va 2; vpn va 1]) as [t|] eqn:Ht; [|done].
    simpl. rewrite (Hword _ _ _ Ht); [done|]. by apply vpn_range.
Qed.

(** *** Unmapping a range *)

Lemma alloc_frame_wf fk s T p s' :
  pt_wf s root T -> alloc_post kb ub fk s p s' ->
  pt_wf s' root T /\ (forall va, trans s' T va = trans s T va) /\ (forall path, T !! path <> Some p).
Proof. intros Hwf [Hin Hfr Hus Hrefs _ Hmem _ _ _]. by apply (take_frame_wf fk s). Qed.

Lemma page_not_index fp q p : layout_ok kb ub -> in_bounds (pick fp kb ub) p -> q <> p ->
  forall fk, in_bounds (pick fk kb ub) q -> page_index q <> page_index p.
Proof. intros HL Hp Hne fk Hq Heq. apply Hne. by apply (@same_page kb ub fk fp). Qed.

(** Giving back a frame that is no table leaves the tree as it is. *)
Lemma free_frame_wf fp s T p s' :
  pmem_inv s -> pt_wf s root T -> in_bounds (pick fp kb ub) p -> (forall path, T !! path <> Some p) ->
  free_post kb ub fp s p s' ->
  pt_wf s' root T /\ (forall va, trans s' T va = trans s T va).
Proof.
  intros Hinv [Hroot Hown Hpath Hpre Hinj Hent] Hin Hnot [Hfr Hrefs Hmem _ _ _].
  assert (Hword : forall path q i, T !! path = Some q -> 0 <= i < PGNUM ->
    mem s' (entry q i) = mem s (entry q i)).
  { intros path q i Hq Hi. apply Hmem. intros Heq. apply (Hnot path). rewrite Hq. f_equal.
    apply (page_unique _ _ (entry q i)); [by eapply Hown|by destruct Hin|by apply entry_in_page|].
    rewrite Heq. unfold in_page. page_lia. }
  split.
  - split; [done| |done|done|done|].
    + intros path q Hq. pose proof (Hown _ _ Hq) as (? & ? & Ho). split; [done|split; [done|]].
      intros fk Hb. rewrite Hrefs; [by apply (Ho fk)|].
      eapply page_not_index; [apply Hinv|done| |done]. intros ->. by apply (Hnot path).
    + intros path q i Hq Hl Hi. rewrite (Hword path) by done. by apply Hent.
  - intros va. unfold trans, leaf_ref. destruct (T !! [vpn va 2; vpn va 1]) as [t|] eqn:Ht; [|done].
    simpl. rewrite (Hword _ _ _ Ht); [done|]. by apply vpn_range.
Qed.

Section unmap_range.
Context (s0 : pmem) (T : gmap (list Z) Z) (start last : Z) (free pool : bool).

(** The frame a page of the range is mapped to. *)
Definition frame_at (va p : Z) : Prop := exists e, trans s0 T va = Some e /\ pte_to_pa e = p.

(** Every page of the range is mapped by a leaf; if the frames are to be
    freed they are distinct held pages of one pool, none of them a table. *)
Record unmappable : Prop := {
  um_leaf : forall va, start <= va < last + PGSIZE ->
    exists e, trans s0 T va = Some e /\ is_leaf e = true;
  um_held : free = true -> forall va p, start <= va < last + PGSIZE -> frame_at va p ->
    in_bounds (pick pool kb ub) p /\ page_ref s0 (page_index p) = 1 /\ forall path, T !! path <> Some p;
  um_inj : free = true -> forall va va' p, start <= va < last + PGSIZE ->
    start <= va' < last + PGSIZE -> frame_at va p -> frame_at va' p -> va / PGSIZE = va' / PGSIZE;
}.

(** The pages of [start .. a) are unmapped, and their frames given back. *)
Record unmapped (a : Z) (s : pmem) : Prop := {
  un_inv : pmem_inv s;
  un_wf : pt_wf s root T;
  un_tr : forall va, 0 <= va < VA_MAX -> trans s T va =
    if in_range start a va then None else trans s0 T va;
  un_freed : free = true -> forall va p, start <= va < a -> frame_at va p -> page_ref s (page_index p) = 0;
  un_kept : forall i, (free = true -> forall va p, start <= va < a -> frame_at va p -> i <> page_index p) ->
    page_ref s i = page_ref s0 i;
  un_count : allocable (inner (region pool s)) =
    allocable (inner (region pool s0)) + (if free then (a - start) / PGSIZE else 0);
  un_other : region (negb pool) s = region (negb pool) s0;
  un_mem : forall q x, owned s0 q -> (forall path, T !! path <> Some q) ->
    (free = true -> forall va, start <= va < a -> ~ frame_at va q) -> in_page q x -> mem s x = mem s0 x;
}.

Lemma trans_page s T' va va' : va / PGSIZE = va' / PGSIZE -> trans s T' va = trans s T' va'.
Proof. intros Heq. unfold trans, leaf_ref. by rewrite !(vpn_same_page va va') by lia. Qed.

Lemma frame_at_page va va' p : va / PGSIZE = va' / PGSIZE -> frame_at va p -> frame_at va' p.
Proof. intros Heq (e & He & Hp). exists e. split; [|done]. by rewrite <-(trans_page s0 T va va'). Qed.

Lemma frame_at_inj va p p' : frame_at va p -> frame_at va p' -> p = p'.
Proof. intros (e & He & <-) (e' & He' & <-). congruence. Qed.

(** Split a page of the grown range into the old range and the new page. *)
Lemma range_next a va : a mod PGSIZE = 0 -> start <= va < a + PGSIZE ->
  start <= va < a \/ va / PGSIZE = a / PGSIZE.
Proof.
  intros Hal Hva. destruct (Z.lt_ge_cases va a); [by left; lia|]. right.
  apply div_page_between; [done|lia].
Qed.

Lemma unmapped_next a t p s s1 :
  0 <= start -> start <= a -> a mod PGSIZE = 0 -> start mod PGSIZE = 0 -> a < VA_MAX ->
  unmapped a s -> T !! [vpn a 2; vpn a 1] = Some t -> frame_at a p ->
  p mod PGSIZE = 0 ->
  (if free then free_post kb ub pool s p s1 else s1 = s) ->
  pmem_inv s1 -> pt_wf s1 root T -> (forall va, trans s1 T va = trans s T va) ->
  unmapped (a + PGSIZE) (set_mem (upd (mem s1) (entry t (vpn a 0)) 0) s1).
Proof.
  intros H0 Hsa Hal Hsal Hamax [Hinv Hwf Htr Hfreed Hkept Hcount Hkern Hmem] Ht Hp Hpal Hs1 Hinv1 Hwf1 Htr1.
  assert (Hv : 0 <= vpn a 0 < PGNUM) by by apply vpn_range.
  assert (Hown : owned s1 t) by by eapply (wf_owned _ _ _ _ _ Hwf1).
  assert (Hna : a <= a < a + PGSIZE) by page_lia.
  split.
  - by apply owned_entry.
  - by eapply leaf_store_wf.
  - intros va Hva. rewrite (trans_store s1 T a t) by (done || lia). rewrite Htr1, Htr by done.
    destruct (Z.eqb_spec (va / PGSIZE) (a / PGSIZE)) as [Heq|Hne].
    + apply div_page_between in Heq; [|done]. by rewrite (proj2 (in_range_true _ _ _)) by lia.
    + rewrite div_page_between in Hne by done. unfold in_range.
      destruct (Z.leb_spec start va); [|done].
      destruct (Z.ltb_spec va a), (Z.ltb_spec va (a + PGSIZE)); try done; page_lia.
  - intros Hfree va q Hva Hq. rewrite Hfree in *. simpl.
    destruct (decide (page_index q = page_index p)) as [->|Hne]; [apply Hs1|].
    rewrite (fp_refs _ _ _ _ Hs1) by done. destruct (range_next a va Hal Hva) as [Hold|Hnew].
    + by eapply Hfreed.
    + destruct Hne. f_equal. eapply frame_at_inj; [|exact Hp]. by eapply frame_at_page.
  - intros j Hj. simpl. rewrite <-Hkept by (intros Hf va q Hva; apply (Hj Hf); lia).
    destruct free; [|by subst]. apply Hs1. apply (Hj eq_refl a); [lia|done].
  - rewrite region_set_mem. destruct free; [|by subst; lia].
    rewrite (fp_count _ _ _ _ Hs1), Hcount.
    replace (a + PGSIZE - start) with (a - start + 1 * PGSIZE) by lia.
    rewrite Z.div_add by done. lia.
  - rewrite region_set_mem. destruct free; [|by subst]. by rewrite (fp_other _ _ _ _ Hs1).
  - intros q x Hq Hnot Hnf Hx. simpl. rewrite upd_ne.
    + rewrite <-(Hmem q x) by (try done; intros Hf va Hva; apply (Hnf Hf); lia).
      destruct free; [|by subst]. apply Hs1. intros ->.
      apply (Hnf eq_refl a); [lia|]. assert (q = p) as ->; [|done].
      apply (page_unique _ _ p); [apply Hq|done|done|unfold in_page; page_lia].
    + intros ->. apply (Hnot [vpn a 2; vpn a 1]). rewrite Ht. f_equal.
      apply (page_unique _ _ (entry t (vpn a 0))); [apply Hown|apply Hq|by apply entry_in_page|done].
Qed.

(** [unmap]'s optional [pmem::free] of the frame. *)
Lemma wp_unmap_free a s p :
  unmappable -> start <= a < last + PGSIZE -> a mod PGSIZE = 0 -> unmapped a s -> frame_at a p ->
  wp (if free then
        r ← get_region p;
        match r with
        | Some for_kernel => pmem_free p for_kernel
        | None => panic "vm_unmappages: PA out of bounds"
        end
      else mret tt)
    (fun _ s1 => (if free then free_post kb ub pool s p s1 else s1 = s) /\
      pmem_inv s1 /\ pt_wf s1 root T /\ (forall va, trans s1 T va = trans s T va)) s.
Proof.
  intros [_ Hheld Hinj] Hrng Hal [Hinv Hwf Htr Hfreed Hkept Hcount Hkern Hmem] Hp.
  destruct free; [|by apply wp_ret].
  destruct (Hheld eq_refl a p Hrng Hp) as (Hin & Hr & Hnt).
  wp_step. eapply wp_intro; [by apply (get_region_run (kb := kb) (ub := ub))|]. pose proof (pi_layout _ _ _ Hinv) as HL.
  assert (Hreg : (if (rb_begin kb <=? p) && (p <? rb_end kb) then Some true
    else if (rb_begin ub <=? p) && (p <? rb_end ub) then Some false else None) = Some pool).
  { destruct HL as [????? _], Hin as [Hin _]. destruct pool; simpl in Hin.
    - by rewrite (proj2 (andb_true_iff _ _)) by (split; Zb).
    - rewrite (proj2 (andb_false_iff (rb_begin kb <=? p) _)) by (right; Zb).
      by rewrite (proj2 (andb_true_iff _ _)) by (split; Zb). }
  rewrite Hreg.
  eapply wp_mono; [|apply (wp_pmem_free (kb := kb) (ub := ub) s pool p); [done|done|]].
  - intros [] s1 Hpost. split; [done|]. split; [apply Hpost|]. by eapply free_frame_wf.
  - rewrite Hkept; [done|]. intros _ va q Hva Hq Heq.
    assert (Hin' : in_bounds (pick pool kb ub) q) by (eapply (Hheld eq_refl va); [page_lia|done]).
    apply (@same_page kb ub pool pool) in Heq; [|done..]. subst q.
    pose proof (Hinj eq_refl a va p ltac:(lia) ltac:(page_lia) Hp Hq) as Hpp.
    symmetry in Hpp. rewrite div_page_between in Hpp by done. lia.
Qed.

Lemma wp_unmap_body a s :
  unmappable -> 0 <= start -> start <= a <= last -> last + PGSIZE <= VA_MAX ->
  a mod PGSIZE = 0 -> start mod PGSIZE = 0 -> last mod PGSIZE = 0 -> unmapped a s ->
  wp (unmap_body root last free a) (fun r s' =>
    match r with
    | inl a' => a' = a + PGSIZE /\ a' <= last /\ unmapped a' s'
    | inr ok => ok = true /\ unmapped (last + PGSIZE) s'
    end) s.
Proof.
  intros Hum H0 Hrng Hlast Hal Hsal Hlal Hun. pose proof Hun as [Hinv Hwf Htr _ _ _ _ _].
  unfold unmap_body. rewrite (proj2 (Z.leb_le _ _)) by lia. wp_step.
  eapply wp_intro; [apply (lookup_run s T a Hwf); page_lia|].
  destruct (um_leaf Hum a ltac:(page_lia)) as (e & He & Hleaf).
  assert (Hse : trans s T a = Some e).
  { rewrite Htr by page_lia. unfold in_range. by rewrite (proj2 (Z.ltb_ge a a)), andb_false_r by lia. }
  unfold trans, leaf_ref in Hse. unfold leaf_ref.
  destruct (T !! [vpn a 2; vpn a 1]) as [t|] eqn:Ht; [|done]. simpl in Hse |- *.
  destruct (is_valid (mem s (entry t (vpn a 0)))) eqn:Hv; [|done]. injection Hse as Hme.
  wp_steps. rewrite Hv, Hme, Hleaf. cbn [negb orb].
  assert (Hp : frame_at a (pte_to_pa e)) by by exists e.
  do 1 wp_step. eapply wp_mono; [|apply (wp_unmap_free a s (pte_to_pa e)); [done|page_lia|done|done|done]].
  intros _ s1 (Hs1 & Hinv1 & Hwf1 & Htr1). do 2 wp_step.
  pose proof (unmapped_next a t _ s s1 H0 ltac:(lia) Hal Hsal ltac:(page_lia) Hun Ht Hp
    (pte_to_pa_aligned e) Hs1 Hinv1 Hwf1 Htr1) as Hnext.
  wp_steps. destruct (Z.eqb_spec a last) as [->|Hne]; [by apply wp_ret|].
  wp_step. wp_step; [change VA_MAX with (2 ^ 38) in *; page_lia|]. apply wp_ret.
  split_and!; [done| |done].
  unfold PGSIZE in *. pose proof (Z.div_mod a 4096). pose proof (Z.div_mod last 4096). lia.
Qed.
End unmap_range.

Lemma wp_pt_unmap s0 T va len free pool :
  let start := align_down va in let last := map_last va len in
  pmem_inv s0 -> pt_wf s0 root T -> 0 <= va -> 0 < len -> va + len <= VA_MAX ->
  unmappable s0 T start last free pool ->
  wp (pt_unmap root va len free) (fun ok s => ok = true /\ unmapped s0 T start free pool (last + PGSIZE) s) s0.
Proof.
  intros start last Hinv Hwf Hva Hlen Hhi Hum.
  destruct (map_last_spec va len Hva Hlen Hhi) as (Hl1 & Hl2 & Hl3 & Hs1 & Hs2).
  unfold pt_unmap. rewrite (proj2 (Z.eqb_neq _ _)) by lia.
  assert (Hv38 : VA_MAX = 2 ^ 38) by done.
  do 3 wp_step. apply wp_align_up; [lia|page_lia|]. cbv zeta.
  destruct (align_up_val_spec (va + len)) as [_ Hu].
  wp_step. wp_step; [unfold map_last in *; page_lia|].
  fold start. change (align_up_val (va + len) - PGSIZE) with last.
  apply (wp_loop (fun a s => start <= a <= last /\ a mod PGSIZE = 0 /\ unmapped s0 T start free pool a s)
    (fun a _ => Z.to_nat ((last - a) / PGSIZE))).
  - intros a s (Hrng & Hal & Hun).
    eapply wp_mono; [|by apply (wp_unmap_body s0 T start last free pool a s)].
    intros [a'|ok] s'; [|done]. intros (-> & Hle & Hun').
    split_and!; [page_lia|done| |done|apply page_measure; lia].
    rewrite <-Z.add_mod_idemp_l, Hal by done. done.
  - split_and!; [done|done|done|]. split; try done; try lia.
    + intros va' _. unfold in_range. destruct (Z.leb_spec start va'); [|done].
      by rewrite (proj2 (Z.ltb_ge _ _)) by lia.
    + rewrite Z.sub_diag, Z.div_0_l by done. destruct free; lia.
  - subst start last. lia.
Qed.
End tree.

(** ** A fresh table, and the machine of the examples *)

Lemma fresh_table_wf kb ub s p s' :
  pmem_inv kb ub s -> alloc_post kb ub true s p s' -> pt_wf kb ub s' p {[ [] := p ]}.
Proof.
  intros Hinv [Hin Hfr Hus Hrefs Hz _ _ _ _]. simpl in Hin.
  destruct (pool_page_range p (pi_layout _ _ _ Hinv) Hin) as [Hal Hr].
  split.
  - by rewrite lookup_singleton_eq.
  - intros path q [<- <-]%lookup_singleton_Some. split; [done|split; [done|]]. by intros.
  - intros path q [<- <-]%lookup_singleton_Some. split; [simpl; lia|constructor].
  - intros path i [q [Heq _]%lookup_singleton_Some]. by destruct path.
  - intros path path' q [<- _]%lookup_singleton_Some [<- _]%lookup_singleton_Some. done.
  - intros path q i [<- <-]%lookup_singleton_Some _ Hi.
    rewrite Hz by by apply entry_in_page. simpl. by rewrite lookup_singleton_ne.
Qed.

Definition demo_root : Z := 0x8030F000.
Definition demo_tree : gmap (list Z) Z := {[ [] := demo_root ]}.
Definition demo_pt : pmem := final (pmem_alloc true) demo.

Lemma demo_alloc : pmem_alloc true demo = Ret demo_root demo_pt.
Proof.
  assert (match pmem_alloc true demo with Ret p _ => p = demo_root | _ => False end) as H
    by (vm_compute; reflexivity).
  unfold demo_pt, final. destruct (pmem_alloc true demo); [by subst|done..].
Qed.

Lemma demo_alloc_post : alloc_post demo_kb demo_ub true demo demo_root demo_pt.
Proof. apply alloc_returns; [apply demo_inv|apply demo_alloc]. Qed.

Lemma demo_pt_inv : pmem_inv demo_kb demo_ub demo_pt.
Proof. apply demo_alloc_post. Qed.

Lemma demo_pt_wf : pt_wf demo_kb demo_ub demo_pt demo_root demo_tree.
Proof. eapply fresh_table_wf; [apply demo_inv|apply demo_alloc_post]. Qed.

Lemma demo_pt_trans va : trans demo_pt demo_tree va = None.
Proof. unfold trans, leaf_ref, demo_tree. by rewrite lookup_singleton_ne. Qed.

(** The machine with a user frame held and mapped at 0x1000. *)
Definition demo_frame : Z := 0x8031F000.
Definition demo_held : pmem := final (pmem_alloc false) demo_pt.
Definition demo_map (flags : Z) : pmem :=
  final (pt_map demo_root 0x1000 demo_frame 0x1000 flags) demo_held.
Definition demo_mapped : pmem := demo_map (Z.lor PTE_R PTE_U).

Lemma demo_held_post : alloc_post demo_kb demo_ub false demo_pt demo_frame demo_held.
Proof.
  apply alloc_returns; [apply demo_pt_inv|].
  assert (match pmem_alloc false demo_pt with Ret p _ => p = demo_frame | _ => False end) as H
    by (vm_compute; reflexivity).
  unfold demo_held, final. destruct (pmem_alloc false demo_pt); [by subst|done..].
Qed.

Lemma demo_map_tree flags : exists T,
  pmem_inv demo_kb demo_ub (demo_map flags) /\ pt_wf demo_kb demo_ub (demo_map flags) demo_root T /\
  page_ref (demo_map flags) (page_index demo_frame) = 1 /\ (forall path, T !! path <> Some demo_frame) /\
  (forall va, 0 <= va < VA_MAX -> trans (demo_map flags) T va =
    if in_range 0x1000 0x2000 va then Some (pa_to_pte demo_frame (Z.lor flags PTE_V)) else None) /\
  (forall i l, is_Some (T !! (i :: l)) -> i < PGNUM / 2) /\ (forall path p, T !! path = Some p -> in_bounds demo_kb p).
Proof.
  pose proof demo_held_post as Hpost.
  destruct (alloc_frame_wf false _ _ _ _ demo_pt_wf Hpost) as (Hwf & Htr & Hnot).
  assert (Hdone : map_done (kb := demo_kb) (ub := demo_ub) (root := demo_root)
    demo_held demo_tree 0x1000 demo_frame 0x1000 flags (demo_map flags)).
  { unfold demo_map. apply wp_final. eapply wp_mono; [|apply (wp_pt_map (kb := demo_kb) (ub := demo_ub)
      demo_held demo_tree 0x1000 demo_frame 0x1000 flags);
      [apply Hpost|exact Hwf|lia|lia|vm_compute; discriminate|by vm_compute| |vm_compute; discriminate]].
    - intros ok s' [_ H]. exact H.
    - intros va' _ e. rewrite Htr, demo_pt_trans. done. }
  destruct Hdone as (T & Hex & Htr'). exists T.
  split_and!; [apply Hex|apply Hex|apply (ex_ref _ _ _ _ _ _ _ _ Hex), Hpost| | | |].
  - intros path Hp. destruct (ex_new _ _ _ _ _ _ _ _ Hex _ _ Hp) as [Hold|[Hin _]]; [by eapply Hnot|].
    destruct Hin as [[_ Hin] _]. by vm_compute in Hin.
  - intros va Hva. rewrite Htr', Htr, demo_pt_trans by done.
    change (0x1000 + PGSIZE) with 0x2000. destruct (in_range 0x1000 0x2000 va) eqn:E; [|done].
    apply in_range_true in E. unfold mapped_pte. do 2 f_equal.
    assert (va / PGSIZE = 0x1000 / PGSIZE) as -> by (apply div_page_between; [done|page_lia]).
    change (0x1000 / PGSIZE * PGSIZE) with 0x1000. lia.
  - intros i l [[p Hp]|]%(ex_low _ _ _ _ _ _ _ _ Hex); [|done]. unfold demo_tree in Hp. by apply lookup_singleton_Some in Hp as [? _].
  - intros path p [Hp|[? _]]%(ex_new _ _ _ _ _ _ _ _ Hex); [|done]. unfold demo_tree in Hp. apply lookup_singleton_Some in Hp as [_ <-].
    split; [split; vm_compute; [discriminate|reflexivity]|reflexivity].
Qed.

Lemma demo_map_ok flags : exists T,
  pmem_inv demo_kb demo_ub (demo_map flags) /\ pt_wf demo_kb demo_ub (demo_map flags) demo_root T /\
  page_ref (demo_map flags) (page_index demo_frame) = 1 /\ (forall path, T !! path <> Some demo_frame) /\
  forall va, 0 <= va < VA_MAX -> trans (demo_map flags) T va =
    if in_range 0x1000 0x2000 va then Some (pa_to_pte demo_frame (Z.lor flags PTE_V)) else None.
Proof. destruct (demo_map_tree flags) as (T & ? & ? & ? & ? & ? & _). exists T. repeat (split; [assumption|]). assumption. Qed.

Lemma demo_unmappable T :
  page_ref demo_mapped (page_index demo_frame) = 1 -> (forall path, T !! path <> Some demo_frame) ->
  (forall va, 0 <= va < VA_MAX -> trans demo_mapped T va =
    if in_range 0x1000 0x2000 va then Some (pa_to_pte demo_frame (Z.lor (Z.lor PTE_R PTE_U) PTE_V)) else None) ->
  unmappable (kb := demo_kb) (ub := demo_ub) demo_mapped T 0x1000 0x1000 true false.
Proof.
  intros Hr Hnot Htr.
  assert (Hin : forall va, 0x1000 <= va < 0x1000 + PGSIZE ->
    trans demo_mapped T va = Some (pa_to_pte demo_frame (Z.lor (Z.lor PTE_R PTE_U) PTE_V))).
  { intros va Hva. rewrite Htr by (change VA_MAX with (2 ^ 38); page_lia).
    by rewrite (proj2 (in_range_true _ _ _)) by page_lia. }
  split.
  - intros va Hva. eexists. split; [by apply Hin|done].
  - intros _ va p Hva (e & He & <-). rewrite Hin in He by done. injection He as <-.
    assert (Hp : pte_to_pa (pa_to_pte demo_frame (Z.lor (Z.lor PTE_R PTE_U) PTE_V)) = demo_frame)
      by reflexivity. rewrite Hp. split; [split; [|reflexivity]|exact (conj Hr Hnot)].
    split; vm_compute; [discriminate|reflexivity].
  - intros _ va va' p Hva Hva' _ _. 
    transitivity (0x1000 / PGSIZE); [|symmetry]; by apply div_page_between.
Qed.

(** ** Properties *)

(** C2: mapping a range of virtual pages to consecutive frames, with no page
    of the range mapped elsewhere and enough kernel pages for the tables it
    crosses, succeeds: every page of the range translates to its frame with
    the requested flags, every other address translates as before, the tree
    stays well formed, at most two tables plus one per 2 MiB and GiB boundary
    are taken, and no held page outside the tree changes. *)
Theorem pt_map_correct kb ub root s T va pa len flags :
  let start := align_down va in let last := map_last va len in let pa0 := align_down pa in
  pmem_inv kb ub s -> pt_wf kb ub s root T -> 0 <= va -> 0 < len -> va + len <= VA_MAX ->
  0 <= pa < 2 ^ 55 -> no_conflict s T start pa0 (last + PGSIZE) ->
  2 + budget start last <= allocable (inner (region true s)) ->
  wp (pt_map root va pa len flags) (fun ok s' => ok = true /\ exists T',
    extends kb ub root (2 + budget start last) s T s' T' /\
    forall va', 0 <= va' < VA_MAX -> trans s' T' va' =
      if in_range start (last + PGSIZE) va' then Some (mapped_pte start pa0 flags va')
      else trans s T va') s.
Proof. apply wp_pt_map. Qed.

Lemma pt_map_correct_witness :
  wp (pt_map demo_root 0x1000 0x8031E000 0x2000 PTE_R) (fun ok s' => ok = true /\ exists T',
    extends demo_kb demo_ub demo_root 2 demo_pt demo_tree s' T' /\
    forall va', 0 <= va' < VA_MAX -> trans s' T' va' =
      if in_range 0x1000 0x3000 va' then Some (mapped_pte 0x1000 0x8031E000 PTE_R va')
      else None) demo_pt.
Proof.
  eapply wp_mono; [|apply (pt_map_correct demo_kb demo_ub demo_root demo_pt demo_tree
    0x1000 0x8031E000 0x2000 PTE_R demo_pt_inv demo_pt_wf);
    [lia|lia|vm_compute; discriminate|lia| |vm_compute; discriminate]].
  - intros ok s' [Hok (T' & Hex & Htr)]. split; [exact Hok|]. exists T'. split; [exact Hex|].
    intros va' Hva'. rewrite (Htr va' Hva'), demo_pt_trans. reflexivity.
  - intros va' _ e. rewrite demo_pt_trans. discriminate.
Defined.

(** C17: unmapping a range whose pages are all mapped succeeds: afterwards no
    page of the range translates and every other address translates as before;
    with [free] the frames, all of one pool, go back to it, one per page, and
    no other frame, count or held page changes. *)
Theorem pt_unmap_correct kb ub root s T va len free pool :
  let start := align_down va in let last := map_last va len in
  pmem_inv kb ub s -> pt_wf kb ub s root T -> 0 <= va -> 0 < len -> va + len <= VA_MAX ->
  unmappable (kb := kb) (ub := ub) s T start last free pool ->
  wp (pt_unmap root va len free) (fun ok s' => ok = true /\
    unmapped (kb := kb) (ub := ub) (root := root) s T start free pool (last + PGSIZE) s') s.
Proof. apply wp_pt_unmap. Qed.

Lemma pt_unmap_correct_witness :
  wp (pt_unmap demo_root 0x1000 0x1000 true) (fun ok s' => ok = true /\
    page_ref s' (page_index demo_frame) = 0) demo_mapped.
Proof.
  destruct (demo_map_ok (Z.lor PTE_R PTE_U)) as (T & Hinv & Hwf & Hr & Hnot & Htr).
  eapply wp_mono; [|apply (pt_unmap_correct demo_kb demo_ub demo_root demo_mapped T 0x1000 0x1000 true false);
    [exact Hinv|exact Hwf|lia|lia|vm_compute; discriminate|exact (demo_unmappable T Hr Hnot Htr)]].
  intros ok s' [Hok Hun]. split; [exact Hok|].
  apply (un_freed _ _ _ _ _ _ _ Hun eq_refl 0x1000); [vm_compute; split; [discriminate|reflexivity]|].
  exists (pa_to_pte demo_frame (Z.lor (Z.lor PTE_R PTE_U) PTE_V)). split; [|reflexivity].
  rewrite Htr by (vm_compute; split; [discriminate|reflexivity]). reflexivity.
Defined.

(** [lookup] and the non-allocating walk never change memory and return
    the level-0 entry of an address exactly when the tree has one; addresses
    at or above [VA_MAX] have none. *)
Theorem pt_lookup_correct kb ub root s T va :
  pt_wf kb ub s root T ->
  pt_lookup root va s = Ret (if VA_MAX <=? va then None else leaf_ref T va) s /\
  walk root va false s = pt_lookup root va s.
Proof.
  intros Hwf. destruct (Z.leb_spec VA_MAX va) as [Hhi|Hlo].
  - unfold pt_lookup, walk. by rewrite (proj2 (Z.leb_le _ _)) by lia.
  - split; [by eapply lookup_run|].
    unfold walk, pt_lookup. rewrite (proj2 (Z.leb_gt _ _)) by lia. f_equal.
Qed.

Lemma pt_lookup_correct_witness :
  pt_lookup demo_root 0x1000 demo_pt = Ret None demo_pt.
Proof.
  apply (pt_lookup_correct demo_kb demo_ub demo_root demo_pt demo_tree 0x1000 demo_pt_wf).
Defined.
