(* ===== verification/PtDestroy.v ===== *)
(** * Tearing an address space down ([PageTable::destroy])

    [tree_pages] lists, in the order [destroy] visits them, the pages an
    address space gives back: the user frames of its leaves and the tables
    below the root. [destroy] frees exactly these, once each. *)
From S2P Require Import Prelude Addr PhysMem PageTable.

#[global] Instance in_bounds_dec b p : Decision (in_bounds b p).
Proof. unfold in_bounds. apply _. Defined.

(** What [get_region] answers once the two regions are set up. *)
Definition pool_of (kb ub : RegionBounds) (pa : Z) : option bool :=
  if (rb_begin kb <=? pa) && (pa <? rb_end kb) then Some true
  else if (rb_begin ub <=? pa) && (pa <? rb_end ub) then Some false else None.

(** The pages [destroy_level] frees for one entry of a table. *)
Definition entry_pages (kb ub : RegionBounds) (sub : Z -> list Z) (e : Z) : list Z :=
  if negb (is_valid e) then []
  else if is_leaf e then
    match pool_of kb ub (pte_to_pa e) with Some false => [pte_to_pa e] | _ => [] end
  else if pte_to_pa e =? 0 then [] else sub (pte_to_pa e) ++ [pte_to_pa e].

Fixpoint tree_pages (kb ub : RegionBounds) (depth : nat) (m : Z -> Z) (p : Z) : list Z :=
  match depth with
  | O => []
  | S d => range 0 PGNUM ≫= fun i => entry_pages kb ub (tree_pages kb ub d m) (m (entry p i))
  end.

(** No path through the tree is longer than [depth]. *)
Fixpoint tree_shape (depth : nat) (m : Z -> Z) (p : Z) : Prop :=
  match depth with
  | O => False
  | S d => forall i, 0 <= i < PGNUM -> let e := m (entry p i) in
      is_valid e = true -> is_leaf e = false -> pte_to_pa e <> 0 -> tree_shape d m (pte_to_pa e)
  end.

(** From [s] to [s'] the pages [F] went back to their pools, and of the other
    pages only words in [W] were written. *)
Record released (kb ub : RegionBounds) (s : pmem) (W : Z -> Prop) (F : list Z) (s' : pmem) : Prop := {
  rl_inv : pmem_inv kb ub s';
  rl_freed : forall q, q ∈ F -> page_ref s' (page_index q) = 0;
  rl_kept : forall i, (forall q, q ∈ F -> page_index q <> i) -> page_ref s' i = page_ref s i;
  rl_mem : forall w, ~ W w -> (forall q, q ∈ F -> ~ in_page q w) -> mem s' w = mem s w;
  rl_count : forall fk, allocable (inner (region fk s')) =
    allocable (inner (region fk s)) + Z.of_nat (length (filter (in_bounds (pick fk kb ub)) F));
}.

Section destroy.
Context {kb ub : RegionBounds}.
Implicit Types (s : pmem) (F : list Z).
Local Abbreviation released := (released kb ub).
Local Abbreviation pmem_inv := (pmem_inv kb ub).
Local Abbreviation used := (used kb ub).
Local Abbreviation pages := (tree_pages kb ub).

Lemma get_pool_of s pa : pmem_inv s -> get_region pa s = Ret (pool_of kb ub pa) s.
Proof. apply get_region_run. Qed.

Lemma pool_of_bounds pa fk : pa mod PGSIZE = 0 -> pool_of kb ub pa = Some fk -> in_bounds (pick fk kb ub) pa.
Proof.
  unfold pool_of, in_bounds. intros Hal. repeat case_test; intros [= <-]; simpl; split; done || lia.
Qed.

Lemma bounds_pool_of pa fk : layout_ok kb ub -> in_bounds (pick fk kb ub) pa -> pool_of kb ub pa = Some fk.
Proof.
  intros [????? _] [Hin _]. unfold pool_of.
  destruct fk; simpl in Hin; repeat case_test; try done; repeat (case_test || (apply andb_false_iff in E as [?%Z.leb_gt|?%Z.ltb_ge])); lia.
Qed.

Lemma used_aligned s p : used s p -> p mod PGSIZE = 0.
Proof. by intros [[[]|[]] _]. Qed.

Lemma used_owned s p : layout_ok kb ub -> used s p -> owned kb ub s p.
Proof.
  intros HL Hu. pose proof Hu as [Hin Hr]. split; [by eapply used_aligned|]. split; [|done].
  destruct HL as [H1 H2 H3 H4 H5 _]. unfold PHY_MEM_START, TOTAL_PAGES, PGSIZE in *.
  change (128 * 1024 * 1024 / 4096) with 32768 in *. destruct Hin as [[Hin _]|[Hin _]]; lia.
Qed.

Lemma used_index s p q : layout_ok kb ub -> used s p -> used s q -> page_index p = page_index q -> p = q.
Proof.
  intros HL (fp & Hp & _)%used_pick (fq & Hq & _)%used_pick. by apply (@same_page kb ub fp fq).
Qed.

(** ** Composing releases *)

Lemma released_refl s W : pmem_inv s -> released s W [] s.
Proof. intros. split; try done; [set_solver|]. intros fk. simpl. lia. Qed.

Lemma released_weaken s (W W' : Z -> Prop) F s' : (forall w, W w -> W' w \/ exists q, q ∈ F /\ in_page q w) ->
  released s W F s' -> released s W' F s'.
Proof. intros HW [?? ? Hm ?]. split; auto. intros w Hw Hq. apply Hm; [|done]. intros [?|(q & ? & ?)]%HW; naive_solver. Qed.

Lemma released_trans s W F1 s1 F2 s2 : layout_ok kb ub -> NoDup (F1 ++ F2) -> Forall (used s) (F1 ++ F2) ->
  released s W F1 s1 -> released s1 W F2 s2 -> released s W (F1 ++ F2) s2.
Proof.
  intros HL Hnd Hused [Hi1 Hf1 Hk1 Hm1 Hc1] [Hi2 Hf2 Hk2 Hm2 Hc2].
  apply NoDup_app in Hnd as (_ & Hdis & _). rewrite Forall_forall in Hused. split; [done|..].
  - intros q [Hq|Hq]%elem_of_app; [|auto]. rewrite Hk2; [auto|]. intros q' Hq' Heq.
    apply (used_index s) in Heq as ->; [by eapply Hdis|done|apply Hused; set_solver..].
  - intros i Hi. rewrite Hk2, Hk1; [done|..]; intros q Hq; apply Hi; set_solver.
  - intros w HW Hw. rewrite Hm2, Hm1; [done|done| |done|]; intros q Hq; apply Hw; set_solver.
  - intros fk. rewrite Hc2, Hc1, filter_app, length_app. lia.
Qed.

Lemma released_free fk s W p s' : layout_ok kb ub -> in_bounds (pick fk kb ub) p ->
  free_post kb ub fk s p s' -> released s W [p] s'.
Proof.
  intros HL Hin [Hfr Hrefs Hmem Hc Ho Hinv]. split; [done|..].
  - by intros q ->%list_elem_of_singleton.
  - intros i Hi. apply Hrefs. intros ->. by apply (Hi p); [set_solver|].
  - intros w _ Hw. apply Hmem. intros ->. apply (Hw p); [set_solver|]. unfold in_page. page_lia.
  - intros fk'. destruct (decide (fk' = fk)) as [->|Hne].
    + rewrite filter_cons_True by done. simpl. lia.
    + assert (fk' = negb fk) as -> by (by destruct fk, fk'). rewrite Ho, filter_cons_False; [simpl; lia|].
      by apply other_region.
Qed.

Lemma released_store s (W : Z -> Prop) p i v : pmem_inv s -> owned kb ub s p -> 0 <= i < PGNUM -> W (entry p i) ->
  released s W [] (set_mem (upd (mem s) (entry p i) v) s).
Proof.
  intros Hinv Ho Hi HW. split; [by apply owned_entry|set_solver|done|..].
  - intros w Hw _. simpl. apply upd_ne. by intros ->.
  - intros fk. rewrite region_set_mem. simpl. lia.
Qed.

Lemma released_used s W F s' q : layout_ok kb ub -> Forall (used s) F -> released s W F s' -> q ∉ F -> used s q -> used s' q.
Proof.
  intros HL Hall Hrel Hnot Hq. pose proof Hq as [Hin Hr]. split; [done|]. rewrite (rl_kept _ _ _ _ _ _ Hrel); [done|].
  rewrite Forall_forall in Hall. intros q' Hq' Heq. by apply (used_index s) in Heq as ->; [|done|auto|].
Qed.

Lemma released_owned s W F s' p : layout_ok kb ub -> Forall (used s) F -> released s W F s' -> p ∉ F ->
  owned kb ub s p -> owned kb ub s' p.
Proof.
  intros HL Hall Hrel Hnot (Hal & Hr & Ho). split; [done|]. split; [done|]. intros fk Hin.
  eapply (released_used s W F s' p); eauto. split; [by eapply pick_bounds|by eapply Ho].
Qed.

(** A word of a page that was neither freed nor written. *)
Lemma released_word s W F s' q w : Forall (used s) F -> released s W F s' -> q ∉ F -> q mod PGSIZE = 0 -> in_page q w -> ~ W w -> mem s' w = mem s w.
Proof.
  intros Hall Hrel Hnot Hal Hw HW. apply (rl_mem _ _ _ _ _ _ Hrel); [done|]. rewrite Forall_forall in Hall.
  intros q' Hq' Hw'. assert (q = q') as -> by (by apply (page_unique _ _ w); [|eapply used_aligned, Hall| |]). done.
Qed.

(** ** The tree depends on its own pages only *)

Lemma elem_of_tree_pages d m p q : q ∈ pages (S d) m p <->
  exists i, 0 <= i < PGNUM /\ q ∈ entry_pages kb ub (pages d m) (m (entry p i)).
Proof. cbn [tree_pages]. rewrite list_elem_of_bind. setoid_rewrite elem_of_range. naive_solver. Qed.

Lemma entry_pages_sub sub e q : is_valid e = true -> is_leaf e = false -> pte_to_pa e <> 0 ->
  q = pte_to_pa e \/ q ∈ sub (pte_to_pa e) -> q ∈ entry_pages kb ub sub e.
Proof. intros Hv Hl H0. unfold entry_pages. rewrite Hv, Hl, (proj2 (Z.eqb_neq _ _)) by done. set_solver. Qed.

Lemma tree_ext d : forall m m' p, (forall q w, q = p \/ q ∈ pages d m p -> in_page q w -> m' w = m w) ->
  pages d m' p = pages d m p /\ (tree_shape d m p -> tree_shape d m' p).
Proof.
  induction d as [|d IH]; intros m m' p Hm; [done|].
  assert (He : forall i, 0 <= i < PGNUM -> m' (entry p i) = m (entry p i))
    by (intros; apply (Hm p); [by left|by apply entry_in_page]).
  assert (Hsub : forall i, 0 <= i < PGNUM -> let e := m (entry p i) in
    is_valid e = true -> is_leaf e = false -> pte_to_pa e <> 0 ->
    pages d m' (pte_to_pa e) = pages d m (pte_to_pa e) /\ (tree_shape d m (pte_to_pa e) -> tree_shape d m' (pte_to_pa e))).
  { intros i Hi e Hv Hl H0. apply IH. intros q w Hq. apply (Hm q). right. apply elem_of_tree_pages.
    exists i. split; [done|]. by apply entry_pages_sub. }
  split.
  - cbn [tree_pages]. apply Forall_bind_ext, Forall_forall. intros i Hi%elem_of_range.
    rewrite He by done. specialize (Hsub i Hi). cbv zeta in Hsub. unfold entry_pages.
    destruct (is_valid _); [|done]. destruct (is_leaf _); [done|]. cbn [negb].
    destruct (Z.eqb_spec (pte_to_pa (m (entry p i))) 0); [done|]. f_equal. by apply Hsub.
  - intros Hs i Hi e Hv Hl H0. subst e. rewrite He in * by done. apply Hsub; try done. by apply Hs.
Qed.

(** ** One entry, one table *)

Lemma wp_destroy_entry d rec p i s : pmem_inv s -> owned kb ub s p -> 0 <= i < PGNUM ->
  let e := mem s (entry p i) in let F := entry_pages kb ub (pages d (mem s)) e in
  NoDup (p :: F) -> Forall (used s) F ->
  (is_valid e = true -> is_leaf e = false -> pte_to_pa e <> 0 ->
     wp (rec (pte_to_pa e)) (fun _ s' => released s (in_page (pte_to_pa e)) (pages d (mem s) (pte_to_pa e)) s') s) ->
  wp (destroy_entry rec p i) (fun r s' => r = inl tt /\ released s (eq (entry p i)) F s' /\
    is_valid (mem s' (entry p i)) = false) s.
Proof.
  intros Hinv Ho Hi e F Hnd Hused Hrec. pose proof (pi_layout _ _ _ Hinv) as HL.
  apply NoDup_cons in Hnd as [HpF Hnd]. unfold destroy_entry. wp_steps. fold e.
  destruct (is_valid e) eqn:Hv; cbn [negb].
  2:{ apply wp_ret. split_and!; [done| |done]. unfold F, entry_pages. rewrite Hv. by apply released_refl. }
  assert (Hclear : forall s1, released s (eq (entry p i)) F s1 ->
    wp (store (entry p i) 0;; mret (inl tt)) (fun (r : unit + Empty_set) s' => r = inl tt /\ released s (eq (entry p i)) F s' /\
      is_valid (mem s' (entry p i)) = false) s1).
  { intros s1 Hrel. wp_steps. simpl. rewrite upd_eq. split_and!; [done| |done].
    rewrite <-(app_nil_r F). eapply released_trans; [done|by rewrite app_nil_r..|exact Hrel|].
    apply released_store; [apply Hrel|by eapply released_owned|done|done]. }
  destruct (is_leaf e) eqn:Hl.
  - wp_step. eapply wp_intro; [by apply get_pool_of|]. wp_step.
    unfold F, entry_pages in *. rewrite Hv, Hl in *. cbn [negb] in *.
    destruct (pool_of kb ub (pte_to_pa e)) as [[]|] eqn:Hr; [apply wp_ret, Hclear, released_refl; done| |apply wp_ret, Hclear, released_refl; done].
    rewrite Forall_singleton in Hused. destruct (used_pick _ _ Hused) as (fk & Hin & Href).
    eapply wp_mono; [|by apply (wp_pmem_free (kb := kb) (ub := ub))]. intros [] s1 Hpost. apply Hclear. by eapply released_free.
  - unfold is_table. rewrite Hv, Hl. cbn [negb andb]. wp_step.
    unfold F, entry_pages in *. rewrite Hv, Hl in *. cbn [negb] in *.
    destruct (Z.eqb_spec (pte_to_pa e) 0) as [H0|H0]; [apply wp_ret, Hclear, released_refl; done|]. cbn [negb].
    set (c := pte_to_pa e) in *. pose proof Hnd as (_ & Hc & _)%NoDup_app.
    pose proof (proj1 (Forall_app _ _ _) Hused) as [Hsub Huc]. rewrite Forall_singleton in Huc.
    assert (Hcn : c ∉ pages d (mem s) c) by (intros H; apply (Hc c H); set_solver).
    wp_step. eapply wp_mono; [|by apply Hrec]. intros [] s1 Hrel.
    assert (Huc1 : used s1 c) by by eapply released_used. destruct (used_pick _ _ Huc1) as (fk & Hin & Href).
    eapply wp_mono; [|by apply (wp_pmem_free (kb := kb) (ub := ub)); [apply Hrel|..]]. intros [] s2 Hpost. apply Hclear.
    eapply (released_weaken s (in_page c)); [intros w Hw; right; exists c; split; [set_solver|done]|].
    eapply released_trans; eauto. by eapply released_free.
Qed.

(** A subtree none of whose pages was freed or written is still there. *)
Lemma subtree_kept d s W F s1 p e : Forall (used s) F -> released s W F s1 -> (forall w, W w -> in_page p w) -> p mod PGSIZE = 0 ->
  let G := entry_pages kb ub (pages d (mem s)) e in Forall (used s) G -> p ∉ G -> (forall q, q ∈ F -> q ∉ G) ->
  is_valid e = true -> is_leaf e = false -> pte_to_pa e <> 0 ->
  pages d (mem s1) (pte_to_pa e) = pages d (mem s) (pte_to_pa e) /\
  (tree_shape d (mem s) (pte_to_pa e) -> tree_shape d (mem s1) (pte_to_pa e)).
Proof.
  intros HF Hrel HW Hal G HG HpG Hdis Hv Hl H0. apply tree_ext. intros q w Hq Hw.
  assert (HqG : q ∈ G) by by apply entry_pages_sub. rewrite Forall_forall in HG.
  assert (Hqal : q mod PGSIZE = 0) by by eapply used_aligned, HG.
  eapply (released_word s W F s1 q); [done|done| |done|done|].
  - intros HqF. by apply (Hdis q).
  - intros Hw'%HW. apply HpG. by rewrite (page_unique p q w).
Qed.

Lemma entry_pages_kept d s W F s1 p e : Forall (used s) F -> released s W F s1 -> (forall w, W w -> in_page p w) -> p mod PGSIZE = 0 ->
  let G := entry_pages kb ub (pages d (mem s)) e in Forall (used s) G -> p ∉ G -> (forall q, q ∈ F -> q ∉ G) ->
  entry_pages kb ub (pages d (mem s1)) e = G.
Proof.
  intros HF Hrel HW Hal G HG HpG Hdis. unfold G, entry_pages.
  destruct (is_valid e) eqn:Hv; [|done]. destruct (is_leaf e) eqn:Hl; [done|]. cbn [negb].
  destruct (Z.eqb_spec (pte_to_pa e) 0) as [|H0]; [done|]. f_equal. exact (proj1 (subtree_kept d s W F s1 p e HF Hrel HW Hal HG HpG Hdis Hv Hl H0)).
Qed.

Lemma wp_destroy_level d : forall p s, pmem_inv s -> owned kb ub s p -> tree_shape d (mem s) p ->
  NoDup (p :: pages d (mem s) p) -> Forall (used s) (pages d (mem s) p) ->
  wp (destroy_level d p) (fun _ s' => released s (in_page p) (pages d (mem s) p) s' /\
    forall i, 0 <= i < PGNUM -> is_valid (mem s' (entry p i)) = false) s.
Proof.
  induction d as [|d IH]; intros p s Hinv Ho Hshape Hnd Hused; [done|].
  pose proof (pi_layout _ _ _ Hinv) as HL. pose proof Ho as (Hal & _).
  cbn [destroy_level]. wp_step. cbn [tree_pages] in *.
  set (g := fun i => entry_pages kb ub (pages d (mem s)) (mem s (entry p i))) in *.
  set (W := fun (dn : list Z) w => exists i, i ∈ dn /\ w = entry p i).
  apply (wp_for_each (fun dn _ s1 => released s (W dn) (dn ≫= g) s1 /\
    forall i, i ∈ dn -> is_valid (mem s1 (entry p i)) = false)).
  - split; [by apply released_refl|]. by intros i ?%not_elem_of_nil.
  - intros dn i rest [] s1 Hr [Hrel Hinval].
    assert (Hi : 0 <= i < PGNUM) by (apply elem_of_range; rewrite Hr; apply elem_of_app; right; left).
    assert (Hdn : forall j, j ∈ dn -> 0 <= j < PGNUM) by (intros j Hj; apply elem_of_range; rewrite Hr; apply elem_of_app; by left).
    pose proof (NoDup_range 0 PGNUM) as Hndr. rewrite Hr in Hndr, Hnd, Hused.
    apply NoDup_app in Hndr as (_ & Hdr & _). rewrite bind_app, bind_cons in Hnd, Hused.
    apply NoDup_cons in Hnd as [Hp Hnd]. rewrite !elem_of_app in Hp. rewrite app_assoc in Hnd, Hused.
    apply NoDup_app in Hnd as (Hnd & _ & _). apply Forall_app in Hused as [Hused _].
    pose proof (proj1 (NoDup_app _ _) Hnd) as (_ & Hdis & Hndi). pose proof (proj1 (Forall_app _ _ _) Hused) as [Hu1 Hui].
    rewrite bind_app, bind_singleton.
    assert (Hpi : p ∉ g i) by tauto. assert (Hpd : p ∉ dn ≫= g) by tauto.
    assert (HW : forall w, W dn w -> in_page p w).
    { intros w (j & Hj & ->). by apply entry_in_page, Hdn. }
    assert (Hother : forall j, 0 <= j < PGNUM -> j ∉ dn -> ~ W dn (entry p j)).
    { intros j Hj Hn (j' & Hj' & Heq). apply Hn. apply entry_inj in Heq as [_ ->]; try done. by apply Hdn. }
    assert (He : mem s1 (entry p i) = mem s (entry p i)).
    { apply (released_word s (W dn) _ s1 p _ Hu1 Hrel); [done|done|by apply entry_in_page|]. apply Hother; [done|]. intros H. by apply (Hdr i H); left. }
    assert (Hu1' : Forall (used s1) (g i)).
    { rewrite Forall_forall in Hui |- *. intros q Hq.
      apply (released_used s (W dn) _ s1 q HL Hu1 Hrel); [|by apply Hui]. intros Hq'. by apply (Hdis q). }
    pose proof (entry_pages_kept d s (W dn) _ s1 p (mem s (entry p i)) Hu1 Hrel HW Hal Hui Hpi Hdis) as Hg. rewrite <-He in Hg at 1.
    eapply wp_mono; [|apply (wp_destroy_entry d (destroy_level d) p i s1); rewrite ?Hg;
      [apply Hrel|by apply (released_owned s (W dn) _ s1 p HL Hu1 Hrel)|done|by apply NoDup_cons|done|]].
    + intros r s2 (-> & Hrel2 & Hinv2). rewrite Hg in Hrel2. split.
      * eapply released_trans; eauto; (eapply released_weaken; [|eassumption]).
        -- intros w (j & Hj & ->). left. exists j. split; [apply elem_of_app; by left|done].
        -- intros w <-. left. exists i. split; [apply elem_of_app; right; left|done].
      * intros j [Hj| ->%list_elem_of_singleton]%elem_of_app; [|done].
        destruct (decide (i = j)) as [->|Hne]; [done|].
        pose proof (Hdn j Hj) as Hjr.
        rewrite (released_word s1 _ _ s2 p (entry p j) Hu1' Hrel2); [by apply Hinval|done|done|by apply entry_in_page|].
        intros [_ ->]%entry_inj; done.
    + rewrite He. intros Hv Hl H0. set (c := pte_to_pa _) in *.
      destruct (subtree_kept d s (W dn) _ s1 p (mem s (entry p i)) Hu1 Hrel HW Hal Hui Hpi Hdis Hv Hl H0) as [Hpc Hsc].
      assert (Hgi : g i = pages d (mem s) c ++ [c]).
      { unfold g, entry_pages. rewrite Hv, Hl, (proj2 (Z.eqb_neq _ _)) by done. done. }
      rewrite Hgi in *. apply Forall_app in Hu1' as [Hu1c Hu1'']. rewrite Forall_singleton in Hu1''.
      apply NoDup_app in Hndi as (Hnc & Hcc & _). fold c in Hpc, Hsc.
      eapply wp_mono; [|apply (IH c s1); rewrite ?Hpc]; [by intros [] s2 [? _]|apply Hrel|by apply used_owned| | |done].
      * apply Hsc. by apply Hshape.
      * apply NoDup_cons. split; [|done]. intros H. apply (Hcc c H). left.
  - intros [] s1 [Hrel Hinval]. wp_step. split.
    + eapply released_weaken; [|exact Hrel]. intros w (i & Hi%elem_of_range & ->). left. by apply entry_in_page.
    + intros i Hi. apply Hinval. by apply elem_of_range.
Qed.
End destroy.

(** ** The pages of an address space *)

(** The frame a level-0 table [t] maps at [k] when that frame is user memory. *)
Definition user_leaf (kb ub : RegionBounds) (s : pmem) (t k q : Z) : Prop :=
  0 <= k < PGNUM /\ is_valid (mem s (entry t k)) = true /\ q = pte_to_pa (mem s (entry t k)) /\ pool_of kb ub q = Some false.

(** An address space as the kernel builds them: its tables are kernel pages, level-0 entries are leaves, and each user frame is held and
    mapped once. *)
Record space_ok (kb ub : RegionBounds) (s : pmem) (T : gmap (list Z) Z) : Prop := {
  sp_tables : forall path p, T !! path = Some p -> in_bounds kb p;
  sp_leaf : forall i j t k, T !! [i; j] = Some t -> 0 <= k < PGNUM ->
    is_valid (mem s (entry t k)) = true -> is_leaf (mem s (entry t k)) = true;
  sp_held : forall i j t k q, T !! [i; j] = Some t -> user_leaf kb ub s t k q -> page_ref s (page_index q) = 1;
  sp_inj : forall i j t k i' j' t' k' q, T !! [i; j] = Some t -> T !! [i'; j'] = Some t' ->
    user_leaf kb ub s t k q -> user_leaf kb ub s t' k' q -> t = t' /\ k = k';
}.

Section space.
Context {kb ub : RegionBounds} {s : pmem} {root : Z} {T : gmap (list Z) Z}.
Context (HL : layout_ok kb ub) (Hwf : pt_wf kb ub s root T) (Hsp : space_ok kb ub s T).
Local Abbreviation pages := (tree_pages kb ub).

(** [q] is a table or a user frame strictly below the table at [path]. *)
Definition below (path : list Z) (q : Z) : Prop :=
  (exists path', T !! path' = Some q /\ path `prefix_of` path' /\ path' <> path) \/
  (exists i j t k, T !! [i; j] = Some t /\ path `prefix_of` [i; j] /\ user_leaf kb ub s t k q).

Lemma table_user_apart path i j t k q : T !! path = Some q -> T !! [i; j] = Some t -> ~ user_leaf kb ub s t k q.
Proof.
  intros Hp Ht (_ & _ & Hq & Hr). apply pool_of_bounds in Hr; [|rewrite Hq; apply pte_to_pa_aligned].
  eapply (other_region true); [done|exact (sp_tables _ _ _ _ Hsp _ _ Hp)|exact Hr].
Qed.

Lemma prefix_snoc_inj (l l' : list Z) i i' : l ++ [i] `prefix_of` l' -> l ++ [i'] `prefix_of` l' -> i = i'.
Proof. intros [k ->] [k' Heq]. rewrite <-!app_assoc in Heq. apply app_inv_head in Heq. by injection Heq. Qed.

(** A page lies below one entry of a table at most. *)
Lemma below_unique path i i' q : (T !! (path ++ [i]) = Some q \/ below (path ++ [i]) q) ->
  (T !! (path ++ [i']) = Some q \/ below (path ++ [i']) q) -> i = i'.
Proof.
  assert (Hex : forall i, (T !! (path ++ [i]) = Some q \/ below (path ++ [i]) q) ->
    (exists path', T !! path' = Some q /\ path ++ [i] `prefix_of` path') \/
    (exists a b t k, T !! [a; b] = Some t /\ path ++ [i] `prefix_of` [a; b] /\ user_leaf kb ub s t k q)).
  { intros x [H|[(p' & ? & ? & _)|H]]; [left; by exists (path ++ [x])|left; by exists p'|by right]. }
  intros [(p1 & H1 & Hp1)|(a & b & t & k & H1 & Hp1 & Hu1)]%Hex [(p2 & H2 & Hp2)|(a' & b' & t' & k' & H2 & Hp2 & Hu2)]%Hex.
  - rewrite <-(wf_inj _ _ _ _ _ Hwf _ _ _ H1 H2) in Hp2. by eapply prefix_snoc_inj.
  - exfalso. eapply (table_user_apart p1); eauto.
  - exfalso. eapply (table_user_apart p2); eauto.
  - destruct (sp_inj _ _ _ _ Hsp _ _ _ _ _ _ _ _ _ H1 H2 Hu1 Hu2) as [<- <-].
    rewrite <-(wf_inj _ _ _ _ _ Hwf _ _ _ H1 H2) in Hp2. by eapply prefix_snoc_inj.
Qed.

(** What an entry of a table contributes. *)
Lemma entry_pages_leaf sub i j t k q : T !! [i; j] = Some t -> 0 <= k < PGNUM ->
  q ∈ entry_pages kb ub sub (mem s (entry t k)) <-> user_leaf kb ub s t k q.
Proof.
  intros Ht Hk. unfold entry_pages, user_leaf. destruct (is_valid _) eqn:Hv; cbn [negb]; [|set_solver].
  rewrite (sp_leaf _ _ _ _ Hsp _ _ _ _ Ht Hk Hv). destruct (pool_of _ _ _) as [[]|] eqn:Hr; set_solver.
Qed.

Lemma entry_pages_table sub path p i : T !! path = Some p -> (length path < 2)%nat -> 0 <= i < PGNUM ->
  entry_pages kb ub sub (mem s (entry p i)) = match T !! (path ++ [i]) with Some c => sub c ++ [c] | None => [] end.
Proof.
  intros Hp Hlen Hi. pose proof (wf_entry _ _ _ _ _ Hwf path p i Hp Hlen Hi) as He. unfold entry_pages.
  destruct (is_valid _); [|by rewrite He]. destruct He as [-> He]. rewrite He. cbn [negb].
  destruct (wf_owned _ _ _ _ _ Hwf _ _ He) as (_ & ? & _). by rewrite (proj2 (Z.eqb_neq _ _)) by lia.
Qed.

Lemma tree_prefix l l' : is_Some (T !! (l ++ l')) -> is_Some (T !! l).
Proof.
  induction l' as [|x l' IH] using rev_ind; [by rewrite app_nil_r|]. rewrite app_assoc.
  intros H%(wf_prefix _ _ _ _ _ Hwf). by apply IH.
Qed.

(** The subtree an entry of [path] leads to, on the way to [path']. *)
Lemma path_step path path' q : path `prefix_of` path' -> path' <> path -> T !! path' = Some q ->
  exists i c, 0 <= i < PGNUM /\ path ++ [i] `prefix_of` path' /\ T !! (path ++ [i]) = Some c.
Proof.
  intros [l ->] Hne Hq. destruct l as [|i l]; [by rewrite app_nil_r in Hne|].
  rewrite (cons_middle i path l), app_assoc in Hq |- *.
  destruct (tree_prefix (path ++ [i]) l) as [c Hc]; [by rewrite Hq|]. exists i, c. split; [|split; [by exists l|done]].
  destruct (wf_path _ _ _ _ _ Hwf _ _ Hc) as [_ Hall]. rewrite Forall_app, Forall_singleton in Hall. apply Hall.
Qed.

Lemma below_up path i c q : T !! (path ++ [i]) = Some c -> q = c \/ below (path ++ [i]) q -> below path q.
Proof.
  assert (Hpre : path `prefix_of` path ++ [i]) by by exists [i].
  intros Hc [->|[(p' & Hp' & Hx & Hne)|(a & b & t & k & Ht & Hx & Hu)]].
  - left. exists (path ++ [i]). split_and!; [done|done|]. intros Heq%(f_equal length). rewrite length_app in Heq. simpl in Heq. lia.
  - left. exists p'. split_and!; [done|by etrans|]. intros ->. apply prefix_length in Hx. rewrite length_app in Hx. simpl in Hx. lia.
  - right. exists a, b, t, k. split_and!; [done|by etrans|done].
Qed.

Lemma below_down path q : (length path < 2)%nat -> below path q ->
  exists i c, 0 <= i < PGNUM /\ T !! (path ++ [i]) = Some c /\ (q = c \/ below (path ++ [i]) q).
Proof.
  intros Hlen [(p' & Hp' & Hx & Hne)|(a & b & t & k & Ht & Hx & Hu)].
  - destruct (path_step path p' q Hx Hne Hp') as (i & c & Hi & Hpre & Hc). exists i, c. split; [done|]. split; [done|].
    destruct (decide (p' = path ++ [i])) as [->|Hd]; [left; congruence|right; left; by exists p'].
  - destruct (path_step path [a; b] t Hx) as (i & c & Hi & Hpre & Hc); [intros <-; simpl in Hlen; lia|done|].
    exists i, c. split; [done|]. split; [done|]. right. right. by exists a, b, t, k.
Qed.

Lemma below_leaf i j t q : T !! [i; j] = Some t -> below [i; j] q <-> exists k, user_leaf kb ub s t k q.
Proof.
  intros Ht. split.
  - intros [(p' & Hp' & Hx & Hne)|(a & b & t' & k & Ht' & Hx & Hu)].
    + destruct (wf_path _ _ _ _ _ Hwf _ _ Hp') as [Hl _]. destruct Hx as [[|x l] ->]; [done|simpl in Hl; lia].
    + exists k. apply prefix_length_eq in Hx; [|done]. injection Hx as <- <-. by replace t with t' by congruence.
  - intros [k Hk]. right. by exists i, j, t, k.
Qed.

Lemma NoDup_entry_leaf e : NoDup (entry_pages kb ub (pages 0 (mem s)) e).
Proof. unfold entry_pages. cbn [tree_pages app]. repeat case_match; apply NoDup_nil_2 || apply NoDup_singleton. Qed.

Lemma below_irrefl path c : T !! path = Some c -> ~ below path c.
Proof.
  intros Hc [(p' & Hp' & _ & Hne')|(a & b & t & k & Ht & _ & Hu)].
  - apply Hne'. by eapply (wf_inj _ _ _ _ _ Hwf).
  - by eapply (table_user_apart path).
Qed.

Lemma pages_below d : forall path p, T !! path = Some p -> (length path + d = 3)%nat -> (0 < d)%nat ->
  (forall q, q ∈ pages d (mem s) p <-> below path q) /\ NoDup (pages d (mem s) p) /\ tree_shape d (mem s) p.
Proof.
  induction d as [|d IH]; intros path p Hp Hlen Hd; [lia|]. destruct d as [|d].
  - destruct path as [|i [|j [|]]]; try (simpl in Hlen; lia).
    assert (Hq : forall k q, 0 <= k < PGNUM -> q ∈ entry_pages kb ub (pages 0 (mem s)) (mem s (entry p k)) <-> user_leaf kb ub s p k q)
      by (intros; by eapply entry_pages_leaf). split_and!.
    + intros q. rewrite elem_of_tree_pages, (below_leaf i j p q Hp). split.
      * intros (k & Hk & H%Hq); eauto.
      * intros (k & Hk). exists k. split; [apply Hk|]. apply Hq; [apply Hk|done].
    + apply NoDup_bind; [| |apply NoDup_range].
      * intros k k' q Hk%elem_of_range Hk'%elem_of_range H1%Hq H2%Hq; [|done..]. by eapply (sp_inj _ _ _ _ Hsp i j p k i j p k').
      * intros k Hk. apply NoDup_entry_leaf. 
    + intros k Hk e Hv Hl. subst e. by rewrite (sp_leaf _ _ _ _ Hsp _ _ _ _ Hp Hk Hv) in Hl.
  - assert (Hl2 : (length path < 2)%nat) by lia.
    assert (He := fun i => entry_pages_table (pages (S d) (mem s)) path p i Hp Hl2).
    assert (Hsub : forall i c, T !! (path ++ [i]) = Some c ->
      (forall q, q ∈ pages (S d) (mem s) c <-> below (path ++ [i]) q) /\ NoDup (pages (S d) (mem s) c) /\ tree_shape (S d) (mem s) c).
    { intros i c Hc. apply IH; [done|rewrite length_app; simpl; lia|lia]. } clear IH.
    assert (Hin : forall i q, 0 <= i < PGNUM -> q ∈ entry_pages kb ub (pages (S d) (mem s)) (mem s (entry p i)) <->
      exists c, T !! (path ++ [i]) = Some c /\ (q = c \/ below (path ++ [i]) q)).
    { intros i q Hi. rewrite He by done. destruct (T !! (path ++ [i])) as [c|] eqn:Hc;
        [|split; [by intros ?%not_elem_of_nil|by intros (? & ? & _)]].
      rewrite elem_of_app, list_elem_of_singleton, (proj1 (Hsub i c Hc) q).
      split; [intros [?|?]; exists c; split; [done|by right|done|by left]|intros (? & [= <-] & [?|?]); [by right|by left]]. }
    split_and!.
    + intros q. rewrite elem_of_tree_pages. split.
      * intros (i & Hi & (c & Hc & Hq)%Hin); [|done]. by eapply below_up.
      * intros (i & c & Hi & Hc & Hq)%below_down; [|done]. exists i. split; [done|]. apply Hin; eauto.
    + apply NoDup_bind; [| |apply NoDup_range].
      * intros i i' q Hi%elem_of_range Hi'%elem_of_range (c & Hc & Hq)%Hin (c' & Hc' & Hq')%Hin; [|done..].
        apply (below_unique path i i' q); [destruct Hq as [->|?]|destruct Hq' as [->|?]]; by (left + right).
      * intros i Hi%elem_of_range. rewrite He by done. destruct (T !! (path ++ [i])) as [c|] eqn:Hc; [|constructor].
        destruct (Hsub i c Hc) as (Hb & Hnd & _). apply NoDup_app. split; [done|]. split; [|apply NoDup_singleton].
        intros q Hq%Hb ->%list_elem_of_singleton. by apply (below_irrefl (path ++ [i]) c Hc).
    + intros i Hi e Hv Hl H0. pose proof (wf_entry _ _ _ _ _ Hwf path p i Hp Hl2 Hi) as Hw. fold e in Hw. rewrite Hv in Hw.
      by eapply Hsub, Hw.
Qed.

(** A page an address space holds besides its root: a table, or a user frame
    it maps. *)
Definition space_page (q : Z) : Prop :=
  (exists path, T !! path = Some q /\ path <> []) \/
  (exists i j t k, T !! [i; j] = Some t /\ user_leaf kb ub s t k q).

Lemma below_root q : below [] q <-> space_page q.
Proof.
  pose proof (prefix_nil (A := Z)) as Hnil. unfold below, space_page. split.
  - intros [(p' & ? & _ & ?)|(i & j & t & k & ? & _ & ?)]; [left; by exists p'|right; by exists i, j, t, k].
  - intros [(p' & ? & ?)|(i & j & t & k & ? & ?)]; [left; by exists p'|right; by exists i, j, t, k].
Qed.

Lemma space_page_used q : space_page q -> used kb ub s q.
Proof.
  intros [(path & Hp & _)|(i & j & t & k & Ht & Hu)].
  - pose proof (sp_tables _ _ _ _ Hsp _ _ Hp) as Hin. split; [by left|].
    destruct (wf_owned _ _ _ _ _ Hwf _ _ Hp) as (_ & _ & Ho). by apply (Ho true).
  - split; [|by eapply (sp_held _ _ _ _ Hsp)]. right. destruct Hu as (_ & _ & Hq & Hr).
    apply (pool_of_bounds (kb := kb) (ub := ub) _ false); [rewrite Hq; apply pte_to_pa_aligned|done].
Qed.

(** The kernel pages among them are the tables. *)
Lemma tables_count F : NoDup F -> (forall q, q ∈ F <-> space_page q) ->
  Z.of_nat (length (filter (in_bounds kb) F)) = Z.of_nat (size T) - 1.
Proof.
  intros Hnd HF. pose proof (wf_root _ _ _ _ _ Hwf) as Hroot.
  assert (Hperm : filter (in_bounds kb) F ≡ₚ (map_to_list (delete [] T)).*2).
  { apply NoDup_Permutation; [by apply NoDup_filter|..].
    - apply NoDup_fmap_2_strong; [|apply NoDup_map_to_list]. intros [a q] [b q'] Ha Hb Heq. simpl in Heq. subst q'.
      apply elem_of_map_to_list, lookup_delete_Some in Ha as [_ Ha].
      apply elem_of_map_to_list, lookup_delete_Some in Hb as [_ Hb]. simpl in *.
      by rewrite (wf_inj _ _ _ _ _ Hwf _ _ _ Ha Hb).
    - intros q. rewrite list_elem_of_filter, HF, list_elem_of_fmap. split.
      + intros (Hk & [(path & Hp & Hne)|(i & j & t & k & Ht & Hu)]).
        * exists (path, q). split; [done|]. by apply elem_of_map_to_list, lookup_delete_Some.
        * exfalso. destruct Hu as (_ & _ & Hq & Hr). apply (pool_of_bounds (kb := kb) (ub := ub) _ false) in Hr; [|rewrite Hq; apply pte_to_pa_aligned].
          by apply (other_region (kb := kb) (ub := ub) true q).
      + intros ([path q'] & -> & Hp%elem_of_map_to_list). apply lookup_delete_Some in Hp as [Hne Hp]. simpl.
        split; [by eapply (sp_tables _ _ _ _ Hsp)|]. left. by exists path. }
  rewrite Hperm, length_fmap, length_map_to_list, map_size_delete_Some by by rewrite Hroot.
  assert (size T <> 0)%nat by (intros H0%map_size_empty_inv; by rewrite H0 in Hroot). lia.
Qed.
End space.
Arguments space_page : clear implicits.

Lemma wp_pt_destroy kb ub s root T : pmem_inv kb ub s -> pt_wf kb ub s root T -> space_ok kb ub s T ->
  wp (pt_destroy root) (fun _ s' => exists F, NoDup F /\ (forall q, q ∈ F <-> space_page kb ub s T q) /\
    released kb ub s (in_page root) F s' /\ Z.of_nat (length (filter (in_bounds kb) F)) = Z.of_nat (size T) - 1 /\
    forall i, 0 <= i < PGNUM -> is_valid (mem s' (entry root i)) = false) s.
Proof.
  intros Hinv Hwf Hsp. pose proof (pi_layout _ _ _ Hinv) as HL. pose proof (wf_root _ _ _ _ _ Hwf) as Hroot.
  destruct (pages_below HL Hwf Hsp 3 [] root Hroot) as (Hin & Hnd & Hshape); [done|lia|].
  setoid_rewrite below_root in Hin. unfold pt_destroy.
  eapply wp_mono; [|apply (wp_destroy_level (kb := kb) (ub := ub) 3 root s Hinv)].
  - intros [] s' [Hrel Hval]. exists (tree_pages kb ub 3 (mem s) root). split_and!; try done. by eapply tables_count.
  - by eapply (wf_owned _ _ _ _ _ Hwf).
  - done.
  - apply NoDup_cons. split; [|done]. intros Hr%Hin. apply below_root in Hr. revert Hr. by eapply below_irrefl.
  - apply Forall_forall. intros q Hq%Hin. by eapply space_page_used.
Qed.
