(* ===== verification/FreshPages.v ===== *)
(** * Ranges of fresh pages

    What the loops of [mem/uvm.rs], [mem/vm.rs] and [proc/process.rs] that take
    a page from a pool, fill it and map it at the next address do to an address
    space: [grown_range]. The pool, the flags of the entries and the contents of
    the pages are parameters. *)
From S2P Require Import Prelude Addr PhysMem PageTable.

(** One page mapped at an unmapped address. *)
Lemma wp_map_page {kb ub : RegionBounds} {root : Z} flags s T p a : pmem_inv kb ub s -> pt_wf kb ub s root T ->
  0 <= p < 2 ^ 55 -> p mod PGSIZE = 0 -> 0 <= a -> a + PGSIZE <= VA_MAX -> a mod PGSIZE = 0 ->
  (forall va, a <= va < a + PGSIZE -> trans s T va = None) -> 2 <= allocable (inner (region true s)) ->
  wp (pt_map root a p PGSIZE flags) (fun ok s' => ok = true /\ exists T',
    extends kb ub root 2 s T s' T' /\ forall va, 0 <= va < VA_MAX -> trans s' T' va =
      if in_range a (a + PGSIZE) va then Some (pa_to_pte p (Z.lor flags PTE_V)) else trans s T va) s.
Proof.
  intros Hinv Hwf Hp Hpal Ha Hmax Hal Hnone Hkern. change VA_MAX with 274877906944 in *.
  assert (Hd : align_down a = a) by (apply align_down_aligned; [page_lia|done]).
  assert (Hdp : align_down p = p) by (apply align_down_aligned; [page_lia|done]).
  assert (Hl : map_last a PGSIZE = a).
  { unfold map_last. rewrite align_up_aligned; [lia|]. rewrite <-Zplus_mod_idemp_l, Hal. done. }
  eapply wp_mono; [|apply (wp_pt_map (kb := kb) (ub := ub) s T a p PGSIZE flags);
    [done|done|done|done|exact Hmax|lia| |]].
  - intros ok s' [-> (T' & Hex & Htr)]. rewrite Hd, Hdp, Hl in *. split; [done|].
    exists T'. unfold budget in Hex. rewrite !Z.sub_diag in Hex. split; [exact Hex|].
    intros va Hva. rewrite Htr by done. destruct (in_range _ _ _) eqn:E; [|done].
    apply in_range_true in E. unfold mapped_pte. do 2 f_equal.
    apply (div_page_between a va Hal) in E. rewrite E. unfold PGSIZE in *. Z.to_euclidean_division_equations; lia.
  - rewrite Hd, Hdp, Hl. intros va Hva e. rewrite Hnone by done. done.
  - rewrite Hd, Hl. unfold budget. rewrite !Z.sub_diag. lia.
Qed.

Section growth.
Context {kb ub : RegionBounds} {root : Z}.
(** [contents n o]: the word at byte [o] of the page number [n] *)
Context (pool : bool) (flags : Z) (contents : Z -> Z -> Z).
Implicit Types (s : pmem) (T : gmap (list Z) Z).
Local Abbreviation pt_wf := (pt_wf kb ub).
Local Abbreviation pmem_inv := (pmem_inv kb ub).
Local Abbreviation owned := (owned kb ub).

(** The entry of a page whose frame is [p]. *)
Definition page_pte (p : Z) : Z := pa_to_pte p (Z.lor flags PTE_V).

(** From [s], [T] to [s'], [T'] the pages of [start, a) were mapped, the page
    number [n] to the frame [fr n]. *)
Record grown_range (s : pmem) (T : gmap (list Z) Z) (start a : Z) (fr : Z -> Z)
  (s' : pmem) (T' : gmap (list Z) Z) : Prop := {
  gr_inv : pmem_inv s';
  gr_wf : pt_wf s' root T';
  gr_tables : forall path p, T' !! path = Some p -> T !! path = Some p \/
    (in_bounds kb p /\ page_ref s (page_index p) = 0);
  gr_frame : forall va, start <= va < a -> in_bounds (pick pool kb ub) (fr (va / PGSIZE)) /\
    page_ref s (page_index (fr (va / PGSIZE))) = 0 /\ page_ref s' (page_index (fr (va / PGSIZE))) = 1 /\
    forall w, in_page (fr (va / PGSIZE)) w -> mem s' w = contents (va / PGSIZE) (w - fr (va / PGSIZE));
  gr_apart : forall va path, start <= va < a -> T' !! path <> Some (fr (va / PGSIZE));
  gr_inj : forall va va', start <= va < a -> start <= va' < a ->
    fr (va / PGSIZE) = fr (va' / PGSIZE) -> va / PGSIZE = va' / PGSIZE;
  gr_trans : forall va, 0 <= va < VA_MAX ->
    trans s' T' va = if in_range start a va then Some (page_pte (fr (va / PGSIZE))) else trans s T va;
  gr_ref : forall i, page_ref s i = 1 -> page_ref s' i = 1;
  gr_mem : forall q w, owned s q -> (forall path, T !! path <> Some q) -> in_page q w -> mem s' w = mem s w;
  gr_user : allocable (inner (region false s')) =
    allocable (inner (region false s)) - (if pool then 0 else (a - start) / PGSIZE);
  gr_kernel : allocable (inner (region true s)) - (if pool then 3 else 2) * ((a - start) / PGSIZE)
    <= allocable (inner (region true s'));
}.

Lemma grown_range_refl s T a : pmem_inv s -> pt_wf s root T -> grown_range s T a a (fun _ => 0) s T.
Proof.
  intros Hinv Hwf. split; try done; try lia.
  - auto.
  - intros va Hva. by destruct (in_range a a va) eqn:E; [apply in_range_true in E; lia|].
  - rewrite Z.sub_diag. change (0 / PGSIZE) with 0. destruct pool; lia.
  - rewrite Z.sub_diag. change (0 / PGSIZE) with 0. lia.
Qed.

Lemma pool_frame_range p : layout_ok kb ub -> in_bounds (pick pool kb ub) p -> 0 < p < 2 ^ 55 /\ p mod PGSIZE = 0.
Proof.
  intros HL [Hp Hal]. destruct (layout_pick pool HL) as [? ?]. simpl in *.
  unfold PHY_MEM_START, TOTAL_PAGES, PGSIZE in *. change (128 * 1024 * 1024 / 4096) with 32768 in *.
  split; [lia|done].
Qed.

Lemma pool_owned s p : layout_ok kb ub -> in_bounds (pick pool kb ub) p -> page_ref s (page_index p) = 1 -> owned s p.
Proof.
  intros HL Hin Hr. destruct (pool_frame_range p HL Hin) as [Hp Hal]. split; [done|]. split; [lia|done].
Qed.

(** A page was taken from [pool] and given the contents [c]. *)
Record taken_post (c : Z -> Z) (s : pmem) (p : Z) (s' : pmem) : Prop := {
  tk_in : in_bounds (pick pool kb ub) p;
  tk_fresh : page_ref s (page_index p) = 0;
  tk_used : page_ref s' (page_index p) = 1;
  tk_refs : forall i, i <> page_index p -> page_ref s' i = page_ref s i;
  tk_contents : forall w, in_page p w -> mem s' w = c (w - p);
  tk_mem : forall w, ~ in_page p w -> mem s' w = mem s w;
  tk_user : allocable (inner (region false s')) = allocable (inner (region false s)) - (if pool then 0 else 1);
  tk_kernel : allocable (inner (region true s')) = allocable (inner (region true s)) - (if pool then 1 else 0);
  tk_inv : pmem_inv s';
}.

Lemma alloc_taken c s p s1 m : alloc_post kb ub pool s p s1 ->
  (forall w, in_page p w -> m w = c (w - p)) -> (forall w, ~ in_page p w -> m w = mem s1 w) ->
  taken_post c s p (set_mem m s1).
Proof.
  intros [Hin Hfr Hus Hrefs _ Hmem Hc Ho Hinv] Hc' Hm. split; try done.
  - intros w Hw. simpl. by rewrite Hm, Hmem.
  - rewrite region_set_mem. destruct pool; simpl negb in Ho; [rewrite Ho; lia|done].
  - rewrite region_set_mem. destruct pool; simpl negb in Ho; [done|rewrite Ho; lia].
  - apply pmem_inv_set_mem; [done|]. intros fk q Hq Hr. apply Hm. intros Hw.
    assert (q = p) as ->; [|lia]. apply (page_unique _ _ q); [by destruct Hq|by destruct Hin| |done]. unfold in_page. page_lia.
Qed.

(** One taken page mapped at an unmapped address. *)
Lemma wp_map_taken c s T p s1 a : taken_post c s p s1 -> layout_ok kb ub -> pt_wf s root T ->
  0 <= a -> a + PGSIZE <= VA_MAX -> a mod PGSIZE = 0 ->
  (forall va, a <= va < a + PGSIZE -> trans s T va = None) -> 2 <= allocable (inner (region true s1)) ->
  wp (pt_map root a p PGSIZE flags) (fun ok s' => ok = true /\ exists T',
    extends kb ub root 2 s1 T s' T' /\ forall va, 0 <= va < VA_MAX -> trans s' T' va =
      if in_range a (a + PGSIZE) va then Some (page_pte p) else trans s T va) s1.
Proof.
  intros [Hin Hfr Hus Hrefs _ Hmem _ _ Hinv] HL Hwf Ha Hmax Hal Hnone Hkern.
  destruct (take_frame_wf pool s T p s1 Hwf) as (Hwf1 & Htr1 & _); [done..|].
  destruct (pool_frame_range p HL Hin) as [Hp Hpal].
  eapply wp_mono; [|apply (wp_map_page flags s1 T p a Hinv Hwf1); try done; [lia|]].
  - intros ok s' [-> (T' & Hex & Htr)]. split; [done|]. exists T'. split; [done|]. intros va Hva. by rewrite Htr, Htr1.
  - intros va Hva. by rewrite Htr1, Hnone.
Qed.

Lemma pages_next start a : start <= a -> start mod PGSIZE = 0 -> a mod PGSIZE = 0 ->
  (a + PGSIZE - start) / PGSIZE = (a - start) / PGSIZE + 1.
Proof. intros. rewrite <-(Z.div_add _ 1) by done. f_equal. lia. Qed.

Section next.
Context (s : pmem) (T : gmap (list Z) Z) (start a : Z) (fr : Z -> Z) (s0 : pmem) (T0 : gmap (list Z) Z).
Context (p : Z) (s1 s' : pmem) (T' : gmap (list Z) Z).
Context (Hinv0 : pmem_inv s) (Hwf0 : pt_wf s root T).
Context (Hs : start mod PGSIZE = 0) (Ha : a mod PGSIZE = 0) (Hsa : 0 <= start <= a).
Context (Hg : grown_range s T start a fr s0 T0) (Hpost : taken_post (contents (a / PGSIZE)) s0 p s1).
Context (Hex : extends kb ub root 2 s1 T0 s' T').

Lemma next_ref i : page_ref s0 i = 1 -> page_ref s1 i = 1.
Proof. intros Hi. rewrite (tk_refs _ _ _ _ Hpost); [done|]. intros ->. rewrite (tk_fresh _ _ _ _ Hpost) in Hi. done. Qed.

Lemma next_unref i : page_ref s0 i = 0 -> page_ref s i = 0.
Proof.
  intros Hi. destruct (pi_ref _ _ _ Hinv0 i) as [|H1]; [done|]. apply (gr_ref _ _ _ _ _ _ _ Hg) in H1. lia.
Qed.

Lemma next_case va : start <= va < a + PGSIZE -> (va / PGSIZE = a / PGSIZE /\ a <= va) \/
  (start <= va < a /\ va / PGSIZE <> a / PGSIZE).
Proof.
  intros Hva. pose proof (div_page_between a va Ha) as H.
  destruct (Z.lt_ge_cases va a) as [Hlt|Hge]; [right|left].
  - split; [lia|]. intros Heq%H. lia.
  - split; [|done]. apply H. lia.
Qed.

Lemma next_old va : start <= va < a -> fr (va / PGSIZE) <> p.
Proof.
  intros Hva Heq. destruct (gr_frame _ _ _ _ _ _ _ Hg va Hva) as (_ & _ & H1 & _).
  rewrite Heq, (tk_fresh _ _ _ _ Hpost) in H1. done.
Qed.

Lemma next_not_table path : T0 !! path <> Some p.
Proof.
  pose proof Hpost as [Hin Hfr Hus Hrefs _ Hmem _ _ _].
  destruct (take_frame_wf pool s0 T0 p s1 (gr_wf _ _ _ _ _ _ _ Hg)) as (_ & _ & H); [done..|]. apply H.
Qed.

Lemma next_frame va : start <= va < a + PGSIZE ->
  let f := upd fr (a / PGSIZE) p (va / PGSIZE) in
  in_bounds (pick pool kb ub) f /\ page_ref s (page_index f) = 0 /\ page_ref s' (page_index f) = 1 /\
  forall w, in_page f w -> mem s' w = contents (va / PGSIZE) (w - f).
Proof.
  intros Hva. cbv zeta. pose proof (pi_layout _ _ _ Hinv0) as HL.
  pose proof Hpost as [Hin Hfresh Hheld _ Hcont Hmem _ _ _].
  destruct (next_case va Hva) as [[-> _]|[Hva' Hne]].
  - rewrite upd_eq. split_and!; [done|by apply next_unref|by apply (ex_ref _ _ _ _ _ _ _ _ Hex)|].
    intros w Hw. rewrite (ex_frame _ _ _ _ _ _ _ _ Hex p); [by apply Hcont|by apply pool_owned|apply next_not_table|done].
  - rewrite upd_ne by done. destruct (gr_frame _ _ _ _ _ _ _ Hg va Hva') as (Hb & Hf & Hh & Hz).
    split_and!; [done|done|by apply (ex_ref _ _ _ _ _ _ _ _ Hex), next_ref|].
    intros w Hw. rewrite (ex_frame _ _ _ _ _ _ _ _ Hex (fr (va / PGSIZE)));
      [|apply pool_owned; [done|done|by apply next_ref]|intros path; by apply (gr_apart _ _ _ _ _ _ _ Hg)|done].
    rewrite Hmem; [by apply Hz|]. intros Hw'. apply (next_old va Hva').
    by apply (page_unique _ _ w); [apply Hb|apply Hin| |].
Qed.

Lemma next_apart va path : start <= va < a + PGSIZE -> T' !! path <> Some (upd fr (a / PGSIZE) p (va / PGSIZE)).
Proof.
  intros Hva Hp. destruct (next_case va Hva) as [[Heq _]|[Hva' Hne]].
  - rewrite Heq, upd_eq in Hp. destruct (ex_new _ _ _ _ _ _ _ _ Hex _ _ Hp) as [H|[_ H]]; [by apply next_not_table in H|].
    rewrite (tk_used _ _ _ _ Hpost) in H. done.
  - rewrite upd_ne in Hp by done. destruct (gr_frame _ _ _ _ _ _ _ Hg va Hva') as (_ & _ & Hh & _).
    destruct (ex_new _ _ _ _ _ _ _ _ Hex _ _ Hp) as [H|[_ H]]; [by apply (gr_apart _ _ _ _ _ _ _ Hg) in H|].
    rewrite next_ref in H by done. done.
Qed.

Lemma next_mem q w : owned s q -> (forall path, T !! path <> Some q) -> in_page q w -> mem s' w = mem s w.
Proof.
  intros Hq Hnot Hw. pose proof Hpost as [Hin _ _ _ _ Hmem _ _ _].
  assert (Ho0 : owned s0 q) by (eapply owned_mono; [apply (gr_ref _ _ _ _ _ _ _ Hg)|done]).
  assert (Hqp : q <> p).
  { intros ->. destruct Hq as (_ & _ & Ho). specialize (Ho pool Hin).
    rewrite (next_unref _ (tk_fresh _ _ _ _ Hpost)) in Ho. done. }
  rewrite (ex_frame _ _ _ _ _ _ _ _ Hex q); [|eapply owned_mono; [apply next_ref|done]| |done].
  - rewrite Hmem; [by apply (gr_mem _ _ _ _ _ _ _ Hg q)|]. intros Hw'. apply Hqp.
    by apply (page_unique _ _ w); [apply Hq|apply Hin| |].
  - intros path Hp. destruct (gr_tables _ _ _ _ _ _ _ Hg _ _ Hp) as [|[Hb Hr]]; [by apply (Hnot path)|].
    destruct Hq as (_ & _ & Ho). rewrite (Ho true Hb) in Hr. done.
Qed.

Lemma grown_range_next : (forall va, 0 <= va < VA_MAX -> trans s' T' va =
     if in_range a (a + PGSIZE) va then Some (page_pte p) else trans s0 T0 va) ->
  grown_range s T start (a + PGSIZE) (upd fr (a / PGSIZE) p) s' T'.
Proof.
  intros Htr. pose proof (pages_next start a ltac:(lia) Hs Ha) as Hpn. split.
  - apply Hex.
  - apply Hex.
  - intros path q Hq. destruct (ex_new _ _ _ _ _ _ _ _ Hex _ _ Hq) as [Hq0|[Hb Hr]].
    { by apply (gr_tables _ _ _ _ _ _ _ Hg). }
    right. split; [done|]. apply next_unref.
    destruct (pi_ref _ _ _ (gr_inv _ _ _ _ _ _ _ Hg) (page_index q)) as [|H1]; [done|]. apply next_ref in H1. lia.
  - apply next_frame.
  - intros va path. apply next_apart.
  - intros va va' Hva Hva'. destruct (next_case va Hva) as [[-> _]|[Hv Hne]], (next_case va' Hva') as [[-> _]|[Hv' Hne']];
      [done|rewrite upd_eq, upd_ne by done|rewrite upd_eq, upd_ne by done|rewrite !upd_ne by done].
    + intros H. by destruct (next_old va' Hv').
    + intros H. by destruct (next_old va Hv).
    + by apply (gr_inj _ _ _ _ _ _ _ Hg).
  - intros va Hva. rewrite Htr, (gr_trans _ _ _ _ _ _ _ Hg) by done.
    destruct (in_range start (a + PGSIZE) va) eqn:E.
    + apply in_range_true, next_case in E as [[E Hle]|[E Hne]].
      * rewrite (proj2 (in_range_true a (a + PGSIZE) va)) by by apply div_page_between. by rewrite E, upd_eq.
      * rewrite (proj2 (in_range_true start a va)), upd_ne by done.
        destruct (in_range a _ va) eqn:E2; [apply in_range_true in E2; lia|done].
    + destruct (in_range a (a + PGSIZE) va) eqn:E2, (in_range start a va) eqn:E3; try done;
        [apply in_range_true in E2|apply in_range_true in E2|apply in_range_true in E3];
        (assert (in_range start (a + PGSIZE) va = true) by (apply in_range_true; page_lia)); congruence.
  - intros i Hi. by apply (ex_ref _ _ _ _ _ _ _ _ Hex), next_ref, (gr_ref _ _ _ _ _ _ _ Hg).
  - apply next_mem.
  - rewrite (ex_user _ _ _ _ _ _ _ _ Hex), (tk_user _ _ _ _ Hpost), (gr_user _ _ _ _ _ _ _ Hg), Hpn.
    destruct pool; lia.
  - pose proof (ex_count _ _ _ _ _ _ _ _ Hex) as H. rewrite (tk_kernel _ _ _ _ Hpost) in H.
    pose proof (gr_kernel _ _ _ _ _ _ _ Hg). rewrite Hpn. destruct pool; lia.
Qed.
End next.

(** Enough pages of both kinds for the range, and nothing mapped in it. *)
Definition room s T (start last : Z) : Prop :=
  (pool = false -> (last - start) / PGSIZE <= allocable (inner (region false s))) /\
  (if pool then 3 else 2) * ((last - start) / PGSIZE) <= allocable (inner (region true s)) /\
  forall va, start <= va < last -> trans s T va = None.

(** One round of such a loop: the page that is taken, filled and mapped. *)
Lemma wp_grow_step s T start last a fr s0 T0 (Q : Z -> pmem -> Prop) : pmem_inv s -> pt_wf s root T ->
  start mod PGSIZE = 0 -> last mod PGSIZE = 0 -> a mod PGSIZE = 0 -> 0 <= start <= a -> a < last <= VA_MAX ->
  room s T start last -> grown_range s T start a fr s0 T0 ->
  (forall p s1, alloc_post kb ub pool s0 p s1 -> 0 < p < 2 ^ 55 -> p mod PGSIZE = 0 ->
    (forall m, (forall w, in_page p w -> m w = contents (a / PGSIZE) (w - p)) ->
       (forall w, ~ in_page p w -> m w = mem s1 w) ->
       wp (pt_map root a p PGSIZE flags) (fun ok s' => ok = true /\ exists T',
         grown_range s T start (a + PGSIZE) (upd fr (a / PGSIZE) p) s' T') (set_mem m s1)) -> Q p s1) ->
  wp (pmem_alloc pool) Q s0.
Proof.
  intros Hinv Hwf Hs Hl Ha Hsa Hal (Huser & Hkern & Hnone) Hg Hk.
  assert (Hpg : a + PGSIZE <= last) by (unfold PGSIZE in *; Z.to_euclidean_division_equations; lia).
  assert (Hn : (a - start) / PGSIZE + 1 <= (last - start) / PGSIZE).
  { rewrite <-pages_next by (done || lia). apply Z.div_le_mono; page_lia. }
  assert (H0 : 0 <= (a - start) / PGSIZE) by (apply Z.div_pos; page_lia).
  pose proof (gr_user _ _ _ _ _ _ _ Hg) as Hu. pose proof (gr_kernel _ _ _ _ _ _ _ Hg) as Hkk.
  assert (Hpool : 0 < allocable (inner (region pool s0))) by (destruct pool; [lia|specialize (Huser eq_refl); lia]).
  eapply wp_mono; [|apply (wp_pmem_alloc (kb := kb) (ub := ub)); [apply Hg|done]].
  intros p s1 Hpost. pose proof (pi_layout _ _ _ Hinv) as HL.
  destruct (pool_frame_range p HL (ap_in _ _ _ _ Hpost)) as [Hp Hpal]. apply Hk; [done|done|done|].
  intros m Hm Hm'. pose proof (alloc_taken (contents (a / PGSIZE)) s0 p s1 m Hpost Hm Hm') as Htk.
  eapply wp_mono; [|apply (wp_map_taken (contents (a / PGSIZE)) s0 T0 p _ a Htk HL (gr_wf _ _ _ _ _ _ _ Hg)); [lia|lia|done| |]].
  - intros ok s' [-> (T' & Hex & Htr)]. split; [done|]. exists T'. eapply grown_range_next; eauto.
  - intros va Hva. rewrite (gr_trans _ _ _ _ _ _ _ Hg) by page_lia.
    destruct (in_range start a va) eqn:E; [apply in_range_true in E; lia|]. apply Hnone. lia.
  - rewrite (tk_kernel _ _ _ _ Htk). destruct pool; lia.
Qed.
End growth.

Lemma set_mem_self s : set_mem (mem s) s = s.
Proof. by destruct s. Qed.
