(* ===== verification/PtCopy.v ===== *)
(** * Duplicating an address space ([PageTable::copy])

    [copy] walks the three levels of the source tree and treats each leaf by
    its flags. [leaves2] is the list of leaves in the order they are met, and
    [copied] what the copy looks like after a prefix of them. *)
From S2P Require Import Prelude Addr PhysMem PageTable FreshPages PtDestroy.

(** ** What [copy] does with a leaf *)

Inductive leaf_kind := Dup (for_kernel : bool) | Share | Skip.

Definition copy_kind (kb ub : RegionBounds) (e : Z) : leaf_kind :=
  if negb (Z.land (get_flags e) PTE_U =? 0) then
    match pool_of kb ub (pte_to_pa e) with Some false => Dup false | _ => Skip end
  else if negb (Z.land (get_flags e) PTE_X =? 0) then Share
  else match pool_of kb ub (pte_to_pa e) with Some true => Dup true | _ => Skip end.

(** The entry of the copy, a duplicated frame being [p]. *)
Definition copied_pte (kb ub : RegionBounds) (p e : Z) : option Z :=
  match copy_kind kb ub e with
  | Dup _ => Some (page_pte (get_flags e) p)
  | Share => Some (page_pte (get_flags e) (pte_to_pa e))
  | Skip => None
  end.

(** Pages a leaf takes from the user pool, and at most from the kernel's. *)
Definition user_cost (kb ub : RegionBounds) (e : Z) : Z :=
  match copy_kind kb ub e with Dup false => 1 | _ => 0 end.
Definition kernel_cost (kb ub : RegionBounds) (e : Z) : Z :=
  match copy_kind kb ub e with Dup true => 3 | Dup false | Share => 2 | Skip => 0 end.
Definition total (f : Z -> Z) (L : list (Z * Z)) : Z := foldr (fun xe n => f xe.2 + n) 0 L.

(** A leaf that can be copied: its frame is held, or has an address an entry
    can hold. *)
Definition leaf_ok (kb ub : RegionBounds) (s : pmem) (e : Z) : Prop :=
  match copy_kind kb ub e with
  | Dup _ => page_ref s (page_index (pte_to_pa e)) = 1
  | Share => pte_to_pa e < 2 ^ 55
  | Skip => True
  end.

(** ** The leaves in the order of the three loops *)

Definition leaves0 (m : Z -> Z) (i j l0 : Z) : list (Z * Z) :=
  range 0 PGNUM ≫= fun k => let e := m (entry l0 k) in
    if negb (is_valid e) || negb (is_leaf e) then [] else [(copy_va i j k, e)].
Definition leaves1 (m : Z -> Z) (i l1 : Z) : list (Z * Z) :=
  range 0 PGNUM ≫= fun j => let e := m (entry l1 j) in
    if negb (is_valid e) || negb (is_table e) then []
    else if pte_to_pa e =? 0 then [] else leaves0 m i j (pte_to_pa e).
Definition leaves2 (m : Z -> Z) (root : Z) : list (Z * Z) :=
  range 0 PGNUM ≫= fun i => let e := m (entry root i) in
    if negb (is_valid e) || negb (is_table e) then []
    else if pte_to_pa e =? 0 then [] else leaves1 m i (pte_to_pa e).

(** ** The copy after some leaves *)

Record copied (kb ub : RegionBounds) (s : pmem) (dst : Z) (L : list (Z * Z)) (fr : Z -> Z)
  (s' : pmem) (D : gmap (list Z) Z) : Prop := {
  cp_inv : pmem_inv kb ub s';
  cp_wf : pt_wf kb ub s' dst D;
  cp_low : forall i l, is_Some (D !! (i :: l)) -> i < PGNUM / 2;
  cp_new : forall path p, D !! path = Some p -> in_bounds kb p /\ page_ref s (page_index p) = 0;
  cp_ref : forall i, page_ref s i = 1 -> page_ref s' i = 1;
  cp_only : forall i, page_ref s' i = 1 -> page_ref s i = 1 \/
    (exists path p, D !! path = Some p /\ page_index p = i) \/
    (exists x e fk, (x, e) ∈ L /\ copy_kind kb ub e = Dup fk /\ page_index (fr x) = i);
  cp_mem : forall q w, owned kb ub s q -> in_page q w -> mem s' w = mem s w;
  cp_frame : forall x e fk, (x, e) ∈ L -> copy_kind kb ub e = Dup fk ->
    in_bounds (pick fk kb ub) (fr x) /\ page_ref s (page_index (fr x)) = 0 /\
    page_ref s' (page_index (fr x)) = 1 /\ (forall path, D !! path <> Some (fr x)) /\
    forall w, in_page (fr x) w -> mem s' w = mem s (pte_to_pa e + (w - fr x));
  cp_inj : forall x e fk x' e' fk', (x, e) ∈ L -> copy_kind kb ub e = Dup fk ->
    (x', e') ∈ L -> copy_kind kb ub e' = Dup fk' -> fr x = fr x' -> x = x';
  cp_map : forall x e va, (x, e) ∈ L -> x <= va < x + PGSIZE -> trans s' D va = copied_pte kb ub (fr x) e;
  cp_none : forall va, 0 <= va < VA_MAX -> (forall x e, (x, e) ∈ L -> ~ x <= va < x + PGSIZE) -> trans s' D va = None;
  cp_user : allocable (inner (region false s')) = allocable (inner (region false s)) - total (user_cost kb ub) L;
  cp_kernel : allocable (inner (region true s)) - 1 - total (kernel_cost kb ub) L <= allocable (inner (region true s'));
}.

Lemma total_app f L L' : total f (L ++ L') = total f L + total f L'.
Proof. unfold total. induction L as [|[x e] L IH]; simpl in *; lia. Qed.

Lemma total_single f x e : total f [(x, e)] = f e.
Proof. unfold total. simpl. lia. Qed.

Section step.
Context {kb ub : RegionBounds} {dst : Z}.
Context (s : pmem) (L : list (Z * Z)) (fr : Z -> Z) (s1 : pmem) (D : gmap (list Z) Z).
Context (x e : Z) (p : Z) (s1m s2 : pmem) (D2 : gmap (list Z) Z).
Context (Hinv : pmem_inv kb ub s) (Hcp : copied kb ub s dst L fr s1 D).
(** The frame the new leaf gets: a page just taken, or the shared one. *)
Context (Hmid : match copy_kind kb ub e with
  | Dup fk => taken_post (kb := kb) (ub := ub) fk (fun o => mem s (pte_to_pa e + o)) s1 p s1m
  | Share => s1m = s1 /\ p = pte_to_pa e
  | Skip => False
  end).
Context (Hnew : forall y e', (y, e') ∈ L -> y <> x) .
Context (Hva : Forall (fun ye => ye.1 mod PGSIZE = 0 /\ 0 <= ye.1 /\ ye.1 + PGSIZE <= VA_MAX) (L ++ [(x, e)])).
Context (Hex : extends kb ub dst 2 s1m D s2 D2).
Context (Htr : forall va, 0 <= va < VA_MAX -> trans s2 D2 va =
  if in_range x (x + PGSIZE) va then Some (page_pte (get_flags e) p) else trans s1 D va).
Local Abbreviation fr' := (upd fr x p).

Lemma mid_ref i : page_ref s1 i = 1 -> page_ref s1m i = 1.
Proof.
  destruct (copy_kind kb ub e) as [fk| |]; [|by destruct Hmid as [-> _]|done].
  intros Hi. rewrite (tk_refs _ _ _ _ _ Hmid); [done|]. intros ->. rewrite (tk_fresh _ _ _ _ _ Hmid) in Hi. done.
Qed.

Lemma step_ref i : page_ref s1 i = 1 -> page_ref s2 i = 1.
Proof. intros H%mid_ref. by apply (ex_ref _ _ _ _ _ _ _ _ Hex). Qed.

Lemma unref i : page_ref s1 i = 0 -> page_ref s i = 0.
Proof. intros Hi. destruct (pi_ref _ _ _ Hinv i) as [|H1]; [done|]. apply (cp_ref _ _ _ _ _ _ _ _ Hcp) in H1. lia. Qed.

Lemma old_frame y e' fk : (y, e') ∈ L -> copy_kind kb ub e' = Dup fk -> fr' y = fr y.
Proof. intros Hy _. apply upd_ne. by eapply Hnew. Qed.

Lemma new_dup fk : copy_kind kb ub e = Dup fk -> taken_post (kb := kb) (ub := ub) fk (fun o => mem s (pte_to_pa e + o)) s1 p s1m.
Proof. intros Hk. by rewrite Hk in Hmid. Qed.

Lemma new_not_table fk path : copy_kind kb ub e = Dup fk -> D !! path <> Some p.
Proof.
  intros Htk%new_dup Hp. destruct (wf_owned _ _ _ _ _ (cp_wf _ _ _ _ _ _ _ _ Hcp) _ _ Hp) as (_ & _ & Ho).
  pose proof (Ho fk (tk_in _ _ _ _ _ Htk)). pose proof (tk_fresh _ _ _ _ _ Htk). lia.
Qed.

Lemma mid_mem q w : owned kb ub s1 q -> in_page q w -> mem s1m w = mem s1 w.
Proof.
  intros (Hqal & _ & Ho) Hw. destruct (copy_kind kb ub e) as [fk| |] eqn:Hk; [|by destruct Hmid as [-> _]|done].
  apply (tk_mem _ _ _ _ _ Hmid). intros Hw'. assert (q = p) as ->.
  { apply (page_unique _ _ w); [done|apply (tk_in _ _ _ _ _ Hmid)|done|done]. }
  pose proof (Ho fk (tk_in _ _ _ _ _ Hmid)). pose proof (tk_fresh _ _ _ _ _ Hmid). lia.
Qed.

Lemma mid_unref i : page_ref s1m i = 0 -> page_ref s i = 0.
Proof.
  intros Hi. apply unref. destruct (pi_ref _ _ _ (cp_inv _ _ _ _ _ _ _ _ Hcp) i) as [|H%mid_ref]; [done|lia].
Qed.

(** A page held and no table before the step is left alone. *)
Lemma step_keep q w : owned kb ub s1 q -> (forall path, D !! path <> Some q) -> in_page q w -> mem s2 w = mem s1 w.
Proof.
  intros Ho Hnt Hw. rewrite (ex_frame _ _ _ _ _ _ _ _ Hex q w); [by eapply mid_mem| |done|done].
  eapply owned_mono; [apply mid_ref|done].
Qed.

Lemma step_mem q w : owned kb ub s q -> in_page q w -> mem s2 w = mem s w.
Proof.
  intros Hq Hw. rewrite (step_keep q w); [by eapply (cp_mem _ _ _ _ _ _ _ _ Hcp)| | |done].
  - eapply owned_mono; [apply (cp_ref _ _ _ _ _ _ _ _ Hcp)|done].
  - intros path Hp. destruct (cp_new _ _ _ _ _ _ _ _ Hcp _ _ Hp) as [Hb Hr].
    destruct Hq as (_ & _ & Ho). rewrite (Ho true Hb) in Hr. done.
Qed.

Lemma not_table_next q path : page_ref s1m (page_index q) = 1 -> (forall path, D !! path <> Some q) -> D2 !! path <> Some q.
Proof.
  intros Hr Hn Hp. destruct (ex_new _ _ _ _ _ _ _ _ Hex _ _ Hp) as [H|[_ H]]; [by apply Hn in H|lia].
Qed.

Lemma step_frame y e' fk : (y, e') ∈ L ++ [(x, e)] -> copy_kind kb ub e' = Dup fk ->
  in_bounds (pick fk kb ub) (fr' y) /\ page_ref s (page_index (fr' y)) = 0 /\
  page_ref s2 (page_index (fr' y)) = 1 /\ (forall path, D2 !! path <> Some (fr' y)) /\
  forall w, in_page (fr' y) w -> mem s2 w = mem s (pte_to_pa e' + (w - fr' y)).
Proof.
  pose proof (pi_layout _ _ _ Hinv) as HL. intros [Hy|[= -> ->]%list_elem_of_singleton]%elem_of_app Hk.
  - rewrite (old_frame y e' fk) by done.
    destruct (cp_frame _ _ _ _ _ _ _ _ Hcp y e' fk Hy Hk) as (Hb & Hf & Hr & Hn & Hc).
    split_and!; [done|done|by apply step_ref| |].
    + intros path. apply not_table_next; [by apply mid_ref|done].
    + intros w Hw. rewrite (step_keep (fr y) w); [by apply Hc| |done|done].
      eapply (pool_owned fk); done.
  - pose proof (new_dup fk Hk) as Htk. rewrite upd_eq. pose proof (tk_in _ _ _ _ _ Htk) as Hb.
    assert (Hnt : forall path, D !! path <> Some p) by (intros path; by eapply new_not_table).
    split_and!; [done|apply unref, (tk_fresh _ _ _ _ _ Htk)|apply (ex_ref _ _ _ _ _ _ _ _ Hex), (tk_used _ _ _ _ _ Htk)| |].
    + intros path. apply not_table_next; [apply (tk_used _ _ _ _ _ Htk)|done].
    + intros w Hw. rewrite (ex_frame _ _ _ _ _ _ _ _ Hex p w); [by apply (tk_contents _ _ _ _ _ Htk)| |done|done].
      eapply (pool_owned fk); [done|done|apply (tk_used _ _ _ _ _ Htk)].
Qed.

Lemma new_frame_fresh fk y e' fk' : copy_kind kb ub e = Dup fk -> (y, e') ∈ L -> copy_kind kb ub e' = Dup fk' -> fr y <> p.
Proof.
  intros Htk%new_dup Hy Hk Heq. destruct (cp_frame _ _ _ _ _ _ _ _ Hcp y e' fk' Hy Hk) as (_ & _ & Hr & _).
  rewrite Heq, (tk_fresh _ _ _ _ _ Htk) in Hr. done.
Qed.

Lemma step_inj y e1 fk y' e2 fk' : (y, e1) ∈ L ++ [(x, e)] -> copy_kind kb ub e1 = Dup fk ->
  (y', e2) ∈ L ++ [(x, e)] -> copy_kind kb ub e2 = Dup fk' -> fr' y = fr' y' -> y = y'.
Proof.
  intros Hy Hk Hy' Hk'. apply elem_of_app in Hy as [Hy|[= -> ->]%list_elem_of_singleton];
    apply elem_of_app in Hy' as [Hy'|[= -> ->]%list_elem_of_singleton]; [| | |done].
  - rewrite (old_frame y e1 fk), (old_frame y' e2 fk') by done. by eapply (cp_inj _ _ _ _ _ _ _ _ Hcp).
  - rewrite (old_frame y e1 fk), upd_eq by done. intros H. by edestruct (new_frame_fresh fk' y e1 fk).
  - rewrite (old_frame y' e2 fk'), upd_eq by done. intros H. by edestruct (new_frame_fresh fk y' e2 fk').
Qed.

Lemma page_apart y va : y mod PGSIZE = 0 -> x mod PGSIZE = 0 -> y <> x -> y <= va < y + PGSIZE -> in_range x (x + PGSIZE) va = false.
Proof.
  intros Hy Hx Hne Hr. destruct (in_range _ _ _) eqn:E; [|done]. apply in_range_true in E. exfalso. apply Hne.
  by apply (page_unique _ _ va).
Qed.

Lemma step_map y e' va : (y, e') ∈ L ++ [(x, e)] -> y <= va < y + PGSIZE -> trans s2 D2 va = copied_pte kb ub (fr' y) e'.
Proof.
  rewrite Forall_forall in Hva. pose proof (Hva (x, e) ltac:(set_solver)) as (Hxa & Hx0 & Hxm). simpl in *.
  intros Hy Hr. pose proof (Hva _ Hy) as (Hya & Hy0 & Hym). simpl in *. rewrite Htr by lia.
  apply elem_of_app in Hy as [Hy|[= -> ->]%list_elem_of_singleton].
  - rewrite (page_apart y va) by (done || by eapply Hnew). rewrite (cp_map _ _ _ _ _ _ _ _ Hcp y e' va Hy Hr).
    unfold copied_pte. destruct (copy_kind kb ub e') eqn:Hk; [|done|done]. by rewrite (old_frame y e' for_kernel).
  - rewrite (proj2 (in_range_true _ _ _)), upd_eq by done. unfold copied_pte.
    destruct (copy_kind kb ub e); [done| |done]. by destruct Hmid as [_ ->].
Qed.

Lemma step_counts : allocable (inner (region false s2)) = allocable (inner (region false s1)) - user_cost kb ub e /\
  allocable (inner (region true s1)) - kernel_cost kb ub e <= allocable (inner (region true s2)).
Proof.
  rewrite (ex_user _ _ _ _ _ _ _ _ Hex). pose proof (ex_count _ _ _ _ _ _ _ _ Hex) as Hc. unfold user_cost, kernel_cost.
  destruct (copy_kind kb ub e) as [[]| |]; [..|done].
  - pose proof (tk_user _ _ _ _ _ Hmid). pose proof (tk_kernel _ _ _ _ _ Hmid). simpl in *. lia.
  - pose proof (tk_user _ _ _ _ _ Hmid). pose proof (tk_kernel _ _ _ _ _ Hmid). simpl in *. lia.
  - destruct Hmid as [-> _]. lia.
Qed.

Lemma only_mid i : page_ref s1m i = 1 -> page_ref s1 i = 1 \/ exists fk, copy_kind kb ub e = Dup fk /\ i = page_index p.
Proof.
  intros Hi. destruct (copy_kind kb ub e) as [fk| |]; [|left; by destruct Hmid as [-> _]|done].
  destruct (decide (i = page_index p)) as [|Hne]; [eauto|]. left. by rewrite (tk_refs _ _ _ _ _ Hmid) in Hi.
Qed.

Lemma copied_next : copied kb ub s dst (L ++ [(x, e)]) fr' s2 D2.
Proof.
  destruct step_counts as [Hu Hk]. split.
  - apply Hex.
  - apply Hex.
  - intros i l [[q Hq]|]%(ex_low _ _ _ _ _ _ _ _ Hex); [|done]. apply (cp_low _ _ _ _ _ _ _ _ Hcp i []). by exists q.
  - intros path q [Hq|[Hb Hr]]%(ex_new _ _ _ _ _ _ _ _ Hex); [by eapply (cp_new _ _ _ _ _ _ _ _ Hcp)|].
    split; [done|]. by apply mid_unref.
  - intros i Hi. by apply step_ref, (cp_ref _ _ _ _ _ _ _ _ Hcp).
  - intros i [Hi|?]%(ex_only _ _ _ _ _ _ _ _ Hex); [|by right; left].
    destruct (only_mid i Hi) as [[?|[(path & q & Hq & <-)|(y & e' & fk & Hy & Hk' & <-)]]%(cp_only _ _ _ _ _ _ _ _ Hcp)|(fk & Hk' & ->)].
    + by left.
    + right. left. exists path, q. split; [|done]. eapply lookup_weaken; [done|apply Hex].
    + right. right. exists y, e', fk. rewrite (old_frame y e' fk) by done. set_solver.
    + right. right. exists x, e, fk. rewrite upd_eq. set_solver.
  - apply step_mem.
  - apply step_frame.
  - apply step_inj.
  - apply step_map.
  - intros va Hr Hn. rewrite Htr by done. destruct (in_range _ _ _) eqn:E.
    + apply in_range_true in E. by destruct (Hn x e ltac:(set_solver)).
    + apply (cp_none _ _ _ _ _ _ _ _ Hcp); [done|]. intros y e' Hy. apply (Hn y e'). set_solver.
  - rewrite total_app, total_single, Hu, (cp_user _ _ _ _ _ _ _ _ Hcp). lia.
  - pose proof (cp_kernel _ _ _ _ _ _ _ _ Hcp). rewrite total_app, total_single. lia.
Qed.
End step.

Section copy.
Context {kb ub : RegionBounds}.
Local Abbreviation copied := (copied kb ub).

Lemma copied_start s dst s1 : pmem_inv kb ub s -> alloc_post kb ub true s dst s1 ->
  copied s dst [] (fun _ => 0) s1 {[ [] := dst ]}.
Proof.
  intros Hinv Hpost. pose proof (fresh_table_wf _ _ _ _ _ Hinv Hpost) as Hwf.
  pose proof Hpost as [Hin Hfr Hus Hrefs Hz Hmem Hc Ho Hinv1]. split; [done|done|..].
  - by intros i l [q [? _]%lookup_singleton_Some].
  - by intros path p [<- <-]%lookup_singleton_Some.
  - intros i Hi. rewrite Hrefs; [done|]. intros ->. lia.
  - intros i Hi. destruct (decide (i = page_index dst)) as [->|Hne]; [|by rewrite Hrefs in Hi; auto].
    right. left. exists [], dst. by rewrite lookup_singleton_eq.
  - intros q w Hq Hw. apply Hmem. intros Hw'. assert (q = dst) as ->.
    { apply (page_unique _ _ w); [apply Hq|apply Hin|done|done]. }
    destruct Hq as (_ & _ & Hq). rewrite (Hq true Hin) in Hfr. done.
  - by intros x e fk ?%not_elem_of_nil.
  - by intros x e fk x' e' fk' ?%not_elem_of_nil.
  - by intros x e va ?%not_elem_of_nil.
  - intros va _ _. unfold trans, leaf_ref. by rewrite lookup_singleton_ne.
  - simpl negb in Ho. rewrite Ho. change (total (user_cost kb ub) []) with 0. lia.
  - change (total (kernel_cost kb ub) []) with 0. lia.
Qed.

(** A leaf that is left out: nothing happens. *)
Lemma copied_skip s dst L fr s1 D x e : copied s dst L fr s1 D -> copy_kind kb ub e = Skip ->
  (forall y e', (y, e') ∈ L -> y <> x) ->
  Forall (fun ye => ye.1 mod PGSIZE = 0 /\ 0 <= ye.1 /\ ye.1 + PGSIZE <= VA_MAX) (L ++ [(x, e)]) ->
  copied s dst (L ++ [(x, e)]) fr s1 D.
Proof.
  intros [Hi Hw Hlo Hn Hr Ho Hm Hf Hj Hmap Hnone Hu Hk] Hkind Hnew Hva.
  assert (Hin : forall y e' fk, (y, e') ∈ L ++ [(x, e)] -> copy_kind kb ub e' = Dup fk -> (y, e') ∈ L).
  { intros y e' fk [?|[= -> ->]%list_elem_of_singleton]%elem_of_app Hd; [done|congruence]. }
  split; try done.
  - intros i [?|[?|(y & e' & fk & ? & ? & ?)]]%Ho; [auto|auto|]. right. right. exists y, e', fk. set_solver.
  - intros y e' fk Hy Hd. apply Hf; eauto.
  - intros y e' fk y' e'' fk' Hy Hd Hy' Hd'. eapply Hj; eauto.
  - intros y e' va [Hy|[= -> ->]%list_elem_of_singleton]%elem_of_app Hva'; [by apply Hmap|].
    unfold copied_pte. rewrite Hkind. rewrite Forall_forall in Hva.
    pose proof (Hva (x, e) ltac:(set_solver)) as (Hxa & Hx0 & Hxm). simpl in *. apply Hnone; [lia|].
    intros y e' Hy Hr'. apply (Hnew y e' Hy). pose proof (Hva (y, e') ltac:(set_solver)) as (Hya & _). simpl in *.
    by apply (page_unique _ _ va).
  - intros va Hv Hnot. apply Hnone; [done|]. intros y e' Hy. apply (Hnot y e'). set_solver.
  - rewrite total_app, total_single. unfold user_cost at 2. rewrite Hkind. lia.
  - rewrite total_app, total_single. unfold kernel_cost at 2. rewrite Hkind. lia.
Qed.

Lemma dup_frame e fk : copy_kind kb ub e = Dup fk -> in_bounds (pick fk kb ub) (pte_to_pa e).
Proof.
  unfold copy_kind. intros Hk. apply pool_of_bounds; [apply pte_to_pa_aligned|].
  destruct (negb _); [|destruct (negb _); [done|]]; destruct (pool_of _ _ _) as [[]|]; congruence.
Qed.

(** The branches of [copy_leaf] are those of [copy_kind]. *)
Lemma copy_leaf_kind dst x e s1 : pmem_inv kb ub s1 -> copy_leaf dst x e s1 =
  match copy_kind kb ub e with
  | Dup fk =>
      (new_pa ← pmem_alloc fk;
       if new_pa =? 0 then mret (Some NoMem)
       else
         copy_page (pte_to_pa e) new_pa;;
         ok ← pt_map dst x new_pa PGSIZE (get_flags e);
         mret (if ok : bool then None else Some MapFailed)) s1
  | Share => (ok ← pt_map dst x (pte_to_pa e) PGSIZE (get_flags e); mret (if ok : bool then None else Some MapFailed)) s1
  | Skip => Ret None s1
  end.
Proof.
  intros Hinv. unfold copy_leaf, copy_kind. destruct (negb _); [|destruct (negb _); [done|]];
    rewrite (bind_run _ _ _ _ _ (get_pool_of s1 (pte_to_pa e) Hinv)); by destruct (pool_of _ _ _) as [[]|].
Qed.

(** The frame that is duplicated, in the state its copy is made. *)
Lemma dup_source s dst L fr s1 D fk e p sa o : layout_ok kb ub -> copied s dst L fr s1 D -> copy_kind kb ub e = Dup fk ->
  page_ref s (page_index (pte_to_pa e)) = 1 -> alloc_post kb ub fk s1 p sa -> 0 <= o < PGSIZE ->
  mem sa (pte_to_pa e + o) = mem s (pte_to_pa e + o).
Proof.
  intros HL Hcp Hk Hr Hpost Ho. pose proof (dup_frame e fk Hk) as Hsrc.
  assert (Hw : in_page (pte_to_pa e) (pte_to_pa e + o)) by (unfold in_page; lia).
  rewrite (ap_mem _ _ _ _ Hpost); [eapply (cp_mem _ _ _ _ _ _ _ _ Hcp); [by eapply (pool_owned fk)|done]|].
  intros Hw'. assert (Heq : pte_to_pa e = p).
  { apply (page_unique _ _ (pte_to_pa e + o)); [apply Hsrc|apply (ap_in _ _ _ _ Hpost)|done|done]. }
  apply (cp_ref _ _ _ _ _ _ _ _ Hcp) in Hr. rewrite Heq, (ap_fresh _ _ _ _ Hpost) in Hr. done.
Qed.

Lemma wp_copy_leaf s dst L fr s1 D x e : pmem_inv kb ub s -> copied s dst L fr s1 D -> leaf_ok kb ub s e ->
  (forall y e', (y, e') ∈ L -> y <> x) ->
  Forall (fun ye => ye.1 mod PGSIZE = 0 /\ 0 <= ye.1 /\ ye.1 + PGSIZE <= VA_MAX) (L ++ [(x, e)]) ->
  kernel_cost kb ub e <= allocable (inner (region true s1)) -> user_cost kb ub e <= allocable (inner (region false s1)) ->
  wp (copy_leaf dst x e) (fun o s2 => o = None /\ exists fr' D', copied s dst (L ++ [(x, e)]) fr' s2 D') s1.
Proof.
  intros Hinv Hcp Hok Hnew Hva Hkc Huc. pose proof (cp_inv _ _ _ _ _ _ _ _ Hcp) as Hinv1. pose proof (pi_layout _ _ _ Hinv) as HL.
  unfold wp at 1. rewrite copy_leaf_kind by done.
  pose proof (proj1 (Forall_forall _ _) Hva (x, e) ltac:(set_solver)) as (Hxa & Hx0 & Hxm). simpl in Hxa, Hx0, Hxm.
  assert (Hnone : forall va, x <= va < x + PGSIZE -> trans s1 D va = None).
  { intros va Hv. apply (cp_none _ _ _ _ _ _ _ _ Hcp); [lia|]. intros y e' Hy Hr. apply (Hnew y e' Hy).
    rewrite Forall_forall in Hva. pose proof (Hva (y, e') ltac:(set_solver)) as (Hya & _). by apply (page_unique _ _ va). }
  unfold leaf_ok, kernel_cost, user_cost in *. destruct (copy_kind kb ub e) as [fk| |] eqn:Hk.
  - match goal with |- match ?m s1 with _ => _ end => change (wp m (fun o s2 => o = None /\ exists fr' D', copied s dst (L ++ [(x, e)]) fr' s2 D') s1) end.
    wp_step. eapply wp_mono; [|apply (wp_pmem_alloc (kb := kb) (ub := ub) s1 fk Hinv1); destruct fk; lia].
    intros p sa Hpost. destruct (pool_frame_range fk p HL (ap_in _ _ _ _ Hpost)) as [Hp Hpal].
    rewrite (proj2 (Z.eqb_neq p 0)) by lia. unfold copy_page. do 3 wp_step.
    pose proof (dup_frame e fk Hk) as Hsrc.
    assert (Htk : taken_post (kb := kb) (ub := ub) fk (fun o => mem s (pte_to_pa e + o)) s1 p
      (set_mem (copy_range (mem sa) (pte_to_pa e) p PGSIZE) sa)).
    { apply alloc_taken; [done| |]; intros w Hw; [|by apply copy_range_out].
      rewrite copy_range_in by done. replace (w - p + pte_to_pa e) with (pte_to_pa e + (w - p)) by lia.
      eapply (dup_source s dst L fr s1 D fk e p sa); eauto. unfold in_page in Hw. lia. }
    eapply wp_mono; [|apply (wp_map_taken fk (get_flags e) _ s1 D p _ x Htk HL (cp_wf _ _ _ _ _ _ _ _ Hcp)); try done].
    + intros ok s2 [-> (D2 & Hex & Htr)]. wp_step. split; [done|]. exists (upd fr x p), D2.
      eapply copied_next; try done. by rewrite Hk.
    + rewrite (tk_kernel _ _ _ _ _ Htk). destruct fk; lia.
  - match goal with |- match ?m s1 with _ => _ end => change (wp m (fun o s2 => o = None /\ exists fr' D', copied s dst (L ++ [(x, e)]) fr' s2 D') s1) end.
    pose proof (pte_to_pa_range e).
    wp_step. eapply wp_mono; [|apply (wp_map_page (get_flags e) s1 D (pte_to_pa e) x Hinv1 (cp_wf _ _ _ _ _ _ _ _ Hcp)); try done; [lia|apply pte_to_pa_aligned]].
    intros ok s2 [-> (D2 & Hex & Htr)]. wp_step. split; [done|]. exists (upd fr x (pte_to_pa e)), D2.
    eapply copied_next; try done. by rewrite Hk.
  - split; [done|]. exists fr, D. by apply copied_skip.
Qed.
End copy.

(** ** The addresses of the leaves *)

Lemma lor_add a b n : 0 <= n -> 0 <= b < 2 ^ n -> Z.lor (Z.shiftl a n) b = a * 2 ^ n + b.
Proof.
  intros Hn Hb. rewrite <-Z.shiftl_mul_pow2 by done. rewrite <-Z.add_lor_land.
  assert (Z.land (Z.shiftl a n) b = 0) as ->; [|lia]. apply Z.bits_inj'. intros i Hi. rewrite Z.land_spec, Z.bits_0.
  destruct (Z.ltb_spec i n); [by rewrite Z.shiftl_spec_low|]. by rewrite (testbit_high b n), andb_false_r.
Qed.

Lemma copy_va_eq i j k : 0 <= i < PGNUM / 2 -> 0 <= j < PGNUM -> 0 <= k < PGNUM ->
  copy_va i j k = (i * 2 ^ 18 + j * 2 ^ 9 + k) * PGSIZE.
Proof.
  change (PGNUM / 2) with 256. change PGNUM with 512. intros Hi Hj Hk. unfold copy_va.
  rewrite <-Z.lor_assoc, (Z.shiftl_mul_pow2 k) by lia. rewrite (lor_add j), lor_add by lia.
  set (v := i * 2 ^ 30 + _). assert (Hv : 0 <= v < 2 ^ 38) by (unfold v; lia).
  assert (Z.land (Z.shiftr v 38) 1 = 0) as ->.
  { rewrite Z.shiftr_div_pow2, Z.div_small by lia. done. }
  simpl (0 =? 1). cbv iota. change (Z.shiftl 1 39 - 1) with (Z.ones 39). rewrite land_low, Z.mod_small by lia.
  unfold v, PGSIZE. lia.
Qed.

Lemma vpn_copy_va i j k : 0 <= i < PGNUM / 2 -> 0 <= j < PGNUM -> 0 <= k < PGNUM ->
  vpn (copy_va i j k) 2 = i /\ vpn (copy_va i j k) 1 = j /\ vpn (copy_va i j k) 0 = k.
Proof.
  intros Hi Hj Hk. rewrite !vpn_eq, copy_va_eq by lia. change (PGNUM / 2) with 256 in Hi. change PGNUM with 512 in *. unfold PGSIZE.
  change (2 ^ (12 + 9 * 2)) with (262144 * 4096). change (2 ^ (12 + 9 * 1)) with (512 * 4096). change (2 ^ (12 + 9 * 0)) with 4096.
  rewrite !Z.div_mul_cancel_r, Z.div_mul by lia. Z.to_euclidean_division_equations; lia.
Qed.

Lemma copy_va_inj i j k i' j' k' : 0 <= i < PGNUM / 2 -> 0 <= j < PGNUM -> 0 <= k < PGNUM ->
  0 <= i' < PGNUM / 2 -> 0 <= j' < PGNUM -> 0 <= k' < PGNUM -> copy_va i j k = copy_va i' j' k' -> i = i' /\ j = j' /\ k = k'.
Proof.
  intros Hi Hj Hk Hi' Hj' Hk' Heq. destruct (vpn_copy_va i j k) as (H2 & H1 & H0); [done..|].
  destruct (vpn_copy_va i' j' k') as (H2' & H1' & H0'); [done..|]. rewrite Heq in *. by split_and!; congruence.
Qed.

Lemma copy_va_vpn x : 0 <= x < VA_MAX -> x mod PGSIZE = 0 -> copy_va (vpn x 2) (vpn x 1) (vpn x 0) = x.
Proof.
  intros Hx Hal. rewrite copy_va_eq, <-vpn_split; [|done|..|apply vpn_range; lia|apply vpn_range; lia].
  - unfold PGSIZE in *. Z.to_euclidean_division_equations; lia.
  - split; [apply vpn_range; lia|by apply vpn_low].
Qed.

Section leaves.
Context {kb ub : RegionBounds} {s : pmem} {root : Z} {T : gmap (list Z) Z}.
Context (Hwf : pt_wf kb ub s root T) (Hlow : forall i l, is_Some (T !! (i :: l)) -> i < PGNUM / 2).

(** Following an entry of a table, as the loops of [copy] do. *)
Lemma follow_entry {A} (f : Z -> A) d path p i : T !! path = Some p -> (length path < 2)%nat -> 0 <= i < PGNUM ->
  (let e := mem s (entry p i) in if negb (is_valid e) || negb (is_table e) then d else if pte_to_pa e =? 0 then d else f (pte_to_pa e)) =
  match T !! (path ++ [i]) with Some c => f c | None => d end.
Proof.
  intros Hp Hlen Hi. pose proof (wf_entry _ _ _ _ _ Hwf path p i Hp Hlen Hi) as He. cbv zeta. unfold is_table.
  destruct (is_valid _); [|by rewrite He]. destruct He as [-> He]. rewrite He. cbn [negb andb orb].
  destruct (wf_owned _ _ _ _ _ Hwf _ _ He) as (_ & ? & _). by rewrite (proj2 (Z.eqb_neq _ _)) by lia.
Qed.

Definition leaf_entry (i j k l0 e : Z) : Prop :=
  T !! [i; j] = Some l0 /\ 0 <= k < PGNUM /\ mem s (entry l0 k) = e /\ is_valid e = true /\ is_leaf e = true.

Lemma path_bounds i j l0 : T !! [i; j] = Some l0 -> 0 <= i < PGNUM / 2 /\ 0 <= j < PGNUM.
Proof.
  intros H. destruct (wf_path _ _ _ _ _ Hwf _ _ H) as [_ Hb]. rewrite !Forall_cons in Hb.
  specialize (Hlow i [j] ltac:(by rewrite H)). lia.
Qed.

Lemma elem_of_leaves0 i j l0 x e : T !! [i; j] = Some l0 ->
  (x, e) ∈ leaves0 (mem s) i j l0 <-> exists k, x = copy_va i j k /\ leaf_entry i j k l0 e.
Proof.
  intros Hl. unfold leaves0. rewrite list_elem_of_bind. split.
  - intros (k & Hx & Hk%elem_of_range). destruct (is_valid _) eqn:Hv, (is_leaf _) eqn:Hf; cbn [negb orb] in Hx;
      try by apply not_elem_of_nil in Hx. apply list_elem_of_singleton in Hx as [= -> ->]. by exists k.
  - intros (k & -> & _ & Hk & <- & Hv & Hf). exists k. rewrite Hv, Hf. cbn [negb orb]. split; [by left|by apply elem_of_range].
Qed.

Lemma elem_of_leaves1 i l1 x e : T !! [i] = Some l1 ->
  (x, e) ∈ leaves1 (mem s) i l1 <-> exists j k l0, x = copy_va i j k /\ leaf_entry i j k l0 e.
Proof.
  intros Hl. unfold leaves1. rewrite list_elem_of_bind. split.
  - intros (j & Hx & Hj%elem_of_range). rewrite (follow_entry (leaves0 (mem s) i j) [] [i]) in Hx by (done || simpl; lia).
    cbn [app] in Hx. destruct (T !! [i; j]) as [l0|] eqn:H0; [|by apply not_elem_of_nil in Hx].
    apply elem_of_leaves0 in Hx as (k & Hk); [|done]. by exists j, k, l0.
  - intros (j & k & l0 & -> & Hk). pose proof (proj1 Hk) as H0. pose proof (path_bounds _ _ _ H0) as [_ Hj].
    exists j. split; [|by apply elem_of_range]. rewrite (follow_entry (leaves0 (mem s) i j) [] [i]) by (done || simpl; lia).
    cbn [app]. rewrite H0. apply elem_of_leaves0; [done|]. by exists k.
Qed.

Lemma elem_of_leaves2 x e :
  (x, e) ∈ leaves2 (mem s) root <-> exists i j k l0, x = copy_va i j k /\ leaf_entry i j k l0 e.
Proof.
  pose proof (wf_root _ _ _ _ _ Hwf) as Hr. unfold leaves2. rewrite list_elem_of_bind. split.
  - intros (i & Hx & Hi%elem_of_range). rewrite (follow_entry (leaves1 (mem s) i) [] []) in Hx by (done || simpl; lia).
    cbn [app] in Hx. destruct (T !! [i]) as [l1|] eqn:H0; [|by apply not_elem_of_nil in Hx].
    apply elem_of_leaves1 in Hx as (j & k & l0 & Hk); [|done]. by exists i, j, k, l0.
  - intros (i & j & k & l0 & -> & Hk). pose proof (proj1 Hk) as H0. pose proof (path_bounds _ _ _ H0) as [Hi _].
    exists i. change PGNUM with 512 in *. change (512 / 2) with 256 in Hi. split; [|apply elem_of_range; lia].
    rewrite (follow_entry (leaves1 (mem s) i) [] []) by (done || simpl; change PGNUM with 512; lia).
    cbn [app]. destruct (wf_prefix _ _ _ _ _ Hwf [i] j) as [l1 H1]; [by exists l0|]. rewrite H1.
    apply elem_of_leaves1; [done|]. by exists j, k, l0.
Qed.

(** The leaves are the translations of the page-aligned addresses. *)
Lemma leaves_trans x e : (x, e) ∈ leaves2 (mem s) root <->
  0 <= x < VA_MAX /\ x mod PGSIZE = 0 /\ trans s T x = Some e /\ is_leaf e = true.
Proof.
  rewrite elem_of_leaves2. unfold trans, leaf_ref. split.
  - intros (i & j & k & l0 & -> & H0 & Hk & <- & Hv & Hl). pose proof (path_bounds _ _ _ H0) as [Hi Hj].
    destruct (vpn_copy_va i j k Hi Hj Hk) as (-> & -> & ->). rewrite H0. simpl. rewrite Hv. rewrite copy_va_eq by done.
    split; [|split; [by rewrite Z.mod_mul|done]]. change (PGNUM / 2) with 256 in Hi. change PGNUM with 512 in *.
    change VA_MAX with (67108864 * 4096). unfold PGSIZE. lia.
  - intros (Hx & Hal & Htr & Hl). destruct (T !! [vpn x 2; vpn x 1]) as [l0|] eqn:H0; [|done]. simpl in Htr.
    destruct (is_valid _) eqn:Hv; [|done]. injection Htr as Htr.
    exists (vpn x 2), (vpn x 1), (vpn x 0), l0. rewrite copy_va_vpn by done. split; [done|]. unfold leaf_entry.
    rewrite Htr in Hv. split_and!; try done; apply vpn_range; lia.
Qed.

Lemma leaf_entry_inj i j k l0 e i' j' k' l0' e' : leaf_entry i j k l0 e -> leaf_entry i' j' k' l0' e' ->
  copy_va i j k = copy_va i' j' k' -> i = i' /\ j = j' /\ k = k' /\ e = e'.
Proof.
  intros (H0 & Hk & He & _) (H0' & Hk' & He' & _) Heq. pose proof (path_bounds _ _ _ H0) as [Hi Hj].
  pose proof (path_bounds _ _ _ H0') as [Hi' Hj']. apply copy_va_inj in Heq as (<- & <- & <-); try done.
  replace l0' with l0 in * by congruence. by split_and!; congruence.
Qed.

Lemma NoDup_leaves : NoDup (leaves2 (mem s) root).*1.
Proof.
  pose proof (wf_root _ _ _ _ _ Hwf) as Hr. apply NoDup_fmap_2_strong.
  { intros [x e] [x' e'] (i & j & k & l0 & -> & H)%elem_of_leaves2 (i' & j' & k' & l0' & -> & H')%elem_of_leaves2 Heq.
    destruct (leaf_entry_inj _ _ _ _ _ _ _ _ _ _ H H' Heq) as (_ & _ & _ & ->). simpl in Heq. by rewrite Heq. }
  unfold leaves2. apply NoDup_bind; [| |apply NoDup_range].
  - intros i i' [x e] Hi%elem_of_range Hi'%elem_of_range. rewrite !(follow_entry (leaves1 (mem s) _) [] [] root) by (done || simpl; lia).
    cbn [app]. destruct (T !! [i]) eqn:H1; [|by intros ?%not_elem_of_nil]. destruct (T !! [i']) eqn:H1'; [|by intros _ ?%not_elem_of_nil].
    intros (j & k & l0 & -> & H)%elem_of_leaves1 (j' & k' & l0' & Heq & H')%elem_of_leaves1; [|done..].
    exact (proj1 (leaf_entry_inj _ _ _ _ _ _ _ _ _ _ H H' Heq)).
  - intros i Hi%elem_of_range. rewrite (follow_entry (leaves1 (mem s) i) [] [] root) by (done || simpl; lia). cbn [app].
    destruct (T !! [i]) as [l1|] eqn:H1; [|apply NoDup_nil_2]. apply NoDup_bind; [| |apply NoDup_range].
    + intros j j' [x e] Hj%elem_of_range Hj'%elem_of_range. rewrite !(follow_entry (leaves0 (mem s) i _) [] [i] l1) by (done || simpl; lia).
      cbn [app]. destruct (T !! [i; j]) eqn:H2; [|by intros ?%not_elem_of_nil]. destruct (T !! [i; j']) eqn:H2'; [|by intros _ ?%not_elem_of_nil].
      intros (k & -> & H)%elem_of_leaves0 (k' & Heq & H')%elem_of_leaves0; [|done..].
      exact (proj1 (proj2 (leaf_entry_inj _ _ _ _ _ _ _ _ _ _ H H' Heq))).
    + intros j Hj%elem_of_range. rewrite (follow_entry (leaves0 (mem s) i j) [] [i] l1) by (done || simpl; lia). cbn [app].
      destruct (T !! [i; j]) as [l0|] eqn:H2; [|apply NoDup_nil_2]. apply NoDup_bind; [| |apply NoDup_range].
      * intros k k' [x e] Hk%elem_of_range Hk'%elem_of_range. cbv zeta.
        case_match; [by intros ?%not_elem_of_nil|]. case_match; [by intros _ ?%not_elem_of_nil|].
        intros [= -> _]%list_elem_of_singleton [= Heq _]%list_elem_of_singleton. pose proof (path_bounds _ _ _ H2) as [Hi' Hj'].
        by eapply (copy_va_inj i j k i j k').
      * intros k Hk. cbv zeta. repeat case_match; apply NoDup_nil_2 || apply NoDup_singleton.
Qed.
End leaves.

(** ** The three loops *)

(** Zeroing a page the allocator has just zeroed. *)
Lemma alloc_post_zeroed kb ub fk s p s1 : alloc_post kb ub fk s p s1 ->
  alloc_post kb ub fk s p (set_mem (fill (mem s1) p PGSIZE 0) s1).
Proof.
  intros [Hin Hfr Hus Hrefs Hz Hmem Hc Ho Hinv]. split; rewrite ?region_set_mem; try done.
  - intros a Ha. by apply fill_in.
  - intros a Ha. simpl. rewrite fill_out by done. by apply Hmem.
  - apply pmem_inv_set_mem; [done|]. intros fk' q Hq Hr. apply fill_out. intros Hw.
    assert (q = p) as -> by (apply (page_unique _ _ q); [apply Hq|apply Hin|unfold in_page; page_lia|done]). lia.
Qed.

(** Enough pages for the whole copy. *)
Definition copy_room (kb ub : RegionBounds) (s : pmem) (L : list (Z * Z)) : Prop :=
  1 + total (kernel_cost kb ub) L <= allocable (inner (region true s)) /\
  total (user_cost kb ub) L <= allocable (inner (region false s)).

Lemma total_nonneg f L : (forall e, 0 <= f e) -> 0 <= total f L.
Proof. intros Hf. unfold total. induction L as [|[x e] L IH]; simpl; [lia|]. specialize (Hf e). lia. Qed.

Section loops.
Context {kb ub : RegionBounds} {s : pmem} {root : Z} {T : gmap (list Z) Z}.
Context (Hinv : pmem_inv kb ub s) (Hwf : pt_wf kb ub s root T).
Context (Hlow : forall i l, is_Some (T !! (i :: l)) -> i < PGNUM / 2).
Local Abbreviation L := (leaves2 (mem s) root).
Context (Hroom : copy_room kb ub s L) (Hok : forall x e, (x, e) ∈ L -> leaf_ok kb ub s e).

Definition copying (dst : Z) (dn : list (Z * Z)) (s1 : pmem) : Prop :=
  exists fr D, copied kb ub s dst dn fr s1 D.

Lemma leaves_va : Forall (fun ye => ye.1 mod PGSIZE = 0 /\ 0 <= ye.1 /\ ye.1 + PGSIZE <= VA_MAX) L.
Proof.
  apply Forall_forall. intros [x e] (Hx & Hal & _)%(leaves_trans Hwf Hlow). simpl. split_and!; [done|lia|].
  change VA_MAX with (67108864 * 4096) in *. unfold PGSIZE in *. Z.to_euclidean_division_equations; lia.
Qed.

Lemma prefix_costs dn x e : dn ++ [(x, e)] `prefix_of` L ->
  total (kernel_cost kb ub) dn + kernel_cost kb ub e <= total (kernel_cost kb ub) L /\
  total (user_cost kb ub) dn + user_cost kb ub e <= total (user_cost kb ub) L.
Proof.
  intros [rest Heq]. rewrite Heq, !total_app, !total_single.
  pose proof (total_nonneg (kernel_cost kb ub) rest ltac:(intros; unfold kernel_cost; repeat case_match; lia)).
  pose proof (total_nonneg (user_cost kb ub) rest ltac:(intros; unfold user_cost; repeat case_match; lia)). lia.
Qed.

Lemma wp_copy_next dst dn s1 x e : copying dst dn s1 -> dn ++ [(x, e)] `prefix_of` L ->
  wp (copy_leaf dst x e) (fun o s2 => o = None /\ copying dst (dn ++ [(x, e)]) s2) s1.
Proof.
  intros (fr & D & Hcp) Hpre. destruct (prefix_costs dn x e Hpre) as [Hk Hu]. destruct Hroom as [Hrk Hru].
  pose proof (NoDup_leaves Hwf Hlow) as Hnd. pose proof leaves_va as Hva.
  pose proof (cp_user _ _ _ _ _ _ _ _ Hcp). pose proof (cp_kernel _ _ _ _ _ _ _ _ Hcp).
  assert (Hin : (x, e) ∈ L) by (destruct Hpre as [rest ->]; set_solver).
  apply (wp_copy_leaf s dst dn fr s1 D x e Hinv Hcp); [by eapply Hok| | |lia|lia].
  - destruct Hpre as [rest Heq]. rewrite Heq, fmap_app in Hnd. apply NoDup_app in Hnd as (Hnd & _ & _).
    rewrite fmap_app in Hnd. apply NoDup_app in Hnd as (_ & Hd & _). intros y e' Hy ->. apply (Hd x); [|left].
    apply list_elem_of_fmap. by exists (x, e').
  - destruct Hpre as [rest Heq]. rewrite Heq in Hva. by apply Forall_app in Hva as [? _].
Qed.

(** Tables of the source read the same while the copy is made. *)
Lemma source_entry dst dn s1 path p i : copying dst dn s1 -> T !! path = Some p -> 0 <= i < PGNUM -> mem s1 (entry p i) = mem s (entry p i).
Proof.
  intros (fr & D & Hcp) Hp Hi. apply (cp_mem _ _ _ _ _ _ _ _ Hcp p); [by eapply (wf_owned _ _ _ _ _ Hwf)|by apply entry_in_page].
Qed.

Lemma wp_copy_l0 dst dn s1 i j l0 : copying dst dn s1 -> T !! [i; j] = Some l0 -> dn ++ leaves0 (mem s) i j l0 `prefix_of` L ->
  wp (copy_l0 dst i j l0) (fun r s2 => r = inl tt /\ copying dst (dn ++ leaves0 (mem s) i j l0) s2) s1.
Proof.
  intros Hc Hl Hpre. apply (wp_for_each_flat _ L (copying dst)); [|done|done].
  intros dn' k s2 Hk%elem_of_range Hc' Hpre'. wp_steps. rewrite (source_entry dst dn' s2 [i; j]) by done.
  cbv zeta in Hpre' |- *. destruct (_ || _); [apply wp_ret; by rewrite app_nil_r|].
  wp_step. eapply wp_mono; [|by apply wp_copy_next]. by intros o s3 [-> ?].
Qed.

(** A level above: [g] gives the leaves below each entry that leads on. *)
Lemma wp_copy_level dst dn s1 path p (g : Z -> Z -> list (Z * Z)) next :
  copying dst dn s1 -> T !! path = Some p -> (length path < 2)%nat ->
  dn ++ (range 0 PGNUM ≫= fun i => let e := mem s (entry p i) in
    if negb (is_valid e) || negb (is_table e) then [] else if pte_to_pa e =? 0 then [] else g i (pte_to_pa e)) `prefix_of` L ->
  (forall dn' i c s2, copying dst dn' s2 -> T !! (path ++ [i]) = Some c -> dn' ++ g i c `prefix_of` L ->
     wp (next i c) (fun r s3 => r = inl tt /\ copying dst (dn' ++ g i c) s3) s2) ->
  wp (copy_level p next) (fun r s2 => r = inl tt /\ copying dst (dn ++ (range 0 PGNUM ≫= fun i => let e := mem s (entry p i) in
    if negb (is_valid e) || negb (is_table e) then [] else if pte_to_pa e =? 0 then [] else g i (pte_to_pa e))) s2) s1.
Proof.
  intros Hc Hp Hlen Hpre Hnext. apply (wp_for_each_flat _ L (copying dst)); [|done|done].
  intros dn' i s2 Hi%elem_of_range Hc' Hpre'. wp_steps. rewrite (source_entry dst dn' s2 path) by done.
  rewrite (follow_entry Hwf (g i) [] path p) in Hpre' |- * by done.
  pose proof (follow_entry Hwf (next i) (mret (inl tt)) path p i Hp Hlen Hi) as Hf. cbv zeta in Hf. rewrite Hf.
  destruct (T !! (path ++ [i])) as [c|] eqn:H0; [by apply Hnext|]. apply wp_ret. by rewrite app_nil_r.
Qed.

Lemma wp_copy_loops dst s1 : copying dst [] s1 ->
  wp (copy_level root (fun i l1_pa => copy_level l1_pa (fun j l0_pa => copy_l0 dst i j l0_pa)))
    (fun r s2 => r = inl tt /\ copying dst L s2) s1.
Proof.
  intros Hc. apply (wp_copy_level dst [] s1 [] root (leaves1 (mem s))); [done|apply Hwf|simpl; lia|done|].
  intros dn' i l1 s2 Hc' Hl1 Hpre. apply (wp_copy_level dst dn' s2 [i] l1 (leaves0 (mem s) i)); [done|done|simpl; lia|done|].
  intros dn2 j l0 s3 Hc2 Hl0 Hpre2. by apply wp_copy_l0.
Qed.

Lemma wp_pt_copy : wp (pt_copy root) (fun r s' => exists dst fr D, r = Ok dst /\ copied kb ub s dst L fr s' D) s.
Proof.
  unfold pt_copy. wp_step. destruct Hroom as [Hk _].
  assert (0 <= total (kernel_cost kb ub) L) by (apply total_nonneg; intros; unfold kernel_cost; repeat case_match; lia).
  eapply wp_mono; [|apply (wp_pmem_alloc (kb := kb) (ub := ub) s true Hinv); lia].
  intros dst s1 Hpost. destruct (pool_frame_range true dst (pi_layout _ _ _ Hinv) (ap_in _ _ _ _ Hpost)) as [Hp _].
  rewrite (proj2 (Z.eqb_neq dst 0)) by lia. do 4 wp_step.
  eapply wp_mono; [|apply (wp_copy_loops dst)].
  - intros r s2 [-> (fr & D & Hcp)]. wp_step. by exists dst, fr, D.
  - eexists _, _. apply copied_start; [done|]. by apply alloc_post_zeroed.
Qed.
End loops.

(** ** The copy as an address space *)

(** The copy seen through addresses: page number [n] of a duplicated leaf has
    the frame [fr n]. *)
Record space_copied (kb ub : RegionBounds) (s : pmem) (T : gmap (list Z) Z) (dst : Z) (fr : Z -> Z)
  (s' : pmem) (D : gmap (list Z) Z) : Prop := {
  sc_inv : pmem_inv kb ub s';
  sc_wf : pt_wf kb ub s' dst D;
  sc_trans : forall va, 0 <= va < VA_MAX ->
    trans s' D va = (e ← trans s T va; copied_pte kb ub (fr (va / PGSIZE)) e);
  sc_frame : forall va e fk, 0 <= va < VA_MAX -> trans s T va = Some e -> copy_kind kb ub e = Dup fk ->
    let p := fr (va / PGSIZE) in
    in_bounds (pick fk kb ub) p /\ page_ref s (page_index p) = 0 /\ page_ref s' (page_index p) = 1 /\
    forall o, 0 <= o < PGSIZE -> mem s' (p + o) = mem s (pte_to_pa e + o);
  sc_inj : forall va e fk va' e' fk', 0 <= va < VA_MAX -> trans s T va = Some e -> copy_kind kb ub e = Dup fk ->
    0 <= va' < VA_MAX -> trans s T va' = Some e' -> copy_kind kb ub e' = Dup fk' ->
    fr (va / PGSIZE) = fr (va' / PGSIZE) -> va / PGSIZE = va' / PGSIZE;
  sc_held : forall q w, owned kb ub s q -> in_page q w -> mem s' w = mem s w;
  sc_refs : forall i, page_ref s i = 1 -> page_ref s' i = 1;
  sc_only : forall i, page_ref s' i = 1 -> page_ref s i = 1 \/
    (exists path p, D !! path = Some p /\ page_index p = i) \/
    (exists va e fk, 0 <= va < VA_MAX /\ trans s T va = Some e /\ copy_kind kb ub e = Dup fk /\ page_index (fr (va / PGSIZE)) = i);
}.

(** What [copy] needs of the source: every page of it is mapped by a leaf
    that can be copied. *)
Definition copyable (kb ub : RegionBounds) (s : pmem) (T : gmap (list Z) Z) : Prop :=
  forall va e, 0 <= va < VA_MAX -> trans s T va = Some e -> is_leaf e = true /\ leaf_ok kb ub s e.

Section address_space.
Context {kb ub : RegionBounds} {s : pmem} {root : Z} {T : gmap (list Z) Z}.
Context (Hwf : pt_wf kb ub s root T) (Hlow : forall i l, is_Some (T !! (i :: l)) -> i < PGNUM / 2).
Context (Hcopy : copyable kb ub s T).
Local Abbreviation L := (leaves2 (mem s) root).

Lemma page_base va : 0 <= va < VA_MAX -> let x := va / PGSIZE * PGSIZE in
  0 <= x < VA_MAX /\ x mod PGSIZE = 0 /\ x <= va < x + PGSIZE /\ x / PGSIZE = va / PGSIZE.
Proof.
  change VA_MAX with (67108864 * 4096). unfold PGSIZE. intros Hva. cbv zeta. rewrite Z.div_mul, Z.mod_mul by lia.
  split_and!; try done; Z.to_euclidean_division_equations; lia.
Qed.

Lemma leaf_of_trans va e : 0 <= va < VA_MAX -> trans s T va = Some e -> (va / PGSIZE * PGSIZE, e) ∈ L.
Proof.
  intros Hva He. destruct (page_base va Hva) as (Hx & Hal & _ & Hd). apply (leaves_trans Hwf Hlow).
  split; [done|]. split; [done|]. rewrite (trans_page s T _ va) by done. split; [done|]. exact (proj1 (Hcopy va e Hva He)).
Qed.

Lemma copied_space dst fr s' D : copied kb ub s dst L fr s' D -> space_copied kb ub s T dst (fun n => fr (n * PGSIZE)) s' D.
Proof.
  intros [Hi Hw Hlo Hn Hr Ho Hm Hf Hj Hmap Hnone _ _]. split; try done.
  - intros va Hva. destruct (page_base va Hva) as (Hx & Hal & Hin & Hd). destruct (trans s T va) as [e|] eqn:He; simpl.
    + apply Hmap; [by apply leaf_of_trans|done].
    + apply Hnone; [done|]. intros x e (Hx' & Hal' & Ht & _)%(leaves_trans Hwf Hlow) Hin'.
      apply (div_page_between x va Hal') in Hin'. rewrite (trans_page s T va x) in He by done. congruence.
  - intros va e fk Hva He Hk. destruct (Hf _ _ fk (leaf_of_trans va e Hva He) Hk) as (Hb & H0 & H1 & _ & Hc).
    cbv zeta. split_and!; try done. intros o Hoff. rewrite Hc by (unfold in_page; lia). f_equal. lia.
  - intros va e fk va' e' fk' Hva He Hk Hva' He' Hk' Heq.
    pose proof (Hj _ _ _ _ _ _ (leaf_of_trans va e Hva He) Hk (leaf_of_trans va' e' Hva' He') Hk' Heq) as H. unfold PGSIZE in *. lia.
  - intros i [?|[?|(x & e & fk & Hx & Hk & <-)]]%Ho; [auto|auto|]. right. right.
    apply (leaves_trans Hwf Hlow) in Hx as (Hx & Hal & He & _). exists x, e, fk. split_and!; try done; try lia.
    do 2 f_equal. unfold PGSIZE in *. Z.to_euclidean_division_equations; lia.
Qed.

(** *** The copy can be torn down *)

Section torn.
Context (dst : Z) (fr : Z -> Z) (s' : pmem) (D : gmap (list Z) Z).
Context (HL : layout_ok kb ub) (Hcp : copied kb ub s dst L fr s' D).
Context (Hshare : forall va e, 0 <= va < VA_MAX -> trans s T va = Some e -> copy_kind kb ub e = Share ->
  pool_of kb ub (pte_to_pa e) <> Some false).

(** A valid level-0 entry of the copy is the image of a leaf. *)
Lemma copy_entry i j t k : D !! [i; j] = Some t -> 0 <= k < PGNUM -> is_valid (mem s' (entry t k)) = true ->
  exists e, (copy_va i j k, e) ∈ L /\ copied_pte kb ub (fr (copy_va i j k)) e = Some (mem s' (entry t k)).
Proof.
  intros Ht Hk Hv. destruct (path_bounds (cp_wf _ _ _ _ _ _ _ _ Hcp) (cp_low _ _ _ _ _ _ _ _ Hcp) i j t Ht) as [Hi Hj].
  set (x := copy_va i j k). assert (Hx : 0 <= x < VA_MAX /\ x mod PGSIZE = 0).
  { unfold x. rewrite copy_va_eq by done. split; [|by rewrite Z.mod_mul]. change (PGNUM / 2) with 256 in Hi.
    change PGNUM with 512 in *. change VA_MAX with (67108864 * 4096). unfold PGSIZE. lia. }
  destruct Hx as [Hx Hal].
  assert (Htr : trans s' D x = Some (mem s' (entry t k))).
  { unfold trans, leaf_ref, x. destruct (vpn_copy_va i j k Hi Hj Hk) as (-> & -> & ->). rewrite Ht. simpl. by rewrite Hv. }
  rewrite (sc_trans _ _ _ _ _ _ _ _ (copied_space _ _ _ _ Hcp)) in Htr by done.
  destruct (trans s T x) as [e|] eqn:He; [|done]. simpl in Htr. exists e.
  assert (Hxx : x / PGSIZE * PGSIZE = x) by (unfold PGSIZE in *; Z.to_euclidean_division_equations; lia).
  pose proof (leaf_of_trans x e Hx He) as Hin. rewrite Hxx in *. done.
Qed.

Lemma pte_page f p : 0 <= p < 2 ^ 56 -> p mod PGSIZE = 0 -> pte_to_pa (page_pte f p) = p.
Proof. intros Hp Hal. unfold page_pte. rewrite pte_to_pa_pa_to_pte by done. unfold PGSIZE in *. Z.to_euclidean_division_equations; lia. Qed.

Lemma dup_frame_range x e fk : (x, e) ∈ L -> copy_kind kb ub e = Dup fk -> 0 <= fr x < 2 ^ 56 /\ fr x mod PGSIZE = 0.
Proof.
  intros Hx Hk. destruct (cp_frame _ _ _ _ _ _ _ _ Hcp x e fk Hx Hk) as (Hb & _).
  destruct (pool_frame_range fk _ HL Hb) as [? ?]. split; [lia|done].
Qed.

(** Its user frames are duplicates. *)
Lemma copy_user_leaf i j t k q : D !! [i; j] = Some t -> user_leaf kb ub s' t k q ->
  exists e, (copy_va i j k, e) ∈ L /\ copy_kind kb ub e = Dup false /\ q = fr (copy_va i j k).
Proof.
  intros Ht (Hk & Hv & -> & Hr). destruct (copy_entry i j t k Ht Hk Hv) as (e & Hin & He). exists e.
  set (x := copy_va i j k) in *. unfold copied_pte in He. destruct (copy_kind kb ub e) as [fk| |] eqn:Hkind; [| |done]; injection He as He; rewrite <-He in *.
  - destruct (dup_frame_range x e fk Hin Hkind) as [Hp Hal]. rewrite pte_page in * by done.
    destruct (cp_frame _ _ _ _ _ _ _ _ Hcp x e fk Hin Hkind) as (Hb & _). split; [done|].
    rewrite (bounds_pool_of (fr x) fk HL Hb) in Hr. injection Hr as ->. done.
  - exfalso. rewrite pte_page in Hr by (apply pte_to_pa_range || apply pte_to_pa_aligned).
    apply (leaves_trans Hwf Hlow) in Hin as (Hx & _ & Htr & _). by apply (Hshare x e).
Qed.

Lemma copy_space_ok : space_ok kb ub s' D.
Proof.
  split.
  - intros path p Hp. by apply (cp_new _ _ _ _ _ _ _ _ Hcp) in Hp as [? _].
  - intros i j t k Ht Hk Hv. destruct (copy_entry i j t k Ht Hk Hv) as (e & Hin & He).
    pose proof Hin as (_ & _ & _ & Hl)%(leaves_trans Hwf Hlow).
    assert (Hf : is_leaf (Z.lor (get_flags e) PTE_V) = true).
    { rewrite is_leaf_lor_V, get_flags_eq, <-is_leaf_flags. done. }
    unfold copied_pte in He. destruct (copy_kind kb ub e) as [fk| |] eqn:Hkind; [| |done]; injection He as He; rewrite <-He.
    + unfold page_pte. rewrite is_leaf_pa_to_pte; [done|].
      destruct (dup_frame_range (copy_va i j k) e fk) as [? _]; [done|done|lia].
    + unfold page_pte. rewrite is_leaf_pa_to_pte; [done|]. apply pte_to_pa_range.
  - intros i j t k q Ht (e & Hin & Hk & ->)%(copy_user_leaf i j); [|done]. by eapply (cp_frame _ _ _ _ _ _ _ _ Hcp).
  - intros i j t k i' j' t' k' q Ht Ht' Hu Hu'. pose proof (proj1 Hu) as Hk. pose proof (proj1 Hu') as Hk'.
    apply (copy_user_leaf i j) in Hu as (e & Hin & Hd & ->); [|done].
    apply (copy_user_leaf i' j') in Hu' as (e' & Hin' & Hd' & Heq); [|done].
    pose proof (cp_inj _ _ _ _ _ _ _ _ Hcp _ _ _ _ _ _ Hin Hd Hin' Hd' Heq) as Hx.
    pose proof (path_bounds (cp_wf _ _ _ _ _ _ _ _ Hcp) (cp_low _ _ _ _ _ _ _ _ Hcp)) as Hb.
    apply copy_va_inj in Hx as (-> & -> & ->); try (done || by eapply Hb). split; congruence.
Qed.

Lemma dup_space_page x e : (x, e) ∈ L -> copy_kind kb ub e = Dup false -> space_page kb ub s' D (fr x).
Proof.
  intros Hin Hk. pose proof Hin as (Hx & Hal & _)%(leaves_trans Hwf Hlow).
  pose proof (cp_map _ _ _ _ _ _ _ _ Hcp x e x Hin ltac:(page_lia)) as Htr. unfold copied_pte in Htr. rewrite Hk in Htr.
  unfold trans, leaf_ref in Htr. destruct (D !! [vpn x 2; vpn x 1]) as [t|] eqn:Ht; [|done]. simpl in Htr.
  destruct (is_valid _) eqn:Hv; [|done]. injection Htr as He. destruct (dup_frame_range x e false Hin Hk) as [Hp Hpal].
  destruct (cp_frame _ _ _ _ _ _ _ _ Hcp x e false Hin Hk) as (Hb & _).
  right. exists (vpn x 2), (vpn x 1), t, (vpn x 0). split; [done|]. split; [apply vpn_range; lia|]. split; [done|].
  rewrite He, pte_page by done. split; [done|]. by apply (bounds_pool_of _ false).
Qed.

(** Pages the copy holds were free before it. *)
Lemma copy_page_fresh q : space_page kb ub s' D q \/ q = dst -> page_ref s (page_index q) = 0.
Proof.
  intros [[(path & Hp & _)|(i & j & t & k & Ht & Hu)]| ->].
  - by apply (cp_new _ _ _ _ _ _ _ _ Hcp) in Hp as [_ ?].
  - apply (copy_user_leaf i j) in Hu as (e & Hin & Hk & ->); [|done]. by eapply (cp_frame _ _ _ _ _ _ _ _ Hcp).
  - by apply (cp_new _ _ _ _ _ _ _ _ Hcp [] dst), (wf_root _ _ _ _ _ (cp_wf _ _ _ _ _ _ _ _ Hcp)).
Qed.

(** A count the copy raised belongs to one of its pages or to a duplicated
    kernel page. *)
Lemma copy_page_only i : page_ref s' i = 1 -> page_ref s i = 1 \/
  (exists q, (space_page kb ub s' D q \/ q = dst) /\ page_index q = i) \/
  (exists x e, (x, e) ∈ L /\ copy_kind kb ub e = Dup true /\ page_index (fr x) = i).
Proof.
  intros [?|[(path & p & Hp & <-)|(x & e & [] & Hin & Hk & <-)]]%(cp_only _ _ _ _ _ _ _ _ Hcp); [by left| | |].
  - right. left. exists p. split; [|done]. destruct (decide (path = [])) as [->|Hne]; [|left; left; by exists path].
    right. pose proof (wf_root _ _ _ _ _ (cp_wf _ _ _ _ _ _ _ _ Hcp)). congruence.
  - right. right. by exists x, e.
  - right. left. exists (fr x). split; [|done]. left. by eapply dup_space_page.
Qed.
End torn.
End address_space.

(** The free pages of a pool are those of count zero. *)
Lemma allocable_refs kb ub s s' fk : pmem_inv kb ub s -> pmem_inv kb ub s' ->
  (forall p, in_bounds (pick fk kb ub) p -> page_ref s' (page_index p) = page_ref s (page_index p)) ->
  allocable (inner (region fk s')) = allocable (inner (region fk s)).
Proof.
  intros Hi Hi' Href. destruct (pi_region _ _ _ Hi fk) as [fl [_ _ Hnd Hc Hf]]. destruct (pi_region _ _ _ Hi' fk) as [fl' [_ _ Hnd' Hc' Hf']].
  rewrite Hc, Hc'. f_equal. apply Permutation_length, NoDup_Permutation; [done|done|].
  intros p. rewrite Hf, Hf'. split; intros [Hin Hr]; (split; [done|]); by rewrite Href in *.
Qed.

(** An address space given back: [F] lists its tables below the root and its
    user frames, each once, and exactly those pages were freed. *)
Definition space_freed (kb ub : RegionBounds) (s : pmem) (root : Z) (T : gmap (list Z) Z) (s' : pmem) : Prop :=
  exists F, NoDup F /\ (forall q, q ∈ F <-> space_page kb ub s T q) /\
    released kb ub s (in_page root) F s' /\ Z.of_nat (length (filter (in_bounds kb) F)) = Z.of_nat (size T) - 1 /\
    forall i, 0 <= i < PGNUM -> is_valid (mem s' (entry root i)) = false.

(** [fork]'s copy of an address space and what [Process::free] does with it
    when the child is reaped. *)
Definition copy_and_free (root : Z) : M pmem (option UvmError) :=
  r ← pt_copy root;
  match r with
  | Ok dst => pt_destroy dst;; PhysFrame_drop (mkFrame dst);; mret None
  | Err e => mret (Some e)
  end.

(** A page some client holds is none of the pages that were free. *)
Lemma owned_not_fresh kb ub s q q' w : owned kb ub s q -> in_bounds kb q' \/ in_bounds ub q' ->
  page_ref s (page_index q') = 0 -> in_page q w -> ~ in_page q' w.
Proof.
  intros (Hal & _ & Ho) Hb H0 Hw Hw'. assert (q = q') as ->.
  { apply (page_unique _ _ w); [done|by destruct Hb as [[]|[]]|done|done]. }
  destruct Hb as [Hb|Hb]; [rewrite (Ho true Hb) in H0|rewrite (Ho false Hb) in H0]; done.
Qed.

(** The kernel pages a copy duplicates. *)
Definition kernel_dup (kb ub : RegionBounds) (e : Z) : Z := match copy_kind kb ub e with Dup true => 1 | _ => 0 end.
Definition dup_pages (kb ub : RegionBounds) (fr : Z -> Z) (L : list (Z * Z)) : list Z :=
  L ≫= fun xe => match copy_kind kb ub xe.2 with Dup true => [fr xe.1] | _ => [] end.

Lemma elem_of_dup_pages kb ub fr L p : p ∈ dup_pages kb ub fr L <-> exists x e, (x, e) ∈ L /\ copy_kind kb ub e = Dup true /\ p = fr x.
Proof.
  unfold dup_pages. rewrite list_elem_of_bind. split.
  - intros ([x e] & Hp & Hin). simpl in Hp. destruct (copy_kind kb ub e) as [[]| |] eqn:Hk; try by apply not_elem_of_nil in Hp.
    exists x, e. by apply list_elem_of_singleton in Hp.
  - intros (x & e & Hin & Hk & ->). exists (x, e). simpl. rewrite Hk. split; [by left|done].
Qed.

Lemma length_dup_pages kb ub fr L : Z.of_nat (length (dup_pages kb ub fr L)) = total (kernel_dup kb ub) L.
Proof.
  unfold dup_pages, total, kernel_dup. induction L as [|[x e] L IH]; [done|]. rewrite bind_cons, length_app. cbn [foldr snd fst].
  rewrite <-IH. destruct (copy_kind kb ub e) as [[]| |]; simpl length; lia.
Qed.

Section roundtrip.
Context {kb ub : RegionBounds} {s : pmem} {root : Z} {T : gmap (list Z) Z}.
Context (Hinv : pmem_inv kb ub s) (Hwf : pt_wf kb ub s root T).
Context (Hlow : forall i l, is_Some (T !! (i :: l)) -> i < PGNUM / 2) (Hcopy : copyable kb ub s T).
Context (Hshare : forall va e, 0 <= va < VA_MAX -> trans s T va = Some e -> copy_kind kb ub e = Share ->
  pool_of kb ub (pte_to_pa e) <> Some false).
Local Abbreviation L := (leaves2 (mem s) root).

Lemma copyable_leaves x e : (x, e) ∈ L -> leaf_ok kb ub s e.
Proof. intros (Hx & _ & He & _)%(leaves_trans Hwf Hlow). exact (proj2 (Hcopy x e Hx He)). Qed.

Lemma wp_free_copy dst fr s1 D : copied kb ub s dst L fr s1 D ->
  wp (pt_destroy dst;; PhysFrame_drop (mkFrame dst)) (fun _ s2 => pmem_inv kb ub s2 /\
    (forall q w, owned kb ub s q -> in_page q w -> mem s2 w = mem s w) /\
    forall i, page_ref s2 i = page_ref s i \/
      exists x e, (x, e) ∈ L /\ copy_kind kb ub e = Dup true /\ page_index (fr x) = i) s1.
Proof.
  intros Hcp. pose proof (pi_layout _ _ _ Hinv) as HL. pose proof (cp_inv _ _ _ _ _ _ _ _ Hcp) as Hinv1.
  pose proof (cp_wf _ _ _ _ _ _ _ _ Hcp) as Hwf1. pose proof (wf_root _ _ _ _ _ Hwf1) as Hroot.
  pose proof (copy_space_ok Hwf Hlow Hcopy dst fr s1 D HL Hcp Hshare) as Hsp.
  destruct (cp_new _ _ _ _ _ _ _ _ Hcp _ _ Hroot) as [Hdb Hd0].
  wp_step. eapply wp_mono; [|by apply (wp_pt_destroy kb ub s1 dst D)].
  intros [] s2 (F & Hnd & HF & Hrel & _).
  assert (Hused : Forall (used kb ub s1) F) by (apply Forall_forall; intros q Hq%HF; by eapply space_page_used).
  assert (HdF : dst ∉ F).
  { intros Hq%HF. apply below_root in Hq. revert Hq. by eapply below_irrefl. }
  assert (Hdu : used kb ub s1 dst).
  { split; [by left|]. destruct (wf_owned _ _ _ _ _ Hwf1 _ _ Hroot) as (_ & _ & Ho). by apply (Ho true). }
  pose proof (released_used _ _ _ _ _ HL Hused Hrel HdF Hdu) as [_ Hdr].
  assert (Hfresh : forall q, q ∈ F \/ q = dst -> page_ref s (page_index q) = 0).
  { intros q Hq. eapply (copy_page_fresh Hwf Hlow Hcopy dst fr s1 D HL Hcp Hshare). destruct Hq as [Hq%HF|Hq]; auto. }
  unfold PhysFrame_drop. cbn [frame_addr]. eapply wp_mono; [|apply (wp_pmem_free (kb := kb) (ub := ub) s2 true); [apply Hrel|done|done]].
  intros [] s3 Hpost. split_and!; [apply Hpost|..].
  - intros q w Hq Hw. assert (Hnq : forall q', q' ∈ F \/ q' = dst -> in_page q' w -> False).
    { intros q' Hq'. apply (owned_not_fresh kb ub s q q' w Hq); [|by apply Hfresh|done].
      destruct Hq' as [Hq'| ->]; [|by left]. rewrite Forall_forall in Hused. apply Hused, Hq'. }
    rewrite (fp_mem _ _ _ _ Hpost), (rl_mem _ _ _ _ _ _ Hrel); [by eapply (cp_mem _ _ _ _ _ _ _ _ Hcp)|..]; eauto.
    intros ->. apply (Hnq dst); [by right|]. unfold in_page. simpl. page_lia.
  - intros i. destruct (decide (i = page_index dst)) as [->|Hne]; [left; by rewrite (fp_free _ _ _ _ Hpost)|].
    rewrite (fp_refs _ _ _ _ Hpost) by done. destruct (decide (i ∈ page_index <$> F)) as [(q & -> & Hq)%list_elem_of_fmap|HiF].
    { left. rewrite (rl_freed _ _ _ _ _ _ Hrel q Hq). symmetry. by apply Hfresh; left. }
    assert (HiF' : forall q, q ∈ F -> page_index q <> i) by (intros q Hq <-; apply HiF, list_elem_of_fmap; eauto).
    rewrite (rl_kept _ _ _ _ _ _ Hrel) by done.
    destruct (pi_ref _ _ _ Hinv i) as [H0|H1]; [|left; by rewrite H1, (cp_ref _ _ _ _ _ _ _ _ Hcp i H1)].
    destruct (pi_ref _ _ _ Hinv1 i) as [H0'|H1']; [left; by rewrite H0, H0'|].
    destruct (copy_page_only Hwf Hlow dst fr s1 D HL Hcp i H1') as [H|[(q & [Hq%HF| ->] & <-)|H]]; [lia|by apply HiF' in Hq|done|by right].
Qed.
End roundtrip.

(** ** The machine of the examples *)

Definition demo_entry : Z := pa_to_pte demo_frame (Z.lor (Z.lor PTE_R PTE_U) PTE_V).

Lemma demo_entry_facts : is_leaf demo_entry = true /\ copy_kind demo_kb demo_ub demo_entry = Dup false /\ pte_to_pa demo_entry = demo_frame.
Proof. by vm_compute. Qed.

Lemma demo_leaves : leaves2 (mem demo_mapped) demo_root = [(0x1000, demo_entry)].
Proof. vm_compute. reflexivity. Qed.

Lemma demo_copy_room : copy_room demo_kb demo_ub demo_mapped (leaves2 (mem demo_mapped) demo_root).
Proof. rewrite demo_leaves. split; vm_compute; discriminate. Qed.

Section demo.
(** A machine whose one mapping is that of 0x1000 to [demo_frame]. *)
Context (s : pmem) (T : gmap (list Z) Z) (Hwf : pt_wf demo_kb demo_ub s demo_root T).
Context (Href : page_ref s (page_index demo_frame) = 1).
Context (Hlow : forall i l, is_Some (T !! (i :: l)) -> i < PGNUM / 2).
Context (Hkb : forall path p, T !! path = Some p -> in_bounds demo_kb p).
Context (Htr : forall va, 0 <= va < VA_MAX -> trans s T va = if in_range 0x1000 0x2000 va then Some demo_entry else None).

Lemma demo_copyable : copyable demo_kb demo_ub s T.
Proof.
  intros va e Hva He. rewrite Htr in He by done. destruct (in_range _ _ _); [|discriminate]. apply (inj Some) in He as <-.
  destruct demo_entry_facts as (Hl & Hk & Hp). unfold leaf_ok. rewrite Hk, Hp. by split.
Qed.

Lemma demo_share va e : 0 <= va < VA_MAX -> trans s T va = Some e -> copy_kind demo_kb demo_ub e = Share ->
  pool_of demo_kb demo_ub (pte_to_pa e) <> Some false.
Proof.
  intros Hva He. rewrite Htr in He by done. destruct (in_range _ _ _); [|discriminate]. apply (inj Some) in He as <-.
  destruct demo_entry_facts as (_ & Hk & _). by rewrite Hk.
Qed.

Lemma demo_leaf_entry i j t k : T !! [i; j] = Some t -> 0 <= k < PGNUM -> is_valid (mem s (entry t k)) = true ->
  mem s (entry t k) = demo_entry /\ copy_va i j k = 0x1000 /\ 0 <= i < PGNUM / 2 /\ 0 <= j < PGNUM.
Proof.
  intros Ht Hk Hv. destruct (path_bounds Hwf Hlow i j t Ht) as [Hi Hj]. destruct (vpn_copy_va i j k Hi Hj Hk) as (H2 & H1 & H0).
  assert (Hx : 0 <= copy_va i j k < VA_MAX /\ copy_va i j k mod PGSIZE = 0).
  { rewrite copy_va_eq by done. split; [|by rewrite Z.mod_mul]. change (PGNUM / 2) with 256 in Hi. change PGNUM with 512 in *.
    change VA_MAX with (67108864 * 4096). unfold PGSIZE. lia. }
  pose proof (Htr _ (proj1 Hx)) as He. unfold trans, leaf_ref in He. rewrite H2, H1, H0, Ht in He. cbn [mbind option_bind] in He. rewrite Hv in He.
  destruct (in_range _ _ _) eqn:E; [|discriminate]. apply in_range_true in E. apply (inj Some) in He as ->.
  split; [reflexivity|]. split; [|split; assumption]. destruct Hx as [_ Hal]. unfold PGSIZE in Hal. Z.to_euclidean_division_equations; lia.
Qed.

Lemma demo_space_ok : space_ok demo_kb demo_ub s T.
Proof.
  split; [exact Hkb|..].
  - intros i j t k Ht Hk Hv. destruct (demo_leaf_entry i j t k Ht Hk Hv) as [-> _]. apply demo_entry_facts.
  - intros i j t k q Ht (Hk & Hv & -> & _). destruct (demo_leaf_entry i j t k Ht Hk Hv) as [-> _].
    destruct demo_entry_facts as (_ & _ & ->). exact Href.
  - intros i j t k i' j' t' k' q Ht Ht' (Hk & Hv & _) (Hk' & Hv' & _).
    destruct (demo_leaf_entry i j t k Ht Hk Hv) as (_ & H1 & Hi & Hj), (demo_leaf_entry i' j' t' k' Ht' Hk' Hv') as (_ & H1' & Hi' & Hj').
    assert (Heq : copy_va i j k = copy_va i' j' k') by congruence. apply copy_va_inj in Heq as (-> & -> & ->); try done. by split; [congruence|].
Qed.
End demo.

(** ** Properties *)

(** C5: [copy], on an address space whose pages are all mapped by leaves
    that can be copied and with enough pages in both pools, returns the root of
    a well-formed table tree in which every address translates to what its
    class prescribes: user pages and kernel data to a fresh page of the same
    pool with the same flags and the same contents, executable kernel pages to
    the same frame, nothing else. No duplicated frame is used twice, no page
    held before is changed or given up, and the only pages taken are the tables
    of the copy and the duplicated frames. *)
Theorem pt_copy_correct kb ub root s T :
  pmem_inv kb ub s -> pt_wf kb ub s root T -> (forall i l, is_Some (T !! (i :: l)) -> i < PGNUM / 2) ->
  copyable kb ub s T -> copy_room kb ub s (leaves2 (mem s) root) ->
  wp (pt_copy root) (fun r s' => exists dst fr D, r = Ok dst /\ space_copied kb ub s T dst fr s' D) s.
Proof.
  intros Hinv Hwf Hlow Hcopy Hroom. eapply wp_mono; [|apply (wp_pt_copy Hinv Hwf Hlow Hroom); by apply (copyable_leaves Hwf)].
  intros r s' (dst & fr & D & -> & Hcp). eexists dst, _, D. split; [done|]. by eapply (copied_space Hwf Hlow Hcopy).
Qed.

Lemma pt_copy_correct_witness :
  wp (pt_copy demo_root) (fun r s' => exists dst D p, r = Ok dst /\ in_bounds demo_ub p /\
    trans s' D 0x1000 = Some (page_pte (get_flags demo_entry) p) /\ mem s' (p + 8) = mem demo_mapped (demo_frame + 8)) demo_mapped.
Proof.
  destruct (demo_map_tree (Z.lor PTE_R PTE_U)) as (T & Hinv & Hwf & Hr & _ & Htr & Hlow & _).
  eapply wp_mono; [|apply (pt_copy_correct demo_kb demo_ub demo_root demo_mapped T Hinv Hwf Hlow);
    [exact (demo_copyable demo_mapped T Hr Htr)|exact demo_copy_room]].
  intros r s' (dst & fr & D & -> & Hsc). assert (Hva : 0 <= 0x1000 < VA_MAX) by (vm_compute; split; [discriminate|reflexivity]).
  pose proof (Htr 0x1000 Hva) as He. change (in_range 0x1000 0x2000 0x1000) with true in He. cbv iota in He.
  destruct (sc_frame _ _ _ _ _ _ _ _ Hsc 0x1000 demo_entry false Hva He (proj1 (proj2 demo_entry_facts))) as (Hb & _ & _ & Hc).
  exists dst, D, (fr (0x1000 / PGSIZE)). split; [reflexivity|]. split; [exact Hb|]. split.
  - pose proof (sc_trans _ _ _ _ _ _ _ _ Hsc 0x1000 Hva) as Hd. unfold demo_mapped in Hd. rewrite He in Hd.
    cbn [mbind option_bind] in Hd. fold demo_entry in Hd. unfold copied_pte in Hd. rewrite (proj1 (proj2 demo_entry_facts)) in Hd. exact Hd.
  - rewrite (proj2 (proj2 demo_entry_facts)) in Hc. exact (Hc 8 ltac:(vm_compute; split; [discriminate|reflexivity])).
Defined.

(** C18: [destroy] on an address space whose tables are kernel pages and whose
    user frames are held and mapped once each gives back exactly those pages,
    once each: every table below the root and every user frame is free
    afterwards, every other page keeps its count, every word outside the root
    and the freed pages is unchanged, the kernel pool gains one page per table
    below the root, and no entry of the root is valid any more. *)
Theorem pt_destroy_correct kb ub s root T :
  pmem_inv kb ub s -> pt_wf kb ub s root T -> space_ok kb ub s T ->
  wp (pt_destroy root) (fun _ s' => space_freed kb ub s root T s') s.
Proof. apply wp_pt_destroy. Qed.

Lemma pt_destroy_correct_witness :
  wp (pt_destroy demo_root) (fun _ s' => pmem_inv demo_kb demo_ub s' /\ page_ref s' (page_index demo_frame) = 0) demo_mapped.
Proof.
  destruct (demo_map_tree (Z.lor PTE_R PTE_U)) as (T & Hinv & Hwf & Hr & _ & Htr & Hlow & Hkb).
  eapply wp_mono; [|apply (pt_destroy_correct demo_kb demo_ub demo_mapped demo_root T Hinv Hwf (demo_space_ok demo_mapped T Hwf Hr Hlow Hkb Htr))].
  intros [] s' (F & _ & HF & Hrel & _). split; [apply Hrel|]. apply (rl_freed _ _ _ _ _ _ Hrel), HF. right.
  assert (Hva : 0 <= 0x1000 < VA_MAX) by (vm_compute; split; [discriminate|reflexivity]).
  pose proof (Htr 0x1000 Hva) as He. change (in_range 0x1000 0x2000 0x1000) with true in He. cbv iota in He.
  unfold trans, leaf_ref in He. destruct (T !! [vpn 0x1000 2; vpn 0x1000 1]) as [t|] eqn:Ht; [|discriminate]. cbn [mbind option_bind] in He.
  destruct (is_valid _) eqn:Hv in He; [|discriminate]. apply (inj Some) in He.
  exists (vpn 0x1000 2), (vpn 0x1000 1), t, (vpn 0x1000 0). split; [exact Ht|]. unfold user_leaf.
  split; [split; [discriminate|reflexivity]|]. split; [exact Hv|]. unfold demo_mapped. rewrite He.
  fold demo_entry. rewrite (proj2 (proj2 demo_entry_facts)). split; reflexivity.
Defined.

(** C19: an address space that is copied, torn down and whose root is freed
    again, as [fork] and the reaping of the child do, leaks nothing but the
    duplicated kernel pages, one per kernel data leaf (the trap frame, which
    [fork] frees on its own): every other page has the count it had, every held
    page its contents, and the user pool its number of free pages. *)
Theorem copy_destroy_roundtrip kb ub root s T :
  pmem_inv kb ub s -> pt_wf kb ub s root T -> (forall i l, is_Some (T !! (i :: l)) -> i < PGNUM / 2) ->
  copyable kb ub s T -> copy_room kb ub s (leaves2 (mem s) root) ->
  (forall va e, 0 <= va < VA_MAX -> trans s T va = Some e -> copy_kind kb ub e = Share -> pool_of kb ub (pte_to_pa e) <> Some false) ->
  wp (copy_and_free root) (fun r s' => r = None /\ pmem_inv kb ub s' /\
    (forall q w, owned kb ub s q -> in_page q w -> mem s' w = mem s w) /\
    (exists K, Forall (fun p => in_bounds kb p /\ page_ref s (page_index p) = 0) K /\
       Z.of_nat (length K) = total (kernel_dup kb ub) (leaves2 (mem s) root) /\
       forall i, i ∉ page_index <$> K -> page_ref s' i = page_ref s i) /\
    allocable (inner (region false s')) = allocable (inner (region false s))) s.
Proof.
  intros Hinv Hwf Hlow Hcopy Hroom Hshare. unfold copy_and_free. wp_step.
  eapply wp_mono; [|apply (wp_pt_copy Hinv Hwf Hlow Hroom); by apply (copyable_leaves Hwf)].
  intros r s1 (dst & fr & D & -> & Hcp).
  destruct (wp_elim _ _ _ (wp_free_copy Hinv Hwf Hlow Hcopy Hshare dst fr s1 D Hcp)) as ([] & s2 & Hrun & Hinv2 & Hmem & Hrefs).
  apply bind_Ret in Hrun as ([] & s1' & H1 & H2).
  eapply wp_intro; [erewrite bind_run by exact H1; erewrite bind_run by exact H2; reflexivity|].
  assert (HK : Forall (fun p => in_bounds kb p /\ page_ref s (page_index p) = 0) (dup_pages kb ub fr (leaves2 (mem s) root))).
  { apply Forall_forall. intros p (x & e & Hin & Hk & ->)%elem_of_dup_pages.
    by destruct (cp_frame _ _ _ _ _ _ _ _ Hcp x e true Hin Hk) as (? & ? & _). }
  assert (Hrefs' : forall i, i ∉ page_index <$> dup_pages kb ub fr (leaves2 (mem s) root) -> page_ref s2 i = page_ref s i).
  { intros i Hi. destruct (Hrefs i) as [|(x & e & Hin & Hk & <-)]; [done|]. destruct Hi. apply list_elem_of_fmap. exists (fr x).
    split; [done|]. apply elem_of_dup_pages. by exists x, e. }
  split_and!; [done|done|done| |].
  - eexists. split; [exact HK|]. split; [apply length_dup_pages|done].
  - apply (allocable_refs kb ub); [done|done|]. intros p Hp. apply Hrefs'. intros (q & Hq & Hin)%list_elem_of_fmap.
    rewrite Forall_forall in HK. destruct (HK q Hin) as [Hb _]. pose proof (pi_layout _ _ _ Hinv) as HL.
    apply (@same_page kb ub false true) in Hq as ->; [|done|done|done]. by apply (@other_region kb ub true q).
Qed.

Lemma copy_destroy_roundtrip_witness :
  wp (copy_and_free demo_root) (fun r s' => r = None /\ forall i, page_ref s' i = page_ref demo_mapped i) demo_mapped.
Proof.
  destruct (demo_map_tree (Z.lor PTE_R PTE_U)) as (T & Hinv & Hwf & Hr & _ & Htr & Hlow & _).
  eapply wp_mono; [|apply (copy_destroy_roundtrip demo_kb demo_ub demo_root demo_mapped T Hinv Hwf Hlow);
    [exact (demo_copyable demo_mapped T Hr Htr)|exact demo_copy_room|exact (demo_share demo_mapped T Htr)]].
  intros r s' (Hn & _ & _ & (K & _ & HlenK & Hrefs) & _). split; [exact Hn|]. intros i. apply Hrefs.
  rewrite demo_leaves, total_single in HlenK. unfold kernel_dup in HlenK. rewrite (proj1 (proj2 demo_entry_facts)) in HlenK.
  destruct K; [apply not_elem_of_nil|discriminate].
Defined.
