(* ===== verification/Vm.v ===== *)
(** * Kernel virtual memory and kernel stacks ([mem/vm.rs])

    The kernel page table is a tree of [PageTable] whose root is a static of
    the kernel image; its address, the linker's section bounds and what the
    device tree says are the fields of [boot_env]. The mutex around the table
    is never taken twice by one flow of control and is left out, and so are the
    TLB fences. *)
From S2P Require Import Prelude Addr PhysMem PageTable FreshPages.

Definition KSTACK_REGION_SIZE : Z := 0x10000000.
Definition KSTACK_VA_BASE : Z := VA_MAX - KSTACK_REGION_SIZE.
Definition KSTACK_SIZE : Z := PGSIZE * 4.
(** [drivers::uart::DEFAULT_QEMU_VIRT.base] *)
Definition DEFAULT_UART_BASE : Z := 0x10000000.
Definition KDATA : Z := Z.lor (Z.lor (Z.lor PTE_R PTE_W) PTE_A) PTE_D.

Definition kstack_base {S} (procid : Z) : M S Z :=
  off ← umul procid KSTACK_SIZE;
  uadd KSTACK_VA_BASE off.

Definition kstack_top {S} (procid : Z) : M S Z :=
  b ← kstack_base procid;
  uadd b KSTACK_SIZE.

(** ** Wrappers that panic *)

Definition getpte (table va : Z) : M pmem Z :=
  o ← pt_lookup table va;
  match o with
  | Some p => mret p
  | None => panic "vm_getpte: failed"
  end.

Definition mappages (table va pa size perm : Z) : M pmem unit :=
  ok ← pt_map table va pa size perm;
  if ok : bool then mret tt else panic "vm_mappages: failed map".

Definition unmappages (table va size : Z) (free : bool) : M pmem unit :=
  ok ← pt_unmap table va size free;
  if ok : bool then mret tt else panic "vm_unmappages: failed unmap".

(** ** Kernel stacks; [kpt] is the root of the kernel page table *)

Definition alloc_kstack_page (kpt base : Z) (_ : unit) (i : Z) : M pmem (unit + Empty_set) :=
  off ← umul i PGSIZE;
  va ← uadd base off;
  pa ← pmem_alloc true;
  mappages kpt va pa PGSIZE KDATA;;
  mret (inl tt).

Definition alloc_kstack (kpt pid : Z) : M pmem Z :=
  base ← kstack_base pid;
  for_each (range 0 (KSTACK_SIZE / PGSIZE)) (alloc_kstack_page kpt base) tt;;
  uadd base KSTACK_SIZE.

Definition free_kstack (kpt pid : Z) : M pmem unit :=
  base ← kstack_base pid;
  for_each (B := Empty_set) (range 0 (KSTACK_SIZE / PGSIZE)) (fun _ i =>
    off ← umul i PGSIZE;
    va ← uadd base off;
    unmappages kpt va PGSIZE true;;
    mret (inl tt)) tt;;
  mret tt.

Record KernelStack := mkKStack { ks_pid : Z; ks_top : Z }.
Definition KernelStack_new (kpt pid : Z) : M pmem KernelStack :=
  top ← alloc_kstack kpt pid;
  mret (mkKStack pid top).
Definition KernelStack_drop (kpt : Z) (k : KernelStack) : M pmem unit := free_kstack kpt (ks_pid k).

Definition map_kstack0 (kpt : Z) : M pmem unit := alloc_kstack kpt 0;; mret tt.
Definition map_kernel_pages (kpt va pa size perm : Z) : M pmem unit := mappages kpt va pa size perm.

(** ** The kernel page table *)

Record boot_env := mkEnv {
  be_kpt : Z;                                (** [&KERNEL_PAGE_TABLE] *)
  be_text : Z * Z; be_rodata : Z * Z; be_data : Z * Z; be_bss : Z * Z;  (** linker symbols *)
  be_trampoline : Z;                         (** [vector::trampoline] *)
  be_uart : option Z;                        (** [dtb::uart_config().map(base)] *)
  be_plic : option Z;                        (** [dtb::plic_base()] *)
  be_harts : Z;                              (** [dtb::hart_count()] *)
}.

(** A section of the image, mapped to itself. *)
Definition map_section (kpt : Z) (sec : Z * Z) (perm : Z) : M pmem unit :=
  size ← usub sec.2 sec.1;
  mappages kpt sec.1 sec.1 size perm.

(** Both PLIC windows: priorities and enables, and one page per context. *)
Definition map_plic (kpt plic_base harts : Z) : M pmem unit :=
  plic_low_end ← uadd plic_base 0x3000;
  low_up ← align_up plic_low_end;
  low_size ← usub low_up (align_down plic_base);
  mappages kpt (align_down plic_base) (align_down plic_base) low_size KDATA;;
  plic_ctx_start ← uadd plic_base 0x200000;
  max_ctx_index ← (if 0 <? harts then
                     h ← usub harts 1;
                     h2 ← umul h 2;
                     uadd h2 1
                   else mret 1);
  n ← uadd max_ctx_index 1;
  len ← umul n 0x1000;
  plic_ctx_end ← uadd plic_ctx_start len;
  ctx_up ← align_up plic_ctx_end;
  ctx_size ← usub ctx_up (align_down plic_ctx_start);
  mappages kpt (align_down plic_ctx_start) (align_down plic_ctx_start) ctx_size KDATA.

(** A page pool, mapped to itself unless it is empty. *)
Definition map_pool (kpt : Z) (info : RegionInfo) : M pmem unit :=
  let map_start := align_down (ri_begin info) in
  map_end ← align_up (ri_end info);
  if map_start <? map_end then
    size ← usub map_end map_start;
    mappages kpt map_start map_start size KDATA
  else mret tt.

Definition build_kernel_table (e : boot_env) : M pmem unit :=
  let kpt := be_kpt e in
  map_section kpt (be_text e) (Z.lor (Z.lor PTE_R PTE_X) PTE_A);;
  map_section kpt (be_rodata e) (Z.lor PTE_R PTE_A);;
  map_section kpt (be_data e) KDATA;;
  map_section kpt (be_bss e) KDATA;;
  let tramp_pa := align_down (be_trampoline e) in
  let tramp_va := VA_MAX - PGSIZE in
  mappages kpt tramp_va tramp_pa PGSIZE (Z.lor (Z.lor PTE_R PTE_X) PTE_A);;
  let uart_base := default DEFAULT_UART_BASE (be_uart e) in
  mappages kpt uart_base uart_base PGSIZE KDATA;;
  let virtio_base := 0x10001000 in
  mappages kpt virtio_base virtio_base PGSIZE KDATA;;
  match be_plic e with
  | None => mret tt
  | Some plic_base =>
      map_plic kpt plic_base (be_harts e);;
      kernel_info ← kernel_region_info;
      map_pool kpt kernel_info;;
      user ← user_region_info;
      map_pool kpt user
  end.

(** [init_kernel_vm]: the table is built by the first call only; the flag is
    [BUILD_ONCE]. *)
Definition init_kernel_vm (e : boot_env) (built : bool) : M pmem bool :=
  (if built then mret tt else build_kernel_table e);;
  map_kstack0 (be_kpt e);;
  mret true.

(** [satp::set]: mode, address-space id and root page number *)
Definition satp_bits (mode asid ppn : Z) : Z := Z.lor (Z.lor (wrap64 (Z.shiftl mode 60)) (wrap64 (Z.shiftl asid 44))) ppn.
Definition SV39 : Z := 8.
(** The value [switch_to_kernel] and [switch_off] give [satp]. *)
Definition switch_to_kernel (kpt : Z) : Z := satp_bits SV39 0 (Z.shiftr kpt 12).
Definition switch_off : Z := satp_bits 0 0 0.

(** ** Addresses of kernel stacks *)

Definition kstack_lo (pid : Z) : Z := KSTACK_VA_BASE + pid * KSTACK_SIZE.

Lemma kstack_base_run {S} (s : S) pid : 0 <= pid -> kstack_lo pid < U64 -> kstack_base pid s = Ret (kstack_lo pid) s.
Proof.
  intros Hp Hlo. unfold kstack_lo in *. change KSTACK_VA_BASE with 274609471488 in *. change KSTACK_SIZE with 16384 in *.
  unfold kstack_base. erewrite bind_run by (apply checked_run; change KSTACK_SIZE with 16384; page_lia).
  apply checked_run. change KSTACK_VA_BASE with 274609471488. change KSTACK_SIZE with 16384. page_lia.
Qed.

Lemma kstack_lo_aligned pid : kstack_lo pid mod PGSIZE = 0.
Proof.
  unfold kstack_lo, KSTACK_SIZE. rewrite Z.mul_assoc, (Z.mul_comm pid), <-!Z.mul_assoc.
  change KSTACK_VA_BASE with (PGSIZE * 67043328). rewrite <-Z.mul_add_distr_l, Z.mul_comm. by apply Z.mod_mul.
Qed.

Lemma range_split lo hi dn x rest : range lo hi = dn ++ x :: rest -> x = lo + Z.of_nat (length dn) /\ lo <= x < hi.
Proof.
  intros H. assert (Hx : range lo hi !! length dn = Some x) by (rewrite H; by apply list_lookup_middle).
  unfold range in Hx. apply lookup_seqZ in Hx. lia.
Qed.

Section kstacks.
Context {kb ub : RegionBounds} {kpt : Z}.
Implicit Types (s : pmem) (T : gmap (list Z) Z).
Local Abbreviation pt_wf := (pt_wf kb ub).
Local Abbreviation pmem_inv := (pmem_inv kb ub).

(** The pages of a kernel stack: frames of the kernel pool, zeroed. *)
Definition kstack_grown := grown_range (kb := kb) (ub := ub) (root := kpt) true KDATA (fun _ _ => 0).
Definition kstack_room s T (pid : Z) : Prop := room true s T (kstack_lo pid) (kstack_lo pid + KSTACK_SIZE).

Lemma page_step base i : base mod PGSIZE = 0 -> (base + i * PGSIZE) mod PGSIZE = 0.
Proof. intros H. by rewrite Z.mod_add by done. Qed.

(** The first [n] pages of a stack. *)
Lemma wp_kstack_pages s T base n : pmem_inv s -> pt_wf s kpt T -> 0 <= base -> base mod PGSIZE = 0 -> 0 <= n ->
  base + n * PGSIZE <= VA_MAX -> room true s T base (base + n * PGSIZE) ->
  wp (for_each (range 0 n) (alloc_kstack_page kpt base) tt) (fun r s' => r = inl tt /\ exists fr T',
    kstack_grown s T base (base + n * PGSIZE) fr s' T') s.
Proof.
  intros Hinv Hwf Hbase Hal Hn Htop Hroom. change VA_MAX with 274877906944 in *.
  eapply (wp_for_each (fun dn _ s' => exists fr T', kstack_grown s T base (base + Z.of_nat (length dn) * PGSIZE) fr s' T')).
  - exists (fun _ => 0), T. rewrite Z.add_0_r. by apply grown_range_refl.
  - intros dn x rest [] s0 Hx (fr & T0 & Hg). apply range_split in Hx as [-> Hx]. rewrite Z.add_0_l in *.
    set (i := Z.of_nat (length dn)) in *. unfold alloc_kstack_page.
    wp_step. wp_step. wp_step. wp_step. wp_step.
    eapply (wp_grow_step true KDATA (fun _ _ => 0) s T base (base + n * PGSIZE) (base + i * PGSIZE) fr); try done;
      [by apply page_step|by apply page_step|page_lia|change VA_MAX with 274877906944; page_lia|].
    intros p s1 Hpost Hp Hpal Hmap. unfold mappages. do 2 wp_step. rewrite <-(set_mem_self s1).
    eapply wp_mono; [|apply Hmap; [intros w Hw; by apply (ap_zero _ _ _ _ Hpost)|done]].
    intros ok s' [-> (T' & Hg')]. wp_step. cbv beta. wp_step. rewrite length_app. simpl length.
    replace (base + Z.of_nat (length dn + 1) * PGSIZE) with (base + i * PGSIZE + PGSIZE) by (unfold i; lia). by eexists _, T'.
  - intros [] s' Hg. unfold range in Hg. rewrite length_seqZ in Hg. split; [done|]. by replace (Z.of_nat (Z.to_nat (n - 0))) with n in Hg by lia.
Qed.

Lemma kstack_lo_pos pid : 0 <= pid -> 0 <= kstack_lo pid.
Proof. unfold kstack_lo. change KSTACK_VA_BASE with 274609471488. change KSTACK_SIZE with 16384. lia. Qed.

Lemma wp_alloc_kstack s T pid : pmem_inv s -> pt_wf s kpt T -> 0 <= pid ->
  kstack_lo pid + KSTACK_SIZE <= VA_MAX -> kstack_room s T pid ->
  wp (alloc_kstack kpt pid) (fun top s' => top = kstack_lo pid + KSTACK_SIZE /\ exists fr T',
    kstack_grown s T (kstack_lo pid) (kstack_lo pid + KSTACK_SIZE) fr s' T') s.
Proof.
  intros Hinv Hwf Hpid Htop Hroom. pose proof (kstack_lo_aligned pid) as Hal. pose proof (kstack_lo_pos pid Hpid) as Hbase.
  unfold alloc_kstack, kstack_room in *. change KSTACK_SIZE with 16384 in *. change VA_MAX with 274877906944 in *.
  wp_step. eapply wp_intro; [apply kstack_base_run; [done|page_lia]|]. wp_step.
  eapply wp_mono; [|apply (wp_kstack_pages s T (kstack_lo pid) 4); try done]. intros r s' [_ Hg]. by wp_step.
Qed.

Lemma unmappable_shorter s T start last last' free pool : last' <= last ->
  unmappable (kb := kb) (ub := ub) s T start last free pool -> unmappable (kb := kb) (ub := ub) s T start last' free pool.
Proof.
  intros Hl [H1 H2 H3]. split.
  - intros va Hva. apply H1. lia.
  - intros Hf va p Hva. apply H2; [done|lia].
  - intros Hf va va' p Hva Hva'. apply H3; [done|lia|lia].
Qed.

(** [unmap] of the next page of a range. *)
Lemma wp_unmap_page s0 T start a pool s : unmappable (kb := kb) (ub := ub) s0 T start a true pool ->
  0 <= start <= a -> a + PGSIZE <= VA_MAX -> a mod PGSIZE = 0 -> start mod PGSIZE = 0 ->
  unmapped (kb := kb) (ub := ub) (root := kpt) s0 T start true pool a s ->
  wp (pt_unmap kpt a PGSIZE true) (fun ok s' => ok = true /\
    unmapped (kb := kb) (ub := ub) (root := kpt) s0 T start true pool (a + PGSIZE) s') s.
Proof.
  intros Hum Hsa Hmax Ha Hs Hun. unfold pt_unmap. rewrite (proj2 (Z.eqb_neq _ _)) by done.
  rewrite align_down_aligned by (change VA_MAX with 274877906944 in *; page_lia || done). change VA_MAX with 274877906944 in *.
  do 3 wp_step. apply wp_align_up; [page_lia|page_lia|].
  rewrite align_up_aligned by (rewrite <-Zplus_mod_idemp_l, Ha; done). wp_step. wp_step.
  replace (a + PGSIZE - PGSIZE) with a by lia. rewrite Z.sub_diag. cbn [loop]. wp_step.
  eapply wp_mono; [|apply (wp_unmap_body (kb := kb) (ub := ub) s0 T start a true pool a s); (done || lia)].
  intros [a'|ok] s'; [intros (-> & Hle & _); exfalso; page_lia|]. intros [-> H]. by wp_step.
Qed.

Lemma wp_free_kstack s T pid : pmem_inv s -> pt_wf s kpt T -> 0 <= pid -> kstack_lo pid + KSTACK_SIZE <= VA_MAX ->
  unmappable (kb := kb) (ub := ub) s T (kstack_lo pid) (kstack_lo pid + KSTACK_SIZE - PGSIZE) true true ->
  wp (free_kstack kpt pid) (fun _ s' => unmapped (kb := kb) (ub := ub) (root := kpt) s T (kstack_lo pid) true true
    (kstack_lo pid + KSTACK_SIZE) s') s.
Proof.
  intros Hinv Hwf Hpid Htop Hum. pose proof (kstack_lo_aligned pid) as Hal. pose proof (kstack_lo_pos pid Hpid) as Hbase.
  set (base := kstack_lo pid) in *. change KSTACK_SIZE with 16384 in *. change VA_MAX with 274877906944 in *.
  unfold free_kstack. wp_step. eapply wp_intro; [apply kstack_base_run; [done|fold base; page_lia]|]. fold base. wp_step.
  eapply (wp_for_each (fun dn _ s' => unmapped (kb := kb) (ub := ub) (root := kpt) s T base true true (base + Z.of_nat (length dn) * PGSIZE) s')).
  - simpl. rewrite Z.add_0_r. split; try done; try lia.
    + intros va _. destruct (in_range base base va) eqn:E; [apply in_range_true in E; lia|done].
    + rewrite Z.sub_diag. change (0 / PGSIZE) with 0. lia.
  - intros dn x rest [] s0 Hx Hun. apply range_split in Hx as [-> Hx]. rewrite Z.add_0_l in *.
    change (KSTACK_SIZE / PGSIZE) with 4 in Hx. set (n := Z.of_nat (length dn)) in *.
    wp_step. wp_step. wp_step. wp_step. wp_step. unfold unmappages. wp_step.
    eapply wp_mono; [|apply (wp_unmap_page s T base (base + n * PGSIZE) true); [|page_lia| |by apply page_step|done|done]].
    + intros ok s' [-> H]. wp_step. wp_step. rewrite length_app. simpl length.
      by replace (base + Z.of_nat (length dn + 1) * PGSIZE) with (base + n * PGSIZE + PGSIZE) by (unfold n; lia).
    + eapply unmappable_shorter; [|done]. page_lia.
    + change VA_MAX with 274877906944. page_lia.
  - intros [] s' H. rewrite (length_seqZ 0 _ : length (range 0 (KSTACK_SIZE / PGSIZE)) = _) in H. by wp_step.
Qed.

(** Mapping a page that is mapped to another frame fails. *)
Lemma wp_map_conflict s T a p flags x : pmem_inv s -> pt_wf s kpt T -> 0 <= a -> a + PGSIZE <= VA_MAX -> a mod PGSIZE = 0 ->
  0 <= p < U64 -> trans s T a = Some x -> pte_to_pa x <> align_down p ->
  wp (pt_map kpt a p PGSIZE flags) (fun ok _ => ok = false) s.
Proof.
  intros Hinv Hwf Ha Hmax Hal Hp Htr Hne. change VA_MAX with 274877906944 in *. unfold pt_map.
  rewrite (proj2 (Z.eqb_neq _ _)) by done. do 3 wp_step. apply wp_align_up; [page_lia|page_lia|].
  rewrite align_up_aligned by (rewrite <-Zplus_mod_idemp_l, Hal; done). do 2 wp_step.
  rewrite align_down_aligned by (page_lia || done). replace (a + PGSIZE - PGSIZE) with a by lia. rewrite Z.sub_diag.
  cbn [loop]. wp_step. unfold map_body. rewrite Z.leb_refl. wp_step.
  assert (Hmiss : missing T a = 0).
  { unfold trans, leaf_ref in Htr. destruct (T !! [vpn a 2; vpn a 1]) as [t|] eqn:Ht; [|done].
    unfold missing, absent. rewrite Ht. destruct (wf_prefix _ _ _ _ _ Hwf [vpn a 2] (vpn a 1)) as [t' ->]; [by eexists|done]. }
  eapply wp_mono; [|apply (wp_walk (kb := kb) (ub := ub) s T a); [done|done|change VA_MAX with 274877906944; page_lia|]].
  2: { rewrite Hmiss. destruct (pi_region _ _ _ Hinv true) as [fl [_ _ _ -> _]]. lia. }
  intros r s' (T' & t & Ht & -> & Htr' & _). rewrite <-Htr' in Htr. unfold trans, leaf_ref in Htr. rewrite Ht in Htr. simpl in Htr.
  destruct (is_valid (mem s' (entry t (vpn a 0)))) eqn:Hv; [|done]. injection Htr as Hx.
  wp_steps. rewrite Hv, Hx, (proj2 (Z.eqb_neq _ _)) by done. rewrite orb_true_r. by wp_steps.
Qed.
End kstacks.

(** ** What the kernel page table maps *)

Record kregion := mkKreg { kr_va : Z; kr_pa : Z; kr_len : Z; kr_perm : Z }.

Definition kr_start (r : kregion) : Z := align_down (kr_va r).
Definition kr_end (r : kregion) : Z := map_last (kr_va r) (kr_len r) + PGSIZE.
Definition kr_cost (r : kregion) : Z := 2 + budget (kr_start r) (map_last (kr_va r) (kr_len r)).

(** The entry of [va] once the regions of [l] were mapped in order. *)
Definition region_entry (l : list kregion) (va : Z) : option Z :=
  fold_left (fun acc r => if in_range (kr_start r) (kr_end r) va
    then Some (mapped_pte (kr_start r) (align_down (kr_pa r)) (kr_perm r) va) else acc) l None.

Definition identity (va len perm : Z) : kregion := mkKreg va va len perm.

(** The regions of [init_kernel_vm], in its order. *)
Definition kernel_regions (kb ub : RegionBounds) (e : boot_env) : list kregion :=
  let section sec perm := identity sec.1 (sec.2 - sec.1) perm in
  [section (be_text e) (Z.lor (Z.lor PTE_R PTE_X) PTE_A); section (be_rodata e) (Z.lor PTE_R PTE_A);
   section (be_data e) KDATA; section (be_bss e) KDATA;
   mkKreg (VA_MAX - PGSIZE) (align_down (be_trampoline e)) PGSIZE (Z.lor (Z.lor PTE_R PTE_X) PTE_A);
   identity (default DEFAULT_UART_BASE (be_uart e)) PGSIZE KDATA; identity 0x10001000 PGSIZE KDATA] ++
  match be_plic e with
  | None => []
  | Some b =>
      [identity (align_down b) (align_up_val (b + 0x3000) - align_down b) KDATA;
       identity (align_down (b + 0x200000))
         (align_up_val (b + 0x200000 + (if 0 <? be_harts e then 2 * be_harts e else 2) * 0x1000) - align_down (b + 0x200000)) KDATA;
       identity (rb_begin kb) (rb_end kb - rb_begin kb) KDATA;
       identity (rb_begin ub) (rb_end ub - rb_begin ub) KDATA]
  end.

(** Every region is nonempty; all but the trampoline are mapped to themselves
    below the kernel stacks. *)
Definition kregion_ok (r : kregion) : Prop :=
  0 < kr_len r /\ 0 <= kr_va r /\ is_leaf (kr_perm r) = true /\
  (kr_pa r = kr_va r /\ kr_va r + kr_len r <= KSTACK_VA_BASE \/
   kr_va r = VA_MAX - PGSIZE /\ kr_len r = PGSIZE /\ 0 <= kr_pa r < KSTACK_VA_BASE).

Lemma region_bounds r : kregion_ok r ->
  0 <= kr_start r /\ kr_start r mod PGSIZE = 0 /\ kr_end r <= VA_MAX /\
  (kr_pa r = kr_va r /\ kr_end r <= KSTACK_VA_BASE \/ kr_start r = VA_MAX - PGSIZE /\ kr_end r = VA_MAX).
Proof.
  intros (Hlen & Hva & _ & Hcase). unfold kr_start, kr_end, map_last.
  change KSTACK_VA_BASE with 274609471488 in *. change VA_MAX with 274877906944 in *.
  destruct (align_down_spec (kr_va r)) as [Hd1 Hd2]; [destruct Hcase; page_lia|].
  destruct (align_up_val_spec (kr_va r + kr_len r)) as [Hu1 Hu2].
  destruct Hcase as [[Hpa Hend]|(Hv & Hl & _)].
  - split_and!; [div_lia|done|div_lia|]. left. split; [done|div_lia].
  - rewrite Hv, Hl in *. split_and!; [div_lia|done|div_lia|]. right. split; div_lia.
Qed.

Lemma region_entry_snoc l r va : region_entry (l ++ [r]) va =
  if in_range (kr_start r) (kr_end r) va then Some (mapped_pte (kr_start r) (align_down (kr_pa r)) (kr_perm r) va)
  else region_entry l va.
Proof. unfold region_entry. by rewrite fold_left_app. Qed.

(** Where an entry comes from: a region that holds the page, the page itself
    unless it is the trampoline's. *)
Lemma region_entry_inv l va x : Forall kregion_ok l -> region_entry l va = Some x ->
  exists r, r ∈ l /\ kr_start r <= va < kr_end r /\
    x = mapped_pte (kr_start r) (align_down (kr_pa r)) (kr_perm r) va /\
    (va < VA_MAX - PGSIZE -> x = pa_to_pte (va / PGSIZE * PGSIZE) (Z.lor (kr_perm r) PTE_V)).
Proof.
  induction l as [|r l IH] using rev_ind; [done|]. intros [Hl Hr]%Forall_app. rewrite region_entry_snoc.
  rewrite Forall_singleton in Hr. destruct (in_range _ _ va) eqn:E.
  - apply in_range_true in E. intros [= <-]. exists r. split; [set_solver|]. split; [done|]. split; [done|]. intros Hva.
    destruct (region_bounds r Hr) as (_ & _ & _ & [[Hpa _]|[Hs _]]); [|lia].
    unfold mapped_pte. rewrite Hpa. fold (kr_start r). f_equal. lia.
  - intros He. destruct (IH Hl He) as (r' & Hr' & H). exists r'. split; [set_solver|done].
Qed.

Definition cost (l : list kregion) : Z := foldr (fun r c => kr_cost r + c) 0 l.
Lemma cost_snoc l r : cost (l ++ [r]) = cost l + kr_cost r.
Proof. induction l as [|r' l IH]; simpl; lia. Qed.

Section boot_table.
Context {kb ub : RegionBounds} (kpt : Z) (s : pmem) (T : gmap (list Z) Z).
Context (Hinv : pmem_inv kb ub s) (Hempty : forall va, trans s T va = None).

(** The regions of [l] were mapped, in order, into the empty table of [s]. *)
Definition kmapped (l : list kregion) (s1 : pmem) : Prop := exists T1,
  extends kb ub kpt (cost l) s T s1 T1 /\ forall va, 0 <= va < VA_MAX -> trans s1 T1 va = region_entry l va.

Lemma wp_map_region l r s1 : Forall kregion_ok (l ++ [r]) ->
  (kr_va r = VA_MAX - PGSIZE -> Forall (fun r' => kr_end r' <= KSTACK_VA_BASE) l) ->
  cost (l ++ [r]) <= allocable (inner (region true s)) -> kmapped l s1 ->
  wp (mappages kpt (kr_va r) (kr_pa r) (kr_len r) (kr_perm r)) (fun _ => kmapped (l ++ [r])) s1.
Proof.
  intros [Hl Hr]%Forall_app Htramp Hcost (T1 & Hex & Htr). rewrite Forall_singleton in Hr.
  destruct (region_bounds r Hr) as (Hs0 & Hsal & Hend & Hcase). destruct Hr as (Hlen & Hva & Hleaf & Hpa).
  rewrite cost_snoc in Hcost. pose proof (ex_count _ _ _ _ _ _ _ _ Hex) as Hc.
  unfold mappages. wp_step.
  eapply wp_mono; [|apply (wp_pt_map (kb := kb) (ub := ub) s1 T1 (kr_va r) (kr_pa r) (kr_len r) (kr_perm r));
    [apply Hex|apply Hex|done|done| | | |]].
  - intros ok s2 [-> (T2 & Hex2 & Htr2)]. wp_step. exists T2. rewrite cost_snoc. split.
    + eapply extends_trans; [done|exact Hex|exact Hex2].
    + intros va Hva'. rewrite Htr2, Htr, region_entry_snoc by done. done.
  - change KSTACK_VA_BASE with 274609471488 in *. change VA_MAX with 274877906944 in *. destruct Hpa as [[_ ?]|(-> & -> & _)]; [lia|page_lia].
  - change KSTACK_VA_BASE with 274609471488 in *. change VA_MAX with 274877906944 in *. destruct Hpa as [[-> ?]|(_ & _ & ?)]; lia.
  - intros va Hva' x. fold (kr_end r) in Hva'. fold (kr_start r) in Hva' |- *. rewrite Htr by lia. intros Hx.
    destruct (region_entry_inv l va x Hl Hx) as (r' & Hr' & Hin & _ & Hid).
    rewrite Forall_forall in Hl. destruct (Hl r' Hr') as (_ & _ & Hleaf' & _).
    change KSTACK_VA_BASE with 274609471488 in *. change VA_MAX with 274877906944 in *.
    destruct Hcase as [[Hrpa Hre]|[Hrs Hre]].
    + rewrite Hid by page_lia. rewrite is_leaf_pa_to_pte, is_leaf_lor_V, Hleaf' by div_lia. split; [done|].
      rewrite pte_to_pa_pa_to_pte, Z.div_mul by (done || div_lia). rewrite Hrpa. unfold kr_start. lia.
    + exfalso. assert (Hv : kr_va r = 274877906944 - PGSIZE).
      { destruct Hpa as [[_ ?]|[? _]]; [|done]. unfold kr_end, kr_start, map_last in *.
        destruct (align_up_val_spec (kr_va r + kr_len r)) as [? ?]. page_lia. }
      specialize (Htramp Hv). rewrite Forall_forall in Htramp. specialize (Htramp r' Hr'). simpl in Htramp. page_lia.
  - fold (kr_start r). unfold kr_cost in Hcost. lia.
Qed.

Lemma kr_cost_pos r : kregion_ok r -> 0 <= kr_cost r.
Proof.
  intros Hr. pose proof (region_bounds r Hr) as (Hs & Hal & _). destruct Hr as (Hlen & Hva & _ & Hcase).
  unfold kr_cost. enough (0 <= budget (kr_start r) (map_last (kr_va r) (kr_len r))) by lia.
  rewrite <-(Z.sub_diag (kr_start r / 2 ^ 21 + kr_start r / 2 ^ 30)).
  assert (Hle : kr_start r <= map_last (kr_va r) (kr_len r)).
  { change KSTACK_VA_BASE with 274609471488 in *. change VA_MAX with 274877906944 in *.
    apply map_last_spec; [done|done|]. destruct Hcase as [[_ ?]|(-> & -> & _)]; change VA_MAX with 274877906944; page_lia. }
  pose proof (budget_mono (kr_start r) _ _ Hle) as Hb. unfold budget in *. lia.
Qed.

Lemma cost_pos l : Forall kregion_ok l -> 0 <= cost l.
Proof. induction 1 as [|r l Hr _ IH]; simpl; [done|]. pose proof (kr_cost_pos r Hr). lia. Qed.

(** The region number [k] of a list that is mapped in order. *)
Lemma wp_map_nth L k r s1 : Forall kregion_ok L -> cost L <= allocable (inner (region true s)) -> L !! k = Some r ->
  (kr_va r = VA_MAX - PGSIZE -> Forall (fun r' => kr_end r' <= KSTACK_VA_BASE) (take k L)) -> kmapped (take k L) s1 ->
  wp (mappages kpt (kr_va r) (kr_pa r) (kr_len r) (kr_perm r)) (fun _ => kmapped (take (S k) L)) s1.
Proof.
  intros HL Hcost Hk Htramp Hm. pose proof (take_S_r L k r Hk) as Htk. rewrite Htk.
  apply wp_map_region; [|done| |done].
  - rewrite <-Htk. by apply Forall_take.
  - rewrite <-Htk. rewrite <-(take_drop (S k) L) in Hcost. revert Hcost.
    assert (Happ : forall a b, cost (a ++ b) = cost a + cost b) by (induction a as [|x a IH]; intros b; simpl; [lia|rewrite IH; lia]).
    rewrite Happ. pose proof (cost_pos _ (Forall_drop _ (S k) L HL)). lia.
Qed.

Lemma kmapped_nil : pt_wf kb ub s kpt T -> kmapped [] s.
Proof. intros Hwf. exists T. split; [by apply extends_refl|]. intros va _. apply Hempty. Qed.

Lemma kmapped_inv l s1 : kmapped l s1 -> pmem_inv kb ub s1.
Proof. by intros (T1 & [] & _). Qed.
End boot_table.

(** What the machine and the linker give the kernel at boot. *)
Record env_ok (kb ub : RegionBounds) (e : boot_env) : Prop := {
  eo_sections : Forall (fun sec => 0 <= sec.1 < sec.2 /\ sec.2 <= KSTACK_VA_BASE)
    [be_text e; be_rodata e; be_data e; be_bss e];
  eo_tramp : 0 <= be_trampoline e < KSTACK_VA_BASE;
  eo_uart : 0 <= default DEFAULT_UART_BASE (be_uart e) <= KSTACK_VA_BASE - PGSIZE;
  eo_harts : 0 <= be_harts e;
  eo_plic : forall b, be_plic e = Some b ->
    0 <= b /\ b + 0x200000 + 2 * Z.max 1 (be_harts e) * 0x1000 + PGSIZE <= KSTACK_VA_BASE;
  eo_pools : rb_begin kb < rb_end kb /\ rb_begin ub < rb_end ub;
}.

Lemma align_down_lt x y : 0 <= x < U64 -> x < y -> align_down x < align_up_val y /\ 0 <= align_down x.
Proof.
  intros Hx Hy. destruct (align_down_spec x Hx) as [? ?]. destruct (align_up_val_spec y) as [? ?]. split; [page_lia|div_lia].
Qed.

Lemma env_regions kb ub e : layout_ok kb ub -> env_ok kb ub e -> Forall kregion_ok (kernel_regions kb ub e).
Proof.
  intros HL [Hsec Htr Hu Hh Hp [Hk Hub]]. destruct (layout_pick true HL) as [Hk1 Hk2]. destruct (layout_pick false HL) as [Hu1 Hu2].
  unfold PHY_MEM_START, TOTAL_PAGES, PGSIZE in Hk1, Hk2, Hu1, Hu2. simpl in Hk1, Hk2, Hu1, Hu2.
  change (128 * 1024 * 1024 / 4096) with 32768 in *.
  change KSTACK_VA_BASE with 274609471488 in *. change VA_MAX with 274877906944.
  assert (Hid : forall va len perm, 0 < len -> 0 <= va -> va + len <= 274609471488 -> is_leaf perm = true -> kregion_ok (identity va len perm)).
  { intros va len perm H1 H2 H3 H4. split; [done|]. split; [done|]. split; [done|]. left. done. }
  rewrite !Forall_cons in Hsec. destruct Hsec as (H1 & H2 & H3 & H4 & _).
  destruct (align_down_spec (be_trampoline e)) as [Ht1 Ht2]; [page_lia|].
  unfold kernel_regions. apply Forall_app. split.
  - repeat (apply Forall_cons; split); try (apply Hid; (done || simpl; page_lia)); [|done].
    split; [done|]. split; [done|]. split; [done|]. right. split; [done|]. split; [done|]. simpl.
    change KSTACK_VA_BASE with 274609471488. div_lia.
  - destruct (be_plic e) as [b|]; [|done]. specialize (Hp b eq_refl).
    replace (if 0 <? be_harts e then 2 * be_harts e else 2) with (2 * Z.max 1 (be_harts e)) by (destruct (Z.ltb_spec 0 (be_harts e)); lia).
    destruct (align_down_lt b (b + 0x3000)) as [Ha1 Ha2]; [page_lia|lia|].
    destruct (align_down_lt (b + 0x200000) (b + 0x200000 + 2 * Z.max 1 (be_harts e) * 0x1000)) as [Hb1 Hb2]; [page_lia|lia|].
    destruct (align_up_val_spec (b + 0x3000)) as [_ Hc1].
    destruct (align_up_val_spec (b + 0x200000 + 2 * Z.max 1 (be_harts e) * 0x1000)) as [_ Hc2].
    repeat (apply Forall_cons; split); try (apply Hid; (done || page_lia)). done.
Qed.

Section boot_vm.
Context {kb ub : RegionBounds} (e : boot_env) (s : pmem) (T : gmap (list Z) Z).
Context (Hinv : pmem_inv kb ub s) (Hwf : pt_wf kb ub s (be_kpt e) T) (Hempty : forall va, trans s T va = None).
Context (Henv : env_ok kb ub e) (Hcost : cost (kernel_regions kb ub e) <= allocable (inner (region true s))).
Local Abbreviation L := (kernel_regions kb ub e).
Local Abbreviation km k := (kmapped (kb := kb) (ub := ub) (be_kpt e) s T (take k L)).

(** [map_plic] from the two region entries it makes. *)
Lemma wp_map_plic b s1 : be_plic e = Some b -> km 7 s1 ->
  wp (map_plic (be_kpt e) b (be_harts e)) (fun _ => km 9) s1.
Proof.
  intros Hb Hm. pose proof (env_regions kb ub e (pi_layout _ _ _ Hinv) Henv) as HL.
  destruct (eo_plic _ _ _ Henv b Hb) as [Hb0 Hb1]. pose proof (eo_harts _ _ _ Henv) as Hh.
  change KSTACK_VA_BASE with 274609471488 in *.
  destruct (align_down_lt b (b + 0x3000)) as [Ha1 Ha2]; [page_lia|lia|].
  destruct (align_down_lt (b + 0x200000) (b + 0x200000 + 2 * Z.max 1 (be_harts e) * 0x1000)) as [Hc1 Hc2]; [page_lia|lia|].
  destruct (align_up_val_spec (b + 0x3000)) as [_ Hd1].
  destruct (align_up_val_spec (b + 0x200000 + 2 * Z.max 1 (be_harts e) * 0x1000)) as [_ Hd2].
  unfold map_plic. do 3 wp_step. apply wp_align_up; [lia|page_lia|]. do 2 wp_step. wp_step.
  eapply wp_mono; [|apply (wp_map_nth (be_kpt e) s T Hinv L 7
    (identity (align_down b) (align_up_val (b + 0x3000) - align_down b) KDATA)); [done|done| | |done]].
  2: { unfold kernel_regions. by rewrite Hb. }
  2: { simpl. change VA_MAX with 274877906944. intros. exfalso. destruct (align_down_spec b) as [_ ?]; page_lia. }
  intros [] s2 Hm2. do 2 wp_step. wp_step.
  apply (wp_mono _ (fun r s' => r = 2 * Z.max 1 (be_harts e) - 1 /\ s' = s2)).
  2: { destruct (Z.ltb_spec 0 (be_harts e)); wp_steps; split; (done || lia). }
  intros r s' [-> ->]. do 6 wp_step.
  replace ((2 * Z.max 1 (be_harts e) - 1 + 1) * 4096) with (2 * Z.max 1 (be_harts e) * 4096) by lia.
  wp_step. apply wp_align_up; [lia|page_lia|]. do 2 wp_step.
  eapply wp_mono; [|apply (wp_map_nth (be_kpt e) s T Hinv L 8
    (identity (align_down (b + 0x200000)) (align_up_val (b + 0x200000 + 2 * Z.max 1 (be_harts e) * 0x1000) - align_down (b + 0x200000)) KDATA));
    [done|done| | |done]].
  - done.
  - unfold kernel_regions. rewrite Hb. simpl. repeat f_equal. destruct (Z.ltb_spec 0 (be_harts e)); lia.
  - simpl. change VA_MAX with 274877906944. intros. exfalso. destruct (align_down_spec (b + 2097152)) as [_ ?]; page_lia.
Qed.

Lemma wp_map_pool fk k s1 : be_plic e <> None ->
  L !! k = Some (identity (rb_begin (pick fk kb ub)) (rb_end (pick fk kb ub) - rb_begin (pick fk kb ub)) KDATA) ->
  km k s1 -> wp (region_info fk) (fun info s' => wp (map_pool (be_kpt e) info) (fun _ => km (S k)) s') s1.
Proof.
  intros Hb Hk Hm. pose proof (pi_layout _ _ _ Hinv) as Hlay. pose proof (env_regions kb ub e Hlay Henv) as HL.
  destruct (pi_region _ _ _ (kmapped_inv _ _ _ _ _ Hm) fk) as [fl [Hbd _ _ _ _]].
  destruct (layout_pick fk Hlay) as [Hl1 Hl2]. unfold PHY_MEM_START, TOTAL_PAGES in *.
  assert (Hal : rb_begin (pick fk kb ub) mod PGSIZE = 0 /\ rb_end (pick fk kb ub) mod PGSIZE = 0).
  { pose proof (lo_al _ _ Hlay) as H. rewrite !Forall_cons in H. destruct H as (?&?&?&?&_). by destruct fk. }
  destruct Hal as [Hal1 Hal2].
  assert (Hlt : rb_begin (pick fk kb ub) < rb_end (pick fk kb ub)) by (destruct (eo_pools _ _ _ Henv); by destruct fk).
  change (128 * 1024 * 1024 / PGSIZE * PGSIZE) with 134217728 in *.
  apply (wp_region_info fk (pick fk kb ub)); [done|]. unfold map_pool. cbn [ri_begin ri_end].
  rewrite align_down_aligned by (page_lia || done). wp_step. apply wp_align_up; [lia|page_lia|].
  rewrite align_up_aligned, (proj2 (Z.ltb_lt _ _)) by done. do 2 wp_step.
  apply (wp_map_nth (be_kpt e) s T Hinv L k _ s1 HL Hcost Hk); [|done].
  simpl. change VA_MAX with 274877906944. page_lia.
Qed.

Lemma sections_low : Forall kregion_ok L -> Forall (fun r => kr_end r <= KSTACK_VA_BASE) (take 4 L).
Proof.
  intros HL. pose proof (eo_sections _ _ _ Henv) as Hsec. rewrite !Forall_cons in Hsec. destruct Hsec as (H1 & H2 & H3 & H4 & _).
  apply (Forall_take _ 4) in HL. eapply (Forall_impl (fun r => kregion_ok r /\ kr_va r + kr_len r <= KSTACK_VA_BASE)).
  - simpl in HL |- *. rewrite !Forall_cons in HL |- *. simpl. destruct HL as (?&?&?&?&_). split_and!; (done || lia).
  - intros r [Hr Hend]. destruct (region_bounds r Hr) as (_ & _ & _ & [[_ ?]|[Hs _]]); [done|].
    unfold kr_start in Hs. destruct Hr as (? & ? & _). change KSTACK_VA_BASE with 274609471488 in *.
    destruct (align_down_spec (kr_va r)) as [_ ?]; [page_lia|]. change VA_MAX with 274877906944 in *. page_lia.
Qed.

Lemma wp_build : wp (build_kernel_table e) (fun _ s' => kmapped (kb := kb) (ub := ub) (be_kpt e) s T L s') s.
Proof.
  pose proof (pi_layout _ _ _ Hinv) as Hlay. pose proof (env_regions kb ub e Hlay Henv) as HL.
  pose proof (eo_sections _ _ _ Henv) as Hsec. rewrite !Forall_cons in Hsec. destruct Hsec as (H1 & H2 & H3 & H4 & _).
  pose proof (eo_uart _ _ _ Henv) as Hu. change KSTACK_VA_BASE with 274609471488 in *.
  assert (Hstep : forall k r s1, L !! k = Some r -> k <> 4%nat -> 0 < kr_len r -> kr_va r + kr_len r <= 274609471488 -> km k s1 ->
    wp (mappages (be_kpt e) (kr_va r) (kr_pa r) (kr_len r) (kr_perm r)) (fun _ => km (S k)) s1).
  { intros k r s1 Hk Hne Hlen Hend Hm. apply wp_map_nth; try done. change VA_MAX with 274877906944. page_lia. }
  assert (Hsect : forall k sec perm s1, L !! k = Some (identity sec.1 (sec.2 - sec.1) perm) -> k <> 4%nat ->
    0 <= sec.1 < sec.2 /\ sec.2 <= 274609471488 -> km k s1 -> wp (map_section (be_kpt e) sec perm) (fun _ => km (S k)) s1).
  { intros k sec perm s1 Hk Hne Hs Hm. unfold map_section. do 2 wp_step.
    apply (Hstep k (identity sec.1 (sec.2 - sec.1) perm)); (done || simpl; lia). }
  unfold build_kernel_table. cbv zeta.
  wp_step. eapply wp_mono; [|apply (Hsect 0%nat); try done; by apply kmapped_nil]. intros [] s1 Hm1.
  wp_step. eapply wp_mono; [|by apply (Hsect 1%nat)]. intros [] s2 Hm2.
  wp_step. eapply wp_mono; [|by apply (Hsect 2%nat)]. intros [] s3 Hm3.
  wp_step. eapply wp_mono; [|by apply (Hsect 3%nat)]. intros [] s4 Hm4.
  wp_step. eapply wp_mono; [|apply (wp_map_nth (be_kpt e) s T Hinv L 4
    (mkKreg (VA_MAX - PGSIZE) (align_down (be_trampoline e)) PGSIZE (Z.lor (Z.lor PTE_R PTE_X) PTE_A))); try done].
  2: { intros _. by apply sections_low. }
  intros [] s5 Hm5.
  wp_step. eapply wp_mono; [|apply (Hstep 5%nat (identity (default DEFAULT_UART_BASE (be_uart e)) PGSIZE KDATA)); try done; simpl; page_lia].
  intros [] s6 Hm6.
  wp_step. eapply wp_mono; [|by apply (Hstep 6%nat (identity 0x10001000 PGSIZE KDATA))]. intros [] s7 Hm7.
  destruct (be_plic e) as [b|] eqn:Hb.
  - wp_step. eapply wp_mono; [|by apply wp_map_plic]. intros [] s8 Hm8.
    wp_step. eapply wp_mono; [|apply (wp_map_pool true 9); [by rewrite Hb|unfold kernel_regions; by rewrite Hb|done]].
    intros i s9 Hp. wp_step. eapply wp_mono; [|exact Hp]. intros [] s10 Hm10.
    wp_step. eapply wp_mono; [|apply (wp_map_pool false 10); [by rewrite Hb|unfold kernel_regions; by rewrite Hb|done]].
    intros u s11 Hp2. eapply wp_mono; [|exact Hp2]. intros [] s12 Hm12.
    rewrite take_ge in Hm12; [done|]. unfold kernel_regions. rewrite Hb. simpl. lia.
  - wp_step. rewrite take_ge in Hm7; [done|]. unfold kernel_regions. rewrite Hb. simpl. lia.
Qed.
End boot_vm.

(** ** Kernel stacks, allocated and freed *)

Lemma grown_unmappable kb ub kpt s T lo hi fr s' T' : lo mod PGSIZE = 0 -> hi mod PGSIZE = 0 -> 0 <= lo -> hi <= VA_MAX ->
  kstack_grown (kb := kb) (ub := ub) (kpt := kpt) s T lo hi fr s' T' ->
  unmappable (kb := kb) (ub := ub) s' T' lo (hi - PGSIZE) true true.
Proof.
  intros Hlo Hhi Hlo0 Hmax Hg. pose proof (pi_layout _ _ _ (gr_inv _ _ _ _ _ _ _ _ _ _ Hg)) as HL.
  assert (Hfr : forall va, lo <= va < hi -> trans s' T' va = Some (page_pte KDATA (fr (va / PGSIZE))) /\
    pte_to_pa (page_pte KDATA (fr (va / PGSIZE))) = fr (va / PGSIZE)).
  { intros va Hva. rewrite (gr_trans _ _ _ _ _ _ _ _ _ _ Hg), (proj2 (in_range_true _ _ _)) by lia. split; [done|].
    destruct (gr_frame _ _ _ _ _ _ _ _ _ _ Hg va Hva) as (Hb & _). destruct (pool_frame_range true _ HL Hb) as [Hp Hpal].
    unfold page_pte. rewrite pte_to_pa_pa_to_pte by lia. div_lia. }
  rewrite <-(Z.sub_add PGSIZE hi) in Hfr. split.
  - intros va Hva. destruct (Hfr va Hva) as [-> _]. eexists. split; [done|]. unfold page_pte.
    destruct (gr_frame _ _ _ _ _ _ _ _ _ _ Hg va ltac:(lia)) as (Hb & _). destruct (pool_frame_range true _ HL Hb) as [Hp _].
    rewrite is_leaf_pa_to_pte, is_leaf_lor_V by lia. done.
  - intros _ va p Hva (x & Hx & <-). destruct (Hfr va Hva) as [Htr Hpa]. rewrite Htr in Hx. injection Hx as <-. rewrite Hpa.
    destruct (gr_frame _ _ _ _ _ _ _ _ _ _ Hg va ltac:(lia)) as (Hb & _ & Hr & _). split; [done|]. split; [done|].
    intros path. apply (gr_apart _ _ _ _ _ _ _ _ _ _ Hg). lia.
  - intros _ va va' p Hva Hva' (x & Hx & <-) (x' & Hx' & Hp). destruct (Hfr va Hva) as [Htr Hpa], (Hfr va' Hva') as [Htr' Hpa'].
    rewrite Htr in Hx. rewrite Htr' in Hx'. injection Hx as <-. injection Hx' as <-. rewrite Hpa, Hpa' in Hp.
    apply (gr_inj _ _ _ _ _ _ _ _ _ _ Hg); [lia|lia|done].
Qed.

Definition kstack_cycle (kpt pid : Z) : M pmem Z :=
  k ← KernelStack_new kpt pid;
  KernelStack_drop kpt k;;
  mret (ks_top k).

(** The entries of the regions and of a kernel stack: never both writable and
    executable, never for the user. *)
Definition sealed (x : Z) : Prop :=
  ~ (Z.land x PTE_W <> 0 /\ Z.land x PTE_X <> 0) /\ Z.land x PTE_U = 0.

Lemma sealed_pte pa perm : 0 <= pa -> perm ∈ [Z.lor (Z.lor PTE_R PTE_X) PTE_A; Z.lor PTE_R PTE_A; KDATA] ->
  sealed (pa_to_pte pa (Z.lor perm PTE_V)).
Proof.
  intros Hpa Hp.
  assert (Hx : pa_to_pte pa (Z.lor perm PTE_V) mod 1024 = Z.lor perm PTE_V mod 1024).
  { rewrite <-get_flags_eq. by rewrite get_flags_pa_to_pte. }
  unfold sealed. rewrite !(land_flags (pa_to_pte _ _)), Hx by done.
  rewrite !elem_of_cons in Hp. destruct Hp as [->|[->|[->|Hp]]]; [| | |set_solver]; vm_compute; intuition discriminate.
Qed.

Lemma kernel_perms kb ub e r : r ∈ kernel_regions kb ub e ->
  kr_perm r ∈ [Z.lor (Z.lor PTE_R PTE_X) PTE_A; Z.lor PTE_R PTE_A; KDATA].
Proof.
  unfold kernel_regions. rewrite elem_of_app. intros [H|H].
  - repeat (apply elem_of_cons in H as [->|H]; [simpl; set_solver|]). by apply elem_of_nil in H.
  - destruct (be_plic e); [|by apply elem_of_nil in H].
    repeat (apply elem_of_cons in H as [->|H]; [simpl; set_solver|]). by apply elem_of_nil in H.
Qed.

Section boot_result.
Context {kb ub : RegionBounds} (e : boot_env) (s : pmem) (T : gmap (list Z) Z).
Context (Hinv : pmem_inv kb ub s) (Hwf : pt_wf kb ub s (be_kpt e) T) (Hempty : forall va, trans s T va = None).
Context (Henv : env_ok kb ub e) (Hcost : cost (kernel_regions kb ub e) + 12 <= allocable (inner (region true s))).

(** The kernel page table after boot, [fr] the frames of the first stack. *)
Record kernel_table (fr : Z -> Z) (s' : pmem) (T' : gmap (list Z) Z) : Prop := {
  kt_inv : pmem_inv kb ub s';
  kt_wf : pt_wf kb ub s' (be_kpt e) T';
  kt_trans : forall va, 0 <= va < VA_MAX -> trans s' T' va =
    if in_range KSTACK_VA_BASE (KSTACK_VA_BASE + KSTACK_SIZE) va then Some (page_pte KDATA (fr (va / PGSIZE)))
    else region_entry (kernel_regions kb ub e) va;
  kt_frames : forall va, KSTACK_VA_BASE <= va < KSTACK_VA_BASE + KSTACK_SIZE ->
    in_bounds kb (fr (va / PGSIZE)) /\ page_ref s' (page_index (fr (va / PGSIZE))) = 1;
  kt_held : forall i, page_ref s i = 1 -> page_ref s' i = 1;
  kt_count : allocable (inner (region true s)) - (cost (kernel_regions kb ub e) + 12) <= allocable (inner (region true s'));
}.

Lemma stack_unmapped l va : Forall kregion_ok l -> KSTACK_VA_BASE <= va < KSTACK_VA_BASE + KSTACK_SIZE -> region_entry l va = None.
Proof.
  intros Hl Hva. destruct (region_entry l va) as [x|] eqn:E; [|done]. exfalso.
  destruct (region_entry_inv l va x Hl E) as (r & Hr & Hin & _). rewrite Forall_forall in Hl.
  change KSTACK_VA_BASE with 274609471488 in *. change KSTACK_SIZE with 16384 in *.
  destruct (region_bounds r (Hl r Hr)) as (_ & _ & _ & [[_ ?]|[? _]]); [change KSTACK_VA_BASE with 274609471488 in *; lia|].
  change VA_MAX with 274877906944 in *. page_lia.
Qed.

Lemma wp_init_kernel_vm : wp (init_kernel_vm e false) (fun built s' => built = true /\ exists fr T', kernel_table fr s' T') s.
Proof.
  pose proof (env_regions kb ub e (pi_layout _ _ _ Hinv) Henv) as HL.
  assert (Hc0 : cost (kernel_regions kb ub e) <= allocable (inner (region true s))) by lia.
  unfold init_kernel_vm. wp_step. eapply wp_mono; [|by apply (wp_build (kb := kb) (ub := ub) e s T)].
  intros [] s1 (T1 & Hex & Htr). unfold map_kstack0. wp_step. wp_step.
  pose proof (ex_count _ _ _ _ _ _ _ _ Hex) as Hc.
  assert (Hlo : kstack_lo 0 = KSTACK_VA_BASE) by done.
  eapply wp_mono; [|apply (wp_alloc_kstack (kb := kb) (ub := ub) s1 T1 0); [apply Hex|apply Hex|done|by vm_compute|]].
  - rewrite Hlo. intros top s' (_ & fr & T' & Hg). wp_steps. split; [done|]. exists fr, T'. split.
    + apply Hg.
    + apply Hg.
    + intros va Hva. rewrite (gr_trans _ _ _ _ _ _ _ _ _ _ Hg), Htr by done. done.
    + intros va Hva. by destruct (gr_frame _ _ _ _ _ _ _ _ _ _ Hg va Hva) as (? & _ & ? & _).
    + intros i Hi. by apply (gr_ref _ _ _ _ _ _ _ _ _ _ Hg), (ex_ref _ _ _ _ _ _ _ _ Hex).
    + pose proof (gr_kernel _ _ _ _ _ _ _ _ _ _ Hg) as Hk. change ((KSTACK_VA_BASE + KSTACK_SIZE - KSTACK_VA_BASE) / PGSIZE) with 4 in Hk. cbv iota in Hk. lia.
  - split; [done|]. rewrite Hlo. change ((KSTACK_VA_BASE + KSTACK_SIZE - KSTACK_VA_BASE) / PGSIZE) with 4. split; [lia|].
    intros va Hva. rewrite Htr; [by apply stack_unmapped|].
    change KSTACK_VA_BASE with 274609471488 in *. change KSTACK_SIZE with 16384 in *. change VA_MAX with 274877906944. lia.
Qed.

Lemma kernel_table_sealed fr s' T' : kernel_table fr s' T' ->
  forall va x, 0 <= va < VA_MAX -> trans s' T' va = Some x -> sealed x.
Proof.
  intros [Hinv' _ Htr Hfr _ _] va x Hva. rewrite Htr by done. destruct (in_range _ _ va) eqn:E.
  - intros [= <-]. apply in_range_true, Hfr in E as [Hb _]. apply sealed_pte; [|set_solver].
    destruct (pool_frame_range true _ (pi_layout _ _ _ Hinv') Hb). lia.
  - intros Hx. pose proof (env_regions kb ub e (pi_layout _ _ _ Hinv) Henv) as HL.
    destruct (region_entry_inv _ va x HL Hx) as (r & Hr & Hin & -> & _). apply sealed_pte; [|by eapply kernel_perms].
    rewrite Forall_forall in HL. destruct (HL r Hr) as (Hlen & Hv & _ & Hcase). unfold kr_start in *.
    change KSTACK_VA_BASE with 274609471488 in *. change VA_MAX with 274877906944 in *.
    destruct (align_down_spec (kr_va r)) as [? ?]; [destruct Hcase as [[_ ?]|[-> _]]; page_lia|].
    destruct (align_down_spec (kr_pa r)) as [? ?]; [destruct Hcase as [[-> ?]|(_ & _ & ?)]; page_lia|].
    destruct Hcase as [[-> ?]|(_ & _ & ?)]; div_lia.
Qed.
End boot_result.

(** A zeroed page outside both pools is an empty table. *)
Lemma static_table_wf kb ub s p : p mod PGSIZE = 0 -> 0 < p < 2 ^ 56 ->
  (forall fk, ~ in_bounds (pick fk kb ub) p) -> (forall w, in_page p w -> mem s w = 0) ->
  pt_wf kb ub s p {[ [] := p ]} /\ forall va, trans s {[ [] := p ]} va = None.
Proof.
  intros Hal Hp Hout Hz. split; [|intros va; unfold trans, leaf_ref; by rewrite lookup_singleton_ne]. split.
  - by rewrite lookup_singleton_eq.
  - intros path q [<- <-]%lookup_singleton_Some. split; [done|split; [done|]]. intros fk Hin. by destruct (Hout fk).
  - intros path q [<- <-]%lookup_singleton_Some. split; [simpl; lia|constructor].
  - intros path i [q [Heq _]%lookup_singleton_Some]. by destruct path.
  - intros path path' q [<- _]%lookup_singleton_Some [<- _]%lookup_singleton_Some. done.
  - intros path q i [<- <-]%lookup_singleton_Some _ Hi.
    rewrite Hz by by apply entry_in_page. simpl. by rewrite lookup_singleton_ne.
Qed.

(** The entry of an address whose last region, and all after it, are data. *)
Lemma region_entry_data l r l' va : Forall kregion_ok (l ++ r :: l') -> kr_start r <= va < kr_end r -> va < KSTACK_VA_BASE ->
  Forall (fun r => kr_perm r = KDATA) (r :: l') ->
  region_entry (l ++ r :: l') va = Some (pa_to_pte (va / PGSIZE * PGSIZE) (Z.lor KDATA PTE_V)).
Proof.
  intros Hok Hva Hlow Hdata. change KSTACK_VA_BASE with 274609471488 in *.
  induction l' as [|r' l' IH] using rev_ind.
  - rewrite region_entry_snoc, (proj2 (in_range_true _ _ _)) by done.
    apply Forall_app in Hok as [_ Hr]. rewrite Forall_singleton in Hr. apply Forall_cons in Hdata as [Hd _]. rewrite Hd.
    destruct (region_bounds r Hr) as (_ & _ & _ & [[Hpa _]|[Hs _]]); [|change VA_MAX with 274877906944 in *; page_lia].
    unfold mapped_pte. rewrite Hpa. fold (kr_start r). do 2 f_equal. lia.
  - rewrite !app_comm_cons, app_assoc in *. apply Forall_app in Hok as [Hok Hr'], Hdata as [Hdata Hd'].
    rewrite Forall_singleton in Hr', Hd'. rewrite region_entry_snoc, Hd'. destruct (in_range _ _ va) eqn:E; [|by apply IH].
    apply in_range_true in E. destruct (region_bounds r' Hr') as (_ & _ & _ & [[Hpa _]|[Hs _]]); [|change VA_MAX with 274877906944 in *; page_lia].
    unfold mapped_pte. rewrite Hpa. fold (kr_start r'). do 2 f_equal. lia.
Qed.

(** The pages of a region between two page boundaries. *)
Lemma identity_span x y perm : 0 <= x < U64 -> 0 <= align_down x ->
  kr_start (identity (align_down x) (align_up_val y - align_down x) perm) = align_down x /\
  kr_end (identity (align_down x) (align_up_val y - align_down x) perm) = align_up_val y.
Proof.
  intros Hx Hpos. destruct (align_down_spec x Hx) as [Hal Hd]. destruct (align_up_val_spec y) as [Hal' _].
  unfold kr_start, kr_end, map_last. simpl. rewrite align_down_aligned by (page_lia || done).
  replace (align_down x + (align_up_val y - align_down x)) with (align_up_val y) by lia. rewrite align_up_aligned by done. lia.
Qed.

Lemma pools_below_stacks kb ub fk : layout_ok kb ub -> 0 < rb_begin (pick fk kb ub) /\ rb_end (pick fk kb ub) <= KSTACK_VA_BASE - PGSIZE.
Proof.
  intros HL. destruct (layout_pick fk HL) as [H1 H2]. unfold PHY_MEM_START, TOTAL_PAGES, PGSIZE in H1, H2.
  change (128 * 1024 * 1024 / 4096) with 32768 in *. change KSTACK_VA_BASE with 274609471488. page_lia.
Qed.

(** Both pools come last, as data: with a PLIC every address of theirs is mapped to itself. *)
Lemma pools_entry kb ub e b fk va : layout_ok kb ub -> env_ok kb ub e -> be_plic e = Some b ->
  rb_begin (pick fk kb ub) <= va < rb_end (pick fk kb ub) ->
  region_entry (kernel_regions kb ub e) va = Some (pa_to_pte (va / PGSIZE * PGSIZE) (Z.lor KDATA PTE_V)).
Proof.
  intros Hlay Henv Hb Hva. pose proof (env_regions kb ub e Hlay Henv) as HL. unfold kernel_regions in HL |- *. rewrite Hb in *.
  destruct (pools_below_stacks kb ub fk Hlay) as [Hlo Hhi]. change KSTACK_VA_BASE with 274609471488 in *.
  set (pool := identity (rb_begin (pick fk kb ub)) (rb_end (pick fk kb ub) - rb_begin (pick fk kb ub)) KDATA).
  assert (Hin : kr_start pool <= va < kr_end pool).
  { unfold kr_start, kr_end, map_last. cbn [pool identity kr_va kr_len].
    destruct (align_down_spec (rb_begin (pick fk kb ub))) as [_ ?]; [page_lia|].
    match goal with |- context [align_up_val ?x] => destruct (align_up_val_spec x) as [_ ?] end. page_lia. }
  destruct fk.
  - match goal with |- region_entry (?l ++ [?a; ?b'; ?c; ?d]) _ = _ => change (l ++ [a; b'; c; d]) with ((l ++ [a; b']) ++ pool :: [d]) in * end.
    apply region_entry_data; [exact HL|apply Hin|change KSTACK_VA_BASE with 274609471488; page_lia|by repeat constructor].
  - match goal with |- region_entry (?l ++ [?a; ?b'; ?c; ?d]) _ = _ => change (l ++ [a; b'; c; d]) with ((l ++ [a; b'; c]) ++ pool :: []) in * end.
    apply region_entry_data; [exact HL|apply Hin|change KSTACK_VA_BASE with 274609471488; page_lia|by repeat constructor].
Qed.

(** ** A machine: 64 kernel pages and 16 user pages *)

Definition boot_kb : RegionBounds := mkBounds 0x80300000 0x80340000.
Definition boot_ub : RegionBounds := mkBounds 0x80340000 0x80350000.
Definition boot_pm : pmem := final (region_init true 0x80300000 0x80340000;; region_init false 0x80340000 0x80350000) (pmem_boot (fun _ => 0)).
Definition boot_kpt : Z := 0x80250000.
Definition qemu : boot_env := mkEnv boot_kpt (0x80200000, 0x80220000) (0x80220000, 0x80228000) (0x80228000, 0x8022A000)
  (0x80240000, 0x80260000) 0x8021F000 None (Some 0xC000000) 1.
Definition qemu_no_plic : boot_env := mkEnv boot_kpt (be_text qemu) (be_rodata qemu) (be_data qemu) (be_bss qemu) 0x8021F000 None None 1.

Lemma boot_pm_ok : regions_post (fun _ => 0) boot_kb boot_ub boot_pm.
Proof.
  unfold boot_pm. apply (wp_final _ (regions_post _ _ _)), wp_bind, regions_ok.
  split; vm_compute; try discriminate; by repeat constructor.
Qed.

Lemma boot_pm_table : pt_wf boot_kb boot_ub boot_pm boot_kpt {[ [] := boot_kpt ]} /\
  forall va, trans boot_pm {[ [] := boot_kpt ]} va = None.
Proof.
  apply static_table_wf; [done|done| |].
  - intros fk [[H1 H2] _]. destruct fk; vm_compute in H1; by destruct H1.
  - intros w [Hw1 Hw2]. apply boot_pm_ok. unfold boot_kpt, PGSIZE, boot_kb, boot_ub in *. simpl. lia.
Qed.

Lemma qemu_ok : env_ok boot_kb boot_ub qemu.
Proof.
  split; simpl.
  - repeat constructor; by vm_compute.
  - by vm_compute.
  - by vm_compute.
  - done.
  - intros b [= <-]. by vm_compute.
  - by vm_compute.
Qed.

(** The machine once the kernel page table is built. *)
Definition booted_pm : pmem := final (init_kernel_vm qemu false) boot_pm.

Lemma booted_pm_table : exists fr T, kernel_table (kb := boot_kb) (ub := boot_ub) qemu boot_pm fr booted_pm T.
Proof.
  unfold booted_pm. apply wp_final. eapply wp_mono; [|apply (wp_init_kernel_vm (kb := boot_kb) (ub := boot_ub) qemu boot_pm {[ [] := boot_kpt ]}
    (proj1 boot_pm_ok) (proj1 boot_pm_table) (proj2 boot_pm_table) qemu_ok)].
  - by intros built s' (_ & H).
  - rewrite (proj1 (proj2 boot_pm_ok)). by vm_compute.
Qed.

Lemma booted_left : 30 <= allocable (inner (region true booted_pm)).
Proof.
  destruct booted_pm_table as (fr & T & Hk). pose proof (kt_count _ _ _ _ _ Hk) as Hc.
  rewrite (proj1 (proj2 boot_pm_ok)) in Hc. etrans; [|exact Hc]. by vm_compute.
Qed.

(** ** Properties *)

(** C11: building the kernel page table at boot: with the sections, devices and
    pools below the kernel stacks, a PLIC in the device tree and enough kernel
    pages for the tables, the code returns, and the address space is exactly the
    regions it lists, each mapped to itself, the trampoline at the top, and the
    first kernel stack on four fresh frames; no other address is mapped. Every
    address of both pools in particular is mapped to itself, readable and
    writable. (Without a PLIC the pools are left out: [no_plic_pools_unmapped].) *)
Theorem init_kernel_vm_correct kb ub e s T b :
  pmem_inv kb ub s -> pt_wf kb ub s (be_kpt e) T -> (forall va, trans s T va = None) -> env_ok kb ub e -> be_plic e = Some b ->
  cost (kernel_regions kb ub e) + 12 <= allocable (inner (region true s)) ->
  wp (init_kernel_vm e false) (fun built s' => built = true /\ exists fr T', kernel_table (kb := kb) (ub := ub) e s fr s' T' /\
    forall fk va, rb_begin (pick fk kb ub) <= va < rb_end (pick fk kb ub) ->
      trans s' T' va = Some (pa_to_pte (va / PGSIZE * PGSIZE) (Z.lor KDATA PTE_V))) s.
Proof.
  intros Hinv Hwf Hempty Henv Hb Hcost. eapply wp_mono; [|by apply (wp_init_kernel_vm (kb := kb) (ub := ub) e s T)].
  intros built s' (Hbuilt & fr & T' & Hk). split; [exact Hbuilt|]. exists fr, T'. split; [exact Hk|]. intros fk va Hva.
  destruct (pools_below_stacks kb ub fk (pi_layout _ _ _ Hinv)) as [Hlo Hhi].
  pose proof (pools_entry kb ub e b fk va (pi_layout _ _ _ Hinv) Henv Hb Hva) as He. change KSTACK_VA_BASE with 274609471488 in *.
  rewrite (kt_trans _ _ _ _ _ Hk) by (change VA_MAX with 274877906944; page_lia).
  destruct (in_range _ _ va) eqn:E; [apply in_range_true in E; change KSTACK_VA_BASE with 274609471488 in E; page_lia|exact He].
Qed.

Lemma init_kernel_vm_correct_witness :
  wp (init_kernel_vm qemu false) (fun _ s' => exists T', trans s' T' 0x80200123 =
    Some (pa_to_pte 0x80200000 (Z.lor (Z.lor (Z.lor PTE_R PTE_X) PTE_A) PTE_V))) boot_pm.
Proof.
  eapply wp_mono; [|apply (init_kernel_vm_correct boot_kb boot_ub qemu boot_pm {[ [] := boot_kpt ]} 0xC000000
    (proj1 boot_pm_ok) (proj1 boot_pm_table) (proj2 boot_pm_table) qemu_ok eq_refl)].
  - intros built s' (_ & fr & T' & Hk & _). exists T'. rewrite (kt_trans _ _ _ _ _ Hk) by (by vm_compute). vm_compute. reflexivity.
  - rewrite (proj1 (proj2 boot_pm_ok)). vm_compute. discriminate.
Defined.

(** Without a PLIC in the device tree the message says that its mapping is
    skipped, but the return skips the pools as well: no address of theirs that
    another region does not hold is mapped. *)
Theorem no_plic_pools_unmapped kb ub e s T :
  pmem_inv kb ub s -> pt_wf kb ub s (be_kpt e) T -> (forall va, trans s T va = None) -> env_ok kb ub e -> be_plic e = None ->
  cost (kernel_regions kb ub e) + 12 <= allocable (inner (region true s)) ->
  wp (init_kernel_vm e false) (fun _ s' => exists T', pt_wf kb ub s' (be_kpt e) T' /\
    forall fk va, rb_begin (pick fk kb ub) <= va < rb_end (pick fk kb ub) ->
      Forall (fun r => ~ (kr_start r <= va < kr_end r)) (kernel_regions kb ub e) -> trans s' T' va = None) s.
Proof.
  intros Hinv Hwf Hempty Henv Hb Hcost. eapply wp_mono; [|by apply (wp_init_kernel_vm (kb := kb) (ub := ub) e s T)].
  intros built s' (_ & fr & T' & Hk). exists T'. split; [apply Hk|]. intros fk va Hva Hout.
  destruct (pools_below_stacks kb ub fk (pi_layout _ _ _ Hinv)) as [Hlo Hhi]. change KSTACK_VA_BASE with 274609471488 in *.
  rewrite (kt_trans _ _ _ _ _ Hk) by (change VA_MAX with 274877906944; page_lia).
  destruct (in_range _ _ va) eqn:E; [apply in_range_true in E; change KSTACK_VA_BASE with 274609471488 in *; page_lia|].
  destruct (region_entry (kernel_regions kb ub e) va) as [x|] eqn:Ex; [|done].
  destruct (region_entry_inv _ va x (env_regions kb ub e (pi_layout _ _ _ Hinv) Henv) Ex) as (r & Hr & Hin & _).
  rewrite Forall_forall in Hout. by destruct (Hout r Hr).
Qed.

Lemma no_plic_pools_unmapped_witness :
  wp (init_kernel_vm qemu_no_plic false) (fun _ s' => exists T', trans s' T' 0x80300000 = None) boot_pm.
Proof.
  eapply wp_mono; [|apply (no_plic_pools_unmapped boot_kb boot_ub qemu_no_plic boot_pm {[ [] := boot_kpt ]}
    (proj1 boot_pm_ok) (proj1 boot_pm_table) (proj2 boot_pm_table))].
  - intros built s' (T' & _ & H). exists T'. apply (H true); [vm_compute; split; [discriminate|reflexivity]|].
    apply (bool_decide_unpack _). vm_compute. exact Logic.I.
  - split; try apply qemu_ok. discriminate.
  - reflexivity.
  - rewrite (proj1 (proj2 boot_pm_ok)). vm_compute. discriminate.
Defined.

(** C27: after boot no page of the kernel address space is both writable and
    executable, and none can be reached from user mode. *)
Theorem kernel_w_xor_x kb ub e s T :
  pmem_inv kb ub s -> pt_wf kb ub s (be_kpt e) T -> (forall va, trans s T va = None) -> env_ok kb ub e ->
  cost (kernel_regions kb ub e) + 12 <= allocable (inner (region true s)) ->
  wp (init_kernel_vm e false) (fun _ s' => exists T', pt_wf kb ub s' (be_kpt e) T' /\
    forall va x, 0 <= va < VA_MAX -> trans s' T' va = Some x -> sealed x) s.
Proof.
  intros Hinv Hwf Hempty Henv Hcost. eapply wp_mono; [|by apply (wp_init_kernel_vm (kb := kb) (ub := ub) e s T)].
  intros built s' (_ & fr & T' & Hk). exists T'. split; [apply Hk|]. by eapply (kernel_table_sealed (kb := kb) (ub := ub) e s).
Qed.

Lemma kernel_w_xor_x_witness :
  wp (init_kernel_vm qemu false) (fun _ s' => exists T', forall x, trans s' T' 0x80200000 = Some x -> sealed x) boot_pm.
Proof.
  eapply wp_mono; [|apply (kernel_w_xor_x boot_kb boot_ub qemu boot_pm {[ [] := boot_kpt ]}
    (proj1 boot_pm_ok) (proj1 boot_pm_table) (proj2 boot_pm_table) qemu_ok)].
  - intros built s' (T' & _ & H). exists T'. intros x. apply H. by vm_compute.
  - rewrite (proj1 (proj2 boot_pm_ok)). vm_compute. discriminate.
Defined.

(** A kernel stack that is created and dropped: the constructor maps four
    fresh zeroed kernel frames below the top it returns; dropping it gives all
    four back, so that every address translates as before, nothing that was
    held is lost and only table pages (at most eight) stay taken. *)
Theorem kstack_roundtrip kb ub kpt s T pid :
  pmem_inv kb ub s -> pt_wf kb ub s kpt T -> 0 <= pid -> kstack_lo pid + KSTACK_SIZE <= VA_MAX -> kstack_room s T pid ->
  wp (KernelStack_new kpt pid) (fun k s1 => ks_top k = kstack_lo pid + KSTACK_SIZE /\
    (exists fr T1, kstack_grown (kb := kb) (ub := ub) (kpt := kpt) s T (kstack_lo pid) (ks_top k) fr s1 T1) /\
    wp (KernelStack_drop kpt k) (fun _ s' => pmem_inv kb ub s' /\
      (exists T', pt_wf kb ub s' kpt T' /\ forall va, 0 <= va < VA_MAX -> trans s' T' va = trans s T va) /\
      (forall i, page_ref s i = 1 -> page_ref s' i = 1) /\
      allocable (inner (region true s)) - 8 <= allocable (inner (region true s'))) s1) s.
Proof.
  intros Hinv Hwf Hpid Htop Hroom. unfold KernelStack_new. wp_step.
  eapply wp_mono; [|by apply (wp_alloc_kstack (kb := kb) (ub := ub) s T pid)].
  intros top s1 (-> & fr & T1 & Hg). wp_step. cbn [ks_top ks_pid]. split; [done|]. split; [by exists fr, T1|].
  pose proof (kstack_lo_aligned pid) as Hal. pose proof (kstack_lo_pos pid Hpid) as Hpos.
  assert (Hal' : (kstack_lo pid + KSTACK_SIZE) mod PGSIZE = 0) by (by apply (page_step (kstack_lo pid) 4)).
  pose proof (grown_unmappable _ _ _ _ _ _ _ _ _ _ Hal Hal' Hpos Htop Hg) as Hum.
  unfold KernelStack_drop. cbn [ks_pid].
  eapply wp_mono; [|apply (wp_free_kstack (kb := kb) (ub := ub) s1 T1 pid); [apply Hg|apply Hg|done|done|done]].
  intros [] s' Hun. split; [apply Hun|]. split.
  - exists T1. split; [apply Hun|]. intros va Hva. rewrite (un_tr _ _ _ _ _ _ _ Hun), (gr_trans _ _ _ _ _ _ _ _ _ _ Hg) by done.
    destruct (in_range _ _ va) eqn:E; [|done]. apply in_range_true in E. symmetry. by apply Hroom.
  - split.
    + intros i Hi. rewrite (un_kept _ _ _ _ _ _ _ Hun); [by apply (gr_ref _ _ _ _ _ _ _ _ _ _ Hg)|].
      intros _ va p Hva (x & Hx & <-) ->. rewrite (gr_trans _ _ _ _ _ _ _ _ _ _ Hg), (proj2 (in_range_true _ _ _)) in Hx by lia.
      injection Hx as <-. destruct (gr_frame _ _ _ _ _ _ _ _ _ _ Hg va Hva) as (Hb & H0 & _).
      destruct (pool_frame_range true _ (pi_layout _ _ _ Hinv) Hb) as [Hp Hpal]. unfold page_pte in Hi.
      rewrite pte_to_pa_pa_to_pte in Hi by lia. rewrite <-(Z.mul_comm PGSIZE), <-Z_div_exact_full_2 in Hi by (done || lia). lia.
    + pose proof (un_count _ _ _ _ _ _ _ Hun) as Hc. pose proof (gr_kernel _ _ _ _ _ _ _ _ _ _ Hg) as Hk.
      replace (kstack_lo pid + KSTACK_SIZE - kstack_lo pid) with KSTACK_SIZE in * by lia. change (KSTACK_SIZE / PGSIZE) with 4 in *. lia.
Qed.

Lemma kstack_roundtrip_witness :
  wp (KernelStack_new boot_kpt 3) (fun k s1 => ks_top k = KSTACK_VA_BASE + 4 * KSTACK_SIZE /\
    wp (KernelStack_drop boot_kpt k) (fun _ s' => 56 <= allocable (inner (region true s'))) s1) boot_pm.
Proof.
  eapply wp_mono; [|apply (kstack_roundtrip boot_kb boot_ub boot_kpt boot_pm {[ [] := boot_kpt ]} 3
    (proj1 boot_pm_ok) (proj1 boot_pm_table)); [lia|vm_compute; discriminate|]].
  - intros k s1 (Htop & _ & Hd). split; [exact Htop|]. eapply wp_mono; [|exact Hd].
    intros _ s' (_ & _ & _ & Hc). rewrite (proj1 (proj2 boot_pm_ok)) in Hc. exact Hc.
  - split; [discriminate|]. split; [rewrite (proj1 (proj2 boot_pm_ok)); vm_compute; discriminate|].
    intros va _. apply boot_pm_table.
Defined.

(** The stacks of different processes never overlap, and they lie between
    the base of their region and the trampoline page exactly for the first
    16383 process numbers. *)
Theorem kstack_bounds pid pid' : 0 <= pid -> 0 <= pid' ->
  (pid <> pid' -> kstack_lo pid + KSTACK_SIZE <= kstack_lo pid' \/ kstack_lo pid' + KSTACK_SIZE <= kstack_lo pid) /\
  KSTACK_VA_BASE <= kstack_lo pid /\
  (kstack_lo pid + KSTACK_SIZE <= VA_MAX - PGSIZE <-> pid < 16383) /\
  (pid < 16383 -> kstack_base (S := unit) pid tt = Ret (kstack_lo pid) tt /\
                  kstack_top (S := unit) pid tt = Ret (kstack_lo pid + KSTACK_SIZE) tt).
Proof.
  intros Hp Hp'. assert (Hrun := kstack_base_run tt pid Hp). unfold kstack_top.
  unfold kstack_lo in *. change KSTACK_VA_BASE with 274609471488 in *. change KSTACK_SIZE with 16384 in *.
  change VA_MAX with 274877906944. change PGSIZE with 4096. split; [lia|]. split; [lia|]. split; [lia|].
  intros Hlt. specialize (Hrun ltac:(page_lia)). split; [done|]. erewrite bind_run by exact Hrun. apply checked_run. page_lia.
Qed.

Lemma kstack_bounds_witness : kstack_base (S := unit) 16382 tt = Ret (VA_MAX - 2 * KSTACK_SIZE) tt.
Proof. apply (kstack_bounds 16382 0); lia. Defined.

(** Process number 16383 (numbers are never used again) cannot get a
    kernel stack: its last page is the trampoline's, mapped to the kernel
    image, so the mapping fails and the kernel panics, however much memory is
    free. *)
Theorem kstack_exhausted_panics kb ub kpt s T x :
  pmem_inv kb ub s -> pt_wf kb ub s kpt T -> trans s T (VA_MAX - PGSIZE) = Some x ->
  (forall fk, ~ in_bounds (pick fk kb ub) (pte_to_pa x)) ->
  room true s T (kstack_lo 16383) (kstack_lo 16383 + 3 * PGSIZE) -> 10 <= allocable (inner (region true s)) ->
  alloc_kstack kpt 16383 s = Panic "vm_mappages: failed map".
Proof.
  intros Hinv Hwf Hx Hout Hroom Hleft.
  assert (Hlo : kstack_lo 16383 + 3 * PGSIZE = VA_MAX - PGSIZE) by done.
  unfold alloc_kstack. erewrite bind_run by by apply kstack_base_run.
  apply bind_panic. change (range 0 (KSTACK_SIZE / PGSIZE)) with (range 0 3 ++ [3]).
  pose proof (wp_kstack_pages (kb := kb) (ub := ub) (kpt := kpt) s T (kstack_lo 16383) 3 Hinv Hwf ltac:(done) (kstack_lo_aligned _)
    ltac:(done) ltac:(done) Hroom) as Hw.
  apply wp_elim in Hw as ([[]|[]] & s1 & Hrun & _ & fr & T1 & Hg).
  rewrite (for_each_app_run _ _ _ _ _ _ _ Hrun). cbn [for_each]. apply bind_panic. unfold alloc_kstack_page.
  erewrite bind_run by by apply checked_run. erewrite bind_run by by apply checked_run.
  pose proof (gr_kernel _ _ _ _ _ _ _ _ _ _ Hg) as Hk. change ((kstack_lo 16383 + 3 * PGSIZE - kstack_lo 16383) / PGSIZE) with 3 in Hk.
  assert (Hone : 0 < allocable (inner (region true s1))) by (cbv iota in Hk; lia).
  destruct (wp_elim _ _ _ (wp_pmem_alloc (kb := kb) (ub := ub) s1 true (gr_inv _ _ _ _ _ _ _ _ _ _ Hg) Hone)) as (p & s2 & Halloc & Hpost).
  erewrite bind_run by exact Halloc. apply bind_panic. unfold mappages.
  destruct (alloc_frame_wf true _ _ _ _ (gr_wf _ _ _ _ _ _ _ _ _ _ Hg) Hpost) as (Hwf2 & Htr2 & _).
  destruct (pool_frame_range true p (pi_layout _ _ _ Hinv) (ap_in _ _ _ _ Hpost)) as [Hp Hpal].
  assert (Hc : wp (pt_map kpt (kstack_lo 16383 + 3 * PGSIZE) p PGSIZE KDATA) (fun ok _ => ok = false) s2).
  { apply (wp_map_conflict (kb := kb) (ub := ub) s2 T1 _ p KDATA x); [apply Hpost|done|done|done|done|page_lia| |].
    - rewrite Htr2, (gr_trans _ _ _ _ _ _ _ _ _ _ Hg) by done. rewrite Hlo. by rewrite Hx.
    - rewrite align_down_aligned by (page_lia || done). intros Heq. apply (Hout true). rewrite Heq. apply Hpost. }
  apply wp_elim in Hc as (ok & s3 & Hmap & ->). by erewrite bind_run by exact Hmap.
Qed.

Lemma kstack_exhausted_panics_witness : alloc_kstack boot_kpt 16383 booted_pm = Panic "vm_mappages: failed map".
Proof.
  destruct booted_pm_table as (fr & T & Hk). pose proof booted_left as Hleft. revert Hk Hleft. generalize booted_pm. intros s Hk Hleft.
  apply (kstack_exhausted_panics boot_kb boot_ub boot_kpt s T
    (pa_to_pte 0x8021F000 (Z.lor (Z.lor (Z.lor PTE_R PTE_X) PTE_A) PTE_V))).
  - exact (kt_inv _ _ _ _ _ Hk).
  - exact (kt_wf _ _ _ _ _ Hk).
  - rewrite (kt_trans _ _ _ _ _ Hk) by (vm_compute; split; [discriminate|reflexivity]). vm_compute. reflexivity.
  - intros fk [[H1 H2] _]. destruct fk; vm_compute in H1; exact (H1 eq_refl).
  - split; [discriminate|]. change ((kstack_lo 16383 + 3 * PGSIZE - kstack_lo 16383) / PGSIZE) with 3. split; [lia|].
    intros va Hva. change (274877890560 <= va < 274877902848) in Hva.
    rewrite (kt_trans _ _ _ _ _ Hk) by (change VA_MAX with 274877906944; lia).
    destruct (in_range _ _ va) eqn:E; [apply in_range_true in E; change (274609471488 <= va < 274609487872) in E; lia|].
    destruct (region_entry (kernel_regions boot_kb boot_ub qemu) va) as [x|] eqn:E2; [|reflexivity]. exfalso.
    pose proof (env_regions boot_kb boot_ub qemu (pi_layout _ _ _ (proj1 boot_pm_ok)) qemu_ok) as HL.
    destruct (region_entry_inv _ va x HL E2) as (r & Hr & Hin & _). rewrite Forall_forall in HL.
    destruct (region_bounds r (HL r Hr)) as (_ & _ & _ & [[_ H1]|[H1 _]]).
    + change KSTACK_VA_BASE with 274609471488 in H1. lia.
    + change (VA_MAX - PGSIZE) with 274877902848 in H1. lia.
  - lia.
Defined.
