(* ===== verification/MmapWarehouse.v ===== *)
(** * The mmap-region warehouse ([mem/mmap.rs])

    A fixed array of nodes threaded on a free list; [region_alloc] and
    [region_free] hand out and take back the region record inside a node. A
    [*mut MmapRegion] is the index of its node, [None] the null pointer. *)
From stdpp Require Import functions.
From S2P Require Import Prelude.

Definition N_MMAP : nat := 256.

Record MmapRegion := mkMmap { begin_ : Z; npages : Z; mnext : option nat }.
Definition MmapRegion_zero : MmapRegion := mkMmap 0 0 None.

Record MmapRegionNode := mkNodeM { mmap_ : MmapRegion; nnext : option nat }.
Definition MmapRegionNode_new : MmapRegionNode := mkNodeM MmapRegion_zero None.

(** [whead] is the sentinel's [next]; [winit] is [INIT_ONCE]. *)
Record MmapWarehouse := mkWarehouse {
  node_list : nat -> MmapRegionNode;
  whead : option nat;
  winit : bool;
}.
Definition MmapWarehouse_new : MmapWarehouse := mkWarehouse (fun _ => MmapRegionNode_new) None false.

Definition set_node (i : nat) (n : MmapRegionNode) (w : MmapWarehouse) : MmapWarehouse :=
  mkWarehouse (<[i := n]> (node_list w)) (whead w) (winit w).
Definition set_whead (h : option nat) (w : MmapWarehouse) : MmapWarehouse :=
  mkWarehouse (node_list w) h (winit w).
Definition set_winit (w : MmapWarehouse) : MmapWarehouse := mkWarehouse (node_list w) (whead w) true.

(** The region record of a node, read and written through its pointer. *)
Definition region_of (i : nat) (w : MmapWarehouse) : MmapRegion := mmap_ (node_list w i).
Definition set_region_of (i : nat) (r : MmapRegion) (w : MmapWarehouse) : MmapWarehouse :=
  set_node i (mkNodeM r (nnext (node_list w i))) w.

Definition warehouse_init : M MmapWarehouse unit :=
  once ← gets winit;
  if once : bool then mret tt
  else
    modify set_winit;;
    for_each (B := Empty_set) (seq 0 N_MMAP) (fun _ i =>
      modify (set_node i (mkNodeM MmapRegion_zero (if (i + 1 <? N_MMAP)%nat then Some (i + 1)%nat else None)));;
      mret (inl tt)) tt;;
    modify (set_whead (Some 0%nat)).

Definition mregion_alloc : M MmapWarehouse (option nat) :=
  warehouse_init;;
  head_next ← gets whead;
  match head_next with
  | None => mret None
  | Some first =>
      w ← gets id;
      modify (set_whead (nnext (node_list w first)));;
      modify (set_node first (mkNodeM MmapRegion_zero None));;
      mret (Some first)
  end.

Definition mregion_free (region : option nat) : M MmapWarehouse unit :=
  match region with
  | None => mret tt
  | Some i =>
      h ← gets whead;
      modify (set_node i (mkNodeM MmapRegion_zero h));;
      modify (set_whead (Some i))
  end.

(** ** Invariant *)

Fixpoint wchain (nd : nat -> MmapRegionNode) (h : option nat) (l : list nat) : Prop :=
  match l with
  | [] => h = None
  | i :: l' => h = Some i /\ wchain nd (nnext (nd i)) l'
  end.

(** [fl] is the free list: a duplicate-free chain of node indices. *)
Record warehouse_ok (w : MmapWarehouse) (fl : list nat) : Prop := {
  wo_init : winit w = true;
  wo_chain : wchain (node_list w) (whead w) fl;
  wo_nodup : NoDup fl;
  wo_range : forall i, i ∈ fl -> (i < N_MMAP)%nat;
}.

Lemma wchain_ext nd nd' h l : (forall i, i ∈ l -> nnext (nd' i) = nnext (nd i)) ->
  wchain nd h l -> wchain nd' h l.
Proof.
  revert h. induction l as [|i l IH]; intros h Hext; simpl; [done|].
  intros [-> Hc]. split; [done|]. rewrite Hext by set_solver. apply IH; [set_solver|done].
Qed.

Lemma init_chain nd k n : (forall i, (i < N_MMAP)%nat -> nd i =
    mkNodeM MmapRegion_zero (if (i + 1 <? N_MMAP)%nat then Some (i + 1)%nat else None)) ->
  (k + n = N_MMAP)%nat -> wchain nd (if (k <? N_MMAP)%nat then Some k else None) (seq k n).
Proof.
  intros Hnd. revert k. induction n as [|n IH]; intros k Hk; simpl.
  - by rewrite (proj2 (Nat.ltb_ge k N_MMAP)) by lia.
  - rewrite (proj2 (Nat.ltb_lt k N_MMAP)) by lia. split; [done|]. rewrite Hnd by lia. cbn [nnext].
    replace (k + 1)%nat with (S k) by lia. apply IH. lia.
Qed.

Lemma wp_warehouse_init w : winit w = false ->
  wp warehouse_init (fun _ w' => warehouse_ok w' (seq 0 N_MMAP)) w.
Proof.
  intros Hi. unfold warehouse_init. wp_step. wp_step. rewrite Hi. wp_step. wp_step. wp_step.
  apply (wp_for_each (fun dn _ w' => winit w' = true /\ forall i, i ∈ dn -> node_list w' i =
    mkNodeM MmapRegion_zero (if (i + 1 <? N_MMAP)%nat then Some (i + 1)%nat else None))).
  - split; [done|set_solver].
  - intros dn x rest [] w' _ [Hi' Hn]. wp_steps. split; [done|]. intros i.
    rewrite elem_of_app, list_elem_of_singleton. intros Hin. simpl.
    destruct (decide (i = x)) as [->|]; [by rewrite fn_lookup_insert|].
    rewrite fn_lookup_insert_ne by done. apply Hn. naive_solver.
  - intros [] w' [Hi' Hn]. wp_steps. split; cbn [winit node_list whead set_whead]; [done| |apply NoDup_seq|].
    + apply (init_chain (node_list w') 0 N_MMAP); [|done]. intros i Hlt. apply Hn, elem_of_seq. lia.
    + intros i [_ H]%elem_of_seq. done.
Qed.

(** What an allocation does to the free list and to the other nodes. *)
Lemma wp_mregion_alloc w fl : warehouse_ok w fl ->
  wp mregion_alloc (fun r w' =>
    match fl with
    | [] => r = None /\ w' = w
    | i :: fl' => r = Some i /\ warehouse_ok w' fl' /\ region_of i w' = MmapRegion_zero /\
        forall j, j <> i -> node_list w' j = node_list w j
    end) w.
Proof.
  intros [Hi Hc Hnd Hr]. unfold mregion_alloc, warehouse_init. wp_step. wp_step. wp_step. rewrite Hi.
  wp_step. wp_step. wp_step. destruct fl as [|i fl]; simpl in Hc.
  - rewrite Hc. by wp_steps.
  - destruct Hc as [-> Hc]. wp_steps. apply NoDup_cons in Hnd as [Hni Hnd].
    split_and!; [done| | |].
    + split; simpl; [done| |done|set_solver].
      eapply wchain_ext; [|exact Hc]. intros j Hj. rewrite fn_lookup_insert_ne by (by intros ->). done.
    + unfold region_of. simpl. by rewrite fn_lookup_insert.
    + intros j Hj. simpl. by rewrite fn_lookup_insert_ne.
Qed.

Lemma wp_mregion_free w fl i : warehouse_ok w fl -> i ∉ fl -> (i < N_MMAP)%nat ->
  wp (mregion_free (Some i)) (fun _ w' => warehouse_ok w' (i :: fl) /\
    forall j, j <> i -> node_list w' j = node_list w j) w.
Proof.
  intros [Hi Hc Hnd Hr] Hni Hlt. unfold mregion_free. wp_steps. split.
  - split; simpl; [done| |by apply NoDup_cons|].
    + rewrite fn_lookup_insert. split; [done|]. cbn [nnext].
      eapply wchain_ext; [|exact Hc]. intros j Hj. rewrite fn_lookup_insert_ne by (by intros ->). done.
    + intros j [->|Hj]%elem_of_cons; [done|by apply Hr].
  - intros j Hj. simpl. by rewrite fn_lookup_insert_ne.
Qed.

(** ** Properties *)

(** The warehouse hands out a node that is not in use, cleared, or null
    when all [N_MMAP] are in use; a returned node is the next one handed out;
    neither operation touches the other nodes, and the free list stays a
    duplicate-free chain. *)
Theorem warehouse_correct w fl :
  warehouse_ok w fl ->
  wp mregion_alloc (fun r w' =>
    match fl with
    | [] => r = None /\ w' = w
    | i :: fl' => r = Some i /\ (i ∉ fl') /\ warehouse_ok w' fl' /\ region_of i w' = MmapRegion_zero /\
        forall j, j <> i -> node_list w' j = node_list w j
    end) w /\
  (forall i, i ∉ fl -> (i < N_MMAP)%nat ->
     wp (mregion_free (Some i);; mregion_alloc) (fun r w' => r = Some i /\ warehouse_ok w' fl /\
       forall j, j <> i -> node_list w' j = node_list w j) w).
Proof.
  intros Hok. split.
  - eapply wp_mono; [|by apply wp_mregion_alloc]. intros r w'. destruct fl as [|i fl]; [done|].
    intros (-> & H1 & H2 & H3). split_and!; [done| |done|done|done].
    by apply NoDup_cons_1_1 with (l := fl), (wo_nodup _ _ Hok).
  - intros i Hi Hlt. wp_step. eapply wp_mono; [|by apply (wp_mregion_free w fl i)].
    intros [] w1 [Hok1 Hn1]. eapply wp_mono; [|by apply (wp_mregion_alloc w1 (i :: fl))].
    intros r w2 (-> & Hok2 & _ & Hn2). split_and!; [done|done|].
    intros j Hj. by rewrite Hn2, Hn1.
Qed.

Definition demo_warehouse : MmapWarehouse := final warehouse_init MmapWarehouse_new.

Lemma demo_warehouse_ok : warehouse_ok demo_warehouse (0%nat :: seq 1 255).
Proof.
  change (0%nat :: seq 1 255) with (seq 0 N_MMAP).
  unfold demo_warehouse. apply (wp_final warehouse_init (fun w => warehouse_ok w (seq 0 N_MMAP))).
  by apply wp_warehouse_init.
Qed.

Lemma warehouse_correct_witness :
  wp mregion_alloc (fun r w' => r = Some 0%nat /\ warehouse_ok w' (seq 1 255)) demo_warehouse.
Proof.
  eapply wp_mono; [|exact (proj1 (warehouse_correct demo_warehouse (0%nat :: seq 1 255) demo_warehouse_ok))].
  intros r w' (Hr & _ & Hok & _). split; [exact Hr|exact Hok].
Defined.
