(* ===== verification/Uvm.v ===== *)
(** * User memory ([mem/uvm.rs])

    Copies between kernel buffers and user pages, heap and stack growth, and
    the per-process mmap list. Physical memory is [PhysMem.pmem]; bytes are
    taken out of and put into its 64-bit words little-endian. *)
From stdpp Require Import functions.
From S2P Require Import Prelude Addr PhysMem PageTable MmapWarehouse.

(** ** Bytes of physical memory *)

Definition phys_byte (m : Z -> Z) (a : Z) : Z := m (a - a mod 8) / 256 ^ (a mod 8) mod 256.
Definition put_byte (m : Z -> Z) (a b : Z) : Z -> Z :=
  let w := m (a - a mod 8) in
  upd m (a - a mod 8) (w + (b - phys_byte m a) * 256 ^ (a mod 8)).

(** [copy_nonoverlapping] from and to physical memory *)
Definition load_bytes (pa n : Z) : M pmem (list Z) := gets (fun s => phys_byte (mem s) <$> seqZ pa n).
Fixpoint put_bytes (m : Z -> Z) (a : Z) (bs : list Z) : Z -> Z :=
  match bs with
  | [] => m
  | b :: bs' => put_bytes (put_byte m a b) (a + 1) bs'
  end.
Definition store_bytes (pa : Z) (bs : list Z) : M pmem unit :=
  modify (fun s => set_mem (put_bytes (mem s) pa bs) s).

(** ** Copies *)

Inductive CopyError := NotMapped | NoPerm | Fault | TooLong.

(** The page check the three copies share: [need] is [PTE_R] or [PTE_W]. *)
Definition user_page (root va need : Z) : M pmem (result Z CopyError) :=
  o ← pt_lookup root (align_down va);
  match o with
  | None => mret (Err NotMapped)
  | Some pte_ptr =>
      pte ← load pte_ptr;
      if negb (is_valid pte) || negb (is_leaf pte) then mret (Err NotMapped)
      else
        let flags := get_flags pte in
        if Z.land flags 0xE =? 0 then mret (Err NotMapped)
        else if (Z.land flags PTE_U =? 0) || (Z.land flags need =? 0) then mret (Err NoPerm)
        else mret (Ok (pte_to_pa pte))
  end.

(** One page of [copyin]: bytes copied so far, the next user address, [dst]. *)
Definition copyin_body (root len : Z) (st : Z * Z * list Z) : M pmem (Z * Z * list Z + list Z * option CopyError) :=
  let '(copied, src_va, dst) := st in
  if copied <? len then
    r ← user_page root src_va PTE_R;
    match r with
    | Err e => mret (inr (dst, Some e))
    | Ok pa =>
        let off := page_offset src_va in
        let n := Z.min (PGSIZE - off) (len - copied) in
        bytes ← load_bytes (pa + off) n;
        src_va' ← uadd src_va n;
        mret (inl (copied + n, src_va',
          take (Z.to_nat copied) dst ++ bytes ++ drop (Z.to_nat (copied + n)) dst))
    end
  else mret (inr (dst, None)).

(** [dst] after the copy, with the error if there was one. *)
Definition copyin (root : Z) (dst : list Z) (src_va : Z) : M pmem (list Z * option CopyError) :=
  loop (S (length dst)) (copyin_body root (Z.of_nat (length dst))) (0, src_va, dst).

Definition copyout_body (root : Z) (src : list Z) (st : Z * Z) : M pmem (Z * Z + option CopyError) :=
  let '(copied, dst_va) := st in
  if copied <? Z.of_nat (length src) then
    r ← user_page root dst_va PTE_W;
    match r with
    | Err e => mret (inr (Some e))
    | Ok pa =>
        let off := page_offset dst_va in
        let n := Z.min (PGSIZE - off) (Z.of_nat (length src) - copied) in
        store_bytes (pa + off) (take (Z.to_nat n) (drop (Z.to_nat copied) src));;
        dst_va' ← uadd dst_va n;
        mret (inl (copied + n, dst_va'))
    end
  else mret (inr None).

Definition copyout (root dst_va : Z) (src : list Z) : M pmem (option CopyError) :=
  loop (S (length src)) (copyout_body root src) (0, dst_va).

(** The inner loop of [copyin_str]: bytes of one page up to a zero. *)
Definition str_body (pa len : Z) (st : Z * Z * list Z) : M pmem (Z * Z * list Z + (Z * list Z * bool)) :=
  let '(off, copied, dst) := st in
  if (off <? PGSIZE) && (copied <? len) then
    byte ← gets (fun s => phys_byte (mem s) (pa + off));
    let dst' := <[Z.to_nat copied := byte]> dst in
    if byte =? 0 then mret (inr (copied + 1, dst', true))
    else mret (inl (off + 1, copied + 1, dst'))
  else mret (inr (copied, dst, false)).

(** One page of [copyin_str]. *)
Definition copyin_str_body (root len : Z) (st : Z * Z * list Z)
  : M pmem (Z * Z * list Z + list Z * result Z CopyError) :=
  let '(copied, src_va, dst) := st in
  if copied <? len then
    let page_base := align_down src_va in
    r ← user_page root src_va PTE_R;
    match r with
    | Err e => mret (inr (dst, Err e))
    | Ok pa =>
        '(copied', dst', stop) ← loop (S (Z.to_nat PGSIZE)) (str_body pa len) (page_offset src_va, copied, dst);
        if stop : bool then mret (inr (dst', Ok copied'))
        else
          src_va' ← uadd page_base PGSIZE;
          mret (inl (copied', src_va', dst'))
    end
  else mret (inr (dst, Err TooLong)).

Definition copyin_str (root : Z) (dst : list Z) (src_va : Z) : M pmem (list Z * result Z CopyError) :=
  loop (S (S (length dst))) (copyin_str_body root (Z.of_nat (length dst))) (0, src_va, dst).

(** ** Heap and stack *)

Definition USER_FLAGS : Z := Z.lor (Z.lor (Z.lor (Z.lor PTE_U PTE_R) PTE_W) PTE_A) PTE_D.

(** Map one fresh zeroed user page at [a]. *)
Definition map_fresh (root a : Z) : M pmem (option UvmError) :=
  pa ← pmem_alloc false;
  if pa =? 0 then mret (Some NoMem)
  else
    ok ← pt_map root a pa PGSIZE USER_FLAGS;
    mret (if ok : bool then None else Some MapFailed).

(** [while a < last], one fresh page per round *)
Definition map_fresh_range (root a last : Z) : M pmem (result unit UvmError) :=
  loop (S (Z.to_nat ((last - a) / PGSIZE + 1))) (fun a =>
    if a <? last then
      o ← map_fresh root a;
      match o with
      | Some e => mret (inr (Err e))
      | None =>
          a' ← uadd a PGSIZE;
          mret (inl a')
      end
    else mret (inr (Ok tt))) a.

Definition heap_grow (root old_top new_top : Z) : M pmem (result unit UvmError) :=
  if MMAP_BEGIN <? new_top then mret (Err OutOfRange)
  else
    a ← align_up old_top;
    last ← align_up new_top;
    map_fresh_range root a last.

Definition heap_ungrow (root old_top new_top : Z) : M pmem (result unit UvmError) :=
  if old_top <? new_top then mret (Ok tt)
  else
    start ← align_up new_top;
    top ← align_up old_top;
    let size := sat_sub top start in
    if size =? 0 then mret (Ok tt)
    else
      ok ← pt_unmap root start size true;
      mret (if ok : bool then Ok tt else Err MapFailed).

Definition STACK_BASE : Z := 0x20000.
Definition STACK_SIZE : Z := 24576.
Definition STACK_TOP : Z := STACK_BASE + STACK_SIZE.

Definition ustack_grow (root fault_va : Z) : M pmem (result unit UvmError) :=
  if (STACK_BASE <=? fault_va) && (fault_va <? STACK_TOP) then
    let needed_base := align_down fault_va in
    loop 8 (fun a =>
      if needed_base <? a then
        a' ← usub a PGSIZE;
        o ← pt_lookup root a';
        mapped ← (match o with
          | Some pte_ptr => pte ← load pte_ptr; mret (is_valid pte)
          | None => mret false
          end);
        if mapped : bool then mret (inl a')
        else
          e ← map_fresh root a';
          match e with
          | Some e => mret (inr (Err e))
          | None => mret (inl a')
          end
      else mret (inr (Ok tt))) STACK_TOP
  else mret (Err OutOfRange).

(** ** The mmap list *)

Record umem := mkUmem { um_pm : pmem; um_wh : MmapWarehouse }.
Definition on_pm {A} (m : M pmem A) : M umem A := zoom um_pm (fun p s => mkUmem p (um_wh s)) m.
Definition on_wh {A} (m : M MmapWarehouse A) : M umem A := zoom um_wh (fun w s => mkUmem (um_pm s) w) m.

(** [*cur] for a non-null region pointer, and a field write through one *)
Definition deref (i : nat) : M umem MmapRegion := gets (fun s => region_of i (um_wh s)).
Definition write_region (i : nat) (f : MmapRegion -> MmapRegion) : M umem unit :=
  modify (fun s => mkUmem (um_pm s) (set_region_of i (f (region_of i (um_wh s))) (um_wh s))).
Definition set_begin x r := mkMmap x (npages r) (mnext r).
Definition set_npages x r := mkMmap (begin_ r) x (mnext r).
Definition set_mnext x r := mkMmap (begin_ r) (npages r) x.

(** The end of a region: its [begin] plus [npages as usize * PGSIZE]. *)
Definition region_end (r : MmapRegion) : M umem Z :=
  sz ← umul (npages r) PGSIZE; uadd (begin_ r) sz.

(** List walks visit each node once. *)
Definition LIST_FUEL : nat := S (S N_MMAP).

Definition map_pages (root va n : Z) : M umem (result unit UvmError) :=
  let a := align_down va in
  sz ← umul n PGSIZE;
  last ← uadd a sz;
  on_pm (map_fresh_range root a last).

(** The address search of [mmap] when none is asked for: the begin found (0
    for none) and the cursor past the last region. *)
Definition find_gap (head : option nat) (np mmap_begin : Z) : M umem (Z * Z) :=
  loop LIST_FUEL (fun '(cur, cursor) =>
    match cur with
    | None => mret (inr (0, cursor))
    | Some c =>
        r ← deref c;
        if cursor <=? begin_ r then
          let gap := sat_sub (begin_ r) cursor in
          need ← umul np PGSIZE;
          if need <=? gap then mret (inr (cursor, cursor))
          else
            cursor' ← region_end r;
            mret (inl (mnext r, cursor'))
        else mret (inl (mnext r, cursor))
    end) (head, mmap_begin).

(** The first region at or after [begin], and the one before it. *)
Definition find_slot (head : option nat) (b : Z) : M umem (option nat * option nat) :=
  loop LIST_FUEL (fun '(prv, cur) =>
    match cur with
    | None => mret (inr (prv, cur))
    | Some c =>
        r ← deref c;
        if begin_ r <? b then mret (inl (Some c, mnext r)) else mret (inr (prv, cur))
    end) (None, head).

(** Store [p] in the list head, or in the [next] field of the node before. *)
Definition link_after (prv : option nat) (p head : option nat) : M umem (option nat) :=
  match prv with
  | None => mret p
  | Some q => write_region q (set_mnext p);; mret head
  end.

(** The three ways [mmap] records the range [b, end_): the region before it
    grows (and swallows the one after when they meet), the region after it grows
    downwards, or it gets a region of its own. The results carry the new list
    head. *)
Definition mmap_grow_prev (root : Z) (head : option nat) (p : nat) (cur : option nat) (consume_next : bool) (end_ merged_end : Z)
  : M umem (result Z UvmError * option nat) :=
  pr ← deref p;
  pe ← region_end pr;
  m ← (if pe <? end_ then map_pages root pe ((end_ - pe) / PGSIZE) else mret (Ok tt));
  match m with
  | Err e => mret (Err e, head)
  | Ok _ =>
      write_region p (set_npages (wrap32 ((merged_end - begin_ pr) / PGSIZE)));;
      (match cur, consume_next with
       | Some c, true =>
           nr ← deref c;
           next_end ← region_end nr;
           write_region p (set_npages (wrap32 ((next_end - begin_ pr) / PGSIZE)));;
           write_region p (set_mnext (mnext nr));;
           on_wh (mregion_free (Some c))
       | _, _ => mret tt
       end);;
      mret (Ok (begin_ pr), head)
  end.
Definition mmap_grow_next (root : Z) (head prv : option nat) (c : nat) (b end_ merged_end : Z) : M umem (result Z UvmError * option nat) :=
  m ← map_pages root b ((end_ - b) / PGSIZE);
  match m with
  | Err e => mret (Err e, head)
  | Ok _ =>
      write_region c (set_begin b);;
      write_region c (set_npages (wrap32 ((merged_end - b) / PGSIZE)));;
      head' ← link_after prv (Some c) head;
      mret (Ok b, head')
  end.
Definition mmap_new (root : Z) (head prv cur : option nat) (b np : Z) : M umem (result Z UvmError * option nat) :=
  m ← map_pages root b np;
  match m with
  | Err e => mret (Err e, head)
  | Ok _ =>
      o ← on_wh mregion_alloc;
      match o with
      | None => mret (Err NoMem, head)
      | Some node =>
          write_region node (fun _ => mkMmap b (wrap32 np) cur);;
          head' ← link_after prv (Some node) head;
          mret (Ok b, head')
      end
  end.

(** The tail of [mmap], once [begin] is chosen and checked. *)
Definition mmap_at (root : Z) (head : option nat) (b np : Z) : M umem (result Z UvmError * option nat) :=
  sz ← umul np PGSIZE;
  end_ ← uadd b sz;
  '(prv, cur) ← find_slot head b;
  prev_end ← (match prv with Some p => r ← deref p; e ← region_end r; mret (Some e) | None => mret None end);
  cur_r ← (match cur with Some c => r ← deref c; mret (Some r) | None => mret None end);
  if (match prev_end with Some e => b <? e | None => false end) then mret (Err OutOfRange, head)
  else if (match cur_r with Some r => begin_ r <? end_ | None => false end) then mret (Err OutOfRange, head)
  else
    let use_prev := match prev_end with Some e => e =? b | None => false end in
    let consume_next := match cur_r with Some r => end_ =? begin_ r | None => false end in
    merged_end ← (match cur_r with
      | Some r => if end_ =? begin_ r then region_end r else mret end_
      | None => mret end_
      end);
    match prv, use_prev with
    | Some p, true => mmap_grow_prev root head p cur consume_next end_ merged_end
    | _, _ =>
        match cur, consume_next with
        | Some c, true => mmap_grow_next root head prv c b end_ merged_end
        | _, _ => mmap_new root head prv cur b np
        end
    end.

Definition uvm_mmap (root : Z) (head : option nat) (begin0 len mmap_begin mmap_end : Z)
  : M umem (result Z UvmError * option nat) :=
  if len =? 0 then mret (Err OutOfRange, head)
  else
    l ← align_up len;
    let np := l / PGSIZE in
    if np =? 0 then mret (Err OutOfRange, head)
    else
      chosen ← (if begin0 =? 0 then
        '(b, cursor) ← find_gap head np mmap_begin;
        if b =? 0 then
          need ← umul np PGSIZE;
          if need <=? sat_sub mmap_end cursor then mret (Some cursor) else mret None
        else mret (Some b)
      else mret (Some begin0));
      match chosen with
      | None => mret (Err OutOfRange, head)
      | Some b =>
          bad ← (if b <? mmap_begin then mret true
                 else
                   sz ← umul np PGSIZE;
                   top ← uadd b sz;
                   mret ((mmap_end <? top) || negb (Z.land b (PGSIZE - 1) =? 0)));
          if bad : bool then mret (Err OutOfRange, head) else mmap_at root head b np
      end.

(** One round of [munmap] over the region [c]; the state is the list head, the
    predecessor, the current region and [unmap_start]. *)
Definition munmap_body (root end_ : Z) (st : option nat * option nat * option nat * Z)
  : M umem ((option nat * option nat * option nat * Z) + (result unit UvmError * option nat)) :=
  let '(head, prv, cur, unmap_start) := st in
  match cur with
  | None => mret (inr (Ok tt, head))
  | Some c =>
      if unmap_start <? end_ then
        r ← deref c;
        cur_end ← region_end r;
        let cur_begin := begin_ r in
        if end_ <=? cur_begin then mret (inr (Ok tt, head))
        else
          let s := Z.max unmap_start cur_begin in
          let e := Z.min end_ cur_end in
          if s <? e then
            ok ← on_pm (pt_unmap root s (e - s) true);
            if negb ok then mret (inr (Err MapFailed, head))
            else if (s =? cur_begin) && (e =? cur_end) then
              head' ← link_after prv (mnext r) head;
              on_wh (mregion_free (Some c));;
              mret (inl (head', prv, mnext r, e))
            else if s =? cur_begin then
              write_region c (set_begin e);;
              write_region c (set_npages (wrap32 ((cur_end - e) / PGSIZE)));;
              mret (inl (head, Some c, mnext r, e))
            else if e =? cur_end then
              write_region c (set_npages (wrap32 ((s - cur_begin) / PGSIZE)));;
              mret (inl (head, Some c, mnext r, e))
            else
              o ← on_wh mregion_alloc;
              match o with
              | None => mret (inr (Err NoMem, head))
              | Some node =>
                  write_region node (fun _ => mkMmap e (wrap32 ((cur_end - e) / PGSIZE)) (mnext r));;
                  write_region c (set_npages (wrap32 ((s - cur_begin) / PGSIZE)));;
                  write_region c (set_mnext (Some node));;
                  mret (inl (head, Some c, mnext r, e))
              end
          else
            d ← usub e s;
            us ← uadd s d;
            mret (inl (head, Some c, mnext r, us))
      else mret (inr (Ok tt, head))
  end.

Definition uvm_munmap (root : Z) (head : option nat) (begin0 len : Z) : M umem (result unit UvmError * option nat) :=
  if len =? 0 then mret (Ok tt, head)
  else
    let start := align_down begin0 in
    t ← uadd begin0 len;
    end_ ← align_up t;
    if end_ <=? start then mret (Ok tt, head)
    else
      '(prv, cur) ← loop LIST_FUEL (fun '(prv, cur) =>
        match cur with
        | None => mret (inr (prv, cur))
        | Some c =>
            r ← deref c;
            e ← region_end r;
            if e <=? start then mret (inl (Some c, mnext r)) else mret (inr (prv, cur))
        end) (None, head);
      match cur with
      | None => mret (Ok tt, head)
      | Some _ => loop LIST_FUEL (munmap_body root end_) (head, prv, cur, start)
      end.

(** ** What a user address means *)

(** The page a user access of [va] reaches, in the terms of the translation:
    [need] is the permission the access requires. *)
Definition page_access (s : pmem) (T : gmap (list Z) Z) (need va : Z) : result Z CopyError :=
  if VA_MAX <=? va then Err NotMapped
  else match trans s T va with
       | None => Err NotMapped
       | Some pte =>
           if negb (is_leaf pte) then Err NotMapped
           else if (Z.land (get_flags pte) PTE_U =? 0) || (Z.land (get_flags pte) need =? 0) then Err NoPerm
           else Ok (pte_to_pa pte)
       end.

(** Reading and writing user memory one byte at a time. *)
Fixpoint read_user (s : pmem) (T : gmap (list Z) Z) (va : Z) (n : nat) : list Z * option CopyError :=
  match n with
  | O => ([], None)
  | S n' =>
      match page_access s T PTE_R va with
      | Err e => ([], Some e)
      | Ok pa =>
          let '(bs, e) := read_user s T (va + 1) n' in
          (phys_byte (mem s) (pa + va mod PGSIZE) :: bs, e)
      end
  end.

Fixpoint write_user (s : pmem) (T : gmap (list Z) Z) (m : Z -> Z) (va : Z) (bs : list Z) : (Z -> Z) * option CopyError :=
  match bs with
  | [] => (m, None)
  | b :: bs' =>
      match page_access s T PTE_W va with
      | Err e => (m, Some e)
      | Ok pa => write_user s T (put_byte m (pa + va mod PGSIZE) b) (va + 1) bs'
      end
  end.



Lemma is_leaf_get_flags pte : (Z.land (get_flags pte) 0xE =? 0) = negb (is_leaf pte).
Proof.
  unfold is_leaf, get_flags. rewrite negb_involutive. f_equal.
  change (Z.lor (Z.lor PTE_R PTE_W) PTE_X) with 0xE. rewrite <-Z.land_assoc. reflexivity.
Qed.

Lemma va_max_page va : VA_MAX <= va <-> 2 ^ 26 <= va / PGSIZE.
Proof.
  change VA_MAX with (PGSIZE * 2 ^ 26). split; [by apply Z.div_le_lower_bound|].
  intros H. transitivity (PGSIZE * (va / PGSIZE)); [unfold PGSIZE in *; lia|by apply Z.mul_div_le].
Qed.

Lemma page_access_page s T need va va' :
  va / PGSIZE = va' / PGSIZE -> page_access s T need va = page_access s T need va'.
Proof.
  intros Hp. unfold page_access.
  assert ((VA_MAX <=? va) = (VA_MAX <=? va')) as ->.
  { apply eq_true_iff_eq. by rewrite !Z.leb_le, !va_max_page, Hp. }
  by rewrite (trans_page s T va va').
Qed.

Lemma splice_parts {A} (a b c : list A) i m : i = (length a + length b)%nat ->
  take i (a ++ b ++ c) = a ++ b /\ drop (i + m) (a ++ b ++ c) = drop m c.
Proof.
  intros ->. rewrite <-length_app, app_assoc. split; [apply take_app_length|].
  rewrite <-drop_drop. by rewrite drop_app_length.
Qed.

Section copies.
Context (kb ub : RegionBounds) (root : Z).

Lemma user_page_run s T need va : pt_wf kb ub s root T -> 0 <= va < U64 ->
  user_page root va need s = Ret (page_access s T need va) s.
Proof.
  intros Hwf Hva.
  rewrite (page_access_page s T need va (align_down va)) by (by rewrite align_down_eq, Z.div_mul).
  unfold user_page, page_access. set (b := align_down va).
  destruct (Z.leb_spec VA_MAX b).
  { erewrite bind_run by (unfold pt_lookup; rewrite (proj2 (Z.leb_le _ _)) by done; reflexivity). done. }
  erewrite bind_run by by eapply lookup_run.
  unfold trans. destruct (leaf_ref T b) as [a|]; [|done]. simpl.
  erewrite bind_run by reflexivity.
  destruct (is_valid (mem s a)) eqn:Hv; [|done]. simpl.
  rewrite is_leaf_get_flags. destruct (is_leaf (mem s a)); [|done]. simpl.
  by destruct (_ || _).
Qed.

Lemma page_access_range s T need va pa : page_access s T need va = Ok pa -> va < VA_MAX /\ 0 <= pa < 2 ^ 56 /\ pa mod PGSIZE = 0.
Proof.
  unfold page_access. destruct (Z.leb_spec VA_MAX va); [done|].
  destruct (trans s T va) as [pte|]; [|done]. destruct (negb _); [done|]. destruct (_ || _); [done|].
  intros [= <-]. split; [done|]. split; [apply pte_to_pa_range|apply pte_to_pa_aligned].
Qed.

(** Inside a page, the bytewise read is one contiguous piece. *)
Lemma read_user_page s T pa va k n : page_access s T PTE_R va = Ok pa ->
  va mod PGSIZE + Z.of_nat k <= PGSIZE ->
  read_user s T va (k + n) =
    (fun r => ((phys_byte (mem s) <$> seqZ (pa + va mod PGSIZE) (Z.of_nat k)) ++ fst r, snd r))
      (read_user s T (va + Z.of_nat k) n).
Proof.
  revert va. induction k as [|k IH]; intros va Hpa Hk.
  - simpl. rewrite Z.add_0_r. by destruct (read_user s T va n).
  - rewrite seqZ_cons by lia. simpl. rewrite Hpa.
    destruct (Nat.eq_dec k 0) as [->|Hk0].
    { simpl. replace (va + 1) with (va + Z.of_nat 1) by lia. by destruct (read_user s T _ n). }
    assert (Hp : (va + 1) / PGSIZE = va / PGSIZE) by div_lia.
    assert (Hm : (va + 1) mod PGSIZE = va mod PGSIZE + 1) by div_lia.
    rewrite IH; [|by rewrite (page_access_page _ _ _ _ va)|lia]. simpl. rewrite Hm.
    f_equal; [|do 2 f_equal; lia]. f_equal. f_equal; [|do 2 f_equal; lia].
    do 2 f_equal; lia.
Qed.

(** The length of the piece a round copies. *)
Lemma piece_spec va len : 0 <= va < U64 -> 0 < len ->
  page_offset va = va mod PGSIZE /\
  let n := Z.min (PGSIZE - page_offset va) len in 0 < n <= len /\ va mod PGSIZE + n <= PGSIZE.
Proof.
  intros Hva Hlen. rewrite page_offset_eq. split; [done|]. cbv zeta.
  pose proof (Z.mod_pos_bound va PGSIZE). page_lia.
Qed.

Lemma after_piece va n : va < VA_MAX -> 0 <= va -> va mod PGSIZE + n <= PGSIZE -> va + n <= VA_MAX.
Proof. change VA_MAX with (PGSIZE * 2 ^ 26). intros. div_lia. Qed.

Lemma copyin_body_run s T copied va dst : pt_wf kb ub s root T ->
  0 <= copied < Z.of_nat (length dst) -> 0 <= va < U64 ->
  copyin_body root (Z.of_nat (length dst)) (copied, va, dst) s =
    Ret match page_access s T PTE_R va with
        | Err e => inr (dst, Some e)
        | Ok pa =>
            let n := Z.min (PGSIZE - va mod PGSIZE) (Z.of_nat (length dst) - copied) in
            inl (copied + n, va + n, take (Z.to_nat copied) dst ++
              (phys_byte (mem s) <$> seqZ (pa + va mod PGSIZE) n) ++ drop (Z.to_nat (copied + n)) dst)
        end s.
Proof.
  intros Hwf Hc Hva. unfold copyin_body. rewrite (proj2 (Z.ltb_lt _ _)) by lia.
  rewrite (bind_run _ _ _ _ _ (user_page_run s T PTE_R va Hwf Hva)).
  destruct (page_access s T PTE_R va) as [pa|e] eqn:Hpa; [|done].
  destruct (piece_spec va (Z.of_nat (length dst) - copied)) as (Hoff & Hn & Hpg); [done|lia|].
  rewrite Hoff in *. cbv zeta in *.
  erewrite bind_run by reflexivity. erewrite bind_run; [reflexivity|].
  apply checked_run. destruct (page_access_range _ _ _ _ _ Hpa) as (Hlt & _).
  pose proof (after_piece va _ Hlt (proj1 Hva) Hpg). change VA_MAX with 274877906944 in *. page_lia.
Qed.

Lemma copyin_loop s T : pt_wf kb ub s root T -> forall fuel rest copied va dst,
  (rest < fuel)%nat -> (copied + rest = length dst)%nat -> 0 <= va < U64 ->
  loop fuel (copyin_body root (Z.of_nat (length dst))) (Z.of_nat copied, va, dst) s =
    Ret (take copied dst ++ fst (read_user s T va rest) ++
         drop (copied + length (fst (read_user s T va rest))) dst, snd (read_user s T va rest)) s.
Proof.
  intros Hwf fuel. induction fuel as [|fuel IH]; intros rest copied va dst Hf Hlen Hva; [lia|].
  destruct rest as [|rest].
  { simpl. unfold copyin_body. rewrite (proj2 (Z.ltb_ge _ _)) by lia.
    erewrite bind_run by reflexivity. simpl. by rewrite Nat.add_0_r, take_drop. }
  cbn [loop]. erewrite bind_run by (apply copyin_body_run; [exact Hwf|lia|done]).
  destruct (page_access s T PTE_R va) as [pa|e] eqn:Hpa.
  - destruct (piece_spec va (Z.of_nat (length dst) - Z.of_nat copied)) as (Hoff & Hn & Hpg); [done|lia|].
    rewrite Hoff in Hn, Hpg. cbv zeta in *.
    set (n := Z.min _ _) in *. pose (k := Z.to_nat n).
    replace n with (Z.of_nat k) in * by (unfold k; lia). clearbody k. clear n.
    destruct (page_access_range _ _ _ _ _ Hpa) as (Hlt & _).
    pose proof (after_piece va _ Hlt (proj1 Hva) Hpg) as Hmax. change VA_MAX with 274877906944 in Hmax.
    replace (S rest) with (k + (S rest - k))%nat by lia.
    rewrite (read_user_page s T pa) by (done || lia). cbn [fst snd].
    set (dst' := take _ dst ++ _ ++ _).
    assert (Hd : length dst' = length dst).
    { unfold dst'. rewrite !length_app, length_take, length_drop, length_fmap, length_seqZ. lia. }
    rewrite <-Hd at 1. rewrite <-Nat2Z.inj_add. rewrite (IH (S rest - k)%nat); [|lia|lia|unfold U64; lia].
    f_equal. f_equal. set (bs := phys_byte (mem s) <$> _) in *.
    assert (Hbs : length bs = k) by (unfold bs; rewrite length_fmap, length_seqZ; lia).
    set (r := fst _). rewrite !length_app, Hbs. unfold dst'. rewrite !Nat2Z.id.
    destruct (splice_parts (take copied dst) bs (drop (Z.to_nat (Z.of_nat copied + Z.of_nat k)) dst)
      (copied + k) (length r)) as [-> ->]; [rewrite length_take; lia|].
    rewrite drop_drop, <-!app_assoc. do 4 f_equal. lia.
  - cbn [read_user]. rewrite Hpa. simpl. rewrite Nat.add_0_r, take_drop. done.
Qed.

(** Writable user pages are not page-table pages. *)
Definition tables_protected (s : pmem) (T : gmap (list Z) Z) : Prop :=
  forall va pa path, 0 <= va -> page_access s T PTE_W va = Ok pa -> T !! path <> Some pa.

Definition same_tables (T : gmap (list Z) Z) (m m' : Z -> Z) : Prop :=
  forall path p a, T !! path = Some p -> in_page p a -> m' a = m a.

Lemma trans_same s T m : pt_wf kb ub s root T -> same_tables T (mem s) m ->
  forall va, trans (set_mem m s) T va = trans s T va.
Proof.
  intros Hwf Hm va. unfold trans, leaf_ref. destruct (T !! _) as [t|] eqn:Ht; [|done]. simpl.
  by rewrite (Hm _ _ _ Ht) by by apply entry_in_page, vpn_range.
Qed.

Lemma access_same s T m need va : pt_wf kb ub s root T -> same_tables T (mem s) m ->
  page_access (set_mem m s) T need va = page_access s T need va.
Proof. intros Hwf Hm. unfold page_access. by rewrite (trans_same s T m Hwf Hm). Qed.

Lemma wf_same s T m : pt_wf kb ub s root T -> same_tables T (mem s) m -> pt_wf kb ub (set_mem m s) root T.
Proof.
  intros Hwf Hm. split; try apply Hwf. intros path p i Hp Hl Hi. simpl.
  rewrite (Hm _ _ _ Hp) by by apply entry_in_page. by apply (wf_entry _ _ _ _ _ Hwf).
Qed.

Lemma put_byte_other m a b a' : a' <> a - a mod 8 -> put_byte m a b a' = m a'.
Proof. intros. unfold put_byte. by apply upd_ne. Qed.

Lemma put_bytes_app m a l l' : put_bytes m a (l ++ l') = put_bytes (put_bytes m a l) (a + Z.of_nat (length l)) l'.
Proof.
  revert m a. induction l as [|b l IH]; intros m a; simpl; [by rewrite Z.add_0_r|].
  rewrite IH. f_equal. lia.
Qed.

(** Bytes put inside a page that is no table leave the tables alone. *)
Lemma put_bytes_tables s T m pa off l : pt_wf kb ub s root T -> (forall path, T !! path <> Some pa) ->
  pa mod PGSIZE = 0 -> 0 <= off -> off + Z.of_nat (length l) <= PGSIZE ->
  same_tables T (mem s) m -> same_tables T (mem s) (put_bytes m (pa + off) l).
Proof.
  intros Hwf Hpa Hal. revert m off. induction l as [|b l IH]; intros m off Hoff Hlen Hm; [done|].
  simpl in *. rewrite <-Z.add_assoc. apply IH; [lia|lia|].
  intros path p a Hp Ha. rewrite <-(Hm path p a Hp Ha). apply put_byte_other. intros ->.
  apply (Hpa path). rewrite Hp. f_equal. destruct (wf_owned _ _ _ _ _ Hwf _ _ Hp) as (Hp0 & _).
  unfold in_page in Ha. div_lia.
Qed.

Lemma write_user_page s T m pa va l l' : page_access s T PTE_W va = Ok pa ->
  va mod PGSIZE + Z.of_nat (length l) <= PGSIZE ->
  write_user s T m va (l ++ l') = write_user s T (put_bytes m (pa + va mod PGSIZE) l) (va + Z.of_nat (length l)) l'.
Proof.
  revert m va. induction l as [|b l IH]; intros m va Hpa Hl; simpl; [by rewrite Z.add_0_r|].
  rewrite Hpa. simpl in Hl. destruct l as [|b' l].
  { simpl. done. }
  assert (Hp : (va + 1) / PGSIZE = va / PGSIZE) by (simpl in Hl; div_lia).
  assert (Hm : (va + 1) mod PGSIZE = va mod PGSIZE + 1) by (simpl in Hl; div_lia).
  rewrite IH; [|by rewrite (page_access_page _ _ _ _ va)|lia]. rewrite Hm. f_equal; [|lia]. f_equal. lia.
Qed.

Lemma copyout_body_run s T src copied va m : pt_wf kb ub s root T -> same_tables T (mem s) m ->
  0 <= copied < Z.of_nat (length src) -> 0 <= va < U64 ->
  copyout_body root src (copied, va) (set_mem m s) =
    match page_access s T PTE_W va with
    | Err e => Ret (inr (Some e)) (set_mem m s)
    | Ok pa =>
        let n := Z.min (PGSIZE - va mod PGSIZE) (Z.of_nat (length src) - copied) in
        Ret (inl (copied + n, va + n)) (set_mem (put_bytes m (pa + va mod PGSIZE)
          (take (Z.to_nat n) (drop (Z.to_nat copied) src))) s)
    end.
Proof.
  intros Hwf Hm Hc Hva. unfold copyout_body. rewrite (proj2 (Z.ltb_lt _ _)) by lia.
  rewrite (bind_run _ _ _ _ _ (user_page_run _ T PTE_W va (wf_same s T m Hwf Hm) Hva)).
  rewrite (access_same s T m) by done.
  destruct (page_access s T PTE_W va) as [pa|e] eqn:Hpa; [|done].
  destruct (piece_spec va (Z.of_nat (length src) - copied)) as (Hoff & Hn & Hpg); [done|lia|].
  rewrite Hoff in *. cbv zeta in *.
  erewrite bind_run by reflexivity. erewrite bind_run; [reflexivity|].
  apply checked_run. destruct (page_access_range _ _ _ _ _ Hpa) as (Hlt & _).
  pose proof (after_piece va _ Hlt (proj1 Hva) Hpg). change VA_MAX with 274877906944 in *. page_lia.
Qed.

Lemma copyout_loop s T src : pt_wf kb ub s root T -> tables_protected s T ->
  forall fuel rest copied va m, (rest < fuel)%nat -> (copied + rest = length src)%nat -> 0 <= va < U64 ->
  same_tables T (mem s) m ->
  loop fuel (copyout_body root src) (Z.of_nat copied, va) (set_mem m s) =
    Ret (snd (write_user s T m va (drop copied src))) (set_mem (fst (write_user s T m va (drop copied src))) s).
Proof.
  intros Hwf Hprot fuel. induction fuel as [|fuel IH]; intros rest copied va m Hf Hlen Hva Hm; [lia|].
  cbn [loop]. destruct rest as [|rest].
  { erewrite bind_run by (unfold copyout_body; rewrite (proj2 (Z.ltb_ge _ _)) by lia; reflexivity).
    by rewrite drop_ge by lia. }
  pose proof (copyout_body_run s T src (Z.of_nat copied) va m Hwf Hm ltac:(lia) Hva) as Hrun.
  destruct (page_access s T PTE_W va) as [pa|e] eqn:Hpa; cbv zeta in Hrun; rewrite (bind_run _ _ _ _ _ Hrun).
  - destruct (piece_spec va (Z.of_nat (length src) - Z.of_nat copied)) as (Hoff & Hn & Hpg); [done|lia|].
    rewrite Hoff in Hn, Hpg. cbv zeta in *. clear Hrun.
    set (n := Z.min _ _) in *. pose (k := Z.to_nat n).
    replace n with (Z.of_nat k) in * by (unfold k; lia). clearbody k. clear n.
    destruct (page_access_range _ _ _ _ _ Hpa) as (Hlt & Hpar & Hpal).
    pose proof (after_piece va _ Hlt (proj1 Hva) Hpg) as Hmax. change VA_MAX with 274877906944 in Hmax.
    rewrite !Nat2Z.id. set (piece := take k (drop copied src)).
    assert (Hk : length piece = k) by (unfold piece; rewrite length_take, length_drop; lia).
    rewrite <-Nat2Z.inj_add, (IH (S rest - k)%nat); [|lia|lia|unfold U64; lia|].
    + rewrite <-(take_drop k (drop copied src)), drop_drop. fold piece.
      rewrite (write_user_page s T m pa) by (done || lia). by rewrite Hk.
    + apply put_bytes_tables; [done|intros path; eapply Hprot; [|done]; lia|done|apply Z.mod_pos_bound; done|lia|done].
  - destruct (drop copied src) as [|b l] eqn:Hd.
    { apply (f_equal length) in Hd. rewrite length_drop in Hd. simpl in Hd. lia. }
    simpl. rewrite Hpa. done.
Qed.
End copies.

(** ** Bytes *)

Lemma phys_byte_put m a b a' : 0 <= b < 256 ->
  phys_byte (put_byte m a b) a' = if a' =? a then b else phys_byte m a'.
Proof.
  intros Hb. unfold phys_byte at 1, put_byte.
  destruct (Z.eqb_spec (a' - a' mod 8) (a - a mod 8)) as [He|Hne].
  2: { rewrite upd_ne by done. destruct (Z.eqb_spec a' a); [congruence|done]. }
  rewrite He, upd_eq. unfold phys_byte. rewrite He.
  set (w := m (a - a mod 8)). set (k := a mod 8) in *. set (j := a' mod 8) in *.
  assert (0 <= k < 8) by by apply Z.mod_pos_bound. assert (0 <= j < 8) by by apply Z.mod_pos_bound.
  destruct (Z.eqb_spec a' a) as [->|Hd].
  - subst j k. rewrite Z.div_add by (apply Z.pow_nonzero; lia). Z.to_euclidean_division_equations; lia.
  - assert (j <> k) by lia. destruct (Z.lt_ge_cases j k).
    + replace k with (j + 1 + (k - j - 1)) by lia. rewrite !Z.pow_add_r, Z.pow_1_r by lia.
      replace (_ * (256 ^ j * 256 * 256 ^ (k - j - 1))) with ((b - w / (256 ^ j * 256 * 256 ^ (k - j - 1)) mod 256) * 256 ^ (k - j - 1) * 256 * 256 ^ j) by ring.
      rewrite Z.div_add by (apply Z.pow_nonzero; lia). by rewrite Z.mod_add.
    + replace j with (k + 1 + (j - k - 1)) by lia. rewrite !Z.pow_add_r, Z.pow_1_r by lia.
      rewrite <-!Z.div_div by (try apply Z.pow_nonzero; try apply Z.pow_pos_nonneg; lia).
      rewrite Z.div_add by (apply Z.pow_nonzero; lia). do 2 f_equal. Z.to_euclidean_division_equations; lia.
Qed.

(** [a] is the physical address a user access of [va] reaches. *)
Definition user_byte (s : pmem) (T : gmap (list Z) Z) (need va a : Z) : Prop :=
  exists pa, page_access s T need va = Ok pa /\ a = pa + va mod PGSIZE.

(** A range of user addresses that can be accessed, each at a place of its own. *)
Record user_range (s : pmem) (T : gmap (list Z) Z) (need va : Z) (n : nat) : Prop := {
  ur_access : forall i, (i < n)%nat -> exists a, user_byte s T need (va + Z.of_nat i) a;
  ur_inj : forall i j a, (i < n)%nat -> (j < n)%nat ->
    user_byte s T need (va + Z.of_nat i) a -> user_byte s T need (va + Z.of_nat j) a -> i = j;
}.

Lemma user_byte_fun s T need va a a' : user_byte s T need va a -> user_byte s T need va a' -> a = a'.
Proof. intros (p & Hp & ->) (p' & Hp' & ->). congruence. Qed.

Lemma user_range_tail s T need va n : user_range s T need va (S n) -> user_range s T need (va + 1) n.
Proof.
  assert (Hsh : forall i, va + 1 + Z.of_nat i = va + Z.of_nat (S i)) by lia.
  intros [Ha Hi]. split.
  - intros i Hn. rewrite Hsh. apply Ha. lia.
  - intros i j a Hn Hm. rewrite !Hsh. intros H1 H2. assert (S i = S j); [|lia].
    apply (Hi _ _ a); [lia|lia|done|done].
Qed.

Lemma write_user_spec s T bs : forall m va, Forall (fun b => 0 <= b < 256) bs ->
  user_range s T PTE_W va (length bs) ->
  snd (write_user s T m va bs) = None /\
  (forall i b a, bs !! i = Some b -> user_byte s T PTE_W (va + Z.of_nat i) a ->
     phys_byte (fst (write_user s T m va bs)) a = b) /\
  (forall a, (forall i, (i < length bs)%nat -> ~ user_byte s T PTE_W (va + Z.of_nat i) a) ->
     phys_byte (fst (write_user s T m va bs)) a = phys_byte m a).
Proof.
  induction bs as [|b bs IH]; intros m va Hbs Hr; [done|].
  apply Forall_cons in Hbs as [Hb Hbs].
  destruct (ur_access _ _ _ _ _ Hr 0%nat) as (a0 & pa & Hpa & Ha0); [simpl; lia|]. rewrite Z.add_0_r in *.
  simpl. rewrite Hpa.
  destruct (IH (put_byte m (pa + va mod PGSIZE) b) (va + 1) Hbs (user_range_tail _ _ _ _ _ Hr)) as (H1 & H2 & H3).
  assert (Hsh : forall i, va + Z.of_nat (S i) = va + 1 + Z.of_nat i) by lia.
  split_and!; [done| |].
  - intros [|i] b' a Hl Hu.
    + injection Hl as <-. rewrite Z.add_0_r in Hu. rewrite H3.
      * rewrite phys_byte_put by done. rewrite (user_byte_fun s T PTE_W va a a0); [|done|by exists pa].
        by rewrite (proj2 (Z.eqb_eq _ _) Ha0).
      * intros i Hi Hu'. enough (0%nat = S i) by done.
        apply (ur_inj _ _ _ _ _ Hr _ _ a); simpl; [lia|lia|by rewrite Z.add_0_r|by rewrite Hsh].
    + apply (H2 i); [done|by rewrite <-Hsh].
  - intros a Hout. rewrite H3.
    + rewrite phys_byte_put by done. destruct (Z.eqb_spec a (pa + va mod PGSIZE)) as [->|]; [|done].
      destruct (Hout 0%nat); [lia|]. rewrite Z.add_0_r. by exists pa.
    + intros i Hi. rewrite <-Hsh. apply Hout. lia.
Qed.

Lemma read_user_spec s T bs : forall va,
  (forall i b, bs !! i = Some b -> exists a, user_byte s T PTE_R (va + Z.of_nat i) a /\ phys_byte (mem s) a = b) ->
  read_user s T va (length bs) = (bs, None).
Proof.
  induction bs as [|b bs IH]; intros va H; [done|]. simpl.
  destruct (H 0%nat b eq_refl) as (a & (pa & Hpa & ->) & Hb). rewrite Z.add_0_r in *.
  rewrite Hpa, Hb, IH; [done|]. intros i b' Hi. destruct (H (S i) b' Hi) as (a & Ha & <-). exists a.
  replace (va + 1 + Z.of_nat i) with (va + Z.of_nat (S i)) by lia. done.
Qed.

(** The tables stay as they are when bytes go to writable user pages. *)
Lemma write_user_tables kb ub root s T : pt_wf kb ub s root T -> tables_protected s T ->
  forall bs m va, 0 <= va -> same_tables T (mem s) m -> same_tables T (mem s) (fst (write_user s T m va bs)).
Proof.
  intros Hwf Hprot bs. induction bs as [|b bs IH]; intros m va Hva Hm; [done|]. simpl.
  destruct (page_access s T PTE_W va) as [pa|] eqn:Hpa; [|done]. apply IH; [lia|].
  destruct (page_access_range _ _ _ _ _ Hpa) as (_ & _ & Hal).
  apply (put_bytes_tables kb ub root s T m pa (va mod PGSIZE) [b]);
    [done|intros path; eapply Hprot; [|done]; lia|done|by apply Z.mod_pos_bound| |done].
  pose proof (Z.mod_pos_bound va PGSIZE). simpl. page_lia.
Qed.

Lemma copyin_run kb ub root s T dst va : pt_wf kb ub s root T -> 0 <= va < U64 ->
  copyin root dst va s =
    Ret (fst (read_user s T va (length dst)) ++ drop (length (fst (read_user s T va (length dst)))) dst,
         snd (read_user s T va (length dst))) s.
Proof. intros Hwf Hva. apply (copyin_loop kb ub root s T Hwf _ (length dst) 0); [lia|lia|done]. Qed.

Lemma copyout_run kb ub root s T src va : pt_wf kb ub s root T -> tables_protected s T -> 0 <= va < U64 ->
  copyout root va src s =
    Ret (snd (write_user s T (mem s) va src)) (set_mem (fst (write_user s T (mem s) va src)) s).
Proof.
  intros Hwf Hprot Hva.
  pose proof (copyout_loop kb ub root s T src Hwf Hprot (S (length src)) (length src) 0 va (mem s)) as H.
  rewrite drop_0 in H. replace (set_mem (mem s) s) with s in H by by destruct s.
  apply H; [lia|lia|done|done].
Qed.

(** The machine with one page of user memory at 0x1000. *)
Definition demo_user : pmem := demo_map USER_FLAGS.

Lemma demo_user_ok : exists T, pmem_inv demo_kb demo_ub demo_user /\
  pt_wf demo_kb demo_ub demo_user demo_root T /\ tables_protected demo_user T /\
  forall need va, need = PTE_R \/ need = PTE_W -> 0 <= va < VA_MAX -> page_access demo_user T need va =
    if in_range 0x1000 0x2000 va then Ok demo_frame else Err NotMapped.
Proof.
  destruct (demo_map_ok USER_FLAGS) as (T & Hinv & Hwf & Hr & Hnot & Htr). exists T.
  assert (Hpg : forall need va, need = PTE_R \/ need = PTE_W -> 0 <= va < VA_MAX -> page_access demo_user T need va =
    if in_range 0x1000 0x2000 va then Ok demo_frame else Err NotMapped).
  { intros need va Hn Hva. unfold page_access. rewrite (proj2 (Z.leb_gt _ _)) by lia.
    unfold demo_user. rewrite Htr by done. destruct (in_range _ _ _); [|done]. by destruct Hn as [-> | ->]. }
  split_and!; [done|done| |done].
  intros va pa path Hva Hpa. destruct (page_access_range _ _ _ _ _ Hpa) as (Hlt & _).
  rewrite Hpg in Hpa by auto. destruct (in_range _ _ _); [|done]. injection Hpa as <-. apply Hnot.
Qed.

(** ** Properties *)

(** [copyin] is the byte-by-byte read of user memory: it stops with the
    bytewise error at the first inaccessible address, having filled the part
    of the buffer before it and nothing else; it always returns, changes no
    memory, and its address arithmetic never overflows. *)
Theorem copyin_correct kb ub root s T dst va :
  pt_wf kb ub s root T -> 0 <= va < U64 ->
  copyin root dst va s =
    Ret (fst (read_user s T va (length dst)) ++ drop (length (fst (read_user s T va (length dst)))) dst,
         snd (read_user s T va (length dst))) s.
Proof. apply copyin_run. Qed.

(** [copyout] is the byte-by-byte write of user memory, when no writable
    user page is a page table: it returns the bytewise error of the first
    inaccessible address, having written exactly the bytes before it, and the
    translation of every address is what it was. *)
Theorem copyout_correct kb ub root s T src va :
  pt_wf kb ub s root T -> tables_protected s T -> 0 <= va < U64 ->
  let '(m, e) := write_user s T (mem s) va src in
  copyout root va src s = Ret e (set_mem m s) /\
  pt_wf kb ub (set_mem m s) root T /\ forall va', trans (set_mem m s) T va' = trans s T va'.
Proof.
  intros Hwf Hprot Hva. destruct (write_user s T (mem s) va src) as [m e] eqn:Hw.
  assert (Hm : same_tables T (mem s) m)
    by (replace m with (fst (write_user s T (mem s) va src)) by (by rewrite Hw); eapply write_user_tables; [done|done|lia|done]).
  split; [|split; [by eapply wf_same|by eapply trans_same]].
  by rewrite (copyout_run kb ub root s T src va), Hw.
Qed.

Lemma copyin_correct_witness : exists T,
  copyin demo_root [1; 2; 3] 0x1FFE demo_user =
    Ret (fst (read_user demo_user T 0x1FFE 3) ++ drop (length (fst (read_user demo_user T 0x1FFE 3))) [1; 2; 3],
         snd (read_user demo_user T 0x1FFE 3)) demo_user /\
  snd (read_user demo_user T 0x1FFE 3) = Some NotMapped.
Proof.
  destruct demo_user_ok as (T & Hinv & Hwf & Hprot & Hpg). exists T. split.
  - exact (copyin_correct demo_kb demo_ub demo_root demo_user T [1; 2; 3] 0x1FFE Hwf
      (conj (ltac:(discriminate) : 0 <= 0x1FFE) (eq_refl : 0x1FFE < U64))).
  - cbn [read_user]. rewrite !Hpg by first [by left|split; [discriminate|reflexivity]]. reflexivity.
Defined.

Lemma copyout_correct_witness : exists T e,
  copyout demo_root 0x1800 [7; 8] demo_user = Ret e
    (set_mem (fst (write_user demo_user T (mem demo_user) 0x1800 [7; 8])) demo_user) /\ e = None.
Proof.
  destruct demo_user_ok as (T & Hinv & Hwf & Hprot & Hpg). exists T.
  pose proof (copyout_correct demo_kb demo_ub demo_root demo_user T [7; 8] 0x1800 Hwf Hprot
    (conj (ltac:(discriminate) : 0 <= 0x1800) (eq_refl : 0x1800 < U64))) as H.
  exists (snd (write_user demo_user T (mem demo_user) 0x1800 [7; 8])).
  destruct (write_user demo_user T (mem demo_user) 0x1800 [7; 8]) as [m e] eqn:Hw in H |- *.
  destruct H as [H _]. cbn [fst snd]. split; [exact H|]. clear H. cbn [write_user] in Hw.
  rewrite !Hpg in Hw by first [by right|split; [discriminate|reflexivity]].
  change (in_range 0x1000 0x2000 0x1800) with true in Hw.
  change (in_range 0x1000 0x2000 (0x1800 + 1)) with true in Hw.
  apply (f_equal snd) in Hw. exact (eq_sym Hw).
Defined.

(** C7: what the kernel copies out to a readable and writable range of user
    memory, whose addresses reach different places, it reads back unchanged;
    and no byte outside the range is touched. *)
Theorem user_copy_roundtrip kb ub root s T src dst va :
  pt_wf kb ub s root T -> tables_protected s T -> 0 <= va -> va + Z.of_nat (length src) <= U64 ->
  Forall (fun b => 0 <= b < 256) src -> length dst = length src ->
  user_range s T PTE_W va (length src) ->
  (forall i, (i < length src)%nat -> page_access s T PTE_R (va + Z.of_nat i) = page_access s T PTE_W (va + Z.of_nat i)) ->
  exists s', copyout root va src s = Ret None s' /\ copyin root dst va s' = Ret (src, None) s' /\
    forall a, (forall i, (i < length src)%nat -> ~ user_byte s T PTE_W (va + Z.of_nat i) a) ->
      phys_byte (mem s') a = phys_byte (mem s) a.
Proof.
  intros Hwf Hprot Hva Hend Hbs Hdst Hr Hrw.
  destruct src as [|b0 src0] eqn:Hsrc; [destruct dst; [|done]; by exists s|]. rewrite <-Hsrc in *.
  assert (Hlen : (0 < length src)%nat) by (rewrite Hsrc; simpl; lia).
  set (m := fst (write_user s T (mem s) va src)).
  destruct (write_user_spec s T src (mem s) va Hbs Hr) as (Hn & Hin & Hout).
  assert (Hm : same_tables T (mem s) m) by by eapply write_user_tables.
  exists (set_mem m s). split_and!; [| |exact Hout].
  - by rewrite (copyout_run kb ub root s T src va), Hn by (done || lia).
  - rewrite (copyin_run kb ub root (set_mem m s) T dst va (wf_same _ _ _ _ _ _ Hwf Hm)) by lia.
    rewrite Hdst, (read_user_spec (set_mem m s) T src va).
    + simpl. by rewrite <-Hdst, drop_all, app_nil_r.
    + intros i b Hi. assert (Hil : (i < length src)%nat) by by eapply lookup_lt_Some.
      destruct (ur_access _ _ _ _ _ Hr i Hil) as (a & pa & Hpa & ->). eexists. split.
      * exists pa. split; [|reflexivity]. by rewrite (access_same kb ub root) by done; rewrite Hrw.
      * apply (Hin i); [done|]. by exists pa.
Qed.

Lemma user_copy_roundtrip_witness : exists s',
  copyout demo_root 0x1800 [7; 8; 9] demo_user = Ret None s' /\
  copyin demo_root [0; 0; 0] 0x1800 s' = Ret ([7; 8; 9], None) s'.
Proof.
  destruct demo_user_ok as (T & Hinv & Hwf & Hprot & Hpg).
  assert (Hacc : forall i need, need = PTE_R \/ need = PTE_W -> (i < 3)%nat ->
    page_access demo_user T need (0x1800 + Z.of_nat i) = Ok demo_frame).
  { intros i need Hn Hi. rewrite Hpg by (done || (change VA_MAX with 274877906944; lia)).
    by rewrite (proj2 (in_range_true _ _ _)) by lia. }
  destruct (user_copy_roundtrip demo_kb demo_ub demo_root demo_user T [7; 8; 9] [0; 0; 0] 0x1800 Hwf Hprot)
    as (s' & Hout & Hin & _).
  - lia.
  - discriminate.
  - repeat constructor; lia.
  - reflexivity.
  - split.
    + intros i Hi. eexists. exists demo_frame. split; [apply Hacc; [by right|done]|reflexivity].
    + intros i j a Hi Hj (p & Hp & ->) (q & Hq & Heq). rewrite Hacc in Hp, Hq by (done || by right).
      injection Hp as <-. injection Hq as <-. simpl in Hi, Hj. div_lia.
  - intros i Hi. by rewrite !Hacc by (done || (by left) || (by right)).
  - exists s'. split; [exact Hout|exact Hin].
Defined.
