(* ===== verification/PhysBytes.v ===== *)
(** * Bytes in physical memory

    What runs of bytes written to the word memory of [mem/pmem.rs] do to it:
    shared by the loaders, which fill pages, and the disk driver, whose ring
    has fields of two, four and eight bytes. *)
From S2P Require Import Prelude Addr PhysMem PageTable MmapWarehouse Uvm.

(** ** Bytes placed in a page *)

Definition is_byte (b : Z) : Prop := 0 <= b < 256.

Lemma phys_byte_put_bytes bs : forall m a a', Forall is_byte bs ->
  phys_byte (put_bytes m a bs) a' = if (a <=? a') && (a' <? a + Z.of_nat (length bs)) then nth (Z.to_nat (a' - a)) bs 0 else phys_byte m a'.
Proof.
  induction bs as [|b bs IH]; intros m a a' Hb; cbn [put_bytes length].
  { replace (a + Z.of_nat 0) with a by lia. destruct (Z.leb_spec a a'), (Z.ltb_spec a' a); try done; lia. }
  apply Forall_cons in Hb as [Hb Hbs]. rewrite IH, phys_byte_put by done.
  destruct (Z.leb_spec a a'), (Z.leb_spec (a + 1) a'), (Z.ltb_spec a' (a + 1 + Z.of_nat (length bs))), (Z.ltb_spec a' (a + Z.of_nat (S (length bs))));
    cbn [andb]; try lia; destruct (Z.eqb_spec a' a); subst; try lia; try done.
  - replace (Z.to_nat (a' - a)) with (S (Z.to_nat (a' - (a + 1)))) by lia. done.
  - by replace (Z.to_nat (a - a)) with 0%nat by lia.
Qed.

(** Writing to an aligned page is writing at its offset. *)
Lemma put_byte_shift m m0 p a b : p mod 8 = 0 -> 0 <= a < PGSIZE -> (forall o, 0 <= o < PGSIZE -> m (p + o) = m0 o) ->
  forall o, 0 <= o < PGSIZE -> put_byte m (p + a) b (p + o) = put_byte m0 a b o.
Proof.
  intros Hp Ha Hm o Ho. unfold put_byte, phys_byte. rewrite <-!(Zplus_mod_idemp_l p), !Hp, !Z.add_0_l.
  replace (p + a - a mod 8) with (p + (a - a mod 8)) by lia.
  assert (Hw : 0 <= a - a mod 8 < PGSIZE) by (unfold PGSIZE in *; clear Hp; Z.to_euclidean_division_equations; lia). rewrite !Hm by done.
  destruct (Z.eq_dec o (a - a mod 8)) as [->|Hne]; [by rewrite !upd_eq|rewrite !upd_ne by lia; by apply Hm].
Qed.
Lemma put_bytes_shift bs : forall m m0 p a, p mod 8 = 0 -> 0 <= a -> a + Z.of_nat (length bs) <= PGSIZE ->
  (forall o, 0 <= o < PGSIZE -> m (p + o) = m0 o) ->
  forall o, 0 <= o < PGSIZE -> put_bytes m (p + a) bs (p + o) = put_bytes m0 a bs o.
Proof.
  induction bs as [|b bs IH]; intros m m0 p a Hp Ha Hl Hm o Ho; cbn [put_bytes]; [by apply Hm|]. cbn [length] in Hl.
  rewrite <-Z.add_assoc. apply IH; [done|lia|lia| |done]. apply put_byte_shift; [done|lia|done].
Qed.
Lemma put_bytes_outside bs : forall m p a w, p mod 8 = 0 -> 0 <= a -> a + Z.of_nat (length bs) <= PGSIZE -> ~ in_page p w ->
  put_bytes m (p + a) bs w = m w.
Proof.
  induction bs as [|b bs IH]; intros m p a w Hp Ha Hl Hw; cbn [put_bytes]; [done|]. cbn [length] in Hl.
  rewrite <-Z.add_assoc, IH by (done || lia). apply put_byte_other. intros ->. apply Hw. unfold in_page, PGSIZE in *.
  rewrite <-(Zplus_mod_idemp_l p), Hp, Z.add_0_l. clear Hp. Z.to_euclidean_division_equations. lia.
Qed.

(** ** Little-endian fields *)

Definition bytes_at (m : Z -> Z) (a : Z) (n : nat) : list Z := (fun k => phys_byte m (a + Z.of_nat k)) <$> seq 0 n.
Definition get_le (m : Z -> Z) (a : Z) (n : nat) : Z := le_value (bytes_at m a n).

Lemma load_bytes_at a n s : load_bytes a (Z.of_nat n) s = Ret (bytes_at (mem s) a n) s.
Proof.
  unfold load_bytes, gets, bytes_at, seqZ. rewrite Nat2Z.id, <-list_fmap_compose. f_equal. apply list_fmap_ext.
  intros i k _. unfold compose. f_equal. lia.
Qed.

Lemma bytes_at_same m a bs : Forall is_byte bs -> bytes_at (put_bytes m a bs) a (length bs) = bs.
Proof.
  intros Hb. apply list_eq. intros i. unfold bytes_at. rewrite list_lookup_fmap.
  destruct (decide (i < length bs)%nat) as [Hi|Hi].
  - rewrite lookup_seq_lt by done. cbn [fmap option_fmap option_map]. rewrite phys_byte_put_bytes by done.
    rewrite (proj2 (Z.leb_le _ _)), (proj2 (Z.ltb_lt _ _)) by lia. cbn [andb].
    destruct (lookup_lt_is_Some_2 bs i Hi) as [x Hx]. rewrite Hx. f_equal. replace (Z.to_nat (a + Z.of_nat (0 + i) - a)) with i by lia.
    by apply nth_lookup_Some with (d := 0) in Hx.
  - rewrite lookup_seq_ge by lia. by rewrite lookup_ge_None_2 by lia.
Qed.
Lemma bytes_at_other m a bs a' n : Forall is_byte bs -> (a' + Z.of_nat n <= a \/ a + Z.of_nat (length bs) <= a') ->
  bytes_at (put_bytes m a bs) a' n = bytes_at m a' n.
Proof.
  intros Hb Hd. apply list_fmap_ext. intros i k Hk. apply lookup_seq in Hk as [-> Hi]. rewrite phys_byte_put_bytes by done.
  destruct (Z.leb_spec a (a' + Z.of_nat (0 + i))), (Z.ltb_spec (a' + Z.of_nat (0 + i)) (a + Z.of_nat (length bs))); cbn [andb]; done || lia.
Qed.

Lemma get_le_same m a n v : 0 <= v < 256 ^ Z.of_nat n -> get_le (put_bytes m a (le_bytes n v)) a n = v.
Proof.
  intros Hv. unfold get_le. rewrite <-(length_le_bytes n v) at 2. rewrite bytes_at_same by apply le_bytes_range. by apply le_value_bytes.
Qed.
Lemma get_le_other m a bs a' n : Forall is_byte bs -> (a' + Z.of_nat n <= a \/ a + Z.of_nat (length bs) <= a') ->
  get_le (put_bytes m a bs) a' n = get_le m a' n.
Proof. intros. unfold get_le. by rewrite bytes_at_other. Qed.
