(* ===== verification/UserString.v ===== *)
(** * Strings in user memory

    [copyin_str] of [mem/uvm.rs], which every call that takes a path or a name
    uses, is the byte-by-byte read of a zero-terminated string. *)
From S2P Require Import Prelude Addr PhysMem PageTable MmapWarehouse Uvm.

(** Bytes from an address up to the first zero, at most [k] of them, and
    whether a zero ended them. *)
Fixpoint scan_zero (m : Z -> Z) (a : Z) (k : nat) : list Z * bool :=
  match k with
  | O => ([], false)
  | S k' =>
      let b := phys_byte m a in
      if b =? 0 then ([b], true)
      else let '(l, f) := scan_zero m (a + 1) k' in (b :: l, f)
  end.

(** The string at [va] in a buffer of [n] bytes: the bytes read and either
    their count, the zero included, or the error. *)
Fixpoint read_str (s : pmem) (T : gmap (list Z) Z) (va : Z) (n : nat) : list Z * option CopyError :=
  match n with
  | O => ([], Some TooLong)
  | S n' =>
      match page_access s T PTE_R va with
      | Err e => ([], Some e)
      | Ok pa =>
          let b := phys_byte (mem s) (pa + va mod PGSIZE) in
          if b =? 0 then ([b], None)
          else let '(l, e) := read_str s T (va + 1) n' in (b :: l, e)
      end
  end.

Definition str_result (r : list Z * option CopyError) : result Z CopyError :=
  match snd r with None => Ok (Z.of_nat (length (fst r))) | Some e => Err e end.

(** [dst] with [l] written at [i]. *)
Definition put_at (i : nat) (l dst : list Z) : list Z := take i dst ++ l ++ drop (i + length l) dst.

Lemma put_at_nil i dst : put_at i [] dst = dst.
Proof. unfold put_at. simpl. by rewrite Nat.add_0_r, take_drop. Qed.

Lemma put_at_cons i b l dst : (i < length dst)%nat -> put_at (S i) l (<[i := b]> dst) = put_at i (b :: l) dst.
Proof.
  intros Hi. unfold put_at. rewrite (take_S_r _ _ b) by by apply list_lookup_insert_eq.
  rewrite take_insert_ge, drop_insert_lt by lia. rewrite <-app_assoc. simpl. do 3 f_equal. by rewrite Nat.add_succ_r.
Qed.

Lemma put_at_app i l l' dst : (i + length l <= length dst)%nat ->
  put_at (i + length l) l' (put_at i l dst) = put_at i (l ++ l') dst.
Proof.
  intros Hi. unfold put_at at 1.
  destruct (splice_parts (take i dst) l (drop (i + length l) dst) (i + length l) (length l')) as [H1 H2];
    [rewrite length_take; lia|].
  unfold put_at. rewrite H1, H2, drop_drop, length_app, <-!app_assoc. do 4 f_equal. lia.
Qed.

Lemma length_put_at i l dst : (i + length l <= length dst)%nat -> length (put_at i l dst) = length dst.
Proof. intros. unfold put_at. rewrite !length_app, length_take, length_drop. lia. Qed.

Lemma scan_zero_length m a k : (length (fst (scan_zero m a k)) <= k)%nat /\
  (snd (scan_zero m a k) = false -> length (fst (scan_zero m a k)) = k).
Proof.
  revert a. induction k as [|k IH]; intros a; simpl; [done|]. destruct (_ =? 0); [simpl; split; [lia|done]|].
  specialize (IH (a + 1)). destruct (scan_zero m (a + 1) k) as [l f]. simpl in *. destruct IH as [H1 H2].
  split; [lia|]. intros Hf. by rewrite H2.
Qed.

(** The inner loop, which may visit [k] more bytes of the page. *)
Lemma str_loop pa s : forall fuel k off copied dst len, (k < fuel)%nat ->
  Z.of_nat k = Z.max 0 (Z.min (PGSIZE - off) (len - Z.of_nat copied)) -> len = Z.of_nat (length dst) ->
  loop fuel (str_body pa len) (off, Z.of_nat copied, dst) s =
    Ret (Z.of_nat (copied + length (fst (scan_zero (mem s) (pa + off) k))),
         put_at copied (fst (scan_zero (mem s) (pa + off) k)) dst, snd (scan_zero (mem s) (pa + off) k)) s.
Proof.
  induction fuel as [|fuel IH]; intros k off copied dst len Hf Hk Hlen; [lia|]. cbn [loop].
  destruct k as [|k].
  - assert (Ht : ((off <? PGSIZE) && (Z.of_nat copied <? len)) = false).
    { apply andb_false_iff. rewrite !Z.ltb_ge. lia. }
    erewrite bind_run by (unfold str_body; rewrite Ht; reflexivity).
    simpl. by rewrite put_at_nil, Nat.add_0_r.
  - assert (Ht : ((off <? PGSIZE) && (Z.of_nat copied <? len)) = true).
    { apply andb_true_iff. rewrite !Z.ltb_lt. lia. }
    cbn [scan_zero]. destruct (phys_byte (mem s) (pa + off) =? 0) eqn:E.
    + erewrite bind_run by (unfold str_body; rewrite Ht; erewrite bind_run by reflexivity; rewrite E; reflexivity).
      cbn. rewrite Nat2Z.id. do 3 f_equal; [lia|]. rewrite <-put_at_cons by lia. by rewrite put_at_nil.
    + erewrite bind_run by (unfold str_body; rewrite Ht; erewrite bind_run by reflexivity; rewrite E; reflexivity).
      cbv beta iota. rewrite Nat2Z.id. replace (Z.of_nat copied + 1) with (Z.of_nat (S copied)) by lia.
      rewrite (IH k (off + 1) (S copied)); [|lia|lia|by rewrite length_insert].
      rewrite Z.add_assoc. destruct (scan_zero (mem s) (pa + off + 1) k) as [l f]. cbn [fst snd length].
      rewrite put_at_cons by lia. do 3 f_equal. lia.
Qed.

(** A page of a string, read at once. *)
Lemma read_str_page s T pa va k n : page_access s T PTE_R va = Ok pa -> va mod PGSIZE + Z.of_nat k <= PGSIZE ->
  read_str s T va (k + n) =
    let '(l, f) := scan_zero (mem s) (pa + va mod PGSIZE) k in
    if f : bool then (l, None)
    else (l ++ fst (read_str s T (va + Z.of_nat k) n), snd (read_str s T (va + Z.of_nat k) n)).
Proof.
  revert va. induction k as [|k IH]; intros va Hpa Hk.
  { simpl. rewrite Z.add_0_r. by destruct (read_str s T va n). }
  cbn [Nat.add read_str scan_zero]. rewrite Hpa. destruct (_ =? 0); [done|].
  destruct k as [|k].
  { change (Z.of_nat 1) with 1. simpl. by destruct (read_str s T (va + 1) n). }
  assert (Hp : (va + 1) / PGSIZE = va / PGSIZE) by div_lia.
  assert (Hm : (va + 1) mod PGSIZE = va mod PGSIZE + 1) by div_lia.
  rewrite IH; [|by rewrite (page_access_page _ _ _ _ va)|lia]. rewrite Hm, Z.add_assoc.
  destruct (scan_zero (mem s) (pa + va mod PGSIZE + 1) (S k)) as [l f].
  replace (va + 1 + Z.of_nat (S k)) with (va + Z.of_nat (S (S k))) by lia. by destruct f.
Qed.

Section strings.
Context (kb ub : RegionBounds) (root : Z).

Lemma str_page_run s T copied va dst : pt_wf kb ub s root T -> 0 <= va < U64 -> (copied < length dst)%nat ->
  copyin_str_body root (Z.of_nat (length dst)) (Z.of_nat copied, va, dst) s =
    match page_access s T PTE_R va with
    | Err e => Ret (inr (dst, Err e)) s
    | Ok pa =>
        let k := Z.to_nat (Z.min (PGSIZE - va mod PGSIZE) (Z.of_nat (length dst) - Z.of_nat copied)) in
        let '(l, f) := scan_zero (mem s) (pa + va mod PGSIZE) k in
        if f : bool then Ret (inr (put_at copied l dst, Ok (Z.of_nat (copied + length l)))) s
        else Ret (inl (Z.of_nat (copied + length l), va / PGSIZE * PGSIZE + PGSIZE, put_at copied l dst)) s
    end.
Proof.
  intros Hwf Hva Hc. unfold copyin_str_body. rewrite (proj2 (Z.ltb_lt _ _)) by lia.
  rewrite (bind_run _ _ _ _ _ (user_page_run kb ub root s T PTE_R va Hwf Hva)).
  destruct (page_access s T PTE_R va) as [pa|e] eqn:Hpa; [|done].
  pose proof (Z.mod_pos_bound va PGSIZE ltac:(done)) as Hm. cbv zeta.
  set (k := Z.to_nat (Z.min _ _)). rewrite page_offset_eq, align_down_eq by done.
  assert (Hrun := str_loop pa s (S (Z.to_nat PGSIZE)) k (va mod PGSIZE) copied dst (Z.of_nat (length dst))
    ltac:(unfold k, PGSIZE in *; lia) ltac:(unfold k; lia) eq_refl).
  rewrite (bind_run _ _ _ _ _ Hrun). destruct (scan_zero _ _ k) as [l f]. cbn [fst snd].
  destruct f; [done|]. erewrite bind_run; [reflexivity|]. apply checked_run.
  destruct (page_access_range _ _ _ _ _ Hpa) as (Hlt & _). change VA_MAX with 274877906944 in Hlt.
  pose proof (Z.mul_div_le va PGSIZE ltac:(done)). pose proof (Z.div_pos va PGSIZE (proj1 Hva) ltac:(done)).
  clear Hrun. page_lia.
Qed.

Lemma str_page_loop s T : pt_wf kb ub s root T -> forall fuel rest copied va dst,
  (rest < fuel)%nat -> (copied + rest = length dst)%nat -> 0 <= va < U64 ->
  loop fuel (copyin_str_body root (Z.of_nat (length dst))) (Z.of_nat copied, va, dst) s =
    Ret (put_at copied (fst (read_str s T va rest)) dst,
         match snd (read_str s T va rest) with
         | None => Ok (Z.of_nat (copied + length (fst (read_str s T va rest))))
         | Some e => Err e
         end) s.
Proof.
  intros Hwf fuel. induction fuel as [|fuel IH]; intros rest copied va dst Hf Hlen Hva; [lia|].
  cbn [loop]. destruct rest as [|rest].
  { erewrite bind_run by (unfold copyin_str_body; rewrite (proj2 (Z.ltb_ge _ _)) by lia; reflexivity).
    simpl. by rewrite put_at_nil. }
  pose proof (str_page_run s T copied va dst Hwf Hva ltac:(lia)) as Hrun.
  destruct (page_access s T PTE_R va) as [pa|e] eqn:Hpa.
  2: { rewrite (bind_run _ _ _ _ _ Hrun). cbn [read_str]. rewrite Hpa. simpl. by rewrite put_at_nil. }
  cbv zeta in Hrun. pose proof (Z.mod_pos_bound va PGSIZE ltac:(done)) as Hm.
  destruct (page_access_range _ _ _ _ _ Hpa) as (Hlt & _). change VA_MAX with 274877906944 in Hlt.
  set (k := Z.to_nat (Z.min _ _)) in Hrun. assert (Hk : (0 < k <= S rest)%nat /\ va mod PGSIZE + Z.of_nat k <= PGSIZE)
    by (unfold k; lia). destruct Hk as [Hk Hkp].
  replace (S rest) with (k + (S rest - k))%nat by lia. rewrite (read_str_page s T pa) by done.
  pose proof (scan_zero_length (mem s) (pa + va mod PGSIZE) k) as [Hl1 Hl2].
  destruct (scan_zero _ _ k) as [l f]. cbn [fst snd] in *. destruct f.
  - rewrite (bind_run _ _ _ _ _ Hrun). done.
  - specialize (Hl2 eq_refl). rewrite (bind_run _ _ _ _ _ Hrun). cbv beta iota.
    destruct (decide (S rest - k = 0)%nat) as [Hz|Hnz].
    + assert (Hd : (copied + length l)%nat = length (put_at copied l dst)) by (rewrite length_put_at by lia; lia).
      rewrite Hz. cbn [read_str fst snd]. rewrite app_nil_r.
      destruct fuel as [|fuel]; [lia|]. cbn [loop].
      by erewrite bind_run by (unfold copyin_str_body; rewrite (proj2 (Z.ltb_ge _ _)) by lia; reflexivity).
    + assert (Hnext : va / PGSIZE * PGSIZE + PGSIZE = va + Z.of_nat k) by (unfold k in *; div_lia).
      rewrite Hnext. rewrite <-(length_put_at copied l dst) at 1 by lia.
      rewrite (IH (S rest - k)%nat); [|lia|rewrite length_put_at by lia; lia|page_lia].
      cbn [fst snd]. rewrite put_at_app by lia. by rewrite length_app, Nat.add_assoc.
Qed.
End strings.

(** ** Properties *)

(** C34: [copyin_str] is the byte-by-byte read of a zero-terminated string: it
    fills the front of the buffer with the bytes up to and including the first
    zero and returns their count, or stops at the first inaccessible address
    with its error, or fails with [TooLong] when the buffer is full before a
    zero; it always returns and changes no memory. *)
Theorem copyin_str_correct kb ub root s T dst va :
  pt_wf kb ub s root T -> 0 <= va < U64 ->
  copyin_str root dst va s =
    let r := read_str s T va (length dst) in
    Ret (fst r ++ drop (length (fst r)) dst, str_result r) s.
Proof.
  intros Hwf Hva. unfold copyin_str.
  exact (str_page_loop kb ub root s T Hwf (S (S (length dst))) (length dst) 0 va dst ltac:(lia) ltac:(lia) Hva).
Qed.

Lemma copyin_str_correct_witness :
  copyin_str demo_root [1; 1; 1] 0x1FFD demo_user = Ret ([0; 1; 1], Ok 1) demo_user.
Proof.
  destruct demo_user_ok as (T & Hinv & Hwf & Hprot & Hpg).
  assert (Hb : phys_byte (mem demo_user) (demo_frame + 0x1FFD mod PGSIZE) = 0) by (vm_compute; reflexivity).
  assert (Hr : read_str demo_user T 0x1FFD 3 = ([0], None)).
  { cbn [read_str]. rewrite Hpg by first [by left|split; [discriminate|reflexivity]].
    change (in_range 0x1000 0x2000 0x1FFD) with true. cbv beta iota. rewrite Hb. reflexivity. }
  pose proof (copyin_str_correct demo_kb demo_ub demo_root demo_user T [1; 1; 1] 0x1FFD Hwf
    (conj (ltac:(discriminate) : 0 <= 0x1FFD) (eq_refl : 0x1FFD < U64))) as H.
  cbv zeta in H. change (length [1; 1; 1]) with 3%nat in H. rewrite Hr in H. exact H.
Defined.
