(* ===== verification/UserGrowth.v ===== *)
(** * Growing user memory

    Theorems about the allocation loops of [mem/uvm.rs] that [Uvm] models:
    a range of fresh pages is given to the user address space. *)
From S2P Require Import Prelude Addr PhysMem PageTable FreshPages MmapWarehouse Uvm.

Section growth.
Context {kb ub : RegionBounds} {root : Z}.
Implicit Types (s : pmem) (T : gmap (list Z) Z).
Local Abbreviation pt_wf := (pt_wf kb ub).
Local Abbreviation pmem_inv := (pmem_inv kb ub).

(** User pages: frames of the user pool, zeroed, with the user's flags. *)
Definition user_grown := grown_range (kb := kb) (ub := ub) (root := root) false USER_FLAGS (fun _ _ => 0).
Definition user_room := room false.

Lemma wp_map_fresh_range s T start last : pmem_inv s -> pt_wf s root T ->
  start mod PGSIZE = 0 -> last mod PGSIZE = 0 -> 0 <= start <= last -> last <= VA_MAX -> user_room s T start last ->
  wp (map_fresh_range root start last) (fun r s' => r = Ok tt /\ exists fr T', user_grown s T start last fr s' T') s.
Proof.
  intros Hinv Hwf Hs Hl Hsl Hmax Hroom.
  apply (wp_loop (fun a s' => a mod PGSIZE = 0 /\ start <= a <= last /\ exists fr T', user_grown s T start a fr s' T')
    (fun a _ => Z.to_nat ((last - a) / PGSIZE))).
  2: { split; [done|]. split; [lia|]. exists (fun _ => 0), T. by apply grown_range_refl. }
  2: { assert (0 <= (last - start) / PGSIZE) by (apply Z.div_pos; page_lia). lia. }
  intros a s0 (Ha & Hal & fr & T0 & Hg). destruct (Z.ltb_spec a last) as [Hlt|Hge].
  2: { wp_step. assert (a = last) as -> by lia. split; [done|]. by exists fr, T0. }
  wp_step. unfold map_fresh. wp_step.
  eapply (wp_grow_step false USER_FLAGS (fun _ _ => 0) s T start last a fr); try done; try lia.
  intros p s1 Hpost Hp Hpal Hmap. rewrite (proj2 (Z.eqb_neq _ _)) by lia. wp_step.
  rewrite <-(set_mem_self s1). eapply wp_mono; [|apply Hmap; [intros w Hw; by apply (ap_zero _ _ _ _ Hpost)|done]].
  intros ok s' [-> (T' & Hg')]. wp_step. cbv beta iota. wp_step.
  wp_step; [change VA_MAX with 274877906944 in *; page_lia|]. wp_step. cbv beta.
  assert (Hpg : a + PGSIZE <= last) by (unfold PGSIZE in *; Z.to_euclidean_division_equations; lia).
  split; [|apply page_measure; page_lia].
  split; [rewrite <-Zplus_mod_idemp_l, Ha; done|]. split; [page_lia|]. by eexists _, T'.
Qed.

Lemma wp_heap_grow s T old_top new_top : pmem_inv s -> pt_wf s root T -> 0 <= old_top <= new_top ->
  new_top <= MMAP_BEGIN -> user_room s T (align_up_val old_top) (align_up_val new_top) ->
  wp (heap_grow root old_top new_top) (fun r s' => r = Ok tt /\
    exists fr T', user_grown s T (align_up_val old_top) (align_up_val new_top) fr s' T') s.
Proof.
  intros Hinv Hwf Hot Hnt Hroom. unfold heap_grow. rewrite (proj2 (Z.ltb_ge _ _)) by lia.
  change MMAP_BEGIN with 274794012672 in *.
  destruct (align_up_val_spec old_top) as [Ho1 Ho2]. destruct (align_up_val_spec new_top) as [Hn1 Hn2].
  wp_step. apply wp_align_up; [lia|page_lia|]. wp_step. apply wp_align_up; [lia|page_lia|].
  apply wp_map_fresh_range; try done.
  - split; [lia|]. unfold align_up_val. apply Z.mul_le_mono_nonneg_r; [done|]. apply Z.div_le_mono; page_lia.
  - change VA_MAX with 274877906944. page_lia.
Qed.

(** Shrinking gives the pages above the new top back. *)
Lemma wp_heap_ungrow s T old_top new_top : pmem_inv s -> pt_wf s root T -> 0 <= new_top < old_top -> old_top <= VA_MAX ->
  old_top mod PGSIZE = 0 -> new_top mod PGSIZE = 0 -> unmappable (kb := kb) (ub := ub) s T new_top (old_top - PGSIZE) true false ->
  wp (heap_ungrow root old_top new_top) (fun r s' => r = Ok tt /\
    unmapped (kb := kb) (ub := ub) (root := root) s T new_top true false old_top s') s.
Proof.
  intros Hinv Hwf Hlt Hmax Ho Hn Hum. change VA_MAX with 274877906944 in *. unfold heap_ungrow. rewrite (proj2 (Z.ltb_ge old_top new_top)) by lia.
  wp_step. apply wp_align_up; [lia|page_lia|]. wp_step. apply wp_align_up; [lia|page_lia|]. rewrite !align_up_aligned by done. cbv zeta.
  unfold sat_sub. rewrite Z.max_r by lia. rewrite (proj2 (Z.eqb_neq _ _)) by lia. wp_step.
  assert (Hd : align_down new_top = new_top) by (apply align_down_aligned; [page_lia|done]).
  assert (Hl : map_last new_top (old_top - new_top) = old_top - PGSIZE).
  { unfold map_last. replace (new_top + (old_top - new_top)) with old_top by lia. by rewrite align_up_aligned. }
  pose proof (wp_pt_unmap (kb := kb) (ub := ub) (root := root) s T new_top (old_top - new_top) true false) as Hw. cbv zeta in Hw. rewrite Hd, Hl in Hw.
  eapply wp_mono; [|apply Hw; try done; change VA_MAX with 274877906944; lia].
  intros ok s' [-> Hu]. wp_step. split; [done|]. by rewrite Z.sub_add in Hu.
Qed.
End growth.

(** ** Properties *)

(** C22: growing the heap from [old_top] to [new_top] succeeds when both pools
    have pages for it and nothing is mapped in between: each page between the
    rounded tops translates, readable and writable by the user, to a frame of
    its own, which was free before, is zeroed and is now held; every other
    address translates as before, nothing held outside the tables changes, and
    the pools shrink by what was taken. *)
Theorem heap_grow_correct kb ub root s T old_top new_top :
  pmem_inv kb ub s -> pt_wf kb ub s root T -> 0 <= old_top <= new_top -> new_top <= MMAP_BEGIN ->
  user_room s T (align_up_val old_top) (align_up_val new_top) ->
  wp (heap_grow root old_top new_top) (fun r s' => r = Ok tt /\ exists fr T',
    user_grown (kb := kb) (ub := ub) (root := root) s T (align_up_val old_top) (align_up_val new_top) fr s' T') s.
Proof. apply wp_heap_grow. Qed.

Lemma heap_grow_correct_witness :
  wp (heap_grow demo_root 0x10000 0x12800) (fun r s' => r = Ok tt /\
    allocable (inner (region false s')) = 13) demo_pt.
Proof.
  eapply wp_mono; [|apply (heap_grow_correct demo_kb demo_ub demo_root demo_pt demo_tree 0x10000 0x12800
    demo_pt_inv demo_pt_wf); [lia|vm_compute; discriminate|]].
  - intros r s' [Hr (fr & T' & Hg)]. split; [exact Hr|].
    rewrite (gr_user _ _ _ _ _ _ _ _ _ _ Hg). vm_compute. reflexivity.
  - split; [intros _; vm_compute; discriminate|]. split; [vm_compute; discriminate|]. intros va _. apply demo_pt_trans.
Defined.

(** Two calls of [mmap] in a row that let the kernel choose the address. *)
Definition mmap_twice (len1 len2 : Z) : M umem (result Z UvmError * result Z UvmError) :=
  '(r1, h1) ← uvm_mmap demo_root None 0 len1 MMAP_BEGIN MMAP_END;
  '(r2, h2) ← uvm_mmap demo_root h1 0 len2 MMAP_BEGIN MMAP_END;
  mret (r1, r2).

(** Two mappings of one page each, both at an address of the kernel's
    choice, get the same address: the second is merged into the node of the
    first and its begin is what the call returns. *)
Theorem mmap_merge_returns_region_begin :
  match mmap_twice 4096 4096 (mkUmem demo_pt demo_warehouse) with
  | Ret r _ => r = (Ok MMAP_BEGIN, Ok MMAP_BEGIN)
  | _ => False
  end.
Proof. vm_compute. reflexivity. Qed.

(** A length within a page of the top of the address space makes [mmap]
    and [munmap] panic the kernel, whatever the process and memory are. *)
Theorem mmap_huge_len_panics root head b len mb me s : USIZE_MAX - PGMASK < len <= USIZE_MAX ->
  uvm_mmap root head b len mb me s = Panic "attempt to add with overflow" /\
  uvm_munmap root head 0 len s = Panic "attempt to add with overflow".
Proof.
  intros Hlen. unfold uvm_mmap, uvm_munmap. change USIZE_MAX with (U64 - 1) in *.
  rewrite (proj2 (Z.eqb_neq len 0)) by page_lia.
  assert (Hup : forall s0 : umem, align_up len s0 = Panic "attempt to add with overflow").
  { intros s0. unfold align_up. apply bind_panic, checked_panic. page_lia. }
  split; [by apply bind_panic|].
  erewrite bind_run by (apply checked_run; page_lia). rewrite Z.add_0_l. by apply bind_panic.
Qed.

Lemma mmap_huge_len_panics_witness :
  uvm_mmap demo_root None 0 USIZE_MAX MMAP_BEGIN MMAP_END (mkUmem demo_pt demo_warehouse) =
    Panic "attempt to add with overflow" /\
  uvm_munmap demo_root None 0 USIZE_MAX (mkUmem demo_pt demo_warehouse) =
    Panic "attempt to add with overflow".
Proof. apply mmap_huge_len_panics. split; [reflexivity|discriminate]. Defined.
