(* ===== verification/MmapRegions.v ===== *)
(** * The mmap regions of a process

    The list of regions that [mmap] and [munmap] of [mem/uvm.rs] keep stands
    for a sequence of page ranges, in order and apart from each other, that are
    exactly what is mapped in the mmap area. [Uvm] has the code; here are the
    sequence ([mreg], [in_order], [covers]), the links that represent it
    ([linked_regions]) and what [mmap] and [munmap] do to it. *)
From stdpp Require Import functions.
From S2P Require Import Prelude Addr PhysMem PageTable FreshPages MmapWarehouse Uvm UserGrowth.

(** ** Sequences of regions *)

(** The node, the begin and the number of pages of a region. *)
Record mreg := mkReg { rn : nat; rb : Z; rp : Z }.
Definition reg_end (r : mreg) : Z := rb r + rp r * PGSIZE.
Definition covers (l : list mreg) (va : Z) : Prop := exists r, r ∈ l /\ rb r <= va < reg_end r.

(** In order after [lo], none empty and no two touching. *)
Fixpoint in_order (lo : Z) (l : list mreg) : Prop :=
  match l with
  | [] => True
  | r :: l' => lo < rb r /\ 0 < rp r /\ rb r mod PGSIZE = 0 /\ in_order (reg_end r) l'
  end.
Fixpoint end_of (lo : Z) (l : list mreg) : Z := match l with [] => lo | r :: l' => end_of (reg_end r) l' end.

Lemma in_order_app lo l1 l2 : in_order lo (l1 ++ l2) <-> in_order lo l1 /\ in_order (end_of lo l1) l2.
Proof. revert lo. induction l1 as [|r l1 IH]; intros lo; simpl; [tauto|]. rewrite IH. tauto. Qed.
Lemma end_of_app lo l1 l2 : end_of lo (l1 ++ l2) = end_of (end_of lo l1) l2.
Proof. revert lo. induction l1 as [|r l1 IH]; intros lo; simpl; [done|apply IH]. Qed.

Lemma in_order_end lo l : in_order lo l -> lo <= end_of lo l.
Proof.
  revert lo. induction l as [|r l IH]; intros lo; simpl; [lia|]. intros (H1 & H2 & _ & H3%IH). unfold reg_end in *. page_lia.
Qed.

Lemma in_order_elem lo l r : in_order lo l -> r ∈ l -> lo < rb r /\ 0 < rp r /\ rb r mod PGSIZE = 0 /\ reg_end r <= end_of lo l.
Proof.
  revert lo. induction l as [|x l IH]; intros lo Hord Hr; [by apply not_elem_of_nil in Hr|].
  destruct Hord as (H1 & H2 & H3 & H4). pose proof (in_order_end _ _ H4) as He. apply elem_of_cons in Hr as [->|Hr]; [done|].
  destruct (IH _ H4 Hr) as (H5 & H6 & H7 & H8). simpl. unfold reg_end in *. split_and!; try done. page_lia.
Qed.

Lemma in_order_lower lo lo' l : lo' <= lo -> in_order lo l -> in_order lo' l.
Proof. destruct l; simpl; [done|]. intros ? (? & ?). split; [lia|done]. Qed.

Lemma covers_app l1 l2 va : covers (l1 ++ l2) va <-> covers l1 va \/ covers l2 va.
Proof. unfold covers. setoid_rewrite elem_of_app. firstorder. Qed.
Lemma covers_cons r l va : covers (r :: l) va <-> rb r <= va < reg_end r \/ covers l va.
Proof. unfold covers. setoid_rewrite elem_of_cons. firstorder (subst; auto). Qed.
Lemma covers_nil va : covers [] va <-> False.
Proof. split; [|done]. intros (r & Hr & _). by apply not_elem_of_nil in Hr. Qed.

(** What is covered lies between the ends. *)
Lemma covers_bounds lo l va : in_order lo l -> covers l va -> lo < va < end_of lo l.
Proof. intros Ho (r & Hr & Hva). destruct (in_order_elem _ _ _ Ho Hr) as (H1 & _ & _ & H2). lia. Qed.

(** The regions before an address and those after it. *)
Record split_at (b : Z) (l l1 l2 : list mreg) : Prop := {
  sa_app : l = l1 ++ l2;
  sa_before : Forall (fun r => rb r < b) l1;
  sa_after : match l2 with [] => True | r :: _ => b <= rb r end;
}.

(** ** The links *)

Definition first_node (l : list mreg) (nx : option nat) : option nat := match l with [] => nx | r :: _ => Some (rn r) end.
Fixpoint linked_regions (w : MmapWarehouse) (l : list mreg) (nx : option nat) : Prop :=
  match l with
  | [] => True
  | r :: l' => MmapWarehouse.region_of (rn r) w = mkMmap (rb r) (rp r) (first_node l' nx) /\ linked_regions w l' nx
  end.
Definition nodes_of (l : list mreg) : list nat := rn <$> l.

Lemma first_node_app l1 l2 nx : first_node (l1 ++ l2) nx = first_node l1 (first_node l2 nx).
Proof. by destruct l1. Qed.
Lemma linked_regions_app w l1 l2 nx :
  linked_regions w (l1 ++ l2) nx <-> linked_regions w l1 (first_node l2 nx) /\ linked_regions w l2 nx.
Proof. induction l1 as [|r l1 IH]; simpl; [tauto|]. rewrite IH, first_node_app. tauto. Qed.
Lemma linked_regions_ext w w' l nx : (forall i, i ∈ nodes_of l -> MmapWarehouse.region_of i w' = MmapWarehouse.region_of i w) ->
  linked_regions w l nx -> linked_regions w' l nx.
Proof.
  induction l as [|r l IH]; intros Hext; simpl; [done|]. intros [Hr Hl]. split; [rewrite Hext; [done|left]|].
  apply IH; [|done]. intros i Hi. apply Hext. by right.
Qed.

(** The list hangs off [head], in order inside the mmap area, on nodes that are
    not on the free list [fl] of the warehouse. *)
Record regions_ok (w : MmapWarehouse) (head : option nat) (fl : list nat) (l : list mreg) : Prop := {
  ro_warehouse : warehouse_ok w fl;
  ro_head : head = first_node l None;
  ro_linked : linked_regions w l None;
  ro_order : in_order (MMAP_BEGIN - 1) l;
  ro_end : end_of (MMAP_BEGIN - 1) l <= MMAP_END;
  ro_nodup : NoDup (nodes_of l);
  ro_nodes : forall i, i ∈ nodes_of l -> (i < N_MMAP)%nat /\ i ∉ fl;
}.

Lemma regions_length w head fl l : regions_ok w head fl l -> (length l <= N_MMAP)%nat.
Proof.
  intros [_ _ _ _ _ Hnd Hn]. rewrite <-(length_fmap rn l). rewrite <-(length_seq N_MMAP 0).
  apply submseteq_length, NoDup_submseteq; [done|]. intros i Hi%Hn. apply elem_of_seq. lia.
Qed.

(** ** Writing a region *)

Lemma region_of_set i r w j : MmapWarehouse.region_of j (set_region_of i r w) = if decide (j = i) then r else MmapWarehouse.region_of j w.
Proof.
  unfold MmapWarehouse.region_of, set_region_of, set_node. cbn [node_list]. case_decide as Hji; [subst; by rewrite fn_lookup_insert|by rewrite fn_lookup_insert_ne].
Qed.
Lemma set_region_ok i r w fl : warehouse_ok w fl -> warehouse_ok (set_region_of i r w) fl.
Proof.
  intros [Hi Hc Hnd Hr]. split; [done| |done|done]. eapply wchain_ext; [|exact Hc]. intros j _. unfold set_region_of, set_node.
  cbn [node_list]. destruct (decide (j = i)) as [->|]; [by rewrite fn_lookup_insert|by rewrite fn_lookup_insert_ne].
Qed.

(** ** The walks *)

Lemma deref_run s i r : MmapWarehouse.region_of i (um_wh s) = r -> deref i s = Ret r s.
Proof. by intros <-. Qed.

Lemma region_end_run s b n nx : 0 <= n -> 0 <= b -> b + n * PGSIZE < U64 -> region_end (mkMmap b n nx) s = Ret (b + n * PGSIZE) s.
Proof.
  intros Hn Hb Ht. unfold region_end, umul, uadd. cbn [npages begin_].
  rewrite (bind_run _ _ _ _ _ (checked_run U64 "multiply" (n * PGSIZE) s ltac:(page_lia))). apply checked_run. page_lia.
Qed.

(** [find_slot] splits the list at the address. *)
Lemma find_slot_loop b s l2 : forall l1 fuel, linked_regions (um_wh s) l2 None -> Forall (fun r => rb r < b) l1 -> (length l2 < fuel)%nat ->
  exists l1' l2', split_at b (l1 ++ l2) l1' l2' /\
  loop fuel (fun '(prv, cur) =>
    match cur with
    | None => mret (inr (prv, cur))
    | Some c =>
        r ← deref c;
        if begin_ r <? b then mret (inl (Some c, mnext r)) else mret (inr (prv, cur))
    end) (rn <$> last l1, first_node l2 None) s = Ret (rn <$> last l1', first_node l2' None) s.
Proof.
  induction l2 as [|r l2 IH]; intros l1 [|fuel] Hl Hb Hlen; simpl in Hlen; try lia; cbn [loop first_node].
  - exists l1, []. split; [by split; [rewrite app_nil_r| |]|done].
  - destruct Hl as [Hr Hl]. destruct (Z.ltb_spec (rb r) b) as [Hlt|Hge].
    + destruct (IH (l1 ++ [r]) fuel Hl) as (l1' & l2' & Hsp & Hrun); [apply Forall_app; split; [done|by constructor]|lia|].
      exists l1', l2'. rewrite <-app_assoc in Hsp. split; [done|]. rewrite last_snoc in Hrun. etrans; [|exact Hrun].
      erewrite bind_run; [|erewrite bind_run by (by apply deref_run); cbn [begin_ mnext]; rewrite (proj2 (Z.ltb_lt _ _)) by done; reflexivity].
      done.
    + exists l1, (r :: l2). split; [by split|].
      erewrite bind_run; [|erewrite bind_run by (by apply deref_run); cbn [begin_ mnext]; rewrite (proj2 (Z.ltb_ge _ _)) by done; reflexivity].
      done.
Qed.

Lemma find_slot_run b s head fl l : regions_ok (um_wh s) head fl l ->
  exists l1 l2, split_at b l l1 l2 /\ find_slot head b s = Ret (rn <$> last l1, first_node l2 None) s.
Proof.
  intros Hok. pose proof (regions_length _ _ _ _ Hok) as Hlen. unfold find_slot. rewrite (ro_head _ _ _ _ Hok).
  apply (find_slot_loop b s l []); [apply Hok|done|unfold LIST_FUEL; lia].
Qed.

(** A free place of [need] bytes. *)
Record fits (l : list mreg) (need b : Z) : Prop := {
  fi_low : MMAP_BEGIN <= b;
  fi_high : b + need <= MMAP_END;
  fi_aligned : b mod PGSIZE = 0;
  fi_free : forall va, b <= va < b + need -> ~ covers l va;
}.

(** [find_gap] returns the lowest free place, or where the last region ends. *)
Lemma find_gap_loop np s l2 : forall l1 cursor fuel, 0 < np -> np * PGSIZE < U64 -> linked_regions (um_wh s) l2 None ->
  MMAP_BEGIN <= cursor -> cursor mod PGSIZE = 0 -> in_order (cursor - 1) l2 -> end_of cursor l2 <= MMAP_END ->
  (forall va, cursor <= va -> ~ covers l1 va) ->
  (forall b, b < cursor -> ~ fits (l1 ++ l2) (np * PGSIZE) b) -> (length l2 < fuel)%nat ->
  exists b c, loop fuel (fun '(cur, cursor) =>
    match cur with
    | None => mret (inr (0, cursor))
    | Some c =>
        r ← deref c;
        if cursor <=? begin_ r then
          let gap := sat_sub (begin_ r) cursor in
          need ← umul np PGSIZE;
          if need <=? gap then mret (inr (cursor, cursor))
          else
            cursor' ← region_end r;
            mret (inl (mnext r, cursor'))
        else mret (inl (mnext r, cursor))
    end) (first_node l2 None, cursor) s = Ret (b, c) s /\ MMAP_BEGIN <= c /\ c mod PGSIZE = 0 /\
    (forall x, x < c -> ~ fits (l1 ++ l2) (np * PGSIZE) x) /\
    (b = 0 /\ (forall va, c <= va -> ~ covers (l1 ++ l2) va) \/ b = c /\ fits (l1 ++ l2) (np * PGSIZE) c).
Proof.
  change MMAP_BEGIN with 274794012672. change MMAP_END with 274861121536.
  induction l2 as [|r l2 IH]; intros l1 cursor [|fuel] Hnp Hsz Hl Hc Hal Ho He Hfree Hmin Hlen; simpl in Hlen; try lia; cbn [loop first_node].
  - exists 0, cursor. split; [done|]. split_and!; try done. left. split; [done|]. rewrite app_nil_r. done.
  - destruct Hl as [Hr Hl]. destruct Ho as (Ho1 & Ho2 & Ho3 & Ho4). pose proof (in_order_end _ _ Ho4) as Hend. cbn [end_of] in He.
    assert (Hre : 0 < rp r * PGSIZE) by page_lia. unfold reg_end in *.
    destruct (Z.leb_spec (np * PGSIZE) (sat_sub (rb r) cursor)) as [Hfit|Hno].
    + exists cursor, cursor. split.
      { rewrite (bind_run _ _ s (inr (cursor, cursor)) s); [done|]. etrans; [by apply bind_run, deref_run|]. cbn [begin_ mnext].
        rewrite (proj2 (Z.leb_le cursor (rb r))) by lia. cbv zeta. unfold umul.
        rewrite (bind_run _ _ _ _ _ (checked_run U64 "multiply" (np * PGSIZE) s ltac:(page_lia))). by rewrite (proj2 (Z.leb_le _ _)). }
      split_and!; try done. right. split; [done|]. unfold sat_sub in Hfit. split; [done| |done|].
      * change MMAP_END with 274861121536. lia.
      * intros va Hva [Hcv|Hcv]%covers_app; [by apply (Hfree va); [lia|]|].
        apply (covers_bounds (rb r - 1)) in Hcv; [lia|]. simpl. split; [lia|done].
    + destruct (IH (l1 ++ [r]) (reg_end r) fuel) as (b & c & Hrun & H1 & H2 & H3 & H4); unfold reg_end; try done; try lia.
      * by rewrite Z.mod_add.
      * eapply in_order_lower; [|exact Ho4]. unfold reg_end. lia.
      * intros va Hva [Hcv|[Hcv|Hcv]%covers_cons]%covers_app; [by apply (Hfree va); [lia|]|unfold reg_end in Hcv; lia|by apply covers_nil in Hcv].
      * intros x Hx Hf. rewrite <-app_assoc in Hf. cbn [app] in Hf. destruct (Z.lt_ge_cases x cursor) as [Hlt|Hge]; [by apply (Hmin x)|].
        apply (fi_free _ _ _ Hf (Z.max x (rb r))); [unfold sat_sub in Hno; lia|]. apply covers_app. right. apply covers_cons. left. unfold reg_end. lia.
      * exists b, c. rewrite <-app_assoc in *. cbn [app] in *. split; [|by split_and!]. etrans; [|exact Hrun].
        rewrite (bind_run _ _ s (inl (first_node l2 None, reg_end r)) s); [done|]. etrans; [by apply bind_run, deref_run|]. cbn [begin_ mnext].
        rewrite (proj2 (Z.leb_le cursor (rb r))) by lia. cbv zeta. unfold umul at 1.
        rewrite (bind_run _ _ _ _ _ (checked_run U64 "multiply" (np * PGSIZE) s ltac:(page_lia))). rewrite (proj2 (Z.leb_gt _ _)) by done.
        by rewrite (bind_run _ _ _ _ _ (region_end_run s (rb r) (rp r) _ ltac:(lia) ltac:(lia) ltac:(unfold U64; lia))).
Qed.

(** ** The state of an address space with its regions *)

Section mmap.
Context {kb ub : RegionBounds} {root : Z}.
Implicit Types (s : umem) (T : gmap (list Z) Z) (l : list mreg).

(** The pages of the mmap area: exactly those of [cov] are mapped, each to a
    user frame of its own that is held and no table. *)
Record area_ok (pm : pmem) T (cov : Z -> Prop) : Prop := {
  ao_pmem : pmem_inv kb ub pm;
  ao_wf : pt_wf kb ub pm root T;
  ao_mapped : forall va, MMAP_BEGIN <= va < MMAP_END -> trans pm T va <> None <-> cov va;
  ao_frame : forall va e, MMAP_BEGIN <= va < MMAP_END -> trans pm T va = Some e -> is_leaf e = true /\
    in_bounds ub (pte_to_pa e) /\ page_ref pm (page_index (pte_to_pa e)) = 1 /\ forall path, T !! path <> Some (pte_to_pa e);
  ao_inj : forall va va' e e', MMAP_BEGIN <= va < MMAP_END -> MMAP_BEGIN <= va' < MMAP_END -> trans pm T va = Some e -> trans pm T va' = Some e' ->
    pte_to_pa e = pte_to_pa e' -> va / PGSIZE = va' / PGSIZE;
}.

(** What is mapped in the mmap area is what the regions cover. *)
Record mmap_inv s T (head : option nat) (fl : list nat) l : Prop := {
  mi_area : area_ok (um_pm s) T (covers l);
  mi_regions : regions_ok (um_wh s) head fl l;
}.
Lemma mi_pmem s T head fl l : mmap_inv s T head fl l -> pmem_inv kb ub (um_pm s).
Proof. intros [[] _]. done. Qed.
Lemma mi_wf s T head fl l : mmap_inv s T head fl l -> pt_wf kb ub (um_pm s) root T.
Proof. intros [[] _]. done. Qed.
Lemma mi_mapped s T head fl l : mmap_inv s T head fl l ->
  forall va, MMAP_BEGIN <= va < MMAP_END -> trans (um_pm s) T va <> None <-> covers l va.
Proof. intros [[] _]. done. Qed.

(** The range of [np] pages at [b] was added: fresh zeroed pages, recorded in
    the region that begins at the address returned. *)
Definition mmapped s T l (b np : Z) (r : result Z UvmError * option nat) s' : Prop :=
  exists a fr T' fl' l', r.1 = Ok a /\
    user_grown (kb := kb) (ub := ub) (root := root) (um_pm s) T b (b + np * PGSIZE) fr (um_pm s') T' /\
    mmap_inv s' T' r.2 fl' l' /\ (forall va, covers l' va <-> covers l va \/ b <= va < b + np * PGSIZE) /\
    exists g, g ∈ l' /\ rb g = a /\ a <= b /\ b + np * PGSIZE <= reg_end g.

(** The range touches no region and the warehouse has no node for a new one:
    the pages are mapped, and the call fails without a record of them. *)
Definition mmap_leaked s T head (fl : list nat) l (b np : Z) (r : result Z UvmError * option nat) s' : Prop :=
  fl = [] /\ ~ covers l (b - 1) /\ ~ covers l (b + np * PGSIZE) /\ r = (Err NoMem, head) /\ um_wh s' = um_wh s /\
  exists fr T', user_grown (kb := kb) (ub := ub) (root := root) (um_pm s) T b (b + np * PGSIZE) fr (um_pm s') T'.

(** Pages enough for the range. *)
Definition mmap_room s (np : Z) : Prop :=
  np <= allocable (inner (region false (um_pm s))) /\ 2 * np <= allocable (inner (region true (um_pm s))).

Lemma wp_map_pages s T b n : pmem_inv kb ub (um_pm s) -> pt_wf kb ub (um_pm s) root T -> 0 < n -> b mod PGSIZE = 0 ->
  0 <= b -> b + n * PGSIZE <= VA_MAX -> mmap_room s n -> (forall va, b <= va < b + n * PGSIZE -> trans (um_pm s) T va = None) ->
  wp (map_pages root b n) (fun r s' => r = Ok tt /\ um_wh s' = um_wh s /\
    exists fr T', user_grown (kb := kb) (ub := ub) (root := root) (um_pm s) T b (b + n * PGSIZE) fr (um_pm s') T') s.
Proof.
  intros Hinv Hwf Hn Hal Hb Hmax [Hu Hk] Hnone. change VA_MAX with 274877906944 in *. unfold map_pages.
  rewrite align_down_aligned by (done || page_lia). wp_steps. unfold on_pm. wp_step.
  assert (Hlen : (b + n * PGSIZE - b) / PGSIZE = n) by (rewrite Z.add_simpl_l; by apply Z.div_mul).
  eapply wp_mono; [|apply (wp_map_fresh_range (kb := kb) (ub := ub) (um_pm s) T); try done].
  - intros r pm' [-> (fr & T' & Hg)]. split; [done|]. split; [done|]. by exists fr, T'.
  - by rewrite Z.mod_add.
  - page_lia.
  - split; [intros _; by rewrite Hlen|]. split; [by rewrite Hlen|done].
Qed.

Lemma user_pte_facts p : 0 <= p < 2 ^ 55 -> p mod PGSIZE = 0 -> is_leaf (page_pte USER_FLAGS p) = true /\ pte_to_pa (page_pte USER_FLAGS p) = p.
Proof.
  intros Hp Hal. unfold page_pte. rewrite is_leaf_pa_to_pte, pte_to_pa_pa_to_pte by lia. split; [done|].
  unfold PGSIZE in *. Z.to_euclidean_division_equations; lia.
Qed.

(** The area after a range was mapped. *)
Lemma area_grown pm T cov b e fr pm' T' (cov' : Z -> Prop) : area_ok pm T cov -> MMAP_BEGIN <= b -> e <= MMAP_END ->
  user_grown (kb := kb) (ub := ub) (root := root) pm T b e fr pm' T' -> (forall va, cov' va <-> cov va \/ b <= va < e) -> area_ok pm' T' cov'.
Proof.
  intros [Hinv Hwf Hm Hfr Hij] Hb He Hg Hcov.
  assert (Htr : forall va, MMAP_BEGIN <= va < MMAP_END -> trans pm' T' va = if in_range b e va then Some (page_pte USER_FLAGS (fr (va / PGSIZE))) else trans pm T va).
  { intros va Hva. apply (gr_trans _ _ _ _ _ _ _ _ _ _ Hg). change VA_MAX with 274877906944. change MMAP_BEGIN with 274794012672 in *. change MMAP_END with 274861121536 in *. lia. }
  assert (Hnew : forall va, b <= va < e -> let p := fr (va / PGSIZE) in in_bounds ub p /\ page_ref pm (page_index p) = 0 /\ page_ref pm' (page_index p) = 1 /\
    is_leaf (page_pte USER_FLAGS p) = true /\ pte_to_pa (page_pte USER_FLAGS p) = p /\ forall path, T' !! path <> Some p).
  { intros va Hva. destruct (gr_frame _ _ _ _ _ _ _ _ _ _ Hg va Hva) as (H1 & H2 & H3 & _). cbv zeta.
    destruct (pool_frame_range false (fr (va / PGSIZE)) (pi_layout _ _ _ Hinv) H1) as [Hp Hal].
    destruct (user_pte_facts (fr (va / PGSIZE))) as [Hl Hpa]; [lia|done|]. split_and!; try done.
    intros path. by apply (gr_apart _ _ _ _ _ _ _ _ _ _ Hg va). }
  split; [apply Hg|apply Hg| | |].
  - intros va Hva. rewrite Hcov, Htr by done. destruct (in_range b e va) eqn:Er; [apply in_range_true in Er; naive_solver|]. rewrite Hm by done.
    assert (~ (b <= va < e)) by (intros Hin'; apply in_range_true in Hin'; congruence). tauto.
  - intros va x Hva. rewrite Htr by done. destruct (in_range b e va) eqn:Er.
    + apply in_range_true in Er. intros [= <-]. destruct (Hnew va Er) as (H1 & H2 & H3 & H4 & H5 & H6). rewrite H5. done.
    + intros Hx. destruct (Hfr va x Hva Hx) as (H1 & H2 & H3 & H4). split_and!; try done; [by apply (gr_ref _ _ _ _ _ _ _ _ _ _ Hg)|].
      intros path Hpath. destruct (gr_tables _ _ _ _ _ _ _ _ _ _ Hg _ _ Hpath) as [?|[_ Hz]]; [by apply (H4 path)|lia].
  - intros va va' x x' Hva Hva'. rewrite !Htr by done. destruct (in_range b e va) eqn:Er, (in_range b e va') eqn:Er'.
    + apply in_range_true in Er, Er'. intros [= <-] [= <-]. destruct (Hnew va Er) as (_ & _ & _ & _ & -> & _), (Hnew va' Er') as (_ & _ & _ & _ & -> & _).
      by apply (gr_inj _ _ _ _ _ _ _ _ _ _ Hg).
    + apply in_range_true in Er. intros [= <-] Hx'. destruct (Hnew va Er) as (_ & Hz & _ & _ & -> & _), (Hfr va' x' Hva' Hx') as (_ & _ & Hr & _).
      intros E. rewrite E in Hz. lia.
    + apply in_range_true in Er'. intros Hx [= <-]. destruct (Hnew va' Er') as (_ & Hz & _ & _ & -> & _), (Hfr va x Hva Hx) as (_ & _ & Hr & _).
      intros E. rewrite E in Hr. lia.
    + by apply Hij.
Qed.

(** The invariant after a range was mapped, once the regions are in order. *)
Lemma mmapped_intro s T head fl l b np fr pm' T' w' head' fl' l' g : mmap_inv s T head fl l ->
  MMAP_BEGIN <= b -> b + np * PGSIZE <= MMAP_END ->
  user_grown (kb := kb) (ub := ub) (root := root) (um_pm s) T b (b + np * PGSIZE) fr pm' T' -> regions_ok w' head' fl' l' ->
  (forall va, covers l' va <-> covers l va \/ b <= va < b + np * PGSIZE) -> g ∈ l' -> rb g <= b -> b + np * PGSIZE <= reg_end g ->
  mmapped s T l b np (Ok (rb g), head') (mkUmem pm' w').
Proof.
  intros [Ha _] Hb He Hg Hro Hcov Hin Hle Hge. exists (rb g), fr, T', fl', l'. split; [done|]. split; [done|].
  split; [|split; [done|by exists g]]. split; [|done]. by eapply area_grown.
Qed.

(** [link_after] hangs a new tail on the last of [l1]. *)
Lemma wp_link_after s l1 old nx head : linked_regions (um_wh s) l1 old -> head = first_node l1 old -> NoDup (nodes_of l1) ->
  wp (link_after (rn <$> last l1) nx head) (fun h' s' => h' = first_node l1 nx /\ um_pm s' = um_pm s /\ linked_regions (um_wh s') l1 nx /\
    (forall j, j ∉ nodes_of l1 -> MmapWarehouse.region_of j (um_wh s') = MmapWarehouse.region_of j (um_wh s)) /\
    (forall fl, warehouse_ok (um_wh s) fl -> warehouse_ok (um_wh s') fl)) s.
Proof.
  intros Hl Hh Hnd. destruct l1 as [|p l1 _] using rev_ind; [by wp_steps|]. rewrite last_snoc. unfold link_after, write_region. cbn [fmap option_fmap option_map].
  wp_steps. apply linked_regions_app in Hl as [Hl [Hp _]]. cbn [um_pm um_wh]. unfold nodes_of in *. rewrite fmap_app in *.
  apply NoDup_app in Hnd as (_ & Hdis & _). split_and!.
  - rewrite Hh, !first_node_app. done.
  - done.
  - apply linked_regions_app. split.
    + eapply linked_regions_ext; [|exact Hl]. intros i Hi. rewrite region_of_set, decide_False; [done|]. intros ->. apply (Hdis _ Hi). left.
    + split; [|done]. rewrite region_of_set, decide_True by done. by rewrite Hp.
  - intros j Hj. rewrite region_of_set, decide_False; [done|]. intros ->. apply Hj, elem_of_app. right. left.
  - intros fl. apply set_region_ok.
Qed.
(** ** Recording a range *)

Lemma tail_end x e l m : end_of x l <= m -> e <= m -> end_of e l <= m.
Proof. by destruct l. Qed.

Lemma wrap_pages n : 0 <= n -> n * PGSIZE <= MMAP_END - MMAP_BEGIN -> wrap32 n = n.
Proof. intros H0 H1. apply Z.mod_small. change (MMAP_END - MMAP_BEGIN) with 67108864 in H1. page_lia. Qed.

(** A range between the regions of [l1] and those of [l2]. *)
Section range.
Context (s : umem) (T : gmap (list Z) Z) (head : option nat) (fl : list nat) (l1 l2 : list mreg) (b np : Z).
Context (Hinv : mmap_inv s T head fl (l1 ++ l2)) (Hnp : 0 < np) (Hal : b mod PGSIZE = 0).
Context (Hlow : MMAP_BEGIN <= b) (Hhigh : b + np * PGSIZE <= MMAP_END) (Hroom : mmap_room s np).
Context (Hfree : forall va, b <= va < b + np * PGSIZE -> ~ covers (l1 ++ l2) va).

Lemma range_unmapped va : b <= va < b + np * PGSIZE -> trans (um_pm s) T va = None.
Proof.
  intros Hva. destruct (trans (um_pm s) T va) eqn:Ht; [|done]. exfalso. apply (Hfree va Hva).
  apply (mi_mapped _ _ _ _ _ Hinv); [lia|]. by rewrite Ht.
Qed.

Lemma wp_map_range : wp (map_pages root b np) (fun r s' => r = Ok tt /\ um_wh s' = um_wh s /\
  exists fr T', user_grown (kb := kb) (ub := ub) (root := root) (um_pm s) T b (b + np * PGSIZE) fr (um_pm s') T') s.
Proof.
  apply wp_map_pages; try apply (mi_area _ _ _ _ _ Hinv); try done.
  - change MMAP_BEGIN with 274794012672 in *. lia.
  - change MMAP_END with 274861121536 in *. change VA_MAX with 274877906944. lia.
  - exact range_unmapped.
Qed.

Lemma range_wrap : wrap32 np = np.
Proof. apply wrap_pages; [lia|]. page_lia. Qed.

Lemma old_order : in_order (MMAP_BEGIN - 1) l1 /\ in_order (end_of (MMAP_BEGIN - 1) l1) l2 /\ end_of (end_of (MMAP_BEGIN - 1) l1) l2 <= MMAP_END.
Proof.
  destruct (mi_regions _ _ _ _ _ Hinv) as [_ _ _ Ho He _ _]. apply in_order_app in Ho as [Ho1 Ho2]. rewrite end_of_app in He. done.
Qed.

(** The whole list with a region [g] for the range in the middle. *)
Lemma middle_order g l : end_of (MMAP_BEGIN - 1) l1 < rb g -> 0 < rp g -> rb g mod PGSIZE = 0 -> in_order (reg_end g) l -> end_of (reg_end g) l <= MMAP_END ->
  in_order (MMAP_BEGIN - 1) (l1 ++ g :: l) /\ end_of (MMAP_BEGIN - 1) (l1 ++ g :: l) <= MMAP_END.
Proof. intros H1 H2 H3 H4 H5. destruct old_order as (Ho1 & _ & _). rewrite in_order_app, end_of_app. done. Qed.

Lemma wp_mmap_new : end_of (MMAP_BEGIN - 1) l1 < b -> in_order (b + np * PGSIZE) l2 -> fl <> [] ->
  wp (mmap_new root head (rn <$> last l1) (first_node l2 None) b np) (mmapped s T (l1 ++ l2) b np) s.
Proof.
  intros H1 H2 Hfl. assert (exists node fl', fl = node :: fl') as (node & fl' & Hfl') by (destruct fl as [|x y]; [done|by exists x, y]). unfold mmap_new. wp_step. eapply wp_mono; [|exact wp_map_range].
  intros r [pm1 w1] (-> & Hw & fr & T' & Hg). cbn [um_wh um_pm] in *. subst w1. unfold on_wh. wp_step. wp_step. cbn [um_wh um_pm].
  destruct (mi_regions _ _ _ _ _ Hinv) as [Hwh Hhead Hlink _ _ Hnd Hnodes]. rewrite Hfl' in Hwh, Hnodes.
  eapply wp_mono; [|exact (wp_mregion_alloc _ _ Hwh)]. intros o w2 (-> & Hwh2 & _ & Hsame). unfold write_region. wp_steps. cbn [um_wh um_pm].
  rewrite range_wrap. set (w3 := set_region_of node _ w2).
  assert (Hw3 : forall j, j <> node -> MmapWarehouse.region_of j w3 = MmapWarehouse.region_of j (um_wh s)).
  { intros j Hj. unfold w3. rewrite region_of_set, decide_False by done. unfold MmapWarehouse.region_of. by rewrite Hsame. }
  assert (Hni : forall j, j ∈ nodes_of (l1 ++ l2) -> j <> node) by (intros j Hj ->; destruct (Hnodes _ Hj) as [_ Hn]; apply Hn; left).
  assert (Hn3 : node ∉ nodes_of (l1 ++ l2)) by (intros Hj; by apply (Hni node Hj)).
  apply linked_regions_app in Hlink as [Hk1 Hk2]. unfold nodes_of in *. rewrite fmap_app in Hnd, Hnodes, Hni, Hn3.
  eapply wp_mono; [|apply (wp_link_after (mkUmem pm1 w3) l1 (first_node l2 None))].
  - intros h' [pm4 w4] (-> & Hpm & Hl4 & Hs4 & Hok4). cbn [um_wh um_pm] in *. subst pm4. wp_steps.
    destruct (middle_order (mkReg node b np) l2) as [Ho He]; try done; [by eapply tail_end; [apply old_order|]|].
    apply (mmapped_intro s T head fl (l1 ++ l2) b np fr pm1 T' w4 _ fl' (l1 ++ mkReg node b np :: l2) (mkReg node b np)); try done.
    + apply NoDup_app in Hnd as (Hnd1 & Hdis & Hnd2). split; [by apply Hok4, set_region_ok|by rewrite first_node_app| |done|done| |].
      * apply linked_regions_app. split; [done|]. split.
        -- rewrite Hs4 by (intros Hj; apply Hn3, elem_of_app; by left). unfold w3. by rewrite region_of_set, decide_True.
        -- eapply linked_regions_ext; [|exact Hk2]. intros i Hi. rewrite Hs4 by (intros Hj; by apply (Hdis _ Hj)).
           apply Hw3, Hni, elem_of_app. by right.
      * unfold nodes_of. rewrite fmap_app. apply NoDup_app. split; [done|]. rewrite elem_of_app in Hn3. split; [|apply NoDup_cons; split; [tauto|done]].
        intros j Hj [->|Hj']%elem_of_cons; [tauto|by apply (Hdis j)].
      * intros j. unfold nodes_of. rewrite fmap_app, elem_of_app, fmap_cons, elem_of_cons. intros [Hj|[->|Hj]].
        -- destruct (Hnodes j) as [? Hf]; [apply elem_of_app; by left|]. split; [done|]. intros Hx. apply Hf. by right.
        -- cbn [rn]. pose proof (wo_range _ _ Hwh node ltac:(left)). split; [done|]. by apply (NoDup_cons_1_1 node fl'), Hwh.
        -- destruct (Hnodes j) as [? Hf]; [apply elem_of_app; by right|]. split; [done|]. intros Hx. apply Hf. by right.
    + intros va. rewrite !covers_app, covers_cons. unfold reg_end. cbn [rb rp]. tauto.
    + apply elem_of_app. right. left.
  - eapply linked_regions_ext; [|exact Hk1]. intros i Hi. apply Hw3, Hni, elem_of_app. by left.
  - by rewrite Hhead, first_node_app.
  - by apply NoDup_app in Hnd as (? & _).
Qed.

Lemma wp_mmap_new_any : end_of (MMAP_BEGIN - 1) l1 < b -> in_order (b + np * PGSIZE) l2 ->
  wp (mmap_new root head (rn <$> last l1) (first_node l2 None) b np)
    (fun r s' => mmapped s T (l1 ++ l2) b np r s' \/ mmap_leaked s T head fl (l1 ++ l2) b np r s') s.
Proof.
  intros H1 H2. destruct (decide (fl = [])) as [Hfl|Hfl]; [|eapply wp_mono; [by left|by apply wp_mmap_new]].
  pose proof (ro_order _ _ _ _ (mi_regions _ _ _ _ _ Hinv)) as [Ho1 Ho2]%in_order_app.
  assert (Hc2 : forall va, covers l2 va -> b + np * PGSIZE < va).
  { intros va Hc. pose proof (covers_bounds _ _ _ H2 Hc). destruct l2 as [|c l]; [by apply covers_nil in Hc|].
    destruct H2 as (H2a & H2b). assert (Hb : in_order (rb c - 1) (c :: l)) by (split; [lia|done]). pose proof (covers_bounds _ _ _ Hb Hc). lia. }
  unfold mmap_new. wp_step. eapply wp_mono; [|exact wp_map_range].
  intros r [pm1 w1] (-> & Hw & fr & T' & Hg). cbn [um_wh um_pm] in *. subst w1. unfold on_wh. wp_step. wp_step. cbn [um_wh um_pm].
  pose proof (ro_warehouse _ _ _ _ (mi_regions _ _ _ _ _ Hinv)) as Hwh. rewrite Hfl in Hwh.
  eapply wp_mono; [|exact (wp_mregion_alloc _ _ Hwh)]. intros o w2 [-> ->]. wp_steps. right. split_and!; [done| | |done|done|by exists fr, T'].
  - intros [Hc|Hc]%covers_app; [apply (covers_bounds _ _ _ Ho1) in Hc; lia|apply Hc2 in Hc; page_lia].
  - intros [Hc|Hc]%covers_app; [apply (covers_bounds _ _ _ Ho1) in Hc; page_lia|apply Hc2 in Hc; lia].
Qed.
(** The region [c] after the range grows down to its begin. *)
Lemma wp_mmap_grow_next c l : l2 = c :: l -> rb c = b + np * PGSIZE -> end_of (MMAP_BEGIN - 1) l1 < b ->
  wp (mmap_grow_next root head (rn <$> last l1) (rn c) b (b + np * PGSIZE) (reg_end c)) (mmapped s T (l1 ++ l2) b np) s.
Proof.
  intros Hl2 Hc H1. destruct old_order as (_ & Ho2 & He2). rewrite Hl2 in Ho2, He2. destruct Ho2 as (_ & Hcp & _ & Ho2). cbn [end_of] in He2.
  pose proof (in_order_end _ _ Ho2) as Hle. unfold mmap_grow_next.
  replace ((b + np * PGSIZE - b) / PGSIZE) with np by (rewrite Z.add_simpl_l; symmetry; by apply Z.div_mul).
  replace ((reg_end c - b) / PGSIZE) with (np + rp c) by (unfold reg_end; rewrite Hc; replace (_ - b) with ((np + rp c) * PGSIZE) by lia; symmetry; by apply Z.div_mul).
  rewrite wrap_pages by (unfold reg_end in *; page_lia).
  wp_step. eapply wp_mono; [|exact wp_map_range]. intros r [pm1 w1] (-> & Hw & fr & T' & Hg). cbn [um_wh um_pm] in *. subst w1.
  destruct (mi_regions _ _ _ _ _ Hinv) as [Hwh Hhead Hlink _ _ Hnd Hnodes]. rewrite Hl2 in Hhead, Hlink, Hnd, Hnodes. unfold write_region. wp_steps. cbn [um_wh um_pm].
  set (g := mkReg (rn c) b (np + rp c)).
  assert (Hge : reg_end g = reg_end c) by (unfold reg_end, g; cbn [rb rp]; rewrite Hc; lia).
  apply linked_regions_app in Hlink as [Hk1 [Hkc Hk2]]. unfold nodes_of in *. rewrite fmap_app, fmap_cons in Hnd, Hnodes.
  apply NoDup_app in Hnd as (Hnd1 & Hdis & [Hcn Hnd2]%NoDup_cons).
  set (w3 := set_region_of (rn c) _ _).
  assert (Hw3 : forall j, j <> rn c -> MmapWarehouse.region_of j w3 = MmapWarehouse.region_of j (um_wh s))
    by (intros j Hj; unfold w3; by rewrite !region_of_set, !decide_False by done).
  assert (Hc3 : MmapWarehouse.region_of (rn c) w3 = mkMmap b (np + rp c) (first_node l None))
    by (unfold w3; rewrite !region_of_set, !decide_True by done; by rewrite Hkc).
  eapply wp_mono; [|apply (wp_link_after (mkUmem pm1 w3) l1 (Some (rn c)))].
  - intros h' [pm4 w4] (-> & Hpm & Hl4 & Hs4 & Hok4). cbn [um_wh um_pm] in *. subst pm4. wp_steps.
    destruct (middle_order g l) as [Ho He]; [done|unfold g; cbn; lia|done|by rewrite Hge|by rewrite Hge|].
    apply (mmapped_intro s T head fl (l1 ++ l2) b np fr pm1 T' w4 _ fl (l1 ++ g :: l) g); try done.
    + split; [by apply Hok4, set_region_ok, set_region_ok|by rewrite first_node_app| |done|done| |].
      * apply linked_regions_app. split; [done|]. split.
        -- rewrite Hs4 by (intros Hj; apply (Hdis _ Hj); left). done.
        -- eapply linked_regions_ext; [|exact Hk2]. intros i Hi. rewrite Hs4 by (intros Hj; apply (Hdis _ Hj); by right).
           apply Hw3. by intros ->.
      * unfold nodes_of. rewrite fmap_app, fmap_cons. apply NoDup_app. split; [done|]. split; [done|by apply NoDup_cons].
      * unfold nodes_of. rewrite fmap_app, fmap_cons. done.
    + intros va. rewrite Hl2, !covers_app, !covers_cons, Hge, Hc. unfold g. cbn [rb]. unfold reg_end. rewrite Hc.
      assert (b <= va < b + np * PGSIZE + rp c * PGSIZE <-> b + np * PGSIZE <= va < b + np * PGSIZE + rp c * PGSIZE \/ b <= va < b + np * PGSIZE) by page_lia.
      tauto.
    + apply elem_of_app. right. left.
    + rewrite Hge. unfold reg_end. page_lia.
  - eapply linked_regions_ext; [|exact Hk1]. intros i Hi. apply Hw3. intros ->. apply (Hdis _ Hi). left.
  - by rewrite Hhead, first_node_app.
  - done.
Qed.
(** The region [p] before the range grows over it, up to [e']; [l] is what
    follows it afterwards. *)
Section prev.
Context (l0 : list mreg) (p : mreg) (Hl1 : l1 = l0 ++ [p]) (Hp : reg_end p = b).

Lemma prev_facts : MMAP_BEGIN <= rb p /\ 0 < rp p /\ rb p mod PGSIZE = 0 /\ in_order (MMAP_BEGIN - 1) l0 /\ end_of (MMAP_BEGIN - 1) l0 < rb p /\
  end_of (MMAP_BEGIN - 1) l1 = b.
Proof.
  destruct old_order as (Ho1 & _ & _). rewrite Hl1 in *. apply in_order_app in Ho1 as [Ho0 (H1 & H2 & H3 & _)]. rewrite end_of_app. simpl.
  pose proof (in_order_end _ _ Ho0). split_and!; try done. lia.
Qed.

Lemma prev_joined fr pm' T' w' fl' l n' :
  user_grown (kb := kb) (ub := ub) (root := root) (um_pm s) T b (b + np * PGSIZE) fr pm' T' ->
  let e' := rb p + n' * PGSIZE in
  b + np * PGSIZE <= e' -> in_order e' l -> end_of e' l <= MMAP_END -> warehouse_ok w' fl' ->
  MmapWarehouse.region_of (rn p) w' = mkMmap (rb p) n' (first_node l None) ->
  (forall j, j ∈ nodes_of l0 ++ nodes_of l -> MmapWarehouse.region_of j w' = MmapWarehouse.region_of j (um_wh s)) ->
  linked_regions (um_wh s) l None -> NoDup (nodes_of (l1 ++ l)) -> (forall j, j ∈ nodes_of (l1 ++ l) -> (j < N_MMAP)%nat /\ j ∉ fl') ->
  (forall va, covers l va \/ b <= va < e' <-> covers l2 va \/ b <= va < b + np * PGSIZE) ->
  mmapped s T (l1 ++ l2) b np (Ok (rb p), head) (mkUmem pm' w').
Proof.
  intros Hg e' He' Ho He Hwh Hrp Hsame Hlk Hnd Hnodes Hcov. destruct prev_facts as (Hp1 & Hp2 & Hp3 & Ho0 & Hlt & _).
  set (g := mkReg (rn p) (rb p) n'). assert (Hnew : nodes_of (l0 ++ g :: l) = nodes_of (l1 ++ l)).
  { rewrite Hl1. unfold nodes_of. rewrite !fmap_app, fmap_cons. by rewrite <-app_assoc. }
  destruct (mi_regions _ _ _ _ _ Hinv) as [_ Hhead Hlink _ _ _ _]. rewrite Hl1, <-app_assoc in Hhead, Hlink. apply linked_regions_app in Hlink as [Hk0 _].
  apply (mmapped_intro s T head fl (l1 ++ l2) b np fr pm' T' w' head fl' (l0 ++ g :: l) g); try done.
  - assert (Hre : reg_end g = e') by done. split; [done|rewrite Hhead; by destruct l0| | | |by rewrite Hnew|by rewrite Hnew].
    + apply linked_regions_app. split; [|split; [done|]].
      * eapply linked_regions_ext; [|exact Hk0]. intros j Hj. apply Hsame, elem_of_app. by left.
      * eapply linked_regions_ext; [|exact Hlk]. intros j Hj. apply Hsame, elem_of_app. by right.
    + apply in_order_app. split; [done|]. cbn [in_order]. rewrite Hre. unfold g. cbn [rb rp]. unfold e', reg_end in *. split_and!; try done. page_lia.
    + rewrite end_of_app. cbn [end_of]. by rewrite Hre.
  - intros va. rewrite Hl1, !covers_app, !covers_cons, covers_nil, Hp. change (reg_end g) with e'. unfold g. cbn [rb].
    specialize (Hcov va). assert (rb p <= va < e' <-> rb p <= va < b \/ b <= va < e') by (unfold reg_end in Hp; page_lia). tauto.
  - apply elem_of_app. right. left.
  - unfold g, reg_end in *. cbn [rb]. page_lia.
Qed.

Lemma wp_grow_prev_start (Q : result Z UvmError * option nat -> umem -> Prop) cur consume merged_end :
  (forall pm' fr T', user_grown (kb := kb) (ub := ub) (root := root) (um_pm s) T b (b + np * PGSIZE) fr pm' T' ->
    wp (write_region (rn p) (set_npages (wrap32 ((merged_end - rb p) / PGSIZE)));;
      (match cur, consume with
       | Some c, true =>
           nr ← deref c;
           next_end ← region_end nr;
           write_region (rn p) (set_npages (wrap32 ((next_end - rb p) / PGSIZE)));;
           write_region (rn p) (set_mnext (mnext nr));;
           on_wh (mregion_free (Some c))
       | _, _ => mret tt
       end);;
      mret (Ok (rb p), head)) Q (mkUmem pm' (um_wh s))) ->
  wp (mmap_grow_prev root head (rn p) cur consume (b + np * PGSIZE) merged_end) Q s.
Proof.
  intros HQ. destruct prev_facts as (Hp1 & Hp2 & Hp3 & _). unfold mmap_grow_prev.
  destruct (mi_regions _ _ _ _ _ Hinv) as [_ _ Hlink _ _ _ _]. rewrite Hl1, <-app_assoc in Hlink. apply linked_regions_app in Hlink as [_ [Hkp _]].
  wp_step. unfold deref at 1. wp_step. rewrite Hkp. wp_step.
  eapply wp_intro; [apply region_end_run; unfold reg_end in *; change MMAP_BEGIN with 274794012672 in *; change MMAP_END with 274861121536 in *; page_lia|].
  change (rb p + rp p * PGSIZE) with (reg_end p). rewrite Hp. wp_step. rewrite (proj2 (Z.ltb_lt _ _)) by page_lia.
  replace ((b + np * PGSIZE - b) / PGSIZE) with np by (rewrite Z.add_simpl_l; symmetry; by apply Z.div_mul).
  eapply wp_mono; [|exact wp_map_range]. intros r [pm1 w1] (-> & Hw & fr & T' & Hg). cbn [um_wh um_pm] in *. subst w1. cbn [begin_]. by eapply HQ.
Qed.
Lemma wp_mmap_grow_prev : in_order (b + np * PGSIZE) l2 ->
  wp (mmap_grow_prev root head (rn p) (first_node l2 None) false (b + np * PGSIZE) (b + np * PGSIZE)) (mmapped s T (l1 ++ l2) b np) s.
Proof.
  intros Ho. apply wp_grow_prev_start. intros pm' fr T' Hg. destruct prev_facts as (Hp1 & Hp2 & Hp3 & _ & _ & Hend).
  replace ((b + np * PGSIZE - rb p) / PGSIZE) with (rp p + np)
    by (rewrite <-Hp; unfold reg_end; replace (_ - rb p) with ((rp p + np) * PGSIZE) by lia; symmetry; by apply Z.div_mul).
  assert (He' : rb p + (rp p + np) * PGSIZE = b + np * PGSIZE) by (rewrite <-Hp; unfold reg_end; lia).
  rewrite wrap_pages by (change (MMAP_END - MMAP_BEGIN) with 67108864; change MMAP_BEGIN with 274794012672 in *; change MMAP_END with 274861121536 in *; page_lia).
  unfold write_region. wp_step. wp_step. wp_step.
  replace (match first_node l2 None with Some c => _ | None => mret tt end) with (mret tt : M umem unit) by (by destruct (first_node l2 None)).
  wp_steps. cbn [um_wh um_pm]. destruct (mi_regions _ _ _ _ _ Hinv) as [Hwh _ Hlink _ _ Hnd Hnodes].
  pose proof Hnd as Hnd0. rewrite Hl1 in Hlink, Hnd0. unfold nodes_of in Hnd0. rewrite !fmap_app in Hnd0. rewrite <-app_assoc in Hlink, Hnd0.
  apply linked_regions_app in Hlink as [_ [Hkp Hk2]]. apply NoDup_app in Hnd0 as (_ & Hd0 & [Hd2 _]%NoDup_cons).
  apply (prev_joined fr pm' T' _ fl l2 (rp p + np)); try done; rewrite ?He'; try done.
  - eapply tail_end; [apply old_order|done].
  - by apply set_region_ok.
  - rewrite region_of_set, decide_True by done. by rewrite Hkp.
  - intros j Hj. rewrite region_of_set, decide_False; [done|]. intros ->. apply elem_of_app in Hj as [Hj|Hj]; [|done].
    apply (Hd0 _ Hj). left.
Qed.

Lemma wp_mmap_grow_both c l : l2 = c :: l -> rb c = b + np * PGSIZE ->
  wp (mmap_grow_prev root head (rn p) (Some (rn c)) true (b + np * PGSIZE) (reg_end c)) (mmapped s T (l1 ++ l2) b np) s.
Proof.
  intros Hl2 Hc. apply wp_grow_prev_start. intros pm' fr T' Hg. destruct prev_facts as (Hp1 & Hp2 & Hp3 & _ & _ & Hend).
  destruct old_order as (_ & Ho2 & He2). rewrite Hl2 in Ho2, He2. destruct Ho2 as (_ & Hcp & _ & Ho2). cbn [end_of] in He2.
  pose proof (in_order_end _ _ Ho2) as Hle.
  assert (Hn : (reg_end c - rb p) / PGSIZE = rp p + np + rp c).
  { unfold reg_end in *. rewrite Hc, <-Hp. replace (_ - rb p) with ((rp p + np + rp c) * PGSIZE) by lia. by apply Z.div_mul. }
  assert (He' : rb p + (rp p + np + rp c) * PGSIZE = reg_end c) by (unfold reg_end in *; rewrite Hc, <-Hp; lia).
  assert (Hwr : wrap32 (rp p + np + rp c) = rp p + np + rp c) by (apply wrap_pages; unfold reg_end in *; page_lia).
  destruct (mi_regions _ _ _ _ _ Hinv) as [Hwh _ Hlink _ _ Hnd Hnodes].
  pose proof Hnd as Hnd0. rewrite Hl1, Hl2 in Hlink, Hnd0. unfold nodes_of in Hnd0. rewrite !fmap_app, fmap_cons in Hnd0. rewrite <-app_assoc in Hlink, Hnd0.
  apply linked_regions_app in Hlink as [_ [Hkp [Hkc Hk2]]]. apply NoDup_app in Hnd0 as (_ & Hd0 & [Hd2 [Hdc _]%NoDup_cons]%NoDup_cons).
  assert (Hcn : (rn c < N_MMAP)%nat /\ rn c ∉ fl) by (apply Hnodes; rewrite Hl2; unfold nodes_of; rewrite fmap_app; apply elem_of_app; right; left).
  assert (Hpc : rn p <> rn c) by (intros E; apply Hd2; rewrite E; left).
  rewrite Hn, Hwr. unfold write_region, deref. wp_step. wp_step. wp_step. wp_step. wp_step. cbn [um_wh um_pm].
  rewrite region_of_set, decide_False, Hkc by done. wp_step.
  eapply wp_intro; [apply region_end_run; unfold reg_end in *; change MMAP_BEGIN with 274794012672 in *; change MMAP_END with 274861121536 in *; page_lia|].
  change (rb c + rp c * PGSIZE) with (reg_end c). rewrite Hn, Hwr. wp_steps. cbn [um_wh um_pm mnext]. unfold on_wh. wp_step. cbn [um_wh um_pm].
  eapply wp_mono; [|apply (wp_mregion_free _ fl (rn c)); [by do 3 apply set_region_ok|apply Hcn|apply Hcn]].
  intros [] w' [Hwh' Hsame]. wp_steps.
  assert (Hw' : forall j, j <> rn c -> j <> rn p -> MmapWarehouse.region_of j w' = MmapWarehouse.region_of j (um_wh s)).
  { intros j Hj Hj'. unfold MmapWarehouse.region_of at 1. rewrite Hsame by done. change (mmap_ (node_list ?w j)) with (MmapWarehouse.region_of j w).
    by rewrite !region_of_set, !decide_False by done. }
  apply (prev_joined fr pm' T' _ (rn c :: fl) l (rp p + np + rp c)); try done; rewrite ?He'; try done.
  - unfold reg_end. rewrite Hc. page_lia.
  - unfold MmapWarehouse.region_of. rewrite Hsame by done. change (mmap_ (node_list ?w (rn p))) with (MmapWarehouse.region_of (rn p) w).
    rewrite !region_of_set, !decide_True by done. by rewrite Hkp.
  - intros j Hj. apply Hw'; intros ->; apply elem_of_app in Hj as [Hj|Hj].
    + apply (Hd0 _ Hj). right. left.
    + done.
    + apply (Hd0 _ Hj). left.
    + apply Hd2. by right.
  - rewrite Hl2 in Hnd. unfold nodes_of in *. rewrite !fmap_app in *. rewrite fmap_cons in Hnd.
    apply NoDup_app in Hnd as (Hn1 & Hn2 & [_ Hn3]%NoDup_cons). apply NoDup_app. split; [done|]. split; [|done]. intros j Hj Hj'. apply (Hn2 j Hj). by right.
  - intros j Hj. rewrite Hl2 in Hnodes. unfold nodes_of in *. rewrite fmap_app in Hj, Hnodes. rewrite fmap_cons in Hnodes.
    destruct (Hnodes j) as [Hlt Hnf]; [apply elem_of_app; apply elem_of_app in Hj as [?|?]; [by left|right; by right]|]. split; [done|].
    intros [->|?]%elem_of_cons; [|done]. apply elem_of_app in Hj as [Hj|Hj]; [|done]. rewrite Hl1, fmap_app in Hj.
    apply elem_of_app in Hj as [Hj|Hj]; [apply (Hd0 _ Hj); right; left|]. apply list_elem_of_singleton in Hj. by apply Hpc.
  - intros va. rewrite Hl2, covers_cons, Hc. unfold reg_end. rewrite Hc.
    assert (b <= va < b + np * PGSIZE + rp c * PGSIZE <-> b + np * PGSIZE <= va < b + np * PGSIZE + rp c * PGSIZE \/ b <= va < b + np * PGSIZE) by page_lia.
    tauto.
Qed.
End prev.
End range.

(** ** [mmap] *)

(** The regions around the address, read off the nodes. *)
Lemma prev_run s l1 l2 head fl : regions_ok (um_wh s) head fl (l1 ++ l2) ->
  (match rn <$> last l1 with Some p => r ← deref p; e ← region_end r; mret (Some e) | None => mret None end) s = Ret (reg_end <$> last l1) s.
Proof.
  intros [_ _ Hlink Ho He _ _]. destruct l1 as [|p l1 _] using rev_ind; [done|]. rewrite last_snoc. cbn [fmap option_fmap option_map].
  rewrite <-app_assoc in *. apply linked_regions_app in Hlink as [_ [Hp _]]. destruct (in_order_elem _ _ p Ho) as (H1 & H2 & _ & H3); [apply elem_of_app; right; left|].
  unfold reg_end in *. change MMAP_BEGIN with 274794012672 in *. change MMAP_END with 274861121536 in *.
  rewrite (bind_run _ _ _ _ _ (deref_run s _ _ Hp)). rewrite (bind_run _ _ _ _ _ (region_end_run s (rb p) (rp p) _ ltac:(lia) ltac:(lia) ltac:(unfold U64; lia))). done.
Qed.

Lemma cur_run s l1 l2 head fl : regions_ok (um_wh s) head fl (l1 ++ l2) ->
  (match first_node l2 None with Some c => r ← deref c; mret (Some r) | None => mret None end) s =
  Ret (match l2 with [] => None | c :: l => Some (mkMmap (rb c) (rp c) (first_node l None)) end) s.
Proof.
  intros [_ _ Hlink _ _ _ _]. destruct l2 as [|c l]; [done|]. cbn [first_node]. apply linked_regions_app in Hlink as [_ [Hc _]].
  by rewrite (bind_run _ _ _ _ _ (deref_run s _ _ Hc)).
Qed.

(** Nothing is covered between the regions around a range. *)
Lemma between_free lo l1 l2 b e : in_order lo (l1 ++ l2) -> end_of lo l1 <= b -> match l2 with [] => True | c :: _ => e <= rb c end ->
  forall va, b <= va < e -> ~ covers (l1 ++ l2) va.
Proof.
  intros [Ho1 Ho2]%in_order_app Hb He va Hva [Hcv|Hcv]%covers_app.
  - apply (covers_bounds lo) in Hcv; [lia|done].
  - destruct l2 as [|c l]; [by apply covers_nil in Hcv|]. apply (covers_bounds (rb c - 1)) in Hcv; [lia|]. destruct Ho2 as (_ & Ho2). split; [lia|done].
Qed.

Lemma end_of_snoc lo l p : end_of lo (l ++ [p]) = reg_end p.
Proof. by rewrite end_of_app. Qed.

Lemma last_node l p : Some (rn p) = rn <$> last (l ++ [p]).
Proof. by rewrite last_snoc. Qed.

(** The part of [mmap] after the address is chosen. *)
Lemma wp_mmap_at s T head fl l b np : mmap_inv s T head fl l -> 0 < np -> b mod PGSIZE = 0 -> MMAP_BEGIN <= b -> b + np * PGSIZE <= MMAP_END ->
  mmap_room s np ->
  wp (mmap_at root head b np) (fun r s' => (fits l (np * PGSIZE) b /\ (mmapped s T l b np r s' \/ mmap_leaked s T head fl l b np r s')) \/
    (~ fits l (np * PGSIZE) b /\ r = (Err OutOfRange, head) /\ s' = s)) s.
Proof.
  intros Hinv Hnp Hal Hlo Hhi Hroom. pose proof (mi_regions _ _ _ _ _ Hinv) as Hro. unfold mmap_at.
  assert (Hu : 0 <= np * PGSIZE < U64 /\ 0 <= b + np * PGSIZE < U64)
    by (change MMAP_BEGIN with 274794012672 in *; change MMAP_END with 274861121536 in *; page_lia).
  wp_step. apply wp_checked; [lia|]. wp_step. apply wp_checked; [lia|].
  destruct (find_slot_run b s head fl l Hro) as (l1 & l2 & [-> Hb1 Hb2] & Hslot). wp_step. eapply wp_intro; [exact Hslot|]. cbv beta iota.
  wp_step. eapply wp_intro; [exact (prev_run s l1 l2 head fl Hro)|]. wp_step. eapply wp_intro; [exact (cur_run s l1 l2 head fl Hro)|].
  pose proof (ro_order _ _ _ _ Hro) as Ho. pose proof Ho as [Ho1 Ho2]%in_order_app.
  (* an overlap with the region before *)
  destruct (match reg_end <$> last l1 with Some e => b <? e | None => false end) eqn:Hov1.
  { wp_step. right. split; [|done]. intros Hf. destruct l1 as [|p l1 _] using rev_ind; [done|]. rewrite last_snoc in Hov1.
    apply Z.ltb_lt in Hov1. apply Forall_app in Hb1 as [_ Hb1]. rewrite Forall_singleton in Hb1. apply (fi_free _ _ _ Hf b); [page_lia|].
    apply covers_app. left. apply covers_app. right. apply covers_cons. left. lia. }
  assert (He1 : end_of (MMAP_BEGIN - 1) l1 <= b).
  { destruct l1 as [|p l1 _] using rev_ind; [simpl; lia|]. rewrite last_snoc in Hov1. apply Z.ltb_ge in Hov1. by rewrite end_of_snoc. }
  destruct l2 as [|c l2].
  - assert (Hfree : forall va, b <= va < b + np * PGSIZE -> ~ covers (l1 ++ []) va) by (by apply (between_free (MMAP_BEGIN - 1))).
    assert (Hfits : fits (l1 ++ []) (np * PGSIZE) b) by done. wp_step. wp_step.
    eapply wp_mono; [intros r s' Hm; left; split; [exact Hfits|exact Hm]|].
    destruct l1 as [|p l1 _] using rev_ind; [apply (wp_mmap_new_any s T head fl [] []); try done; simpl; lia|].
    rewrite last_snoc in *. cbn [fmap option_fmap option_map]. rewrite end_of_snoc in He1. destruct (Z.eqb_spec (reg_end p) b) as [Heq|Hne].
    + eapply wp_mono; [by left|]; by apply (wp_mmap_grow_prev s T head fl (l1 ++ [p]) [] b np Hinv Hnp Hal Hlo Hhi Hroom Hfree l1 p).
    + rewrite (last_node l1 p). apply (wp_mmap_new_any s T head fl (l1 ++ [p]) []); try done. rewrite end_of_snoc. lia.
  - cbn [begin_]. destruct Ho2 as (_ & Hcp & Hca & Ho2). pose proof (in_order_elem _ _ c Ho ltac:(apply elem_of_app; right; left)) as (_ & _ & _ & Hce).
    pose proof (ro_end _ _ _ _ Hro) as Hend. destruct (Z.ltb_spec (rb c) (b + np * PGSIZE)) as [Hov2|Hge].
    { wp_step. right. split; [|done]. intros Hf. apply (fi_free _ _ _ Hf (rb c)); [lia|]. apply covers_app. right. apply covers_cons. left.
      unfold reg_end. page_lia. }
    assert (Hfree : forall va, b <= va < b + np * PGSIZE -> ~ covers (l1 ++ c :: l2) va) by (by apply (between_free (MMAP_BEGIN - 1))).
    assert (Hfits : fits (l1 ++ c :: l2) (np * PGSIZE) b) by done. cbv zeta.
    destruct (Z.eqb_spec (b + np * PGSIZE) (rb c)) as [Hm|Hm]; wp_step.
    + eapply wp_intro; [apply region_end_run; unfold reg_end in *; change MMAP_BEGIN with 274794012672 in *; change MMAP_END with 274861121536 in *; page_lia|].
      change (rb c + rp c * PGSIZE) with (reg_end c). eapply wp_mono; [intros r s' Hmm; left; split; [exact Hfits|exact Hmm]|]. symmetry in Hm.
      destruct l1 as [|p l1 _] using rev_ind; [eapply wp_mono; [by left|]; apply (wp_mmap_grow_next s T head fl [] (c :: l2)) with (l := l2); try done; simpl; lia|].
      rewrite last_snoc in *. cbn [fmap option_fmap option_map]. rewrite end_of_snoc in He1. destruct (Z.eqb_spec (reg_end p) b) as [Heq|Hne].
      * eapply wp_mono; [by left|]; by apply (wp_mmap_grow_both s T head fl (l1 ++ [p]) (c :: l2) b np Hinv Hnp Hal Hlo Hhi Hroom Hfree l1 p) with (l := l2).
      * rewrite (last_node l1 p).
        eapply wp_mono; [by left|]. apply (wp_mmap_grow_next s T head fl (l1 ++ [p]) (c :: l2)) with (l := l2); try done. rewrite end_of_snoc. lia.
    + wp_step. eapply wp_mono; [intros r s' Hmm; left; split; [exact Hfits|exact Hmm]|].
      assert (Hord : in_order (b + np * PGSIZE) (c :: l2)) by (split_and!; done || lia).
      destruct l1 as [|p l1 _] using rev_ind; [apply (wp_mmap_new_any s T head fl [] (c :: l2)); try done; simpl; lia|].
      rewrite last_snoc in *. cbn [fmap option_fmap option_map]. rewrite end_of_snoc in He1. destruct (Z.eqb_spec (reg_end p) b) as [Heq|Hne].
      * eapply wp_mono; [by left|]; by apply (wp_mmap_grow_prev s T head fl (l1 ++ [p]) (c :: l2) b np Hinv Hnp Hal Hlo Hhi Hroom Hfree l1 p).
      * rewrite (last_node l1 p).
        apply (wp_mmap_new_any s T head fl (l1 ++ [p]) (c :: l2)); try done. rewrite end_of_snoc. lia.
Qed.
(** Where the range goes: the place asked for, or the lowest one that fits. *)
Definition placed l (begin0 need b : Z) : Prop :=
  fits l need b /\ if begin0 =? 0 then forall x, fits l need x -> b <= x else b = begin0.
Definition no_place l (begin0 need : Z) : Prop := forall b, ~ placed l begin0 need b.

(** The address [mmap] chooses or was given. *)
Lemma wp_choose s T head fl l begin0 np (Q : option Z -> umem -> Prop) : mmap_inv s T head fl l -> 0 < np -> np * PGSIZE < U64 -> 0 <= begin0 ->
  (forall b, (if begin0 =? 0 then placed l begin0 (np * PGSIZE) b else b = begin0) -> Q (Some b) s) ->
  (no_place l begin0 (np * PGSIZE) -> Q None s) ->
  wp (if begin0 =? 0 then
        '(b, cursor) ← find_gap head np MMAP_BEGIN;
        if b =? 0 then
          need ← umul np PGSIZE;
          if need <=? sat_sub MMAP_END cursor then mret (Some cursor) else mret None
        else mret (Some b)
      else mret (Some begin0)) Q s.
Proof.
  intros Hinv Hnp Hsz H0 HS HN. destruct (Z.eqb_spec begin0 0) as [->|Hne]; [|wp_step; by apply HS].
  pose proof (mi_regions _ _ _ _ _ Hinv) as Hro'. pose proof Hro' as [_ Hhead Hlink Ho He _ _].
  destruct (find_gap_loop np s l [] MMAP_BEGIN LIST_FUEL Hnp Hsz Hlink) as (b & c & Hrun & H1 & H2 & H3 & H4); try done.
  - by eapply tail_end.
  - intros va _ Hcv. by apply covers_nil in Hcv.
  - intros b Hb Hf. pose proof (fi_low _ _ _ Hf). lia.
  - pose proof (regions_length _ _ _ _ Hro'). unfold LIST_FUEL. lia.
  - cbn [app] in *. unfold find_gap. rewrite Hhead. wp_step. eapply wp_intro; [exact Hrun|]. cbv beta iota. destruct H4 as [[-> Hfree]|[-> Hf]].
    + rewrite Z.eqb_refl. wp_step. apply wp_checked; [page_lia|]. unfold sat_sub. destruct (Z.leb_spec (np * PGSIZE) (Z.max 0 (MMAP_END - c))) as [Hfit|Hno]; wp_step.
      * apply HS. split; [split; [done|page_lia|done|]|].
        -- intros va Hva. apply Hfree. lia.
        -- cbn. intros x Hx. destruct (Z.lt_ge_cases x c) as [Hlt|]; [|done]. by apply H3 in Hlt.
      * apply HN. intros x [Hx _]. destruct (Z.lt_ge_cases x c) as [Hlt|Hge]; [by apply (H3 x)|]. pose proof (fi_high _ _ _ Hx). lia.
    + rewrite (proj2 (Z.eqb_neq _ _)) by (change MMAP_BEGIN with 274794012672 in *; lia). wp_step. apply HS. split; [done|]. cbn.
      intros x Hx. destruct (Z.lt_ge_cases x c) as [Hlt|]; [|done]. by apply H3 in Hlt.
Qed.

Lemma wp_uvm_mmap s T head fl l begin0 len : mmap_inv s T head fl l -> 0 < len -> len + PGMASK < U64 -> 0 <= begin0 ->
  begin0 + align_up_val len < U64 -> (align_up_val len <= MMAP_END - MMAP_BEGIN -> mmap_room s (align_up_val len / PGSIZE)) ->
  wp (uvm_mmap root head begin0 len MMAP_BEGIN MMAP_END) (fun r s' =>
    (exists b, placed l begin0 (align_up_val len) b /\
       (mmapped s T l b (align_up_val len / PGSIZE) r s' \/ mmap_leaked s T head fl l b (align_up_val len / PGSIZE) r s')) \/
    (no_place l begin0 (align_up_val len) /\ r = (Err OutOfRange, head) /\ s' = s)) s.
Proof.
  intros Hinv Hlen Hov H0 Hbo Hroom. destruct (align_up_val_spec len) as [Ha1 Ha2]. set (need := align_up_val len) in *.
  assert (Hn : need / PGSIZE * PGSIZE = need) by (unfold PGSIZE in *; Z.to_euclidean_division_equations; lia).
  set (np := need / PGSIZE) in *. assert (Hnp : 0 < np) by page_lia. unfold uvm_mmap. rewrite (proj2 (Z.eqb_neq len 0)) by lia.
  wp_step. apply wp_align_up; [lia|done|]. fold need. fold np. cbv zeta. rewrite (proj2 (Z.eqb_neq np 0)) by lia. wp_step.
  eapply (wp_choose s T head fl l begin0 np); [done|done|page_lia|done| |].
  - rewrite Hn. intros b Hb. assert (Hbb : 0 <= b /\ b + need < U64).
    { destruct (begin0 =? 0); [|subst b; lia]. destruct Hb as [[Hb1 Hb2 _ _] _].
      change MMAP_BEGIN with 274794012672 in *; change MMAP_END with 274861121536 in *. unfold U64. lia. }
    assert (Hno : ~ fits l need b -> no_place l begin0 need).
    { intros Hnf x [Hx Hmin]. destruct (begin0 =? 0); [by destruct Hb|]. subst. done. }
    destruct (Z.ltb_spec b MMAP_BEGIN) as [Hlo|Hlo].
    { wp_step. wp_step. cbv iota. wp_step. right. split; [|done]. apply Hno. intros []. lia. }
    wp_step. wp_step. apply wp_checked; [rewrite Hn; page_lia|]. rewrite Hn. wp_step. apply wp_checked; [lia|]. wp_step.
    destruct (Z.ltb_spec MMAP_END (b + need)) as [Hhi|Hhi]; cbn [orb].
    { wp_step. right. split; [|done]. apply Hno. intros []. lia. }
    fold PGMASK. fold (page_offset b). rewrite page_offset_eq. destruct (Z.eqb_spec (b mod PGSIZE) 0) as [Hal|Hal]; cbn [negb].
    2:{ wp_step. right. split; [|done]. apply Hno. intros []. done. }
    eapply wp_mono; [|apply (wp_mmap_at s T head fl l b np); try done; [by rewrite Hn|apply Hroom; lia]].
    intros r s'. rewrite Hn. intros [[Hf Hm]|(Hnf & -> & ->)]; [left; exists b; split; [|done]|right; auto].
    destruct (begin0 =? 0) eqn:E0; [done|]. split; [done|]. by rewrite E0.
  - rewrite Hn. intros Hnone. wp_step. by right.
Qed.
End mmap.

(** ** Properties *)

(** C23: [mmap] of a length that does not overflow, with enough free pages for
    it. A range that is not empty and has a place (the one asked for, when it is
    in the area, aligned and free; else, asked for none, the lowest that fits)
    gets fresh zeroed pages of its own there and nothing else changes
    ([mmapped]): the regions stay in order, apart and equal to what is mapped,
    and the answer is the begin of the region that now holds the range. The
    exception is a range next to no region while the node pool is empty
    ([mmap_leaked]): its pages are mapped too, but the answer is [NoMem] and no
    region records them. Without a place, or for length 0, the answer is
    [OutOfRange] and nothing changes. *)
Theorem mmap_correct kb ub root s T head fl l begin0 len :
  mmap_inv (kb := kb) (ub := ub) (root := root) s T head fl l -> 0 <= len -> len + PGMASK < U64 -> 0 <= begin0 ->
  begin0 + align_up_val len < U64 -> (align_up_val len <= MMAP_END - MMAP_BEGIN -> mmap_room s (align_up_val len / PGSIZE)) ->
  wp (uvm_mmap root head begin0 len MMAP_BEGIN MMAP_END) (fun r s' =>
    (exists b, len <> 0 /\ placed l begin0 (align_up_val len) b /\
       (mmapped (kb := kb) (ub := ub) (root := root) s T l b (align_up_val len / PGSIZE) r s' \/
        mmap_leaked (kb := kb) (ub := ub) (root := root) s T head fl l b (align_up_val len / PGSIZE) r s')) \/
    ((len = 0 \/ no_place l begin0 (align_up_val len)) /\ r = (Err OutOfRange, head) /\ s' = s)) s.
Proof.
  intros Hinv Hlen Hov H0 Hbo Hroom. destruct (Z.eq_dec len 0) as [->|Hne].
  { unfold uvm_mmap. cbn [Z.eqb]. wp_step. auto. }
  eapply wp_mono; [|apply (wp_uvm_mmap (kb := kb) (ub := ub) s T head fl l begin0 len); try done; lia].
  intros r s' [(b & Hp & Hm)|(Hno & Hr)]; [left; by exists b|right; auto].
Qed.

Definition demo_umem : umem := mkUmem demo_pt demo_warehouse.

(** A process without regions. *)
Lemma demo_mmap_inv : mmap_inv (kb := demo_kb) (ub := demo_ub) (root := demo_root) demo_umem demo_tree None (0%nat :: seq 1 255) [].
Proof.
  split.
  - split; [exact demo_pt_inv|exact demo_pt_wf|..]; cbn [um_pm demo_umem]; intros; rewrite ?demo_pt_trans in *; [|discriminate..].
    rewrite covers_nil. split; [by intros Hn|done].
  - split; [exact demo_warehouse_ok|done|done|done|vm_compute; discriminate|apply NoDup_nil_2|]. intros i Hi. by apply not_elem_of_nil in Hi.
Qed.

Lemma mmap_correct_witness :
  wp (uvm_mmap demo_root None 0 5000 MMAP_BEGIN MMAP_END) (fun r s' => r.1 = Ok MMAP_BEGIN /\
    allocable (inner (region false (um_pm s'))) = 14) demo_umem.
Proof.
  assert (Hfit : fits [] 8192 MMAP_BEGIN).
  { split; [lia|vm_compute; discriminate|reflexivity|]. intros va _ Hc. exact (proj1 (covers_nil va) Hc). }
  eapply wp_mono; [|apply (mmap_correct demo_kb demo_ub demo_root demo_umem demo_tree None (0%nat :: seq 1 255) [] 0 5000 demo_mmap_inv);
    [lia|reflexivity|lia|reflexivity|intros _; split; vm_compute; discriminate]].
  change (align_up_val 5000) with 8192. change (8192 / PGSIZE) with 2.
  intros [r h] s' [(b & _ & [Hf Hmin] & [(a & fr & T' & fl' & l' & Hr & Hg & Hi & Hc & g & Hin & Ha & Hle & _)|[Hl _]])|([Hz|Hno] & _)];
    [| discriminate Hl | discriminate Hz |].
  - assert (Hb : b = MMAP_BEGIN) by (pose proof (Hmin _ Hfit); pose proof (fi_low _ _ _ Hf); lia). subst b. split.
    + rewrite Hr. f_equal. pose proof (in_order_elem _ _ g (ro_order _ _ _ _ (mi_regions _ _ _ _ _ Hi)) Hin) as [Hlo _]. lia.
    + rewrite (gr_user _ _ _ _ _ _ _ _ _ _ Hg). vm_compute. reflexivity.
  - exfalso. apply (Hno MMAP_BEGIN). split; [exact Hfit|]. intros x Hx. exact (fi_low _ _ _ Hx).
Defined.

(** When the warehouse is empty, [mmap] of a place that touches no region fails
    only after it has mapped the pages: they stay mapped and no region records
    them. *)
Theorem mmap_exhausted_leaks kb ub root s T head l1 l2 b np :
  mmap_inv (kb := kb) (ub := ub) (root := root) s T head [] (l1 ++ l2) -> 0 < np -> b mod PGSIZE = 0 -> MMAP_BEGIN <= b ->
  b + np * PGSIZE <= MMAP_END -> mmap_room s np -> (forall va, b <= va < b + np * PGSIZE -> ~ covers (l1 ++ l2) va) ->
  wp (mmap_new root head (rn <$> last l1) (first_node l2 None) b np) (fun r s' => r = (Err NoMem, head) /\ um_wh s' = um_wh s /\
    exists fr T', user_grown (kb := kb) (ub := ub) (root := root) (um_pm s) T b (b + np * PGSIZE) fr (um_pm s') T') s.
Proof.
  intros Hinv Hnp Hal Hlo Hhi Hroom Hfree. unfold mmap_new. wp_step. eapply wp_mono; [|by eapply (wp_map_range s T head [] l1 l2 b np)].
  intros r [pm1 w1] (-> & Hw & fr & T' & Hg). cbn [um_wh um_pm] in *. subst w1. unfold on_wh. wp_step. wp_step. cbn [um_wh um_pm].
  eapply wp_mono; [|exact (wp_mregion_alloc _ _ (ro_warehouse _ _ _ _ (mi_regions _ _ _ _ _ Hinv)))].
  intros o w2 [-> ->]. wp_steps. split; [done|]. split; [done|]. by exists fr, T'.
Qed.
