(* ===== verification/Munmap.v ===== *)
(** * Unmapping mmap regions ([munmap] of [mem/uvm.rs])

    [munmap] gives back the pages of a range and cuts the regions to match:
    a region is removed, trimmed at either end or split in two. *)
From stdpp Require Import functions.
From S2P Require Import Prelude Addr PhysMem PageTable FreshPages MmapWarehouse Uvm UserGrowth MmapRegions.

Section munmap.
Context {kb ub : RegionBounds} {root : Z} {T : gmap (list Z) Z}.
Implicit Types (s : umem) (pm : pmem) (l : list mreg) (R : Z -> Prop).
Local Abbreviation area_ok := (area_ok (kb := kb) (ub := ub) (root := root)).
Local Abbreviation mmap_inv := (mmap_inv (kb := kb) (ub := ub) (root := root)).

(** ** Pages *)

(** From [pm] to [pm'] the pages of [R] were unmapped and their frames given
    back, and nothing else changed. *)
Record area_freed pm R pm' : Prop := {
  af_gone : forall va, 0 <= va < VA_MAX -> R va -> trans pm' T va = None;
  af_stay : forall va, 0 <= va < VA_MAX -> ~ R va -> trans pm' T va = trans pm T va;
  af_freed : forall va p, R va -> frame_at pm T va p -> page_ref pm' (page_index p) = 0;
  af_kept : forall i, (forall va p, R va -> frame_at pm T va p -> i <> page_index p) -> page_ref pm' i = page_ref pm i;
  af_kernel : region true pm' = region true pm;
  af_mem : forall q x, owned kb ub pm q -> (forall path, T !! path <> Some q) -> (forall va, R va -> ~ frame_at pm T va q) ->
    in_page q x -> mem pm' x = mem pm x;
}.

Lemma area_freed_none pm : area_freed pm (fun _ => False) pm.
Proof. by split. Qed.

Lemma area_freed_ext pm R R' pm' : (forall va, R' va <-> R va) -> area_freed pm R pm' -> area_freed pm R' pm'.
Proof.
  intros HR [H1 H2 H3 H4 H5 H6]. split; [intros va Hva ?%HR; auto|intros va Hva Hn; apply H2; [done|]; by rewrite <-HR|intros va p ?%HR; eauto| |done|].
  - intros i Hi. apply H4. intros va p ?%HR. eauto.
  - intros q x Hq Ht Hf. apply H6; [done|done|]. intros va ?%HR. eauto.
Qed.

(** Frames of different pages of the area have different indices. *)
Lemma frames_apart pm cov va va' p p' : area_ok pm T cov -> MMAP_BEGIN <= va < MMAP_END -> MMAP_BEGIN <= va' < MMAP_END ->
  frame_at pm T va p -> frame_at pm T va' p' -> page_index p = page_index p' -> va / PGSIZE = va' / PGSIZE.
Proof.
  intros [Hinv _ _ Hf Hij] Hva Hva' (e & He & <-) (e' & He' & <-) Hidx. destruct (Hf va e Hva He) as (_ & Hb & _), (Hf va' e' Hva' He') as (_ & Hb' & _).
  apply (Hij va va' e e'); try done. by apply (@same_page kb ub false false); [apply Hinv| | |].
Qed.

(** One range of mapped pages unmapped. *)
Lemma wp_area_unmap pm cov a e : area_ok pm T cov -> MMAP_BEGIN <= a -> a < e -> e <= MMAP_END -> a mod PGSIZE = 0 -> e mod PGSIZE = 0 ->
  (forall va, a <= va < e -> cov va) ->
  wp (pt_unmap root a (e - a) true) (fun ok pm' => ok = true /\ area_ok pm' T (fun va => cov va /\ ~ (a <= va < e)) /\
    area_freed pm (fun va => a <= va < e) pm') pm.
Proof.
  intros Hao Ha Hae He Hal Hel Hcov. pose proof Hao as [Hinv Hwf Hm Hf Hij].
  assert (Hbig : 0 <= a /\ e <= VA_MAX /\ MMAP_END <= VA_MAX /\ 0 <= MMAP_BEGIN) by (change MMAP_BEGIN with 274794012672 in *; change MMAP_END with 274861121536 in *; change VA_MAX with 274877906944; lia).
  assert (Hd : align_down a = a) by (apply align_down_aligned; [change VA_MAX with 274877906944 in *; page_lia|done]).
  assert (Hl : map_last a (e - a) + PGSIZE = e).
  { unfold map_last. replace (a + (e - a)) with e by lia. rewrite align_up_aligned by done. lia. }
  assert (Hum : unmappable (kb := kb) (ub := ub) pm T (align_down a) (map_last a (e - a)) true false).
  { rewrite Hd. split; rewrite Hl.
    - intros va Hva. destruct (trans pm T va) as [x|] eqn:Hx; [exists x; split; [done|]; apply (Hf va x); [lia|done]|].
      exfalso. by apply (proj2 (Hm va ltac:(lia)) (Hcov va Hva)).
    - intros _ va p Hva (x & Hx & <-). destruct (Hf va x ltac:(lia) Hx) as (_ & H1 & H2 & H3). done.
    - intros _ va va' p Hva Hva' (x & Hx & <-) (x' & Hx' & Heq). eapply Hij; [| |exact Hx|exact Hx'|done]; lia. }
  eapply wp_mono; [|apply (wp_pt_unmap (kb := kb) (ub := ub) pm T a (e - a) true false); [done|done|lia|lia|lia|done]].
  intros ok pm' [-> [Hi' Hw' Htr Hfreed Hkept _ Hoth Hmem]]. rewrite Hd, Hl in *. split; [done|].
  assert (Hin : forall va, in_range a e va = true <-> a <= va < e) by (intros va; apply in_range_true).
  assert (Hold : forall va, MMAP_BEGIN <= va < MMAP_END -> ~ (a <= va < e) -> trans pm' T va = trans pm T va).
  { intros va Hva Hn. rewrite Htr by lia. destruct (in_range a e va) eqn:Er; [by apply Hin in Er|done]. }
  assert (Hnone : forall va, a <= va < e -> trans pm' T va = None) by (intros va Hva; rewrite Htr by lia; by rewrite (proj2 (Hin va) Hva)).
  split.
  - split; [done|done| | |].
    + intros va Hva. destruct (decide (a <= va < e)) as [Hr|Hr]; [rewrite Hnone by done; tauto|]. rewrite Hold, Hm by done. tauto.
    + intros va x Hva Hx. assert (Hr : ~ (a <= va < e)) by (intros Hr; by rewrite Hnone in Hx). rewrite Hold in Hx by done.
      destruct (Hf va x Hva Hx) as (H1 & H2 & H3 & H4). split_and!; try done. rewrite Hkept; [done|]. intros _ va' p Hva' Hfa Hidx.
      assert (Hpg : va / PGSIZE = va' / PGSIZE) by (eapply (frames_apart pm cov va va'); [done|done|lia|by exists x|exact Hfa|done]).
      apply Hr. unfold PGSIZE in *. Z.to_euclidean_division_equations; lia.
    + intros va va' x x' Hva Hva' Hx Hx'. assert (~ (a <= va < e)) by (intros Hr; by rewrite Hnone in Hx).
      assert (~ (a <= va' < e)) by (intros Hr; by rewrite Hnone in Hx'). rewrite Hold in Hx, Hx' by done. by apply Hij.
  - split.
    + intros va _. apply Hnone.
    + intros va Hva Hn. rewrite Htr by done. destruct (in_range a e va) eqn:Er; [by apply Hin in Er|done].
    + by apply Hfreed.
    + intros i Hi. apply Hkept. by intros _.
    + exact Hoth.
    + intros q x Hq Ht Hfa. by apply Hmem.
Qed.

(** Two rounds one after the other. *)
Lemma area_freed_trans pm cov0 R1 pm1 R2 pm2 cov : area_ok pm T cov0 -> area_freed pm R1 pm1 -> area_ok pm1 T cov -> area_freed pm1 R2 pm2 ->
  (forall va, R1 va -> MMAP_BEGIN <= va < MMAP_END) -> (forall va, R2 va -> MMAP_BEGIN <= va < MMAP_END /\ ~ R1 va /\ cov va) ->
  (forall va, R2 va \/ ~ R2 va) ->
  area_freed pm (fun va => R1 va \/ R2 va) pm2.
Proof.
  intros Hao0 [A1 A2 A3 A4 A5 A6] Hao [B1 B2 B3 B4 B5 B6] HR1 HR2 Hd2.
  assert (Hown : forall q, owned kb ub pm q -> (forall va, R1 va -> ~ frame_at pm T va q) -> owned kb ub pm1 q).
  { intros q (H1 & H2 & H3) Hnf. split; [done|]. split; [done|]. intros fk Hb. rewrite A4; [by apply (H3 fk)|]. intros va p Hr (x & Hx & <-) Hidx.
    destruct (ao_frame _ _ _ Hao0 va x (HR1 va Hr) Hx) as (_ & Hpb & _). apply (Hnf va Hr). exists x. split; [done|]. symmetry.
    by apply (@same_page kb ub fk false); [apply Hao0| | |]. }
  assert (Harea : MMAP_END <= VA_MAX /\ 0 <= MMAP_BEGIN) by done.
  assert (Hfr : forall va p, R2 va -> frame_at pm T va p <-> frame_at pm1 T va p).
  { intros va p Hva. destruct (HR2 va Hva) as (Hr & Hn & _). unfold frame_at. by rewrite A2 by (done || lia). }
  split.
  - intros va Hva [H1|H2]; [|by apply B1]. destruct (Hd2 va) as [|Hn2]; [by apply B1|]. rewrite B2 by done. by apply A1.
  - intros va Hva Hn. rewrite B2, A2 by (done || tauto). done.
  - intros va p [H1|H2] Hf; [|by apply (B3 va); [|apply Hfr]]. rewrite B4; [by apply (A3 va)|]. intros va' p' H2 (x & Hx & <-) Hidx.
    destruct (HR2 va' H2) as (Hr & _). destruct (ao_frame _ _ _ Hao va' x Hr Hx) as (_ & _ & Hone & _). rewrite <-Hidx in Hone.
    rewrite (A3 va p H1 Hf) in Hone. done.
  - intros i Hi. rewrite B4; [apply A4; intros va p H1; apply (Hi va p); by left|]. intros va p H2 Hf. apply (Hi va p); [by right|]. by apply Hfr.
  - by rewrite B5.
  - intros q x Hq Ht Hf Hx. rewrite (B6 q), (A6 q); try done.
    + intros va H1. apply Hf. by left.
    + apply Hown; [done|]. intros va H1. apply Hf. by left.
    + intros va H2 Hfa. apply (Hf va); [by right|]. by apply Hfr.
Qed.
(** ** Cutting a region *)

(** The region [c] replaced by regions inside it. *)
Lemma cut_order lo d c mid rest m : in_order lo (d ++ c :: rest) -> end_of lo (d ++ c :: rest) <= m -> in_order (rb c - 1) mid ->
  end_of (rb c - 1) mid <= reg_end c -> in_order lo (d ++ mid ++ rest) /\ end_of lo (d ++ mid ++ rest) <= m.
Proof.
  intros [Ho1 (H1 & H2 & _ & H3)]%in_order_app He Hm Hme. rewrite end_of_app in He. cbn [end_of] in He. pose proof (in_order_end _ _ H3) as Hre.
  assert (Hx : end_of (end_of lo d) mid <= reg_end c /\ in_order (end_of lo d) mid).
  { split; [|eapply in_order_lower; [|exact Hm]; lia]. destruct mid; [simpl in *; unfold reg_end; page_lia|exact Hme]. }
  destruct Hx as [Hx1 Hx2]. rewrite !in_order_app, !end_of_app. split; [split; [done|]; split; [done|by eapply in_order_lower]|].
  eapply tail_end; [exact He|lia].
Qed.

(** The list with other regions in the place of [c], the first on its node. *)
Lemma regions_rebuild w head fl d c rest w' fl' mid : regions_ok w head fl (d ++ c :: rest) -> warehouse_ok w' fl' ->
  (forall j, j ∈ nodes_of d ++ nodes_of rest -> MmapWarehouse.region_of j w' = MmapWarehouse.region_of j w) ->
  linked_regions w' mid (first_node rest None) -> first_node mid None = Some (rn c) ->
  in_order (rb c - 1) mid -> end_of (rb c - 1) mid <= reg_end c -> NoDup (nodes_of mid) ->
  (forall j, j ∈ nodes_of mid -> (j < N_MMAP)%nat /\ (j ∉ fl') /\ (j = rn c \/ j ∈ fl)) -> (forall j, j ∈ fl' -> j ∈ fl) ->
  regions_ok w' head fl' (d ++ mid ++ rest).
Proof.
  intros [Hwh Hhead Hlink Ho He Hnd Hnodes] Hwh' Hsame Hmid Hfirst Hom Hem Hndm Hnm Hfl.
  destruct (cut_order _ _ _ mid _ _ Ho He Hom Hem) as [Ho' He']. apply linked_regions_app in Hlink as [Hk1 [_ Hk2]].
  assert (Hfm : forall nx, first_node mid nx = Some (rn c)) by (intros nx; by destruct mid).
  unfold nodes_of in *. rewrite fmap_app, fmap_cons in Hnd, Hnodes. apply NoDup_app in Hnd as (Hn1 & Hn2 & [Hn3 Hn4]%NoDup_cons).
  split; [done| | |done|done| |].
  - by rewrite Hhead, !first_node_app, Hfm.
  - rewrite !linked_regions_app, first_node_app, Hfm. split; [|split; [done|]].
    + eapply linked_regions_ext; [|exact Hk1]. intros j Hj. apply Hsame, elem_of_app. by left.
    + eapply linked_regions_ext; [|exact Hk2]. intros j Hj. apply Hsame, elem_of_app. by right.
  - unfold nodes_of. rewrite !fmap_app. apply NoDup_app. split; [done|]. split.
    + intros j Hj [Hm|Hr]%elem_of_app; [|apply (Hn2 j Hj); by right]. destruct (Hnm j Hm) as (_ & _ & [->|Hf]); [apply (Hn2 _ Hj); left|].
      destruct (Hnodes j) as [_ Hx]; [apply elem_of_app; by left|done].
    + apply NoDup_app. split; [done|]. split; [|done]. intros j Hm Hr. destruct (Hnm j Hm) as (_ & _ & [->|Hf]); [done|].
      destruct (Hnodes j) as [_ Hx]; [apply elem_of_app; right; by right|done].
  - intros j. unfold nodes_of. rewrite !fmap_app, !elem_of_app. intros [Hj|[Hj|Hj]]; [| |].
    + destruct (Hnodes j) as [? Hx]; [apply elem_of_app; by left|]. split; [done|]. intros Hf. by apply Hx, Hfl.
    + destruct (Hnm j Hj) as (? & ? & _). done.
    + destruct (Hnodes j) as [? Hx]; [apply elem_of_app; right; by right|]. split; [done|]. intros Hf. by apply Hx, Hfl.
Qed.

(** Taking [c] out of the list and giving its node back. *)
Lemma wp_drop_region s head fl d c rest : regions_ok (um_wh s) head fl (d ++ c :: rest) ->
  wp (link_after (rn <$> last d) (first_node rest None) head) (fun h' s1 =>
    wp (on_wh (mregion_free (Some (rn c)))) (fun _ s2 => um_pm s2 = um_pm s /\ regions_ok (um_wh s2) h' (rn c :: fl) (d ++ rest)) s1) s.
Proof.
  intros [Hwh Hhead Hlink Ho He Hnd Hnodes]. pose proof Hlink as [Hk1 [_ Hk2]]%linked_regions_app.
  unfold nodes_of in *. rewrite fmap_app, fmap_cons in Hnd, Hnodes. apply NoDup_app in Hnd as (Hn1 & Hn2 & [Hn3 Hn4]%NoDup_cons).
  eapply wp_mono; [|apply (wp_link_after s d (Some (rn c))); [exact Hk1|by rewrite Hhead, first_node_app|done]].
  intros h' [pm1 w1] (-> & Hpm & Hl1 & Hs1 & Hok1). cbn [um_pm um_wh] in *. subst pm1. unfold on_wh. wp_step. cbn [um_pm um_wh].
  destruct (Hnodes (rn c)) as [Hcn Hcf]; [apply elem_of_app; right; left|].
  eapply wp_mono; [|apply (wp_mregion_free w1 fl (rn c)); [by apply Hok1|done|done]]. intros [] w2 [Hwh2 Hs2]. split; [done|]. cbn [um_wh].
  assert (Hw2 : forall j, j <> rn c -> MmapWarehouse.region_of j w2 = MmapWarehouse.region_of j w1) by (intros j Hj; unfold MmapWarehouse.region_of; by rewrite Hs2).
  destruct (cut_order _ _ c [] rest _ Ho He) as [Ho' He']; [done|simpl; destruct (in_order_elem _ _ c Ho) as (_ & H0 & _); [apply elem_of_app; right; left|unfold reg_end; page_lia]|].
  split; [done|by rewrite first_node_app| |done|done| |].
  - apply linked_regions_app. split.
    + eapply linked_regions_ext; [|exact Hl1]. intros j Hj. apply Hw2. intros ->. apply (Hn2 _ Hj). left.
    + eapply linked_regions_ext; [|exact Hk2]. intros j Hj. rewrite Hw2 by (by intros ->). apply Hs1. intros Hd. apply (Hn2 _ Hd). by right.
  - unfold nodes_of. rewrite fmap_app. apply NoDup_app. split; [done|]. split; [|done]. intros j Hj Hr. apply (Hn2 j Hj). by right.
  - intros j. unfold nodes_of. rewrite fmap_app, elem_of_app. intros Hj. destruct (Hnodes j) as [Hlt Hnf]; [apply elem_of_app; destruct Hj; [by left|right; by right]|].
    split; [done|]. intros [->|?]%elem_of_cons; [|done]. destruct Hj as [Hj|Hj]; [apply (Hn2 _ Hj); left|done].
Qed.
(** One round over a region that meets what is left of the range. *)
Section round.
Context (s : umem) (head : option nat) (fl : list nat) (d : list mreg) (c : mreg) (rest : list mreg) (us end_ : Z).
Context (Hro : regions_ok (um_wh s) head fl (d ++ c :: rest)) (Hao : area_ok (um_pm s) T (covers (d ++ c :: rest))).
Context (Hus : us mod PGSIZE = 0) (Hend : end_ mod PGSIZE = 0).
Context (H1 : us < end_) (H2 : us < reg_end c) (H3 : rb c < end_) (H0 : 0 <= us).
Let a := Z.max us (rb c).
Let e := Z.min end_ (reg_end c).

Definition round_post (r : (option nat * option nat * option nat * Z) + (result unit UvmError * option nat)) (s' : umem) : Prop :=
  exists head' prv' fl' d', r = inl (head', prv', first_node rest None, e) /\ (e < end_ -> prv' = rn <$> last d') /\
    regions_ok (um_wh s') head' fl' (d' ++ rest) /\ area_ok (um_pm s') T (covers (d' ++ rest)) /\
    area_freed (um_pm s) (fun va => a <= va < e) (um_pm s') /\
    forall va, covers d' va <-> covers d va \/ (rb c <= va < reg_end c /\ ~ (a <= va < e)).

Lemma round_facts : 0 < rp c /\ rb c mod PGSIZE = 0 /\ reg_end c mod PGSIZE = 0 /\ MMAP_BEGIN <= rb c /\ reg_end c <= MMAP_END /\
  rb c <= a /\ a < e /\ e <= reg_end c /\ a mod PGSIZE = 0 /\ e mod PGSIZE = 0 /\
  (forall va, covers d va -> va < rb c) /\ (forall va, covers rest va -> reg_end c <= va).
Proof.
  destruct Hro as [_ _ _ Ho He _ _]. destruct (in_order_elem _ _ c Ho) as (Hlo & Hp & Hal & Hce); [apply elem_of_app; right; left|].
  assert (Hea : reg_end c mod PGSIZE = 0) by (unfold reg_end; by rewrite Z.mod_add). apply in_order_app in Ho as [Ho1 (Hx & _ & _ & Ho2)].
  assert (Hrb : rb c < reg_end c) by (unfold reg_end; page_lia). subst a e. split_and!; try done; try lia.
  - by destruct (Z.max_spec us (rb c)) as [[_ ->]|[_ ->]].
  - by destruct (Z.min_spec end_ (reg_end c)) as [[_ ->]|[_ ->]].
  - intros va Hcv. pose proof (covers_bounds _ _ _ Ho1 Hcv). lia.
  - intros va Hcv. pose proof (covers_bounds _ _ _ Ho2 Hcv). lia.
Qed.

(** The area once the pages are gone and the list is [d' ++ rest]. *)
Lemma round_area pm' d' : area_ok pm' T (fun va => covers (d ++ c :: rest) va /\ ~ (a <= va < e)) ->
  (forall va, covers d' va <-> covers d va \/ (rb c <= va < reg_end c /\ ~ (a <= va < e))) -> area_ok pm' T (covers (d' ++ rest)).
Proof.
  intros [A1 A2 A3 A4 A5] Hcov. destruct round_facts as (_ & _ & _ & _ & _ & Ha & Hae & He & _ & _ & Hd & Hr). split; [done|done| |done|done].
  intros va Hva. rewrite A3 by done. rewrite !covers_app, covers_cons, Hcov. specialize (Hd va). specialize (Hr va).
  destruct (decide (a <= va < e)); [|tauto]. split; [tauto|]. intros [[Hc|[_ Hn]]|Hc]; [apply Hd in Hc; lia|tauto|apply Hr in Hc; lia].
Qed.

Lemma in_place_cov (mid : list mreg) : (forall va, covers mid va <-> rb c <= va < reg_end c /\ ~ (a <= va < e)) ->
  forall va, covers (d ++ mid) va <-> covers d va \/ (rb c <= va < reg_end c /\ ~ (a <= va < e)).
Proof. intros Hm va. by rewrite covers_app, Hm. Qed.

Lemma node_facts : (rn c < N_MMAP)%nat /\ (rn c ∉ fl) /\ (forall j, j ∈ nodes_of d ++ nodes_of rest -> j <> rn c) /\
  MmapWarehouse.region_of (rn c) (um_wh s) = mkMmap (rb c) (rp c) (first_node rest None).
Proof.
  destruct Hro as [_ _ Hl _ _ Hnd Hn]. unfold nodes_of in *. rewrite fmap_app, fmap_cons in Hnd, Hn. apply linked_regions_app in Hl as [_ [Hc _]].
  apply NoDup_app in Hnd as (_ & Hd & [Hr _]%NoDup_cons). destruct (Hn (rn c)) as [? ?]; [apply elem_of_app; right; left|]. split_and!; try done.
  intros j Hj ->. apply elem_of_app in Hj as [Hj|Hj]; [apply (Hd _ Hj); left|done].
Qed.

Lemma pages_between x y : x mod PGSIZE = 0 -> y mod PGSIZE = 0 -> x < y -> MMAP_BEGIN <= x -> y <= MMAP_END ->
  wrap32 ((y - x) / PGSIZE) = (y - x) / PGSIZE /\ 0 < (y - x) / PGSIZE /\ x + (y - x) / PGSIZE * PGSIZE = y.
Proof.
  intros Hx Hy Hlt Hlo Hhi. assert (Heq : (y - x) / PGSIZE * PGSIZE = y - x) by (unfold PGSIZE in *; Z.to_euclidean_division_equations; lia).
  split_and!; [apply wrap_pages; page_lia|page_lia|lia].
Qed.

(** The same node with another begin and length. *)
Lemma round_trim w' g : warehouse_ok w' fl -> rn g = rn c -> MmapWarehouse.region_of (rn c) w' = mkMmap (rb g) (rp g) (first_node rest None) ->
  (forall j, j <> rn c -> MmapWarehouse.region_of j w' = MmapWarehouse.region_of j (um_wh s)) ->
  rb c <= rb g -> 0 < rp g -> rb g mod PGSIZE = 0 -> reg_end g <= reg_end c -> regions_ok w' head fl ((d ++ [g]) ++ rest).
Proof.
  intros Hwh Hn Hrg Hsame Hb Hp Hal He. destruct node_facts as (Hlt & Hnf & Hne & _). rewrite <-app_assoc.
  apply (regions_rebuild (um_wh s) head fl d c rest w' fl [g]); try done.
  - intros j Hj. apply Hsame. by apply Hne.
  - split; [|done]. by rewrite Hn.
  - simpl. by rewrite Hn.
  - simpl. split_and!; done || lia.
  - apply NoDup_singleton.
  - intros j ->%list_elem_of_singleton. rewrite Hn. auto.
Qed.
(** Either no second node is needed, or there is one. *)
Lemma wp_munmap_round : fl <> [] \/ ~ (rb c < us /\ end_ < reg_end c) -> wp (munmap_body root end_ (head, rn <$> last d, Some (rn c), us)) round_post s.
Proof.
  intros Hfl. destruct round_facts as (Hp & Hal & Hea & Hlo & Hhi & Ha & Hae & He & Haa & Hee & Hd & Hr). destruct node_facts as (Hlt & Hnf & Hne & Hrc).
  unfold munmap_body. rewrite (proj2 (Z.ltb_lt us end_)) by done. wp_step. unfold deref at 1. wp_step. rewrite Hrc. wp_step.
  eapply wp_intro; [apply region_end_run; unfold reg_end in *; change MMAP_BEGIN with 274794012672 in *; change MMAP_END with 274861121536 in *; page_lia|].
  change (rb c + rp c * PGSIZE) with (reg_end c). cbn [begin_ mnext]. cbv zeta. rewrite (proj2 (Z.leb_gt end_ (rb c))) by done. fold a. fold e.
  rewrite (proj2 (Z.ltb_lt a e)) by done. wp_step. unfold on_pm. wp_step.
  eapply wp_mono; [|apply (wp_area_unmap (um_pm s) (covers (d ++ c :: rest)) a e Hao); try done; [lia|lia|]].
  2:{ intros va Hva. apply covers_app. right. apply covers_cons. left. lia. }
  intros ok pm1 (-> & Hao1 & Hfr). cbn [negb]. pose proof (ro_warehouse _ _ _ _ Hro) as Hwh.
  assert (Hmid : forall mid, (forall va, covers mid va <-> rb c <= va < reg_end c /\ ~ (a <= va < e)) ->
    area_ok pm1 T (covers ((d ++ mid) ++ rest)) /\ forall va, covers (d ++ mid) va <-> covers d va \/ (rb c <= va < reg_end c /\ ~ (a <= va < e))).
  { intros mid Hm. pose proof (in_place_cov mid Hm) as Hc. split; [by apply round_area|done]. }
  destruct (Z.eqb_spec a (rb c)) as [Hab|Hab], (Z.eqb_spec e (reg_end c)) as [Heb|Heb]; cbn [andb].
  - (* the whole region *)
    wp_step. eapply wp_mono; [|exact (wp_drop_region (mkUmem pm1 (um_wh s)) head fl d c rest Hro)].
    intros h' s1 Hs1. wp_step. eapply wp_mono; [|exact Hs1]. intros [] [pm2 w2] [Hpm Hok]. cbn [um_pm um_wh] in *. subst pm2. wp_step.
    destruct (Hmid []) as [Hx Hy]; [intros va; rewrite covers_nil; lia|]. rewrite app_nil_r in Hx, Hy.
    by exists h', (rn <$> last d), (rn c :: fl), d.
  - (* the front *)
    destruct (pages_between e (reg_end c)) as (Hwr & Hn & Hsum); [done|done|lia|lia|done|]. rewrite Hwr. unfold write_region. wp_steps. cbn [um_pm um_wh].
    set (g := mkReg (rn c) e ((reg_end c - e) / PGSIZE)). assert (Hge : reg_end g = reg_end c) by exact Hsum. destruct (Hmid [g]) as [Hx Hy].
    { intros va. rewrite covers_cons, covers_nil, Hge. cbn [rb g]. lia. }
    exists head, (Some (rn c)), fl, (d ++ [g]). split; [done|]. split; [intros _; by rewrite last_snoc|]. split; [|by split_and!].
    apply (round_trim _ g); try done; [by do 2 apply set_region_ok| | |cbn [rb g]; lia|lia].
    + cbn [um_wh]. rewrite !region_of_set, !decide_True by done. rewrite Hrc. reflexivity.
    + intros j Hj. cbn [um_wh]. rewrite !region_of_set, !decide_False by done. reflexivity.
  - (* the back *)
    destruct (pages_between (rb c) a) as (Hwr & Hn & Hsum); [done|done|lia|done|lia|]. rewrite Hwr. unfold write_region. wp_steps. cbn [um_pm um_wh].
    set (g := mkReg (rn c) (rb c) ((a - rb c) / PGSIZE)). assert (Hge : reg_end g = a) by exact Hsum. destruct (Hmid [g]) as [Hx Hy].
    { intros va. rewrite covers_cons, covers_nil, Hge. cbn [rb g]. lia. }
    exists head, (Some (rn c)), fl, (d ++ [g]). split; [done|]. split; [intros _; by rewrite last_snoc|]. split; [|by split_and!].
    apply (round_trim _ g); try done; [by apply set_region_ok| | |lia].
    + cbn [um_wh]. rewrite !region_of_set, !decide_True by done. rewrite Hrc. reflexivity.
    + intros j Hj. cbn [um_wh]. rewrite !region_of_set, !decide_False by done. reflexivity.
  - (* the middle *)
    assert (exists node fl', fl = node :: fl') as (node & fl' & Hfl').
    { destruct Hfl as [Hfl|Hfl]; [destruct fl as [|x y]; [done|by exists x, y]|]. destruct Hfl. subst a e. lia. }
    assert (Hee' : e = end_) by (subst e; lia).
    destruct (pages_between (rb c) a) as (Hwr & Hn & Hsum); [done|done|lia|done|lia|].
    destruct (pages_between e (reg_end c)) as (Hwr' & Hn' & Hsum'); [done|done|lia|lia|done|]. rewrite Hwr, Hwr'.
    wp_step. unfold on_wh. wp_step. cbn [um_pm um_wh]. rewrite Hfl' in Hwh.
    eapply wp_mono; [|exact (wp_mregion_alloc _ _ Hwh)]. intros o w2 (-> & Hwh2 & _ & Hsame). unfold write_region. wp_steps. cbn [um_pm um_wh].
    set (g := mkReg (rn c) (rb c) ((a - rb c) / PGSIZE)). set (g' := mkReg node e ((reg_end c - e) / PGSIZE)).
    assert (Hge : reg_end g = a) by exact Hsum. assert (Hge' : reg_end g' = reg_end c) by exact Hsum'. destruct (Hmid [g; g']) as [Hx Hy].
    { intros va. rewrite !covers_cons, covers_nil, Hge, Hge'. cbn [rb g g']. lia. }
    assert (Hnc : node <> rn c) by (intros E; apply Hnf; rewrite Hfl', E; left).
    exists head, (Some (rn c)), fl', (d ++ [g; g']). split; [done|]. split; [lia|]. split; [|by split_and!]. rewrite <-app_assoc.
    cbn [um_wh]. match goal with |- regions_ok ?w _ _ _ => set (w3 := w) end.
    assert (Hw3 : forall j, MmapWarehouse.region_of j w3 = if decide (j = rn c) then mkMmap (rb c) (rp g) (Some node)
      else if decide (j = node) then mkMmap e (rp g') (first_node rest None) else MmapWarehouse.region_of j (um_wh s)).
    { intros j. assert (Hold : j <> node -> MmapWarehouse.region_of j w2 = MmapWarehouse.region_of j (um_wh s))
        by (intros Hj; unfold MmapWarehouse.region_of; by rewrite Hsame).
      unfold w3. rewrite !region_of_set. destruct (decide (j = rn c)) as [->|Hj]; [|by destruct (decide (j = node)); [|apply Hold]].
      rewrite !decide_True by done. rewrite decide_False by done. by rewrite Hold, Hrc by done. }
    apply (regions_rebuild (um_wh s) head fl d c rest w3 fl' [g; g']); try done.
    + unfold w3. by do 3 apply set_region_ok.
    + intros j Hj. rewrite Hw3, !decide_False; [done| |by apply Hne].
      intros ->. destruct (ro_nodes _ _ _ _ Hro node) as [_ Hx']; [|apply Hx'; rewrite Hfl'; left]. unfold nodes_of in *. rewrite fmap_app, fmap_cons.
      apply elem_of_app. apply elem_of_app in Hj as [?|?]; [by left|right; by right].
    + split; [|split; [|done]]; cbn [rn g g']; rewrite Hw3; [by rewrite decide_True by done|by rewrite decide_False, decide_True by done].
    + cbn [in_order]. rewrite Hge. cbn [rb rp g g']. split_and!; done || lia.
    + cbn [end_of]. lia.
    + apply NoDup_cons. split; [by intros E%list_elem_of_singleton; apply Hnc|apply NoDup_singleton].
    + intros j [->| ->%list_elem_of_singleton]%elem_of_cons; cbn [rn g g'].
      * split_and!; [done|intros Hin; apply Hnf; rewrite Hfl'; by right|by left].
      * split_and!; [by apply (wo_range _ _ Hwh); left|by apply (NoDup_cons_1_1 node fl'), Hwh|right; rewrite Hfl'; left].
    + intros j Hj. rewrite Hfl'. by right.
Qed.

(** The middle of a region without a node for its second half. *)
Lemma wp_munmap_no_node : fl = [] -> rb c < us -> end_ < reg_end c ->
  wp (munmap_body root end_ (head, rn <$> last d, Some (rn c), us)) (fun r s' => r = inr (Err NoMem, head) /\ um_wh s' = um_wh s /\
    area_freed (um_pm s) (fun va => us <= va < end_) (um_pm s')) s.
Proof.
  intros Hfl Hs1 Hs2.
  destruct round_facts as (Hp & Hal & Hea & Hlo & Hhi & Ha & Hae & He & Haa & Hee & Hd & Hr). destruct node_facts as (Hlt & Hnf & Hne & Hrc).
  assert (Hau : a = us /\ e = end_) by (subst a e; lia). destruct Hau as [Hau Heu].
  unfold munmap_body. rewrite (proj2 (Z.ltb_lt us end_)) by done. wp_step. unfold deref at 1. wp_step. rewrite Hrc. wp_step.
  eapply wp_intro; [apply region_end_run; unfold reg_end in *; change MMAP_BEGIN with 274794012672 in *; change MMAP_END with 274861121536 in *; page_lia|].
  change (rb c + rp c * PGSIZE) with (reg_end c). cbn [begin_ mnext]. cbv zeta. rewrite (proj2 (Z.leb_gt end_ (rb c))) by done. fold a. fold e.
  rewrite (proj2 (Z.ltb_lt a e)) by done. wp_step. unfold on_pm. wp_step.
  eapply wp_mono; [|apply (wp_area_unmap (um_pm s) (covers (d ++ c :: rest)) a e Hao); try done; [lia|lia|]].
  2:{ intros va Hva. apply covers_app. right. apply covers_cons. left. lia. }
  intros ok pm1 (-> & _ & Hfr). cbn [negb]. pose proof (ro_warehouse _ _ _ _ Hro) as Hwh. rewrite Hfl in Hwh.
  rewrite (proj2 (Z.eqb_neq a (rb c))), (proj2 (Z.eqb_neq e (reg_end c))) by lia. cbn [andb]. wp_step. unfold on_wh. wp_step. cbn [um_pm um_wh].
  eapply wp_mono; [|exact (wp_mregion_alloc _ _ Hwh)]. intros o w2 [-> ->]. wp_steps. cbn [um_pm um_wh]. split_and!; [done|done|].
  by rewrite Hau, Heu in Hfr.
Qed.
End round.
(** ** The loops *)

(** The first region that ends after [start]. *)
Lemma skip_loop start s l2 : forall l1 fuel lo, linked_regions (um_wh s) l2 None -> in_order lo l2 -> 0 <= lo -> end_of lo l2 <= MMAP_END ->
  Forall (fun r => reg_end r <= start) l1 -> (length l2 < fuel)%nat ->
  exists l1' l2', l1 ++ l2 = l1' ++ l2' /\ Forall (fun r => reg_end r <= start) l1' /\ match l2' with [] => True | c :: _ => start < reg_end c end /\
  loop fuel (fun '(prv, cur) =>
    match cur with
    | None => mret (inr (prv, cur))
    | Some c =>
        r ← deref c;
        e ← region_end r;
        if e <=? start then mret (inl (Some c, mnext r)) else mret (inr (prv, cur))
    end) (rn <$> last l1, first_node l2 None) s = Ret (rn <$> last l1', first_node l2' None) s.
Proof.
  induction l2 as [|r l2 IH]; intros l1 [|fuel] lo Hl Ho H0 He Hb Hlen; simpl in Hlen; try lia; cbn [loop first_node]; [by exists l1, []|].
  destruct Hl as [Hr Hl], Ho as (Ho1 & Ho2 & _ & Ho3). cbn [end_of] in He. pose proof (in_order_end _ _ Ho3) as Hle.
  assert (Hre : region_end (mkMmap (rb r) (rp r) (first_node l2 None)) s = Ret (reg_end r) s).
  { apply region_end_run; unfold reg_end in *; change MMAP_END with 274861121536 in *; page_lia. }
  destruct (Z.leb_spec (reg_end r) start) as [Hs|Hs].
  - destruct (IH (l1 ++ [r]) fuel (reg_end r) Hl Ho3) as (l1' & l2' & Heq & H1 & H2 & Hrun);
      [unfold reg_end; page_lia|done|apply Forall_app; split; [done|by apply Forall_singleton]|lia|].
    exists l1', l2'. rewrite <-app_assoc in Heq. split_and!; try done. rewrite last_snoc in Hrun. etrans; [|exact Hrun].
    rewrite (bind_run _ _ s (inl (Some (rn r), first_node l2 None)) s); [done|]. etrans; [by apply bind_run, deref_run|].
    rewrite (bind_run _ _ _ _ _ Hre). by rewrite (proj2 (Z.leb_le _ _)).
  - exists l1, (r :: l2). split_and!; try done.
    rewrite (bind_run _ _ s (inr (rn <$> last l1, Some (rn r))) s); [done|]. etrans; [by apply bind_run, deref_run|].
    rewrite (bind_run _ _ _ _ _ Hre). by rewrite (proj2 (Z.leb_gt _ _)).
Qed.

(** What [munmap] of [start, end_) leaves of the regions [l0]. *)
Definition munmapped pm0 (l0 : list mreg) (start end_ : Z) (r : result unit UvmError * option nat) s' : Prop :=
  r.1 = Ok tt /\ exists fl' l', mmap_inv s' T r.2 fl' l' /\ (forall va, covers l' va <-> covers l0 va /\ ~ (start <= va < end_)) /\
    area_freed pm0 (fun va => start <= va < end_ /\ covers l0 va) (um_pm s').

(** The range lies strictly inside one region, and the warehouse has no node for
    its second half: the pages are gone, but the region still claims them. *)
Definition strictly_inside (l0 : list mreg) (start end_ : Z) : Prop := exists g, g ∈ l0 /\ rb g < start /\ end_ < reg_end g.
Definition munmap_torn s head (fl : list nat) (l0 : list mreg) (start end_ : Z) (r : result unit UvmError * option nat) s' : Prop :=
  fl = [] /\ strictly_inside l0 start end_ /\ r = (Err NoMem, head) /\ um_wh s' = um_wh s /\
  area_freed (um_pm s) (fun va => start <= va < end_) (um_pm s').

Section loop.
Context (pm0 : pmem) (l0 : list mreg) (start end_ : Z).
Context (Hao0 : area_ok pm0 T (covers l0)) (Hl0 : forall va, covers l0 va -> MMAP_BEGIN <= va < MMAP_END).
Context (Hend : end_ mod PGSIZE = 0) (Hstart : 0 <= start).

(** The state between two rounds: [d] is done, [rest] is to come. *)
Record between s (head prv : option nat) (us : Z) (d rest : list mreg) (fl : list nat) : Prop := {
  bt_regions : regions_ok (um_wh s) head fl (d ++ rest);
  bt_area : area_ok (um_pm s) T (covers (d ++ rest));
  bt_freed : area_freed pm0 (fun va => start <= va < us /\ covers l0 va) (um_pm s);
  bt_cov : forall va, covers (d ++ rest) va <-> covers l0 va /\ ~ (start <= va < us);
  bt_aligned : us mod PGSIZE = 0;
  bt_us : start <= us <= end_;
  bt_go : us < end_ -> prv = rn <$> last d;
  bt_split : match rest with [] => True | c :: _ => fl <> [] \/ ~ (rb c < us /\ end_ < reg_end c) end;
  bt_next : match rest with [] => True | c :: _ => us < reg_end c end;
  bt_done : forall va, covers d va -> ~ (us <= va < end_);
}.

Lemma between_end s head prv us d rest fl : between s head prv us d rest fl -> (forall va, us <= va < end_ -> ~ covers rest va) ->
  munmapped pm0 l0 start end_ (Ok tt, head) s.
Proof.
  intros [B1 B2 B3 B4 _ B6 _ _ _ B9] Hno. assert (Hn : forall va, us <= va < end_ -> ~ covers l0 va).
  { intros va Hva Hc. assert (Hx : covers (d ++ rest) va) by (apply B4; split; [done|lia]).
    apply covers_app in Hx as [Hx|Hx]; [by eapply B9|by eapply Hno]. }
  split; [done|]. exists fl, (d ++ rest). split; [by split|]. split.
  - intros va. rewrite B4. specialize (Hn va). split; intros [Hc Hr]; (split; [done|]); [|lia]. intros Hr'. destruct (Z.lt_ge_cases va us); [lia|]. by apply Hn; [lia|].
  - eapply area_freed_ext; [|exact B3]. intros va. cbv beta. specialize (Hn va). split; intros [Hr Hc]; (split; [|done]); [|lia].
    destruct (Z.lt_ge_cases va us); [lia|]. exfalso. by apply Hn; [lia|].
Qed.

Lemma between_step s head prv us d c rest fl : between s head prv us d (c :: rest) fl -> us < end_ -> rb c < end_ ->
  wp (munmap_body root end_ (head, prv, Some (rn c), us)) (fun r s' => exists head' prv' us' d' fl',
    r = inl (head', prv', first_node rest None, us') /\ between s' head' prv' us' d' rest fl') s.
Proof.
  intros [B1 B2 B3 B4 B5 B6 B7 Hfl B8 B9] Hlt Hrb. rewrite (B7 Hlt).
  pose proof (round_facts s head fl d c rest us end_ B1 B5 Hend Hlt B8 Hrb) as (Hp & Hal & Hea & Hlo & Hhi & Ha & Hae & He & Haa & Hee & Hd & Hr).
  eapply wp_mono; [|apply (wp_munmap_round s head fl d c rest us end_ B1 B2 B5 Hend Hlt B8 Hrb Hfl)].
  intros r s' (head' & prv' & fl' & d' & -> & Hgo & Hro' & Hao' & Hfr' & Hcd). set (a := Z.max us (rb c)) in *. set (e := Z.min end_ (reg_end c)) in *.
  exists head', prv', e, d', fl'. split; [done|].
  (* what the round took is what the range has there *)
  assert (Htook : forall va, start <= va < e /\ covers l0 va <-> (start <= va < us /\ covers l0 va) \/ a <= va < e).
  { intros va. split.
    - intros [Hva Hc]. destruct (Z.lt_ge_cases va us) as [|Hge]; [left; split; [lia|done]|right]. split; [|lia].
      assert (Hy : covers (d ++ c :: rest) va) by (apply B4; split; [done|lia]). destruct Hy as (x & Hx & Hv). apply elem_of_app in Hx as [Hx|[->|Hx]%elem_of_cons].
      + exfalso. apply (B9 va); [by exists x|lia].
      + lia.
      + pose proof (Hr va ltac:(by exists x)). lia.
    - intros [[H1 H2]|H1]; [split; [lia|done]|]. split; [lia|]. apply (B4 va). apply covers_app. right. apply covers_cons. left. lia. }
  assert (Hnext : match rest with [] => True | c' :: _ => reg_end c < rb c' \/ reg_end c <= rb c' /\ 0 < rp c' end).
  { destruct rest as [|c' rest]; [done|]. destruct B1 as [_ _ _ Ho _ _ _]. apply in_order_app in Ho as [_ (_ & _ & _ & Hx & Hy & _)]. lia. }
  split; [done|done| | |done|lia|done| | |].
  - eapply area_freed_ext; [exact Htook|]. apply (area_freed_trans pm0 (covers l0) _ (um_pm s) _ (um_pm s') (covers (d ++ c :: rest))); try done.
    + intros va [_ Hc]. by apply Hl0.
    + intros va Hva. split; [lia|]. split; [lia|]. apply covers_app. right. apply covers_cons. left. lia.
    + intros va. destruct (decide (a <= va < e)); [by left|by right].
  - intros va. rewrite covers_app, Hcd. pose proof (B4 va) as Hb. rewrite covers_app, covers_cons in Hb. specialize (Htook va). specialize (Hd va). specialize (Hr va).
    destruct (decide (a <= va < e)) as [Hin|Hout].
    + assert (covers l0 va /\ start <= va < e) by (split; [apply Htook; by right|lia]). split; [|tauto]. intros [[Hx|[_ Hx]]|Hx]; [apply Hd in Hx; lia|tauto|apply Hr in Hx; lia].
    + tauto.
  - destruct rest as [|c' rest]; [done|]. right. lia.
  - destruct rest as [|c' rest]; [done|]. destruct B1 as [_ _ _ Ho _ _ _]. apply in_order_app in Ho as [_ (_ & _ & _ & Hx & Hy & _)]. unfold reg_end in *. page_lia.
  - intros va. rewrite Hcd. intros [Hc|[Hc Hn]] Hva; [apply Hd in Hc; lia|]. lia.
Qed.

Lemma munmap_loop rest : forall s head prv us d fl fuel, between s head prv us d rest fl -> (length rest < fuel)%nat ->
  wp (loop fuel (munmap_body root end_) (head, prv, first_node rest None, us)) (munmapped pm0 l0 start end_) s.
Proof.
  induction rest as [|c rest IH]; intros s head prv us d fl [|fuel] Hb Hlen; simpl in Hlen; try lia; cbn [loop first_node]; wp_step.
  - wp_steps. eapply between_end; [exact Hb|]. intros va _ Hc. by apply covers_nil in Hc.
  - destruct (Z.lt_ge_cases us end_) as [Hlt|Hge].
    2:{ unfold munmap_body at 1. rewrite (proj2 (Z.ltb_ge us end_)) by done. wp_steps. eapply between_end; [exact Hb|]. intros va Hva. lia. }
    destruct (Z.lt_ge_cases (rb c) end_) as [Hrb|Hrb].
    + eapply wp_mono; [|exact (between_step s head prv us d c rest fl Hb Hlt Hrb)].
      intros r s' (head' & prv' & us' & d' & fl' & -> & Hb'). cbv beta iota. apply (IH s' head' prv' us' d' fl'); [done|lia].
    + pose proof Hb as [B1 _ _ _ _ _ _ _ _ _]. unfold munmap_body at 1. rewrite (proj2 (Z.ltb_lt us end_)) by done.
      destruct B1 as [_ _ Hl Ho He _ _]. apply linked_regions_app in Hl as [_ [Hc _]]. destruct (in_order_elem _ _ c Ho) as (Hlo & Hp & _ & Hce); [apply elem_of_app; right; left|].
      unfold deref. wp_steps. rewrite Hc.
      eapply wp_intro; [apply region_end_run; unfold reg_end in *; change MMAP_BEGIN with 274794012672 in *; change MMAP_END with 274861121536 in *; page_lia|].
      cbn [begin_]. cbv zeta. rewrite (proj2 (Z.leb_le end_ (rb c))) by done. wp_steps. eapply between_end; [exact Hb|]. intros va Hva Hcv.
      apply in_order_app in Ho as [_ (_ & Ho)]. apply (covers_bounds (rb c - 1)) in Hcv; [lia|]. split; [lia|done].
Qed.
End loop.
Lemma wp_uvm_munmap s head fl l begin0 len : mmap_inv s T head fl l -> 0 <= begin0 -> 0 < len -> begin0 + len + PGMASK < U64 ->
  wp (uvm_munmap root head begin0 len) (fun r s' => munmapped (um_pm s) l (align_down begin0) (align_up_val (begin0 + len)) r s' \/
    munmap_torn s head fl l (align_down begin0) (align_up_val (begin0 + len)) r s') s.
Proof.
  intros [Hao Hro] H0 Hlen Hov. unfold uvm_munmap. rewrite (proj2 (Z.eqb_neq len 0)) by lia. cbv zeta.
  destruct (align_up_val_spec (begin0 + len)) as [He1 He2]. set (end_ := align_up_val (begin0 + len)) in *.
  assert (Hs : align_down begin0 mod PGSIZE = 0 /\ 0 <= align_down begin0 <= begin0).
  { rewrite align_down_eq by page_lia. split; [by rewrite Z.mod_mul|]. unfold PGSIZE in *. Z.to_euclidean_division_equations; lia. }
  destruct Hs as [Hs1 Hs2]. set (start := align_down begin0) in *.
  wp_step. apply wp_checked; [page_lia|]. wp_step. apply wp_align_up; [lia|done|]. fold end_. rewrite (proj2 (Z.leb_gt end_ start)) by lia. wp_step.
  pose proof (regions_length _ _ _ _ Hro) as Hll. pose proof Hro as [_ Hhead Hlink Ho He _ _].
  destruct (skip_loop start s l [] LIST_FUEL (MMAP_BEGIN - 1) Hlink Ho) as (d & rest & Heq & Hd & Hr & Hrun); try done; [unfold LIST_FUEL; lia|].
  cbn [app] in Heq. rewrite Hhead. eapply wp_intro; [exact Hrun|]. cbv beta iota.
  assert (Hcd : forall va, covers d va -> va < start) by (intros va (r & Hin & Hva); rewrite Forall_forall in Hd; specialize (Hd r Hin); cbv beta in Hd; lia).
  destruct rest as [|c rest].
  { cbn [first_node]. wp_step. left. split; [done|]. exists fl, l. split; [split; [done|cbn [snd]; by rewrite <-Hhead]|]. rewrite app_nil_r in Heq. subst d. split.
    - intros va. split; [|by intros [? _]]. intros Hc. split; [done|]. apply Hcd in Hc. lia.
    - eapply area_freed_ext; [|apply area_freed_none]. intros va. cbv beta. split; [|done]. intros [? Hc%Hcd]. lia. }
  cbn [first_node]. destruct (decide (fl = [] /\ rb c < start /\ end_ < reg_end c)) as [(Hfl & Hc1 & Hc2)|Hok].
  - change LIST_FUEL with (S (pred LIST_FUEL)). cbn [loop]. wp_step. rewrite <-!Hhead. rewrite Heq in Hro, Hao.
    eapply wp_mono; [|apply (wp_munmap_no_node s head fl d c rest start end_ Hro Hao); done || lia].
    intros r s' (-> & Hw & Hfr). wp_step. right. split_and!; [done| |done|done|done]. exists c. split; [rewrite Heq; apply elem_of_app; right; left|done].
  - eapply wp_mono; [by left|].
    assert (Hb : between (um_pm s) l start end_ s (first_node l None) (rn <$> last d) start d (c :: rest) fl).
    { split; rewrite <-?Heq; try done.
      - by rewrite <-Hhead.
      - eapply area_freed_ext; [|apply area_freed_none]. intros va. cbv beta. lia.
      - intros va. assert (~ (start <= va < start)) by lia. tauto.
      - lia.
      - destruct (decide (fl = [])); [right|by left]. intros [? ?]. by apply Hok.
      - intros va Hc%Hcd. lia. }
    assert (Hl0 : forall va, covers l va -> MMAP_BEGIN <= va < MMAP_END).
    { intros va Hc. pose proof (covers_bounds _ _ _ Ho Hc). lia. }
    assert (Hlr : (length (c :: rest) < LIST_FUEL)%nat) by (rewrite Heq, length_app in Hll; unfold LIST_FUEL; lia).
    exact (munmap_loop (um_pm s) l start end_ Hao Hl0 He1 (c :: rest) s _ _ _ _ _ LIST_FUEL Hb Hlr).
Qed.
End munmap.

(** ** Properties *)

(** C24: [munmap] of any nonempty range whose end does not overflow. Unless the range
    lies strictly inside one region while the node pool is empty, it leaves
    exactly what the regions covered outside the range ([munmapped]): the pages
    inside are no longer mapped and their frames are given back, each once,
    every other address translates as before, no other page count and no held
    page changes, and the regions, removed, trimmed or split, are again in
    order, apart and equal to what is mapped. In the excepted case
    ([munmap_torn]) the pages go in the same way, but the answer is [NoMem] and
    the region list still claims them. *)
Theorem munmap_correct kb ub root T s head fl l begin0 len :
  MmapRegions.mmap_inv (kb := kb) (ub := ub) (root := root) s T head fl l -> 0 <= begin0 -> 0 < len -> begin0 + len + PGMASK < U64 ->
  wp (uvm_munmap root head begin0 len) (fun r s' =>
    (fl <> [] \/ ~ strictly_inside l (align_down begin0) (align_up_val (begin0 + len)) ->
       munmapped (kb := kb) (ub := ub) (root := root) (T := T) (um_pm s) l (align_down begin0) (align_up_val (begin0 + len)) r s') /\
    (munmapped (kb := kb) (ub := ub) (root := root) (T := T) (um_pm s) l (align_down begin0) (align_up_val (begin0 + len)) r s' \/
     munmap_torn (kb := kb) (ub := ub) (T := T) s head fl l (align_down begin0) (align_up_val (begin0 + len)) r s')) s.
Proof.
  intros Hinv H0 Hlen Hov. eapply wp_mono; [|by apply (wp_uvm_munmap (kb := kb) (ub := ub) (T := T) s head fl l begin0 len)].
  intros r s' [Hm|Ht]; [by split; [|left]|]. split; [|by right]. destruct Ht as (Hfl & Hin & _). by intros [?|?].
Qed.

(** Two pages are mapped and the first is given back. *)
Lemma munmap_correct_witness :
  wp ('(r, h) ← uvm_mmap demo_root None 0 8192 MMAP_BEGIN MMAP_END; uvm_munmap demo_root h MMAP_BEGIN 1) (fun r s' => r.1 = Ok tt /\
    exists T, trans (um_pm s') T MMAP_BEGIN = None /\ trans (um_pm s') T (MMAP_BEGIN + 4096) <> None) demo_umem.
Proof.
  assert (Hfit : fits [] 8192 MMAP_BEGIN).
  { split; [lia|vm_compute; discriminate|reflexivity|]. intros va _ Hc. exact (proj1 (covers_nil va) Hc). }
  assert (Hnode : wp (uvm_mmap demo_root None 0 8192 MMAP_BEGIN MMAP_END) (fun _ s' => whead (um_wh s') <> None) demo_umem) by (vm_compute; discriminate).
  assert (Hmap := wp_uvm_mmap (kb := demo_kb) (ub := demo_ub) demo_umem demo_tree None (0%nat :: seq 1 255) [] 0 8192 demo_mmap_inv
    ltac:(lia) ltac:(reflexivity) ltac:(lia) ltac:(reflexivity) ltac:(intros _; split; vm_compute; discriminate)).
  change (align_up_val 8192) with 8192 in Hmap. change (8192 / PGSIZE) with 2 in Hmap.
  apply wp_bind. eapply wp_mono; [|apply (wp_and _ _ _ _ Hmap Hnode)].
  intros [r h] s' [[(b & [Hf Hmin] & [(a & fr & T' & fl' & l' & _ & _ & Hi & Hc & _)|[Hl _]])|(Hno & _)] Hw]; [|discriminate Hl|].
  2:{ exfalso. apply (Hno MMAP_BEGIN). split; [exact Hfit|]. intros x Hx. exact (fi_low _ _ _ Hx). }
  assert (Hb : b = MMAP_BEGIN) by (pose proof (Hmin _ Hfit); pose proof (fi_low _ _ _ Hf); lia). subst b. cbn [snd] in Hi.
  eapply wp_mono; [|apply (munmap_correct demo_kb demo_ub demo_root T' s' h fl' l' MMAP_BEGIN 1 Hi)].
  - intros r' s2 [Hok _]. destruct Hok as [Hr (fl2 & l2 & Hi2 & Hc2 & _)].
    { left. intros ->. apply Hw. exact (wo_chain _ _ (ro_warehouse _ _ _ _ (mi_regions _ _ _ _ _ Hi))). }
    split; [exact Hr|]. exists T'. change (align_down MMAP_BEGIN) with MMAP_BEGIN in Hc2.
    change (align_up_val (MMAP_BEGIN + 1)) with (MMAP_BEGIN + 4096) in Hc2. pose proof (mi_mapped _ _ _ _ _ Hi2) as Hm. split.
    + destruct (trans (um_pm s2) T' MMAP_BEGIN) eqn:Ht; [|reflexivity]. exfalso.
      assert (Hx : covers l2 MMAP_BEGIN) by (apply Hm; [change MMAP_BEGIN with 274794012672; change MMAP_END with 274861121536; lia|rewrite Ht; discriminate]).
      apply Hc2 in Hx as [_ Hx]. apply Hx. lia.
    + apply Hm; [change MMAP_BEGIN with 274794012672; change MMAP_END with 274861121536; lia|]. apply Hc2. split; [apply Hc; right; page_lia|lia].
  - vm_compute. discriminate.
  - lia.
  - reflexivity.
Defined.
