(* ===== verification/Lru.v ===== *)
(** * The two-list LRU of the buffer cache ([fs/buffer/lru.rs])

    The buffers sit on two doubly-linked lists threaded through an array of
    nodes. The operations are translated as pointer updates; [lru_rep] says
    that the pointers represent two disjoint sequences that together hold every
    buffer, and the lemmas show what each operation does to the sequences. *)
From stdpp Require Import functions.
From S2P Require Import Prelude.

(** ** State *)

Definition BLOCK_SIZE : nat := 4096.
Definition N_BUFFER : nat := 32.

(** A disk block: [BLOCK_SIZE] bytes. *)
Abbreviation block := (list Z).

Record Buffer := mkBuffer {
  data : block;
  block_no : Z;
  dev : Z;
  refcnt : Z;
  valid : bool;
  dirty : bool;
  locked : bool;
}.
Definition Buffer_new : Buffer := mkBuffer (replicate BLOCK_SIZE 0) 0 0 0 false false false.

(** [BufferId]: an index below [N_BUFFER] by construction, so indexing the
    arrays with one never fails; the arrays are functions of it. *)
Definition BufferId : Type := nat.
#[export] Instance BufferId_eq_dec : EqDecision BufferId := Nat.eq_dec.
Definition BufferId_new (idx : nat) : option BufferId :=
  if (idx <? N_BUFFER)%nat then Some idx else None.

Record ListNode := mkNode { prev : option BufferId; next : option BufferId }.
Definition ListNode_new : ListNode := mkNode None None.

Record LRUCache := mkLRU {
  buffers : BufferId -> Buffer;
  nodes : BufferId -> ListNode;
  active_head : option BufferId;
  inactive_head : option BufferId;
}.
Definition LRUCache_new : LRUCache := mkLRU (fun _ => Buffer_new) (fun _ => ListNode_new) None None.

Definition set_buffers f c := mkLRU f (nodes c) (active_head c) (inactive_head c).
Definition set_nodes f c := mkLRU (buffers c) f (active_head c) (inactive_head c).
Definition set_active_head h c := mkLRU (buffers c) (nodes c) h (inactive_head c).
Definition set_inactive_head h c := mkLRU (buffers c) (nodes c) (active_head c) h.

Definition set_prev (p : option BufferId) (n : ListNode) : ListNode := mkNode p (next n).
Definition set_next (p : option BufferId) (n : ListNode) : ListNode := mkNode (prev n) p.

(** [self.nodes[id].prev = p] and the like *)
Definition upd_node (id : BufferId) (f : ListNode -> ListNode) (c : LRUCache) : LRUCache :=
  set_nodes (<[id := f (nodes c id)]> (nodes c)) c.
(** [*self.get_buffer_mut(id) = f(...)] *)
Definition upd_buffer (id : BufferId) (f : Buffer -> Buffer) (c : LRUCache) : LRUCache :=
  set_buffers (<[id := f (buffers c id)]> (buffers c)) c.

Definition with_data d b := mkBuffer d (block_no b) (dev b) (refcnt b) (valid b) (dirty b) (locked b).
Definition with_key dv bn b := mkBuffer (data b) bn dv (refcnt b) (valid b) (dirty b) (locked b).
Definition with_refcnt r b := mkBuffer (data b) (block_no b) (dev b) r (valid b) (dirty b) (locked b).
Definition with_valid v b := mkBuffer (data b) (block_no b) (dev b) (refcnt b) v (dirty b) (locked b).
Definition with_dirty v b := mkBuffer (data b) (block_no b) (dev b) (refcnt b) (valid b) v (locked b).
Definition with_locked v b := mkBuffer (data b) (block_no b) (dev b) (refcnt b) (valid b) (dirty b) v.

(** ** Operations *)

Definition get_buffer (id : BufferId) : M LRUCache Buffer := gets (fun c => buffers c id).

Definition remove_node (id : BufferId) : M LRUCache unit :=
  pr ← gets (fun c => prev (nodes c id));
  nx ← gets (fun c => next (nodes c id));
  match pr with
  | Some prev_id => modify (upd_node prev_id (set_next nx))
  | None =>
      ah ← gets active_head;
      ih ← gets inactive_head;
      if decide (ah = Some id) then modify (set_active_head nx)
      else if decide (ih = Some id) then modify (set_inactive_head nx)
      else mret tt
  end;;
  match nx with
  | Some next_id => modify (upd_node next_id (set_prev pr))
  | None => mret tt
  end;;
  modify (upd_node id (set_prev None));;
  modify (upd_node id (set_next None)).

Definition insert_active_head (id : BufferId) : M LRUCache unit :=
  remove_node id;;
  old_head ← gets active_head;
  modify (upd_node id (set_prev None));;
  modify (upd_node id (set_next old_head));;
  match old_head with
  | Some h => modify (upd_node h (set_prev (Some id)))
  | None => mret tt
  end;;
  modify (set_active_head (Some id)).

Definition insert_inactive_head (id : BufferId) : M LRUCache unit :=
  remove_node id;;
  old_head ← gets inactive_head;
  modify (upd_node id (set_prev None));;
  modify (upd_node id (set_next old_head));;
  match old_head with
  | Some h => modify (upd_node h (set_prev (Some id)))
  | None => mret tt
  end;;
  modify (set_inactive_head (Some id)).

(** The list walks visit each node once; [N_BUFFER] rounds are enough. *)
Definition get_lru : M LRUCache (option BufferId) :=
  h ← gets inactive_head;
  match h with
  | None => mret None
  | Some current =>
      loop N_BUFFER (fun current =>
        nx ← gets (fun c => next (nodes c current));
        match nx with
        | None => mret (inr (Some current))
        | Some n => mret (inl n)
        end) current
  end.

Definition find_body (dv blockno : Z) (current : BufferId) : M LRUCache (BufferId + option BufferId) :=
  buf ← get_buffer current;
  if (dev buf =? dv) && (block_no buf =? blockno) then mret (inr (Some current))
  else
    nx ← gets (fun c => next (nodes c current));
    match nx with
    | None => mret (inr None)
    | Some n => mret (inl n)
    end.

Definition find_active (dv blockno : Z) : M LRUCache (option BufferId) :=
  h ← gets active_head;
  match h with
  | None => mret None
  | Some current => loop N_BUFFER (find_body dv blockno) current
  end.

Definition find_inactive (dv blockno : Z) : M LRUCache (option BufferId) :=
  h ← gets inactive_head;
  match h with
  | None => mret None
  | Some current => loop N_BUFFER (find_body dv blockno) current
  end.

Definition promote_to_active (id : BufferId) : M LRUCache unit :=
  buf ← get_buffer id;
  r ← uadd32 (refcnt buf) 1;
  modify (upd_buffer id (with_refcnt r));;
  insert_active_head id.

Definition demote_to_inactive (id : BufferId) : M LRUCache unit := insert_inactive_head id.

Definition recycle_lru (dv blockno : Z) : M LRUCache BufferId :=
  o ← get_lru;
  lru ← expect o "No buffers available";
  buf ← get_buffer lru;
  (if refcnt buf =? 0 then mret tt else panic "LRU buffer should have refcnt=0");;
  modify (upd_buffer lru (fun b =>
    with_locked true (with_refcnt 1 (with_valid false (with_key dv blockno b)))));;
  insert_active_head lru;;
  mret lru.

Definition lru_init : M LRUCache unit :=
  modify (set_nodes (fun _ => ListNode_new));;
  for_each (B := Empty_set) (seq 0 N_BUFFER) (fun _ i =>
    modify (upd_node i (fun _ => mkNode
      (if (0 <? i)%nat then BufferId_new (i - 1) else None)
      (if (i <? N_BUFFER - 1)%nat then BufferId_new (i + 1) else None)));;
    mret (inl tt)) tt;;
  modify (set_inactive_head (BufferId_new 0));;
  modify (set_active_head None).

(** [ActiveIter::next] and [InactiveIter::next] *)
Definition iter_next (c : LRUCache) (current : option BufferId) : option (BufferId * option BufferId) :=
  id ← current; Some (id, next (nodes c id)).

(** ** Representation *)

(** [l] is linked from [h] (whose [prev] is [p]) up to the successor [n]. *)
Fixpoint dlseg (nd : BufferId -> ListNode) (p h : option BufferId) (l : list BufferId)
  (n : option BufferId) : Prop :=
  match l with
  | [] => h = n
  | i :: l' => h = Some i /\ prev (nd i) = p /\ dlseg nd (Some i) (next (nd i)) l' n
  end.

Record lru_rep (c : LRUCache) (A I : list BufferId) : Prop := {
  lr_active : dlseg (nodes c) None (active_head c) A None;
  lr_inactive : dlseg (nodes c) None (inactive_head c) I None;
  lr_all : A ++ I ≡ₚ seq 0 N_BUFFER;
}.

(** A sequence without one of its members. *)
Definition without (id : BufferId) (l : list BufferId) : list BufferId := filter (fun j => j <> id) l.

(** The first buffer of a sequence caching a block. *)
Definition key_of (b : Buffer) : Z * Z := (dev b, block_no b).
Fixpoint first_key (bufs : BufferId -> Buffer) (k : Z * Z) (l : list BufferId) : option BufferId :=
  match l with
  | [] => None
  | i :: l' => if decide (key_of (bufs i) = k) then Some i else first_key bufs k l'
  end.

(** ** Segments *)

Section segments.
Implicit Types (nd : BufferId -> ListNode) (p h n : option BufferId) (l : list BufferId).

Lemma dlseg_ext nd nd' p h l n : (forall i, i ∈ l -> nd' i = nd i) ->
  dlseg nd p h l n -> dlseg nd' p h l n.
Proof.
  revert p h. induction l as [|i l IH]; intros p h Hext; simpl; [done|].
  intros (-> & Hp & Hs). rewrite (Hext i) by set_solver. split_and!; [done|done|].
  apply IH; [set_solver|done].
Qed.

Lemma dlseg_upd nd p h l n i x : i ∉ l -> dlseg nd p h l n -> dlseg (<[i := x]> nd) p h l n.
Proof.
  intros Hi. apply dlseg_ext. intros j Hj. apply fn_lookup_insert_ne. by intros ->.
Qed.

Lemma dlseg_app nd p h l1 l2 n :
  dlseg nd p h (l1 ++ l2) n <->
  exists m, dlseg nd p h l1 m /\ dlseg nd (if last l1 is Some x then Some x else p) m l2 n.
Proof.
  revert p h. induction l1 as [|i l1 IH]; intros p h; simpl.
  - split; [by eauto|]. by intros (? & -> & ?).
  - setoid_rewrite IH. assert (Hl : (if last (i :: l1) is Some x then Some x else p) =
      (if last l1 is Some x then Some x else Some i)).
    { destruct l1; [done|]. rewrite last_cons_cons. by destruct (last (_ :: l1)) eqn:E;
        [|apply last_None in E]. }
    rewrite Hl. naive_solver.
Qed.

Lemma dlseg_nodup_head nd p i l n :
  dlseg nd p (Some i) l n -> l <> [] -> exists l', l = i :: l'.
Proof. destruct l as [|j l]; [done|]. intros (Heq & _) _. injection Heq as ->. by eexists. Qed.

(** Redirect the last [next] of a segment. *)
Lemma dlseg_set_last nd p h l i m n :
  i ∉ l -> dlseg nd p h (l ++ [i]) m ->
  dlseg (<[i := set_next n (nd i)]> nd) p h (l ++ [i]) n.
Proof.
  rewrite !dlseg_app. intros Hi (k & Hs & -> & Hp & Hm). exists (Some i). split.
  - by apply dlseg_upd.
  - simpl. by rewrite fn_lookup_insert.
Qed.

(** Redirect the first [prev] of a segment. *)
Lemma dlseg_set_first nd p p' i l n :
  i ∉ l -> dlseg nd p (Some i) (i :: l) n ->
  dlseg (<[i := set_prev p' (nd i)]> nd) p' (Some i) (i :: l) n.
Proof.
  intros Hi (_ & Hp & Hs). simpl. rewrite fn_lookup_insert. split_and!; [done|done|].
  by apply dlseg_upd.
Qed.

(** The pointer updates of [remove_node], on the nodes alone. *)
Definition unlink_nodes nd (i : BufferId) : BufferId -> ListNode :=
  let pr := prev (nd i) in let nx := next (nd i) in
  let nd1 := if pr is Some p then <[p := set_next nx (nd p)]> nd else nd in
  if nx is Some q then <[q := set_prev pr (nd1 q)]> nd1 else nd1.

Lemma dlseg_links nd h l1 i l2 n : dlseg nd None h (l1 ++ i :: l2) n ->
  prev (nd i) = last l1 /\ (l2 <> [] -> next (nd i) = head l2) /\ (l2 = [] -> next (nd i) = n) /\
  h = head (l1 ++ [i]).
Proof.
  rewrite dlseg_app. intros (m & H1 & -> & Hp & Hs). split_and!.
  - rewrite Hp. by destruct (last l1).
  - destruct l2; [done|]. by destruct Hs as (-> & _).
  - intros ->. done.
  - destruct l1 as [|j l1]; simpl; [done|]. by destruct H1 as (-> & _).
Qed.

Lemma dlseg_unlink nd h l1 i l2 : NoDup (l1 ++ i :: l2) -> dlseg nd None h (l1 ++ i :: l2) None ->
  dlseg (unlink_nodes nd i) None (if prev (nd i) is Some _ then h else next (nd i)) (l1 ++ l2) None.
Proof.
  intros Hnd Hs. destruct (dlseg_links _ _ _ _ _ _ Hs) as (Hp & Hn & Hn' & Hh).
  rewrite dlseg_app in Hs. destruct Hs as (m & H1 & -> & _ & H2).
  apply NoDup_app in Hnd as (Hnd1 & Hdis & Hnd2). apply NoDup_cons in Hnd2 as [Hi Hnd2].
  unfold unlink_nodes. rewrite Hp.
  (* the front part, ending in [next (nd i)] *)
  assert (Hfront : dlseg (if last l1 is Some p then <[p := set_next (next (nd i)) (nd p)]> nd else nd)
    None (if last l1 is Some _ then h else next (nd i)) l1 (next (nd i))).
  { destruct l1 as [|p l1' _] using rev_ind; [done|]. rewrite last_snoc.
    eapply dlseg_set_last; [|done]. apply NoDup_app in Hnd1. set_solver. }
  set (nd1 := if last l1 is Some p then _ else nd) in *.
  assert (Hback : dlseg nd1 (Some i) (next (nd i)) l2 None).
  { subst nd1. destruct (last l1) as [p|] eqn:E; [|done]. apply dlseg_upd; [|done].
    apply last_Some in E as [l' ->]. set_solver. }
  clearbody nd1. apply dlseg_app. exists (next (nd i)).
  destruct l2 as [|q l2]; [by rewrite (Hn' eq_refl) in *|].
  rewrite (Hn ltac:(done)) in *. simpl in *. split.
  - apply dlseg_upd; [set_solver|done].
  - apply NoDup_cons in Hnd2 as [Hq _].
    replace (if last l1 is Some x then Some x else None) with (last l1) by by destruct (last l1).
    by eapply (dlseg_set_first nd1 (Some i)).
Qed.

Lemma unlink_frame nd h l1 i l2 j :
  dlseg nd None h (l1 ++ i :: l2) None -> j ∉ l1 ++ i :: l2 -> unlink_nodes nd i j = nd j.
Proof.
  intros Hs Hj. destruct (dlseg_links _ _ _ _ _ _ Hs) as (Hp & Hn & Hn' & _).
  assert (Hnq : forall q, next (nd i) = Some q -> q ∈ l2).
  { destruct l2 as [|q l2]; [rewrite Hn' by done; done|]. rewrite Hn by done. simpl. set_solver. }
  assert (Hpp : forall p : BufferId, prev (nd i) = Some p -> p ∈ l1).
  { rewrite Hp. intros p [l' ->]%last_Some. set_solver. }
  unfold unlink_nodes. destruct (prev (nd i)) as [p|] eqn:Ep, (next (nd i)) as [q|] eqn:Eq.
  all: repeat rewrite fn_lookup_insert_ne; try done.
  all: intros ->; set_solver.
Qed.
End segments.

(** ** The sequences under the operations *)

Lemma elem_of_without id j l : j ∈ without id l <-> j <> id /\ j ∈ l.
Proof. unfold without. rewrite list_elem_of_filter. done. Qed.

Lemma without_notin id l : id ∉ l -> without id l = l.
Proof.
  unfold without. induction l as [|j l IH]; intros H; [done|]. rewrite filter_cons, decide_True by set_solver.
  f_equal. apply IH. set_solver.
Qed.

Lemma without_app id l1 l2 : without id (l1 ++ l2) = without id l1 ++ without id l2.
Proof. apply filter_app. Qed.

Lemma without_middle id l1 l2 : NoDup (l1 ++ id :: l2) -> without id (l1 ++ id :: l2) = l1 ++ l2.
Proof.
  intros (_ & Hdis & [Hi _]%NoDup_cons)%NoDup_app. rewrite without_app. unfold without at 2.
  rewrite filter_cons, decide_False by (intros H; by apply H). fold (without id l2).
  rewrite !without_notin; [done|done|set_solver].
Qed.

(** The heads after [remove_node]. *)
Definition unlink_head (c : LRUCache) (id : BufferId) (h : option BufferId) : option BufferId :=
  if prev (nodes c id) is Some _ then h
  else if decide (h = Some id) then next (nodes c id) else h.

Lemma wp_remove_node_raw id c :
  (active_head c = Some id -> inactive_head c <> Some id) ->
  wp (remove_node id) (fun _ c' =>
    buffers c' = buffers c /\
    (forall j, j <> id -> nodes c' j = unlink_nodes (nodes c) id j) /\
    active_head c' = unlink_head c id (active_head c) /\
    inactive_head c' = unlink_head c id (inactive_head c)) c.
Proof.
  intros Hheads. unfold remove_node, unlink_head, unlink_nodes. do 2 (wp_step; wp_step).
  assert (Hclear : forall c1 j, j <> id ->
    nodes (upd_node id (set_next None) (upd_node id (set_prev None) c1)) j = nodes c1 j).
  { intros c1 j Hj. simpl. by rewrite !fn_lookup_insert_ne by done. }
  destruct (prev (nodes c id)) as [p|]; destruct (next (nodes c id)) as [q|]; wp_steps;
    repeat case_decide; wp_steps;
    (split_and!; [done|intros j Hj; by rewrite Hclear|done || naive_solver|done || naive_solver]).
Qed.

Record lru_lists (c : LRUCache) (A I : list BufferId) : Prop := {
  ll_active : dlseg (nodes c) None (active_head c) A None;
  ll_inactive : dlseg (nodes c) None (inactive_head c) I None;
}.

Lemma dlseg_head nd p h l : dlseg nd p h l None -> h = head l.
Proof. destruct l; simpl; [done|]. by intros (-> & _). Qed.

Lemma unlink_head_in c id h l1 l2 :
  dlseg (nodes c) None h (l1 ++ id :: l2) None -> NoDup (l1 ++ id :: l2) ->
  unlink_head c id h = if prev (nodes c id) is Some _ then h else next (nodes c id).
Proof.
  intros Hs Hnd. unfold unlink_head. destruct (dlseg_links _ _ _ _ _ _ Hs) as (Hp & _ & _ & Hh).
  destruct (prev (nodes c id)); [done|]. symmetry in Hp. apply last_None in Hp. subst l1 h.
  by rewrite decide_True.
Qed.

Lemma unlink_head_out c id h l : dlseg (nodes c) None h l None -> id ∉ l -> unlink_head c id h = h.
Proof.
  intros Hs Hid. unfold unlink_head. destruct (prev (nodes c id)); [done|].
  rewrite decide_False; [done|]. intros ->. apply Hid. destruct l as [|j l]; [done|].
  destruct Hs as (Heq & _). injection Heq as ->. set_solver.
Qed.

Lemma dlseg_removed c c' id h h' l l' :
  (forall j, j <> id -> nodes c' j = unlink_nodes (nodes c) id j) ->
  dlseg (nodes c) None h l None -> dlseg (nodes c) None h' l' None -> NoDup l ->
  id ∈ l ++ l' -> (forall j, j ∈ l -> j ∉ l') ->
  dlseg (nodes c') None (unlink_head c id h) (without id l) None.
Proof.
  intros Hnd Hs Hs' Hdup [Hid|Hid]%elem_of_app Hdis.
  - apply list_elem_of_split in Hid as (l1 & l2 & ->).
    rewrite without_middle, (unlink_head_in c id h l1 l2) by done.
    eapply dlseg_ext; [|by apply dlseg_unlink]. intros j Hj. apply Hnd.
    apply NoDup_app in Hdup as (_ & ? & [? _]%NoDup_cons). set_solver.
  - assert (Hl : id ∉ l) by (intros ?; by eapply Hdis).
    rewrite without_notin, (unlink_head_out c id h l) by done.
    eapply dlseg_ext; [|done]. intros j Hj. rewrite Hnd by (by intros ->).
    apply list_elem_of_split in Hid as (l1 & l2 & ->).
    eapply unlink_frame; [done|]. by apply Hdis.
Qed.

Lemma wp_remove_node c A I id :
  lru_lists c A I -> NoDup (A ++ I) -> id ∈ A ++ I ->
  wp (remove_node id) (fun _ c' =>
    lru_lists c' (without id A) (without id I) /\ buffers c' = buffers c) c.
Proof.
  intros [HA HI] Hnd Hid. apply NoDup_app in Hnd as (HndA & Hdis & HndI).
  eapply wp_mono; [|apply wp_remove_node_raw].
  - intros _ c' (Hb & Hn & Ha & Hi). split; [|done]. split.
    + rewrite Ha. eapply dlseg_removed; [done|exact HA|exact HI|done|done|done].
    + rewrite Hi. eapply dlseg_removed; [done|exact HI|exact HA|done| |set_solver].
      rewrite elem_of_app in *. tauto.
  - rewrite (dlseg_head _ _ _ _ HA), (dlseg_head _ _ _ _ HI).
    intros [lA ->]%head_Some Heq. apply head_Some in Heq as [lI ->]. set_solver.
Qed.

(** The pointer updates that put [id] in front of the list at [h]. *)
Definition push_nodes (nd : BufferId -> ListNode) (id : BufferId) (h : option BufferId) : BufferId -> ListNode :=
  let nd1 := <[id := mkNode None h]> nd in
  if h is Some j then <[j := set_prev (Some id) (nd1 j)]> nd1 else nd1.

Lemma dlseg_push nd id h l : id ∉ l -> NoDup l -> dlseg nd None h l None ->
  dlseg (push_nodes nd id h) None (Some id) (id :: l) None.
Proof.
  intros Hid Hnd Hs. unfold push_nodes. destruct l as [|j l].
  - simpl in Hs. subst h. simpl. by rewrite fn_lookup_insert.
  - pose proof Hs as (-> & _ & _). apply NoDup_cons in Hnd as [Hj Hnd].
    split; [done|]. rewrite fn_lookup_insert_ne, fn_lookup_insert by set_solver. split; [done|].
    eapply dlseg_set_first; [done|]. apply dlseg_upd; [done|exact Hs].
Qed.

Lemma push_frame nd id h l j : dlseg nd None h l None -> j <> id -> j ∉ l -> push_nodes nd id h j = nd j.
Proof.
  intros Hs Hj Hl. unfold push_nodes. destruct l as [|k l]; simpl in Hs; [subst h|destruct Hs as (-> & _)].
  - by rewrite fn_lookup_insert_ne.
  - rewrite !fn_lookup_insert_ne by set_solver. done.
Qed.

(** The linking half of both [insert_*_head]. *)
Lemma wp_push id h c (set_head : LRUCache -> LRUCache) Q :
  (forall c', (forall j, nodes c' j = push_nodes (nodes c) id h j) -> buffers c' = buffers c ->
     active_head c' = active_head c -> inactive_head c' = inactive_head c -> Q tt (set_head c')) ->
  wp (modify (upd_node id (set_prev None));;
      modify (upd_node id (set_next h));;
      match h with
      | Some j => modify (upd_node j (set_prev (Some id)))
      | None => mret tt
      end;;
      modify set_head) Q c.
Proof.
  intros HQ. unfold push_nodes in HQ. destruct h as [k|]; wp_steps; apply HQ; try done.
  - intros j. simpl. rewrite !fn_lookup_insert.
    assert (Hov : forall x y i, <[id := x]> (<[id := y]> (nodes c)) i = <[id := x]> (nodes c) i).
    { intros x y i. destruct (decide (i = id)) as [->|]; [by rewrite !fn_lookup_insert|].
      by rewrite !fn_lookup_insert_ne. }
    destruct (decide (j = k)) as [->|]; [|rewrite !(fn_lookup_insert_ne _ k) by done; apply Hov].
    rewrite !fn_lookup_insert. f_equal. apply Hov.
  - intros j. simpl. rewrite !fn_lookup_insert.
    destruct (decide (j = id)) as [->|]; [by rewrite !fn_lookup_insert|].
    by rewrite !fn_lookup_insert_ne.
Qed.

Lemma rep_nodup c A I : lru_rep c A I -> NoDup (A ++ I) /\ (forall i, i ∈ A ++ I <-> (i < N_BUFFER)%nat).
Proof.
  intros [_ _ Hall]. split; [rewrite Hall; apply NoDup_seq|].
  intros i. rewrite Hall, elem_of_seq. lia.
Qed.

Lemma without_cons_perm id l : NoDup l -> id ∈ l -> id :: without id l ≡ₚ l.
Proof.
  intros Hnd (l1 & l2 & ->)%list_elem_of_split. rewrite without_middle by done.
  by rewrite Permutation_middle.
Qed.

Lemma wp_insert_active_head c A I id : lru_rep c A I -> (id < N_BUFFER)%nat ->
  wp (insert_active_head id) (fun _ c' =>
    lru_rep c' (id :: without id A) (without id I) /\ buffers c' = buffers c) c.
Proof.
  intros Hrep Hid. destruct (rep_nodup _ _ _ Hrep) as [Hnd Hall]. pose proof Hrep as [HA HI Hperm].
  unfold insert_active_head. wp_step.
  eapply wp_mono; [|apply (wp_remove_node c A I id); [by split|done|by apply Hall]].
  intros _ c1 [[HA1 HI1] Hb1]. wp_step. wp_step. apply wp_push. intros c2 Hn2 Hb2 Ha2 Hi2.
  assert (Hdis : forall j, j ∈ without id A -> j ∉ without id I).
  { intros j. rewrite !elem_of_without. apply NoDup_app in Hnd as (_ & Hd & _). naive_solver. }
  assert (HndA : NoDup (without id A)) by (apply NoDup_filter; by apply NoDup_app in Hnd as (? & _)).
  split; [|simpl; congruence].
  split; cbn [nodes active_head inactive_head set_active_head set_inactive_head].
  - eapply dlseg_ext; [intros; apply Hn2|]. apply dlseg_push; [rewrite elem_of_without; tauto|done|done].
  - rewrite Hi2. eapply dlseg_ext; [|exact HI1]. intros j Hj. rewrite Hn2.
    apply elem_of_without in Hj as Hj'. eapply push_frame; [done|tauto|].
    intros Hj2. by apply (Hdis j).
  - rewrite <-app_comm_cons, <-without_app, <-Hperm. apply without_cons_perm; [done|by apply Hall].
Qed.

Lemma wp_insert_inactive_head c A I id : lru_rep c A I -> (id < N_BUFFER)%nat ->
  wp (insert_inactive_head id) (fun _ c' =>
    lru_rep c' (without id A) (id :: without id I) /\ buffers c' = buffers c) c.
Proof.
  intros Hrep Hid. destruct (rep_nodup _ _ _ Hrep) as [Hnd Hall]. pose proof Hrep as [HA HI Hperm].
  unfold insert_inactive_head. wp_step.
  eapply wp_mono; [|apply (wp_remove_node c A I id); [by split|done|by apply Hall]].
  intros _ c1 [[HA1 HI1] Hb1]. wp_step. wp_step. apply wp_push. intros c2 Hn2 Hb2 Ha2 Hi2.
  assert (Hdis : forall j, j ∈ without id A -> j ∉ without id I).
  { intros j. rewrite !elem_of_without. apply NoDup_app in Hnd as (_ & Hd & _). naive_solver. }
  assert (HndI : NoDup (without id I)) by (apply NoDup_filter; by apply NoDup_app in Hnd as (_ & _ & ?)).
  split; [|simpl; congruence].
  split; cbn [nodes active_head inactive_head set_active_head set_inactive_head].
  - rewrite Ha2. eapply dlseg_ext; [|exact HA1]. intros j Hj. rewrite Hn2.
    apply elem_of_without in Hj as Hj'. eapply push_frame; [done|tauto|by apply Hdis].
  - eapply dlseg_ext; [intros; apply Hn2|]. apply dlseg_push; [rewrite elem_of_without; tauto|done|done].
  - rewrite <-Permutation_middle, <-without_app, <-Hperm. apply without_cons_perm; [done|by apply Hall].
Qed.

(** ** Searches *)

Lemma find_body_run dv bn c i :
  find_body dv bn i c = Ret (if decide (key_of (buffers c i) = (dv, bn)) then inr (Some i)
    else match next (nodes c i) with None => inr None | Some n => inl n end) c.
Proof.
  unfold find_body, get_buffer, key_of. erewrite bind_run by done.
  destruct (Z.eqb_spec (dev (buffers c i)) dv), (Z.eqb_spec (block_no (buffers c i)) bn); simpl;
    case_decide; simplify_eq; try done; erewrite bind_run by done; by destruct (next (nodes c i)).
Qed.

Lemma find_loop_run dv bn c l p fuel i :
  dlseg (nodes c) p (Some i) (i :: l) None -> (length l < fuel)%nat ->
  loop fuel (find_body dv bn) i c = Ret (first_key (buffers c) (dv, bn) (i :: l)) c.
Proof.
  revert p fuel i. induction l as [|j l IH]; intros p [|fuel] i Hs Hf; simpl in Hf; try lia.
  all: destruct Hs as (_ & _ & Hs); cbn [loop first_key].
  all: rewrite (bind_run _ _ _ _ _ (find_body_run dv bn c i)); case_decide; [done|].
  - by rewrite Hs.
  - pose proof Hs as (Heq & _ & _). rewrite Heq in Hs |- *. eapply (IH (Some i)); [exact Hs|lia].
Qed.

Lemma find_run dv bn c l h : dlseg (nodes c) None h l None -> (length l <= N_BUFFER)%nat ->
  match h with
  | None => mret None
  | Some current => loop N_BUFFER (find_body dv bn) current
  end c = Ret (first_key (buffers c) (dv, bn) l) c.
Proof.
  intros Hs Hl. destruct l as [|i l]; [by rewrite Hs|]. pose proof Hs as (Heq & _ & _). subst h.
  by eapply find_loop_run.
Qed.

Lemma rep_length c A I : lru_rep c A I -> (length A <= N_BUFFER)%nat /\ (length I <= N_BUFFER)%nat.
Proof. intros [_ _ H%Permutation_length]. rewrite length_app, length_seq in H. lia. Qed.

Lemma find_active_run dv bn c A I : lru_rep c A I ->
  find_active dv bn c = Ret (first_key (buffers c) (dv, bn) A) c.
Proof.
  intros Hrep. unfold find_active. erewrite bind_run by done.
  apply find_run; [apply Hrep|apply (rep_length _ _ _ Hrep)].
Qed.

Lemma find_inactive_run dv bn c A I : lru_rep c A I ->
  find_inactive dv bn c = Ret (first_key (buffers c) (dv, bn) I) c.
Proof.
  intros Hrep. unfold find_inactive. erewrite bind_run by done.
  apply find_run; [apply Hrep|apply (rep_length _ _ _ Hrep)].
Qed.

Definition lru_body (current : BufferId) : M LRUCache (BufferId + option BufferId) :=
  nx ← gets (fun c => next (nodes c current));
  match nx with
  | None => mret (inr (Some current))
  | Some n => mret (inl n)
  end.

Lemma lru_body_run c i :
  lru_body i c = Ret (match next (nodes c i) with None => inr (Some i) | Some n => inl n end) c.
Proof. unfold lru_body. erewrite bind_run by done. by destruct (next (nodes c i)). Qed.

Lemma get_lru_run c A I : lru_rep c A I -> get_lru c = Ret (last I) c.
Proof.
  intros Hrep. pose proof (rep_length _ _ _ Hrep) as [_ Hlen]. destruct Hrep as [_ Hs _].
  unfold get_lru. erewrite bind_run by done. fold lru_body.
  assert (Hloop : forall l p fuel i, dlseg (nodes c) p (Some i) (i :: l) None -> (length l < fuel)%nat ->
    loop fuel lru_body i c = Ret (last (i :: l)) c).
  { induction l as [|j l IH]; intros p [|fuel] i (_ & _ & Hd) Hf; simpl in Hf; try lia; cbn [loop].
    all: rewrite (bind_run _ _ _ _ _ (lru_body_run c i)).
    - by rewrite Hd.
    - pose proof Hd as (Heq & _ & _). rewrite Heq in Hd |- *. simpl.
      rewrite (IH (Some i)) by (done || lia). done. }
  destruct I as [|i I]; [by rewrite Hs|]. pose proof Hs as (Heq & _ & _). rewrite Heq in Hs |- *.
  by eapply Hloop.
Qed.

(** [init] puts every buffer on the inactive list, in order. *)
Definition init_node (i : nat) : ListNode := mkNode
  (if (0 <? i)%nat then BufferId_new (i - 1) else None)
  (if (i <? N_BUFFER - 1)%nat then BufferId_new (i + 1) else None).

Lemma init_seg nd k n : (forall i, (i < N_BUFFER)%nat -> nd i = init_node i) -> (k + n = N_BUFFER)%nat ->
  dlseg nd (if (0 <? k)%nat then BufferId_new (k - 1) else None)
    (if (k <? N_BUFFER)%nat then Some k else None) (seq k n) None.
Proof.
  intros Hnd. revert k. induction n as [|n IH]; intros k Hk; simpl.
  - rewrite (proj2 (Nat.ltb_ge k N_BUFFER)) by lia. done.
  - rewrite (proj2 (Nat.ltb_lt k N_BUFFER)) by lia. rewrite Hnd by lia. split_and!; [done|done|].
    specialize (IH (S k) ltac:(lia)). unfold init_node at 1. cbn [next].
    replace (S k - 1)%nat with k in IH by lia.
    assert (Hb : BufferId_new k = Some k)
      by (unfold BufferId_new; by rewrite (proj2 (Nat.ltb_lt k N_BUFFER)) by lia).
    rewrite (proj2 (Nat.ltb_lt 0 (S k))), Hb in IH by lia.
    destruct (Nat.ltb_spec k (N_BUFFER - 1)).
    + unfold BufferId_new. replace (k + 1)%nat with (S k) by lia. exact IH.
    + by rewrite (proj2 (Nat.ltb_ge (S k) N_BUFFER)) in IH by lia.
Qed.

Lemma wp_lru_init c : wp lru_init (fun _ c' => lru_rep c' [] (seq 0 N_BUFFER) /\ buffers c' = buffers c) c.
Proof.
  unfold lru_init. wp_step. wp_step. wp_step.
  apply (wp_for_each (fun dn _ c' => buffers c' = buffers c /\ forall i, i ∈ dn -> nodes c' i = init_node i)).
  - split; [done|set_solver].
  - intros dn x rest [] c' Hseq [Hb Hn]. wp_steps. split; [done|]. intros i.
    rewrite elem_of_app, list_elem_of_singleton. intros Hi. simpl.
    destruct (decide (i = x)) as [->|Hne]; [by rewrite fn_lookup_insert|].
    rewrite fn_lookup_insert_ne by done. apply Hn. naive_solver.
  - intros [] c' [Hb Hn]. wp_steps. split; [|done].
    split; cbn [nodes active_head inactive_head set_active_head set_inactive_head]; [done| |done].
    apply (init_seg (nodes c') 0 N_BUFFER); [|done]. intros i Hi. apply Hn, elem_of_seq. lia.
Qed.

(** ** Moves between the lists *)

Lemma rep_set_buffers c A I f : lru_rep c A I -> lru_rep (set_buffers f c) A I.
Proof. by intros [? ? ?]; split. Qed.

Lemma wp_promote_to_active c A I id :
  lru_rep c A I -> (id < N_BUFFER)%nat -> 0 <= refcnt (buffers c id) < U32 - 1 ->
  wp (promote_to_active id) (fun _ c' => lru_rep c' (id :: without id A) (without id I) /\
    buffers c' = <[id := with_refcnt (refcnt (buffers c id) + 1) (buffers c id)]> (buffers c)) c.
Proof.
  intros Hrep Hid Hr. unfold promote_to_active, get_buffer. wp_steps.
  eapply wp_mono; [|by apply (wp_insert_active_head _ A I); [apply rep_set_buffers|]].
  intros _ c' [Hrep' Hb]. by rewrite Hb.
Qed.

Definition recycled (dv bn : Z) (b : Buffer) : Buffer :=
  with_locked true (with_refcnt 1 (with_valid false (with_key dv bn b))).

Lemma wp_recycle_lru c A I dv bn id :
  lru_rep c A I -> last I = Some id -> refcnt (buffers c id) = 0 ->
  wp (recycle_lru dv bn) (fun r c' => r = id /\ lru_rep c' (id :: without id A) (without id I) /\
    buffers c' = <[id := recycled dv bn (buffers c id)]> (buffers c)) c.
Proof.
  intros Hrep Hlast Hr. unfold recycle_lru, get_buffer. wp_step.
  eapply wp_intro; [by eapply get_lru_run|]. rewrite Hlast. wp_step. eapply wp_expect; [done|].
  wp_step. wp_step. rewrite Hr. cbn [Z.eqb]. wp_steps.
  assert (Hid : (id < N_BUFFER)%nat).
  { apply (rep_nodup _ _ _ Hrep). apply last_Some in Hlast as [l ->]. set_solver. }
  eapply wp_mono; [|by apply (wp_insert_active_head _ A I); [apply rep_set_buffers|]].
  intros _ c' [Hrep' Hb]. wp_steps. by rewrite Hb.
Qed.

Lemma recycle_lru_none c A dv bn : lru_rep c A [] -> recycle_lru dv bn c = Panic "No buffers available".
Proof.
  intros Hrep. unfold recycle_lru. rewrite (bind_run _ _ _ _ _ (get_lru_run _ _ _ Hrep)). done.
Qed.

(** ** Properties *)

(** C25: the pointer operations of the LRU implement operations on two
    sequences: the searches return the first buffer of their list with the
    key, a promotion or recycling moves one buffer to the front of the active
    list (recycling takes the last inactive one, and panics when there is
    none), a demotion moves one to the front of the inactive list, and after
    each the two lists are again well linked and hold every buffer once. *)
Theorem lru_refines_lists c A I :
  lru_rep c A I ->
  (forall dv bn, find_active dv bn c = Ret (first_key (buffers c) (dv, bn) A) c /\
     find_inactive dv bn c = Ret (first_key (buffers c) (dv, bn) I) c) /\
  (forall id, (id < N_BUFFER)%nat -> 0 <= refcnt (buffers c id) < U32 - 1 ->
     wp (promote_to_active id) (fun _ c' => lru_rep c' (id :: without id A) (without id I) /\
       buffers c' = <[id := with_refcnt (refcnt (buffers c id) + 1) (buffers c id)]> (buffers c)) c) /\
  (forall id, (id < N_BUFFER)%nat ->
     wp (demote_to_inactive id) (fun _ c' => lru_rep c' (without id A) (id :: without id I) /\
       buffers c' = buffers c) c) /\
  (forall dv bn id, last I = Some id -> refcnt (buffers c id) = 0 ->
     wp (recycle_lru dv bn) (fun r c' => r = id /\ lru_rep c' (id :: without id A) (without id I) /\
       buffers c' = <[id := recycled dv bn (buffers c id)]> (buffers c)) c) /\
  (forall dv bn, I = [] -> recycle_lru dv bn c = Panic "No buffers available").
Proof.
  intros Hrep. split_and!.
  - intros dv bn. split; [by eapply find_active_run|by eapply find_inactive_run].
  - intros id. by apply wp_promote_to_active.
  - intros id. by apply wp_insert_inactive_head.
  - intros dv bn id. by apply wp_recycle_lru.
  - intros dv bn ->. by eapply recycle_lru_none.
Qed.

Definition demo_lru : LRUCache := final lru_init LRUCache_new.

Lemma demo_lru_rep : lru_rep demo_lru [] (seq 0 N_BUFFER).
Proof.
  unfold demo_lru. apply (wp_final lru_init (fun c => lru_rep c [] (seq 0 N_BUFFER))).
  eapply wp_mono; [|apply wp_lru_init]. by intros _ c' [H _].
Qed.

Lemma lru_refines_lists_witness :
  wp (recycle_lru 0 7) (fun r c' => r = 31%nat /\ lru_rep c' [31%nat] (seq 0 31) /\
    buffers c' = <[31%nat := recycled 0 7 Buffer_new]> (fun _ => Buffer_new)) demo_lru.
Proof.
  apply (lru_refines_lists demo_lru [] (seq 0 N_BUFFER) demo_lru_rep); reflexivity.
Defined.
