(* ===== verification/BufferCache.v ===== *)
(** * The buffer cache ([fs/buffer/mod.rs])

    [read], [write] and [release] over the LRU of [Lru.v] and a block device.
    The device is an interface, [BlockDevice]: what [drivers/virtio/disk.rs]
    promises the cache. [cache_ok] is the cache's invariant and [contents] the
    blocks its clients see. The lemmas show that caching is invisible while
    every change is written before the block is released, and what a release
    without a write may lose. *)
From stdpp Require Import functions.
From S2P Require Import Prelude Lru.

(** ** The device *)

(** What [virtio::disk::rw] promises: a block written is read back, and no
    other block changes. *)
Class BlockDevice (D : Type) := {
  disk_read : D -> Z -> block;
  disk_write : D -> Z -> block -> D;
  disk_read_length : forall d b, length (disk_read d b) = BLOCK_SIZE;
  disk_read_same : forall d b x, length x = BLOCK_SIZE -> disk_read (disk_write d b x) b = x;
  disk_read_other : forall d b b' x, b' <> b -> disk_read (disk_write d b x) b' = disk_read d b';
}.

(** A disk kept in memory. *)
Definition ramdisk : Type := gmap Z block.
Definition ram_read (d : gmap Z block) (b : Z) : block := resize BLOCK_SIZE 0 (default [] (d !! b)).
Definition ram_write (d : gmap Z block) (b : Z) (x : block) : gmap Z block := <[b := x]> d.

Lemma ram_read_same d b x : length x = BLOCK_SIZE -> ram_read (ram_write d b x) b = x.
Proof. intros Hx. unfold ram_read, ram_write. rewrite lookup_insert_eq. simpl. by rewrite <-Hx, resize_all. Qed.
Lemma ram_read_other d b b' x : b' <> b -> ram_read (ram_write d b x) b' = ram_read d b'.
Proof. intros Hb. unfold ram_read, ram_write. by rewrite lookup_insert_ne. Qed.

#[export] Instance ramdisk_device : BlockDevice ramdisk := {|
  disk_read := ram_read;
  disk_write := ram_write;
  disk_read_length d b := length_resize _ _ _;
  disk_read_same := ram_read_same;
  disk_read_other := ram_read_other;
|}.

Section buffer_cache.
Context {D : Type} `{!BlockDevice D}.

(** ** State and operations *)

Record bcache := mkBcache { cache : LRUCache; disk : D }.
Definition set_cache (c : LRUCache) (s : bcache) : bcache := mkBcache c (disk s).
Definition set_disk (d : D) (s : bcache) : bcache := mkBcache (cache s) d.

(** [CACHE.lock()] and a method call *)
Definition with_cache {A} (m : M LRUCache A) : M bcache A := zoom cache set_cache m.

(** [virtio::disk::rw(buf_ptr, blockno, write)] on buffer [id] *)
Definition disk_rw (id : BufferId) (blockno : Z) (write : bool) : M bcache unit :=
  if write then
    buf ← with_cache (get_buffer id);
    modify (fun s => set_disk (disk_write (disk s) blockno (data buf)) s)
  else
    modify (fun s => set_cache (upd_buffer id (with_data (disk_read (disk s) blockno)) (cache s)) s).

Definition buffer_init : M bcache unit := with_cache lru_init.

Definition buffer_get (dv blockno : Z) : M LRUCache BufferId :=
  o ← find_active dv blockno;
  match o with
  | Some id => modify (upd_buffer id (with_locked true));; mret id
  | None =>
      o' ← find_inactive dv blockno;
      match o' with
      | Some id =>
          promote_to_active id;;
          modify (upd_buffer id (with_locked true));;
          mret id
      | None => recycle_lru dv blockno
      end
  end.

Definition buffer_read (dv blockno : Z) : M bcache nat :=
  id ← with_cache (buffer_get dv blockno);
  buf ← with_cache (get_buffer id);
  (if negb (valid buf) then
     disk_rw id blockno false;;
     with_cache (modify (upd_buffer id (with_valid true)))
   else mret tt);;
  mret id.

Definition buffer_write (idx : nat) : M bcache unit :=
  id ← expect (BufferId_new idx) "Invalid buffer index";
  buf ← with_cache (get_buffer id);
  disk_rw id (block_no buf) true;;
  with_cache (modify (upd_buffer id (with_dirty false))).

Definition buffer_release (idx : nat) : M bcache unit :=
  id ← expect (BufferId_new idx) "Invalid buffer index";
  with_cache (
    buf ← get_buffer id;
    r ← usub32 (refcnt buf) 1;
    modify (upd_buffer id (fun b => with_locked false (with_refcnt r b)));;
    if r =? 0 then demote_to_inactive id else mret tt).

(** Reads and writes through [get_data_ptr(idx)]. *)
Definition load_data (idx : nat) : M bcache block :=
  id ← expect (BufferId_new idx) "Invalid buffer index";
  gets (fun s => data (buffers (cache s) id)).
Definition store_data (idx : nat) (d : block) : M bcache unit :=
  id ← expect (BufferId_new idx) "Invalid buffer index";
  modify (fun s => set_cache (upd_buffer id (with_data d) (cache s)) s).

(** ** Invariant and view *)

Definition bufs (s : bcache) : BufferId -> Buffer := buffers (cache s).

(** The blocks the clients see: the valid buffer's data where there is one,
    else the disk's. [L] is the search order, active buffers first. *)
Definition contents (s : bcache) (L : list BufferId) (b : Z) : block :=
  match first_key (bufs s) (0, b) L with
  | Some i => if valid (bufs s i) then data (bufs s i) else disk_read (disk s) b
  | None => disk_read (disk s) b
  end.

Record cache_ok (s : bcache) (A I : list BufferId) : Prop := {
  co_rep : lru_rep (cache s) A I;
  co_dev : forall i, i ∈ A ++ I -> dev (bufs s i) = 0;
  co_len : forall i, i ∈ A ++ I -> length (data (bufs s i)) = BLOCK_SIZE;
  co_active : forall i, i ∈ A -> valid (bufs s i) = true /\ 0 < refcnt (bufs s i) < U32;
  co_inactive : forall i, i ∈ I -> refcnt (bufs s i) = 0;
  co_first : forall i, i ∈ A ++ I -> valid (bufs s i) = true ->
    first_key (bufs s) (0, block_no (bufs s i)) (A ++ I) = Some i;
}.

(** What is cached of the blocks nobody holds is what the disk has. *)
Definition clean (s : bcache) (I : list BufferId) : Prop :=
  forall i, i ∈ I -> valid (bufs s i) = true -> data (bufs s i) = disk_read (disk s) (block_no (bufs s i)).

(** ** Searching a sequence *)

Lemma first_key_Some bf k l i : first_key bf k l = Some i -> i ∈ l /\ key_of (bf i) = k.
Proof.
  induction l as [|j l IH]; simpl; [done|]. case_decide; [intros [= ->]; set_solver|].
  intros [? ?]%IH. set_solver.
Qed.

Lemma first_key_None bf k l : first_key bf k l = None <-> forall i, i ∈ l -> key_of (bf i) <> k.
Proof.
  induction l as [|j l IH]; simpl; [set_solver|]. case_decide; [|set_solver].
  split; [done|]. intros Hall. exfalso. apply (Hall j); [set_solver|done].
Qed.

Lemma first_key_app bf k l1 l2 : first_key bf k (l1 ++ l2) =
  match first_key bf k l1 with Some i => Some i | None => first_key bf k l2 end.
Proof. induction l1 as [|j l1 IH]; simpl; [done|]. by case_decide. Qed.

Lemma first_key_ext bf bf' k l : (forall i, i ∈ l -> key_of (bf' i) = key_of (bf i)) ->
  first_key bf' k l = first_key bf k l.
Proof.
  induction l as [|j l IH]; intros Hext; simpl; [done|]. rewrite Hext by set_solver.
  case_decide; [done|]. apply IH. set_solver.
Qed.

(** ** What the clients see *)

Section view.
Context (s : bcache) (A I : list BufferId) (Hok : cache_ok s A I).

Lemma contents_valid i b : i ∈ A ++ I -> valid (bufs s i) = true -> block_no (bufs s i) = b ->
  contents s (A ++ I) b = data (bufs s i).
Proof. intros Hi Hv <-. unfold contents. by rewrite (co_first _ _ _ Hok), Hv. Qed.

Lemma contents_absent b : (forall i, i ∈ A ++ I -> valid (bufs s i) = true -> block_no (bufs s i) <> b) ->
  contents s (A ++ I) b = disk_read (disk s) b.
Proof.
  intros Hno. unfold contents. destruct (first_key _ _ _) as [i|] eqn:E; [|done].
  apply first_key_Some in E as [Hi Hk]. destruct (valid (bufs s i)) eqn:Hv; [|done].
  exfalso. apply (Hno i Hi Hv). unfold key_of in Hk. congruence.
Qed.

(** A block has at most one valid buffer. *)
Lemma valid_unique i j : i ∈ A ++ I -> j ∈ A ++ I -> valid (bufs s i) = true -> valid (bufs s j) = true ->
  block_no (bufs s i) = block_no (bufs s j) -> i = j.
Proof.
  intros Hi Hj Hvi Hvj Heq. pose proof (co_first _ _ _ Hok i Hi Hvi) as H1.
  pose proof (co_first _ _ _ Hok j Hj Hvj) as H2. rewrite Heq in H1. congruence.
Qed.

Lemma contents_cases b :
  (exists i, i ∈ A ++ I /\ valid (bufs s i) = true /\ block_no (bufs s i) = b) \/
  (forall i, i ∈ A ++ I -> valid (bufs s i) = true -> block_no (bufs s i) <> b).
Proof.
  destruct (decide (Exists (fun i => valid (bufs s i) = true /\ block_no (bufs s i) = b) (A ++ I))) as [H|H].
  - left. apply Exists_exists in H as (i & Hi & Hv & Hb). eauto.
  - right. intros i Hi Hv Hb. apply H, Exists_exists. eauto.
Qed.

Lemma contents_length b : length (contents s (A ++ I) b) = BLOCK_SIZE.
Proof.
  unfold contents. destruct (first_key _ _ _) as [i|] eqn:E; [|apply disk_read_length].
  apply first_key_Some in E as [Hi _]. destruct (valid _); [by apply (co_len _ _ _ Hok)|apply disk_read_length].
Qed.
End view.

(** ** Updates the view does not notice *)

(** Buffers that agree on everything but [dirty] and [locked]. *)
Definition same_buf (b b' : Buffer) : Prop :=
  data b' = data b /\ block_no b' = block_no b /\ dev b' = dev b /\
  refcnt b' = refcnt b /\ valid b' = valid b.

Lemma contents_ext s s' L : (forall i, same_buf (bufs s i) (bufs s' i)) ->
  (forall b, disk_read (disk s') b = disk_read (disk s) b) ->
  forall b, contents s' L b = contents s L b.
Proof.
  intros Hb Hd b. unfold contents. rewrite (first_key_ext (bufs s)).
  - destruct (first_key _ _ _) as [i|]; [|apply Hd].
    destruct (Hb i) as (-> & _ & _ & _ & ->). by destruct (valid _).
  - intros i _. unfold key_of. by destruct (Hb i) as (_ & -> & -> & _).
Qed.

Lemma cache_ok_ext s s' A I : cache_ok s A I ->
  lru_rep (cache s') A I -> (forall i, same_buf (bufs s i) (bufs s' i)) -> cache_ok s' A I.
Proof.
  intros [_ Hdev Hlen Hact Hina Hfirst] Hrep Hb. split; [done|..].
  - intros i Hi. destruct (Hb i) as (_ & _ & -> & _). by apply Hdev.
  - intros i Hi. destruct (Hb i) as (-> & _). by apply Hlen.
  - intros i Hi. destruct (Hb i) as (_ & _ & _ & -> & ->). by apply Hact.
  - intros i Hi. destruct (Hb i) as (_ & _ & _ & -> & _). by apply Hina.
  - intros i Hi. destruct (Hb i) as (_ & -> & _ & _ & ->). intros Hv.
    rewrite (first_key_ext (bufs s)); [by apply Hfirst|].
    intros j _. unfold key_of. by destruct (Hb j) as (_ & -> & -> & _).
Qed.

Lemma clean_ext s s' I : clean s I -> (forall i, same_buf (bufs s i) (bufs s' i)) ->
  (forall i, i ∈ I -> valid (bufs s i) = true ->
     disk_read (disk s') (block_no (bufs s i)) = disk_read (disk s) (block_no (bufs s i))) -> clean s' I.
Proof. intros Hcl Hb Hd i Hi. destruct (Hb i) as (-> & -> & _ & _ & ->). intros Hv. rewrite Hd by done. by apply Hcl. Qed.

Lemma rep_upd_buffer c A I id f : lru_rep c A I -> lru_rep (upd_buffer id f c) A I.
Proof. apply rep_set_buffers. Qed.

Lemma bufs_upd s id f i :
  bufs (set_cache (upd_buffer id f (cache s)) s) i = if decide (i = id) then f (bufs s id) else bufs s i.
Proof.
  unfold bufs, set_cache, upd_buffer. simpl. case_decide as Hi; [subst; by rewrite fn_lookup_insert|].
  by rewrite fn_lookup_insert_ne.
Qed.

Lemma same_buf_upd s id f i : same_buf (bufs s id) (f (bufs s id)) ->
  same_buf (bufs s i) (bufs (set_cache (upd_buffer id f (cache s)) s) i).
Proof. intros Hf. rewrite bufs_upd. by case_decide; subst. Qed.

(** ** Bringing a block in *)

Lemma ok_disjoint s A I i : cache_ok s A I -> i ∈ A -> i ∉ I.
Proof.
  intros Hok Hi. destruct (rep_nodup _ _ _ (co_rep _ _ _ Hok)) as [Hnd _].
  apply NoDup_app in Hnd as (_ & Hd & _). by apply Hd.
Qed.

(** [id] leaves the inactive list to hold block [b] with contents [d]. *)
Record activated (s : bcache) (id : BufferId) (b : Z) (d : block) (s' : bcache) : Prop := {
  av_new : data (bufs s' id) = d /\ block_no (bufs s' id) = b /\ dev (bufs s' id) = 0 /\
    refcnt (bufs s' id) = 1 /\ valid (bufs s' id) = true;
  av_old : forall j, j <> id -> bufs s' j = bufs s j;
  av_disk : disk s' = disk s;
}.

Lemma first_key_skip bf bf' k id A I :
  (forall j, j <> id -> bf' j = bf j) -> key_of (bf' id) <> k -> id ∉ A ->
  (forall i, first_key bf k (A ++ I) = Some i -> i <> id ->
     first_key bf' k (id :: A ++ without id I) = Some i).
Proof.
  intros Hold Hne HA i. simpl. rewrite decide_False by done. rewrite !first_key_app.
  rewrite (first_key_ext bf bf') by (intros j Hj; rewrite Hold by (by intros ->); done).
  destruct (first_key bf k A) as [x|]; [done|]. clear HA A.
  unfold without. induction I as [|j I IH]; simpl; [done|]. rewrite filter_cons.
  destruct (decide (j <> id)) as [Hj|Hj]; simpl.
  - rewrite Hold by done. by case_decide.
  - apply dec_stable in Hj as ->. case_decide; [congruence|]. apply IH.
Qed.

Section activate.
Context (s s' : bcache) (A I : list BufferId) (id : BufferId) (b : Z) (d : block).
Context (Hok : cache_ok s A I) (Hid : id ∈ I) (Hact : activated s id b d s').
Context (Hrep : lru_rep (cache s') (id :: A) (without id I)) (Hlen : length d = BLOCK_SIZE).
Context (Hnew : forall j, j ∈ A ++ I -> j <> id -> valid (bufs s j) = true -> block_no (bufs s j) <> b).

Lemma activate_elem j : j ∈ (id :: A) ++ without id I <-> j ∈ A ++ I.
Proof.
  rewrite <-app_comm_cons, elem_of_cons, !elem_of_app, elem_of_without.
  destruct (decide (j = id)) as [->|]; [|naive_solver]. naive_solver.
Qed.

Lemma activate_ok : cache_ok s' (id :: A) (without id I).
Proof.
  destruct Hact as [(Hd & Hb & Hdv & Hr & Hv) Hold Hdisk].
  pose proof Hok as [_ Hdev Hln Hac Hina Hfirst].
  split; [done|..].
  - intros j Hj%activate_elem. destruct (decide (j = id)) as [->|]; [done|]. rewrite Hold by done. auto.
  - intros j Hj%activate_elem. destruct (decide (j = id)) as [->|]; [congruence|]. rewrite Hold by done. auto.
  - intros j [->|Hj]%elem_of_cons; [rewrite Hr; by split|].
    rewrite Hold by (intros ->; by eapply ok_disjoint). auto.
  - intros j [Hj HjI]%elem_of_without. rewrite Hold by done. auto.
  - intros j Hj%activate_elem Hvj. rewrite <-app_comm_cons.
    destruct (decide (j = id)) as [->|Hne].
    + simpl. unfold key_of. rewrite Hb, Hdv. by rewrite decide_True.
    + rewrite Hold in * by done. apply (first_key_skip (bufs s)); [done| | |by apply Hfirst|done].
      * unfold key_of. rewrite Hb. intros [= _ ->]. by eapply (Hnew j).
      * intros HA. by eapply ok_disjoint.
Qed.

Lemma activate_clean : clean s I -> clean s' (without id I).
Proof. intros Hcl j [Hj HjI]%elem_of_without. destruct Hact as [_ Hold Hdisk]. rewrite Hold, Hdisk by done. by apply Hcl. Qed.

(** The block that was in the buffer goes back to what the disk has. *)
Lemma activate_contents b' : d = contents s (A ++ I) b ->
  contents s' ((id :: A) ++ without id I) b' = contents s (A ++ I) b' \/
  b' <> b /\ valid (bufs s id) = true /\ block_no (bufs s id) = b' /\
    contents s' ((id :: A) ++ without id I) b' = disk_read (disk s) b'.
Proof.
  intros Hdc. destruct Hact as [(Hd & Hb & Hdv & Hr & Hv) Hold Hdisk].
  destruct (decide (b' = b)) as [->|Hbb].
  { left. rewrite (contents_valid _ _ _ activate_ok id) by (done || set_solver). congruence. }
  assert (HidL : id ∈ A ++ I) by set_solver.
  destruct (contents_cases s A I b') as [(j & Hj & Hvj & Hbj)|Hno].
  - destruct (decide (j = id)) as [->|Hne]; [right|left].
    + split_and!; [done|done|done|]. rewrite (contents_absent s' (id :: A) (without id I)); [by rewrite Hdisk|].
      intros k Hk%activate_elem Hvk Hbk. destruct (decide (k = id)) as [->|Hki]; [congruence|].
      rewrite Hold in * by done. apply Hki. eapply (valid_unique s A I Hok); congruence || done.
    + rewrite (contents_valid s A I Hok j b' Hj Hvj Hbj).
      rewrite (contents_valid _ _ _ activate_ok j); [by rewrite Hold|by apply activate_elem|by rewrite Hold..].
  - left. rewrite (contents_absent s A I b' Hno), (contents_absent s' (id :: A) (without id I)); [by rewrite Hdisk|].
    intros k Hk%activate_elem Hvk. destruct (decide (k = id)) as [->|Hki]; [congruence|].
    rewrite Hold in * by done. by apply Hno.
Qed.
End activate.

(** ** Reading *)

(** What [read(0, b)] leaves behind: buffer [id] holds block [b], and no block
    the clients see has changed, but for one that nobody holds and that was
    evicted: it is as on the disk. *)
Record read_post (s : bcache) (A I : list BufferId) (b : Z) (id : BufferId) (s' : bcache)
  (A' I' : list BufferId) : Prop := {
  rp_ok : cache_ok s' A' I';
  rp_held : id ∈ A';
  rp_block : block_no (bufs s' id) = b;
  rp_data : data (bufs s' id) = contents s (A ++ I) b;
  rp_view : forall b', contents s' (A' ++ I') b' = contents s (A ++ I) b' \/
    (exists i, i ∈ I /\ valid (bufs s i) = true /\ block_no (bufs s i) = b') /\
      b' <> b /\ contents s' (A' ++ I') b' = disk_read (disk s) b';
  rp_clean : clean s I -> clean s' I';
  rp_disk : disk s' = disk s;
  rp_others : forall j, j ∈ A -> j ∈ A' /\ same_buf (bufs s j) (bufs s' j);
  rp_refcnt : id ∉ A -> refcnt (bufs s' id) = 1 /\ A' = id :: A;
  rp_hit : id ∈ A -> A' = A;
}.

(** With nothing lost on eviction, no block changes. *)
Lemma read_view_clean s A I b id s' A' I' : cache_ok s A I -> clean s I -> read_post s A I b id s' A' I' ->
  forall b', contents s' (A' ++ I') b' = contents s (A ++ I) b'.
Proof.
  intros Hok Hcl Hp b'. destruct (rp_view _ _ _ _ _ _ _ _ Hp b') as [?|((i & Hi & Hv & Hb) & _ & ->)]; [done|].
  rewrite (contents_valid s A I Hok i b') by (done || set_solver). by rewrite (Hcl i Hi Hv), Hb.
Qed.

Definition read_tail (id : BufferId) (b : Z) : M bcache nat :=
  buf ← with_cache (get_buffer id);
  (if negb (valid buf) then
     disk_rw id b false;;
     with_cache (modify (upd_buffer id (with_valid true)))
   else mret tt);;
  mret id.

Lemma wp_read_tail s0 s id b d A' I' :
  lru_rep (cache s) A' I' -> disk s = disk s0 -> (forall j, j <> id -> bufs s j = bufs s0 j) ->
  block_no (bufs s id) = b -> dev (bufs s id) = 0 -> refcnt (bufs s id) = 1 ->
  d = (if valid (bufs s id) then data (bufs s id) else disk_read (disk s) b) ->
  wp (read_tail id b) (fun r s' => r = id /\ lru_rep (cache s') A' I' /\ activated s0 id b d s') s.
Proof.
  intros Hrep Hdisk Hold Hb Hdv Hr Hd. unfold read_tail, with_cache, get_buffer, disk_rw. wp_steps.
  change (buffers (cache s) id) with (bufs s id).
  destruct (valid (bufs s id)) eqn:Hv; cbn [negb]; wp_steps; (split; [done|split]).
  - done.
  - by split.
  - by apply rep_upd_buffer, rep_upd_buffer.
  - split; simpl; [| |done]; unfold bufs in *; simpl.
    + by rewrite !fn_lookup_insert.
    + intros j Hj. rewrite !fn_lookup_insert_ne by done. by apply Hold.
Qed.

(** The miss path of [get]: a buffer leaves the inactive list for block [b]. *)
Definition get_miss (b : Z) : M LRUCache BufferId :=
  o' ← find_inactive 0 b;
  match o' with
  | Some id =>
      promote_to_active id;;
      modify (upd_buffer id (with_locked true));;
      mret id
  | None => recycle_lru 0 b
  end.

Lemma wp_get_miss s A I b :
  cache_ok s A I -> I <> [] -> first_key (bufs s) (0, b) A = None ->
  wp (get_miss b) (fun id c => id ∈ I /\ lru_rep c (id :: A) (without id I) /\
    (forall j, j <> id -> buffers c j = bufs s j) /\
    block_no (buffers c id) = b /\ dev (buffers c id) = 0 /\ refcnt (buffers c id) = 1 /\
    (if valid (buffers c id) then data (buffers c id) else disk_read (disk s) b) = contents s (A ++ I) b /\
    (forall j, j ∈ A ++ I -> j <> id -> valid (bufs s j) = true -> block_no (bufs s j) <> b)) (cache s).
Proof.
  intros Hok HI EA. pose proof Hok as [Hrep Hdev Hln Hac Hina Hfirst].
  destruct (rep_nodup _ _ _ Hrep) as [Hnd Hall].
  assert (HwA : forall id, id ∈ I -> without id A = A).
  { intros id Hid. apply without_notin. intros HA. by eapply ok_disjoint. }
  unfold get_miss. wp_step. eapply wp_intro; [by eapply find_inactive_run|].
  change (buffers (cache s)) with (bufs s).
  destruct (first_key (bufs s) (0, b) I) as [id|] eqn:EI.
  - pose proof EI as [Hid Hk]%first_key_Some. injection Hk as Hkd Hkb.
    wp_step. eapply wp_mono; [|apply (wp_promote_to_active _ A I); [done|apply Hall; set_solver|]].
    2:{ rewrite (Hina id Hid : refcnt (buffers (cache s) id) = 0). done. }
    intros _ c [Hrep' Hb]. rewrite (HwA id Hid) in Hrep'. wp_steps.
    assert (Hfk : first_key (bufs s) (0, b) (A ++ I) = Some id) by by rewrite first_key_app, EA.
    split_and!; [done|by apply rep_upd_buffer|..]; simpl; rewrite ?Hb, ?fn_lookup_insert; simpl; try done.
    + intros j Hj. by rewrite !fn_lookup_insert_ne.
    + by rewrite (Hina id Hid : refcnt (buffers (cache s) id) = 0).
    + unfold contents. by rewrite Hfk.
    + intros j Hj Hne Hv Hbj. apply Hne. pose proof (Hfirst j Hj Hv) as Hf. rewrite Hbj, Hfk in Hf. congruence.
  - destruct (last I) as [id|] eqn:El; [|by apply last_None in El].
    assert (Hid : id ∈ I) by (apply last_Some in El as [l ->]; set_solver).
    eapply wp_mono; [|apply (wp_recycle_lru _ A I 0 b id); [done|done|by apply Hina]].
    intros r c (-> & Hrep' & Hb). rewrite (HwA id Hid) in Hrep'.
    assert (Hno : forall j, j ∈ A ++ I -> valid (bufs s j) = true -> block_no (bufs s j) <> b).
    { intros j Hj Hv Hbj. pose proof (Hfirst j Hj Hv) as Hf.
      rewrite Hbj, first_key_app, EA, EI in Hf. done. }
    split_and!; [done|done|..]; rewrite ?Hb, ?fn_lookup_insert; simpl; try done.
    + intros j Hj. by rewrite fn_lookup_insert_ne.
    + symmetry. by apply contents_absent.
    + intros j Hj _. by apply Hno.
Qed.

Lemma read_hit_post s A I b id :
  cache_ok s A I -> id ∈ A -> block_no (bufs s id) = b ->
  read_post s A I b id (set_cache (upd_buffer id (with_locked true) (cache s)) s) A I.
Proof.
  intros Hok Hid Hb. set (s1 := set_cache _ s).
  assert (Hsame : forall i, same_buf (bufs s i) (bufs s1 i)) by (intros i; by apply same_buf_upd).
  assert (Hok1 : cache_ok s1 A I).
  { eapply cache_ok_ext; [done|by apply rep_upd_buffer, Hok|done]. }
  destruct (Hsame id) as (Hd & Hbn & _). split; try done.
  - congruence.
  - rewrite Hd. symmetry. eapply contents_valid; [done|set_solver|by apply Hok|done].
  - intros b'. left. by apply contents_ext.
  - intros Hcl. by eapply clean_ext.
Qed.

Lemma wp_buffer_read s A I b :
  cache_ok s A I ->
  (I <> [] \/ exists i, i ∈ A /\ block_no (bufs s i) = b) ->
  wp (buffer_read 0 b) (fun id s' => exists A' I', read_post s A I b id s' A' I') s.
Proof.
  intros Hok Hroom. unfold buffer_read. wp_step. unfold with_cache at 1. wp_step.
  unfold buffer_get. wp_step. eapply wp_intro; [eapply find_active_run, Hok|].
  change (buffers (cache s)) with (bufs s).
  destruct (first_key (bufs s) (0, b) A) as [id|] eqn:EA.
  - apply first_key_Some in EA as [Hid Hk]. injection Hk as Hkd Hkb.
    pose proof (read_hit_post s A I b id Hok Hid Hkb) as Hpost.
    do 3 wp_step. set (s1 := set_cache _ s) in *.
    unfold with_cache, get_buffer. wp_steps. change (buffers (cache s1) id) with (bufs s1 id).
    rewrite (proj1 (co_active _ _ _ (rp_ok _ _ _ _ _ _ _ _ Hpost) id Hid)). cbn [negb]. wp_steps.
    exists A, I. exact Hpost.
  - assert (HI : I <> []).
    { destruct Hroom as [?|(i & Hi & Hb)]; [done|]. exfalso.
      apply (proj1 (first_key_None _ _ _) EA i Hi). unfold key_of. rewrite Hb. f_equal.
      apply (co_dev _ _ _ Hok). set_solver. }
    eapply wp_mono; [|by apply (wp_get_miss s A I b Hok HI EA)].
    intros id c (Hid & Hrep & Hold & Hb & Hdv & Hr & Hd & Hnew).
    fold (read_tail id b).
    eapply wp_mono; [|by apply (wp_read_tail s (set_cache c s) id b (contents s (A ++ I) b) (id :: A) (without id I))].
    intros r s' (-> & Hrep' & Hact).
    assert (Hlen : length (contents s (A ++ I) b) = BLOCK_SIZE) by by apply contents_length.
    pose proof (activate_ok s s' A I id b _ Hok Hid Hact Hrep' Hlen Hnew) as Hok'.
    pose proof Hact as [(H1 & H2 & H3 & H4 & H5) H6 H7]. exists (id :: A), (without id I).
    split; [done|set_solver|done|done| | |done| |done|by intros H8; destruct (ok_disjoint _ _ _ _ Hok H8)].
    + intros b'. destruct (activate_contents s s' A I id b _ Hok Hid Hact Hrep' Hlen Hnew b' eq_refl) as [?|(E1 & E2 & E3 & E4)]; [by left|].
      right. split; [by exists id|done].
    + by apply (activate_clean s s' I id b _ Hact).
    + intros j Hj. split; [set_solver|]. rewrite H6; [done|]. intros ->. by apply (ok_disjoint _ _ _ _ Hok Hj).
Qed.

(** ** Writing, storing and releasing a held buffer *)

Lemma held_id s A I id : cache_ok s A I -> id ∈ A -> (id < N_BUFFER)%nat /\ BufferId_new id = Some id.
Proof.
  intros Hok Hid. assert (H : (id < N_BUFFER)%nat).
  { apply (rep_nodup _ _ _ (co_rep _ _ _ Hok)). set_solver. }
  split; [done|]. unfold BufferId_new. by rewrite (proj2 (Nat.ltb_lt _ _)).
Qed.

(** [write] puts the held buffer's data on the disk; the clients' view stays. *)
Record write_post (s : bcache) (A I : list BufferId) (id : BufferId) (s' : bcache) : Prop := {
  wr_ok : cache_ok s' A I;
  wr_view : forall b, contents s' (A ++ I) b = contents s (A ++ I) b;
  wr_disk : disk s' = disk_write (disk s) (block_no (bufs s id)) (data (bufs s id));
  wr_bufs : forall j, same_buf (bufs s j) (bufs s' j);
  wr_clean : clean s I -> clean s' I;
}.

Lemma wp_buffer_write s A I id :
  cache_ok s A I -> id ∈ A -> wp (buffer_write id) (fun _ s' => write_post s A I id s') s.
Proof.
  intros Hok Hid. destruct (held_id _ _ _ _ Hok Hid) as [Hlt HB]. pose proof Hok as [_ _ Hln Hac _ _].
  unfold buffer_write, disk_rw, with_cache, get_buffer. rewrite HB. wp_step. apply wp_ret.
  wp_steps.
  set (s' := set_cache _ _).
  assert (Hsame : forall j, same_buf (bufs s j) (bufs s' j)).
  { intros j. unfold bufs. simpl. destruct (decide (j = id)) as [->|]; [by rewrite fn_lookup_insert|].
    by rewrite fn_lookup_insert_ne. }
  assert (Hok' : cache_ok s' A I).
  { eapply cache_ok_ext; [done|by apply rep_upd_buffer, Hok|done]. }
  split; [done| |done|done|].
  2:{ intros Hcl. eapply clean_ext; [done|done|]. intros i Hi Hv. simpl. apply disk_read_other. intros Heq.
    assert (i = id) as ->; [|by apply (ok_disjoint _ _ _ _ Hok Hid)].
    eapply (valid_unique s A I Hok); [set_solver|set_solver|done|by apply Hac|done]. }
  intros b. destruct (contents_cases s A I b) as [(j & Hj & Hv & Hb)|Hno].
  - destruct (Hsame j) as (Hd & Hbn & _ & _ & Hv').
    rewrite (contents_valid s A I Hok j), (contents_valid s' A I Hok' j) by congruence. done.
  - rewrite (contents_absent s A I b Hno), (contents_absent s' A I b).
    + simpl. apply disk_read_other. intros ->. apply (Hno id); [set_solver|by apply Hac|done].
    + intros j Hj. destruct (Hsame j) as (_ & -> & _ & _ & ->). by apply Hno.
Qed.

(** Storing through the data pointer changes the view of that block only. *)
Record store_post (s : bcache) (A I : list BufferId) (id : BufferId) (d : block) (s' : bcache) : Prop := {
  sp_ok : cache_ok s' A I;
  sp_view : forall b, contents s' (A ++ I) b =
    if b =? block_no (bufs s id) then d else contents s (A ++ I) b;
  sp_disk : disk s' = disk s;
  sp_data : data (bufs s' id) = d;
  sp_meta : block_no (bufs s' id) = block_no (bufs s id) /\ refcnt (bufs s' id) = refcnt (bufs s id);
  sp_others : forall j, j <> id -> bufs s' j = bufs s j;
  sp_clean : clean s I -> clean s' I;
}.

Lemma wp_store_data s A I id d :
  cache_ok s A I -> id ∈ A -> length d = BLOCK_SIZE ->
  wp (store_data id d) (fun _ s' => store_post s A I id d s') s.
Proof.
  intros Hok Hid Hlen. destruct (held_id _ _ _ _ Hok Hid) as [Hlt HB].
  pose proof Hok as [Hrep Hdev Hln Hac Hina Hfirst].
  unfold store_data. rewrite HB. wp_step. apply wp_ret. wp_steps. set (s' := set_cache _ _).
  assert (Hid' : bufs s' id = with_data d (bufs s id)) by (unfold s'; rewrite bufs_upd; by rewrite decide_True).
  assert (Hold : forall j, j <> id -> bufs s' j = bufs s j)
    by (intros j Hj; unfold s'; rewrite bufs_upd; by rewrite decide_False).
  assert (Hkey : forall j, key_of (bufs s' j) = key_of (bufs s j) /\ valid (bufs s' j) = valid (bufs s j) /\
    refcnt (bufs s' j) = refcnt (bufs s j) /\ block_no (bufs s' j) = block_no (bufs s j) /\
    dev (bufs s' j) = dev (bufs s j)).
  { intros j. destruct (decide (j = id)) as [->|]; [by rewrite Hid'|by rewrite Hold]. }
  assert (Hok' : cache_ok s' A I).
  { split.
    - by apply rep_upd_buffer.
    - intros i Hi. destruct (Hkey i) as (_ & _ & _ & _ & ->). auto.
    - intros i Hi. destruct (decide (i = id)) as [->|]; [by rewrite Hid'|rewrite Hold by done; auto].
    - intros i Hi. destruct (Hkey i) as (_ & -> & -> & _). auto.
    - intros i Hi. destruct (Hkey i) as (_ & _ & -> & _). auto.
    - intros i Hi. destruct (Hkey i) as (_ & -> & _ & -> & _). intros Hv.
      rewrite (first_key_ext (bufs s)); [by apply Hfirst|]. intros j _. apply Hkey. }
  split; [done| |done|by rewrite Hid'|by rewrite Hid'|done|].
  2:{ intros Hcl i Hi. rewrite Hold; [by apply Hcl|]. intros ->. by apply (ok_disjoint _ _ _ _ Hok Hid). }
  intros b. destruct (Z.eqb_spec b (block_no (bufs s id))) as [->|Hne].
  - rewrite (contents_valid s' A I Hok' id); [by rewrite Hid'|set_solver|by apply Hok'|by apply Hkey].
  - unfold contents. rewrite (first_key_ext (bufs s)) by (intros j _; apply Hkey).
    destruct (first_key _ _ _) as [i|] eqn:E; [|done].
    apply first_key_Some in E as [_ Hk]. rewrite Hold; [done|]. intros ->.
    unfold key_of in Hk. congruence.
Qed.

Lemma wp_load_data s A I id : cache_ok s A I -> id ∈ A ->
  wp (load_data id) (fun d s' => d = data (bufs s id) /\ s' = s) s.
Proof.
  intros Hok Hid. destruct (held_id _ _ _ _ Hok Hid) as [Hlt HB].
  unfold load_data. rewrite HB. wp_step. apply wp_ret. by wp_steps.
Qed.

(** Demoting a held buffer does not change which buffer a search finds. *)
Lemma first_key_demote s A I id k : cache_ok s A I -> id ∈ A ->
  first_key (bufs s) k (without id A ++ id :: I) = first_key (bufs s) k (A ++ I).
Proof.
  intros Hok Hid. pose proof Hok as [_ Hdev _ Hac _ _].
  destruct (rep_nodup _ _ _ (co_rep _ _ _ Hok)) as [Hnd _]. apply NoDup_app in Hnd as (Hnd & _ & _).
  pose proof Hid as (l1 & l2 & ->)%list_elem_of_split. rewrite without_middle by done.
  rewrite <-!app_assoc, !first_key_app. destruct (first_key _ _ l1); [done|]. simpl.
  case_decide as Hk; [|done].
  destruct (first_key (bufs s) k l2) as [j|] eqn:E; [|done]. exfalso.
  apply first_key_Some in E as [Hj Hkj].
  assert (j = id) as ->.
  { eapply (valid_unique s _ I Hok); [set_solver|set_solver|apply Hac; set_solver|by apply Hac|].
    unfold key_of in *. congruence. }
  apply NoDup_app in Hnd as (_ & _ & [Hn _]%NoDup_cons). done.
Qed.

(** [release] gives up one reference; the last one leaves the cache clean only
    if the disk has the data, since the inactive list may be recycled. *)
Record release_post (s : bcache) (A I : list BufferId) (id : BufferId) (s' : bcache)
  (A' I' : list BufferId) : Prop := {
  re_ok : cache_ok s' A' I';
  re_view : forall b, contents s' (A' ++ I') b = contents s (A ++ I) b;
  re_disk : disk s' = disk s;
  re_lists : if refcnt (bufs s id) =? 1 then A' = without id A /\ I' = id :: I else A' = A /\ I' = I;
  re_refcnt : refcnt (bufs s' id) = refcnt (bufs s id) - 1;
  re_others : forall j, j <> id -> bufs s' j = bufs s j;
  re_clean : clean s I -> (refcnt (bufs s id) = 1 -> data (bufs s id) = disk_read (disk s) (block_no (bufs s id))) -> clean s' I';
  re_block : block_no (bufs s' id) = block_no (bufs s id);
}.

Section release.
Context (s s' : bcache) (A I : list BufferId) (id : BufferId).
Context (Hok : cache_ok s A I) (Hid : id ∈ A).
Context (Hnew : bufs s' id = with_locked false (with_refcnt (refcnt (bufs s id) - 1) (bufs s id))).
Context (Hold : forall j, j <> id -> bufs s' j = bufs s j) (Hdisk : disk s' = disk s).

Lemma release_same j : key_of (bufs s' j) = key_of (bufs s j) /\ valid (bufs s' j) = valid (bufs s j) /\
  data (bufs s' j) = data (bufs s j) /\ block_no (bufs s' j) = block_no (bufs s j) /\
  dev (bufs s' j) = dev (bufs s j).
Proof. destruct (decide (j = id)) as [->|]; [by rewrite Hnew|by rewrite Hold]. Qed.

Lemma release_first k L : first_key (bufs s') k L = first_key (bufs s) k L.
Proof. apply first_key_ext. intros j _. apply release_same. Qed.

Lemma release_contents L L' b : (forall k, first_key (bufs s) k L' = first_key (bufs s) k L) ->
  contents s' L' b = contents s L b.
Proof.
  intros Hk. unfold contents. rewrite release_first, Hk, Hdisk.
  destruct (first_key _ _ _) as [i|]; [|done]. by destruct (release_same i) as (_ & -> & -> & _).
Qed.

Lemma release_keep : lru_rep (cache s') A I -> refcnt (bufs s id) <> 1 -> release_post s A I id s' A I.
Proof.
  intros Hrep Hr. pose proof Hok as [_ Hdev Hln Hac Hina Hfirst].
  pose proof (Hac id Hid) as [_ Hrid].
  split; [|intros b; by apply release_contents|done| |by rewrite Hnew|done| |by rewrite Hnew].
  2:{ by rewrite (proj2 (Z.eqb_neq _ _)). }
  2:{ intros Hcl _ i Hi. destruct (release_same i) as (_ & -> & -> & -> & _). rewrite Hdisk. auto. }
  split; [done|..].
  - intros i Hi. destruct (release_same i) as (_ & _ & _ & _ & ->). auto.
  - intros i Hi. destruct (release_same i) as (_ & _ & -> & _). auto.
  - intros i Hi. destruct (decide (i = id)) as [->|]; [|rewrite Hold by done; auto].
    rewrite Hnew. simpl. split; [by apply Hac|lia].
  - intros i Hi. rewrite Hold; [auto|]. intros ->. by apply (ok_disjoint _ _ _ _ Hok Hid).
  - intros i Hi. destruct (release_same i) as (_ & -> & _ & -> & _). rewrite release_first. auto.
Qed.

Lemma release_last : lru_rep (cache s') (without id A) (id :: I) -> refcnt (bufs s id) = 1 ->
  release_post s A I id s' (without id A) (id :: I).
Proof.
  intros Hrep Hr. pose proof Hok as [_ Hdev Hln Hac Hina Hfirst].
  assert (Hin : forall i, i ∈ without id A ++ id :: I -> i ∈ A ++ I).
  { intros i. rewrite !elem_of_app, elem_of_cons, elem_of_without. naive_solver. }
  split; [|intros b; apply release_contents; intros k; by apply first_key_demote|done
    |by rewrite Hr|by rewrite Hnew|done| |by rewrite Hnew].
  2:{ intros Hcl Hlast i Hi. destruct (release_same i) as (_ & -> & -> & -> & _). rewrite Hdisk.
    apply elem_of_cons in Hi as [->|Hi]; [by rewrite Hlast|auto]. }
  split; [done|..].
  - intros i Hi. destruct (release_same i) as (_ & _ & _ & _ & ->). auto.
  - intros i Hi. destruct (release_same i) as (_ & _ & -> & _). auto.
  - intros i [Hne Hi]%elem_of_without. rewrite Hold by done. auto.
  - intros i [->|Hi]%elem_of_cons; [rewrite Hnew; simpl; lia|].
    rewrite Hold; [auto|]. intros ->. by apply (ok_disjoint _ _ _ _ Hok Hid).
  - intros i Hi%Hin. destruct (release_same i) as (_ & -> & _ & -> & _). intros Hv.
    rewrite release_first, first_key_demote by done. auto.
Qed.
End release.

Lemma wp_buffer_release s A I id :
  cache_ok s A I -> id ∈ A ->
  wp (buffer_release id) (fun _ s' => exists A' I', release_post s A I id s' A' I') s.
Proof.
  intros Hok Hid. destruct (held_id _ _ _ _ Hok Hid) as [Hlt HB].
  pose proof (co_active _ _ _ Hok id Hid) as [_ Hr].
  unfold buffer_release, with_cache, get_buffer. rewrite HB. wp_step. apply wp_ret.
  unfold bufs in Hr. wp_steps. change (buffers (cache s) id) with (bufs s id) in *.
  set (c1 := upd_buffer _ _ _).
  assert (Hnew : forall c, buffers c = buffers c1 ->
    bufs (set_cache c s) id = with_locked false (with_refcnt (refcnt (bufs s id) - 1) (bufs s id)) /\
    forall j, j <> id -> bufs (set_cache c s) j = bufs s j).
  { intros c Hc. unfold bufs at 1 4. simpl. rewrite Hc. simpl. rewrite fn_lookup_insert.
    split; [done|]. intros j Hj. by rewrite fn_lookup_insert_ne. }
  assert (Hrep : lru_rep c1 A I) by by apply rep_upd_buffer, Hok.
  destruct (Z.eqb_spec (refcnt (bufs s id) - 1) 0) as [Hz|Hz].
  - eapply wp_mono; [|by apply (wp_insert_inactive_head c1 A I)].
    intros [] c [Hrep' Hb]. destruct (Hnew c Hb) as [Hn Ho].
    rewrite (without_notin id I) in Hrep' by by apply (ok_disjoint _ _ _ _ Hok Hid).
    exists (without id A), (id :: I). apply release_last; try done. lia.
  - wp_step. destruct (Hnew c1 eq_refl) as [Hn Ho]. exists A, I. apply release_keep; try done. lia.
Qed.

(** The boot state: nothing cached. *)
Definition boot_cache (d : D) : bcache := mkBcache LRUCache_new d.

Lemma wp_buffer_init d :
  wp buffer_init (fun _ s => cache_ok s [] (seq 0 N_BUFFER) /\ clean s (seq 0 N_BUFFER) /\ disk s = d /\
    forall b, contents s (seq 0 N_BUFFER) b = disk_read d b) (boot_cache d).
Proof.
  unfold buffer_init, with_cache. wp_step. eapply wp_mono; [|apply wp_lru_init].
  intros [] c [Hrep Hb]. simpl in Hb.
  assert (Hok : cache_ok (set_cache c (boot_cache d)) [] (seq 0 N_BUFFER)).
  { split; unfold bufs; simpl; [done|..]; intros i; rewrite Hb; try done. set_solver. }
  split_and!; [done| |done|]; [intros i _; unfold bufs; simpl; by rewrite Hb|].
  intros b. rewrite (contents_absent _ [] (seq 0 N_BUFFER) b); [done|].
  intros i _. unfold bufs. simpl. by rewrite Hb.
Qed.

(** ** Clients of the cache *)

Lemma buffer_read_full s A b : cache_ok s A [] ->
  (forall i, i ∈ A -> block_no (bufs s i) <> b) -> buffer_read 0 b s = Panic "No buffers available".
Proof.
  intros Hok Hno. unfold buffer_read. apply bind_panic. unfold with_cache, zoom, buffer_get.
  rewrite (bind_run _ _ _ _ _ (find_active_run 0 b _ _ _ (co_rep _ _ _ Hok))).
  assert (Hn : first_key (buffers (cache s)) (0, b) A = None).
  { apply first_key_None. intros i Hi Hk. apply (Hno i Hi). unfold key_of in Hk. unfold bufs. congruence. }
  rewrite Hn. rewrite (bind_run _ _ _ _ _ (find_inactive_run 0 b _ _ _ (co_rep _ _ _ Hok))). simpl.
  by rewrite (recycle_lru_none _ _ 0 b (co_rep _ _ _ Hok)).
Qed.

Lemma read_returns s A I b id s' : cache_ok s A I -> buffer_read 0 b s = Ret id s' ->
  exists A' I', read_post s A I b id s' A' I'.
Proof.
  intros Hok Hrun.
  assert (Hroom : I <> [] \/ exists i, i ∈ A /\ block_no (bufs s i) = b).
  { destruct I as [|j I]; [|by left]. right.
    destruct (decide (Exists (fun i => block_no (bufs s i) = b) A)) as [He|Hne];
      [by apply Exists_exists in He|]. exfalso.
    rewrite (buffer_read_full s A b Hok) in Hrun; [done|].
    intros i Hi Hb. apply Hne, Exists_exists. eauto. }
  pose proof (wp_buffer_read s A I b Hok Hroom) as Hwp. unfold wp in Hwp. by rewrite Hrun in Hwp.
Qed.

Definition held (s : bcache) (id : BufferId) : Prop := (id < N_BUFFER)%nat /\ 0 < refcnt (bufs s id).

Lemma held_active s A I id : cache_ok s A I -> held s id -> id ∈ A.
Proof.
  intros Hok [Hlt Hr]. apply (rep_nodup _ _ _ (co_rep _ _ _ Hok)) in Hlt.
  apply elem_of_app in Hlt as [?|HI]; [done|]. rewrite (co_inactive _ _ _ Hok id HI) in Hr. lia.
Qed.

(** What clients do with the cache, next to what they may expect of it: [v] is
    what was last stored in each block, or last seen in it, and [w] what was
    last written out. Taking a block shows what is in it, which settles [v]. *)
Inductive cache_step : bcache * (Z -> block) * (Z -> block) -> bcache * (Z -> block) * (Z -> block) -> Prop :=
  | step_read s v w b id s' :
      buffer_read 0 b s = Ret id s' -> cache_step (s, v, w) (s', <[b := data (bufs s' id)]> v, w)
  | step_store s v w id x s' :
      held s id -> length x = BLOCK_SIZE -> store_data id x s = Ret tt s' ->
      cache_step (s, v, w) (s', <[block_no (bufs s id) := x]> v, w)
  | step_write s v w id s' :
      held s id -> buffer_write id s = Ret tt s' ->
      cache_step (s, v, w) (s', v, <[block_no (bufs s id) := v (block_no (bufs s id))]> w)
  | step_release s v w id s' :
      held s id -> buffer_release id s = Ret tt s' -> cache_step (s, v, w) (s', v, w).

(** Block [b] is held. *)
Definition in_use (s : bcache) (b : Z) : Prop := exists i, held s i /\ block_no (bufs s i) = b.

(** What the clients see is what they last stored, or, for a block nobody
    holds, what was last written. *)
Definition view_inv (st : bcache * (Z -> block) * (Z -> block)) : Prop :=
  let '(s, v, w) := st in
  exists A I, cache_ok s A I /\ (forall b, disk_read (disk s) b = w b) /\
    forall b, contents s (A ++ I) b = v b \/ contents s (A ++ I) b = w b /\ ~ in_use s b.

Lemma wp_at {S B} (m : M S B) Q st x st' : wp m Q st -> m st = Ret x st' -> Q x st'.
Proof. unfold wp. by intros H E; rewrite E in H. Qed.

Lemma active_held s A I i : cache_ok s A I -> i ∈ A -> held s i.
Proof. intros Hok Hi. destruct (held_id _ _ _ _ Hok Hi) as [? _]. split; [done|]. by apply (co_active _ _ _ Hok i Hi). Qed.

Lemma in_use_iff s A I b : cache_ok s A I -> in_use s b <-> exists i, i ∈ A /\ block_no (bufs s i) = b.
Proof.
  intros Hok. split; intros (i & Hi & Hb); exists i; (split; [|done]); [by eapply held_active|by eapply active_held].
Qed.

Lemma fn_insert_cases (v : Z -> block) b x b' : (<[b := x]> v) b' = if decide (b' = b) then x else v b'.
Proof. case_decide as H; [subst; by rewrite fn_lookup_insert|by rewrite fn_lookup_insert_ne]. Qed.

Lemma read_step_inv s v w b id s' : view_inv (s, v, w) -> buffer_read 0 b s = Ret id s' -> view_inv (s', <[b := data (bufs s' id)]> v, w).
Proof.
  intros (A & I & Hok & Hw & Hv) Hrun. destruct (read_returns s A I b id s' Hok Hrun) as (A' & I' & Hp).
  pose proof (rp_ok _ _ _ _ _ _ _ _ Hp) as Hok'. exists A', I'. split; [done|]. split; [by rewrite (rp_disk _ _ _ _ _ _ _ _ Hp)|].
  intros b'. rewrite fn_insert_cases. case_decide as Hb.
  { subst b'. left. apply (contents_valid s' A' I' Hok' id); [|apply (co_active _ _ _ Hok' id)|]; try apply Hp. set_solver by apply Hp. }
  assert (Huse : in_use s' b' -> in_use s b').
  { intros (i & Hi & Hbi)%(in_use_iff s' A' I' b' Hok'). apply (in_use_iff s A I b' Hok). exists i.
    assert (Hne : i <> id) by (intros ->; apply Hb; by rewrite <-Hbi, (rp_block _ _ _ _ _ _ _ _ Hp)).
    assert (HiA : i ∈ A).
    { destruct (decide (id ∈ A)) as [HidA|HidA]; [by rewrite (rp_hit _ _ _ _ _ _ _ _ Hp HidA) in Hi|].
      rewrite (proj2 (rp_refcnt _ _ _ _ _ _ _ _ Hp HidA)) in Hi. set_solver. }
    split; [done|]. destruct (rp_others _ _ _ _ _ _ _ _ Hp i HiA) as [_ (_ & E & _)]. congruence. }
  destruct (rp_view _ _ _ _ _ _ _ _ Hp b') as [E|((i & Hi & Hvi & Hbi) & _ & E)]; rewrite E.
  - destruct (Hv b') as [?|[? Hn]]; [by left|]. right. split; [done|]. by intros ?%Huse.
  - right. split; [apply Hw|]. intros (j & Hj & Hbj)%Huse%(in_use_iff s A I b' Hok).
    assert (i = j) as -> by (eapply (valid_unique s A I Hok); [set_solver|set_solver|done|by apply (co_active _ _ _ Hok)|congruence]).
    by apply (ok_disjoint _ _ _ _ Hok Hj).
Qed.

(** The data of a held buffer is what was last stored in its block. *)
Lemma held_data s v w A I id : cache_ok s A I -> (forall b, contents s (A ++ I) b = v b \/ contents s (A ++ I) b = w b /\ ~ in_use s b) ->
  id ∈ A -> data (bufs s id) = v (block_no (bufs s id)).
Proof.
  intros Hok Hv Hid. rewrite <-(contents_valid s A I Hok id (block_no (bufs s id))); [|set_solver|by apply (co_active _ _ _ Hok)|done].
  destruct (Hv (block_no (bufs s id))) as [?|[_ Hn]]; [done|]. destruct Hn. apply (in_use_iff s A I _ Hok). by exists id.
Qed.

(** Which blocks are held, after a step that changes no block number and holds
    no more buffers. *)
Lemma in_use_mono s s' A I A' I' b : cache_ok s A I -> cache_ok s' A' I' -> (forall i, i ∈ A' -> i ∈ A) ->
  (forall i, i ∈ A' -> block_no (bufs s' i) = block_no (bufs s i)) -> in_use s' b -> in_use s b.
Proof.
  intros Hok Hok' HA Hb (i & Hi & Hbi)%(in_use_iff s' A' I' b Hok'). apply (in_use_iff s A I b Hok). exists i.
  split; [by apply HA|]. by rewrite <-Hb.
Qed.

Lemma cache_step_inv st st' : cache_step st st' -> view_inv st -> view_inv st'.
Proof.
  destruct 1 as [s v w b id s' Hrun|s v w id x s' Hh Hlen Hrun|s v w id s' Hh Hrun|s v w id s' Hh Hrun];
    [intros Hi; by eapply read_step_inv|..]; intros (A & I & Hok & Hw & Hv); pose proof (held_active s A I id Hok Hh) as Hid.
  - destruct (wp_at _ _ _ _ _ (wp_store_data s A I id x Hok Hid Hlen) Hrun) as [Hok' Hview Hdisk Hd [Hbn Hr] Hoth _].
    exists A, I. split; [done|]. split; [by rewrite Hdisk|]. intros b. rewrite Hview, fn_insert_cases.
    destruct (Z.eqb_spec b (block_no (bufs s id))) as [->|Hne]; [left; by rewrite decide_True|]. rewrite decide_False by done.
    destruct (Hv b) as [?|[? Hn]]; [by left|]. right. split; [done|]. intros Hu. apply Hn.
    apply (in_use_mono s s' A I A I b Hok Hok'); [done| |done]. intros i _. destruct (decide (i = id)) as [->|]; [done|by rewrite Hoth].
  - destruct (wp_at _ _ _ _ _ (wp_buffer_write s A I id Hok Hid) Hrun) as [Hok' Hview Hdisk Hsame _].
    rewrite (held_data s v w A I id Hok Hv Hid) in Hdisk. exists A, I. split; [done|].
    assert (Hlen : length (v (block_no (bufs s id))) = BLOCK_SIZE).
    { rewrite <-(held_data s v w A I id Hok Hv Hid). apply (co_len _ _ _ Hok). set_solver. }
    split.
    + intros b. rewrite Hdisk, fn_insert_cases. case_decide as Hb; [subst b; by apply disk_read_same|]. by rewrite disk_read_other.
    + intros b. rewrite Hview, fn_insert_cases. destruct (Hv b) as [?|[E Hn]]; [by left|]. case_decide as Hb.
      { destruct Hn. apply (in_use_iff s A I _ Hok). by exists id. }
      right. split; [done|]. intros Hu. apply Hn. apply (in_use_mono s s' A I A I b Hok Hok'); [done| |done].
      intros i _. by destruct (Hsame i) as (_ & -> & _).
  - destruct (wp_at _ _ _ _ _ (wp_buffer_release s A I id Hok Hid) Hrun) as (A' & I' & [Hok' Hview Hdisk Hl Hr Hoth _ Hbn]).
    exists A', I'. split; [done|]. split; [by rewrite Hdisk|]. intros b. rewrite Hview.
    destruct (Hv b) as [?|[? Hn]]; [by left|]. right. split; [done|]. intros Hu. apply Hn.
    apply (in_use_mono s s' A I A' I' b Hok Hok'); [| |done].
    + intros i. destruct (_ =? 1); destruct Hl as [-> ->]; [|done]. by intros [_ ?]%elem_of_without.
    + intros i _. destruct (decide (i = id)) as [->|]; [done|by rewrite Hoth].
Qed.

(** ** Holding blocks

    The file-system code takes each block at most once at a time. [hold s v H]
    says that the clients see the blocks [v] and hold exactly the blocks of
    [H], each in one buffer with one reference, [true] marking those whose data
    the disk already has. *)
Record hold (s : bcache) (v : Z -> block) (H : gmap Z (BufferId * bool)) : Prop := {
  ho_lists : exists A I, cache_ok s A I /\ clean s I /\ length A = size H /\
    (forall b, contents s (A ++ I) b = v b) /\
    (forall i, i ∈ A <-> exists b c, H !! b = Some (i, c));
  ho_held : forall b i c, H !! b = Some (i, c) ->
    block_no (bufs s i) = b /\ refcnt (bufs s i) = 1 /\ data (bufs s i) = v b /\
    (c = true -> v b = disk_read (disk s) b);
}.
(** Nothing held. *)
Definition quiet (s : bcache) (v : Z -> block) : Prop := hold s v ∅.

Lemma hold_elem s v H b i c : hold s v H -> H !! b = Some (i, c) ->
  exists A I, cache_ok s A I /\ clean s I /\ length A = size H /\ i ∈ A /\
    (forall b, contents s (A ++ I) b = v b) /\ (forall i, i ∈ A <-> exists b c, H !! b = Some (i, c)).
Proof.
  intros [(A & I & Hok & Hcl & Hlen & Hv & HA) _] Hb. exists A, I.
  split_and!; [done|done|done| |done|done]. apply HA. eauto.
Qed.

Lemma hold_inj s v H b b' i c c' : hold s v H -> H !! b = Some (i, c) -> H !! b' = Some (i, c') -> b = b'.
Proof. intros [_ Hh] H1 H2. apply Hh in H1 as [<- _]. apply Hh in H2 as [<- _]. done. Qed.

(** A block nobody holds is on the disk as the clients see it. *)
Lemma hold_disk s v H b : hold s v H -> H !! b = None -> disk_read (disk s) b = v b.
Proof.
  intros [(A & I & Hok & Hcl & Hlen & Hv & HA) Hh] Hb. rewrite <-Hv.
  destruct (contents_cases s A I b) as [(j & Hj & Hvj & Hbj)|Hno]; [|by rewrite contents_absent].
  rewrite (contents_valid s A I Hok j b Hj Hvj Hbj).
  apply elem_of_app in Hj as [Hj|Hj]; [|by rewrite (Hcl j Hj Hvj), Hbj].
  apply HA in Hj as (b' & c & Hb'). destruct (Hh _ _ _ Hb') as [Hbb _]. congruence.
Qed.

Lemma hold_length s v H b : hold s v H -> length (v b) = BLOCK_SIZE.
Proof. intros [(A & I & Hok & _ & _ & Hv & _) _]. rewrite <-Hv. by apply contents_length. Qed.

Lemma wp_hold_read s v H b :
  hold s v H -> H !! b = None -> (size H < N_BUFFER)%nat ->
  wp (buffer_read 0 b) (fun (id : BufferId) s' => hold s' v (<[b := (id, true)]> H) /\ disk s' = disk s /\
    forall b' c, H !! b' <> Some (id, c)) s.
Proof.
  intros Hhold Hb Hsz. pose proof Hhold as [(A & I & Hok & Hcl & Hlen & Hv & HA) Hh].
  assert (HI : I <> []).
  { intros ->. pose proof (lr_all _ _ _ (co_rep _ _ _ Hok)) as Hp%Permutation_length.
    rewrite app_nil_r, length_seq in Hp. lia. }
  eapply wp_mono; [|apply (wp_buffer_read s A I b Hok); by left].
  intros id s' (A' & I' & Hpost). pose proof (read_view_clean _ _ _ _ _ _ _ _ Hok Hcl Hpost) as Hview.
  destruct Hpost as [Hok' Hin Hbn Hd _ Hcl' Hdisk Hoth Href _].
  assert (HnA : id ∉ A).
  { intros HidA. pose proof (Hoth id HidA) as [_ (_ & Hbb & _)].
    apply HA in HidA as (b' & c & Hb'). apply Hh in Hb' as Hb2. destruct Hb2 as [Hb2 _]. congruence. }
  destruct (Href HnA) as [Hr ->].
  assert (Hfresh : forall b' c, H !! b' <> Some (id, c)) by (intros b' c Hb'; apply HnA, HA; eauto).
  split_and!; [|done|done]. split.
  - exists (id :: A), I'. split_and!; [done|by apply Hcl'| |by intros b'; rewrite Hview|].
    + rewrite map_size_insert_None by done. simpl. lia.
    + intros i. rewrite elem_of_cons, HA. split.
      * intros [->|(b' & c & Hb')]; [exists b, true; by rewrite lookup_insert_eq|].
        exists b', c. rewrite lookup_insert_ne by congruence. done.
      * intros (b' & c & [[<- [= <- <-]]|[_ Hb']]%lookup_insert_Some); [by left|]. right. eauto.
  - intros b' i c [[<- [= <- <-]]|[Hne Hb']]%lookup_insert_Some.
    + split_and!; [done|done|by rewrite Hd|]. intros _. by rewrite Hdisk, (hold_disk s v H).
    + destruct (Hh _ _ _ Hb') as (H1 & H2 & H3 & H4). rewrite Hdisk.
      destruct (Hoth i) as [_ (E1 & E2 & _ & E4 & _)]; [apply HA; eauto|]. rewrite E1, E2, E4. done.
Qed.

Lemma wp_hold_load s v H b (id : BufferId) c : hold s v H -> H !! b = Some (id, c) ->
  wp (load_data id) (fun d s' => d = v b /\ s' = s) s.
Proof.
  intros Hhold Hb. destruct (hold_elem _ _ _ _ _ _ Hhold Hb) as (A & I & Hok & _ & _ & Hid & _).
  eapply wp_mono; [|by apply (wp_load_data s A I)]. intros d s' [-> ->]. split; [|done].
  by destruct (ho_held _ _ _ Hhold _ _ _ Hb) as (_ & _ & ? & _).
Qed.

Lemma hold_insert s s' v v' H b (id : BufferId) c c' :
  hold s v H -> H !! b = Some (id, c) ->
  (exists A I, cache_ok s A I /\ cache_ok s' A I /\ clean s' I /\ length A = size H /\
    (forall b, contents s' (A ++ I) b = v' b) /\ (forall i, i ∈ A <-> exists b c, H !! b = Some (i, c))) ->
  (forall b' i c0, <[b := (id, c')]> H !! b' = Some (i, c0) ->
    block_no (bufs s' i) = b' /\ refcnt (bufs s' i) = 1 /\ data (bufs s' i) = v' b' /\
    (c0 = true -> v' b' = disk_read (disk s') b')) ->
  hold s' v' (<[b := (id, c')]> H).
Proof.
  intros Hhold Hb (A & I & Hok & Hok' & Hcl & Hlen & Hv & HA) Hh. split; [|done].
  exists A, I. split_and!; [done|done| |done|].
  - by rewrite map_size_insert_Some by eauto.
  - intros i. rewrite HA. split; intros (b' & c0 & Hb').
    + destruct (decide (b' = b)) as [->|].
      * exists b, c'. rewrite lookup_insert_eq. congruence.
      * exists b', c0. by rewrite lookup_insert_ne.
    + apply lookup_insert_Some in Hb' as [[<- [= <- <-]]|[_ Hb']]; eauto.
Qed.

Lemma wp_hold_store s v H b (id : BufferId) c x : hold s v H -> H !! b = Some (id, c) -> length x = BLOCK_SIZE ->
  wp (store_data id x) (fun _ s' => hold s' (<[b := x]> v) (<[b := (id, false)]> H) /\ disk s' = disk s) s.
Proof.
  intros Hhold Hb Hx. destruct (hold_elem _ _ _ _ _ _ Hhold Hb) as (A & I & Hok & Hcl & Hlen & Hid & Hv & HA).
  eapply wp_mono; [|by apply (wp_store_data s A I)]. intros _ s' [Hok' Hview Hdisk Hd [Hbn Hr] Hoth Hcl'].
  destruct (ho_held _ _ _ Hhold _ _ _ Hb) as (Hb1 & Hb2 & _).
  split; [|done]. eapply hold_insert; [done|done| |].
  - exists A, I. split_and!; try (done || by apply Hcl'). intros b'. rewrite Hview, Hb1, Hv.
    destruct (Z.eqb_spec b' b) as [->|]; [by rewrite fn_lookup_insert|by rewrite fn_lookup_insert_ne].
  - intros b' i c0 [[<- [= <- <-]]|[Hne Hb']]%lookup_insert_Some.
    + rewrite fn_lookup_insert. split_and!; congruence.
    + rewrite fn_lookup_insert_ne, Hdisk by done. rewrite Hoth; [by apply (ho_held _ _ _ Hhold _ _ _ Hb')|].
      intros ->. apply Hne. by eapply hold_inj.
Qed.

Lemma wp_hold_write s v H b (id : BufferId) c : hold s v H -> H !! b = Some (id, c) ->
  wp (buffer_write id) (fun _ s' => hold s' v (<[b := (id, true)]> H) /\
    disk s' = disk_write (disk s) b (v b)) s.
Proof.
  intros Hhold Hb. destruct (hold_elem _ _ _ _ _ _ Hhold Hb) as (A & I & Hok & Hcl & Hlen & Hid & Hv & HA).
  destruct (ho_held _ _ _ Hhold _ _ _ Hb) as (Hb1 & Hb2 & Hb3 & _).
  eapply wp_mono; [|by apply (wp_buffer_write s A I)]. intros _ s' [Hok' Hview Hdisk Hsame Hcl'].
  rewrite Hb1, Hb3 in Hdisk. split; [|done]. eapply hold_insert; [done|done| |].
  - exists A, I. split_and!; try (done || by apply Hcl'). intros b'. by rewrite Hview.
  - intros b' i c0 Hi. destruct (Hsame i) as (E1 & E2 & _ & E4 & _). rewrite E1, E2, E4, Hdisk.
    apply lookup_insert_Some in Hi as [[<- [= <- <-]]|[Hne Hb']].
    + split_and!; try done. intros _. rewrite disk_read_same; [done|]. by eapply hold_length.
    + rewrite disk_read_other by done. by apply (ho_held _ _ _ Hhold _ _ _ Hb').
Qed.

Lemma wp_hold_release s v H b (id : BufferId) : hold s v H -> H !! b = Some (id, true) ->
  wp (buffer_release id) (fun _ s' => hold s' v (delete b H) /\ disk s' = disk s) s.
Proof.
  intros Hhold Hb. destruct (hold_elem _ _ _ _ _ _ Hhold Hb) as (A & I & Hok & Hcl & Hlen & Hid & Hv & HA).
  destruct (ho_held _ _ _ Hhold _ _ _ Hb) as (Hb1 & Hb2 & Hb3 & Hb4).
  eapply wp_mono; [|by apply (wp_buffer_release s A I)].
  intros _ s' (A' & I' & [Hok' Hview Hdisk Hl Hr Hoth Hcl' _]). rewrite Hb2 in Hl. destruct Hl as [-> ->].
  assert (Hnd : NoDup A).
  { destruct (rep_nodup _ _ _ (co_rep _ _ _ Hok)) as [Hnd _]. by apply NoDup_app in Hnd as (? & _). }
  split; [|done]. split.
  - exists (without id A), (id :: I). split_and!; [done|apply Hcl'; [done|]; intros _; rewrite Hb3, Hb1; by apply Hb4| |by intros b'; rewrite Hview|].
    + rewrite map_size_delete_Some by eauto. rewrite <-Hlen.
      rewrite <-(Permutation_length (without_cons_perm id A Hnd Hid)). simpl. lia.
    + intros i. rewrite elem_of_without, HA. split.
      * intros [Hne (b' & c & Hb')]. exists b', c. rewrite lookup_delete_ne; [done|]. congruence.
      * intros (b' & c & [Hne Hb']%lookup_delete_Some). split; [|eauto].
        intros ->. apply Hne. by eapply hold_inj.
  - intros b' i c [Hne Hb']%lookup_delete_Some. rewrite Hdisk, Hoth; [by apply (ho_held _ _ _ Hhold _ _ _ Hb')|].
    intros ->. apply Hne. by eapply hold_inj.
Qed.

(** The whole update of a block: [read], overwrite, [write], [release]. *)
Definition update_block (b : Z) (f : block -> block) : M bcache unit :=
  id ← buffer_read 0 b;
  x ← load_data id;
  store_data id (f x);;
  buffer_write id;;
  buffer_release id.

Lemma wp_update_block s v b f : quiet s v -> length (f (v b)) = BLOCK_SIZE ->
  wp (update_block b f) (fun _ s' => quiet s' (<[b := f (v b)]> v)) s.
Proof.
  intros Hq Hf. unfold update_block.
  wp_step. eapply wp_mono; [|apply (wp_hold_read s v ∅ b); [done|apply lookup_empty|vm_compute; lia]].
  intros id s1 (H1 & _ & _). rewrite insert_empty in H1. pose proof (lookup_singleton_eq b (id, true)) as L1.
  wp_step. eapply wp_mono; [|by apply (wp_hold_load s1 v _ b id true H1)]. intros x s1' [-> ->].
  wp_step. eapply wp_mono; [|by apply (wp_hold_store s1 v _ b id true _ H1)]. intros [] s2 [H2 _].
  rewrite insert_singleton_eq in H2. pose proof (lookup_singleton_eq b (id, false)) as L2.
  wp_step. eapply wp_mono; [|by apply (wp_hold_write s2 _ _ b id false H2)]. intros [] s3 [H3 _].
  rewrite insert_singleton_eq in H3. pose proof (lookup_singleton_eq b (id, true)) as L3.
  eapply wp_mono; [|by apply (wp_hold_release s3 _ _ b id H3)]. intros [] s4 [H4 _].
  by rewrite delete_singleton_eq in H4.
Qed.

Lemma wp_init_quiet d : wp buffer_init (fun _ s => quiet s (disk_read d)) (boot_cache d).
Proof.
  eapply wp_mono; [|apply wp_buffer_init]. intros [] s (Hok & Hcl & Hd & Hv). split.
  - exists [], (seq 0 N_BUFFER). split_and!; [done|done|by rewrite map_size_empty|done|].
    intros i. split; [set_solver|]. intros (b & c & Hb). by rewrite lookup_empty in Hb.
  - intros b i c Hb. by rewrite lookup_empty in Hb.
Qed.
End buffer_cache.
Arguments bcache : clear implicits.

Definition demo_cache : bcache ramdisk := final buffer_init (boot_cache ∅).

Lemma demo_cache_quiet : quiet demo_cache (ram_read ∅).
Proof. unfold demo_cache. apply (wp_final buffer_init (fun s => quiet s (ram_read ∅))). exact (wp_init_quiet (∅ : ramdisk)). Qed.

(** ** Properties *)

(** C3: whatever clients do with the cache from boot on, in any order (taking
    blocks, storing into held ones, writing them out, releasing them, written
    or not), it behaves as a store with two contents per block, [v] last stored
    and [w] last written: the disk has [w]; [read] returns a buffer of the block
    asked for with [v] when the block is held or [v] was written out, and
    otherwise, a store having been released unwritten, with [v] or [w]; and
    [read] returns whenever some buffer is not held. *)
Theorem cache_transparent {D} `{!BlockDevice D} (d : D) s0 s v w :
  buffer_init (boot_cache d) = Ret tt s0 ->
  rtc cache_step (s0, disk_read d, disk_read d) (s, v, w) ->
  (forall b, disk_read (disk s) b = w b) /\
  (forall b id s', buffer_read 0 b s = Ret id s' -> block_no (bufs s' id) = b /\
     (data (bufs s' id) = v b \/ data (bufs s' id) = w b /\ ~ in_use s b)) /\
  (forall b, (exists i, (i < N_BUFFER)%nat /\ refcnt (bufs s i) = 0) ->
     exists id s', buffer_read 0 b s = Ret id s').
Proof.
  intros Hinit Hrun.
  assert (Hinv : view_inv (s, v, w)).
  { eapply (rtc_ind_r view_inv (s0, disk_read d, disk_read d)); [|intros; by eapply cache_step_inv|done].
    pose proof (wp_at _ _ _ _ _ (wp_buffer_init d) Hinit) as (Hok & _ & Hd & Hv).
    exists [], (seq 0 N_BUFFER). split; [done|]. rewrite Hd. split; [done|]. intros b. left. apply Hv. }
  destruct Hinv as (A & I & Hok & Hw & Hv). split; [done|]. split.
  - intros b id s' Hr. destruct (read_returns s A I b id s' Hok Hr) as (A' & I' & Hp).
    split; [apply Hp|]. rewrite (rp_data _ _ _ _ _ _ _ _ Hp). apply Hv.
  - intros b (i & Hi & Hri).
    assert (HI : I <> []).
    { intros ->. apply (rep_nodup _ _ _ (co_rep _ _ _ Hok)) in Hi. rewrite app_nil_r in Hi.
      destruct (co_active _ _ _ Hok i Hi). lia. }
    pose proof (wp_buffer_read s A I b Hok (or_introl HI)) as (id & s' & Hr & _)%wp_elim. eauto.
Qed.

(** Block 3 taken, stored into, written out and released; taken again, it has
    what was stored. *)
Lemma cache_transparent_witness : let x := replicate BLOCK_SIZE 7 in
  exists id1 s1 s2 s3 s4 id5 s5, buffer_read 0 3 demo_cache = Ret id1 s1 /\ store_data id1 x s1 = Ret tt s2 /\
    buffer_write id1 s2 = Ret tt s3 /\ buffer_release id1 s3 = Ret tt s4 /\
    buffer_read 0 3 s4 = Ret id5 s5 /\ data (bufs s5 id5) = x.
Proof.
  set (x := replicate BLOCK_SIZE 7). cbv zeta.
  assert (Hi : buffer_init (boot_cache (∅ : ramdisk)) = Ret tt demo_cache).
  { unfold demo_cache, final. pose proof (wp_elim _ _ _ (wp_buffer_init (∅ : ramdisk))) as ([] & s & -> & _). reflexivity. }
  destruct (wp_elim _ _ _ (wp_hold_read demo_cache _ _ 3 demo_cache_quiet eq_refl ltac:(vm_compute; lia))) as (id & s1 & H1 & Hh1 & _ & _).
  rewrite insert_empty in Hh1. destruct (ho_held _ _ _ Hh1 3 id true (lookup_singleton_eq _ _)) as (Hb1 & Hr1 & _).
  destruct (wp_elim _ _ _ (wp_hold_store s1 _ _ 3 id true x Hh1 (lookup_singleton_eq _ _) (length_replicate _ _))) as ([] & s2 & H2 & Hh2 & _).
  rewrite insert_singleton_eq in Hh2. destruct (ho_held _ _ _ Hh2 3 id false (lookup_singleton_eq _ _)) as (Hb2 & Hr2 & _).
  destruct (wp_elim _ _ _ (wp_hold_write s2 _ _ 3 id false Hh2 (lookup_singleton_eq _ _))) as ([] & s3 & H3 & Hh3 & _).
  rewrite insert_singleton_eq in Hh3. destruct (ho_held _ _ _ Hh3 3 id true (lookup_singleton_eq _ _)) as (Hb3 & Hr3 & _).
  destruct (wp_elim _ _ _ (wp_hold_release s3 _ _ 3 id Hh3 (lookup_singleton_eq _ _))) as ([] & s4 & H4 & Hh4 & _).
  rewrite delete_singleton_eq in Hh4.
  destruct (wp_elim _ _ _ (wp_hold_read s4 _ _ 3 Hh4 eq_refl ltac:(vm_compute; lia))) as (id5 & s5 & H5 & _).
  assert (Hlt : (id < N_BUFFER)%nat).
  { destruct (hold_elem _ _ _ _ _ _ Hh3 (lookup_singleton_eq _ _)) as (A & I & Hok & _ & _ & Hid & _). apply (held_id _ _ _ _ Hok Hid). }
  exists id, s1, s2, s3, s4, id5, s5. split_and!; [done..|].
  refine (let '(conj _ (conj H _)) := cache_transparent (∅ : ramdisk) demo_cache s4 _ _ Hi
    (rtc_l _ _ _ _ (step_read demo_cache _ _ 3 id s1 H1)
    (rtc_l _ _ _ _ (step_store s1 _ _ id x s2 (conj Hlt _) (length_replicate _ _) H2)
    (rtc_l _ _ _ _ (step_write s2 _ _ id s3 (conj Hlt _) H3)
    (rtc_once _ _ (step_release s3 _ _ id s4 (conj Hlt _) H4))))) in _); [lia|lia|lia|].
  rewrite Hb1, Hb2 in H. destruct (H 3 id5 s5 H5) as [_ [E|[E _]]]; rewrite E, ?fn_lookup_insert; reflexivity.
Defined.

(** From a state in which no block is held, taking block [b], overwriting
    it, writing it out and releasing it ends with no block held, block [b]
    changed and every other block as it was; and in any such state the disk
    itself has every block as the clients see it, so nothing is lost when a
    clean buffer is recycled. *)
Theorem cache_update_durable {D} `{!BlockDevice D} (s : bcache D) v b f :
  quiet s v -> length (f (v b)) = BLOCK_SIZE ->
  wp (update_block b f) (fun _ s' => quiet s' (<[b := f (v b)]> v) /\
    forall b', disk_read (disk s') b' = if b' =? b then f (v b) else disk_read (disk s) b') s.
Proof.
  intros Hq Hf. eapply wp_mono; [|by apply (wp_update_block s v b f)].
  intros [] s' Hq'. split; [done|]. intros b'.
  rewrite (hold_disk s' _ ∅ b' Hq'), (hold_disk s _ ∅ b' Hq) by apply lookup_empty.
  destruct (Z.eqb_spec b' b) as [->|]; [by rewrite fn_lookup_insert|by rewrite fn_lookup_insert_ne].
Qed.

Lemma cache_update_durable_witness :
  wp (update_block 9 (fun _ => replicate BLOCK_SIZE 1)) (fun _ s' =>
    quiet s' (<[9 := replicate BLOCK_SIZE 1]> (ram_read ∅)) /\
    forall b', disk_read (disk s') b' =
      if b' =? 9 then replicate BLOCK_SIZE 1 else disk_read (disk demo_cache) b') demo_cache.
Proof.
  apply (cache_update_durable demo_cache (ram_read ∅) 9 (fun _ => replicate BLOCK_SIZE 1) demo_cache_quiet).
  apply length_replicate.
Defined.

(** A second [read] of a block that is still held does not count the new
    holder: the first [release] puts the buffer on the inactive list, and the
    second holder's [release] underflows the reference count and panics. *)
Example second_holder_release_panics :
  (buffer_init;;
   id ← buffer_read 0 5;
   id' ← buffer_read 0 5;
   buffer_release id;;
   buffer_release id') (boot_cache (∅ : ramdisk)) = Panic "attempt to subtract with overflow".
Proof. vm_compute. reflexivity. Qed.
