(* ===== verification/Debug.v ===== *)
(** * Diagnostics: dumps and the backtrace

    [PageTable::print], the dumps of the mmap warehouse ([mem/mmap.rs]) and of
    the buffer cache ([fs/buffer/mod.rs], the iterators of [lru.rs]), and the
    backtrace of the panic handler ([main.rs]). Each is a walk over a structure
    another file gives an invariant for; what it prints is the list of its
    lines, and the theorems say that the lines are that structure and that the
    walk ends. *)
From stdpp Require Import functions.
From S2P Require Import Prelude Addr PhysMem PageTable PtDestroy FreshPages PtCopy MmapWarehouse Lru BufferCache.

(** ** [PageTable::print] *)

Inductive pt_line :=
  | RootLine (pa : Z)
  | L1Line (i pa : Z)
  | L0Line (j pa : Z)
  | PageLine (k va pa flags : Z)
  | AssertLine (what : string) (x : Z).

Definition pa_in_any_region (pa : Z) : M pmem bool :=
  k ← kernel_region_info;
  u ← user_region_info;
  mret ((ri_begin k <=? pa) && (pa <? ri_end k) || (ri_begin u <=? pa) && (pa <? ri_end u)).

(** Sign extension of bit 38. *)
Definition sv39_canon (va : Z) : Z :=
  let sign := Z.land (Z.shiftr va 38) 1 in
  if sign =? 1 then Z.lor va (wrap64 (Z.shiftl USIZE_MAX 39)) else Z.land va (Z.shiftl 1 39 - 1).

(** The innermost loop; [inr] is the early return, with what was printed. *)
Definition print_l0 (i j pgtbl_0 : Z) (out : list pt_line) : M pmem (list pt_line + list pt_line) :=
  for_each (range 0 PGNUM) (fun out k =>
    pte0 ← load (entry pgtbl_0 k);
    if negb (is_valid pte0) then mret (inl out)
    else if negb (is_leaf pte0) then mret (inr (out ++ [AssertLine "L0 entry not leaf" k]))
    else
      let pa := pte_to_pa pte0 in
      let va_raw := Z.lor (Z.lor (Z.shiftl i 30) (Z.shiftl j 21)) (Z.shiftl k 12) in
      let va := sv39_canon va_raw in
      mret (inl (out ++ [PageLine k va pa (get_flags pte0)]))) out.

(** A loop over a higher table: the checks, the table's own line, the level below. *)
Definition print_level (names : string * string * string) (line : Z -> Z -> pt_line)
  (next : Z -> Z -> list pt_line -> M pmem (list pt_line + list pt_line)) (table : Z) (out : list pt_line)
  : M pmem (list pt_line + list pt_line) :=
  let '(not_table, unaligned, outside) := names in
  for_each (range 0 PGNUM) (fun out i =>
    pte ← load (entry table i);
    if negb (is_valid pte) then mret (inl out)
    else if negb (is_table pte) then mret (inr (out ++ [AssertLine not_table i]))
    else
      let pa := pte_to_pa pte in
      if negb (Z.land pa (PGSIZE - 1) =? 0) then mret (inr (out ++ [AssertLine unaligned pa]))
      else
        ok ← pa_in_any_region pa;
        if negb ok then mret (inr (out ++ [AssertLine outside pa]))
        else next i pa (out ++ [line i pa])) out.

Definition pt_print (root : Z) : M pmem (list pt_line) :=
  r ← print_level ("L2 entry is not table", "L1 pa not page-aligned", "L1 pa out of region") L1Line
        (fun i pgtbl_1 => print_level ("L1 entry is not table", "L0 pa not page-aligned", "L0 pa out of region") L0Line
          (fun j pgtbl_0 => print_l0 i j pgtbl_0) pgtbl_1) root [RootLine root];
  match r with inl out | inr out => mret out end.

(** ** The mmap warehouse *)

(** [node_index] on addresses: [base] is that of [node_list], [sz] the size of
    a node. *)
Definition node_index (base sz p : Z) : option Z :=
  if (p <? base) || (base + sz * Z.of_nat N_MMAP <=? p) then None else Some ((p - base) / sz).

(** [print_nodelist]: the indices on the free list. A pointer to node [i] is
    the address [base + sz * i]. *)
Definition print_nodelist (base sz : Z) : M MmapWarehouse (list (option Z)) :=
  warehouse_init;;
  h ← gets whead;
  loop (S (S N_MMAP)) (fun '(p, out) =>
    match p with
    | None => mret (inr out)
    | Some i =>
        nx ← gets (fun w => nnext (node_list w i));
        mret (inl (nx, out ++ [node_index base sz (base + sz * Z.of_nat i)]))
    end) (h, []).

(** [print_mmaplist]: begin and pages of each region of a process's list. *)
Definition print_mmaplist (head : option nat) : M MmapWarehouse (list (Z * Z)) :=
  loop (S (S N_MMAP)) (fun '(p, out) =>
    match p with
    | None => mret (inr out)
    | Some i =>
        r ← gets (MmapWarehouse.region_of i);
        mret (inl (mnext r, out ++ [(begin_ r, npages r)]))
    end) (head, []).

(** ** The buffer cache *)

(** [ActiveIter] and [InactiveIter]: the id to visit next. *)
Definition iter_active (c : LRUCache) : option BufferId := active_head c.
Definition iter_inactive (c : LRUCache) : option BufferId := inactive_head c.

(** [for id in iter]: the lines of one list. The address of the buffer's data,
    which the id fixes, is left out. *)
Definition dump_list (start : LRUCache -> option BufferId) : M LRUCache (list (BufferId * Z * Z)) :=
  c ← gets id;
  loop (S (S N_BUFFER)) (fun '(cur, out) =>
    match iter_next c cur with
    | None => mret (inr out)
    | Some (id, cur') =>
        b ← get_buffer id;
        mret (inl (cur', out ++ [(id, refcnt b, block_no b)]))
    end) (start c, []).

(** [debug_state] on the cache and [STATE_COUNTER]. *)
Definition debug_state : M (LRUCache * Z) (Z * list (BufferId * Z * Z) * list (BufferId * Z * Z)) :=
  state_num ← gets snd;
  modify (fun s => (s.1, wrap64 (s.2 + 1)));;
  active ← zoom fst (fun c s => (c, s.2)) (dump_list iter_active);
  inactive ← zoom fst (fun c s => (c, s.2)) (dump_list iter_inactive);
  mret (state_num, active, inactive).

(** ** The backtrace *)

(** One line: depth, frame pointer and return address, or the complaint. *)
Inductive frame_line := Frame (depth fp ra : Z) | InvalidFrame (fp : Z).

Definition PHYS_BASE : Z := 0x80000000.

(** Pointer arithmetic wraps; memory is read a word at a time. *)
Definition backtrace_step (st : Z * Z * list frame_line) : M pmem (Z * Z * list frame_line + list frame_line) :=
  let '(current_fp, depth, out) := st in
  if negb (current_fp =? 0) && (depth <? 20) then
    let ra_ptr := wrap64 (current_fp - 8) in
    let prev_fp_ptr := wrap64 (current_fp - 16) in
    if (PHYS_BASE <=? ra_ptr) && (PHYS_BASE <=? prev_fp_ptr) then
      ra ← load ra_ptr;
      prev_fp ← load prev_fp_ptr;
      mret (inl (prev_fp, depth + 1, out ++ [Frame depth current_fp ra]))
    else mret (inr (out ++ [InvalidFrame current_fp]))
  else mret (inr out).
Definition backtrace (fp : Z) : M pmem (list frame_line) := loop 21 backtrace_step (fp, 0, []).

(** ** Walks that only look *)

Section look.
Context {S : Type}.

(** A loop that appends to its output and leaves the state alone. *)
Lemma for_each_lines {X Y B} (g : X -> list Y) (body : list Y -> X -> M S (list Y + B)) xs s : forall out,
  (forall x out, x ∈ xs -> body out x s = Ret (inl (out ++ g x)) s) ->
  for_each xs body out s = Ret (inl (out ++ (xs ≫= g))) s.
Proof.
  induction xs as [|x xs IH]; intros out Hb; [by cbn; rewrite app_nil_r|].
  cbn [for_each]. erewrite bind_run by (apply Hb; left). rewrite bind_cons, app_assoc. apply IH.
  intros y out' Hy. apply Hb. by right.
Qed.

(** A walk along links that appends what it sees. *)
Lemma walk_lines {N Y} (link : N -> option N) (see : N -> Y) (body : option N * list Y -> M S (option N * list Y + list Y)) s
  (chain : option N -> list N -> Prop) :
  (forall l, chain None l -> l = []) -> (forall i l, chain (Some i) l -> exists l', l = i :: l' /\ chain (link i) l') ->
  (forall out, body (None, out) s = Ret (inr out) s) ->
  (forall i out, body (Some i, out) s = Ret (inl (link i, out ++ [see i])) s) ->
  forall l h out fuel, chain h l -> (length l < fuel)%nat -> loop fuel body (h, out) s = Ret (out ++ (see <$> l)) s.
Proof.
  intros Hnil Hcons Hn Hs l h out fuel. revert l h out. induction fuel as [|fuel IH]; intros l h out Hc Hlen; [lia|].
  cbn [loop]. destruct h as [i|].
  - destruct (Hcons i l Hc) as (l' & -> & Hc'). erewrite bind_run by apply Hs. cbv beta iota. cbn [length] in Hlen.
    rewrite (IH l') by (done || lia). by rewrite <-app_assoc.
  - rewrite (Hnil l Hc). erewrite bind_run by apply Hn. by rewrite app_nil_r.
Qed.
End look.

Lemma bind_assoc {A B C} (l : list A) (f : A -> list B) (g : B -> list C) : (l ≫= f) ≫= g = l ≫= fun x => f x ≫= g.
Proof. induction l as [|x l IH]; [done|]. by rewrite !bind_cons, bind_app, IH. Qed.

(** ** The page-table dump *)

Definition leaf_line (xe : Z * Z) : list (Z * Z * Z) := [(xe.1, pte_to_pa xe.2, get_flags xe.2)].
Definition page_lines (l : pt_line) : list (Z * Z * Z) := match l with PageLine _ va pa flags => [(va, pa, flags)] | _ => [] end.
Definition is_assert (l : pt_line) : bool := match l with AssertLine _ _ => true | _ => false end.

Section print.
Context {kb ub : RegionBounds} {s : pmem} {root : Z} {T : gmap (list Z) Z}.
Context (Hinv : pmem_inv kb ub s) (Hwf : pt_wf kb ub s root T).
Context (Htab : forall path p, T !! path = Some p -> in_bounds kb p \/ in_bounds ub p).
Context (Hleaf : forall i j t k, T !! [i; j] = Some t -> 0 <= k < PGNUM -> is_valid (mem s (entry t k)) = true -> is_leaf (mem s (entry t k)) = true).

Definition lines0 (i j l0 : Z) : list pt_line :=
  range 0 PGNUM ≫= fun k => let e := mem s (entry l0 k) in
    if negb (is_valid e) || negb (is_leaf e) then [] else [PageLine k (copy_va i j k) (pte_to_pa e) (get_flags e)].
Definition lines_below (path : list Z) (line : Z -> Z -> pt_line) (sub : Z -> Z -> list pt_line) : list pt_line :=
  range 0 PGNUM ≫= fun i => match T !! (path ++ [i]) with Some c => line i c :: sub i c | None => [] end.

Lemma print_l0_run i j l0 out : T !! [i; j] = Some l0 -> print_l0 i j l0 out s = Ret (inl (out ++ lines0 i j l0)) s.
Proof.
  intros Ht. apply for_each_lines. intros k out' Hk%elem_of_range. erewrite bind_run by reflexivity. cbv zeta.
  destruct (is_valid (mem s (entry l0 k))) eqn:Hv; cbn [negb orb]; [|by rewrite app_nil_r].
  by rewrite (Hleaf i j l0 k Ht Hk Hv).
Qed.

Lemma in_region_run pa : in_bounds kb pa \/ in_bounds ub pa -> pa_in_any_region pa s = Ret true s.
Proof.
  intros Hin. destruct (pi_region _ _ _ Hinv true) as [fl [Hk _ _ _ _]], (pi_region _ _ _ Hinv false) as [fl' [Hu _ _ _ _]]. simpl in Hk, Hu.
  unfold pa_in_any_region, kernel_region_info, user_region_info, region_info.
  unfold mbind, M_bind, gets. simpl. rewrite Hk. simpl. rewrite Hu. simpl. unfold mret, M_ret. f_equal.
  destruct Hin as [[Hin _]|[Hin _]]; apply orb_true_iff; [left|right]; apply andb_true_iff; split; Zb.
Qed.

Lemma print_level_run names line next sub path p out : T !! path = Some p -> (length path < 2)%nat ->
  (forall i c out, T !! (path ++ [i]) = Some c -> next i c out s = Ret (inl (out ++ sub i c)) s) ->
  print_level names line next p out s = Ret (inl (out ++ lines_below path line sub)) s.
Proof.
  intros Hp Hlen Hnext. destruct names as [[n1 n2] n3]. apply for_each_lines. intros i out' Hi%elem_of_range. erewrite bind_run by reflexivity.
  pose proof (wf_entry _ _ _ _ _ Hwf path p i Hp Hlen Hi) as He. destruct (is_valid (mem s (entry p i))) eqn:Hv; cbn [negb].
  2:{ rewrite He. by rewrite app_nil_r. }
  destruct He as [Hl He]. unfold is_table. rewrite Hv, Hl. cbn [negb andb]. rewrite He.
  rewrite land_pgmask_0 by apply pte_to_pa_aligned. cbn [negb]. erewrite bind_run by (eapply in_region_run, Htab; exact He).
  cbn [negb]. rewrite (Hnext i _ _ He). by rewrite <-app_assoc.
Qed.

Definition all_lines : list pt_line :=
  [RootLine root] ++ lines_below [] L1Line (fun i _ => lines_below [i] L0Line (fun j l0 => lines0 i j l0)).

Lemma pt_print_run : pt_print root s = Ret all_lines s.
Proof.
  unfold pt_print. erewrite bind_run; [|apply (print_level_run _ _ _ (fun i _ => lines_below [i] L0Line (fun j l0 => lines0 i j l0)) []);
    [apply Hwf|simpl; lia|]]; [reflexivity|].
  intros i c out Hc. apply (print_level_run _ _ _ (fun j l0 => lines0 i j l0) [i]); [done|simpl; lia|].
  intros j l0 out' H0. by apply print_l0_run.
Qed.

(** The page lines are the leaves. *)
Lemma all_lines_pages : all_lines ≫= page_lines = leaves2 (mem s) root ≫= leaf_line.
Proof.
  unfold all_lines. rewrite bind_app, bind_singleton. cbn [page_lines app]. unfold lines_below, leaves2. rewrite !bind_assoc.
  apply Forall_bind_ext, Forall_forall. intros i Hi%elem_of_range.
  pose proof (follow_entry Hwf (leaves1 (mem s) i) [] [] root i (wf_root _ _ _ _ _ Hwf) ltac:(simpl; lia) Hi) as Hf.
  cbv beta zeta in Hf |- *. rewrite Hf. clear Hf.
  destruct (T !! ([] ++ [i])) as [l1|] eqn:H1; [|done]. rewrite bind_cons. cbn [page_lines app]. unfold leaves1. rewrite !bind_assoc.
  apply Forall_bind_ext, Forall_forall. intros j Hj%elem_of_range.
  pose proof (follow_entry Hwf (leaves0 (mem s) i j) [] [i] l1 j H1 ltac:(simpl; lia) Hj) as Hf.
  cbv beta zeta in Hf |- *. rewrite Hf. clear Hf.
  cbn [app]. destruct (T !! [i; j]) as [l0|] eqn:H0; [|done]. rewrite bind_cons. cbn [page_lines app]. unfold lines0, leaves0. rewrite !bind_assoc.
  apply Forall_bind_ext, Forall_forall. intros k Hk. cbv zeta. by destruct (_ || _).
Qed.

Lemma all_lines_quiet : forall l, l ∈ all_lines -> is_assert l = false.
Proof.
  intros l [->%list_elem_of_singleton|(i & Hl & _)%list_elem_of_bind]%elem_of_app; [done|].
  destruct (T !! _) as [l1|]; [|by apply not_elem_of_nil in Hl]. apply elem_of_cons in Hl as [->|(j & Hl & _)%list_elem_of_bind]; [done|].
  destruct (T !! _) as [l0|]; [|by apply not_elem_of_nil in Hl]. apply elem_of_cons in Hl as [->|(k & Hl & _)%list_elem_of_bind]; [done|].
  cbv zeta in Hl. destruct (_ || _); [by apply not_elem_of_nil in Hl|]. by apply list_elem_of_singleton in Hl as ->.
Qed.
End print.

(** The lines of the leaves, by what they show. *)
Lemma leaf_lines_va (L : list (Z * Z)) : (L ≫= leaf_line).*1.*1 = L.*1.
Proof. induction L as [|x L IH]; [done|]. rewrite bind_cons, !fmap_app, IH. done. Qed.

Lemma elem_of_leaf_lines (L : list (Z * Z)) va pa flags :
  (va, pa, flags) ∈ L ≫= leaf_line <-> exists e, (va, e) ∈ L /\ pa = pte_to_pa e /\ flags = get_flags e.
Proof.
  rewrite list_elem_of_bind. unfold leaf_line. split.
  - intros ([x e] & [= -> -> ->]%list_elem_of_singleton & Hx). by exists e.
  - intros (e & He & -> & ->). exists (va, e). split; [by apply list_elem_of_singleton|done].
Qed.

(** [print] on an address space whose tables are kernel pages and whose
    last-level entries are leaves ends without an assertion line and without
    touching memory, and its page lines are exactly the translations of the
    tree: one line for each mapped page, with its virtual address, its frame
    and its flags, and none for an unmapped one. *)
Theorem pt_print_correct kb ub s root T :
  pmem_inv kb ub s -> pt_wf kb ub s root T -> (forall i l, is_Some (T !! (i :: l)) -> i < PGNUM / 2) -> space_ok kb ub s T ->
  exists out, pt_print root s = Ret out s /\ (forall l, l ∈ out -> is_assert l = false) /\
    NoDup (out ≫= page_lines).*1.*1 /\
    forall va pa flags, (va, pa, flags) ∈ out ≫= page_lines <->
      0 <= va < VA_MAX /\ va mod PGSIZE = 0 /\
      exists e, trans s T va = Some e /\ is_leaf e = true /\ pa = pte_to_pa e /\ flags = get_flags e.
Proof.
  intros Hinv Hwf Hlow [Htab Hleaf _ _]. exists (all_lines (s := s) (root := root) (T := T)).
  split; [apply (pt_print_run Hinv Hwf); [by left; eapply Htab|done]|]. split; [apply all_lines_quiet|].
  rewrite (all_lines_pages Hwf). split.
  - rewrite leaf_lines_va. apply (NoDup_leaves Hwf Hlow).
  - intros va pa flags. rewrite elem_of_leaf_lines. split.
    + intros (e & (Hx & Hal & Ht & Hl)%(leaves_trans Hwf Hlow) & -> & ->). by eauto 10.
    + intros (Hx & Hal & e & Ht & Hl & -> & ->). exists e. split; [by apply (leaves_trans Hwf Hlow)|done].
Qed.

Lemma pt_print_correct_witness : exists out, pt_print demo_root demo_mapped = Ret out demo_mapped /\
  (0x1000, demo_frame, get_flags demo_entry) ∈ out ≫= page_lines.
Proof.
  destruct (demo_map_tree (Z.lor PTE_R PTE_U)) as (T & Hinv & Hwf & Hr & _ & Htr & Hlow & Hkb).
  destruct (pt_print_correct demo_kb demo_ub demo_mapped demo_root T Hinv Hwf Hlow (demo_space_ok demo_mapped T Hwf Hr Hlow Hkb Htr))
    as (out & Hrun & _ & _ & Hlines). exists out. split; [exact Hrun|]. apply Hlines.
  assert (Hva : 0 <= 0x1000 < VA_MAX) by (vm_compute; split; [discriminate|reflexivity]).
  pose proof (Htr 0x1000 Hva) as He. change (in_range 0x1000 0x2000 0x1000) with true in He. cbv iota in He.
  split; [exact Hva|]. split; [reflexivity|]. exists demo_entry. split; [exact He|]. split; [apply demo_entry_facts|].
  split; [symmetry; apply demo_entry_facts|reflexivity].
Defined.

(** ** The list dumps *)

(** The pointer to a node has its index. *)
Lemma node_index_node base sz i : 0 < sz -> (i < N_MMAP)%nat -> node_index base sz (base + sz * Z.of_nat i) = Some (Z.of_nat i).
Proof.
  intros Hsz Hi. unfold node_index. assert (sz * Z.of_nat i < sz * Z.of_nat N_MMAP) by (apply Z.mul_lt_mono_pos_l; lia).
  rewrite (proj2 (Z.ltb_ge _ _)), (proj2 (Z.leb_gt _ _)) by nia. cbn [orb]. f_equal. replace (base + sz * Z.of_nat i - base) with (Z.of_nat i * sz) by lia. by apply Z.div_mul; lia.
Qed.

(** A chain is read off from its head. *)
Lemma wchain_nil nd l : wchain nd None l -> l = [].
Proof. destruct l; [done|by intros [? _]]. Qed.
Lemma wchain_cons nd i l : wchain nd (Some i) l -> exists l', l = i :: l' /\ wchain nd (nnext (nd i)) l'.
Proof. destruct l as [|j l]; [by intros [=]|]. intros [[= ->] Hl]. by exists l. Qed.

(** [print_nodelist] prints the free list, in order. *)
Lemma print_nodelist_correct base sz w fl : 0 < sz -> warehouse_ok w fl ->
  print_nodelist base sz w = Ret ((fun i => Some (Z.of_nat i)) <$> fl) w.
Proof.
  intros Hsz [Hi Hc Hnd Hr]. unfold print_nodelist. erewrite bind_run.
  2:{ unfold warehouse_init. erewrite bind_run by reflexivity. rewrite Hi. reflexivity. }
  erewrite bind_run by reflexivity.
  etrans; [apply (walk_lines (fun i => nnext (node_list w i)) (fun i => node_index base sz (base + sz * Z.of_nat i)) _ w
    (wchain (node_list w))) with (l := fl)|]; [by apply wchain_nil|by apply wchain_cons|done|done|done| |].
  - assert (Hle : (length fl <= length (seq 0 N_MMAP))%nat); [|rewrite length_seq in Hle; lia].
    apply submseteq_length, NoDup_submseteq; [done|]. intros i Hin%Hr. apply elem_of_seq. lia.
  - cbn [app]. f_equal. apply list_fmap_ext. intros n i Hin. apply node_index_node; [done|]. by eapply Hr, list_elem_of_lookup_2.
Qed.

(** A process's regions, linked by their [next] fields. *)
Fixpoint mchain (w : MmapWarehouse) (h : option nat) (l : list nat) : Prop :=
  match l with [] => h = None | i :: l' => h = Some i /\ mchain w (mnext (MmapWarehouse.region_of i w)) l' end.

Lemma print_mmaplist_correct w h l : mchain w h l -> (length l <= N_MMAP)%nat ->
  print_mmaplist h w = Ret ((fun i => let r := MmapWarehouse.region_of i w in (begin_ r, npages r)) <$> l) w.
Proof.
  intros Hc Hlen. unfold print_mmaplist.
  etrans; [apply (walk_lines (fun i => mnext (MmapWarehouse.region_of i w))
    (fun i => let r := MmapWarehouse.region_of i w in (begin_ r, npages r)) _ w (mchain w)) with (l := l)|]; [..|reflexivity].
  - intros [|j l']; [done|by intros [? _]].
  - intros i [|j l']; [by intros [=]|]. intros [[= ->] Hl]. by exists l'.
  - done.
  - done.
  - done.
  - lia.
Qed.

(** What one list of the cache shows of each buffer. *)
Definition buffer_line (c : LRUCache) (id : BufferId) : BufferId * Z * Z := (id, refcnt (buffers c id), block_no (buffers c id)).

Lemma dump_list_run (start : LRUCache -> option BufferId) c l :
  dlseg (nodes c) None (start c) l None -> (length l <= N_BUFFER)%nat -> dump_list start c = Ret (buffer_line c <$> l) c.
Proof.
  intros Hs Hlen. unfold dump_list. erewrite bind_run by reflexivity. cbn [id].
  etrans; [apply (walk_lines (fun i => next (nodes c i)) (buffer_line c) _ c
    (fun h l => exists p, dlseg (nodes c) p h l None)) with (l := l)|]; [..|reflexivity].
  - intros [|j l'] [p Hl]; [done|by destruct Hl].
  - intros i [|j l'] [p Hl]; [done|]. destruct Hl as ([= ->] & _ & Hl). by eauto.
  - done.
  - done.
  - by exists None.
  - lia.
Qed.

(** [debug_state] shows the two lists of the cache in order and counts its calls. *)
Lemma debug_state_correct c n A I : lru_rep c A I ->
  debug_state (c, n) = Ret (n, buffer_line c <$> A, buffer_line c <$> I) (c, wrap64 (n + 1)).
Proof.
  intros Hrep. pose proof (rep_length _ _ _ Hrep) as [HA HI]. unfold debug_state, zoom, mbind, M_bind, gets, modify. cbn [fst snd].
  rewrite (dump_list_run iter_active c A (lr_active _ _ _ Hrep) HA). cbn [fst snd].
  by rewrite (dump_list_run iter_inactive c I (lr_inactive _ _ _ Hrep) HI).
Qed.

(** ** The backtrace *)

(** The frames of the calls in progress: each keeps the return address below
    its frame pointer and the caller's frame pointer below that. *)
Fixpoint call_frames (m : Z -> Z) (fp : Z) (l : list (Z * Z)) : Prop :=
  match l with
  | [] => fp = 0
  | (f, ra) :: l' => fp = f /\ PHYS_BASE + 16 <= f < 2 ^ 64 /\ m (f - 8) = ra /\ call_frames m (m (f - 16)) l'
  end.
Definition frame_lines (d : Z) (l : list (Z * Z)) : list frame_line :=
  imap (fun i '(f, ra) => Frame (d + Z.of_nat i) f ra) l.

(** The three ways a step goes. *)
Lemma step_stop s fp d out : fp = 0 \/ 20 <= d -> backtrace_step (fp, d, out) s = Ret (inr out) s.
Proof.
  intros Hs. unfold backtrace_step. replace (_ && (d <? 20)) with false; [done|]. symmetry. apply andb_false_iff.
  destruct Hs as [->|Hd]; [by left|right]. by apply Z.ltb_ge.
Qed.

Lemma step_prints s fp d out : fp <> 0 -> d < 20 -> PHYS_BASE <= wrap64 (fp - 8) -> PHYS_BASE <= wrap64 (fp - 16) ->
  backtrace_step (fp, d, out) s = Ret (inl (mem s (wrap64 (fp - 16)), d + 1, out ++ [Frame d fp (mem s (wrap64 (fp - 8)))])) s.
Proof.
  intros Hf Hd H8 H16. unfold backtrace_step. rewrite (proj2 (Z.eqb_neq fp 0)), (proj2 (Z.ltb_lt d 20)) by done.
  cbn [negb andb]. by rewrite !(proj2 (Z.leb_le _ _)) by done.
Qed.

Lemma step_invalid s fp d out : fp <> 0 -> d < 20 -> wrap64 (fp - 8) < PHYS_BASE \/ wrap64 (fp - 16) < PHYS_BASE ->
  backtrace_step (fp, d, out) s = Ret (inr (out ++ [InvalidFrame fp])) s.
Proof.
  intros Hf Hd Hlow. unfold backtrace_step. rewrite (proj2 (Z.eqb_neq fp 0)), (proj2 (Z.ltb_lt d 20)) by done. cbn [negb andb].
  replace (_ && _) with false; [done|]. symmetry. apply andb_false_iff. rewrite !Z.leb_gt. done.
Qed.

Lemma backtrace_loop s l : forall n fp d out, call_frames (mem s) fp l -> d + Z.of_nat n = 20 ->
  loop (S n) backtrace_step (fp, d, out) s = Ret (out ++ frame_lines d (take n l)) s.
Proof.
  induction l as [|[f ra] l IH]; intros n fp d out Hc Hn; cbn [loop].
  - simpl in Hc. erewrite bind_run by (apply step_stop; by left). by rewrite take_nil, app_nil_r.
  - destruct Hc as (-> & Hf & Hra & Hc). unfold PHYS_BASE in Hf. destruct n as [|n].
    + erewrite bind_run by (apply step_stop; right; lia). by rewrite app_nil_r.
    + assert (Hw : wrap64 (f - 8) = f - 8 /\ wrap64 (f - 16) = f - 16)
        by (unfold wrap64, U64; change (2 ^ 64) with 18446744073709551616 in *; split; apply Z.mod_small; lia).
      destruct Hw as [H8 H16]. erewrite bind_run by (apply step_prints; unfold PHYS_BASE; lia). cbv beta iota.
      rewrite H8, H16, (IH n) by (done || lia). rewrite <-app_assoc, Hra. cbn [take]. unfold frame_lines. rewrite imap_cons.
      rewrite Z.add_0_r. cbn [app]. do 3 f_equal. apply imap_ext. intros i [g r] _. cbn. f_equal. lia.
Qed.

(** On a stack of call frames the backtrace prints the first twenty, innermost first. *)
Lemma backtrace_correct s fp l : call_frames (mem s) fp l -> backtrace fp s = Ret (frame_lines 0 (take 20 l)) s.
Proof. intros Hc. by apply (backtrace_loop s l 20 fp 0 []). Qed.

(** On any memory at all it ends, prints at most twenty lines and changes nothing. *)
Lemma backtrace_ends s fp : exists out, backtrace fp s = Ret out s /\ (length out <= 20)%nat.
Proof.
  assert (H : forall n fp d out, d + Z.of_nat n = 20 -> exists out', loop (S n) backtrace_step (fp, d, out) s = Ret (out ++ out') s /\
    (length out' <= n)%nat).
  { clear fp. induction n as [|n IH]; intros fp d out Hn; cbn [loop].
    - exists []. erewrite bind_run by (apply step_stop; right; lia). by rewrite app_nil_r.
    - destruct (decide (fp = 0)) as [->|Hf].
      { exists []. erewrite bind_run by (apply step_stop; by left). rewrite app_nil_r. split; [done|simpl; lia]. }
      destruct (decide (wrap64 (fp - 8) < PHYS_BASE \/ wrap64 (fp - 16) < PHYS_BASE)) as [Hlow|Hhigh].
      { eexists. erewrite bind_run by (apply step_invalid; done || lia). split; [reflexivity|simpl; lia]. }
      erewrite bind_run by (apply step_prints; lia). cbv beta iota.
      edestruct (IH (mem s (wrap64 (fp - 16))) (d + 1)) as (out' & Heq & Hl); [lia|]. cbn [loop] in Heq. rewrite Heq.
      eexists. rewrite <-app_assoc. split; [reflexivity|simpl; lia]. }
  destruct (H 20%nat fp 0 [] ltac:(lia)) as (out & Hrun & Hl). by exists out.
Qed.
