(* ===== verification/BufferList.v ===== *)
(** * The index-linked list of [fs/buffer_list.rs]

    Two circular lists, active and inactive, threaded through two arrays of
    indices with a sentinel each. No module of the kernel uses the file any
    more (the cache runs on [fs/buffer/lru.rs]); it promises the same two
    sequences, and the theorem shows that its links keep that promise. *)
From stdpp Require Import functions.
From S2P Require Import Prelude Lru.

Section list.
Context (MAX_BUFFERS : nat).

(** ** State and operations *)

Definition BufferIndex : Type := nat.
Definition BufferIndex_new {S} (idx : nat) : M S BufferIndex :=
  if (idx <? MAX_BUFFERS)%nat then mret idx else panic "BufferIndex out of bounds".

(** The arrays have [MAX_BUFFERS + 2] cells; indexing past them panics. *)
Record DoublyLinkedList := mkDll { dl_next : nat -> option BufferIndex; dl_prev : nat -> option BufferIndex }.
Definition DoublyLinkedList_new : DoublyLinkedList := mkDll (fun _ => None) (fun _ => None).

Definition in_array {S} (i : BufferIndex) : M S unit :=
  if (i <? MAX_BUFFERS + 2)%nat then mret tt else panic "index out of bounds".
Definition dll_next (node : BufferIndex) : M DoublyLinkedList (option BufferIndex) :=
  in_array node;; gets (fun d => dl_next d node).
Definition dll_prev (node : BufferIndex) : M DoublyLinkedList (option BufferIndex) :=
  in_array node;; gets (fun d => dl_prev d node).
Definition set_dl_next (i j : BufferIndex) : M DoublyLinkedList unit :=
  in_array i;; modify (fun d => mkDll (<[i := Some j]> (dl_next d)) (dl_prev d)).
Definition set_dl_prev (i j : BufferIndex) : M DoublyLinkedList unit :=
  in_array i;; modify (fun d => mkDll (dl_next d) (<[i := Some j]> (dl_prev d))).

Definition head_inactive : BufferIndex := MAX_BUFFERS.
Definition head_active : BufferIndex := (MAX_BUFFERS + 1)%nat.

Definition dll_init : M DoublyLinkedList unit :=
  set_dl_next head_active head_active;;
  set_dl_prev head_active head_active;;
  first ← BufferIndex_new 0;
  set_dl_next head_inactive first;;
  last ← BufferIndex_new (MAX_BUFFERS - 1);
  set_dl_prev head_inactive last;;
  for_each (B := Empty_set) (seq 0 MAX_BUFFERS) (fun (_ : unit) i =>
    idx ← BufferIndex_new i;
    n ← (if (i =? MAX_BUFFERS - 1)%nat then mret head_inactive else BufferIndex_new (i + 1));
    set_dl_next idx n;;
    p ← (if (i =? 0)%nat then mret head_inactive else BufferIndex_new (i - 1));
    set_dl_prev idx p;;
    mret (inl tt)) tt;;
  mret tt.

Definition insert_head (head node : BufferIndex) : M DoublyLinkedList unit :=
  o ← dll_next head;
  let first := default head o in
  set_dl_next head node;;
  set_dl_prev node head;;
  set_dl_next node first;;
  set_dl_prev first node.

Definition dll_remove (node : BufferIndex) : M DoublyLinkedList unit :=
  o ← dll_prev node;
  prev ← expect o "Node not in list";
  o ← dll_next node;
  next ← expect o "Node not in list";
  set_dl_next prev next;;
  set_dl_prev next prev.

Definition dll_lru : M DoublyLinkedList (option BufferIndex) :=
  o ← dll_prev head_inactive;
  match o with
  | None => mret None
  | Some prev => if (prev =? head_inactive)%nat then mret None else mret (Some prev)
  end.

(** [ListIterator]: where it stands and the head it stops at. *)
Record ListIterator := mkIter { current : option BufferIndex; it_head : BufferIndex }.
Definition iter_from (head : BufferIndex) : M DoublyLinkedList ListIterator :=
  o ← dll_next head; mret (mkIter o head).
Definition ListIterator_next (it : ListIterator) : M DoublyLinkedList (option BufferIndex * ListIterator) :=
  match current it with
  | None => mret (None, it)
  | Some c =>
      if (c =? it_head it)%nat then mret (None, it)
      else
        n ← dll_next c;
        mret (Some c, mkIter n (it_head it))
  end.

(** [iter_from(head)] driven to its end, as a [for] loop does. *)
Definition iter_collect (head : BufferIndex) : M DoublyLinkedList (list BufferIndex) :=
  it ← iter_from head;
  loop (S (S MAX_BUFFERS)) (fun '(it, out) =>
    '(o, it') ← ListIterator_next it;
    match o with
    | None => mret (inr out)
    | Some c => mret (inl (it', out ++ [c]))
    end) (it, []).

(** ** Links *)

(** From [a] through [l] to [b], each link there in both directions. *)
Fixpoint linked (nx pv : nat -> option nat) (a : nat) (l : list nat) (b : nat) : Prop :=
  match l with
  | [] => nx a = Some b /\ pv b = Some a
  | x :: l' => nx a = Some x /\ pv x = Some a /\ linked nx pv x l' b
  end.

Implicit Types (nx pv : nat -> option nat).

Lemma linked_frame nx pv nx' pv' l : forall a b, (forall u, u ∈ a :: l -> nx' u = nx u) -> (forall v, v ∈ b :: l -> pv' v = pv v) ->
  linked nx pv a l b -> linked nx' pv' a l b.
Proof.
  induction l as [|x l IH]; intros a b Hn Hp; simpl; rewrite Hn by set_solver.
  - by rewrite Hp by set_solver.
  - rewrite (Hp x) by set_solver. intros (Hx & Ha & Hl). split; [done|]. split; [done|]. apply IH; [set_solver|set_solver|done].
Qed.

Lemma linked_app nx pv l1 x l2 b : forall a, linked nx pv a (l1 ++ x :: l2) b <-> linked nx pv a l1 x /\ linked nx pv x l2 b.
Proof. induction l1 as [|y l1 IH]; intros a; simpl; [tauto|]. rewrite IH. tauto. Qed.

(** The last link, and the chain led elsewhere from it. *)
Lemma linked_last nx pv l : forall a b, linked nx pv a l b -> NoDup (a :: l) -> exists p, p ∈ a :: l /\ pv b = Some p /\ p = default a (last l) /\
  forall nx' pv' n, (forall u, u ∈ a :: l -> u <> p -> nx' u = nx u) -> (forall v, v ∈ l -> pv' v = pv v) ->
    nx' p = Some n -> pv' n = Some p -> linked nx' pv' a l n.
Proof.
  induction l as [|x l IH]; intros a b Hl Hnd.
  - exists a. destruct Hl as [_ Hp]. split; [set_solver|]. split; [done|]. split; [done|]. intros; done.
  - destruct Hl as (Hx & Ha & Hl). apply NoDup_cons in Hnd as [Ha' Hnd]. destruct (IH x b Hl Hnd) as (p & Hp & Hb & Heq & Hre).
    exists p. split; [set_solver|]. split; [done|]. split; [rewrite last_cons; by destruct (last l)|].
    intros nx' pv' n Hn' Hp' Hpn Hnp. simpl. rewrite Hn', Hp' by set_solver. split; [done|]. split; [done|]. apply Hre; set_solver.
Qed.

(** The first link, and the chain entered from elsewhere. *)
Lemma linked_first nx pv a l b : linked nx pv a l b -> NoDup (b :: l) -> exists n, n ∈ b :: l /\ nx a = Some n /\ n = default b (head l) /\
  forall nx' pv' p, (forall u, u ∈ l -> nx' u = nx u) -> (forall v, v ∈ b :: l -> v <> n -> pv' v = pv v) ->
    nx' p = Some n -> pv' n = Some p -> linked nx' pv' p l b.
Proof.
  destruct l as [|x l]; intros Hl Hnd.
  - exists b. destruct Hl as [Hn _]. split; [set_solver|]. split; [done|]. split; [done|]. intros; done.
  - destruct Hl as (Hx & Ha & Hl). exists x. split; [set_solver|]. split; [done|]. split; [done|].
    intros nx' pv' p Hn Hp Hpn Hnp. split; [done|]. split; [done|]. apply NoDup_cons in Hnd as [Hb [Hxl _]%NoDup_cons].
    eapply linked_frame; [| |done]; [set_solver|]. intros v Hv. apply Hp; set_solver.
Qed.

(** ** The two rings *)

Definition head_of (active : bool) : BufferIndex := if active then head_active else head_inactive.

(** [L true] and [L false] are the active and the inactive sequence. *)
Record dll_rep (d : DoublyLinkedList) (L : bool -> list BufferIndex) : Prop := {
  dr_ring : forall b, linked (dl_next d) (dl_prev d) (head_of b) (L b) (head_of b);
  dr_nodup : forall b, NoDup (L b);
  dr_range : forall b x, x ∈ L b -> (x < MAX_BUFFERS)%nat;
  dr_disj : forall x, x ∈ L true -> x ∉ L false;
}.

Lemma wp_in_array {S} i (Q : unit -> S -> Prop) s : (i < MAX_BUFFERS + 2)%nat -> Q tt s -> wp (in_array i) Q s.
Proof. intros Hi HQ. unfold in_array. by rewrite (proj2 (Nat.ltb_lt _ _)). Qed.

Lemma wp_index_new {S} i (Q : nat -> S -> Prop) s : (i < MAX_BUFFERS)%nat -> Q i s -> wp (BufferIndex_new i) Q s.
Proof. intros Hi HQ. unfold BufferIndex_new. by rewrite (proj2 (Nat.ltb_lt _ _)). Qed.

Lemma head_of_range b : (MAX_BUFFERS <= head_of b < MAX_BUFFERS + 2)%nat.
Proof. destruct b; unfold head_of, head_active, head_inactive; lia. Qed.

Section rep.
Context {d : DoublyLinkedList} {L : bool -> list BufferIndex} (Hrep : dll_rep d L).

Lemma head_fresh b c : head_of c ∉ L b.
Proof. intros Hin%(dr_range _ _ Hrep). pose proof (head_of_range c). lia. Qed.

Lemma node_range b u : u ∈ head_of b :: L b -> (u < MAX_BUFFERS + 2)%nat.
Proof. intros [->|Hin%(dr_range _ _ Hrep)]%elem_of_cons; [apply head_of_range|lia]. Qed.

Lemma ring_nodup b : NoDup (head_of b :: L b).
Proof. apply NoDup_cons. split; [apply head_fresh|apply Hrep]. Qed.

(** A node is on one ring. *)
Lemma rings_disjoint b u v : u ∈ head_of b :: L b -> v ∈ head_of (negb b) :: L (negb b) -> v <> u.
Proof.
  intros Hu Hv ->. apply elem_of_cons in Hu as [->|Hu], Hv as [Hh|Hv].
  - destruct b; unfold head_of, head_active, head_inactive in Hh; simpl in Hh; lia.
  - by apply head_fresh in Hv.
  - rewrite Hh in Hu. by apply head_fresh in Hu.
  - destruct b; by eapply (dr_disj _ _ Hrep).
Qed.

Lemma other_ring nx' pv' b p n : p ∈ head_of b :: L b -> n ∈ head_of b :: L b ->
  (forall u, u <> p -> nx' u = dl_next d u) -> (forall v, v <> n -> pv' v = dl_prev d v) ->
  linked nx' pv' (head_of (negb b)) (L (negb b)) (head_of (negb b)).
Proof.
  intros Hp Hn Hnx Hpv. eapply linked_frame; [| |apply (dr_ring _ _ Hrep)]; intros u Hu; [apply Hnx|apply Hpv]; intros ->.
  - exact (rings_disjoint b p p Hp Hu eq_refl).
  - exact (rings_disjoint b n n Hn Hu eq_refl).
Qed.

Lemma wp_dll_remove b x : x ∈ L b -> wp (dll_remove x) (fun _ d' => dll_rep d' (fun c => without x (L c))) d.
Proof.
  intros Hx. pose proof (dr_ring _ _ Hrep b) as Hring. pose proof (ring_nodup b) as Hnd.
  pose proof (dr_range _ _ Hrep b x Hx) as Hlt. assert (Hxo : x ∉ L (negb b)) by (intros H; apply (rings_disjoint b x x); [by right|by right|done]).
  pose proof Hx as Hx'. apply list_elem_of_split in Hx' as (l1 & l2 & Heq). rewrite Heq in Hring, Hnd. apply linked_app in Hring as [H1 H2].
  assert (Hd : NoDup (head_of b :: l1) /\ NoDup (head_of b :: l2) /\ (forall u, u ∈ head_of b :: l1 -> u ∉ l2) /\ (forall u, u ∈ head_of b :: l2 -> u ∉ l1)).
  { apply NoDup_cons in Hnd as [Hh (Hn1 & Hdis & [Hn2 Hn3]%NoDup_cons)%NoDup_app]. rewrite !NoDup_cons. set_solver. }
  destruct Hd as (Hnd1 & Hnd2 & Hd12 & Hd21).
  destruct (linked_last _ _ _ _ _ H1 Hnd1) as (p & Hp & Hpx & _ & Hlast). destruct (linked_first _ _ _ _ _ H2 Hnd2) as (n & Hn & Hnx & Hn' & _).
  assert (HpL : p ∈ head_of b :: L b) by (rewrite Heq; set_solver). assert (HnL : n ∈ head_of b :: L b) by (rewrite Heq; set_solver).
  unfold dll_remove, dll_prev, dll_next, set_dl_next, set_dl_prev. wp_step. wp_step. apply wp_in_array; [lia|]. wp_steps. rewrite Hpx.
  apply (wp_expect _ _ p); [done|]. wp_step. wp_step. apply wp_in_array; [lia|]. wp_steps. rewrite Hnx. apply (wp_expect _ _ n); [done|].
  wp_step. wp_step. apply wp_in_array; [by eapply node_range|]. wp_steps. apply wp_in_array; [by eapply node_range|]. wp_steps.
  cbn [dl_next dl_prev]. split; cbn [dl_next dl_prev].
  - intros c. destruct (decide (c = b)) as [->|Hc].
    + rewrite Heq, without_middle by (by apply NoDup_cons in Hnd as [_ ?]). destruct l2 as [|y l2]; simpl in Hn'; subst n.
      * rewrite app_nil_r. apply Hlast; [intros; by rewrite fn_lookup_insert_ne| |by rewrite fn_lookup_insert|by rewrite fn_lookup_insert].
        intros v Hv. rewrite fn_lookup_insert_ne; [done|]. apply NoDup_cons in Hnd1. set_solver.
      * apply linked_app. split.
        -- apply Hlast; [intros; by rewrite fn_lookup_insert_ne| |by rewrite fn_lookup_insert|by rewrite fn_lookup_insert].
           intros v Hv. rewrite fn_lookup_insert_ne; [done|]. set_solver.
        -- destruct H2 as (_ & _ & H2). apply NoDup_cons in Hnd2 as [Hh2 [Hy _]%NoDup_cons].
           eapply linked_frame; [| |exact H2]; intros u Hu; rewrite fn_lookup_insert_ne; set_solver.
    + replace c with (negb b) in * by (by destruct b, c). rewrite without_notin by done.
      apply (other_ring _ _ b p n); [done|done|..]; intros u Hu; by rewrite fn_lookup_insert_ne.
  - intros c. apply NoDup_filter, Hrep.
  - intros c y [_ Hy]%elem_of_without. by eapply (dr_range _ _ Hrep).
  - intros y [_ Hy]%elem_of_without [_ Hy']%elem_of_without. by eapply (dr_disj _ _ Hrep).
Qed.

Lemma wp_insert_head b x : (x < MAX_BUFFERS)%nat -> (forall c, x ∉ L c) ->
  wp (insert_head (head_of b) x) (fun _ d' => dll_rep d' (<[b := x :: L b]> L)) d.
Proof.
  intros Hlt Hx. pose proof (dr_ring _ _ Hrep b) as Hring. pose proof (ring_nodup b) as Hnd. pose proof (head_of_range b) as Hh.
  assert (Hxh : forall c, x <> head_of c) by (intros c ->; pose proof (head_of_range c); lia).
  destruct (linked_first _ _ _ _ _ Hring Hnd) as (n & Hn & Hnx & Hn' & Hfirst). pose proof (node_range b n Hn) as Hnr.
  unfold insert_head, dll_next, set_dl_next, set_dl_prev. wp_step. wp_step. apply wp_in_array; [lia|]. wp_steps. rewrite Hnx. change (default (head_of b) (Some n)) with n.
  repeat (apply wp_in_array; [lia|]; wp_steps). cbn [dl_next dl_prev]. split; cbn [dl_next dl_prev].
  - intros c. destruct (decide (c = b)) as [->|Hc].
    + rewrite fn_lookup_insert. assert (Hnx' : x <> n) by (intros <-; apply elem_of_cons in Hn as [Hn|Hn]; [by eapply Hxh|by eapply Hx]).
      split; [|split].
      * rewrite fn_lookup_insert_ne by done. by rewrite fn_lookup_insert.
      * rewrite fn_lookup_insert_ne by done. by rewrite fn_lookup_insert.
      * apply Hfirst; [| |by rewrite fn_lookup_insert|by rewrite fn_lookup_insert].
        -- intros u Hu. rewrite !fn_lookup_insert_ne; [done| |]; intros <-; [by eapply head_fresh|by eapply Hx].
        -- intros v Hv Hvn. rewrite !fn_lookup_insert_ne; [done| |done]. intros <-. apply elem_of_cons in Hv as [Hv|Hv]; [by eapply Hxh|by eapply Hx].
    + replace c with (negb b) in * by (by destruct b, c). rewrite fn_lookup_insert_ne by (by destruct b).
      assert (Hxo : x ∉ head_of (negb b) :: L (negb b)) by (intros [?|?]%elem_of_cons; [by eapply Hxh|by eapply Hx]).
      eapply linked_frame; [| |apply (dr_ring _ _ Hrep)]; intros u Hu; rewrite !fn_lookup_insert_ne; try done.
      * intros <-. eapply (rings_disjoint b (head_of b) (head_of b)); [left|exact Hu|done].
      * by intros <-.
      * by intros <-.
      * intros <-. exact (rings_disjoint b n n Hn Hu eq_refl).
  - intros c. destruct (decide (c = b)) as [->|Hc]; [rewrite fn_lookup_insert|rewrite fn_lookup_insert_ne by done]; [|apply Hrep].
    apply NoDup_cons. split; [apply Hx|apply Hrep].
  - intros c y. destruct (decide (c = b)) as [->|Hc]; [rewrite fn_lookup_insert|rewrite fn_lookup_insert_ne by done]; [|apply Hrep].
    intros [->|Hy]%elem_of_cons; [done|by eapply (dr_range _ _ Hrep)].
  - intros y Hy Hy'. destruct b.
    + rewrite fn_lookup_insert in Hy. rewrite fn_lookup_insert_ne in Hy' by done.
      apply elem_of_cons in Hy as [->|Hy]; [by eapply Hx|by eapply (dr_disj _ _ Hrep)].
    + rewrite fn_lookup_insert in Hy'. rewrite fn_lookup_insert_ne in Hy by done.
      apply elem_of_cons in Hy' as [->|Hy']; [by eapply Hx|by eapply (dr_disj _ _ Hrep)].
Qed.
Lemma dll_lru_run : dll_lru d = Ret (last (L false)) d.
Proof.
  destruct (linked_last _ _ _ _ _ (dr_ring _ _ Hrep false) (ring_nodup false)) as (p & _ & Hp & Heq & _). cbn [head_of] in Hp, Heq.
  unfold dll_lru, dll_prev, in_array. rewrite (proj2 (Nat.ltb_lt _ _)) by (unfold head_inactive; lia).
  erewrite bind_run by reflexivity. cbn [dl_prev]. rewrite Hp. change (p = default head_inactive (last (L false))) in Heq.
  destruct (last (L false)) as [y|] eqn:Hl; cbn in Heq; subst p.
  - rewrite (proj2 (Nat.eqb_neq _ _)); [done|]. intros ->. apply (head_fresh false false). by apply last_Some_elem_of.
  - by rewrite Nat.eqb_refl.
Qed.

Lemma next_run u : (u < MAX_BUFFERS + 2)%nat -> dll_next u d = Ret (dl_next d u) d.
Proof. intros Hu. unfold dll_next, in_array. by rewrite (proj2 (Nat.ltb_lt _ _)). Qed.

Lemma collect_loop b l : forall fuel a out, linked (dl_next d) (dl_prev d) a l (head_of b) -> (forall x, x ∈ l -> x ∈ L b) -> (length l < fuel)%nat ->
  loop fuel (fun '(it, out) =>
    '(o, it') ← ListIterator_next it;
    match o with
    | None => mret (inr out)
    | Some c => mret (inl (it', out ++ [c]))
    end) (mkIter (dl_next d a) (head_of b), out) d = Ret (out ++ l) d.
Proof.
  induction l as [|x l IH]; intros [|fuel] a out Hl Hin Hlen; simpl in Hlen; try lia; cbn [loop].
  - destruct Hl as [-> _]. erewrite bind_run; [|unfold ListIterator_next; cbn [current it_head]; rewrite Nat.eqb_refl; reflexivity].
    by rewrite app_nil_r.
  - destruct Hl as (-> & _ & Hl). assert (Hx : x ∈ L b) by (apply Hin; left).
    erewrite bind_run.
    2:{ unfold ListIterator_next. cbn [current it_head]. rewrite (proj2 (Nat.eqb_neq x (head_of b))) by (intros ->; by apply head_fresh in Hx).
        erewrite bind_run; [|erewrite bind_run by (apply next_run, (node_range b); by right); reflexivity]. reflexivity. }
    cbv beta iota. rewrite IH; [by rewrite <-app_assoc|done| |lia]. intros y Hy. apply Hin. by right.
Qed.

Lemma iter_collect_run b : iter_collect (head_of b) d = Ret (L b) d.
Proof.
  unfold iter_collect, iter_from. erewrite bind_run by (erewrite bind_run by (apply next_run, head_of_range); reflexivity).
  apply (collect_loop b (L b)); [apply Hrep|done|].
  assert (Hle : (length (L b) <= length (seq 0 MAX_BUFFERS))%nat); [|rewrite length_seq in Hle; unfold BufferIndex in *; lia].
  apply submseteq_length, NoDup_submseteq; [apply Hrep|]. intros x Hx%(dr_range _ _ Hrep). apply elem_of_seq. lia.
Qed.
End rep.

(** ** Initialisation *)

Lemma linked_seq nx pv n : forall k, (forall i, (k <= i <= k + n)%nat -> nx i = Some (S i) /\ pv (S i) = Some i) ->
  linked nx pv k (seq (S k) n) (S k + n).
Proof.
  induction n as [|n IH]; intros k Hk; cbn [seq linked].
  - rewrite Nat.add_0_r. apply Hk. lia.
  - split; [apply Hk; lia|]. split; [apply Hk; lia|]. replace (S k + S n)%nat with (S (S k) + n)%nat by lia.
    apply IH. intros i Hi. apply Hk. lia.
Qed.

(** What the loop has linked so far. *)
Record init_links (dn : list nat) (d : DoublyLinkedList) : Prop := {
  il_next : forall i, i ∈ dn -> dl_next d i = Some (S i);
  il_prev : forall i, i ∈ dn -> dl_prev d i = Some (if (i =? 0)%nat then MAX_BUFFERS else i - 1)%nat;
  il_inactive : dl_next d MAX_BUFFERS = Some 0%nat /\ dl_prev d MAX_BUFFERS = Some (MAX_BUFFERS - 1)%nat;
  il_active : dl_next d (MAX_BUFFERS + 1)%nat = Some (MAX_BUFFERS + 1)%nat /\ dl_prev d (MAX_BUFFERS + 1)%nat = Some (MAX_BUFFERS + 1)%nat;
}.

Definition initial_lists (active : bool) : list BufferIndex := if active then [] else seq 0 MAX_BUFFERS.

Lemma init_links_rep d : (0 < MAX_BUFFERS)%nat -> init_links (seq 0 MAX_BUFFERS) d -> dll_rep d initial_lists.
Proof.
  intros Hpos [Hn Hp [Hi1 Hi2] [Ha1 Ha2]]. split.
  - intros [|]; cbn [initial_lists head_of]; [done|]. unfold head_inactive. destruct MAX_BUFFERS as [|m]; [lia|]. cbn [seq linked].
    split; [done|]. split; [rewrite Hp by (apply elem_of_seq; lia); done|]. apply (linked_seq _ _ m 0). intros i Hi. split.
    + apply Hn, elem_of_seq. lia.
    + destruct (decide (i = m)) as [->|]; [rewrite Hi2; f_equal; lia|]. rewrite Hp by (apply elem_of_seq; lia). simpl. f_equal. lia.
  - intros []; [apply NoDup_nil_2|apply NoDup_seq].
  - intros [] x; cbn; [by intros ?%not_elem_of_nil|]. intros Hx%elem_of_seq. lia.
  - intros x Hx. by apply not_elem_of_nil in Hx.
Qed.

Lemma init_step dn i d : init_links dn d -> (i < MAX_BUFFERS)%nat ->
  init_links (dn ++ [i]) (mkDll (<[i := Some (S i)]> (dl_next d)) (<[i := Some (if (i =? 0)%nat then MAX_BUFFERS else i - 1)%nat]> (dl_prev d))).
Proof.
  intros [Hn Hp Hi Ha] Hlt. split; cbn [dl_next dl_prev].
  - intros j Hj. destruct (decide (j = i)) as [->|]; [by rewrite fn_lookup_insert|]. rewrite fn_lookup_insert_ne by done. apply Hn. set_solver.
  - intros j Hj. destruct (decide (j = i)) as [->|]; [by rewrite fn_lookup_insert|]. rewrite fn_lookup_insert_ne by done. apply Hp. set_solver.
  - by rewrite !fn_lookup_insert_ne by lia.
  - by rewrite !fn_lookup_insert_ne by lia.
Qed.

Lemma wp_dll_init d : (0 < MAX_BUFFERS)%nat -> wp dll_init (fun _ d' => dll_rep d' initial_lists) d.
Proof.
  intros Hpos. unfold dll_init, set_dl_next, set_dl_prev.
  do 2 (wp_step; wp_step; apply wp_in_array; [unfold head_active; lia|]; wp_step).
  wp_step. apply wp_index_new; [lia|]. wp_step. wp_step. apply wp_in_array; [unfold head_inactive; lia|]. wp_step.
  wp_step. apply wp_index_new; [lia|]. wp_step. wp_step. apply wp_in_array; [unfold head_inactive; lia|]. wp_step. wp_step.
  apply (wp_for_each (fun dn _ d' => init_links dn d')).
  - unfold head_active, head_inactive. split; cbn [dl_next dl_prev]; [by intros i ?%not_elem_of_nil|by intros i ?%not_elem_of_nil|..];
      split; try rewrite fn_lookup_insert_ne by lia; by rewrite fn_lookup_insert.
  - intros dn i rest [] d' Heq Hil. assert (Hlt : (i < MAX_BUFFERS)%nat).
    { assert (Hi : i ∈ seq 0 MAX_BUFFERS) by (rewrite Heq; apply elem_of_app; right; left). apply elem_of_seq in Hi. lia. }
    wp_step. apply wp_index_new; [done|]. wp_step.
    assert (Hnext : wp (if (i =? MAX_BUFFERS - 1)%nat then mret head_inactive else BufferIndex_new (i + 1)) (fun n d'' => n = S i /\ d'' = d') d').
    { destruct (Nat.eqb_spec i (MAX_BUFFERS - 1)); [apply wp_ret; unfold head_inactive; split; [lia|done]|apply wp_index_new; [lia|split; [lia|done]]]. }
    eapply wp_mono; [|exact Hnext]. intros n d'' [-> ->]. cbv beta. wp_step. wp_step. apply wp_in_array; [lia|]. wp_step. wp_step.
    match goal with |- wp _ _ ?st => assert (Hprev : wp (if (i =? 0)%nat then mret head_inactive else BufferIndex_new (i - 1))
      (fun p d'' => p = (if (i =? 0)%nat then MAX_BUFFERS else i - 1)%nat /\ d'' = st) st) end.
    { destruct (i =? 0)%nat; [by apply wp_ret|apply wp_index_new; [lia|done]]. }
    eapply wp_mono; [|exact Hprev]. intros p d'' [-> ->]. cbv beta. wp_step. wp_step. apply wp_in_array; [lia|]. wp_steps. exact (init_step dn i d' Hil Hlt).
  - intros [] d' Hil. wp_steps. by apply init_links_rep.
Qed.
End list.

(** ** Properties *)

(** C26: the links of [fs/buffer_list.rs] implement two sequences: [init] puts
    every index on the inactive one (and panics for a list of no buffers),
    removing a linked node takes it out of its sequence and touches no other,
    inserting an unlinked node at a head puts it in front, [lru] is the last of
    the inactive sequence, and the iterator from a head yields its sequence in
    order and stops. *)
Theorem buffer_list_refines MAX_BUFFERS :
  (forall d, if (0 <? MAX_BUFFERS)%nat then wp (dll_init MAX_BUFFERS) (fun _ d' => dll_rep MAX_BUFFERS d' (initial_lists MAX_BUFFERS)) d
     else dll_init MAX_BUFFERS d = Panic "BufferIndex out of bounds") /\
  forall d L, dll_rep MAX_BUFFERS d L ->
    (forall b x, x ∈ L b -> wp (dll_remove MAX_BUFFERS x) (fun _ d' => dll_rep MAX_BUFFERS d' (fun c => without x (L c))) d) /\
    (forall b x, (x < MAX_BUFFERS)%nat -> (forall c, x ∉ L c) ->
       wp (insert_head MAX_BUFFERS (head_of MAX_BUFFERS b) x) (fun _ d' => dll_rep MAX_BUFFERS d' (<[b := x :: L b]> L)) d) /\
    dll_lru MAX_BUFFERS d = Ret (last (L false)) d /\
    forall b, iter_collect MAX_BUFFERS (head_of MAX_BUFFERS b) d = Ret (L b) d.
Proof.
  split.
  - intros d. destruct (Nat.ltb_spec 0 MAX_BUFFERS) as [Hpos|Hz]; [by apply wp_dll_init|].
    assert (MAX_BUFFERS = 0%nat) as -> by lia. reflexivity.
  - intros d L Hrep. split; [intros b x; by apply wp_dll_remove|]. split; [intros b x; by apply wp_insert_head|].
    split; [by apply dll_lru_run|by apply iter_collect_run].
Qed.

Definition demo_list : DoublyLinkedList := Prelude.final (dll_init 3) DoublyLinkedList_new.

Lemma buffer_list_refines_witness :
  wp (dll_remove 3 2%nat;; insert_head 3 (head_active 3) 2%nat)
    (fun _ d' => dll_lru 3 d' = Ret (Some 1%nat) d' /\ iter_collect 3 (head_active 3) d' = Ret [2%nat] d') demo_list.
Proof.
  assert (H0 : dll_rep 3 demo_list (initial_lists 3)).
  { apply (wp_final (dll_init 3) (fun d => dll_rep 3 d (initial_lists 3))). exact (proj1 (buffer_list_refines 3) DoublyLinkedList_new). }
  destruct (proj2 (buffer_list_refines 3) _ _ H0) as (Hrem & _). apply wp_bind.
  eapply wp_mono; [|apply (Hrem false 2%nat); vm_compute; do 2 right; left]. intros [] d1 H1. cbv beta.
  destruct (proj2 (buffer_list_refines 3) _ _ H1) as (_ & Hins & _).
  eapply wp_mono; [|apply (Hins true 2%nat); [lia|]].
  - intros [] d2 H2. destruct (proj2 (buffer_list_refines 3) _ _ H2) as (_ & _ & Hlru & Hit). split; [exact Hlru|exact (Hit true)].
  - intros [] Hin; apply elem_of_without in Hin as [Hne _]; by apply Hne.
Defined.
