(* ===== verification/FsState.v ===== *)
(** * File-system state ([fs/fs.rs], the disk structures of [fs/inode.rs])

    The superblock, the on-disk inode and directory entry with their byte
    layout, and the state the file-system routines share: the buffer cache, the
    superblock once read, and the inode cache. *)
From stdpp Require Import functions.
From S2P Require Import Prelude Lru BufferCache.

(** ** Bytes of a block *)

(** [*data.add(i)], and the write of a run of bytes at an offset. *)
Definition byte_at (d : block) (i : nat) : Z := nth i d 0.
Definition splice (off : nat) (bs d : block) : block := take off d ++ bs ++ drop (off + length bs) d.
Definition slice (off n : nat) (d : block) : block := take n (drop off d).

(** [*(data as *const u32).add(i)] *)
Definition u32_at (d : block) (i : nat) : Z := le_value (slice (4 * i) 4 d).
Definition set_u32 (i : nat) (x : Z) (d : block) : block := splice (4 * i) (le_bytes 4 x) d.

Definition zero_block : block := replicate BLOCK_SIZE 0.

(** ** Disk structures *)

Definition MAGIC : Z := 0x10203040.

Record SuperBlock := mkSB {
  sb_magic : Z; sb_size : Z; sb_nblocks : Z; sb_ninodes : Z; sb_inode_start : Z; sb_bmap_start : Z;
}.
(** [ptr::read_unaligned(data as *const SuperBlock)] *)
Definition read_superblock (d : block) : SuperBlock :=
  mkSB (u32_at d 0) (u32_at d 1) (u32_at d 2) (u32_at d 3) (u32_at d 4) (u32_at d 5).

Definition ROOT_INODE : Z := 0.
Definition INODE_TYPE_DIR : Z := 1.
Definition INODE_TYPE_DATA : Z := 2.
Definition INODE_INDEX_1 : nat := 10.
Definition INODE_INDEX_2 : nat := 12.
Definition INODE_INDEX_3 : nat := 13.
Definition NINDIRECT : nat := 1024.
Definition MAXLEN_FILENAME : nat := 60.
Definition N_INODE : nat := 50.

Record InodeDisk := mkDinode {
  type_ : Z; major : Z; minor : Z; nlink : Z; size : Z; index_ : list Z;
}.
(** [size_of::<InodeDisk>()]: four [u16], a [u32] and thirteen [u32]. *)
Definition DINODE_SIZE : nat := 64.

(** The [repr(C)] bytes of an inode, and back. *)
Definition encode_dinode (n : InodeDisk) : list Z :=
  le_bytes 2 (type_ n) ++ le_bytes 2 (major n) ++ le_bytes 2 (minor n) ++ le_bytes 2 (nlink n) ++
  le_bytes 4 (size n) ++ flat_map (le_bytes 4) (index_ n).
Definition decode_dinode (bs : list Z) : InodeDisk :=
  mkDinode (le_value (slice 0 2 bs)) (le_value (slice 2 2 bs)) (le_value (slice 4 2 bs))
    (le_value (slice 6 2 bs)) (le_value (slice 8 4 bs))
    ((fun k => le_value (slice (12 + 4 * k) 4 bs)) <$> seq 0 INODE_INDEX_3).

Record Inode := mkInode { idisk : InodeDisk; ivalid : bool; inode_num : Z; irefcnt : Z }.
Definition Inode_new : Inode :=
  mkInode (mkDinode 0 0 0 0 0 (replicate INODE_INDEX_3 0)) false 0 0.

Definition set_idisk d n := mkInode d (ivalid n) (inode_num n) (irefcnt n).
Definition set_ivalid v n := mkInode (idisk n) v (inode_num n) (irefcnt n).
Definition set_inode_num x n := mkInode (idisk n) (ivalid n) x (irefcnt n).
Definition set_irefcnt x n := mkInode (idisk n) (ivalid n) (inode_num n) x.
Definition set_index i x (d : InodeDisk) :=
  mkDinode (type_ d) (major d) (minor d) (nlink d) (size d) (<[i := x]> (index_ d)).
Definition set_size x (d : InodeDisk) :=
  mkDinode (type_ d) (major d) (minor d) (nlink d) x (index_ d).
Definition set_type x (d : InodeDisk) :=
  mkDinode x (major d) (minor d) (nlink d) (size d) (index_ d).
Definition set_nlink x (d : InodeDisk) :=
  mkDinode (type_ d) (major d) (minor d) x (size d) (index_ d).

Section state.
Context {D : Type} `{!BlockDevice D}.

(** [CACHE] and the disk, [SB], and [INODE_CACHE]; an [&mut Inode] is the
    index of its slot. *)
Record fsys := mkFs { bc : bcache D; SB : option SuperBlock; icache : nat -> Inode }.
Definition set_bc b s := mkFs b (SB s) (icache s).
Definition set_SB x s := mkFs (bc s) x (icache s).
Definition set_icache f s := mkFs (bc s) (SB s) f.
Definition upd_inode (ip : nat) (f : Inode -> Inode) (s : fsys) : fsys :=
  set_icache (<[ip := f (icache s ip)]> (icache s)) s.

(** A buffer-cache call *)
Definition buf {A} (m : M (bcache D) A) : M fsys A := zoom bc set_bc m.

Definition get_sb : M fsys SuperBlock :=
  o ← gets SB; expect o "SuperBlock not initialized - call fs_init() first".

(** [fs_init] up to the self-tests: read and check the superblock. *)
Definition fs_init_superblock : M fsys unit :=
  b ← buf (buffer_read 0 0);
  d ← buf (load_data b);
  let sb := read_superblock d in
  buf (buffer_release b);;
  if negb (sb_magic sb =? MAGIC) then panic "fs_init: invalid file system magic"
  else
    modify (fun s => match SB s with Some _ => s | None => set_SB (Some sb) s end);;
    get_sb;;
    mret tt.
End state.
Arguments fsys : clear implicits.

(** ** Layout facts *)

Definition is_block (d : block) : Prop := length d = BLOCK_SIZE /\ Forall (fun b => 0 <= b < 256) d.

Lemma length_splice off bs d : (off + length bs <= length d)%nat -> length (splice off bs d) = length d.
Proof. intros H. unfold splice. rewrite !length_app, length_take, length_drop. lia. Qed.

Lemma slice_splice off bs d : (off + length bs <= length d)%nat ->
  slice off (length bs) (splice off bs d) = bs.
Proof.
  intros H. unfold slice, splice.
  rewrite drop_app_ge by (rewrite length_take; lia). rewrite length_take.
  replace (off - off `min` length d)%nat with 0%nat by lia. rewrite drop_0.
  by rewrite take_app_length.
Qed.

Lemma slice_splice_before off bs d o n : (off + length bs <= length d)%nat -> (o + n <= off)%nat ->
  slice o n (splice off bs d) = slice o n d.
Proof.
  intros H Ho. unfold slice, splice.
  rewrite drop_app_le by (rewrite length_take; lia).
  rewrite take_app_le by (rewrite length_drop, length_take; lia).
  rewrite skipn_firstn_comm, take_take. f_equal. lia.
Qed.

Lemma slice_splice_after off bs d o n : (off + length bs <= length d)%nat -> (off + length bs <= o)%nat ->
  slice o n (splice off bs d) = slice o n d.
Proof.
  intros H Ho. unfold slice, splice.
  rewrite app_assoc, drop_app_ge by (rewrite length_app, length_take; lia).
  rewrite length_app, length_take, drop_drop. f_equal. f_equal. lia.
Qed.

Lemma slice_splice_other off bs d o n : (off + length bs <= length d)%nat ->
  (o + n <= off \/ off + length bs <= o)%nat -> slice o n (splice off bs d) = slice o n d.
Proof. intros H [Ho|Ho]; [by apply slice_splice_before|by apply slice_splice_after]. Qed.

Lemma splice_lookup off bs d (k : nat) : (off + length bs <= length d)%nat ->
  splice off bs d !! k = if decide (off <= k < off + length bs)%nat then bs !! (k - off)%nat else d !! k.
Proof.
  intros Hl. unfold splice. destruct (decide (k < off)%nat) as [Hk|Hk].
  - rewrite lookup_app_l by (rewrite length_take; lia). rewrite lookup_take_lt by done. by rewrite decide_False by lia.
  - rewrite lookup_app_r by (rewrite length_take; lia). rewrite length_take, Nat.min_l by lia.
    destruct (decide (off <= k < off + length bs)%nat) as [Hin|Hout].
    + by rewrite lookup_app_l by lia.
    + rewrite lookup_app_r by lia. rewrite lookup_drop. f_equal. lia.
Qed.

Lemma is_block_splice off bs d : is_block d -> (off + length bs <= BLOCK_SIZE)%nat ->
  Forall (fun b => 0 <= b < 256) bs -> is_block (splice off bs d).
Proof.
  intros [Hl Hb] Hoff Hbs. split; [by rewrite length_splice by lia|].
  unfold splice. rewrite !Forall_app. split_and!; [by apply Forall_take|done|by apply Forall_drop].
Qed.

Lemma u32_at_set i x d : (4 * i + 4 <= length d)%nat -> 0 <= x < U32 -> u32_at (set_u32 i x d) i = x.
Proof.
  intros Hi Hx. unfold u32_at, set_u32.
  pose proof (slice_splice (4 * i) (le_bytes 4 x) d) as Hs. rewrite length_le_bytes in Hs.
  rewrite Hs by lia. by apply le_value_bytes.
Qed.

Lemma u32_at_set_ne i j x d : (4 * i + 4 <= length d)%nat -> i <> j -> u32_at (set_u32 i x d) j = u32_at d j.
Proof.
  intros Hi Hne. unfold u32_at, set_u32. rewrite slice_splice_other; [done|rewrite length_le_bytes; lia..].
Qed.

Lemma u32_at_zero i : u32_at zero_block i = 0.
Proof.
  unfold u32_at, slice, zero_block. rewrite drop_replicate, take_replicate.
  assert (Hz : forall n, le_value (replicate n 0) = 0) by (induction n as [|n IH]; simpl; [done|by rewrite IH]).
  apply Hz.
Qed.

Lemma is_block_zero : is_block zero_block.
Proof. split; [apply length_replicate|]. apply Forall_replicate. lia. Qed.

Lemma u32_at_range d i : is_block d -> 0 <= u32_at d i < U32.
Proof.
  intros [Hl Hb]. unfold u32_at.
  assert (Hs : Forall (fun b => 0 <= b < 256) (slice (4 * i) 4 d)) by by apply Forall_take, Forall_drop.
  apply le_value_bound in Hs as [? Hlt]. split; [done|]. eapply Z.lt_le_trans; [done|].
  unfold slice. rewrite length_take. transitivity (256 ^ 4); [|done]. apply Z.pow_le_mono_r; lia.
Qed.

(** Values the fields of a disk inode can hold. *)
Record dinode_ok (n : InodeDisk) : Prop := {
  dk_type : 0 <= type_ n < U16; dk_major : 0 <= major n < U16; dk_minor : 0 <= minor n < U16;
  dk_nlink : 0 <= nlink n < U16; dk_size : 0 <= size n < U32;
  dk_len : length (index_ n) = INODE_INDEX_3;
  dk_index : Forall (fun x => 0 <= x < U32) (index_ n);
}.

Lemma length_encode_dinode n : length (index_ n) = INODE_INDEX_3 -> length (encode_dinode n) = DINODE_SIZE.
Proof.
  intros Hl. unfold encode_dinode. rewrite !length_app, !length_le_bytes.
  assert (Hj : forall l, length (flat_map (le_bytes 4) l) = (4 * length l)%nat).
  { induction l as [|x l IH]; [done|]. cbn [flat_map].
    rewrite length_app, length_le_bytes, IH. simpl. lia. }
  by rewrite Hj, Hl.
Qed.

Lemma encode_dinode_bytes n : Forall (fun b => 0 <= b < 256) (encode_dinode n).
Proof.
  unfold encode_dinode. rewrite !Forall_app. split_and!; try apply le_bytes_range.
  induction (index_ n) as [|x l IH]; [constructor|]. cbn [flat_map].
  apply Forall_app. split; [apply le_bytes_range|done].
Qed.

Lemma decode_encode_dinode n : dinode_ok n -> decode_dinode (encode_dinode n) = n.
Proof.
  intros [Ht Hma Hmi Hnl Hs Hl Hi]. destruct n as [t ma mi nl sz ix]. simpl in *.
  unfold INODE_INDEX_3 in Hl.
  do 13 (destruct ix as [|? ix]; [done|]). destruct ix; [|done].
  rewrite !Forall_cons in Hi. destruct_and! Hi.
  unfold decode_dinode, encode_dinode, slice. cbn [app flat_map fmap list_fmap type_ major minor nlink size index_
    le_bytes take drop seq INODE_INDEX_3 Nat.add Nat.mul].
  unfold U16, U32 in *.
  f_equal; [by apply (le_value_bytes 2)..|by apply (le_value_bytes 4)|].
  do 12 (f_equal; [by apply (le_value_bytes 4)|]). f_equal. by apply (le_value_bytes 4).
Qed.

(** ** Holding blocks, at the file-system level *)

Section fs_rules.
Context {D : Type} `{!BlockDevice D}.
Implicit Types (s : fsys D) (v : Z -> block) (H : gmap Z (BufferId * bool)).

Record fs_hold s v H (sb : SuperBlock) (ic : nat -> Inode) : Prop := {
  fh_sb : SB s = Some sb;
  fh_ic : icache s = ic;
  fh_hold : hold (bc s) v H;
}.

Lemma wp_get_sb s v H sb ic Q : fs_hold s v H sb ic -> Q sb s -> wp get_sb Q s.
Proof. intros [Hsb _ _] HQ. unfold get_sb. wp_steps. by rewrite Hsb. Qed.

Lemma wp_fs_read s v H sb ic b Q : fs_hold s v H sb ic -> H !! b = None -> (base.size H < N_BUFFER)%nat ->
  (forall (id : BufferId) s', fs_hold s' v (<[b := (id, true)]> H) sb ic -> Q id s') ->
  wp (buf (buffer_read 0 b)) Q s.
Proof.
  intros [Hsb Hic Hh] Hb Hsz HQ. unfold buf. wp_step.
  eapply wp_mono; [|by apply (wp_hold_read (bc s) v H b)]. intros id b' (Hh' & _). apply HQ. by split.
Qed.

Lemma wp_fs_load s v H sb ic b (id : BufferId) c Q : fs_hold s v H sb ic -> H !! b = Some (id, c) ->
  Q (v b) s -> wp (buf (load_data id)) Q s.
Proof.
  intros [Hsb Hic Hh] Hb HQ. unfold buf. wp_step.
  eapply wp_mono; [|by apply (wp_hold_load (bc s) v H b id c)]. intros d b' [-> ->]. by destruct s.
Qed.

Lemma wp_fs_store s v H sb ic b (id : BufferId) c x Q : fs_hold s v H sb ic -> H !! b = Some (id, c) ->
  length x = BLOCK_SIZE ->
  (forall s', fs_hold s' (<[b := x]> v) (<[b := (id, false)]> H) sb ic -> Q tt s') ->
  wp (buf (store_data id x)) Q s.
Proof.
  intros [Hsb Hic Hh] Hb Hx HQ. unfold buf. wp_step.
  eapply wp_mono; [|by apply (wp_hold_store (bc s) v H b id c)]. intros [] b' (Hh' & _). apply HQ. by split.
Qed.

Lemma wp_fs_write s v H sb ic b (id : BufferId) c Q : fs_hold s v H sb ic -> H !! b = Some (id, c) ->
  (forall s', fs_hold s' v (<[b := (id, true)]> H) sb ic -> Q tt s') ->
  wp (buf (buffer_write id)) Q s.
Proof.
  intros [Hsb Hic Hh] Hb HQ. unfold buf. wp_step.
  eapply wp_mono; [|by apply (wp_hold_write (bc s) v H b id c)]. intros [] b' (Hh' & _). apply HQ. by split.
Qed.

Lemma wp_fs_release s v H sb ic b (id : BufferId) Q : fs_hold s v H sb ic -> H !! b = Some (id, true) ->
  (forall s', fs_hold s' v (delete b H) sb ic -> Q tt s') ->
  wp (buf (buffer_release id)) Q s.
Proof.
  intros [Hsb Hic Hh] Hb HQ. unfold buf. wp_step.
  eapply wp_mono; [|by apply (wp_hold_release (bc s) v H b id)]. intros [] b' (Hh' & _). apply HQ. by split.
Qed.

(** Held-set bookkeeping. *)
Lemma held_again b (x y : BufferId * bool) H : <[b := x]> (<[b := y]> H) = <[b := x]> H.
Proof. apply insert_insert_eq. Qed.
Lemma held_released b (x : BufferId * bool) H : H !! b = None -> delete b (<[b := x]> H) = H.
Proof. apply delete_insert_id. Qed.
Lemma size_held b (x : BufferId * bool) H : H !! b = None -> base.size (<[b := x]> H) = S (base.size H).
Proof. apply map_size_insert_None. Qed.
(** Boot: [buffer::init], then the superblock is read and accepted. *)
Definition boot_fs (d : D) : fsys D := mkFs (boot_cache d) None (fun _ => Inode_new).

Lemma wp_fs_boot d : sb_magic (read_superblock (disk_read d 0)) = MAGIC ->
  wp (buf buffer_init;; fs_init_superblock)
    (fun _ s => fs_hold s (disk_read d) ∅ (read_superblock (disk_read d 0)) (fun _ => Inode_new)) (boot_fs d).
Proof.
  intros Hmagic. unfold buf, fs_init_superblock. do 2 wp_step. eapply wp_mono; [|apply wp_init_quiet]. intros [] c0 H0. cbn [bc set_bc boot_fs].
  wp_step. unfold buf. wp_step. eapply wp_mono; [|apply (wp_hold_read _ _ ∅ 0 H0); [apply lookup_empty|vm_compute; lia]].
  intros id c1 (H1 & _ & _). pose proof (lookup_insert_eq (∅ : gmap Z (BufferId * bool)) 0 (id, true)) as L1.
  do 2 wp_step. eapply wp_mono; [|apply (wp_hold_load _ _ _ 0 id true H1 L1)]. intros x c1' [-> ->]. cbn [bc set_bc].
  do 2 wp_step. eapply wp_mono; [|apply (wp_hold_release _ _ _ 0 id H1 L1)]. intros [] c2 [H2 _]. rewrite delete_insert_id in H2 by apply lookup_empty.
  rewrite Hmagic, Z.eqb_refl. cbn [negb]. unfold get_sb. wp_steps. cbn. wp_steps. by split.
Qed.
End fs_rules.
