(* ===== verification/Bitmap.v ===== *)
(** * Block and inode bitmaps ([fs/bitmap.rs], [alloc]/[free] of [fs/inode.rs])

    Both bitmaps are one block, scanned byte by byte and bit by bit for the
    first clear bit. The scan is shared; the theorems give each allocator's
    effect on the blocks the clients see. *)
From stdpp Require Import functions.
From S2P Require Import Prelude Lru BufferCache FsState.

Section bitmap.
Context {D : Type} `{!BlockDevice D}.
Implicit Types (s : fsys D) (v : Z -> block) (H : gmap Z (BufferId * bool)).

(** ** Operations *)

(** [*data.add(i)] and [*data.add(i) = x] on a held buffer *)
Definition load_byte (b i : nat) : M (fsys D) Z := d ← buf (load_data b); mret (byte_at d i).
Definition store_byte (b i : nat) (x : Z) : M (fsys D) unit :=
  d ← buf (load_data b); buf (store_data b (<[i := x]> d)).

(** The two nested loops: [found] runs at the first clear bit. *)
Definition scan_bits {A} (b : nat) (found : nat -> nat -> M (fsys D) A) : M (fsys D) (unit + A) :=
  for_each (seq 0 BLOCK_SIZE) (fun _ i =>
    byte ← load_byte b i;
    if negb (byte =? 0xFF) then
      for_each (seq 0 8) (fun _ j =>
        if Z.land byte (Z.shiftl 1 (Z.of_nat j)) =? 0 then a ← found i j; mret (inr a)
        else mret (inl tt)) tt
    else mret (inl tt)) tt.

Definition bitmap_alloc : M (fsys D) Z :=
  sb ← get_sb;
  let bmap_start := sb_bmap_start sb in
  b ← buf (buffer_read 0 bmap_start);
  let total_data_blocks := sb_nblocks sb in
  r ← scan_bits b (fun i j =>
    let bit_idx := Z.of_nat (i * 8 + j) in
    if total_data_blocks <=? wrap32 bit_idx then
      buf (buffer_release b);;
      panic "buffer_alloc: out of blocks"
    else
      byte ← load_byte b i;
      store_byte b i (Z.lor byte (Z.shiftl 1 (Z.of_nat j)));;
      buf (buffer_write b);;
      buf (buffer_release b);;
      data_start ← uadd32 bmap_start 1;
      abs_block ← uadd32 data_start (wrap32 bit_idx);
      zero_buf ← buf (buffer_read 0 abs_block);
      buf (store_data zero_buf zero_block);;
      buf (buffer_write zero_buf);;
      buf (buffer_release zero_buf);;
      mret abs_block);
  match r with
  | inr abs_block => mret abs_block
  | inl _ =>
      buf (buffer_release b);;
      panic "buffer_alloc: out of blocks"
  end.

Definition bitmap_free (block_no : Z) : M (fsys D) unit :=
  sb ← get_sb;
  let bmap_start := sb_bmap_start sb in
  data_start ← uadd32 bmap_start 1;
  top ← uadd32 data_start (sb_nblocks sb);
  if (block_no <? data_start) || (top <=? block_no) then panic "buffer_free: block out of data range"
  else
    let bit_idx := Z.to_nat (block_no - data_start) in
    b ← buf (buffer_read 0 bmap_start);
    let byte_idx := (bit_idx / 8)%nat in
    let bit := Z.of_nat (bit_idx mod 8) in
    val ← load_byte b byte_idx;
    if Z.land val (Z.shiftl 1 bit) =? 0 then panic "buffer_free: block already free"
    else
      store_byte b byte_idx (Z.land val (255 - Z.shiftl 1 bit));;
      buf (buffer_write b);;
      buf (buffer_release b).

(** [inode::alloc] and [inode::free] *)
Definition inode_alloc : M (fsys D) Z :=
  sb ← get_sb;
  ibmap_block ← usub32 (sb_inode_start sb) 1;
  b ← buf (buffer_read 0 ibmap_block);
  let total_inodes := sb_ninodes sb in
  r ← scan_bits b (fun i j =>
    let bit_idx := Z.of_nat (i * 8 + j) in
    if total_inodes <=? wrap32 bit_idx then
      buf (buffer_release b);;
      panic "inode_alloc: out of inodes"
    else
      byte ← load_byte b i;
      store_byte b i (Z.lor byte (Z.shiftl 1 (Z.of_nat j)));;
      buf (buffer_write b);;
      buf (buffer_release b);;
      mret (wrap32 bit_idx));
  match r with
  | inr inum => mret inum
  | inl _ =>
      buf (buffer_release b);;
      panic "inode_alloc: out of inodes"
  end.

Definition inode_free (inode_idx : Z) : M (fsys D) unit :=
  sb ← get_sb;
  ibmap_block ← usub32 (sb_inode_start sb) 1;
  b ← buf (buffer_read 0 ibmap_block);
  let byte_idx := Z.to_nat (inode_idx / 8) in
  let bit := inode_idx mod 8 in
  val ← load_byte b byte_idx;
  if Z.land val (Z.shiftl 1 bit) =? 0 then panic "inode_free: inode already free"
  else
    store_byte b byte_idx (Z.land val (255 - Z.shiftl 1 bit));;
    buf (buffer_write b);;
    buf (buffer_release b).

(** ** Bits of a block *)

Definition bit (d : block) (k : nat) : bool := Z.testbit (byte_at d (k / 8)) (Z.of_nat (k mod 8)).
Definition set_bit (k : nat) (d : block) : block :=
  <[(k / 8)%nat := Z.lor (byte_at d (k / 8)) (Z.shiftl 1 (Z.of_nat (k mod 8)))]> d.
Definition clear_bit (k : nat) (d : block) : block :=
  <[(k / 8)%nat := Z.land (byte_at d (k / 8)) (255 - Z.shiftl 1 (Z.of_nat (k mod 8)))]> d.

(** The number of bits in a block. *)
Definition NBITS : nat := BLOCK_SIZE * 8.

Definition first_clear (d : block) (k : nat) : Prop :=
  (k < NBITS)%nat /\ bit d k = false /\ forall k', (k' < k)%nat -> bit d k' = true.

Lemma byte_at_range d i : is_block d -> 0 <= byte_at d i < 256.
Proof.
  intros [Hl Hb]. unfold byte_at. destruct (nth_in_or_default i d 0) as [Hin| ->]; [|lia].
  rewrite Forall_forall in Hb. apply Hb, list_elem_of_In, Hin.
Qed.

Lemma byte_at_insert d i j x : (i < length d)%nat ->
  byte_at (<[i := x]> d) j = if decide (j = i) then x else byte_at d j.
Proof.
  intros Hi. unfold byte_at. rewrite !nth_lookup.
  destruct (decide (j = i)) as [->|Hne]; [by rewrite list_lookup_insert_eq|].
  by rewrite list_lookup_insert_ne.
Qed.

(** Setting or clearing one bit of a byte. *)
Lemma byte_set_bit x j j' : 0 <= x < 256 -> 0 <= j < 8 -> 0 <= j' < 8 ->
  Z.testbit (Z.lor x (Z.shiftl 1 j)) j' = (if j' =? j then true else Z.testbit x j').
Proof.
  intros Hx Hj Hj'. rewrite Z.lor_spec, Z.shiftl_1_l, Z.pow2_bits_eqb by lia.
  destruct (Z.eqb_spec j j'), (Z.eqb_spec j' j); try lia; by rewrite ?orb_true_r, ?orb_false_r.
Qed.

Lemma byte_clear_bit x j j' : 0 <= x < 256 -> 0 <= j < 8 -> 0 <= j' < 8 ->
  Z.testbit (Z.land x (255 - Z.shiftl 1 j)) j' = (if j' =? j then false else Z.testbit x j').
Proof.
  intros Hx Hj Hj'. rewrite Z.land_spec.
  assert (Hc : Z.testbit (255 - Z.shiftl 1 j) j' = negb (j' =? j)).
  { assert (Hall : forallb (fun a => forallb (fun b => Bool.eqb (Z.testbit (255 - Z.shiftl 1 a) b) (negb (b =? a)))
      (seqZ 0 8)) (seqZ 0 8) = true) by reflexivity.
    rewrite forallb_forall in Hall. specialize (Hall j). rewrite forallb_forall in Hall.
    apply Bool.eqb_prop, Hall; apply list_elem_of_In, elem_of_seqZ; lia. }
  rewrite Hc. by destruct (j' =? j); simpl; rewrite ?andb_false_r, ?andb_true_r.
Qed.

Lemma byte_lor_range x j : 0 <= x < 256 -> 0 <= j < 8 -> 0 <= Z.lor x (Z.shiftl 1 j) < 256.
Proof.
  intros Hx Hj. assert (Hnn : 0 <= Z.lor x (Z.shiftl 1 j)) by (apply Z.lor_nonneg; split; [lia|apply Z.shiftl_nonneg; lia]).
  split; [done|]. destruct (Z.eq_dec (Z.lor x (Z.shiftl 1 j)) 0) as [->|]; [lia|].
  apply (Z.log2_lt_pow2 _ 8); [lia|]. rewrite Z.log2_lor by (try apply Z.shiftl_nonneg; lia).
  rewrite Z.shiftl_1_l, Z.log2_pow2 by lia. apply Z.max_lub_lt; [|lia].
  destruct (Z.eq_dec x 0) as [->|]; [done|]. apply Z.log2_lt_pow2; lia.
Qed.

Lemma byte_land_range x y : 0 <= x < 256 -> 0 <= y -> 0 <= Z.land x y < 256.
Proof.
  intros Hx Hy. split; [apply Z.land_nonneg; lia|].
  destruct (Z.eq_dec (Z.land x y) 0) as [->|]; [lia|].
  assert (0 <= Z.land x y) by (apply Z.land_nonneg; lia).
  destruct (Z.eq_dec x 0) as [->|]; [by rewrite Z.land_0_l in *|].
  apply (Z.log2_lt_pow2 _ 8); [lia|]. eapply Z.le_lt_trans; [apply Z.log2_land; lia|].
  apply Z.min_lt_iff. left. apply Z.log2_lt_pow2; lia.
Qed.

Lemma byte_full x : 0 <= x < 256 -> (forall j, 0 <= j < 8 -> Z.testbit x j = true) -> x = 0xFF.
Proof.
  intros Hx Hall. change 0xFF with (Z.ones 8). apply Z.bits_inj'. intros i Hi.
  rewrite Z.testbit_ones_nonneg by lia. destruct (Z.ltb_spec i 8); [by apply Hall|].
  apply (testbit_high x 8); [done|lia].
Qed.

Lemma bit_index k : (k < NBITS)%nat -> (k / 8 < BLOCK_SIZE)%nat /\ (k mod 8 < 8)%nat /\ (k = 8 * (k / 8) + k mod 8)%nat.
Proof.
  unfold NBITS. intros Hk. pose proof (Nat.div_mod_eq k 8). pose proof (Nat.mod_upper_bound k 8). lia.
Qed.

Lemma bit_ne k k' : k <> k' -> (k / 8)%nat = (k' / 8)%nat -> (k mod 8 <> k' mod 8)%nat.
Proof. intros Hne Hd Hm. apply Hne. rewrite (Nat.div_mod_eq k 8), (Nat.div_mod_eq k' 8). lia. Qed.

(** Setting a bit sets that bit and no other. *)
Lemma bit_set_bit d k k' : is_block d -> (k < NBITS)%nat ->
  bit (set_bit k d) k' = if decide (k' = k) then true else bit d k'.
Proof.
  intros Hd Hk. destruct (bit_index k Hk) as (H1 & H2 & _). unfold bit, set_bit.
  rewrite byte_at_insert by (destruct Hd; lia).
  destruct (decide (k' / 8 = k / 8)%nat) as [Heq|Hne].
  - pose proof (Nat.mod_upper_bound k' 8). rewrite byte_set_bit by (apply byte_at_range || lia; done).
    case_decide as Hkk; [subst; by rewrite Z.eqb_refl|].
    rewrite (proj2 (Z.eqb_neq _ _)); [by rewrite Heq|]. pose proof (bit_ne k' k Hkk Heq). lia.
  - case_decide; [by subst|done].
Qed.

Lemma bit_clear_bit d k k' : is_block d -> (k < NBITS)%nat ->
  bit (clear_bit k d) k' = if decide (k' = k) then false else bit d k'.
Proof.
  intros Hd Hk. destruct (bit_index k Hk) as (H1 & H2 & _). unfold bit, clear_bit.
  rewrite byte_at_insert by (destruct Hd; lia).
  destruct (decide (k' / 8 = k / 8)%nat) as [Heq|Hne].
  - pose proof (Nat.mod_upper_bound k' 8). rewrite byte_clear_bit by (apply byte_at_range || lia; done).
    case_decide as Hkk; [subst; by rewrite Z.eqb_refl|].
    rewrite (proj2 (Z.eqb_neq _ _)); [by rewrite Heq|]. pose proof (bit_ne k' k Hkk Heq). lia.
  - case_decide; [by subst|done].
Qed.

Lemma is_block_insert d i x : is_block d -> 0 <= x < 256 -> is_block (<[i := x]> d).
Proof. intros [Hl Hb] Hx. split; [by rewrite length_insert|]. by apply Forall_insert. Qed.

Lemma is_block_set_bit d k : is_block d -> is_block (set_bit k d).
Proof.
  intros Hd. apply is_block_insert; [done|]. apply byte_lor_range; [by apply byte_at_range|].
  pose proof (Nat.mod_upper_bound k 8). lia.
Qed.

Lemma is_block_clear_bit d k : is_block d -> is_block (clear_bit k d).
Proof.
  intros Hd. apply is_block_insert; [done|]. apply byte_land_range; [by apply byte_at_range|].
  pose proof (Nat.mod_upper_bound k 8). rewrite Z.shiftl_1_l.
  assert (2 ^ Z.of_nat (k mod 8) <= 2 ^ 7) by (apply Z.pow_le_mono_r; lia). lia.
Qed.

(** ** The scan *)

Lemma for_each_skip {S X B} (body : unit -> X -> M S (unit + B)) l1 l2 st :
  (forall x, x ∈ l1 -> body tt x st = Ret (inl tt) st) ->
  for_each (l1 ++ l2) body tt st = for_each l2 body tt st.
Proof.
  induction l1 as [|x l1 IH]; intros Hl; simpl; [done|].
  rewrite (bind_run _ _ _ _ _ (Hl x ltac:(set_solver))). apply IH. set_solver.
Qed.

Lemma load_byte_run s v H sb ic b (id : BufferId) c i : fs_hold s v H sb ic -> H !! b = Some (id, c) ->
  load_byte id i s = Ret (byte_at (v b) i) s.
Proof.
  intros Hh Hb. unfold load_byte.
  destruct (wp_elim (buf (load_data id)) (fun d s' => d = v b /\ s' = s) s) as (d & s' & Hr & -> & ->).
  - eapply wp_fs_load; [done|done|done].
  - by rewrite (bind_run _ _ _ _ _ Hr).
Qed.

Lemma seq_split n i : (i < n)%nat -> seq 0 n = seq 0 i ++ i :: seq (S i) (n - S i).
Proof. intros Hi. replace n with (i + S (n - S i))%nat at 1 by lia. by rewrite seq_app. Qed.

Section scan.
Context (s : fsys D) (v : Z -> block) (H : gmap Z (BufferId * bool)) (sb : SuperBlock) (ic : nat -> Inode).
Context (b : Z) (id : BufferId) (c : bool).
Context (Hh : fs_hold s v H sb ic) (Hb : H !! b = Some (id, c)) (Hblk : is_block (v b)).

Lemma scan_full_byte {A} (found : nat -> nat -> M (fsys D) A) i :
  (forall j, (j < 8)%nat -> bit (v b) (8 * i + j) = true) ->
  (byte ← load_byte id i;
    if negb (byte =? 0xFF) then
      for_each (seq 0 8) (fun _ j =>
        if Z.land byte (Z.shiftl 1 (Z.of_nat j)) =? 0 then a ← found i j; mret (inr a)
        else mret (inl tt)) tt
    else mret (inl tt)) s = Ret (inl tt) s.
Proof.
  intros Hfull. rewrite (bind_run _ _ _ _ _ (load_byte_run s v H sb ic b id c i Hh Hb)).
  rewrite (byte_full (byte_at (v b) i)); [done|by apply byte_at_range|].
  intros j Hj. specialize (Hfull (Z.to_nat j) ltac:(lia)). unfold bit in Hfull.
  rewrite Nat.mul_comm, Nat.div_add_l, Nat.div_small, Nat.add_0_r in Hfull by lia.
  rewrite Nat.add_comm, Nat.Div0.mod_add, Nat.mod_small, Z2Nat.id in Hfull by lia. done.
Qed.

Lemma scan_bits_found {A} (found : nat -> nat -> M (fsys D) A) k : first_clear (v b) k ->
  scan_bits id found s = (a ← found (k / 8)%nat (k mod 8)%nat; mret (inr a)) s.
Proof.
  intros (Hk & Hclr & Hset). destruct (bit_index k Hk) as (Hi & Hj & Heq).
  unfold scan_bits. rewrite (seq_split BLOCK_SIZE (k / 8)) by done.
  rewrite for_each_skip.
  2:{ intros i [_ Hlt]%elem_of_seq. apply scan_full_byte. intros j Hj'. apply Hset. lia. }
  cbn [for_each]. unfold mbind at 1, M_bind at 1.
  rewrite (bind_run _ _ _ _ _ (load_byte_run s v H sb ic b id c (k / 8) Hh Hb)).
  assert (Hff : (byte_at (v b) (k / 8) =? 0xFF) = false).
  { apply Z.eqb_neq. intros Hff. unfold bit in Hclr. rewrite Hff in Hclr.
    change 0xFF with (Z.ones 8) in Hclr. rewrite Z.testbit_ones_nonneg in Hclr by lia.
    apply Z.ltb_ge in Hclr. lia. }
  rewrite Hff. cbn [negb]. rewrite (seq_split 8 (k mod 8)) by done. rewrite for_each_skip.
  2:{ intros j [_ Hlt]%elem_of_seq. rewrite land_bit by lia.
      specialize (Hset (8 * (k / 8) + j)%nat ltac:(lia)). unfold bit in Hset.
      rewrite Nat.mul_comm, Nat.div_add_l, (Nat.div_small j), Nat.add_0_r in Hset by lia.
      rewrite Nat.add_comm, Nat.Div0.mod_add, Nat.mod_small in Hset by lia. by rewrite Hset. }
  cbn [for_each]. unfold mbind, M_bind. rewrite land_bit by lia. fold (bit (v b) k). rewrite Hclr. simpl.
  destruct (found _ _ s) as [a s'|w|w]; done.
Qed.

Lemma scan_bits_none {A} (found : nat -> nat -> M (fsys D) A) :
  (forall k, (k < NBITS)%nat -> bit (v b) k = true) -> scan_bits id found s = Ret (inl tt) s.
Proof.
  intros Hall. unfold scan_bits. rewrite <-(app_nil_r (seq 0 BLOCK_SIZE)), for_each_skip; [done|].
  intros i [_ Hlt]%elem_of_seq. apply scan_full_byte. intros j Hj. apply Hall. unfold NBITS. lia.
Qed.
End scan.

(** ** Allocation and release *)

Lemma wp_store_byte s v H sb ic b (id : BufferId) c i x Q :
  fs_hold s v H sb ic -> H !! b = Some (id, c) ->
  (forall s', fs_hold s' (<[b := <[i := x]> (v b)]> v) (<[b := (id, false)]> H) sb ic -> Q tt s') ->
  wp (store_byte id i x) Q s.
Proof.
  intros Hh Hb HQ. unfold store_byte. wp_step. eapply wp_fs_load; [done|done|].
  eapply wp_fs_store; [done|done| |done]. rewrite length_insert. eapply hold_length, Hh.
Qed.

(** Store a byte of a held block, write the block, release it and go on. *)
Lemma wp_put_byte {A} s v H sb ic b (id : BufferId) i x (m : M (fsys D) A) Q :
  fs_hold s v (<[b := (id, true)]> H) sb ic -> H !! b = None ->
  (forall s', fs_hold s' (<[b := <[i := x]> (v b)]> v) H sb ic -> wp m Q s') ->
  wp (store_byte id i x;; buf (buffer_write id);; buf (buffer_release id);; m) Q s.
Proof.
  intros Hh Hb HQ. wp_step. eapply wp_store_byte; [done|by rewrite lookup_insert_eq|].
  intros s1 H1. rewrite held_again in H1. wp_step. eapply wp_fs_write; [done|by rewrite lookup_insert_eq|].
  intros s2 H2. rewrite held_again in H2. wp_step. eapply wp_fs_release; [done|by rewrite lookup_insert_eq|].
  intros s3 H3. rewrite held_released in H3 by done. by apply HQ.
Qed.

Lemma wp_put_byte_end s v H sb ic b (id : BufferId) i x (Q : unit -> fsys D -> Prop) :
  fs_hold s v (<[b := (id, true)]> H) sb ic -> H !! b = None ->
  (forall s', fs_hold s' (<[b := <[i := x]> (v b)]> v) H sb ic -> Q tt s') ->
  wp (store_byte id i x;; buf (buffer_write id);; buf (buffer_release id)) Q s.
Proof.
  intros Hh Hb HQ.
  pose proof (wp_put_byte s v H sb ic b id i x (mret tt) Q Hh Hb HQ) as Hwp.
  revert Hwp. unfold wp, mbind, M_bind. destruct (store_byte id i x s) as [? s1| |]; [|done..].
  destruct (buf (buffer_write id) s1) as [? s2| |]; [|done..].
  by destruct (buf (buffer_release id) s2) as [[] s3| |].
Qed.

(** Overwrite a block nobody holds with zeros. *)
Lemma wp_zero_block s v H sb ic b (Q : Z -> fsys D -> Prop) :
  fs_hold s v H sb ic -> H !! b = None -> (base.size H < N_BUFFER)%nat ->
  (forall s', fs_hold s' (<[b := zero_block]> v) H sb ic -> Q b s') ->
  wp (zero_buf ← buf (buffer_read 0 b);
      buf (store_data zero_buf zero_block);;
      buf (buffer_write zero_buf);;
      buf (buffer_release zero_buf);;
      mret b) Q s.
Proof.
  intros Hh Hb Hsz HQ. wp_step. eapply wp_fs_read; [done|done|done|]. intros z s1 H1.
  wp_step. eapply wp_fs_store; [done|by rewrite lookup_insert_eq|apply is_block_zero|].
  intros s2 H2. rewrite held_again in H2. wp_step. eapply wp_fs_write; [done|by rewrite lookup_insert_eq|].
  intros s3 H3. rewrite held_again in H3. wp_step. eapply wp_fs_release; [done|by rewrite lookup_insert_eq|].
  intros s4 H4. rewrite held_released in H4 by done. wp_step. by apply HQ.
Qed.

Lemma bit_byte k : Z.of_nat (k / 8 * 8 + k mod 8) = Z.of_nat k.
Proof. pose proof (Nat.div_mod_eq k 8). lia. Qed.

Lemma wrap32_bit k : (k < NBITS)%nat -> wrap32 (Z.of_nat k) = Z.of_nat k.
Proof. intros Hk. apply Z.mod_small. unfold NBITS, BLOCK_SIZE, U32 in *. lia. Qed.

(** The view after allocating data block [k]. *)
Definition block_view (sb : SuperBlock) (k : nat) v : Z -> block :=
  <[sb_bmap_start sb + 1 + Z.of_nat k := zero_block]>
    (<[sb_bmap_start sb := set_bit k (v (sb_bmap_start sb))]> v).

Lemma wp_bitmap_alloc s v H sb ic k :
  let bmap := sb_bmap_start sb in
  fs_hold s v H sb ic -> H !! bmap = None -> (base.size H < N_BUFFER)%nat -> is_block (v bmap) ->
  first_clear (v bmap) k -> Z.of_nat k < sb_nblocks sb -> 0 <= bmap -> bmap + 1 + Z.of_nat k < U32 ->
  H !! (bmap + 1 + Z.of_nat k) = None ->
  wp bitmap_alloc (fun r s' => r = bmap + 1 + Z.of_nat k /\ fs_hold s' (block_view sb k v) H sb ic) s.
Proof.
  intros bmap Hh Hb Hsz Hblk Hk Hlt H0 Hmax Habs. unfold U32 in Hmax. pose proof Hk as (Hbits & _ & _).
  unfold bitmap_alloc. wp_step. eapply wp_get_sb; [done|]. cbv zeta. fold bmap.
  wp_step. eapply wp_fs_read; [done|done|done|]. intros id s1 H1.
  wp_step. unfold wp at 1. erewrite scan_bits_found; [|exact H1|by rewrite lookup_insert_eq|done|done].
  match goal with |- match ?m s1 with _ => _ end => change (wp m (fun r s' => wp (match r with
    | inr abs_block => mret abs_block
    | inl _ => buf (buffer_release id);; panic "buffer_alloc: out of blocks" end)
    (fun r s' => r = bmap + 1 + Z.of_nat k /\ fs_hold s' (block_view sb k v) H sb ic) s') s1) end.
  wp_step. rewrite bit_byte, wrap32_bit by done. rewrite (proj2 (Z.leb_gt _ _)) by lia.
  wp_step. eapply wp_intro; [eapply load_byte_run; [exact H1|by rewrite lookup_insert_eq]|].
  eapply wp_put_byte; [exact H1|done|]. intros s2 H2.
  wp_step. wp_step. wp_step. wp_step.
  eapply wp_zero_block; [exact H2|done|done|]. intros s3 H3. by wp_steps.
Qed.

Lemma wp_then_panic {S A B} (m : M S A) (k : A -> M S B) (P : A -> S -> Prop) why st :
  wp m P st -> (forall a st', P a st' -> k a st' = Panic why) -> (m ≫= k) st = Panic why.
Proof.
  intros (a & st' & Hr & HP)%wp_elim Hk. rewrite (bind_run _ _ _ _ _ Hr). by apply Hk.
Qed.

(** No free block: every bit is set, or the first clear one is past the end. *)
Definition bitmap_exhausted (d : block) (n : Z) : Prop :=
  (forall k, (k < NBITS)%nat -> bit d k = true) \/ exists k, first_clear d k /\ n <= Z.of_nat k.

Lemma scan_exhausted {A} s v H sb ic b (id : BufferId) c n (why : string) (found : nat -> nat -> M (fsys D) A)
  (k : unit + A -> M (fsys D) A) :
  fs_hold s v (<[b := (id, c)]> H) sb ic -> is_block (v b) -> bitmap_exhausted (v b) n -> 0 <= n < U32 ->
  (forall i j, n <= Z.of_nat (i * 8 + j) -> (i * 8 + j < NBITS)%nat -> found i j s = Panic why) ->
  k (inl tt) s = Panic why ->
  (scan_bits id found ≫= k) s = Panic why.
Proof.
  intros Hh Hblk [Hall|(q & Hq & Hn)] Hrng Hf Hk.
  - erewrite bind_run; [done|]. eapply scan_bits_none; [exact Hh|by rewrite lookup_insert_eq|done|done].
  - apply bind_panic. erewrite scan_bits_found; [|exact Hh|by rewrite lookup_insert_eq|done|exact Hq].
    apply bind_panic. destruct Hq as (Hq & _). pose proof (Nat.div_mod_eq q 8). apply Hf; lia.
Qed.

Lemma bitmap_alloc_panic s v H sb ic :
  let bmap := sb_bmap_start sb in
  fs_hold s v H sb ic -> H !! bmap = None -> (base.size H < N_BUFFER)%nat -> is_block (v bmap) ->
  bitmap_exhausted (v bmap) (sb_nblocks sb) -> 0 <= sb_nblocks sb < U32 ->
  bitmap_alloc s = Panic "buffer_alloc: out of blocks".
Proof.
  intros bmap Hh Hb Hsz Hblk Hex Hn. unfold bitmap_alloc.
  eapply wp_then_panic; [eapply (wp_get_sb s v H sb ic (fun r s' => r = sb /\ s' = s)); done|].
  intros ? ? [-> ->]. cbv zeta. fold bmap.
  eapply wp_then_panic.
  { eapply (wp_fs_read s v H sb ic bmap (fun id s' => fs_hold s' v (<[bmap := (id : BufferId, true)]> H) sb ic)); done. }
  intros id s1 H1.
  assert (Hrel : forall B w, (buf (buffer_release id);; panic (A := B) w) s1 = Panic w).
  { intros B w. eapply wp_then_panic; [|done].
    eapply (wp_fs_release _ _ _ _ _ bmap id (fun _ _ => True)); [exact H1|by rewrite lookup_insert_eq|done]. }
  eapply scan_exhausted; [exact H1|done|exact Hex|done| |apply Hrel].
  intros i j Hij Hlt. rewrite wrap32_bit by done. rewrite (proj2 (Z.leb_le _ _)) by done. apply Hrel.
Qed.

(** The view after freeing data block [k]. *)
Lemma wp_bitmap_free s v H sb ic k :
  let bmap := sb_bmap_start sb in
  fs_hold s v H sb ic -> H !! bmap = None -> (base.size H < N_BUFFER)%nat -> is_block (v bmap) ->
  (k < NBITS)%nat -> Z.of_nat k < sb_nblocks sb -> 0 <= bmap -> bmap + 1 + sb_nblocks sb < U32 ->
  bit (v bmap) k = true ->
  wp (bitmap_free (bmap + 1 + Z.of_nat k)) (fun _ s' =>
    fs_hold s' (<[bmap := clear_bit k (v bmap)]> v) H sb ic) s.
Proof.
  intros bmap Hh Hb Hsz Hblk Hk Hlt H0 Hmax Hbit. unfold U32 in Hmax.
  unfold bitmap_free. wp_step. eapply wp_get_sb; [done|]. cbv zeta. fold bmap.
  do 4 wp_step. rewrite (proj2 (Z.ltb_ge _ _)), (proj2 (Z.leb_gt _ _)) by lia. cbn [orb].
  replace (Z.to_nat (bmap + 1 + Z.of_nat k - (bmap + 1))) with k by lia.
  wp_step. eapply wp_fs_read; [done|done|done|]. intros id s1 H1.
  wp_step. eapply wp_intro; [eapply load_byte_run; [exact H1|by rewrite lookup_insert_eq]|].
  rewrite land_bit by lia. fold (bit (v bmap) k). rewrite Hbit. cbn [negb].
  eapply wp_put_byte_end; [exact H1|done|]. by intros s2 H2.
Qed.

Lemma bitmap_free_panic s v H sb ic k :
  let bmap := sb_bmap_start sb in
  fs_hold s v H sb ic -> H !! bmap = None -> (base.size H < N_BUFFER)%nat ->
  Z.of_nat k < sb_nblocks sb -> 0 <= bmap -> bmap + 1 + sb_nblocks sb < U32 ->
  bit (v bmap) k = false ->
  bitmap_free (bmap + 1 + Z.of_nat k) s = Panic "buffer_free: block already free".
Proof.
  intros bmap Hh Hb Hsz Hlt H0 Hmax Hbit. unfold U32 in Hmax. unfold bitmap_free.
  eapply wp_then_panic; [eapply (wp_get_sb s v H sb ic (fun r s' => r = sb /\ s' = s)); done|].
  intros ? ? [-> ->]. cbv zeta. fold bmap. unfold uadd32.
  do 2 erewrite bind_run by (apply checked_run; unfold U32; lia).
  rewrite (proj2 (Z.ltb_ge _ _)), (proj2 (Z.leb_gt _ _)) by lia. cbn [orb].
  replace (Z.to_nat (bmap + 1 + Z.of_nat k - (bmap + 1))) with k by lia.
  eapply wp_then_panic.
  { eapply (wp_fs_read s v H sb ic bmap (fun id s' => fs_hold s' v (<[bmap := (id : BufferId, true)]> H) sb ic)); done. }
  intros id s1 H1. erewrite bind_run; [|eapply load_byte_run; [exact H1|by rewrite lookup_insert_eq]].
  rewrite land_bit by lia. fold (bit (v bmap) k). by rewrite Hbit.
Qed.

Lemma wp_inode_alloc s v H sb ic k :
  let ibm := sb_inode_start sb - 1 in
  fs_hold s v H sb ic -> H !! ibm = None -> (base.size H < N_BUFFER)%nat -> is_block (v ibm) ->
  first_clear (v ibm) k -> Z.of_nat k < sb_ninodes sb -> 0 <= ibm < U32 ->
  wp inode_alloc (fun r s' => r = Z.of_nat k /\ fs_hold s' (<[ibm := set_bit k (v ibm)]> v) H sb ic) s.
Proof.
  intros ibm Hh Hb Hsz Hblk Hk Hlt H0. pose proof Hk as (Hbits & _ & _).
  unfold inode_alloc. wp_step. eapply wp_get_sb; [done|]. cbv zeta.
  wp_step. unfold usub32. apply wp_checked; [exact H0|]. fold ibm.
  wp_step. eapply wp_fs_read; [done|done|done|]. intros id s1 H1.
  wp_step. unfold wp at 1. erewrite scan_bits_found; [|exact H1|by rewrite lookup_insert_eq|done|done].
  match goal with |- match ?m s1 with _ => _ end => change (wp m (fun r s' => wp (match r with
    | inr inum => mret inum
    | inl _ => buf (buffer_release id);; panic "inode_alloc: out of inodes" end)
    (fun r s' => r = Z.of_nat k /\ fs_hold s' (<[ibm := set_bit k (v ibm)]> v) H sb ic) s') s1) end.
  wp_step. rewrite bit_byte, wrap32_bit by done. rewrite (proj2 (Z.leb_gt _ _)) by lia.
  wp_step. eapply wp_intro; [eapply load_byte_run; [exact H1|by rewrite lookup_insert_eq]|].
  eapply wp_put_byte; [exact H1|done|]. intros s2 H2. by wp_steps.
Qed.

Lemma wp_inode_free s v H sb ic k :
  let ibm := sb_inode_start sb - 1 in
  fs_hold s v H sb ic -> H !! ibm = None -> (base.size H < N_BUFFER)%nat -> is_block (v ibm) ->
  (k < NBITS)%nat -> 0 <= ibm < U32 -> bit (v ibm) k = true ->
  wp (inode_free (Z.of_nat k)) (fun _ s' => fs_hold s' (<[ibm := clear_bit k (v ibm)]> v) H sb ic) s.
Proof.
  intros ibm Hh Hb Hsz Hblk Hk H0 Hbit.
  unfold inode_free. wp_step. eapply wp_get_sb; [done|]. cbv zeta.
  wp_step. unfold usub32. apply wp_checked; [exact H0|]. fold ibm.
  wp_step. eapply wp_fs_read; [done|done|done|]. intros id s1 H1.
  change 8 with (Z.of_nat 8). rewrite <-Nat2Z.inj_div, <-Nat2Z.inj_mod, Nat2Z.id.
  wp_step. eapply wp_intro; [eapply load_byte_run; [exact H1|by rewrite lookup_insert_eq]|].
  rewrite land_bit by lia. fold (bit (v ibm) k). rewrite Hbit. cbn [negb].
  eapply wp_put_byte_end; [exact H1|done|]. by intros s2 H2.
Qed.
End bitmap.

(** ** An empty file system for the examples *)

Definition demo_sb : SuperBlock := mkSB MAGIC 68 64 64 2 3.
Definition demo_fs : fsys ramdisk := mkFs demo_cache (Some demo_sb) (fun _ => Inode_new).
Definition demo_view : Z -> block := ram_read ∅.

Lemma demo_fs_hold : fs_hold demo_fs demo_view ∅ demo_sb (fun _ => Inode_new).
Proof. split; [done|done|exact demo_cache_quiet]. Qed.

Lemma demo_view_zero b : demo_view b = zero_block.
Proof. unfold demo_view, ram_read. rewrite lookup_empty. simpl default. unfold zero_block. by rewrite resize_nil. Qed.

Lemma bit_zero_block k : bit zero_block k = false.
Proof.
  unfold bit, byte_at. destruct (nth_in_or_default (k / 8) zero_block 0) as [Hin|Heq].
  - apply list_elem_of_In, elem_of_replicate in Hin as [-> _]. apply Z.bits_0.
  - rewrite Heq. apply Z.bits_0.
Qed.

Lemma demo_first_clear b : first_clear (demo_view b) 0.
Proof. rewrite demo_view_zero. split; [unfold NBITS, BLOCK_SIZE; lia|]. split; [apply bit_zero_block|lia]. Qed.

Lemma demo_is_block b : is_block (demo_view b).
Proof. rewrite demo_view_zero. apply is_block_zero. Qed.

Lemma demo_room : (base.size (∅ : gmap Z (BufferId * bool)) < N_BUFFER)%nat.
Proof. rewrite map_size_empty. unfold N_BUFFER. lia. Qed.

(** ** Properties *)

(** A block allocation takes the first data block whose bitmap bit is
    clear, sets exactly that bit, zeroes exactly that block, changes no other
    block, and leaves the blocks its caller holds alone; when no block is left
    it panics. *)
Theorem bitmap_alloc_correct {D} `{!BlockDevice D} (s : fsys D) v H sb ic :
  let bmap := sb_bmap_start sb in
  fs_hold s v H sb ic -> H !! bmap = None -> (base.size H < N_BUFFER)%nat -> is_block (v bmap) ->
  0 <= bmap -> bmap + 1 + sb_nblocks sb < U32 -> 0 <= sb_nblocks sb ->
  (forall k, first_clear (v bmap) k -> Z.of_nat k < sb_nblocks sb ->
     H !! (bmap + 1 + Z.of_nat k) = None ->
     wp bitmap_alloc (fun r s' => r = bmap + 1 + Z.of_nat k /\
       fs_hold s' (block_view sb k v) H sb ic /\
       (forall k', bit (block_view sb k v bmap) k' = if decide (k' = k) then true else bit (v bmap) k') /\
       (forall b, b <> bmap -> b <> r -> block_view sb k v b = v b)) s) /\
  (bitmap_exhausted (v bmap) (sb_nblocks sb) -> bitmap_alloc s = Panic "buffer_alloc: out of blocks").
Proof.
  intros bmap Hh Hb Hsz Hblk H0 Hmax Hn. split.
  - intros k Hk Hlt Habs. pose proof Hk as (Hbits & _).
    eapply wp_mono; [|apply (wp_bitmap_alloc s v H sb ic k); try done; fold bmap; lia].
    intros r s' [-> Hh']. fold bmap in Hh' |- *. split_and!; [done|done| |].
    + intros k'. unfold block_view. fold bmap. rewrite fn_lookup_insert_ne, fn_lookup_insert by lia.
      by apply bit_set_bit.
    + intros b Hb1 Hb2. unfold block_view. fold bmap. by rewrite !fn_lookup_insert_ne.
  - intros Hex. by eapply bitmap_alloc_panic; [done..|lia].
Qed.

Lemma bitmap_alloc_correct_witness :
  wp bitmap_alloc (fun r s' => r = 4 /\ fs_hold s' (block_view demo_sb 0 demo_view) ∅ demo_sb (fun _ => Inode_new) /\
    (forall k', bit (block_view demo_sb 0 demo_view 3) k' = if decide (k' = 0%nat) then true else bit (demo_view 3) k') /\
    (forall b, b <> 3 -> b <> r -> block_view demo_sb 0 demo_view b = demo_view b)) demo_fs.
Proof.
  apply (bitmap_alloc_correct demo_fs demo_view ∅ demo_sb (fun _ => Inode_new) demo_fs_hold
    (lookup_empty _) demo_room (demo_is_block _) ltac:(discriminate) ltac:(reflexivity) ltac:(discriminate)
    ) with (k := 0%nat); [apply demo_first_clear|reflexivity|apply lookup_empty].
Defined.

(** Freeing an allocated data block clears exactly its bit; freeing one
    that is already free panics; so allocating a block and freeing it again
    restores every bit of the bitmap. *)
Theorem bitmap_free_correct {D} `{!BlockDevice D} (s : fsys D) v H sb ic k :
  let bmap := sb_bmap_start sb in
  fs_hold s v H sb ic -> H !! bmap = None -> (base.size H < N_BUFFER)%nat -> is_block (v bmap) ->
  0 <= bmap -> bmap + 1 + sb_nblocks sb < U32 -> (k < NBITS)%nat -> Z.of_nat k < sb_nblocks sb ->
  (bit (v bmap) k = true ->
     wp (bitmap_free (bmap + 1 + Z.of_nat k)) (fun _ s' => exists v', fs_hold s' v' H sb ic /\
       (forall k', bit (v' bmap) k' = if decide (k' = k) then false else bit (v bmap) k') /\
       (forall b, b <> bmap -> v' b = v b)) s) /\
  (bit (v bmap) k = false ->
     bitmap_free (bmap + 1 + Z.of_nat k) s = Panic "buffer_free: block already free") /\
  (first_clear (v bmap) k -> H !! (bmap + 1 + Z.of_nat k) = None ->
     wp (r ← bitmap_alloc; bitmap_free r) (fun _ s' => exists v', fs_hold s' v' H sb ic /\
       (forall k', bit (v' bmap) k' = bit (v bmap) k')) s).
Proof.
  intros bmap Hh Hb Hsz Hblk H0 Hmax Hk Hlt. split_and!.
  - intros Hbit. eapply wp_mono; [|by apply (wp_bitmap_free s v H sb ic k)].
    intros [] s' Hh'. fold bmap in Hh'. eexists. split; [exact Hh'|]. split.
    + intros k'. rewrite fn_lookup_insert. by apply bit_clear_bit.
    + intros b Hb1. by rewrite fn_lookup_insert_ne.
  - intros Hbit. by apply (bitmap_free_panic s v H sb ic k).
  - intros Hfc Habs. wp_step.
    eapply wp_mono; [|apply (wp_bitmap_alloc s v H sb ic k); try done; fold bmap; lia].
    intros r s1 [-> H1]. fold bmap in H1 |- *.
    assert (Hv1 : block_view sb k v bmap = set_bit k (v bmap)).
    { unfold block_view. fold bmap. by rewrite fn_lookup_insert_ne, fn_lookup_insert by lia. }
    eapply wp_mono; [|apply (wp_bitmap_free s1 (block_view sb k v) H sb ic k); try done; fold bmap; rewrite Hv1].
    + intros [] s2 H2. fold bmap in H2. eexists. split; [exact H2|]. intros k'.
      rewrite fn_lookup_insert, Hv1, bit_clear_bit, bit_set_bit by (try apply is_block_set_bit; done).
      destruct Hfc as (_ & Hc & _). by case_decide; [subst|].
    + by apply is_block_set_bit.
    + rewrite bit_set_bit by done. by rewrite decide_True.
Qed.

Lemma bitmap_free_correct_witness :
  bitmap_free 4 demo_fs = Panic "buffer_free: block already free".
Proof.
  refine (proj1 (proj2 (bitmap_free_correct demo_fs demo_view ∅ demo_sb (fun _ => Inode_new) 0 demo_fs_hold
    (lookup_empty _) demo_room (demo_is_block _) ltac:(discriminate) ltac:(reflexivity)
    ltac:(unfold NBITS, BLOCK_SIZE; lia) ltac:(reflexivity))) _).
  rewrite demo_view_zero. apply bit_zero_block.
Defined.

(** An inode allocation returns the first inode number whose bitmap bit is
    clear and sets exactly that bit; freeing an allocated inode clears exactly
    its bit. *)
Theorem inode_bitmap_correct {D} `{!BlockDevice D} (s : fsys D) v H sb ic k :
  let ibm := sb_inode_start sb - 1 in
  fs_hold s v H sb ic -> H !! ibm = None -> (base.size H < N_BUFFER)%nat -> is_block (v ibm) ->
  0 <= ibm < U32 ->
  (first_clear (v ibm) k -> Z.of_nat k < sb_ninodes sb ->
     wp inode_alloc (fun r s' => r = Z.of_nat k /\ exists v', fs_hold s' v' H sb ic /\
       (forall k', bit (v' ibm) k' = if decide (k' = k) then true else bit (v ibm) k') /\
       (forall b, b <> ibm -> v' b = v b)) s) /\
  ((k < NBITS)%nat -> bit (v ibm) k = true ->
     wp (inode_free (Z.of_nat k)) (fun _ s' => exists v', fs_hold s' v' H sb ic /\
       (forall k', bit (v' ibm) k' = if decide (k' = k) then false else bit (v ibm) k') /\
       (forall b, b <> ibm -> v' b = v b)) s).
Proof.
  intros ibm Hh Hb Hsz Hblk H0. split.
  - intros Hk Hlt. pose proof Hk as (Hbits & _).
    eapply wp_mono; [|by apply (wp_inode_alloc s v H sb ic k)].
    intros r s' [-> Hh']. fold ibm in Hh'. split; [done|]. eexists. split; [exact Hh'|]. split.
    + intros k'. rewrite fn_lookup_insert. by apply bit_set_bit.
    + intros b Hb1. by rewrite fn_lookup_insert_ne.
  - intros Hk Hbit. eapply wp_mono; [|by apply (wp_inode_free s v H sb ic k)].
    intros [] s' Hh'. fold ibm in Hh'. eexists. split; [exact Hh'|]. split.
    + intros k'. rewrite fn_lookup_insert. by apply bit_clear_bit.
    + intros b Hb1. by rewrite fn_lookup_insert_ne.
Qed.

Lemma inode_bitmap_correct_witness :
  let ibm := sb_inode_start demo_sb - 1 in
  wp inode_alloc (fun r s' => r = Z.of_nat 0 /\ exists v', fs_hold s' v' ∅ demo_sb (fun _ => Inode_new) /\
    (forall k', bit (v' ibm) k' = if decide (k' = 0%nat) then true else bit (demo_view ibm) k') /\
    (forall b, b <> ibm -> v' b = demo_view b)) demo_fs.
Proof.
  intros ibm. refine (proj1 (inode_bitmap_correct demo_fs demo_view ∅ demo_sb (fun _ => Inode_new) 0 demo_fs_hold
    (lookup_empty _) demo_room (demo_is_block _) _) _ _).
  - split; [discriminate|reflexivity].
  - apply demo_first_clear.
  - reflexivity.
Defined.
