(* ===== verification/InodeLayer.v ===== *)
(** * Inodes and file data ([fs/inode.rs])

    The inode cache, the read and write of a disk inode, the block map of a
    file (ten direct blocks, one indirect and one doubly indirect block) and
    the reads and writes of file data. A reference to an inode is the index of
    its slot in the cache; the spin lock inside an inode only guards its
    reference count and is not part of the state. *)
From stdpp Require Import functions.
From S2P Require Import Prelude Lru BufferCache FsState Bitmap.

Section inode.
Context {D : Type} `{!BlockDevice D}.
Implicit Types (ip : nat).

(** ** Operations *)

Definition the_inode (ip : nat) : M (fsys D) Inode := gets (fun s => icache s ip).
Definition upd_disk (ip : nat) (f : InodeDisk -> InodeDisk) : M (fsys D) unit :=
  modify (upd_inode ip (fun n => set_idisk (f (idisk n)) n)).
(** [inode.disk.index[i]] *)
Definition get_index (ip i : nat) : M (fsys D) Z :=
  n ← the_inode ip; index (index_ (idisk n)) (Z.of_nat i).

(** Inodes per block: [BLOCK_SIZE / size_of::<InodeDisk>()] *)
Definition IPB : Z := Z.of_nat BLOCK_SIZE / Z.of_nat DINODE_SIZE.

Definition inode_rw (ip : nat) (write : bool) : M (fsys D) unit :=
  sb ← get_sb;
  n ← the_inode ip;
  blk ← uadd32 (sb_inode_start sb) (inode_num n / IPB);
  let offset := (Z.to_nat (inode_num n mod IPB) * DINODE_SIZE)%nat in
  b ← buf (buffer_read 0 blk);
  d ← buf (load_data b);
  (if write then
     buf (store_data b (splice offset (encode_dinode (idisk n)) d));;
     buf (buffer_write b)
   else upd_disk ip (fun _ => decode_dinode (slice offset DINODE_SIZE d)));;
  buf (buffer_release b).

(** One entry of the index array, allocated when it is empty and [grow] asks. *)
Definition index_block (ip idx : nat) (grow : bool) : M (fsys D) (option Z) :=
  blk ← get_index ip idx;
  if blk =? 0 then
    if negb grow then mret None
    else
      nblk ← bitmap_alloc;
      upd_disk ip (set_index idx nblk);;
      inode_rw ip true;;
      mret (Some nblk)
  else mret (Some blk).

(** One entry of an indirect block, likewise. *)
Definition indirect_block (iblk : Z) (idx : nat) (grow : bool) : M (fsys D) (option Z) :=
  b ← buf (buffer_read 0 iblk);
  d ← buf (load_data b);
  let blk := u32_at d idx in
  if blk =? 0 then
    if negb grow then
      buf (buffer_release b);;
      mret None
    else
      nblk ← bitmap_alloc;
      d' ← buf (load_data b);
      buf (store_data b (set_u32 idx nblk d'));;
      buf (buffer_write b);;
      buf (buffer_release b);;
      mret (Some nblk)
  else
    buf (buffer_release b);;
    mret (Some blk).

Definition locate_or_add_block (ip : nat) (lbn : Z) (grow : bool) : M (fsys D) (option Z) :=
  if lbn <? Z.of_nat INODE_INDEX_1 then index_block ip (Z.to_nat lbn) grow
  else
    lbn1 ← usub32 lbn (Z.of_nat INODE_INDEX_1);
    if lbn1 <? Z.of_nat NINDIRECT then
      o ← index_block ip INODE_INDEX_1 grow;
      match o with
      | None => mret None
      | Some iblk => indirect_block iblk (Z.to_nat lbn1) grow
      end
    else
      lbn2 ← usub32 lbn1 (Z.of_nat NINDIRECT);
      if lbn2 <? Z.of_nat NINDIRECT * Z.of_nat NINDIRECT then
        o ← index_block ip INODE_INDEX_2 grow;
        match o with
        | None => mret None
        | Some l1_blk =>
            let l1_idx := Z.to_nat (lbn2 / Z.of_nat NINDIRECT) in
            let l2_idx := Z.to_nat (lbn2 mod Z.of_nat NINDIRECT) in
            o' ← indirect_block l1_blk l1_idx grow;
            match o' with
            | None => mret None
            | Some l2_blk => indirect_block l2_blk l2_idx grow
            end
        end
      else panic "locate_or_add_block: block index out of range".

(** [for i in 0..NINDIRECT { if data[i] != 0 { ... } }] on a held block *)
Definition for_entries (b : nat) (f : Z -> M (fsys D) unit) : M (fsys D) unit :=
  for_each (B := Empty_set) (seq 0 NINDIRECT) (fun _ i =>
    d ← buf (load_data b);
    let blk := u32_at d i in
    (if negb (blk =? 0) then f blk else mret tt);;
    mret (inl tt)) tt;;
  mret tt.

Definition free_data_blocks (ip : nat) : M (fsys D) unit :=
  for_each (B := Empty_set) (seq 0 INODE_INDEX_1) (fun _ i =>
    blk ← get_index ip i;
    (if negb (blk =? 0) then
       bitmap_free blk;;
       upd_disk ip (set_index i 0)
     else mret tt);;
    mret (inl tt)) tt;;
  indirect_blk ← get_index ip INODE_INDEX_1;
  (if negb (indirect_blk =? 0) then
     b ← buf (buffer_read 0 indirect_blk);
     for_entries b bitmap_free;;
     buf (buffer_release b);;
     bitmap_free indirect_blk;;
     upd_disk ip (set_index INODE_INDEX_1 0)
   else mret tt);;
  l1_blk ← get_index ip INODE_INDEX_2;
  if negb (l1_blk =? 0) then
    b_l1 ← buf (buffer_read 0 l1_blk);
    for_entries b_l1 (fun l2_blk =>
      b_l2 ← buf (buffer_read 0 l2_blk);
      for_entries b_l2 bitmap_free;;
      buf (buffer_release b_l2);;
      bitmap_free l2_blk);;
    buf (buffer_release b_l1);;
    bitmap_free l1_blk;;
    upd_disk ip (set_index INODE_INDEX_2 0)
  else mret tt.

Definition inode_get (inum : Z) : M (fsys D) nat :=
  hit ← for_each (seq 0 N_INODE) (fun (_ : unit) i =>
    n ← the_inode i;
    if (0 <? irefcnt n) && (inode_num n =? inum) && ivalid n then
      r ← uadd32 (irefcnt n) 1;
      modify (upd_inode i (set_irefcnt r));;
      mret (inr i)
    else mret (inl tt)) tt;
  match hit with
  | inr i => mret i
  | inl _ =>
      slot ← for_each (seq 0 N_INODE) (fun (_ : unit) i =>
        n ← the_inode i;
        if irefcnt n =? 0 then
          modify (upd_inode i (fun n => set_irefcnt 1 (set_ivalid false (set_inode_num inum n))));;
          inode_rw i false;;
          modify (upd_inode i (set_ivalid true));;
          mret (inr i)
        else mret (inl tt)) tt;
      match slot with
      | inr i => mret i
      | inl _ => panic "inode_get: no free inode in cache"
      end
  end.

Definition inode_dup (ip : nat) : M (fsys D) unit :=
  n ← the_inode ip;
  r ← uadd32 (irefcnt n) 1;
  modify (upd_inode ip (set_irefcnt r)).

Definition inode_put (ip : nat) : M (fsys D) unit :=
  n ← the_inode ip;
  if irefcnt n =? 0 then panic "inode_put: refcnt is already zero"
  else
    let r := irefcnt n - 1 in
    modify (upd_inode ip (set_irefcnt r));;
    let should_delete := (r =? 0) && (nlink (idisk n) =? 0) in
    if should_delete then
      let current_inum := inode_num n in
      free_data_blocks ip;;
      inode_free current_inum;;
      upd_disk ip (set_size 0);;
      upd_disk ip (set_type 0);;
      inode_rw ip true;;
      modify (upd_inode ip (set_ivalid false));;
      modify (upd_inode ip (set_inode_num 0))
    else mret tt.

(** The [copy_len] of one round of a data transfer. *)
Definition chunk (off end_ : Z) : M (fsys D) Z :=
  let off_in_block := off mod Z.of_nat BLOCK_SIZE in
  let copy_len := Z.of_nat BLOCK_SIZE - off_in_block in
  top ← uadd32 off copy_len;
  if end_ <? top then usub32 end_ off else mret copy_len.

(** Rounds of a transfer: one per block touched. *)
Definition transfer_fuel (off end_ : Z) : nat := S (Z.to_nat (end_ - off)).

(** [dst] is the caller's buffer, at least [len] bytes; the bytes read replace
    its first ones. The result is the count and the buffer. *)
Definition inode_read_data (ip : nat) (off len : Z) (dst : list Z) : M (fsys D) (Z * list Z) :=
  n ← the_inode ip;
  if size (idisk n) <=? off then mret (0, dst)
  else
    top ← uadd32 off len;
    len' ← (if size (idisk n) <? top then usub32 (size (idisk n)) off else mret len);
    end_ ← uadd32 off len';
    dst' ← loop (transfer_fuel off end_) (fun '(off, dst_off, dst) =>
      if off <? end_ then
        let lbn := off / Z.of_nat BLOCK_SIZE in
        let off_in_block := Z.to_nat (off mod Z.of_nat BLOCK_SIZE) in
        copy_len ← chunk off end_;
        o ← locate_or_add_block ip lbn false;
        bytes ← (match o with
          | Some block_no =>
              b ← buf (buffer_read 0 block_no);
              d ← buf (load_data b);
              buf (buffer_release b);;
              mret (slice off_in_block (Z.to_nat copy_len) d)
          | None => mret (replicate (Z.to_nat copy_len) 0)
          end);
        off' ← uadd32 off copy_len;
        mret (inl (off', (dst_off + Z.to_nat copy_len)%nat, splice dst_off bytes dst))
      else mret (inr dst)) (off, 0%nat, dst);
    mret (len', dst').

Definition inode_write_data (ip : nat) (off len : Z) (src : list Z) : M (fsys D) Z :=
  end_ ← uadd32 off len;
  loop (transfer_fuel off end_) (fun '(off, src_off) =>
    if off <? end_ then
      let lbn := off / Z.of_nat BLOCK_SIZE in
      let off_in_block := Z.to_nat (off mod Z.of_nat BLOCK_SIZE) in
      copy_len ← chunk off end_;
      o ← locate_or_add_block ip lbn true;
      block_no ← expect o "inode_write_data: out of blocks";
      b ← buf (buffer_read 0 block_no);
      d ← buf (load_data b);
      buf (store_data b (splice off_in_block (slice src_off (Z.to_nat copy_len) src) d));;
      buf (buffer_write b);;
      buf (buffer_release b);;
      off' ← uadd32 off copy_len;
      mret (inl (off', (src_off + Z.to_nat copy_len)%nat))
    else mret (inr tt)) (off, 0%nat);;
  n ← the_inode ip;
  (if size (idisk n) <? end_ then
     upd_disk ip (set_size end_);;
     inode_rw ip true
   else mret tt);;
  mret len.

Definition inode_create (ty mj mn : Z) : M (fsys D) nat :=
  inum ← inode_alloc;
  ip ← inode_get inum;
  upd_disk ip (fun _ => mkDinode ty mj mn 1 0 (replicate INODE_INDEX_3 0));;
  inode_rw ip true;;
  mret ip.

(** ** Disk inodes *)

Lemma wp_the_inode (s : fsys D) v H sb ic ip Q : fs_hold s v H sb ic -> Q (ic ip) s -> wp (the_inode ip) Q s.
Proof. intros [_ <- _] HQ. by apply wp_gets. Qed.

Lemma wp_upd_disk (s : fsys D) v H sb ic ip f Q : fs_hold s v H sb ic ->
  (forall s', fs_hold s' v H sb (<[ip := set_idisk (f (idisk (ic ip))) (ic ip)]> ic) -> Q tt s') ->
  wp (upd_disk ip f) Q s.
Proof. intros [Hsb <- Hh] HQ. apply wp_modify, HQ. by split. Qed.

(** Where inode number [inum] lives on disk. *)
Definition inode_block (sb : SuperBlock) (inum : Z) : Z := sb_inode_start sb + inum / IPB.
Definition inode_offset (inum : Z) : nat := (Z.to_nat (inum mod IPB) * DINODE_SIZE)%nat.

Lemma inode_offset_bound inum : (inode_offset inum + DINODE_SIZE <= BLOCK_SIZE)%nat.
Proof.
  unfold inode_offset. assert (0 <= inum mod IPB < 64) by by apply Z.mod_pos_bound.
  unfold DINODE_SIZE, BLOCK_SIZE. lia.
Qed.

Lemma wp_inode_rw_write (s : fsys D) v H sb ic ip Q :
  let inum := inode_num (ic ip) in let blk := inode_block sb inum in
  fs_hold s v H sb ic -> H !! blk = None -> (base.size H < N_BUFFER)%nat -> 0 <= blk < U32 ->
  length (index_ (idisk (ic ip))) = INODE_INDEX_3 ->
  (forall s', fs_hold s' (<[blk := splice (inode_offset inum) (encode_dinode (idisk (ic ip))) (v blk)]> v) H sb ic ->
     Q tt s') ->
  wp (inode_rw ip true) Q s.
Proof.
  intros inum blk Hh Hb Hsz H0 Hlen HQ. unfold inode_rw.
  wp_step. eapply wp_get_sb; [done|]. wp_step. eapply wp_the_inode; [done|]. wp_step.
  unfold uadd32. apply wp_checked; [exact H0|]. fold inum. change (sb_inode_start sb + inum / IPB) with blk.
  fold (inode_offset inum). wp_step. eapply wp_fs_read; [done|done|done|]. intros id s1 H1.
  wp_step. eapply wp_fs_load; [exact H1|by rewrite lookup_insert_eq|]. do 2 wp_step.
  eapply wp_fs_store; [exact H1|by rewrite lookup_insert_eq| |].
  { rewrite length_splice; [eapply hold_length, Hh|]. rewrite length_encode_dinode by done.
    rewrite (hold_length _ _ _ _ (fh_hold _ _ _ _ _ Hh)). apply inode_offset_bound. }
  intros s2 H2. rewrite held_again in H2. eapply wp_fs_write; [exact H2|by rewrite lookup_insert_eq|].
  intros s3 H3. rewrite held_again in H3. eapply wp_fs_release; [exact H3|by rewrite lookup_insert_eq|].
  intros s4 H4. rewrite held_released in H4 by done. by apply HQ.
Qed.

Lemma wp_inode_rw_read (s : fsys D) v H sb ic ip Q :
  let inum := inode_num (ic ip) in let blk := inode_block sb inum in
  fs_hold s v H sb ic -> H !! blk = None -> (base.size H < N_BUFFER)%nat -> 0 <= blk < U32 ->
  (forall s', fs_hold s' v H sb
     (<[ip := set_idisk (decode_dinode (slice (inode_offset inum) DINODE_SIZE (v blk))) (ic ip)]> ic) -> Q tt s') ->
  wp (inode_rw ip false) Q s.
Proof.
  intros inum blk Hh Hb Hsz H0 HQ. unfold inode_rw.
  wp_step. eapply wp_get_sb; [done|]. wp_step. eapply wp_the_inode; [done|]. wp_step.
  unfold uadd32. apply wp_checked; [exact H0|]. fold inum. change (sb_inode_start sb + inum / IPB) with blk.
  fold (inode_offset inum). wp_step. eapply wp_fs_read; [done|done|done|]. intros id s1 H1.
  wp_step. eapply wp_fs_load; [exact H1|by rewrite lookup_insert_eq|]. wp_step.
  eapply wp_upd_disk; [exact H1|]. intros s2 H2.
  eapply wp_fs_release; [exact H2|by rewrite lookup_insert_eq|].
  intros s3 H3. rewrite held_released in H3 by done. by apply HQ.
Qed.

(** ** The inode cache *)

(** What slot [i] holds once [inode_get] has filled it. *)
Definition cached (v : Z -> block) (sb : SuperBlock) (inum : Z) : Inode :=
  mkInode (decode_dinode (slice (inode_offset inum) DINODE_SIZE (v (inode_block sb inum)))) true inum 1.
(** [ic'] is [ic] with slot [i] holding [n]. *)
Definition slot_is (ic ic' : nat -> Inode) (i : nat) (n : Inode) : Prop := ic' i = n /\ forall j, j <> i -> ic' j = ic j.

Lemma wp_upd_inode (s : fsys D) v H sb ic ip f Q : fs_hold s v H sb ic ->
  (forall s', fs_hold s' v H sb (<[ip := f (ic ip)]> ic) -> Q tt s') -> wp (modify (upd_inode ip f)) Q s.
Proof. intros [Hsb <- Hh] HQ. apply wp_modify, HQ. by split. Qed.

(** The slot is filled from the disk when no slot holds the inode. *)
Lemma wp_inode_get_fresh (s : fsys D) v sb ic inum i Q : fs_hold s v ∅ sb ic -> (i < N_INODE)%nat ->
  (forall j, (j < N_INODE)%nat -> (0 <? irefcnt (ic j)) && (inode_num (ic j) =? inum) && ivalid (ic j) = false) ->
  (forall j, (j < i)%nat -> irefcnt (ic j) <> 0) -> irefcnt (ic i) = 0 -> 0 <= inode_block sb inum < U32 ->
  (forall s' ic', fs_hold s' v ∅ sb ic' -> slot_is ic ic' i (cached v sb inum) -> Q i s') -> wp (inode_get inum) Q s.
Proof.
  intros Hh Hi Hmiss Hused Hfree Hblk HQ. unfold inode_get. wp_step.
  eapply (wp_for_each (fun _ _ s' => fs_hold s' v ∅ sb ic)); [done| |].
  { intros dn x rest [] s1 Hx H1. assert (Hin : x ∈ seq 0 N_INODE) by (rewrite Hx; set_solver). apply elem_of_seq in Hin as [_ Hlt].
    wp_step. eapply wp_the_inode; [done|]. rewrite Hmiss by done. by wp_step. }
  intros [] s1 H1. wp_step. eapply (wp_for_each (fun dn _ s' => fs_hold s' v ∅ sb ic /\ (length dn <= i)%nat)).
  - split; [done|simpl; lia].
  - intros dn x rest [] s2 Hx [H2 Hle]. assert (x = length dn) as ->.
    { assert (Hl : seq 0 N_INODE !! length dn = Some x) by (rewrite Hx; by apply list_lookup_middle). by apply lookup_seq in Hl as [-> _]. }
    wp_step. eapply wp_the_inode; [exact H2|]. destruct (decide (length dn = i)) as [Heq|Hne].
    + rewrite Heq. rewrite (proj2 (Z.eqb_eq _ _) Hfree). wp_step. eapply wp_upd_inode; [exact H2|]. intros s3 H3.
      wp_step. eapply wp_inode_rw_read; [exact H3|apply lookup_empty|rewrite map_size_empty; unfold N_BUFFER; lia| |].
      { rewrite fn_lookup_insert. exact Hblk. }
      intros s4 H4. wp_step. eapply wp_upd_inode; [exact H4|]. intros s5 H5. do 2 wp_step. eapply HQ; [exact H5|].
      split; [by rewrite !fn_lookup_insert|]. intros j Hj. by rewrite !fn_lookup_insert_ne.
    + rewrite (proj2 (Z.eqb_neq _ _)) by (apply Hused; lia). wp_step. split; [done|]. rewrite length_app. simpl. lia.
  - intros [] s2 [_ Hle]. rewrite length_seq in Hle. lia.
Qed.

(** A reference given back; the inode keeps a link. *)
Lemma wp_inode_put_linked (s : fsys D) v H sb ic ip Q : fs_hold s v H sb ic -> irefcnt (ic ip) <> 0 -> nlink (idisk (ic ip)) <> 0 ->
  (forall s' ic', fs_hold s' v H sb ic' -> slot_is ic ic' ip (set_irefcnt (irefcnt (ic ip) - 1) (ic ip)) -> Q tt s') -> wp (inode_put ip) Q s.
Proof.
  intros Hh Hr Hn HQ. unfold inode_put. wp_step. eapply wp_the_inode; [done|]. rewrite (proj2 (Z.eqb_neq _ _) Hr).
  wp_step. eapply wp_upd_inode; [done|]. intros s1 H1. rewrite (proj2 (Z.eqb_neq _ _) Hn), andb_false_r. wp_step.
  eapply HQ; [exact H1|]. split; [by rewrite fn_lookup_insert|]. intros j Hj. by rewrite fn_lookup_insert_ne.
Qed.

(** ** The block map *)

Definition nonzero (x : Z) : option Z := if x =? 0 then None else Some x.

(** The block that holds logical block [lbn] of a file, if any. *)
Definition lookup_block (v : Z -> block) (n : InodeDisk) (lbn : Z) : option Z :=
  let ix i := nonzero (nth i (index_ n) 0) in
  if lbn <? 10 then ix (Z.to_nat lbn)
  else if lbn - 10 <? 1024 then
    i1 ← ix INODE_INDEX_1; nonzero (u32_at (v i1) (Z.to_nat (lbn - 10)))
  else
    let k := lbn - 10 - 1024 in
    i2 ← ix INODE_INDEX_2;
    j ← nonzero (u32_at (v i2) (Z.to_nat (k / 1024)));
    nonzero (u32_at (v j) (Z.to_nat (k mod 1024))).

Lemma wp_index_block (s : fsys D) v sb ic ip idx Q :
  fs_hold s v ∅ sb ic -> length (index_ (idisk (ic ip))) = INODE_INDEX_3 -> (idx < INODE_INDEX_3)%nat ->
  Q (nonzero (nth idx (index_ (idisk (ic ip))) 0)) s ->
  wp (index_block ip idx false) Q s.
Proof.
  intros Hh Hlen Hidx HQ. unfold index_block, get_index. wp_step. wp_step. eapply wp_the_inode; [done|].
  destruct (lookup_lt_is_Some_2 (index_ (idisk (ic ip))) idx) as [x Hx]; [lia|].
  rewrite nth_lookup, Hx in HQ. simpl in HQ.
  eapply wp_index; [lia|by rewrite Nat2Z.id|].
  unfold nonzero in HQ. destruct (x =? 0); by apply wp_ret.
Qed.

Lemma wp_indirect_block (s : fsys D) v sb ic iblk idx Q :
  fs_hold s v ∅ sb ic ->
  (forall s', fs_hold s' v ∅ sb ic -> Q (nonzero (u32_at (v iblk) idx)) s') ->
  wp (indirect_block iblk idx false) Q s.
Proof.
  intros Hh HQ. unfold indirect_block. wp_step.
  eapply wp_fs_read; [done|apply lookup_empty|rewrite map_size_empty; unfold N_BUFFER; lia|]. intros id s1 H1.
  wp_step. eapply wp_fs_load; [exact H1|by rewrite lookup_insert_eq|]. cbv zeta.
  unfold nonzero in HQ. destruct (u32_at (v iblk) idx =? 0); cbn [negb]; wp_step;
    (eapply wp_fs_release; [exact H1|by rewrite lookup_insert_eq|]);
    intros s2 H2; rewrite held_released in H2 by apply lookup_empty; wp_step; by apply HQ.
Qed.

(** Without growing, [locate_or_add_block] is [lookup_block]. *)
Lemma wp_locate (s : fsys D) v sb ic ip lbn Q :
  fs_hold s v ∅ sb ic -> length (index_ (idisk (ic ip))) = INODE_INDEX_3 ->
  0 <= lbn < 10 + 1024 + 1024 * 1024 ->
  (forall s', fs_hold s' v ∅ sb ic -> Q (lookup_block v (idisk (ic ip)) lbn) s') ->
  wp (locate_or_add_block ip lbn false) Q s.
Proof.
  intros Hh Hlen Hlbn HQ. unfold locate_or_add_block. unfold lookup_block in HQ.
  change (Z.of_nat INODE_INDEX_1) with 10. change (Z.of_nat NINDIRECT) with 1024.
  destruct (Z.ltb_spec lbn 10).
  { eapply wp_index_block; [done|done|unfold INODE_INDEX_3; lia|by apply HQ]. }
  wp_step. wp_step. destruct (Z.ltb_spec (lbn - 10) 1024).
  { wp_step. eapply wp_index_block; [done|done|unfold INODE_INDEX_1, INODE_INDEX_3; lia|].
    destruct (nonzero _) as [i1|]; [|by apply wp_ret, HQ].
    eapply wp_indirect_block; [done|]. done. }
  wp_step. wp_step. rewrite (proj2 (Z.ltb_lt _ (1024 * 1024))) by lia. wp_step.
  eapply wp_index_block; [done|done|unfold INODE_INDEX_2, INODE_INDEX_3; lia|].
  destruct (nonzero _) as [i2|]; [|by apply wp_ret, HQ]. cbv zeta. simpl in HQ.
  wp_step. eapply wp_indirect_block; [done|]. intros s1 H1.
  destruct (nonzero _) as [j|]; [|by apply wp_ret, HQ].
  eapply wp_indirect_block; [exact H1|]. done.
Qed.

(** ** File contents *)

Local Abbreviation BS := (Z.of_nat BLOCK_SIZE).

(** Byte [k] of a file; a hole reads as zero. *)
Definition file_byte (v : Z -> block) (n : InodeDisk) (k : Z) : Z :=
  match lookup_block v n (k / BS) with
  | Some b => byte_at (v b) (Z.to_nat (k mod BS))
  | None => 0
  end.
Definition file_bytes (v : Z -> block) (n : InodeDisk) (off cnt : Z) : list Z := file_byte v n <$> seqZ off cnt.

Lemma length_file_bytes v n off cnt : length (file_bytes v n off cnt) = Z.to_nat cnt.
Proof. unfold file_bytes. by rewrite length_fmap, length_seqZ. Qed.

Lemma file_bytes_app v n off a b : 0 <= a -> 0 <= b ->
  file_bytes v n off (a + b) = file_bytes v n off a ++ file_bytes v n (off + a) b.
Proof. intros Ha Hb. unfold file_bytes. rewrite seqZ_app by done. apply fmap_app. Qed.

(** The part of a transfer that stays inside one block. *)
Definition chunk_len (off end_ : Z) : Z := Z.min (BS - off mod BS) (end_ - off).

Lemma chunk_len_spec off end_ : 0 <= off < end_ ->
  0 < chunk_len off end_ <= end_ - off /\ off mod BS + chunk_len off end_ <= BS.
Proof.
  intros H. unfold chunk_len. pose proof (Z.mod_pos_bound off BS ltac:(done)).
  assert (0 < BS - off mod BS) by lia. lia.
Qed.

Lemma wp_chunk (s : fsys D) off end_ Q : 0 <= off < end_ -> end_ + BS < U32 ->
  Q (chunk_len off end_) s -> wp (chunk off end_) Q s.
Proof.
  intros Hoff Hend HQ. unfold chunk, chunk_len in *. cbv zeta.
  pose proof (Z.mod_pos_bound off BS ltac:(done)).
  wp_step. unfold uadd32. apply wp_checked; [unfold U32 in *; lia|].
  destruct (Z.ltb_spec end_ (off + (BS - off mod BS))).
  - rewrite Z.min_r in HQ by lia. unfold usub32. apply wp_checked; [unfold U32 in *; lia|done].
  - rewrite Z.min_l in HQ by lia. by apply wp_ret.
Qed.

Lemma chunk_index off i : 0 <= i -> off mod BS + i < BS -> 0 <= off ->
  (off + i) / BS = off / BS /\ (off + i) mod BS = off mod BS + i.
Proof.
  intros Hi Hlt Hoff. pose proof (Z.div_mod off BS ltac:(done)). pose proof (Z.mod_pos_bound off BS ltac:(done)).
  assert (Hq : off + i = off / BS * BS + (off mod BS + i)) by lia. split.
  - rewrite Hq at 1. rewrite Z.div_add_l by done. rewrite (Z.div_small (off mod BS + i)) by lia. lia.
  - rewrite Hq, (Z.add_comm (off / BS * BS)), Z.mod_add by done. apply Z.mod_small. lia.
Qed.

Lemma lookup_slice (d : block) o n i : (i < n)%nat -> slice o n d !! i = d !! (o + i)%nat.
Proof. intros Hi. unfold slice. rewrite lookup_take, decide_True by done. by rewrite lookup_drop. Qed.

(** The bytes one round copies are the file's. *)
Lemma chunk_bytes v n off end_ : 0 <= off < end_ -> (forall b, length (v b) = BLOCK_SIZE) ->
  match lookup_block v n (off / BS) with
  | Some b => slice (Z.to_nat (off mod BS)) (Z.to_nat (chunk_len off end_)) (v b)
  | None => replicate (Z.to_nat (chunk_len off end_)) 0
  end = file_bytes v n off (chunk_len off end_).
Proof.
  intros Hoff Hlen. destruct (chunk_len_spec off end_ Hoff) as [Hc1 Hc2].
  pose proof (Z.mod_pos_bound off BS ltac:(done)) as Hm.
  apply list_eq. intros i. unfold file_bytes. rewrite list_lookup_fmap.
  destruct (Nat.lt_ge_cases i (Z.to_nat (chunk_len off end_))) as [Hi|Hi].
  - rewrite lookup_seqZ_lt by lia. simpl. unfold file_byte.
    destruct (chunk_index off (Z.of_nat i)) as [-> ->]; [lia..|].
    destruct (lookup_block v n (off / BS)) as [b|]; [|by rewrite lookup_replicate_2].
    rewrite lookup_slice by done. unfold byte_at.
    replace (Z.to_nat (off mod BS + Z.of_nat i)) with (Z.to_nat (off mod BS) + i)%nat by lia.
    destruct (lookup_lt_is_Some_2 (v b) (Z.to_nat (off mod BS) + i)) as [x Hx];
      [rewrite Hlen; lia|]. rewrite nth_lookup, Hx. done.
  - rewrite lookup_seqZ_ge by lia. simpl.
    destruct (lookup_block v n (off / BS)) as [b|].
    + unfold slice. rewrite lookup_take, decide_False by lia. done.
    + apply lookup_replicate_None. lia.
Qed.

Lemma splice_append (a bs dst : list Z) : splice (length a) bs (a ++ drop (length a) dst) =
  (a ++ bs) ++ drop (length a + length bs) dst.
Proof.
  unfold splice. rewrite take_app_length. rewrite drop_app_ge by lia.
  rewrite drop_drop, <-app_assoc. do 3 f_equal. lia.
Qed.

Definition read_body (ip : nat) (end_ : Z) (st : Z * nat * list Z) : M (fsys D) (Z * nat * list Z + list Z) :=
  let '(off, dst_off, dst) := st in
  if off <? end_ then
    let lbn := off / BS in
    let off_in_block := Z.to_nat (off mod BS) in
    copy_len ← chunk off end_;
    o ← locate_or_add_block ip lbn false;
    bytes ← (match o with
      | Some block_no =>
          b ← buf (buffer_read 0 block_no);
          d ← buf (load_data b);
          buf (buffer_release b);;
          mret (slice off_in_block (Z.to_nat copy_len) d)
      | None => mret (replicate (Z.to_nat copy_len) 0)
      end);
    off' ← uadd32 off copy_len;
    mret (inl (off', (dst_off + Z.to_nat copy_len)%nat, splice dst_off bytes dst))
  else mret (inr dst).

Lemma wp_read_bytes (s : fsys D) v sb ic n c oib o Q :
  fs_hold s v ∅ sb ic ->
  (forall s', fs_hold s' v ∅ sb ic -> Q (match o with Some b => slice oib n (v b) | None => replicate c 0 end) s') ->
  wp (match o with
      | Some block_no =>
          b ← buf (buffer_read 0 block_no);
          d ← buf (load_data b);
          buf (buffer_release b);;
          mret (slice oib n d)
      | None => mret (replicate c 0)
      end) Q s.
Proof.
  intros Hh HQ. destruct o as [blk|]; [|by apply wp_ret, HQ].
  wp_step. eapply wp_fs_read; [done|apply lookup_empty|rewrite map_size_empty; unfold N_BUFFER; lia|]. intros id s1 H1.
  wp_step. eapply wp_fs_load; [exact H1|by rewrite lookup_insert_eq|].
  wp_step. eapply wp_fs_release; [exact H1|by rewrite lookup_insert_eq|].
  intros s2 H2. rewrite held_released in H2 by apply lookup_empty. wp_step. by apply HQ.
Qed.

(** The loop of [inode_read_data] copies [off .. end). *)
Lemma wp_read_loop (s : fsys D) v sb ic ip off end_ dst fuel :
  let n := idisk (ic ip) in
  fs_hold s v ∅ sb ic -> length (index_ n) = INODE_INDEX_3 -> 0 <= off <= end_ -> end_ + BS < U32 ->
  (Z.to_nat (end_ - off) < fuel)%nat ->
  wp (loop fuel (read_body ip end_) (off, 0%nat, dst)) (fun dst' s' => fs_hold s' v ∅ sb ic /\
    dst' = file_bytes v n off (end_ - off) ++ drop (Z.to_nat (end_ - off)) dst) s.
Proof.
  intros n Hh Hlen Hoff Hend Hfuel.
  apply (wp_loop (fun st s' => fs_hold s' v ∅ sb ic /\ off <= st.1.1 <= end_ /\
    st.1.2 = Z.to_nat (st.1.1 - off) /\
    st.2 = file_bytes v n off (st.1.1 - off) ++ drop (Z.to_nat (st.1.1 - off)) dst)
    (fun st _ => Z.to_nat (end_ - st.1.1))); [| |done].
  - intros [[o k] cur] s1 HI. cbn [fst snd] in *. destruct HI as (H1 & Ho & -> & ->). unfold read_body.
    destruct (Z.ltb_spec o end_) as [Hlt|Hge].
    2:{ assert (o = end_) as -> by lia. apply wp_ret. done. }
    cbv zeta. destruct (chunk_len_spec o end_ ltac:(lia)) as [Hc1 Hc2].
    wp_step. apply wp_chunk; [lia|done|].
    wp_step. eapply wp_locate; [exact H1|done| |].
    { split; [apply Z.div_pos; [lia|done]|]. apply Z.div_lt_upper_bound; [done|].
      unfold U32 in Hend. change BS with 4096 in *. lia. }
    intros s2 H2. wp_step. eapply wp_read_bytes; [exact H2|]. intros s3 H3.
    rewrite chunk_bytes by (try lia; intros b; eapply hold_length, Hh).
    wp_step. unfold uadd32. apply wp_checked; [lia|]. apply wp_ret. cbn [fst snd].
    split; [|lia]. split_and!; [done|lia|lia|lia|].
    replace (o + chunk_len o end_ - off) with (o - off + chunk_len o end_) by lia.
    rewrite file_bytes_app by lia. replace (off + (o - off)) with o by lia.
    pose proof (splice_append (file_bytes v n off (o - off)) (file_bytes v n o (chunk_len o end_)) dst) as Hs.
    rewrite !length_file_bytes in Hs. fold n. rewrite Hs. do 2 f_equal. lia.
  - cbn [fst snd]. rewrite Z.sub_diag. split_and!; [done|lia|lia|done|done].
Qed.

Lemma wp_inode_read_data (s : fsys D) v sb ic ip off len dst :
  let n := idisk (ic ip) in
  let r := Z.max 0 (Z.min len (size n - off)) in
  fs_hold s v ∅ sb ic -> length (index_ n) = INODE_INDEX_3 ->
  0 <= off -> 0 <= len -> off + len < U32 -> size n + BS < U32 ->
  wp (inode_read_data ip off len dst) (fun res s' => fs_hold s' v ∅ sb ic /\
    res = (r, file_bytes v n off r ++ drop (Z.to_nat r) dst)) s.
Proof.
  intros n r Hh Hlen Hoff Hl Hov Hsz. unfold inode_read_data. wp_step. eapply wp_the_inode; [done|].
  fold n. destruct (Z.leb_spec (size n) off) as [Hpast|Hin].
  { apply wp_ret. split; [done|]. subst r. rewrite Z.max_l by lia. by rewrite drop_0. }
  wp_step. unfold uadd32 at 1. apply wp_checked; [lia|]. wp_step.
  assert (Hr : wp (if size n <? off + len then usub32 (size n) off else mret len)
    (fun len' s' => len' = r /\ s' = s) s).
  { subst r. destruct (Z.ltb_spec (size n) (off + len)).
    - unfold usub32. apply wp_checked; [lia|]. split; [lia|done].
    - apply wp_ret. split; [lia|done]. }
  eapply wp_mono; [|exact Hr]. intros len' s' [-> ->].
  assert (Hrr : 0 <= r <= size n - off) by lia.
  wp_step. unfold uadd32 at 1. apply wp_checked; [lia|]. wp_step. fold (read_body ip (off + r)).
  eapply wp_mono; [|apply (wp_read_loop s v sb ic ip off (off + r) dst); [done|done|lia|lia|]].
  - intros dst' s' [Hh' ->]. apply wp_ret. split; [done|]. fold n. by replace (off + r - off) with r by lia.
  - unfold transfer_fuel. lia.
Qed.

(** Two inodes of a block do not overlap. *)
Lemma inode_slots_disjoint inum inum' : inum <> inum' ->
  inum / IPB = inum' / IPB ->
  (inode_offset inum' + DINODE_SIZE <= inode_offset inum \/ inode_offset inum + DINODE_SIZE <= inode_offset inum')%nat.
Proof.
  intros Hne Hq. unfold inode_offset, DINODE_SIZE. change IPB with 64 in *.
  pose proof (Z.div_mod inum 64). pose proof (Z.div_mod inum' 64).
  pose proof (Z.mod_pos_bound inum 64). pose proof (Z.mod_pos_bound inum' 64). lia.
Qed.

Lemma write_inode_view sb n v inum :
  let blk := inode_block sb inum in
  let v' := <[blk := splice (inode_offset inum) (encode_dinode n) (v blk)]> v in
  dinode_ok n -> (forall b, length (v b) = BLOCK_SIZE) ->
  decode_dinode (slice (inode_offset inum) DINODE_SIZE (v' blk)) = n /\
  (forall inum', inum' <> inum ->
     slice (inode_offset inum') DINODE_SIZE (v' (inode_block sb inum')) =
     slice (inode_offset inum') DINODE_SIZE (v (inode_block sb inum'))).
Proof.
  intros blk v' Hn Hlen. pose proof (length_encode_dinode n (dk_len _ Hn)) as Hel.
  pose proof (inode_offset_bound inum) as Hb. subst v'. split.
  - rewrite fn_lookup_insert. pose proof (slice_splice (inode_offset inum) (encode_dinode n) (v blk)) as Hs.
    rewrite Hel in Hs. rewrite Hs by (rewrite Hlen; done). by apply decode_encode_dinode.
  - intros inum' Hne. destruct (decide (inode_block sb inum' = blk)) as [Heq|Hneq];
      [|by rewrite fn_lookup_insert_ne].
    rewrite Heq, fn_lookup_insert. apply slice_splice_other; rewrite Hel; [by rewrite Hlen|].
    apply inode_slots_disjoint; [done|]. subst blk. unfold inode_block in Heq. lia.
Qed.
End inode.

(** ** Properties *)

(** Writing a cached inode to disk and reading that inode number back into
    any cache slot returns the same on-disk inode, and no other inode's bytes
    change. *)
Theorem inode_rw_roundtrip {D} `{!BlockDevice D} (s : fsys D) v sb ic ip jp :
  let inum := inode_num (ic ip) in
  fs_hold s v ∅ sb ic -> 0 <= inum -> 0 <= inode_block sb inum < U32 -> dinode_ok (idisk (ic ip)) ->
  inode_num (ic jp) = inum ->
  wp (inode_rw ip true;; inode_rw jp false) (fun _ s' => exists v',
    fs_hold s' v' ∅ sb (<[jp := set_idisk (idisk (ic ip)) (ic jp)]> ic) /\
    (forall inum', 0 <= inum' -> inum' <> inum ->
      slice (inode_offset inum') DINODE_SIZE (v' (inode_block sb inum')) =
      slice (inode_offset inum') DINODE_SIZE (v (inode_block sb inum')))) s.
Proof.
  intros inum Hh H0 Hblk Hok Hj.
  assert (Hroom : (base.size (∅ : gmap Z (BufferId * bool)) < N_BUFFER)%nat)
    by (rewrite map_size_empty; unfold N_BUFFER; lia).
  destruct (write_inode_view sb (idisk (ic ip)) v inum Hok) as [Hdec Hoth];
    [intros b; eapply hold_length, Hh|].
  wp_step. eapply wp_inode_rw_write; [done|apply lookup_empty|done|done|apply Hok|]. intros s1 H1.
  eapply wp_inode_rw_read; [exact H1|apply lookup_empty|done|by rewrite Hj|]. intros s2 H2.
  rewrite Hj in H2. fold inum in H2. rewrite Hdec in H2. eexists. split; [exact H2|auto].
Qed.

Lemma inode_rw_roundtrip_witness :
  wp (inode_rw 3 true;; inode_rw 3 false) (fun _ s' => exists v',
    fs_hold s' v' ∅ demo_sb (<[3%nat := set_idisk (idisk Inode_new) Inode_new]> (fun _ => Inode_new)) /\
    (forall inum', 0 <= inum' -> inum' <> 0 ->
      slice (inode_offset inum') DINODE_SIZE (v' (inode_block demo_sb inum')) =
      slice (inode_offset inum') DINODE_SIZE (demo_view (inode_block demo_sb inum')))) demo_fs.
Proof.
  refine (inode_rw_roundtrip demo_fs demo_view demo_sb (fun _ => Inode_new) 3 3 demo_fs_hold _ _ _ _).
  - discriminate.
  - split; [discriminate|reflexivity].
  - split; simpl; try (split; [discriminate|reflexivity]); try reflexivity.
    repeat (constructor; [split; [discriminate|reflexivity]|]). constructor.
  - reflexivity.
Defined.

(** C8: [inode_read_data] returns the number of bytes between the offset and
    the smaller of offset plus length and the file size, copies exactly those
    bytes of the file (through the direct, indirect and doubly indirect block
    maps, holes reading as zeros) to the front of the caller's buffer, leaves
    the rest of the buffer alone, and changes no block. *)
Theorem inode_read_data_correct {D} `{!BlockDevice D} (s : fsys D) v sb ic ip off len dst :
  let n := idisk (ic ip) in
  let r := Z.max 0 (Z.min len (size n - off)) in
  fs_hold s v ∅ sb ic -> length (index_ n) = INODE_INDEX_3 ->
  0 <= off -> 0 <= len -> off + len < U32 -> size n + Z.of_nat BLOCK_SIZE < U32 ->
  wp (inode_read_data ip off len dst) (fun res s' => fs_hold s' v ∅ sb ic /\
    res = (r, file_bytes v n off r ++ drop (Z.to_nat r) dst)) s.
Proof. apply wp_inode_read_data. Qed.

(** A file of sixteen bytes, all in a hole. *)
Definition demo_file : nat -> Inode :=
  fun _ => mkInode (mkDinode INODE_TYPE_DATA 0 0 1 16 (replicate INODE_INDEX_3 0)) true 5 1.
Definition demo_file_fs : fsys ramdisk := mkFs demo_cache (Some demo_sb) demo_file.

Lemma inode_read_data_correct_witness :
  wp (inode_read_data 0 12 16 [7; 7; 7; 7; 7; 7]) (fun res s' => fs_hold s' demo_view ∅ demo_sb demo_file /\
    res = (4, [0; 0; 0; 0; 7; 7])) demo_file_fs.
Proof.
  refine (inode_read_data_correct demo_file_fs demo_view demo_sb demo_file 0 12 16 [7; 7; 7; 7; 7; 7]
    _ _ _ _ _ _); try (reflexivity || discriminate).
  split; [reflexivity|reflexivity|exact demo_cache_quiet].
Defined.
