(* ===== verification/FileWrite.v ===== *)
(** * Writing files ([inode_write_data] and [locate_or_add_block] of [fs/inode.rs])

    The block map of an inode is a tree of slots: the entries of the inode, of
    its index blocks and of the blocks below. A write walks to the slot of each
    logical block, fills the slots that are empty with fresh blocks, and stores
    the bytes. *)
From stdpp Require Import functions.
From S2P Require Import Prelude Lru BufferCache FsState Bitmap InodeLayer.

(** ** Slots *)

Inductive slot := Root (i : nat) | Ind (k : nat) | L2 (k : nat) | L3 (k j : nat).
#[export] Instance slot_eq_dec : EqDecision slot.
Proof. solve_decision. Defined.

Definition parent (q : slot) : option slot :=
  match q with Root _ => None | Ind _ => Some (Root INODE_INDEX_1) | L2 _ => Some (Root INODE_INDEX_2) | L3 k _ => Some (L2 k) end.
(** The entry's place in the inode or in its block *)
Definition place (q : slot) : nat := match q with Root i => i | Ind k | L2 k => k | L3 _ j => j end.
Definition valid (q : slot) : Prop :=
  match q with Root i => (i < INODE_INDEX_3)%nat | Ind k | L2 k => (k < NINDIRECT)%nat | L3 k j => (k < NINDIRECT)%nat /\ (j < NINDIRECT)%nat end.
(** Slots that name data *)
Definition leaf (q : slot) : bool := match q with Root i => (i <? INODE_INDEX_1)%nat | L2 _ => false | _ => true end.

Definition root_val (n : InodeDisk) (i : nat) : Z := nth i (index_ n) 0.
Definition entry (v : Z -> block) (p : Z) (i : nat) : Z := if p =? 0 then 0 else u32_at (v p) i.
Definition slot_val (v : Z -> block) (n : InodeDisk) (q : slot) : Z :=
  match q with
  | Root i => root_val n i
  | Ind k => entry v (root_val n INODE_INDEX_1) k
  | L2 k => entry v (root_val n INODE_INDEX_2) k
  | L3 k j => entry v (entry v (root_val n INODE_INDEX_2) k) j
  end.

Lemma slot_val_parent v n q p : parent q = Some p -> slot_val v n q = entry v (slot_val v n p) (place q).
Proof. by destruct q; intros [= <-]. Qed.
Lemma parent_place q q' p : parent q = Some p -> parent q' = Some p -> place q = place q' -> q = q'.
Proof. destruct q, q'; cbn; intros Hq Hq' Hp; rewrite <-Hq' in Hq; try done; congruence. Qed.
Lemma parent_ne q p : parent q = Some p -> q <> p.
Proof. by destruct q; intros [= <-]. Qed.
Lemma parent_valid q p : valid q -> parent q = Some p -> valid p /\ (place q < NINDIRECT)%nat /\ leaf p = false.
Proof. destruct q; cbn; intros Hv [= <-]; cbn; unfold INODE_INDEX_1, INODE_INDEX_2, INODE_INDEX_3 in *; (split; [|split]); try lia; try tauto; done. Qed.

(** The slot of a logical block *)
Definition MAX_LBN : Z := 10 + 1024 + 1024 * 1024.
Definition slot_of (lbn : Z) : slot :=
  if lbn <? 10 then Root (Z.to_nat lbn)
  else if lbn - 10 <? 1024 then Ind (Z.to_nat (lbn - 10))
  else L3 (Z.to_nat ((lbn - 10 - 1024) / 1024)) (Z.to_nat ((lbn - 10 - 1024) mod 1024)).

Lemma slot_of_valid lbn : 0 <= lbn < MAX_LBN -> valid (slot_of lbn) /\ leaf (slot_of lbn) = true.
Proof.
  intros Hl. unfold slot_of, MAX_LBN in *. destruct (Z.ltb_spec lbn 10); [cbn [valid leaf]; split; [unfold INODE_INDEX_3; lia|apply Nat.ltb_lt; unfold INODE_INDEX_1; lia]|].
  destruct (Z.ltb_spec (lbn - 10) 1024); [cbn; unfold NINDIRECT; split; [lia|done]|].
  pose proof (Z.mod_pos_bound (lbn - 10 - 1024) 1024 ltac:(done)). pose proof (Z.div_pos (lbn - 10 - 1024) 1024).
  assert ((lbn - 10 - 1024) / 1024 < 1024) by (apply Z.div_lt_upper_bound; lia). cbn. unfold NINDIRECT. split; [lia|done].
Qed.
Lemma slot_of_inj l l' : 0 <= l -> 0 <= l' -> slot_of l = slot_of l' -> l = l'.
Proof.
  intros H H'. unfold slot_of. destruct (Z.ltb_spec l 10), (Z.ltb_spec l' 10), (Z.ltb_spec (l - 10) 1024), (Z.ltb_spec (l' - 10) 1024);
    intros E; try discriminate; try lia; try (injection E as E; lia).
  injection E as E1 E2. pose proof (Z.div_mod (l - 10 - 1024) 1024 ltac:(done)). pose proof (Z.div_mod (l' - 10 - 1024) 1024 ltac:(done)).
  pose proof (Z.mod_pos_bound (l - 10 - 1024) 1024 ltac:(done)). pose proof (Z.mod_pos_bound (l' - 10 - 1024) 1024 ltac:(done)).
  pose proof (Z.div_pos (l - 10 - 1024) 1024). pose proof (Z.div_pos (l' - 10 - 1024) 1024). lia.
Qed.

Lemma nonzero_entry v p i : (b ← nonzero p; nonzero (u32_at (v b) i)) = nonzero (entry v p i).
Proof. unfold entry, nonzero. by destruct (p =? 0). Qed.
Lemma lookup_slot v n lbn : lookup_block v n lbn = nonzero (slot_val v n (slot_of lbn)).
Proof.
  unfold lookup_block, slot_of. destruct (lbn <? 10); [done|]. destruct (lbn - 10 <? 1024); [apply nonzero_entry|]. cbn [slot_val].
  rewrite <-nonzero_entry. unfold entry, nonzero, root_val. by destruct (nth INODE_INDEX_2 (index_ n) 0 =? 0).
Qed.

(** ** A file in order *)

Section file.
Context (sb : SuperBlock).
Local Abbreviation bmap := (sb_bmap_start sb).

(** No block is named twice, and the blocks named are marked in the bitmap. *)
Record file_ok (v : Z -> block) (n : InodeDisk) : Prop := {
  fo_dinode : dinode_ok n;
  fo_inj : forall q q', valid q -> valid q' -> slot_val v n q <> 0 -> slot_val v n q = slot_val v n q' -> q = q';
  fo_used : forall q, valid q -> slot_val v n q <> 0 ->
    exists k, Z.of_nat k < sb_nblocks sb /\ slot_val v n q = bmap + 1 + Z.of_nat k /\ bit (v bmap) k = true;
}.

(** The superblock describes a disk of one bitmap block. *)
Record sb_ok : Prop := {
  so_bmap : 0 <= bmap;
  so_max : bmap + 1 + sb_nblocks sb < U32;
  so_nblocks : 0 <= sb_nblocks sb <= Z.of_nat NBITS;
}.

(** A fresh block: its bit is clear, so no slot names it. *)
Lemma fresh_unused v n k q : file_ok v n -> valid q -> bit (v bmap) k = false -> slot_val v n q <> 0 -> slot_val v n q <> bmap + 1 + Z.of_nat k.
Proof. intros Hf Hq Hk Hne E. destruct (fo_used _ _ Hf q Hq Hne) as (k' & _ & E' & Hb). assert (k' = k) as -> by lia. congruence. Qed.
Lemma used_not_bmap v n q : file_ok v n -> valid q -> slot_val v n q <> 0 -> bmap < slot_val v n q.
Proof. intros Hf Hq Hne. destruct (fo_used _ _ Hf q Hq Hne) as (k & _ & -> & _). lia. Qed.

(** [v'], [n'] are [v], [n] with the empty slot [q] filled with [nb]. *)
Record fills (v : Z -> block) (n : InodeDisk) (v' : Z -> block) (n' : InodeDisk) (q : slot) (nb : Z) : Prop := {
  fl_nb : nb <> 0;
  fl_empty : slot_val v n q = 0;
  fl_parent : forall p, parent q = Some p -> slot_val v n p <> 0;
  fl_root : forall i, root_val n' i = if decide (Root i = q) then nb else root_val n i;
  fl_blocks : forall p i, valid p -> slot_val v n p <> 0 -> (i < NINDIRECT)%nat ->
    u32_at (v' (slot_val v n p)) i = if decide (parent q = Some p /\ place q = i) then nb else u32_at (v (slot_val v n p)) i;
  fl_new : forall i, u32_at (v' nb) i = 0;
}.

(** A slot whose parent is as it should be is too. *)
Lemma fills_child v n v' n' q nb q' p : fills v n v' n' q nb -> valid q' -> parent q' = Some p ->
  slot_val v' n' p = (if decide (p = q) then nb else slot_val v n p) ->
  slot_val v' n' q' = if decide (q' = q) then nb else slot_val v n q'.
Proof.
  intros [F1 F2 F3 F4 F5 F6] Hv Hp E. destruct (parent_valid _ _ Hv Hp) as (Hpv & Hpl & _).
  rewrite (slot_val_parent v' n' q' p Hp), (slot_val_parent v n q' p Hp), E. unfold entry. destruct (decide (p = q)) as [->|Hpq].
  - rewrite decide_False by (by apply parent_ne). rewrite (proj2 (Z.eqb_neq _ _) F1), F6, F2. done.
  - destruct (Z.eqb_spec (slot_val v n p) 0) as [Hz|Hnz].
    + rewrite decide_False; [done|]. intros ->. by apply (F3 p).
    + rewrite F5 by done. destruct (decide (q' = q)) as [->|Hne]; [by rewrite decide_True|]. rewrite decide_False; [done|].
      intros [Hpar Hpl']. apply Hne. symmetry. by eapply parent_place.
Qed.
Lemma fills_val v n v' n' q nb q' : fills v n v' n' q nb -> valid q' -> slot_val v' n' q' = if decide (q' = q) then nb else slot_val v n q'.
Proof.
  intros Hf. assert (Hroot : forall i, slot_val v' n' (Root i) = if decide (Root i = q) then nb else slot_val v n (Root i)) by apply Hf.
  destruct q' as [i|k|k|k j]; intros Hv.
  - apply Hroot.
  - by eapply fills_child.
  - by eapply fills_child.
  - eapply fills_child; [done|done|done|]. eapply fills_child; [done|apply Hv|done|apply Hroot].
Qed.

(** ** Free blocks *)

Definition free_blocks (v : Z -> block) : nat := length (base.filter (fun k => bit (v bmap) k = false) (seq 0 (Z.to_nat (sb_nblocks sb)))).

Lemma least_clear (f : nat -> bool) N : (exists k, (k < N)%nat /\ f k = false) -> exists k, (k < N)%nat /\ f k = false /\ forall k', (k' < k)%nat -> f k' = true.
Proof.
  intros (k & Hk & Hf). revert Hk Hf. induction (lt_wf k) as [k _ IH]. intros Hk Hf.
  destruct (decide (Forall (fun k' => f k' = true) (seq 0 k))) as [Hall|Hno].
  - exists k. split_and!; [done|done|]. intros k' Hk'. rewrite Forall_forall in Hall. apply Hall, elem_of_seq. lia.
  - apply not_Forall_Exists in Hno; [|solve_decision]. apply Exists_exists in Hno as (k' & [_ Hlt]%elem_of_seq & Hn).
    apply (IH k'); [lia|lia|by apply not_true_is_false].
Qed.

Lemma free_first_clear v : sb_ok -> (0 < free_blocks v)%nat -> exists k, first_clear (v bmap) k /\ Z.of_nat k < sb_nblocks sb.
Proof.
  intros Hsb Hpos. unfold free_blocks in Hpos. destruct (base.filter _ _) as [|k l] eqn:E; [cbn in Hpos; lia|].
  assert (Hin : k ∈ base.filter (fun k => bit (v bmap) k = false) (seq 0 (Z.to_nat (sb_nblocks sb)))) by (rewrite E; by left).
  apply list_elem_of_filter in Hin as [Hbit [_ Hlt]%elem_of_seq].
  destruct (least_clear (bit (v bmap)) (Z.to_nat (sb_nblocks sb))) as (k' & Hk' & Hb & Hlow); [by exists k|].
  exists k'. pose proof (so_nblocks Hsb). split; [split; [lia|done]|lia].
Qed.

Lemma filter_clear_ext (f g : nat -> bool) (l : list nat) : (forall k, k ∈ l -> f k = g k) ->
  base.filter (fun k => f k = false) l = base.filter (fun k => g k = false) l.
Proof.
  induction l as [|a l IH]; intros H; [done|]. rewrite !filter_cons, (H a) by by left. rewrite IH; [done|]. intros k Hk. apply H. by right.
Qed.

Lemma free_blocks_alloc v v' k : Z.of_nat k < sb_nblocks sb -> bit (v bmap) k = false ->
  (forall k', bit (v' bmap) k' = if decide (k' = k) then true else bit (v bmap) k') -> free_blocks v = S (free_blocks v').
Proof.
  intros Hk Hb Hv. unfold free_blocks. set (N := Z.to_nat (sb_nblocks sb)). assert (Hlt : (k < N)%nat) by lia.
  rewrite (seq_split N k Hlt), !filter_app, !length_app. rewrite (filter_cons_True (fun j => bit (v bmap) j = false)) by done.
  rewrite (filter_cons_False (fun j => bit (v' bmap) j = false)) by (by rewrite Hv, decide_True). cbn [length].
  rewrite <-(filter_clear_ext (bit (v bmap)) (bit (v' bmap)) (seq 0 k)), <-(filter_clear_ext (bit (v bmap)) (bit (v' bmap)) (seq (S k) _)); [lia|..];
    intros j Hj; rewrite Hv; apply elem_of_seq in Hj; by rewrite decide_False by lia.
Qed.

(** ** How a file may grow *)

Context (meta : Z).

(** Blocks are added to the file, zeroed, and marked; its data stays. *)
Record evolves (v : Z -> block) (n : InodeDisk) (v' : Z -> block) (n' : InodeDisk) : Prop := {
  ev_ok : file_ok v' n';
  ev_attrs : type_ n' = type_ n /\ major n' = major n /\ minor n' = minor n /\ nlink n' = nlink n /\ size n' = size n;
  ev_mono : forall q, valid q -> slot_val v n q <> 0 -> slot_val v' n' q = slot_val v n q;
  ev_leaf : forall q, valid q -> leaf q = true -> slot_val v n q <> 0 -> v' (slot_val v n q) = v (slot_val v n q);
  ev_new : forall q, valid q -> leaf q = true -> slot_val v n q = 0 -> slot_val v' n' q = 0 \/ v' (slot_val v' n' q) = zero_block;
  ev_frame : forall b, b <> bmap -> b <> meta -> (forall q, valid q -> slot_val v' n' q <> 0 -> b <> slot_val v' n' q) -> v' b = v b;
  ev_fresh : forall q, valid q -> slot_val v n q = 0 -> slot_val v' n' q <> 0 -> exists k, slot_val v' n' q = bmap + 1 + Z.of_nat k /\ bit (v bmap) k = false;
  ev_bits : forall k, bit (v bmap) k = true -> bit (v' bmap) k = true;
}.

Lemma evolves_refl v n : file_ok v n -> evolves v n v n.
Proof. intros Hf. split; auto. done. Qed.

Lemma evolves_trans v n v1 n1 v2 n2 : evolves v n v1 n1 -> evolves v1 n1 v2 n2 -> evolves v n v2 n2.
Proof.
  intros [A1 A2 A3 A4 A5 A6 A7 A8] [B1 B2 B3 B4 B5 B6 B7 B8]. split; [done| | | | | | |auto].
  - destruct_and! A2. destruct_and! B2. split_and!; congruence.
  - intros q Hq Hne. rewrite B3; [by apply A3|done|by rewrite A3].
  - intros q Hq Hl Hne. rewrite <-(A3 q Hq Hne) at 1. rewrite B4; [rewrite A3 by done; by apply A4|done|done|by rewrite A3].
  - intros q Hq Hl Hz. destruct (Z.eq_dec (slot_val v1 n1 q) 0) as [Hz1|Hnz1]; [by apply B5|]. right.
    rewrite (B3 q Hq Hnz1), B4 by done. by destruct (A5 q Hq Hl Hz).
  - intros b Hb Hm Hq. rewrite B6 by done. apply A6; [done|done|]. intros q Hv Hne. rewrite <-(B3 q Hv Hne). apply Hq; [done|by rewrite B3].
  - intros q Hq Hz Hne. destruct (Z.eq_dec (slot_val v1 n1 q) 0) as [Hz1|Hnz1].
    + destruct (B7 q Hq Hz1 Hne) as (k & E & Hk). exists k. split; [done|]. destruct (bit (v bmap) k) eqn:Hbk; [|done]. apply A8 in Hbk. congruence.
    + rewrite (B3 q Hq Hnz1). by apply A7.
Qed.

Lemma fills_evolves v n v' n' q k : let nb := bmap + 1 + Z.of_nat k in
  sb_ok -> 0 <= meta < bmap -> file_ok v n -> dinode_ok n' -> valid q -> fills v n v' n' q nb ->
  Z.of_nat k < sb_nblocks sb -> bit (v bmap) k = false ->
  (forall k', bit (v' bmap) k' = if decide (k' = k) then true else bit (v bmap) k') ->
  (forall b, b <> nb -> b <> bmap -> b <> meta -> (forall p, parent q = Some p -> b <> slot_val v n p) -> v' b = v b) ->
  v' nb = zero_block -> (type_ n' = type_ n /\ major n' = major n /\ minor n' = minor n /\ nlink n' = nlink n /\ size n' = size n) ->
  evolves v n v' n'.
Proof.
  intros nb Hsb Hmeta Hf Hn' Hq Hfl Hk Hbit Hbits Hsame Hz Hattr.
  pose proof (fun q' => fills_val v n v' n' q nb q' Hfl) as Hval. pose proof (fl_empty _ _ _ _ _ _ Hfl) as Hempty.
  assert (Hold : forall q', valid q' -> slot_val v n q' <> 0 -> slot_val v' n' q' = slot_val v n q').
  { intros q' Hv Hne. rewrite Hval by done. by rewrite decide_False by congruence. }
  split; [|done|done| | | | |].
  - split; [done| |].
    + intros q1 q2 V1 V2. rewrite !Hval by done. destruct (decide (q1 = q)) as [->|N1], (decide (q2 = q)) as [->|N2]; [done| | |by apply Hf].
      * intros _ E. destruct (Z.eq_dec (slot_val v n q2) 0) as [E0|E0]; [pose proof (so_bmap Hsb); subst nb; lia|]. by destruct (fresh_unused v n k q2 Hf V2 Hbit E0).
      * intros Hne E. by destruct (fresh_unused v n k q1 Hf V1 Hbit Hne).
    + intros q' V. rewrite Hval by done. destruct (decide (q' = q)) as [->|N]; intros Hne.
      * exists k. rewrite Hbits, decide_True by done. done.
      * destruct (fo_used _ _ Hf q' V Hne) as (k' & Hk' & E & Hb). exists k'. split; [done|]. split; [done|]. rewrite Hbits. by case_decide.
  - intros q' V L Hne. pose proof (used_not_bmap v n q' Hf V Hne). apply Hsame; [by apply fresh_unused|lia|lia|].
    intros p Hp E. destruct (parent_valid _ _ Hq Hp) as (Hpv & _ & Hl). assert (q' = p) as -> by (by eapply (fo_inj _ _ Hf)). congruence.
  - intros q' V L Hz'. rewrite Hval by done. destruct (decide (q' = q)) as [->|N]; [by right|by left].
  - intros b Hb Hm Hnot. apply Hsame; [|done|done|].
    + intros ->. apply (Hnot q); [done| |]; rewrite Hval, decide_True by done; [apply Hfl|done].
    + intros p Hp E. destruct (parent_valid _ _ Hq Hp) as (Hpv & _ & _). pose proof (fl_parent _ _ _ _ _ _ Hfl p Hp) as Hne.
      apply (Hnot p Hpv); rewrite Hold by done; done.
  - intros q' V Hz'. rewrite Hval by done. destruct (decide (q' = q)) as [->|N]; [by exists k|done].
  - intros k' Hk'. rewrite Hbits. by case_decide.
Qed.
End file.

(** ** [locate_or_add_block] *)

Section growth.
Context {D : Type} `{!BlockDevice D}.
Context (sb : SuperBlock) (ip : nat) (meta : Z) (Hsb : sb_ok sb) (Hmeta : 0 <= meta < sb_bmap_start sb).
Implicit Types (s : fsys D) (v : Z -> block) (ic : nat -> Inode).
Local Abbreviation bmap := (sb_bmap_start sb).
Local Abbreviation dn ic := (idisk (ic ip)).

Record file_st s v ic : Prop := {
  fs_held : fs_hold s v ∅ sb ic;
  fs_file : file_ok sb v (dn ic);
  fs_bitmap : is_block (v bmap);
  fs_meta : inode_block sb (inode_num (ic ip)) = meta;
}.
(** The record of inode [inum] on disk. *)
Definition record_at v (inum : Z) : list Z := slice (inode_offset inum) DINODE_SIZE (v (inode_block sb inum)).
(** The record of the file's inode on disk is the cached one. *)
Definition synced v ic : Prop := decode_dinode (record_at v (inode_num (ic ip))) = dn ic.
(** Of the inode records only the file's may change, and it follows the cached
    one; only the file's cache slot changes. *)
Record records v ic v' ic' : Prop := {
  rc_slot : slot_is ic ic' ip (set_idisk (dn ic') (ic ip));
  rc_others : forall inum, inum <> inode_num (ic ip) -> inode_block sb inum < bmap -> record_at v' inum = record_at v inum;
  rc_synced : synced v ic -> synced v' ic';
}.
(** The file has grown, by at most [c] blocks. *)
Record moved (c : nat) v ic v' ic' : Prop := {
  mv_evolves : evolves sb meta v (dn ic) v' (dn ic');
  mv_records : records v ic v' ic';
  mv_free : (free_blocks sb v <= free_blocks sb v' + c)%nat;
}.

Lemma records_refl v ic : records v ic v ic.
Proof. by split; [split; [destruct (ic ip)|]|..]. Qed.
Lemma records_trans v ic v1 ic1 v2 ic2 : records v ic v1 ic1 -> records v1 ic1 v2 ic2 -> records v ic v2 ic2.
Proof.
  intros [[A1 A2] A3 A4] [[B1 B2] B3 B4]. split; [split| |auto].
  - rewrite B1 at 1. rewrite A1. by destruct (ic ip).
  - intros j Hj. rewrite B2 by done. by apply A2.
  - intros inum Hi Hb. rewrite B3 by (done || by rewrite A1). by apply A3.
Qed.
(** A change above the bitmap or to it is none to the records. *)
Lemma records_high v ic v' : (forall b, b < bmap -> v' b = v b) -> inode_block sb (inode_num (ic ip)) < bmap -> records v ic v' ic.
Proof.
  intros Hv Hm. split; [split; [by destruct (ic ip)|done]| |].
  - intros inum _ Hb. unfold record_at. by rewrite Hv.
  - unfold synced, record_at. by rewrite Hv.
Qed.
(** The write of the record itself. *)
Lemma records_write v ic v1 ic' : inode_block sb (inode_num (ic ip)) = meta -> (forall b, b < bmap -> v1 b = v b) -> (forall b, length (v1 b) = BLOCK_SIZE) ->
  dinode_ok (dn ic') -> slot_is ic ic' ip (set_idisk (dn ic') (ic ip)) ->
  records v ic (<[meta := splice (inode_offset (inode_num (ic ip))) (encode_dinode (dn ic')) (v1 meta)]> v1) ic'.
Proof.
  intros Hm Hv Hl Hd Hs. pose proof (write_inode_view sb (dn ic') v1 (inode_num (ic ip)) Hd Hl) as [W1 W2]. rewrite Hm in W1, W2. split; [done| |].
  - intros inum Hi Hb. unfold record_at. rewrite W2 by done. by rewrite Hv.
  - intros _. unfold synced, record_at. assert (Hn : inode_num (ic' ip) = inode_num (ic ip)) by (destruct Hs as [-> _]; done). by rewrite Hn, Hm.
Qed.

Lemma moved_refl v ic : file_ok sb v (dn ic) -> moved 0 v ic v ic.
Proof. intros Hf. split; [by apply evolves_refl|apply records_refl|lia]. Qed.
Lemma moved_trans c c' v ic v1 ic1 v2 ic2 : moved c v ic v1 ic1 -> moved c' v1 ic1 v2 ic2 -> moved (c + c') v ic v2 ic2.
Proof. intros [A1 A2 A3] [B1 B2 B3]. split; [by eapply evolves_trans|by eapply records_trans|lia]. Qed.
Lemma moved_weaken c c' v ic v' ic' : (c <= c')%nat -> moved c v ic v' ic' -> moved c' v ic v' ic'.
Proof. intros Hc [A1 A2 A3]. split; [done|done|lia]. Qed.

Lemma block_length s v H ic b : fs_hold s v H sb ic -> length (v b) = BLOCK_SIZE.
Proof. intros Hh. eapply hold_length, Hh. Qed.

(** A fresh block. *)
Lemma wp_fresh_block s v H ic : fs_hold s v H sb ic -> is_block (v bmap) -> (0 < free_blocks sb v)%nat -> (base.size H < N_BUFFER)%nat -> H !! bmap = None ->
  (forall k, bit (v bmap) k = false -> H !! (bmap + 1 + Z.of_nat k) = None) ->
  wp bitmap_alloc (fun r s' => exists k, first_clear (v bmap) k /\ Z.of_nat k < sb_nblocks sb /\ r = bmap + 1 + Z.of_nat k /\ fs_hold s' (block_view sb k v) H sb ic) s.
Proof.
  intros Hh Hb Hfree Hsz Hn Hnk. destruct (free_first_clear sb v Hsb Hfree) as (k & Hk & Hlt). pose proof Hk as (_ & Hbit & _).
  destruct Hsb as [S1 S2 S3]. eapply wp_mono; [|apply (wp_bitmap_alloc s v H sb ic k); try done; [lia|by apply Hnk]].
  intros r s' [-> Hh']. exists k. done.
Qed.

Lemma view_bits v k k' : is_block (v bmap) -> first_clear (v bmap) k -> bit (block_view sb k v bmap) k' = if decide (k' = k) then true else bit (v bmap) k'.
Proof. intros Hb (Hk & _). unfold block_view. rewrite fn_lookup_insert_ne, fn_lookup_insert by lia. by apply bit_set_bit. Qed.
Lemma view_other v k b : b <> bmap -> b <> bmap + 1 + Z.of_nat k -> block_view sb k v b = v b.
Proof. intros H1 H2. unfold block_view. by rewrite !fn_lookup_insert_ne. Qed.
Lemma view_new v k : block_view sb k v (bmap + 1 + Z.of_nat k) = zero_block.
Proof. apply fn_lookup_insert. Qed.
Lemma view_bitmap v k : is_block (v bmap) -> is_block (block_view sb k v bmap).
Proof. intros Hb. unfold block_view. rewrite fn_lookup_insert_ne, fn_lookup_insert by lia. by apply is_block_set_bit. Qed.

Lemma set_index_ok n i x : dinode_ok n -> 0 <= x < U32 -> dinode_ok (set_index i x n).
Proof. intros [H1 H2 H3 H4 H5 H6 H7] Hx. split; cbn; [done..|by rewrite length_insert|by apply Forall_insert]. Qed.
Lemma root_val_set n i x j : length (index_ n) = INODE_INDEX_3 -> (i < INODE_INDEX_3)%nat ->
  root_val (set_index i x n) j = if decide (Root j = Root i) then x else root_val n j.
Proof.
  intros Hl Hi. unfold root_val. cbn [index_ set_index]. rewrite !nth_lookup. destruct (decide (Root j = Root i)) as [[= ->]|Hne].
  - by rewrite list_lookup_insert_eq by lia.
  - rewrite list_lookup_insert_ne; [done|]. intros ->. done.
Qed.

(** An entry of the inode. *)
Lemma wp_index_block_grow s v ic i : file_st s v ic -> (i < INODE_INDEX_3)%nat -> (0 < free_blocks sb v)%nat ->
  wp (index_block ip i true) (fun r s' => exists v' ic', file_st s' v' ic' /\ moved 1 v ic v' ic' /\
    r = Some (slot_val v' (dn ic') (Root i)) /\ slot_val v' (dn ic') (Root i) <> 0) s.
Proof.
  intros [Hh Hf Hb Hm] Hi Hfree. pose proof (fo_dinode _ _ _ Hf) as Hdi. unfold index_block, get_index. wp_step. wp_step. eapply wp_the_inode; [done|].
  destruct (lookup_lt_is_Some_2 (index_ (dn ic)) i) as [x Hx]; [rewrite (dk_len _ Hdi); done|].
  assert (Hrv : root_val (dn ic) i = x) by (unfold root_val; by rewrite nth_lookup, Hx).
  eapply wp_index; [lia|by rewrite Nat2Z.id|]. destruct (Z.eqb_spec x 0) as [->|Hne].
  2:{ wp_step. exists v, ic. split; [done|]. split; [apply (moved_weaken 0); [lia|by apply moved_refl]|]. cbn [slot_val]. by rewrite Hrv. }
  cbn [negb]. wp_step. eapply wp_mono; [|apply (wp_fresh_block s v ∅ ic Hh Hb Hfree); [rewrite map_size_empty; unfold N_BUFFER; lia|apply lookup_empty|intros; apply lookup_empty]].
  intros nb s1 (k & Hk & Hlt & -> & H1). pose proof Hk as (_ & Hbit & _). set (nb := bmap + 1 + Z.of_nat k) in *. pose proof (so_bmap _ Hsb). pose proof (so_max _ Hsb).
  wp_step. eapply wp_upd_disk; [exact H1|]. intros s2 H2. wp_step.
  assert (Hnb : 0 <= nb < U32) by (subst nb; lia). pose proof (set_index_ok _ i nb Hdi Hnb) as Hdi'.
  eapply wp_inode_rw_write; [exact H2|apply lookup_empty|rewrite map_size_empty; unfold N_BUFFER; lia| | |].
  { rewrite fn_lookup_insert. cbn [inode_num set_idisk]. rewrite Hm. unfold U32 in *. lia. }
  { rewrite fn_lookup_insert. cbn [idisk set_idisk]. apply Hdi'. }
  intros s3 H3. rewrite fn_lookup_insert in H3. cbn [idisk set_idisk inode_num] in H3. rewrite Hm in H3. wp_step.
  match type of H3 with fs_hold _ ?v3 _ _ ?ic3 => set (v' := v3) in *; set (ic' := ic3) in * end.
  assert (Hother : forall b, b <> meta -> v' b = block_view sb k v b) by (intros b Hbm; subst v'; by rewrite fn_lookup_insert_ne).
  assert (Hbits : forall k', bit (v' bmap) k' = if decide (k' = k) then true else bit (v bmap) k') by (intros k'; rewrite Hother by lia; by apply view_bits).
  assert (Hev : evolves sb meta v (dn ic) v' (set_index i nb (dn ic))).
  { apply (fills_evolves sb meta v (dn ic) v' _ (Root i) k); try done.
    - split; fold nb; cbn [slot_val parent]; [subst nb; lia|done|done| | |].
      + intros j. apply root_val_set; [apply Hdi|done].
      + intros p j Hp Hne Hj. rewrite decide_False by (by intros [? _]). pose proof (used_not_bmap sb v (dn ic) p Hf Hp Hne).
        rewrite Hother, view_other; [done|lia|by apply (fresh_unused sb v (dn ic))|lia].
      + intros j. rewrite Hother, view_new by (subst nb; lia). apply u32_at_zero.
    - fold nb. intros b B1 B2 B3 _. rewrite Hother by done. by apply view_other.
    - fold nb. rewrite Hother by (subst nb; lia). apply view_new. }
  assert (Hdn : dn ic' = set_index i nb (dn ic)) by (subst ic'; by rewrite fn_lookup_insert).
  assert (Hslot : slot_val v' (dn ic') (Root i) = nb) by (cbn [slot_val]; rewrite Hdn, root_val_set, decide_True by (done || apply Hdi); done).
  exists v', ic'. rewrite Hslot. split; [|split; [|split; [done|subst nb; lia]]].
  - split; [exact H3|rewrite Hdn; apply Hev|rewrite Hother by lia; by apply view_bitmap|subst ic'; rewrite fn_lookup_insert; exact Hm].
  - split; [rewrite Hdn; exact Hev| |].
    + subst v'. rewrite <-Hdn. apply records_write; [done|intros b Hb'; apply view_other; subst nb; lia|intros b; by eapply block_length, H1|by rewrite Hdn|].
      split; [by rewrite Hdn; subst ic'; rewrite fn_lookup_insert|]. intros j Hj. subst ic'. by rewrite fn_lookup_insert_ne.
    + rewrite (free_blocks_alloc sb v v' k) by done. lia.
Qed.

(** An entry of an index block. *)
Lemma wp_indirect_block_grow s v ic q p : file_st s v ic -> valid q -> parent q = Some p -> slot_val v (dn ic) p <> 0 -> (0 < free_blocks sb v)%nat ->
  wp (indirect_block (slot_val v (dn ic) p) (place q) true) (fun r s' => exists v', file_st s' v' ic /\ moved 1 v ic v' ic /\
    r = Some (slot_val v' (dn ic) q) /\ slot_val v' (dn ic) q <> 0) s.
Proof.
  intros [Hh Hf Hb Hm] Hq Hp Hpn Hfree. set (iblk := slot_val v (dn ic) p) in *. destruct (parent_valid _ _ Hq Hp) as (Hpv & Hpl & _).
  assert (Hval : slot_val v (dn ic) q = u32_at (v iblk) (place q)).
  { rewrite (slot_val_parent _ _ _ _ Hp). fold iblk. unfold entry. by rewrite (proj2 (Z.eqb_neq _ _) Hpn). }
  pose proof (used_not_bmap sb v (dn ic) p Hf Hpv Hpn) as Hib. fold iblk in Hib. pose proof (block_length _ _ _ _ iblk Hh) as Hil.
  unfold indirect_block. wp_step. eapply wp_fs_read; [exact Hh|apply lookup_empty|rewrite map_size_empty; unfold N_BUFFER; lia|]. intros id s1 H1.
  wp_step. eapply wp_fs_load; [exact H1|by rewrite lookup_insert_eq|]. cbv zeta. rewrite <-Hval. destruct (Z.eqb_spec (slot_val v (dn ic) q) 0) as [Hz|Hne].
  2:{ wp_step. eapply wp_fs_release; [exact H1|by rewrite lookup_insert_eq|]. intros s2 H2. rewrite held_released in H2 by apply lookup_empty. wp_step.
      exists v. split; [done|]. split; [apply (moved_weaken 0); [lia|by apply moved_refl]|done]. }
  cbn [negb]. wp_step. eapply wp_mono; [|apply (wp_fresh_block s1 v _ ic H1 Hb Hfree)].
  2:{ rewrite size_held by apply lookup_empty. rewrite map_size_empty. unfold N_BUFFER. lia. }
  2:{ rewrite lookup_insert_ne by lia. apply lookup_empty. }
  2:{ intros k Hk. rewrite lookup_insert_ne; [apply lookup_empty|]. by apply (fresh_unused sb v (dn ic)). }
  intros nb s2 (k & Hk & Hlt & -> & H2). pose proof Hk as (_ & Hbit & _). set (nb := bmap + 1 + Z.of_nat k) in *. pose proof (so_bmap _ Hsb). pose proof (so_max _ Hsb).
  assert (Hin : iblk <> nb) by (by apply (fresh_unused sb v (dn ic))).
  assert (Hnb : 0 <= nb < U32) by (subst nb; lia).
  wp_step. eapply wp_fs_load; [exact H2|by rewrite lookup_insert_eq|]. rewrite view_other by (done || lia).
  wp_step. eapply wp_fs_store; [exact H2|by rewrite lookup_insert_eq| |].
  { unfold set_u32. rewrite length_splice; [done|]. rewrite length_le_bytes, Hil. unfold NINDIRECT, BLOCK_SIZE in *. lia. }
  intros s3 H3. rewrite held_again in H3. wp_step. eapply wp_fs_write; [exact H3|by rewrite lookup_insert_eq|].
  intros s4 H4. rewrite held_again in H4. wp_step. eapply wp_fs_release; [exact H4|by rewrite lookup_insert_eq|].
  intros s5 H5. rewrite held_released in H5 by apply lookup_empty. wp_step.
  match type of H5 with fs_hold _ ?v5 _ _ _ => set (v' := v5) in * end.
  assert (Hother : forall b, b <> iblk -> v' b = block_view sb k v b) by (intros b Hbm; subst v'; by rewrite fn_lookup_insert_ne).
  assert (Hself : v' iblk = set_u32 (place q) nb (v iblk)) by (subst v'; by rewrite fn_lookup_insert).
  assert (Hbits : forall k', bit (v' bmap) k' = if decide (k' = k) then true else bit (v bmap) k') by (intros k'; rewrite Hother by lia; by apply view_bits).
  assert (Hfl : fills v (dn ic) v' (dn ic) q nb).
  { split; [subst nb; lia|done| | | |].
    - intros p' Hp'. rewrite Hp in Hp'. by injection Hp' as <-.
    - intros i. rewrite decide_False; [done|]. intros <-. done.
    - intros p' i Hp' Hne Hi. destruct (decide (p' = p)) as [->|Hpp].
      + fold iblk. rewrite Hself. destruct (decide (place q = i)) as [<-|Hpi].
        * rewrite decide_True by done. apply u32_at_set; [|done]. rewrite Hil. unfold NINDIRECT, BLOCK_SIZE in *. lia.
        * rewrite decide_False by (by intros [_ ?]). apply u32_at_set_ne; [|done]. rewrite Hil. unfold NINDIRECT, BLOCK_SIZE in *. lia.
      + rewrite decide_False by (intros [E _]; rewrite Hp in E; congruence). pose proof (used_not_bmap sb v (dn ic) p' Hf Hp' Hne).
        rewrite Hother, view_other; [done|lia|by apply (fresh_unused sb v (dn ic))|]. intros E. apply Hpp. by eapply (fo_inj _ _ _ Hf).
    - intros i. rewrite Hother, view_new by done. apply u32_at_zero. }
  assert (Hslot : slot_val v' (dn ic) q = nb) by (rewrite (fills_val v (dn ic) v' (dn ic) q nb q Hfl Hq); by rewrite decide_True).
  assert (Hev : evolves sb meta v (dn ic) v' (dn ic)).
  { apply (fills_evolves sb meta v (dn ic) v' _ q k); try done; fold nb.
    - apply Hf.
    - intros b B1 B2 B3 B4. rewrite Hother by (by apply B4). by apply view_other.
    - rewrite Hother by done. apply view_new. }
  exists v'. rewrite Hslot. split; [|split; [|split; [done|subst nb; lia]]].
  - split; [exact H5|apply Hev|rewrite Hother by lia; by apply view_bitmap|done].
  - split; [exact Hev|apply records_high; [intros b Hb'; rewrite Hother by lia; apply view_other; subst nb; lia|lia]|]. rewrite (free_blocks_alloc sb v v' k) by done. lia.
Qed.

(** With [grow] the slot of the block is found or filled. *)
Lemma wp_locate_grow s v ic lbn : file_st s v ic -> 0 <= lbn < MAX_LBN -> (3 <= free_blocks sb v)%nat ->
  wp (locate_or_add_block ip lbn true) (fun r s' => exists v' ic', file_st s' v' ic' /\ moved 3 v ic v' ic' /\
    r = Some (slot_val v' (dn ic') (slot_of lbn)) /\ slot_val v' (dn ic') (slot_of lbn) <> 0) s.
Proof.
  intros Hst Hl Hfree. destruct (slot_of_valid lbn Hl) as [Hv _]. unfold locate_or_add_block. unfold slot_of in *. unfold MAX_LBN in Hl.
  change (Z.of_nat INODE_INDEX_1) with 10. change (Z.of_nat NINDIRECT) with 1024. destruct (Z.ltb_spec lbn 10).
  { eapply wp_mono; [|apply wp_index_block_grow; [exact Hst|exact Hv|lia]]. intros r s1 (v1 & ic1 & S1 & M1 & R1). exists v1, ic1. split; [done|]. split; [|done].
    by apply (moved_weaken 1); [lia|]. }
  wp_step. wp_step. destruct (Z.ltb_spec (lbn - 10) 1024).
  { wp_step. eapply wp_mono; [|apply wp_index_block_grow; [exact Hst|unfold INODE_INDEX_1, INODE_INDEX_3; lia|lia]].
    intros r s1 (v1 & ic1 & S1 & M1 & -> & N1). pose proof (mv_free _ _ _ _ _ M1).
    eapply wp_mono; [|apply (wp_indirect_block_grow s1 v1 ic1 (Ind (Z.to_nat (lbn - 10))) (Root INODE_INDEX_1)); [done|done|done|done|lia]].
    intros r s2 (v2 & S2 & M2 & R2). exists v2, ic1. split; [done|]. split; [|done]. apply (moved_weaken 2); [lia|]. exact (moved_trans 1 1 _ _ _ _ _ _ M1 M2). }
  wp_step. wp_step. rewrite (proj2 (Z.ltb_lt _ (1024 * 1024))) by lia. wp_step.
  eapply wp_mono; [|apply wp_index_block_grow; [exact Hst|unfold INODE_INDEX_2, INODE_INDEX_3; lia|lia]].
  intros r s1 (v1 & ic1 & S1 & M1 & -> & N1). pose proof (mv_free _ _ _ _ _ M1). cbv zeta. cbn [valid] in Hv.
  wp_step. eapply wp_mono; [|apply (wp_indirect_block_grow s1 v1 ic1 (L2 (Z.to_nat ((lbn - 10 - 1024) / 1024))) (Root INODE_INDEX_2)); [done|apply Hv|done|done|lia]].
  intros r s2 (v2 & S2 & M2 & -> & N2). pose proof (mv_free _ _ _ _ _ M2).
  eapply wp_mono; [|apply (wp_indirect_block_grow s2 v2 ic1 (L3 (Z.to_nat ((lbn - 10 - 1024) / 1024)) (Z.to_nat ((lbn - 10 - 1024) mod 1024))) (L2 (Z.to_nat ((lbn - 10 - 1024) / 1024)))); [done|done|done|done|lia]].
  intros r s3 (v3 & S3 & M3 & R3). exists v3, ic1. split; [done|]. split; [|done].
  exact (moved_trans 2 1 _ _ _ _ _ _ (moved_trans 1 1 _ _ _ _ _ _ M1 M2) M3).
Qed.

(** ** Storing bytes *)

Local Abbreviation BS := (Z.of_nat BLOCK_SIZE).

(** A store to a block that is no index block of the file keeps its slots. *)
Lemma slot_val_store v n b x : (forall p, valid p -> leaf p = false -> slot_val v n p <> 0 -> slot_val v n p <> b) ->
  forall q, valid q -> slot_val (<[b := x]> v) n q = slot_val v n q.
Proof.
  intros Hb. assert (Hchild : forall q p, valid q -> parent q = Some p -> slot_val (<[b := x]> v) n p = slot_val v n p -> slot_val (<[b := x]> v) n q = slot_val v n q).
  { intros q p Hq Hp E. destruct (parent_valid _ _ Hq Hp) as (Hpv & _ & Hl). rewrite !(slot_val_parent _ _ _ _ Hp), E. unfold entry.
    destruct (Z.eqb_spec (slot_val v n p) 0) as [|Hne]; [done|]. rewrite fn_lookup_insert_ne; [done|]. intros ->. by apply (Hb p). }
  intros [i|k|k|k j] Hv; [done|by eapply Hchild|by eapply Hchild|]. eapply Hchild; [done|done|]. eapply Hchild; [apply Hv|done|done].
Qed.

Lemma file_ok_store v n b x : file_ok sb v n -> b <> bmap -> (forall p, valid p -> leaf p = false -> slot_val v n p <> 0 -> slot_val v n p <> b) ->
  file_ok sb (<[b := x]> v) n.
Proof.
  intros [F1 F2 F3] Hb Hp. pose proof (slot_val_store v n b x Hp) as Hs. split; [done| |].
  - intros q q' Hq Hq'. rewrite !Hs by done. by apply F2.
  - intros q Hq. rewrite Hs by done. rewrite fn_lookup_insert_ne by done. by apply F3.
Qed.

(** Data blocks are not index blocks. *)
Lemma data_not_index v n q : file_ok sb v n -> valid q -> leaf q = true -> slot_val v n q <> 0 ->
  forall p, valid p -> leaf p = false -> slot_val v n p <> 0 -> slot_val v n p <> slot_val v n q.
Proof. intros Hf Hq Hl Hne p Hp Hlp Hnp E. assert (p = q) as -> by (by eapply (fo_inj _ _ _ Hf)). congruence. Qed.

Lemma file_byte_slot v n k : file_byte v n k =
  let b := slot_val v n (slot_of (k / BS)) in if b =? 0 then 0 else byte_at (v b) (Z.to_nat (k mod BS)).
Proof. unfold file_byte. rewrite lookup_slot. unfold nonzero. cbv zeta. by destruct (slot_val v n (slot_of (k / BS)) =? 0). Qed.

Lemma byte_at_zero i : byte_at zero_block i = 0.
Proof.
  unfold byte_at. destruct (nth_in_or_default i zero_block 0) as [Hin|Heq]; [|done]. by apply list_elem_of_In, elem_of_replicate in Hin as [-> _].
Qed.

Lemma lbn_range k : 0 <= k < U32 -> 0 <= k / BS < MAX_LBN.
Proof.
  intros Hk. change BS with 4096. unfold U32 in Hk. split; [apply Z.div_pos; lia|]. apply Z.div_lt_upper_bound; [lia|]. unfold MAX_LBN. lia.
Qed.

(** Growing does not change what the file holds: new blocks read as the holes did. *)
Lemma evolves_bytes v n v' n' k : evolves sb meta v n v' n' -> 0 <= k < U32 -> file_byte v' n' k = file_byte v n k.
Proof.
  intros [E1 E2 E3 E4 E5 E6 _ _] Hk. destruct (slot_of_valid _ (lbn_range k Hk)) as [Hv Hl]. rewrite !file_byte_slot. cbv zeta.
  destruct (Z.eqb_spec (slot_val v n (slot_of (k / BS))) 0) as [Hz|Hnz].
  - destruct (Z.eqb_spec (slot_val v' n' (slot_of (k / BS))) 0) as [|Hnz']; [done|]. destruct (E5 _ Hv Hl Hz) as [|E]; [done|]. rewrite E. apply byte_at_zero.
  - rewrite E3, E4 by done. by rewrite (proj2 (Z.eqb_neq _ _) Hnz).
Qed.

(** The file after [off .. o) was written. *)
Record wrote (off o : Z) (src : list Z) v n v' n' : Prop := {
  wr_attrs : type_ n' = type_ n /\ major n' = major n /\ minor n' = minor n /\ nlink n' = nlink n /\ size n' = size n;
  wr_mono : forall q, valid q -> slot_val v n q <> 0 -> slot_val v' n' q = slot_val v n q;
  wr_frame : forall b, b <> bmap -> b <> meta -> (forall q, valid q -> slot_val v' n' q <> 0 -> b <> slot_val v' n' q) -> v' b = v b;
  wr_bytes : forall k, 0 <= k < U32 -> file_byte v' n' k = if decide (off <= k < o) then nth (Z.to_nat (k - off)) src 0 else file_byte v n k;
  wr_fresh : forall q, valid q -> slot_val v n q = 0 -> slot_val v' n' q <> 0 -> exists k, slot_val v' n' q = bmap + 1 + Z.of_nat k /\ bit (v bmap) k = false;
  wr_bits : forall k, bit (v bmap) k = true -> bit (v' bmap) k = true;
}.

Lemma wrote_none off src v n : wrote off off src v n v n.
Proof. split; [done|done|done| |done|done]. intros k _. by rewrite decide_False by lia. Qed.

Lemma wrote_grow off o src v n v1 n1 v2 n2 : wrote off o src v n v1 n1 -> evolves sb meta v1 n1 v2 n2 -> wrote off o src v n v2 n2.
Proof.
  intros [A1 A2 A3 A4 A5 A6] He. pose proof He as [B1 B2 B3 B4 B5 B6 B7 B8]. split; [| | | | |auto].
  - destruct_and! A1. destruct_and! B2. split_and!; congruence.
  - intros q Hq Hne. rewrite B3; [by apply A2|done|by rewrite A2].
  - intros b Hb Hm Hq. rewrite B6 by done. apply A3; [done|done|]. intros q Hv Hne. rewrite <-(B3 q Hv Hne). apply Hq; [done|by rewrite B3].
  - intros k Hk. rewrite (evolves_bytes _ _ _ _ _ He Hk). by apply A4.
  - intros q Hq Hz Hne. destruct (Z.eq_dec (slot_val v1 n1 q) 0) as [Hz1|Hnz1].
    + destruct (B7 q Hq Hz1 Hne) as (k & E & Hk). exists k. split; [done|]. destruct (bit (v bmap) k) eqn:Hbk; [|done]. apply A6 in Hbk. congruence.
    + rewrite (B3 q Hq Hnz1). by apply A5.
Qed.

(** One round: [c] bytes at [o], inside one block. *)
Lemma wrote_store off o c src v n v1 n1 : let q := slot_of (o / BS) in let b := slot_val v1 n1 q in
  wrote off o src v n v1 n1 -> file_ok sb v1 n1 -> length (v1 b) = BLOCK_SIZE -> b <> 0 -> 0 <= off <= o -> o < U32 -> 0 <= c -> o mod BS + c <= BS ->
  o - off + c <= Z.of_nat (length src) ->
  wrote off (o + c) src v n (<[b := splice (Z.to_nat (o mod BS)) (slice (Z.to_nat (o - off)) (Z.to_nat c) src) (v1 b)]> v1) n1.
Proof.
  intros q b [A1 A2 A3 A4 A5 A6] Hf Hlen Hb Hoff Ho Hc Hin Hsrc. destruct (slot_of_valid (o / BS)) as [Hv Hl]; [by apply lbn_range; lia|]. fold q in Hv, Hl.
  pose proof (slot_val_store v1 n1 b (splice (Z.to_nat (o mod BS)) (slice (Z.to_nat (o - off)) (Z.to_nat c) src) (v1 b)) (data_not_index v1 n1 q Hf Hv Hl Hb)) as Hs.
  pose proof (Z.mod_pos_bound o BS ltac:(done)) as Hmo.
  assert (Hsl : length (slice (Z.to_nat (o - off)) (Z.to_nat c) src) = Z.to_nat c) by (unfold slice; rewrite length_take, length_drop; lia).
  pose proof (used_not_bmap sb v1 n1 q Hf Hv Hb) as Hbm. fold b in Hbm. split; [done| | | | |].
  5:{ intros k Hk. rewrite fn_lookup_insert_ne by lia. by apply A6. }
  4:{ intros q' Hq' Hz. rewrite Hs by done. by apply A5. }
  - intros q' Hq' Hne. rewrite Hs by done. by apply A2.
  - intros b' Hb' Hm Hq'. assert (Hbb : b' <> b) by (intros ->; apply (Hq' q Hv); rewrite Hs by done; done). rewrite fn_lookup_insert_ne by congruence.
    apply A3; [done|done|]. intros q' Hv' Hne. rewrite <-(Hs q' Hv'). apply Hq'; [done|]. by rewrite Hs.
  - intros k Hk. destruct (slot_of_valid _ (lbn_range k Hk)) as [Hvk Hlk]. rewrite file_byte_slot. cbv zeta. rewrite Hs by done.
    pose proof (Z.div_mod k BS ltac:(done)) as Hdk. pose proof (Z.mod_pos_bound k BS ltac:(done)) as Hmk. pose proof (Z.div_mod o BS ltac:(done)) as Hdo.
    destruct (Z.eq_dec (k / BS) (o / BS)) as [Heq|Hne].
    + rewrite Heq. fold q. fold b. rewrite (proj2 (Z.eqb_neq _ _) Hb), fn_lookup_insert. unfold byte_at. rewrite nth_lookup, splice_lookup by (rewrite Hsl, Hlen; lia). rewrite Hsl.
      destruct (decide (o <= k < o + c)) as [Hin'|Hout].
      * rewrite decide_True by lia. rewrite decide_True by lia. rewrite lookup_slice by lia. rewrite nth_lookup. do 2 f_equal. lia.
      * rewrite decide_False by lia. rewrite <-nth_lookup. fold (byte_at (v1 b) (Z.to_nat (k mod BS))).
        assert (E : file_byte v1 n1 k = byte_at (v1 b) (Z.to_nat (k mod BS))) by (rewrite file_byte_slot; cbv zeta; rewrite Heq; fold q; fold b; by rewrite (proj2 (Z.eqb_neq _ _) Hb)).
        rewrite <-E, A4 by done. destruct (decide (off <= k < o)); [by rewrite decide_True by lia|by rewrite decide_False by lia].
    + assert (E : file_byte v1 n1 k = if decide (off <= k < o + c) then nth (Z.to_nat (k - off)) src 0 else file_byte v n k).
      { rewrite A4 by done. destruct (decide (off <= k < o)); [by rewrite decide_True by lia|]. rewrite decide_False; [done|]. intros Hr. apply Hne.
        symmetry. apply (Z.div_unique k BS (o / BS) (k - o / BS * BS)); [left; lia|lia]. }
      rewrite <-E, file_byte_slot. cbv zeta. destruct (Z.eqb_spec (slot_val v1 n1 (slot_of (k / BS))) 0) as [|Hnz]; [done|].
      rewrite fn_lookup_insert_ne; [done|]. intros Eb. apply Hne. pose proof (lbn_range k Hk). pose proof (lbn_range o ltac:(lia)).
      apply slot_of_inj; [lia|lia|]. symmetry. by eapply (fo_inj _ _ _ Hf).
Qed.

(** ** The loop *)

Definition write_body (end_ : Z) (src : list Z) (st : Z * nat) : M (fsys D) (Z * nat + unit) :=
  let '(off, src_off) := st in
  if off <? end_ then
    let lbn := off / BS in
    let off_in_block := Z.to_nat (off mod BS) in
    copy_len ← chunk off end_;
    o ← locate_or_add_block ip lbn true;
    block_no ← expect o "inode_write_data: out of blocks";
    b ← buf (buffer_read 0 block_no);
    d ← buf (load_data b);
    buf (store_data b (splice off_in_block (slice src_off (Z.to_nat copy_len) src) d));;
    buf (buffer_write b);;
    buf (buffer_release b);;
    off' ← uadd32 off copy_len;
    mret (inl (off', (src_off + Z.to_nat copy_len)%nat))
  else mret (inr tt).

(** Blocks the rest of the transfer touches. *)
Definition blocks_left (o end_ : Z) : Z := if o <? end_ then (end_ - 1) / BS - o / BS + 1 else 0.

Lemma blocks_left_step o end_ : 0 <= o < end_ -> blocks_left o end_ = 1 + blocks_left (o + chunk_len o end_) end_.
Proof.
  intros Ho. destruct (chunk_len_spec o end_ Ho) as [C1 C2]. unfold blocks_left. rewrite (proj2 (Z.ltb_lt _ _)) by lia.
  pose proof (Z.div_mod o BS ltac:(done)). pose proof (Z.mod_pos_bound o BS ltac:(done)). unfold chunk_len in *.
  destruct (Z.ltb_spec (o + Z.min (BS - o mod BS) (end_ - o)) end_) as [Hlt|Hge].
  - rewrite Z.min_l by lia. replace (o + (BS - o mod BS)) with ((o / BS + 1) * BS) by lia. rewrite Z.div_mul by done. lia.
  - rewrite <-(Z.div_unique (end_ - 1) BS (o / BS) (end_ - 1 - o / BS * BS)); [lia|left; lia|lia].
Qed.

Lemma wp_store_chunk {A} s v ic o c bytes (m : M (fsys D) A) Q : let b := slot_val v (dn ic) (slot_of (o / BS)) in
  file_st s v ic -> 0 <= o < U32 -> b <> 0 -> length bytes = Z.to_nat c -> 0 <= c -> o mod BS + c <= BS ->
  (forall s', file_st s' (<[b := splice (Z.to_nat (o mod BS)) bytes (v b)]> v) ic -> wp m Q s') ->
  wp (b ← buf (buffer_read 0 b);
      d ← buf (load_data b);
      buf (store_data b (splice (Z.to_nat (o mod BS)) bytes d));;
      buf (buffer_write b);;
      buf (buffer_release b);;
      m) Q s.
Proof.
  intros b [Hh Hf Hb Hm] Ho Hne Hl Hc Hin HQ. destruct (slot_of_valid _ (lbn_range o Ho)) as [Hv Hleaf]. pose proof (Z.mod_pos_bound o BS ltac:(done)).
  wp_step. eapply wp_fs_read; [exact Hh|apply lookup_empty|rewrite map_size_empty; unfold N_BUFFER; lia|]. intros id s1 H1.
  wp_step. eapply wp_fs_load; [exact H1|by rewrite lookup_insert_eq|]. wp_step. eapply wp_fs_store; [exact H1|by rewrite lookup_insert_eq| |].
  { rewrite length_splice; rewrite (block_length _ _ _ _ b Hh); [done|lia]. }
  intros s2 H2. rewrite held_again in H2. wp_step. eapply wp_fs_write; [exact H2|by rewrite lookup_insert_eq|].
  intros s3 H3. rewrite held_again in H3. wp_step. eapply wp_fs_release; [exact H3|by rewrite lookup_insert_eq|].
  intros s4 H4. rewrite held_released in H4 by apply lookup_empty. pose proof (used_not_bmap sb v (dn ic) _ Hf Hv Hne). fold b in H0.
  apply HQ. split; [exact H4| |by rewrite fn_lookup_insert_ne by lia|done]. apply file_ok_store; [done|lia|]. by apply data_not_index.
Qed.

Lemma wp_write_loop s v ic off end_ src fuel : file_st s v ic -> 0 <= off <= end_ -> end_ + BS < U32 -> end_ - off <= Z.of_nat (length src) ->
  3 * blocks_left off end_ <= Z.of_nat (free_blocks sb v) -> (Z.to_nat (end_ - off) < fuel)%nat ->
  wp (loop fuel (write_body end_ src) (off, 0%nat)) (fun _ s' => exists v' ic', file_st s' v' ic' /\
    wrote off end_ src v (dn ic) v' (dn ic') /\ records v ic v' ic' /\
    Z.of_nat (free_blocks sb v) <= Z.of_nat (free_blocks sb v') + 3 * blocks_left off end_) s.
Proof.
  intros Hst Hoff Hend Hsrc Hfree Hfuel. unfold U32 in Hend.
  apply (wp_loop (fun st s' => exists v' ic', file_st s' v' ic' /\ off <= st.1 <= end_ /\ st.2 = Z.to_nat (st.1 - off) /\
    wrote off st.1 src v (dn ic) v' (dn ic') /\ records v ic v' ic' /\ Z.of_nat (free_blocks sb v) <= Z.of_nat (free_blocks sb v') + 3 * (blocks_left off end_ - blocks_left st.1 end_))
    (fun st _ => Z.to_nat (end_ - st.1))); [| |done].
  2:{ cbn [fst snd]. exists v, ic. split; [done|]. split; [lia|]. split; [lia|]. split; [apply wrote_none|]. split; [apply records_refl|lia]. }
  intros [o k] s1 HI. cbn [fst snd] in HI. destruct HI as (v1 & ic1 & S1 & Ho & -> & W1 & I1 & F1). unfold write_body.
  destruct (Z.ltb_spec o end_) as [Hlt|Hge]; [|assert (o = end_) as -> by lia; wp_step; exists v1, ic1; split; [done|]; split; [done|]; split; [done|];
    unfold blocks_left at 2 in F1; rewrite Z.ltb_irrefl in F1; lia].
  cbv zeta. destruct (chunk_len_spec o end_ ltac:(lia)) as [C1 C2]. pose proof (blocks_left_step o end_ ltac:(lia)) as HL.
  assert (0 <= blocks_left (o + chunk_len o end_) end_).
  { unfold blocks_left. destruct (Z.ltb_spec (o + chunk_len o end_) end_); [|done].
    pose proof (Z.div_le_mono (o + chunk_len o end_) (end_ - 1) BS ltac:(done) ltac:(lia)). lia. }
  wp_step. apply wp_chunk; [lia|unfold U32; lia|]. wp_step.
  eapply wp_mono; [|apply (wp_locate_grow s1 v1 ic1 (o / BS) S1); [apply lbn_range; unfold U32; lia|lia]].
  intros r s2 (v2 & ic2 & S2 & M2 & -> & N2). pose proof M2 as [E2 J2 F2]. wp_step. unfold expect. wp_step.
  assert (Hsl : length (slice (Z.to_nat (o - off)) (Z.to_nat (chunk_len o end_)) src) = Z.to_nat (chunk_len o end_)) by (unfold slice; rewrite length_take, length_drop; lia).
  eapply (wp_store_chunk s2 v2 ic2 o (chunk_len o end_)); [done|unfold U32; lia|done|done|lia|done|]. intros s3 S3.
  wp_step. unfold uadd32. apply wp_checked; [unfold U32; lia|]. wp_step. cbn [fst snd]. split; [|lia]. eexists _, ic2. split; [exact S3|]. split; [lia|]. split; [lia|].
  split; [apply wrote_store; [by eapply wrote_grow|apply S2|eapply block_length, S2|done|lia|unfold U32; lia|lia|done|lia]|].
  destruct (slot_of_valid (o / BS)) as [Hv _]; [apply lbn_range; unfold U32; lia|]. pose proof (used_not_bmap sb v2 (dn ic2) _ (fs_file _ _ _ S2) Hv N2). split.
  - eapply records_trans; [exact I1|]. eapply records_trans; [exact J2|]. apply records_high; [|rewrite (fs_meta _ _ _ S2); lia].
    intros b Hb. by rewrite fn_lookup_insert_ne by lia.
  - assert (Hfb : forall b x, b <> bmap -> free_blocks sb (<[b := x]> v2) = free_blocks sb v2).
    { intros b x Hb. unfold free_blocks. by rewrite fn_lookup_insert_ne. }
    rewrite Hfb by lia. lia.
Qed.

(** ** The whole write *)

Lemma set_size_ok n x : dinode_ok n -> 0 <= x < U32 -> dinode_ok (set_size x n).
Proof. intros [H1 H2 H3 H4 H5 H6 H7] Hx. by split. Qed.

(** The inode written back: its block is not one of the file's. *)
Lemma not_meta v n : file_ok sb v n -> forall p, valid p -> slot_val v n p <> 0 -> slot_val v n p <> meta.
Proof. intros Hf p Hp Hne. pose proof (used_not_bmap sb v n p Hf Hp Hne). lia. Qed.

Lemma file_byte_store v n b x k : (forall p, valid p -> slot_val v n p <> 0 -> slot_val v n p <> b) -> 0 <= k < U32 ->
  file_byte (<[b := x]> v) n k = file_byte v n k.
Proof.
  intros Hb Hk. destruct (slot_of_valid _ (lbn_range k Hk)) as [Hv _]. rewrite !file_byte_slot. cbv zeta. rewrite slot_val_store by auto.
  destruct (Z.eqb_spec (slot_val v n (slot_of (k / BS))) 0) as [|Hne]; [done|]. rewrite fn_lookup_insert_ne; [done|]. intros E. by apply (Hb _ Hv Hne).
Qed.

(** A file whose blocks are as they were is as it was. *)
Lemma same_blocks_file v v' m : file_ok sb v m -> (forall q, valid q -> slot_val v m q <> 0 -> v' (slot_val v m q) = v (slot_val v m q)) ->
  (forall k, bit (v bmap) k = true -> bit (v' bmap) k = true) ->
  file_ok sb v' m /\ (forall q, valid q -> slot_val v' m q = slot_val v m q) /\ forall k, 0 <= k < U32 -> file_byte v' m k = file_byte v m k.
Proof.
  intros Hm Hsame Hbits.
  assert (Hchild : forall q p, valid q -> parent q = Some p -> slot_val v' m p = slot_val v m p -> slot_val v' m q = slot_val v m q).
  { intros q p Hq Hp E. destruct (parent_valid _ _ Hq Hp) as (Hpv & _ & _). rewrite !(slot_val_parent _ _ _ _ Hp), E. unfold entry.
    destruct (Z.eqb_spec (slot_val v m p) 0) as [|Hne]; [done|]. by rewrite Hsame. }
  assert (Hs : forall q, valid q -> slot_val v' m q = slot_val v m q).
  { intros [i|k|k|k j] Hv; [done|by eapply Hchild|by eapply Hchild|]. eapply Hchild; [done|done|]. eapply Hchild; [apply Hv|done|done]. }
  destruct Hm as [M1 M2 M3]. split; [split; [done| |]|split; [done|]].
  - intros q q' Hq Hq'. rewrite !Hs by done. by apply M2.
  - intros q Hq. rewrite Hs by done. intros Hne. destruct (M3 q Hq Hne) as (k & ? & ? & ?). exists k. auto.
  - intros k Hk. destruct (slot_of_valid _ (lbn_range k Hk)) as [Hv _]. rewrite !file_byte_slot. cbv zeta. rewrite Hs by done.
    destruct (Z.eqb_spec (slot_val v m (slot_of (k / BS))) 0) as [|Hne]; [done|]. by rewrite Hsame.
Qed.

(** A file that shares no block with the one that grew is as it was. *)
Lemma other_file n n' v v' m : file_ok sb v m -> (forall q q', valid q -> valid q' -> slot_val v n q <> 0 -> slot_val v n q <> slot_val v m q') ->
  (forall q, valid q -> slot_val v n q <> 0 -> slot_val v' n' q = slot_val v n q) ->
  (forall q, valid q -> slot_val v n q = 0 -> slot_val v' n' q <> 0 -> exists k, slot_val v' n' q = bmap + 1 + Z.of_nat k /\ bit (v bmap) k = false) ->
  (forall k, bit (v bmap) k = true -> bit (v' bmap) k = true) ->
  (forall b, b <> bmap -> b <> meta -> (forall q, valid q -> slot_val v' n' q <> 0 -> b <> slot_val v' n' q) -> v' b = v b) ->
  file_ok sb v' m /\ forall k, 0 <= k < U32 -> file_byte v' m k = file_byte v m k.
Proof.
  intros Hm Hdis Hmono Hfresh Hbits Hframe.
  assert (Hsame : forall q, valid q -> slot_val v m q <> 0 -> v' (slot_val v m q) = v (slot_val v m q)).
  { intros q Hq Hne. pose proof (used_not_bmap sb v m q Hm Hq Hne). apply Hframe; [lia|lia|]. intros q' Hq' Hne' E.
    destruct (Z.eq_dec (slot_val v n q') 0) as [Hz|Hnz].
    - destruct (Hfresh q' Hq' Hz Hne') as (k & E' & Hk). by apply (fresh_unused sb v m k q); [..|congruence].
    - rewrite Hmono in E by done. by apply (Hdis q' q). }
  by destruct (same_blocks_file v v' m) as (? & _ & ?).
Qed.

(** What a write leaves alone: blocks in use that are not the file's. *)
Record grown v n v' n' : Prop := {
  gr_attrs : type_ n' = type_ n /\ nlink n' = nlink n;
  gr_slots : forall q, valid q -> slot_val v' n' q <> 0 ->
    slot_val v' n' q = slot_val v n q \/ exists k, slot_val v' n' q = bmap + 1 + Z.of_nat k /\ bit (v bmap) k = false;
  gr_blocks : forall k, bit (v bmap) k = true -> (forall q, valid q -> slot_val v n q <> bmap + 1 + Z.of_nat k) ->
    v' (bmap + 1 + Z.of_nat k) = v (bmap + 1 + Z.of_nat k);
  gr_low : forall b, b < bmap -> b <> meta -> v' b = v b;
  gr_bits : forall k, bit (v bmap) k = true -> bit (v' bmap) k = true;
}.

Lemma wrote_grown off o src v n v' n' : wrote off o src v n v' n' -> file_ok sb v' n' -> grown v n v' n'.
Proof.
  intros [A1 A2 A3 A4 A5 A6] Hf. destruct_and! A1.
  assert (Hslots : forall q, valid q -> slot_val v' n' q <> 0 -> slot_val v' n' q = slot_val v n q \/ exists k, slot_val v' n' q = bmap + 1 + Z.of_nat k /\ bit (v bmap) k = false).
  { intros q Hq Hne. destruct (Z.eq_dec (slot_val v n q) 0) as [Hz|Hnz]; [right; by apply A5|left; by apply A2]. }
  split; [done|done| | |done].
  - intros k Hk Hq. apply A3; [lia|lia|]. intros q Hv Hne E. destruct (Hslots q Hv Hne) as [E'|(k' & E' & Hk')]; [apply (Hq q Hv); congruence|].
    assert (k' = k) as -> by lia. congruence.
  - intros b Hb Hm. apply A3; [lia|done|]. intros q Hv Hne. pose proof (used_not_bmap sb v' n' q Hf Hv Hne). lia.
Qed.

Lemma wp_inode_write_data s v ic off len src : let n := dn ic in
  file_st s v ic -> 0 <= off -> 0 <= len <= Z.of_nat (length src) -> off + len + BS < U32 -> 3 * blocks_left off (off + len) <= Z.of_nat (free_blocks sb v) ->
  wp (inode_write_data ip off len src) (fun r s' => r = len /\ exists v' ic', file_st s' v' ic' /\ (records v ic v' ic' /\ grown v n v' (dn ic')) /\
    size (dn ic') = Z.max (size n) (off + len) /\
    Z.of_nat (free_blocks sb v) <= Z.of_nat (free_blocks sb v') + 3 * blocks_left off (off + len) /\
    (forall k, 0 <= k < U32 -> file_byte v' (dn ic') k = if decide (off <= k < off + len) then nth (Z.to_nat (k - off)) src 0 else file_byte v n k) /\
    (forall m, file_ok sb v m -> (forall q q', valid q -> valid q' -> slot_val v n q <> 0 -> slot_val v n q <> slot_val v m q') ->
       file_ok sb v' m /\ forall k, 0 <= k < U32 -> file_byte v' m k = file_byte v m k)) s.
Proof.
  intros n Hst Hoff Hlen Hmax Hfree. unfold U32 in Hmax. change BS with 4096 in Hmax. unfold inode_write_data. wp_step. unfold uadd32 at 1. apply wp_checked; [unfold U32; lia|].
  wp_step. fold (write_body (off + len) src).
  eapply wp_mono; [|apply (wp_write_loop s v ic off (off + len) src); [done|lia|change BS with 4096; unfold U32; lia|lia|done|unfold transfer_fuel; lia]].
  intros [] s1 (v1 & ic1 & S1 & W1 & I1 & F1). pose proof (wrote_grown _ _ _ _ _ _ _ W1 (fs_file _ _ _ S1)) as Gr1. pose proof S1 as [Hh Hf Hb Hm]. pose proof W1 as [A1 A2 A3 A4 A5 A6]. destruct_and! A1.
  wp_step. eapply wp_the_inode; [exact Hh|]. wp_step. destruct (Z.ltb_spec (size (dn ic1)) (off + len)) as [Hgrow|Hin].
  2:{ wp_step. wp_step. split; [done|]. exists v1, ic1. split; [done|]. split; [done|]. split; [fold n in H4 |- *; lia|]. split; [done|]. split; [done|]. intros m Hmo Hdis. by apply (other_file n (dn ic1) v v1). }
  wp_step. eapply wp_upd_disk; [exact Hh|]. intros s2 H2'. pose proof (set_size_ok _ (off + len) (fo_dinode _ _ _ Hf) ltac:(unfold U32; lia)) as Hdi.
  eapply wp_inode_rw_write; [exact H2'|apply lookup_empty|rewrite map_size_empty; unfold N_BUFFER; lia| | |].
  { rewrite fn_lookup_insert. cbn [inode_num set_idisk]. rewrite Hm. pose proof (so_max _ Hsb). pose proof (so_nblocks _ Hsb). lia. }
  { rewrite fn_lookup_insert. apply Hdi. }
  intros s3 H3'. rewrite fn_lookup_insert in H3'. cbn [idisk set_idisk inode_num] in H3'. rewrite Hm in H3'. wp_step. split; [done|].
  match type of H3' with fs_hold _ ?v3 _ _ ?ic3 => set (v' := v3) in *; set (ic' := ic3) in * end.
  assert (Hic : ic' ip = set_idisk (set_size (off + len) (dn ic1)) (ic1 ip)) by (subst ic'; by rewrite fn_lookup_insert).
  assert (Hdn : dn ic' = set_size (off + len) (dn ic1)) by (by rewrite Hic).
  pose proof (not_meta v1 (dn ic1) Hf) as Hnm.
  assert (Hs : forall q, valid q -> slot_val v' (dn ic') q = slot_val v1 (dn ic1) q).
  { intros q Hq. rewrite Hdn. change (slot_val v' (dn ic1) q = slot_val v1 (dn ic1) q). apply slot_val_store; auto. }
  exists v', ic'. split; [|split; [|split; [|split; [|split]]]].
  4:{ assert (E : free_blocks sb v' = free_blocks sb v1) by (subst v'; unfold free_blocks; by rewrite fn_lookup_insert_ne by lia). by rewrite E. }
  - split; [exact H3'| |subst v'; by rewrite fn_lookup_insert_ne by lia|by rewrite Hic].
    rewrite Hdn. assert (Hf' : file_ok sb v' (dn ic1)) by (apply file_ok_store; [done|lia|auto]). destruct Hf' as [G1 G2 G3]. by split.
  - split.
    + eapply records_trans; [exact I1|]. subst v'. rewrite <-Hdn. apply records_write; [done|done|intros b; by eapply block_length, Hh|by rewrite Hdn|].
      split; [by rewrite Hdn|]. intros j Hj. subst ic'. by rewrite fn_lookup_insert_ne.
    + destruct Gr1 as [G1 G2 G3 G4 G5]. split; [by rewrite Hdn| | | |].
      * intros q Hq. rewrite Hs by done. by apply G2.
      * intros k Hk Hq. subst v'. rewrite fn_lookup_insert_ne by lia. by apply G3.
      * intros b Hlo Hbm. subst v'. rewrite fn_lookup_insert_ne by done. by apply G4.
      * intros k Hk. subst v'. rewrite fn_lookup_insert_ne by lia. by apply G5.
  - rewrite Hdn. cbn [size set_size]. fold n in H4. lia.
  - intros k Hk. rewrite Hdn. change (file_byte v' (dn ic1) k = if decide (off <= k < off + len) then nth (Z.to_nat (k - off)) src 0 else file_byte v n k).
    rewrite <-A4 by done. by apply file_byte_store.
  - intros m Hmo Hdis. apply (other_file n (dn ic') v v'); [done|done| | | |].
    + intros q Hq Hne. rewrite Hs by done. by apply A2.
    + intros q Hq Hz. rewrite Hs by done. by apply A5.
    + intros k Hk. subst v'. rewrite fn_lookup_insert_ne by lia. by apply A6.
    + intros b Hbm Hbt Hq. subst v'. rewrite fn_lookup_insert_ne by done. apply A3; [done|done|]. intros q Hv Hne. rewrite <-(Hs q Hv). apply Hq; [done|]. by rewrite Hs.
Qed.
End growth.

(** The bytes of a range that was written. *)
Lemma file_bytes_written v' n' (g : Z -> Z) off len (src : list Z) : 0 <= off -> 0 <= len <= Z.of_nat (length src) -> off + len < U32 ->
  (forall k, 0 <= k < U32 -> file_byte v' n' k = if decide (off <= k < off + len) then nth (Z.to_nat (k - off)) src 0 else g k) ->
  file_bytes v' n' off len = take (Z.to_nat len) src.
Proof.
  intros Hoff Hlen Hmax Hby. apply list_eq. intros i. unfold file_bytes. rewrite list_lookup_fmap. destruct (decide (i < Z.to_nat len)%nat) as [Hi|Hi].
  - rewrite lookup_seqZ_lt by lia. cbn [fmap option_fmap option_map]. rewrite Hby by lia. rewrite decide_True by lia. rewrite lookup_take_lt by done.
    replace (Z.to_nat (off + Z.of_nat i - off)) with i by lia. destruct (lookup_lt_is_Some_2 src i) as [x Hx]; [lia|]. by rewrite nth_lookup, Hx.
  - rewrite lookup_seqZ_ge by lia. symmetry. apply lookup_ge_None_2. rewrite length_take. lia.
Qed.

(** ** An empty file for the examples *)

Lemma empty_slots v q : slot_val v (idisk Inode_new) q = 0.
Proof.
  assert (Hr : forall i, root_val (idisk Inode_new) i = 0).
  { intros i. unfold root_val, Inode_new. cbn [idisk index_]. destruct (nth_in_or_default i (replicate INODE_INDEX_3 0) 0) as [Hin|Heq]; [|done].
    by apply list_elem_of_In, elem_of_replicate in Hin as [-> _]. }
  destruct q; cbn [slot_val]; unfold entry; rewrite ?Hr; done.
Qed.
Lemma demo_file_ok : file_ok demo_sb demo_view (idisk Inode_new).
Proof.
  split.
  - split; cbn; try (unfold U16, U32; lia); [done|]. repeat (constructor; [unfold U32; lia|]). constructor.
  - intros q q' _ _ Hne. by rewrite empty_slots in Hne.
  - intros q _ Hne. by rewrite empty_slots in Hne.
Qed.
Lemma demo_sb_ok : sb_ok demo_sb.
Proof.
  assert (HN : Z.of_nat NBITS = 32768) by (vm_compute; reflexivity). unfold demo_sb. split; cbn [sb_bmap_start sb_nblocks]; [lia|unfold U32; lia|]. rewrite HN. lia.
Qed.
Lemma demo_free : free_blocks demo_sb demo_view = 64%nat.
Proof.
  unfold free_blocks. rewrite (filter_clear_ext _ (fun _ => false)); [done|]. intros k _. rewrite demo_view_zero. apply bit_zero_block.
Qed.
Lemma demo_file_st : file_st demo_sb 3 2 demo_fs demo_view (fun _ => Inode_new).
Proof.
  split; [exact demo_fs_hold|exact demo_file_ok| |done]. rewrite demo_view_zero. apply is_block_zero.
Qed.

(** ** Properties *)

(** C9: A write to a file in order, with enough free blocks for the part it
    touches, returns its length; afterwards the file holds the written bytes
    in the written range and its old bytes elsewhere, holes as zeros, through
    direct, indirect and double-indirect blocks alike; its size covers the
    range; its block map is in order again; every file that shared no block
    with it is unchanged; and so are the other slots of the inode cache and the
    other inode records on disk. *)
Theorem inode_write_data_correct {D} `{!BlockDevice D} (s : fsys D) v sb ic ip meta off len src :
  let n := idisk (ic ip) in
  sb_ok sb -> 0 <= meta < sb_bmap_start sb -> file_st sb ip meta s v ic ->
  0 <= off -> 0 <= len <= Z.of_nat (length src) -> off + len + Z.of_nat BLOCK_SIZE < U32 ->
  3 * blocks_left off (off + len) <= Z.of_nat (free_blocks sb v) ->
  wp (inode_write_data ip off len src) (fun r s' => r = len /\ exists v' ic', file_st sb ip meta s' v' ic' /\
    size (idisk (ic' ip)) = Z.max (size n) (off + len) /\
    (forall k, 0 <= k < U32 -> file_byte v' (idisk (ic' ip)) k =
       if decide (off <= k < off + len) then nth (Z.to_nat (k - off)) src 0 else file_byte v n k) /\
    (forall m, file_ok sb v m -> (forall q q', valid q -> valid q' -> slot_val v n q <> 0 -> slot_val v n q <> slot_val v m q') ->
       file_ok sb v' m /\ forall k, 0 <= k < U32 -> file_byte v' m k = file_byte v m k) /\
    (forall j, j <> ip -> ic' j = ic j) /\
    (forall inum, inum <> inode_num (ic ip) -> inode_block sb inum < sb_bmap_start sb -> record_at sb v' inum = record_at sb v inum)) s.
Proof.
  intros n Hsb Hm Hst Hoff Hlen Hmax Hfree. eapply wp_mono; [|by apply (wp_inode_write_data sb ip meta Hsb Hm s v ic off len src)].
  intros r s' (-> & v' & ic' & S' & [[[_ Hic] Hrec _] _] & Hsz & _ & Hby & Hot). split; [done|]. exists v', ic'. done.
Qed.

Lemma inode_write_data_correct_witness :
  wp (inode_write_data 3 5000 3 [7; 8; 9]) (fun r s' => r = 3 /\ exists v' ic', file_st demo_sb 3 2 s' v' ic' /\
    size (idisk (ic' 3%nat)) = Z.max (size (idisk Inode_new)) (5000 + 3) /\
    (forall k, 0 <= k < U32 -> file_byte v' (idisk (ic' 3%nat)) k =
       if decide (5000 <= k < 5000 + 3) then nth (Z.to_nat (k - 5000)) [7; 8; 9] 0 else file_byte demo_view (idisk Inode_new) k) /\
    (forall m, file_ok demo_sb demo_view m ->
       (forall q q', valid q -> valid q' -> slot_val demo_view (idisk Inode_new) q <> 0 -> slot_val demo_view (idisk Inode_new) q <> slot_val demo_view m q') ->
       file_ok demo_sb v' m /\ forall k, 0 <= k < U32 -> file_byte v' m k = file_byte demo_view m k) /\
    (forall j, j <> 3%nat -> ic' j = Inode_new) /\
    (forall inum, inum <> 0 -> inode_block demo_sb inum < 3 -> record_at demo_sb v' inum = record_at demo_sb demo_view inum)) demo_fs.
Proof.
  apply (inode_write_data_correct demo_fs demo_view demo_sb (fun _ => Inode_new) 3 2 5000 3 [7; 8; 9] demo_sb_ok ltac:(split; [discriminate|reflexivity]) demo_file_st);
    [discriminate|split; discriminate|reflexivity|]. rewrite demo_free. vm_compute. discriminate.
Defined.

(** C15: What is written to a file is read back: writing a range and reading
    the same range returns exactly the bytes written, whatever blocks had to be
    allocated for them. *)
Theorem write_read_roundtrip {D} `{!BlockDevice D} (s : fsys D) v sb ic ip meta off len src dst :
  sb_ok sb -> 0 <= meta < sb_bmap_start sb -> file_st sb ip meta s v ic ->
  0 <= off -> 0 <= len <= Z.of_nat (length src) -> off + len + Z.of_nat BLOCK_SIZE < U32 -> size (idisk (ic ip)) + Z.of_nat BLOCK_SIZE < U32 ->
  3 * blocks_left off (off + len) <= Z.of_nat (free_blocks sb v) ->
  wp (inode_write_data ip off len src;; inode_read_data ip off len dst)
    (fun r _ => r = (len, take (Z.to_nat len) src ++ drop (Z.to_nat len) dst)) s.
Proof.
  intros Hsb Hm Hst Hoff Hlen Hmax Hsz Hfree. wp_step. eapply wp_mono; [|by apply (wp_inode_write_data sb ip meta Hsb Hm s v ic off len src)].
  intros r s1 (-> & v1 & ic1 & S1 & _ & Hsz1 & _ & Hby & _). change (Z.of_nat BLOCK_SIZE) with 4096 in *. pose proof (fo_dinode _ _ _ (fs_file _ _ _ _ _ _ S1)) as Hdi.
  eapply wp_mono; [|apply (wp_inode_read_data s1 v1 sb ic1 ip off len dst (fs_held _ _ _ _ _ _ S1) (dk_len _ Hdi))]; [|lia|lia|lia|rewrite Hsz1; change (Z.of_nat BLOCK_SIZE) with 4096; lia].
  intros res s2 [_ ->]. rewrite Hsz1. replace (Z.max 0 (Z.min len (Z.max (size (idisk (ic ip))) (off + len) - off))) with len by lia. do 2 f_equal.
  by eapply file_bytes_written; [lia|lia|lia|].
Qed.

Lemma write_read_roundtrip_witness :
  wp (inode_write_data 3 4194304 3 [7; 8; 9];; inode_read_data 3 4194304 3 [0; 0; 0; 5]) (fun r _ => r = (3, [7; 8; 9] ++ [5])) demo_fs.
Proof.
  apply (write_read_roundtrip demo_fs demo_view demo_sb (fun _ => Inode_new) 3 2 4194304 3 [7; 8; 9] [0; 0; 0; 5] demo_sb_ok ltac:(split; [discriminate|reflexivity]) demo_file_st);
    [discriminate|split; discriminate|reflexivity|reflexivity|]. rewrite demo_free. vm_compute. discriminate.
Defined.
