(* ===== verification/FileDelete.v ===== *)
(** * Deleting files ([free_data_blocks] and the last [inode_put] of [fs/inode.rs])

    When the last reference to an inode without links is given back, the blocks
    of its tree are freed in the order direct, single indirect, double indirect,
    and the inode with them. [freeing] is the state after the slots of a list
    have been dealt with. *)
From stdpp Require Import functions.
From S2P Require Import Prelude Lru BufferCache FsState Bitmap InodeLayer FileWrite.

(** The slots in the order [free_data_blocks] frees them. Entry 11 of the
    inode, which no other routine fills, is not among them. *)
Definition ind_slots : list slot := seq 0 NINDIRECT ≫= fun k => [Ind k].
Definition l3_slots (k : nat) : list slot := seq 0 NINDIRECT ≫= fun j => [L3 k j].
Definition l2_slots : list slot := seq 0 NINDIRECT ≫= fun k => l3_slots k ++ [L2 k].
Definition direct_slots : list slot := seq 0 INODE_INDEX_1 ≫= fun i => [Root i].
Definition file_slots : list slot :=
  direct_slots ++ (ind_slots ++ [Root INODE_INDEX_1]) ++ (l2_slots ++ [Root INODE_INDEX_2]).

Lemma elem_of_ind q : q ∈ ind_slots <-> exists k, q = Ind k /\ (k < NINDIRECT)%nat.
Proof.
  unfold ind_slots. rewrite list_elem_of_bind. setoid_rewrite elem_of_seq. setoid_rewrite list_elem_of_singleton.
  split; intros (k & ? & ?); exists k; (split; [done|lia]).
Qed.
Lemma elem_of_l3 k q : q ∈ l3_slots k <-> exists j, q = L3 k j /\ (j < NINDIRECT)%nat.
Proof.
  unfold l3_slots. rewrite list_elem_of_bind. setoid_rewrite elem_of_seq. setoid_rewrite list_elem_of_singleton.
  split; intros (j & ? & ?); exists j; (split; [done|lia]).
Qed.
Lemma elem_of_l2 q : q ∈ l2_slots <-> exists k, (q = L2 k \/ exists j, q = L3 k j /\ (j < NINDIRECT)%nat) /\ (k < NINDIRECT)%nat.
Proof.
  unfold l2_slots. rewrite list_elem_of_bind. setoid_rewrite elem_of_seq.
  split; intros (k & H & ?); exists k; (split; [|lia]).
  - apply elem_of_app in H as [?%elem_of_l3| ->%list_elem_of_singleton]; auto.
  - apply elem_of_app. destruct H as [->|?%elem_of_l3]; [right; by left|by left].
Qed.
Lemma elem_of_direct q : q ∈ direct_slots <-> exists i, q = Root i /\ (i < INODE_INDEX_1)%nat.
Proof.
  unfold direct_slots. rewrite list_elem_of_bind. setoid_rewrite elem_of_seq. setoid_rewrite list_elem_of_singleton.
  split; intros (k & ? & ?); exists k; (split; [done|lia]).
Qed.

Lemma NoDup_bind_seq (f : nat -> list slot) n : (forall k, NoDup (f k)) -> (forall k k' q, q ∈ f k -> q ∈ f k' -> k = k') ->
  NoDup (seq 0 n ≫= f).
Proof. intros Hn Hi. apply NoDup_bind; [|auto|apply NoDup_seq]. intros k k' q _ _. apply Hi. Qed.

Lemma NoDup_file_slots : NoDup file_slots.
Proof.
  assert (Hone : forall A (c : nat -> A) k k' q, q ∈ [c k] -> q ∈ [c k'] -> c k = c k')
    by (intros A c k k' q ->%list_elem_of_singleton ?%list_elem_of_singleton; done).
  assert (Hl3 : forall k, NoDup (l3_slots k)).
  { intros k. apply NoDup_bind_seq; [intros; apply NoDup_singleton|]. intros j j' q H H'. by injection (Hone _ (L3 k) j j' q H H'). }
  assert (Hl2 : NoDup l2_slots).
  { apply NoDup_bind_seq.
    - intros k. apply NoDup_app. split; [done|]. split; [|apply NoDup_singleton]. by intros q (j & -> & _)%elem_of_l3 ?%list_elem_of_singleton.
    - intros k k' q [(j & -> & _)%elem_of_l3| ->%list_elem_of_singleton]%elem_of_app [(j' & [=] & _)%elem_of_l3|[=]%list_elem_of_singleton]%elem_of_app; done. }
  unfold file_slots. apply NoDup_app. split_and!.
  - apply NoDup_bind_seq; [intros; apply NoDup_singleton|]. intros k k' q H H'. by injection (Hone _ Root k k' q H H').
  - intros q (i & -> & Hi)%elem_of_direct. rewrite !elem_of_app, elem_of_ind, elem_of_l2, !list_elem_of_singleton.
    intros [[(? & ? & _)|[=]]|[(? & [?|(? & ? & _)] & _)|[=]]]; try done; unfold INODE_INDEX_1, INODE_INDEX_2 in *; lia.
  - apply NoDup_app. split_and!; [apply NoDup_app; split_and!| |apply NoDup_app; split_and!].
    + apply NoDup_bind_seq; [intros; apply NoDup_singleton|]. intros k k' q H H'. by injection (Hone _ Ind k k' q H H').
    + by intros q (k & -> & _)%elem_of_ind ?%list_elem_of_singleton.
    + apply NoDup_singleton.
    + intros q. rewrite !elem_of_app, elem_of_ind, elem_of_l2, !list_elem_of_singleton.
      by intros [(? & -> & _)| ->] [(? & [?|(? & ? & _)] & _)|?].
    + done.
    + by intros q (k & [->|(j & -> & _)] & _)%elem_of_l2 ?%list_elem_of_singleton.
    + apply NoDup_singleton.
Qed.

Lemma file_slots_valid q : q ∈ file_slots <-> valid q /\ q <> Root 11.
Proof.
  unfold file_slots. rewrite !elem_of_app, elem_of_direct, elem_of_ind, elem_of_l2, !list_elem_of_singleton.
  unfold INODE_INDEX_1, INODE_INDEX_2. split.
  - intros [(i & -> & Hi)|[[(k & -> & Hk)| ->]|[(k & [->|(j & -> & Hj)] & Hk)| ->]]]; cbn [valid]; unfold INODE_INDEX_3; (split; [|try done]); try lia.
    intros [= ->]. lia.
  - intros [Hv Hne]. destruct q as [i|k|k|k j]; cbn [valid] in Hv.
    + unfold INODE_INDEX_3 in Hv. destruct (decide (i < 10)%nat); [left; by exists i|].
      assert (i <> 11)%nat by congruence. assert (i = 10 \/ i = 12)%nat as [->| ->] by lia; auto.
    + right. left. left. by exists k.
    + right. right. left. exists k. auto.
    + right. right. left. exists k. split; [|apply Hv]. right. exists j. split; [done|apply Hv].
Qed.

Section delete.
Context {D : Type} `{!BlockDevice D}.
Context (sb : SuperBlock) (ip : nat) (Hsb : sb_ok sb).
Context (v : Z -> block) (n : InodeDisk) (Hf : file_ok sb v n).
Implicit Types (s : fsys D) (G : list slot) (H : gmap Z (BufferId * bool)).
Local Abbreviation bmap := (sb_bmap_start sb).
Local Abbreviation val := (slot_val v n).

(** The blocks of the slots [G] are free again; no other block has changed. *)
Record freeing G s (v' : Z -> block) H (ic : nat -> Inode) : Prop := {
  fr_hold : fs_hold s v' H sb ic;
  fr_same : forall b, b <> bmap -> v' b = v b;
  fr_block : is_block (v' bmap);
  fr_bits : forall k, bit (v' bmap) k = true <-> bit (v bmap) k = true /\ forall q, q ∈ G -> val q <> bmap + 1 + Z.of_nat k;
}.

Lemma freeing_zero G G' s v' H ic : (forall q, q ∈ G' -> val q = 0) -> freeing G s v' H ic -> freeing (G ++ G') s v' H ic.
Proof.
  intros Hz [Hh Hs Hb Hk]. split; [done|done|done|]. intros k. rewrite Hk. pose proof (so_bmap _ Hsb).
  split; intros [Hbk Hq]; (split; [done|]); intros q Hin.
  - apply elem_of_app in Hin as [?|Hin]; [auto|]. rewrite (Hz q Hin). lia.
  - apply Hq, elem_of_app. by left.
Qed.

Lemma freeing_hold G s s' v' H H' ic ic' : fs_hold s' v' H' sb ic' -> freeing G s v' H ic -> freeing G s' v' H' ic'.
Proof. intros Hh [_ Hs Hb Hk]. by split. Qed.

Lemma wp_free_slot G s v' H ic q : freeing G s v' H ic -> valid q -> Forall valid G -> q ∉ G -> val q <> 0 ->
  H !! bmap = None -> (base.size H < N_BUFFER)%nat ->
  wp (bitmap_free (val q)) (fun _ s' => exists v'', freeing (G ++ [q]) s' v'' H ic) s.
Proof.
  intros [Hh Hs Hb Hk] Hq HG Hnot Hne Hn Hsz. destruct (fo_used _ _ _ Hf q Hq Hne) as (k & Hlt & E & Hbit).
  destruct Hsb as [S1 S2 S3]. assert (HkN : (k < NBITS)%nat) by lia. rewrite E. rewrite Forall_forall in HG.
  eapply wp_mono; [|apply (wp_bitmap_free s v' H sb ic k); try done]; [|apply Hk; split; [done|]; intros q' Hq' E'; apply Hnot].
  - intros [] s' Hh'. eexists. split; [exact Hh'| | |].
    + intros b Hbm. rewrite fn_lookup_insert_ne by done. by apply Hs.
    + rewrite fn_lookup_insert. by apply is_block_clear_bit.
    + intros k'. rewrite fn_lookup_insert, bit_clear_bit by done. destruct (decide (k' = k)) as [->|Hkk].
      * split; [done|]. intros [_ Hq']. destruct (Hq' q); [apply elem_of_app; right; left|done].
      * rewrite Hk. split; intros [Hb' Hq']; (split; [done|]); intros q' Hin.
        -- apply elem_of_app in Hin as [?| ->%list_elem_of_singleton]; [auto|lia].
        -- apply Hq', elem_of_app. by left.
  - assert (q = q') as ->; [|done]. apply (fo_inj _ _ _ Hf); [done|by apply HG|done|congruence].
Qed.

(** The entries of a held index block, entry [k] standing for the slots [g k]. *)
Lemma wp_for_entries G s v' H ic iblk (id : BufferId) (g : nat -> list slot) f : iblk <> bmap -> H !! iblk = Some (id, true) ->
  (forall k, u32_at (v iblk) k = 0 -> forall q, q ∈ g k -> val q = 0) ->
  (forall k G' s' v'', (k < NINDIRECT)%nat -> u32_at (v iblk) k <> 0 -> freeing G' s' v'' H ic -> G' ++ g k `prefix_of` file_slots ->
     wp (f (u32_at (v iblk) k)) (fun _ s2 => exists v2, freeing (G' ++ g k) s2 v2 H ic) s') ->
  freeing G s v' H ic -> G ++ (seq 0 NINDIRECT ≫= g) `prefix_of` file_slots ->
  wp (for_entries id f) (fun _ s' => exists v'', freeing (G ++ (seq 0 NINDIRECT ≫= g)) s' v'' H ic) s.
Proof.
  intros Hib Hid Hz Hstep Hfr Hpre. unfold for_entries. wp_step.
  eapply wp_mono; [|apply (wp_for_each_flat g file_slots (fun G s => exists v', freeing G s v' H ic)); [|by exists v'|exact Hpre]].
  { intros r s1 [-> HI]. by wp_step. }
  intros G' k s1 [_ Hk]%elem_of_seq (v1 & H1) Hp. wp_step. eapply wp_fs_load; [apply H1|exact Hid|].
  cbv zeta. rewrite (fr_same _ _ _ _ _ H1) by done. destruct (Z.eqb_spec (u32_at (v iblk) k) 0) as [E|E]; cbn [negb].
  - wp_steps. split; [done|]. exists v1. by apply freeing_zero; [apply Hz|].
  - wp_step. eapply wp_mono; [|by apply (Hstep k G' s1 v1)]. intros [] s2 H2. wp_step. done.
Qed.

Lemma prefix_slot G q : G ++ [q] `prefix_of` file_slots -> valid q /\ Forall valid G /\ q ∉ G.
Proof.
  intros [rest Heq]. pose proof NoDup_file_slots as Hnd. rewrite Heq in Hnd. apply NoDup_app in Hnd as (Hnd & _ & _).
  apply NoDup_app in Hnd as (_ & Hd & _).
  assert (Hv : forall q', q' ∈ G ++ [q] -> valid q') by (intros q' Hq'; apply file_slots_valid; rewrite Heq; apply elem_of_app; by left).
  split; [apply Hv, elem_of_app; right; left|]. split; [|intros Hin; apply (Hd q Hin); left].
  apply Forall_forall. intros q' Hq'. apply Hv, elem_of_app. by left.
Qed.

(** One more slot of the list, the next one. *)
Lemma wp_free_next G s v' H ic q : freeing G s v' H ic -> G ++ [q] `prefix_of` file_slots -> val q <> 0 ->
  H !! bmap = None -> (base.size H < N_BUFFER)%nat ->
  wp (bitmap_free (val q)) (fun _ s' => exists v'', freeing (G ++ [q]) s' v'' H ic) s.
Proof. intros Hfr (Hv & HG & Hn)%prefix_slot. by eapply wp_free_slot. Qed.

(** An index block is read, its entries are dealt with, and it is released. *)
Lemma wp_scan_table {A} G s v' H ic p (g : nat -> list slot) f (m : M (fsys D) A) Q :
  valid p -> val p <> 0 -> H !! val p = None -> (base.size H < N_BUFFER)%nat ->
  (forall k, u32_at (v (val p)) k = 0 -> forall q, q ∈ g k -> val q = 0) ->
  (forall id k G' s' v'', (k < NINDIRECT)%nat -> u32_at (v (val p)) k <> 0 -> freeing G' s' v'' (<[val p := (id, true)]> H) ic ->
     G' ++ g k `prefix_of` file_slots ->
     wp (f (u32_at (v (val p)) k)) (fun _ s2 => exists v2, freeing (G' ++ g k) s2 v2 (<[val p := (id, true)]> H) ic) s') ->
  freeing G s v' H ic -> G ++ (seq 0 NINDIRECT ≫= g) `prefix_of` file_slots ->
  (forall s' v'', freeing (G ++ (seq 0 NINDIRECT ≫= g)) s' v'' H ic -> wp m Q s') ->
  wp (b ← buf (buffer_read 0 (val p)); for_entries b f;; buf (buffer_release b);; m) Q s.
Proof.
  intros Hp Hne Hn Hsz Hz Hstep Hfr Hpre HQ. pose proof (used_not_bmap _ _ _ _ Hf Hp Hne).
  wp_step. eapply wp_fs_read; [apply Hfr|done|done|]. intros id s1 H1.
  pose proof (freeing_hold _ _ _ _ _ _ _ _ H1 Hfr) as Hfr1.
  wp_step. eapply wp_mono; [|apply (wp_for_entries G s1 v' (<[val p := (id, true)]> H) ic (val p) id g f); [lia|apply lookup_insert_eq|done|apply Hstep|done|done]].
  intros [] s2 (v2 & H2). wp_step. eapply wp_fs_release; [apply H2|apply lookup_insert_eq|]. intros s3 H3.
  rewrite held_released in H3 by done. apply (HQ s3 v2). by eapply freeing_hold.
Qed.

Lemma child_val p q : parent q = Some p -> val p <> 0 -> val q = u32_at (v (val p)) (place q).
Proof. intros Hp Hne. rewrite (slot_val_parent _ _ _ _ Hp). unfold entry. by rewrite (proj2 (Z.eqb_neq _ _) Hne). Qed.

(** The double-indirect block's entry [k]: its block, its entries' blocks. *)
Lemma wp_free_l2 G s v' H ic k : (k < NINDIRECT)%nat -> val (L2 k) <> 0 -> H !! bmap = None -> H !! val (L2 k) = None ->
  (S (base.size H) < N_BUFFER)%nat -> freeing G s v' H ic -> G ++ l3_slots k ++ [L2 k] `prefix_of` file_slots ->
  wp (b_l2 ← buf (buffer_read 0 (val (L2 k))); for_entries b_l2 bitmap_free;; buf (buffer_release b_l2);; bitmap_free (val (L2 k)))
    (fun _ s' => exists v'', freeing (G ++ l3_slots k ++ [L2 k]) s' v'' H ic) s.
Proof.
  intros Hk Hne Hn Hnk Hsz Hfr Hpre. rewrite app_assoc in Hpre |- *. pose proof (used_not_bmap _ _ _ (L2 k) Hf Hk Hne).
  apply (wp_scan_table G s v' H ic (L2 k) (fun j => [L3 k j])); [done|done|done|lia| | |done|by eapply prefix_app_l|].
  - intros j Hz q ->%list_elem_of_singleton. by rewrite (child_val (L2 k) (L3 k j)).
  - intros id j G' s' v'' Hj Hnz Hfr' Hpre'. pose proof (child_val (L2 k) (L3 k j) eq_refl Hne) as Hc. cbn [place] in Hc. rewrite <-Hc in Hnz |- *.
    apply (wp_free_next G' s' v''); [done|done|done|by rewrite lookup_insert_ne by lia|rewrite size_held by done; lia].
  - intros s' v'' Hfr'. apply (wp_free_next _ s' v''); [done|done|done|done|lia].
Qed.

(** ** The entries of the inode *)

(** The inode with the entries [R] cleared. *)
Definition clear (R : list nat) (n : InodeDisk) : InodeDisk := foldl (fun n i => set_index i 0 n) n R.

Lemma clear_snoc R i m : clear (R ++ [i]) m = set_index i 0 (clear R m).
Proof. unfold clear. by rewrite foldl_app. Qed.

Lemma cleared_ok R m : dinode_ok m -> dinode_ok (clear R m).
Proof.
  intros Hm. induction R as [|i R IH] using rev_ind; [done|]. rewrite clear_snoc. apply set_index_ok; [done|]. unfold U32. lia.
Qed.

Lemma root_val_clear R m i : dinode_ok m -> Forall (fun j => (j < INODE_INDEX_3)%nat) R ->
  root_val (clear R m) i = if decide (i ∈ R) then 0 else root_val m i.
Proof.
  intros Hm. induction R as [|j R IH] using rev_ind; intros HR; [done|]. apply Forall_app in HR as [HR Hj].
  rewrite Forall_singleton in Hj. rewrite clear_snoc, root_val_set by (done || apply (dk_len _ (cleared_ok R m Hm))).
  destruct (decide (Root i = Root j)) as [[= ->]|Hne].
  - rewrite decide_True; [done|]. apply elem_of_app. right. left.
  - rewrite IH by done. destruct (decide (i ∈ R)) as [Hin|Hin].
    + rewrite decide_True; [done|]. apply elem_of_app. by left.
    + rewrite decide_False; [done|]. intros [?| ->%list_elem_of_singleton]%elem_of_app; done.
Qed.

Lemma clear_zero i m : dinode_ok m -> root_val m i = 0 -> (i < INODE_INDEX_3)%nat -> set_index i 0 m = m.
Proof.
  intros Hm Hz Hi. destruct m as [t1 t2 t3 t4 t5 ix]. unfold set_index. cbn. f_equal. apply list_insert_id.
  unfold root_val in Hz. cbn in Hz. destruct (lookup_lt_is_Some_2 ix i) as [x Hx]; [pose proof (dk_len _ Hm); cbn in *; lia|].
  rewrite nth_lookup, Hx in Hz. cbn in Hz. by rewrite Hx, Hz.
Qed.

(** The cache with the entries [R] of the inode cleared. *)
Definition trimmed (ic : nat -> Inode) (R : list nat) (ic' : nat -> Inode) : Prop :=
  slot_is ic ic' ip (set_idisk (clear R (idisk (ic ip))) (ic ip)).

Lemma wp_get_index s v' H ic0 ic R i Q : fs_hold s v' H sb ic -> trimmed ic0 R ic -> dinode_ok (idisk (ic0 ip)) ->
  Forall (fun j => (j < INODE_INDEX_3)%nat) R -> (i < INODE_INDEX_3)%nat -> i ∉ R ->
  Q (root_val (idisk (ic0 ip)) i) s -> wp (get_index ip i) Q s.
Proof.
  intros Hh [Hic _] Hdi HR Hi HiR HQ. unfold get_index. wp_step. eapply wp_the_inode; [done|].
  destruct (lookup_lt_is_Some_2 (index_ (idisk (ic ip))) i) as [x Hx].
  { rewrite Hic. cbn [idisk set_idisk]. rewrite (dk_len _ (cleared_ok R _ Hdi)). done. }
  eapply wp_index; [lia|by rewrite Nat2Z.id|]. assert (x = root_val (idisk (ic0 ip)) i) as ->; [|done].
  pose proof (root_val_clear R _ i Hdi HR) as Hr. rewrite decide_False in Hr by done. rewrite <-Hr. rewrite Hic in Hx.
  unfold root_val. cbn [idisk set_idisk] in Hx. by rewrite nth_lookup, Hx.
Qed.

Lemma wp_clear_index G s v' H ic0 ic R i Q : freeing G s v' H ic -> trimmed ic0 R ic ->
  (forall s' ic', freeing G s' v' H ic' -> trimmed ic0 (R ++ [i]) ic' -> Q tt s') ->
  wp (upd_disk ip (set_index i 0)) Q s.
Proof.
  intros Hfr [Hic Ho] HQ. eapply wp_upd_disk; [apply Hfr|]. intros s' Hh. eapply HQ; [by eapply freeing_hold|]. split.
  - rewrite fn_lookup_insert, Hic, clear_snoc. by destruct (ic0 ip).
  - intros j Hj. rewrite fn_lookup_insert_ne by done. by apply Ho.
Qed.

Lemma trimmed_zero ic0 ic R i : trimmed ic0 R ic -> dinode_ok (idisk (ic0 ip)) -> Forall (fun j => (j < INODE_INDEX_3)%nat) R ->
  (i < INODE_INDEX_3)%nat -> root_val (idisk (ic0 ip)) i = 0 -> trimmed ic0 (R ++ [i]) ic.
Proof.
  intros [Hic Ho] Hdi HR Hi Hz. split; [|done]. rewrite clear_snoc, (clear_zero i); [done|by apply cleared_ok| |done].
  rewrite root_val_clear by done. by case_decide.
Qed.

(** ** The three parts of [free_data_blocks] *)

Section parts.
Context (ic0 : nat -> Inode) (Hn : idisk (ic0 ip) = n).
Local Abbreviation directs := (seq 0 INODE_INDEX_1).

Lemma bounded_roots l : Forall (fun j => (j < INODE_INDEX_1)%nat) l -> Forall (fun j => (j < INODE_INDEX_3)%nat) l.
Proof. intros H. eapply Forall_impl; [exact H|]. intros j Hj. unfold INODE_INDEX_1, INODE_INDEX_3 in *. lia. Qed.

Lemma dinode0 : dinode_ok (idisk (ic0 ip)).
Proof. rewrite Hn. apply Hf. Qed.

Lemma wp_free_direct s v' : freeing [] s v' ∅ ic0 ->
  wp (for_each (B := Empty_set) directs (fun _ i =>
    blk ← get_index ip i;
    (if negb (blk =? 0) then bitmap_free blk;; upd_disk ip (set_index i 0) else mret tt);;
    mret (inl tt)) tt) (fun _ s' => exists v'' ic, freeing direct_slots s' v'' ∅ ic /\ trimmed ic0 directs ic) s.
Proof.
  intros Hfr. change direct_slots with (Root <$> directs).
  apply (wp_for_each (fun dn _ s' => exists v'' ic, freeing (Root <$> dn) s' v'' ∅ ic /\ trimmed ic0 dn ic)).
  - exists v', ic0. split; [done|]. split; [by destruct (ic0 ip)|done].
  - intros dn i rest [] s1 Heq (v1 & ic & H1 & Ht).
    assert (Hall : Forall (fun j => (j < INODE_INDEX_1)%nat) (dn ++ i :: rest)).
    { rewrite <-Heq. apply Forall_forall. intros j [_ Hj]%elem_of_seq. done. }
    apply Forall_app in Hall as [Hdn [Hi _]%Forall_cons]. pose proof (bounded_roots dn Hdn) as Hdn'.
    pose proof (NoDup_seq 0 INODE_INDEX_1) as Hnd. rewrite Heq in Hnd. apply NoDup_app in Hnd as (_ & Hd & _).
    assert (Hin : i ∉ dn) by (intros Hin; apply (Hd i Hin); left).
    assert (Hi3 : (i < INODE_INDEX_3)%nat) by (unfold INODE_INDEX_1, INODE_INDEX_3 in *; lia).
    wp_step. eapply (wp_get_index s1 v1 ∅ ic0 ic dn i); [apply H1|done|apply dinode0|done|done|done|]. rewrite Hn, fmap_app.
    destruct (Z.eqb_spec (root_val n i) 0) as [Hz|Hz]; cbn [negb].
    + wp_steps. exists v1, ic. split; [apply freeing_zero; [|done]; by intros q ->%list_elem_of_singleton|].
      apply trimmed_zero; [done|apply dinode0|done|done|by rewrite Hn].
    + do 2 wp_step. eapply wp_mono; [|apply (wp_free_slot (Root <$> dn) s1 v1 ∅ ic (Root i))]; [|done|done| | |done|apply lookup_empty|rewrite map_size_empty; unfold N_BUFFER; lia].
      * intros [] s2 (v2 & H2). eapply wp_clear_index; [exact H2|done|]. intros s3 ic' H3 Ht'. wp_step. by exists v2, ic'.
      * by apply Forall_fmap.
      * intros (j & [= ->] & Hj)%list_elem_of_fmap. done.
  - by intros [] s1 HI.
Qed.

(** Entry [i] of the inode, below which the slots [l] lie. *)
Lemma wp_free_index G R i l (body : Z -> M (fsys D) unit) s v' ic : freeing G s v' ∅ ic -> trimmed ic0 R ic ->
  Forall (fun j => (j < INODE_INDEX_3)%nat) R -> (i < INODE_INDEX_3)%nat -> i ∉ R ->
  (val (Root i) = 0 -> forall q, q ∈ l -> val q = 0) ->
  (val (Root i) <> 0 -> wp (body (val (Root i)))
     (fun _ s' => exists v'' ic', freeing (G ++ l ++ [Root i]) s' v'' ∅ ic' /\ trimmed ic0 (R ++ [i]) ic') s) ->
  wp (blk ← get_index ip i; if negb (blk =? 0) then body blk else mret tt)
    (fun _ s' => exists v'' ic', freeing (G ++ l ++ [Root i]) s' v'' ∅ ic' /\ trimmed ic0 (R ++ [i]) ic') s.
Proof.
  intros Hfr Ht HR Hi HiR Hz Hscan. wp_step.
  eapply (wp_get_index s v' ∅ ic0 ic R i); [apply Hfr|done|apply dinode0|done|done|done|]. rewrite Hn.
  change (root_val n i) with (val (Root i)). destruct (Z.eqb_spec (val (Root i)) 0) as [E|E]; cbn [negb]; [|by apply Hscan].
  wp_step. exists v', ic. split; [apply freeing_zero; [|done]|apply trimmed_zero; [done|apply dinode0|done|done|by rewrite Hn]].
  intros q [Hq| ->%list_elem_of_singleton]%elem_of_app; [by apply Hz|done].
Qed.

(** The end of both branches: the index block itself, then its entry. *)
Lemma wp_free_root G R i s v' ic : freeing G s v' ∅ ic -> trimmed ic0 R ic -> val (Root i) <> 0 -> G ++ [Root i] `prefix_of` file_slots ->
  wp (bitmap_free (val (Root i));; upd_disk ip (set_index i 0))
    (fun _ s' => exists v'' ic', freeing (G ++ [Root i]) s' v'' ∅ ic' /\ trimmed ic0 (R ++ [i]) ic') s.
Proof.
  intros Hfr Ht Hne Hpre. wp_step.
  eapply wp_mono; [|apply (wp_free_next G s v' ∅ ic (Root i)); [done|done|done|apply lookup_empty|rewrite map_size_empty; unfold N_BUFFER; lia]].
  intros [] s2 (v2 & H2). eapply wp_clear_index; [exact H2|done|]. intros s3 ic' H3 Ht'. by exists v2, ic'.
Qed.

Lemma wp_free_single G R s v' ic : freeing G s v' ∅ ic -> trimmed ic0 R ic ->
  Forall (fun j => (j < INODE_INDEX_3)%nat) R -> INODE_INDEX_1 ∉ R -> G ++ ind_slots ++ [Root INODE_INDEX_1] `prefix_of` file_slots ->
  wp (indirect_blk ← get_index ip INODE_INDEX_1;
      if negb (indirect_blk =? 0) then
        b ← buf (buffer_read 0 indirect_blk);
        for_entries b bitmap_free;;
        buf (buffer_release b);;
        bitmap_free indirect_blk;;
        upd_disk ip (set_index INODE_INDEX_1 0)
      else mret tt)
    (fun _ s' => exists v'' ic', freeing (G ++ ind_slots ++ [Root INODE_INDEX_1]) s' v'' ∅ ic' /\ trimmed ic0 (R ++ [INODE_INDEX_1]) ic') s.
Proof.
  intros Hfr Ht HR HiR Hpre. assert (Hv : valid (Root INODE_INDEX_1)) by (cbn; unfold INODE_INDEX_1, INODE_INDEX_3; lia).
  eapply (wp_free_index G R INODE_INDEX_1 ind_slots); [done|done|done|done|done| |].
  { intros E q (k & -> & _)%elem_of_ind. cbn [slot_val] in *. unfold entry. by rewrite E. }
  intros Hne. rewrite app_assoc in Hpre |- *.
  apply (wp_scan_table G s v' ∅ ic (Root INODE_INDEX_1) (fun k => [Ind k]));
    [done|done|apply lookup_empty|rewrite map_size_empty; unfold N_BUFFER; lia| | |done|by eapply prefix_app_l|].
  - intros k Hz q ->%list_elem_of_singleton. by rewrite (child_val (Root INODE_INDEX_1) (Ind k)).
  - intros id k G' s' v'' Hk Hnz Hfr' Hpre'. pose proof (used_not_bmap _ _ _ _ Hf Hv Hne).
    pose proof (child_val (Root INODE_INDEX_1) (Ind k) eq_refl Hne) as Hc. cbn [place] in Hc. rewrite <-Hc in Hnz |- *.
    apply (wp_free_next G' s' v''); [done|done|done|rewrite lookup_insert_ne by lia; apply lookup_empty|].
    rewrite size_held, map_size_empty by apply lookup_empty. unfold N_BUFFER. lia.
  - intros s' v'' Hfr'. by apply (wp_free_root _ R INODE_INDEX_1 s' v'' ic).
Qed.

Lemma wp_free_double G R s v' ic : freeing G s v' ∅ ic -> trimmed ic0 R ic ->
  Forall (fun j => (j < INODE_INDEX_3)%nat) R -> INODE_INDEX_2 ∉ R -> G ++ l2_slots ++ [Root INODE_INDEX_2] `prefix_of` file_slots ->
  wp (l1_blk ← get_index ip INODE_INDEX_2;
      if negb (l1_blk =? 0) then
        b_l1 ← buf (buffer_read 0 l1_blk);
        for_entries b_l1 (fun l2_blk =>
          b_l2 ← buf (buffer_read 0 l2_blk);
          for_entries b_l2 bitmap_free;;
          buf (buffer_release b_l2);;
          bitmap_free l2_blk);;
        buf (buffer_release b_l1);;
        bitmap_free l1_blk;;
        upd_disk ip (set_index INODE_INDEX_2 0)
      else mret tt)
    (fun _ s' => exists v'' ic', freeing (G ++ l2_slots ++ [Root INODE_INDEX_2]) s' v'' ∅ ic' /\ trimmed ic0 (R ++ [INODE_INDEX_2]) ic') s.
Proof.
  intros Hfr Ht HR HiR Hpre. assert (Hv : valid (Root INODE_INDEX_2)) by (cbn; unfold INODE_INDEX_2, INODE_INDEX_3; lia).
  assert (Hz2 : forall k, val (L2 k) = 0 -> forall q, q ∈ l3_slots k ++ [L2 k] -> val q = 0).
  { intros k E q [(j & -> & _)%elem_of_l3| ->%list_elem_of_singleton]%elem_of_app; [|done].
    rewrite (slot_val_parent _ _ (L3 k j) (L2 k)) by done. unfold entry. by rewrite E. }
  eapply (wp_free_index G R INODE_INDEX_2 l2_slots); [done|done|done|done|done| |].
  { intros E q (k & Hq & Hk)%elem_of_l2. apply (Hz2 k); [cbn [slot_val] in *; unfold entry; by rewrite E|].
    apply elem_of_app. destruct Hq as [->|(j & -> & Hj)]; [right; left|left; apply elem_of_l3; by exists j]. }
  intros Hne. rewrite app_assoc in Hpre |- *.
  assert (Hc : forall k, val (L2 k) = u32_at (v (val (Root INODE_INDEX_2))) k) by (intros k; exact (child_val (Root INODE_INDEX_2) (L2 k) eq_refl Hne)).
  apply (wp_scan_table G s v' ∅ ic (Root INODE_INDEX_2) (fun k => l3_slots k ++ [L2 k]));
    [done|done|apply lookup_empty|rewrite map_size_empty; unfold N_BUFFER; lia| | |done|by eapply prefix_app_l|].
  - intros k Hz. rewrite <-Hc in Hz. by apply Hz2.
  - intros id k G' s' v'' Hk Hnz Hfr' Hpre'. pose proof (used_not_bmap _ _ _ _ Hf Hv Hne). rewrite <-Hc in Hnz |- *.
    apply (wp_free_l2 G' s' v''); [done|done|rewrite lookup_insert_ne by lia; apply lookup_empty| | |done|done].
    + rewrite lookup_insert_ne; [apply lookup_empty|]. intros E. by apply (fo_inj _ _ _ Hf) in E.
    + rewrite size_held, map_size_empty by apply lookup_empty. unfold N_BUFFER. lia.
  - intros s' v'' Hfr'. by apply (wp_free_root _ R INODE_INDEX_2 s' v'' ic).
Qed.

Lemma wp_free_data_blocks s : fs_hold s v ∅ sb ic0 -> is_block (v bmap) ->
  wp (free_data_blocks ip) (fun _ s' => exists v' ic', freeing file_slots s' v' ∅ ic' /\
    trimmed ic0 ((directs ++ [INODE_INDEX_1]) ++ [INODE_INDEX_2]) ic') s.
Proof.
  intros Hh Hb. assert (Hfr0 : freeing [] s v ∅ ic0).
  { split; [done|done|done|]. intros k. split; [|by intros [? _]]. intros Hk. split; [done|]. by intros q ?%not_elem_of_nil. }
  unfold free_data_blocks, file_slots. rewrite app_assoc. wp_step. eapply wp_mono; [|by apply (wp_free_direct s v)].
  intros r s1 (v1 & ic1 & H1 & T1).
  assert (HR : Forall (fun j => (j < INODE_INDEX_3)%nat) (directs ++ [INODE_INDEX_1])).
  { apply Forall_app. split; [|by repeat constructor; unfold INODE_INDEX_1, INODE_INDEX_3; lia]. apply bounded_roots, Forall_forall. by intros j [_ ?]%elem_of_seq. }
  pose proof HR as [HR1 _]%Forall_app.
  assert (Hni : forall i, (INODE_INDEX_1 <= i)%nat -> i ∉ directs) by (intros i Hi [_ ?]%elem_of_seq; lia).
  apply wp_bind_assoc. wp_step. eapply wp_mono; [|apply (wp_free_single direct_slots directs s1 v1 ic1 H1 T1 HR1)]; [|by apply Hni|].
  - intros [] s2 (v2 & ic2 & H2 & T2).
    eapply (wp_free_double (direct_slots ++ ind_slots ++ [Root INODE_INDEX_1]) (directs ++ [INODE_INDEX_1]) s2 v2 ic2); [done|done|done| |].
    2:{ exists []. rewrite app_nil_r. unfold file_slots. by rewrite <-!app_assoc. }
    intros [H| H%list_elem_of_singleton]%elem_of_app; [|done]. revert H. apply Hni. unfold INODE_INDEX_1, INODE_INDEX_2. lia.
  - exists (l2_slots ++ [Root INODE_INDEX_2]). unfold file_slots. by rewrite <-!app_assoc.
Qed.
End parts.
End delete.

(** ** A file for the examples: inode 5, one direct block and one behind its
    indirect block *)

Definition del_disk : gmap Z block :=
  <[1 := set_bit 5 zero_block]> (<[3 := set_bit 0 (set_bit 1 (set_bit 2 zero_block))]> (<[5 := set_u32 0 6 zero_block]> ∅)).
Definition del_inode : Inode := mkInode (mkDinode INODE_TYPE_DATA 0 0 0 16 [4; 0; 0; 0; 0; 0; 0; 0; 0; 0; 5; 0; 0]) true 5 1.
Definition del_fs : fsys ramdisk := mkFs (final buffer_init (boot_cache (del_disk : ramdisk))) (Some demo_sb) (fun _ => del_inode).
Definition del_view : Z -> block := ram_read del_disk.

Lemma del_hold : fs_hold del_fs del_view ∅ demo_sb (fun _ => del_inode).
Proof. split; [done|done|]. apply (wp_final buffer_init (fun s => quiet s del_view)). exact (wp_init_quiet (del_disk : ramdisk)). Qed.

Lemma del_read b d : del_disk !! b = Some d -> length d = BLOCK_SIZE -> del_view b = d.
Proof. intros Hb Hd. unfold del_view, ram_read. rewrite Hb. cbn [default]. by rewrite <-Hd, resize_all. Qed.

Lemma del_bitmap : del_view 3 = set_bit 0 (set_bit 1 (set_bit 2 zero_block)).
Proof. apply del_read; [reflexivity|]. apply (is_block_set_bit _ _ (is_block_set_bit _ _ (is_block_set_bit _ _ is_block_zero))). Qed.
Lemma del_ibitmap : del_view 1 = set_bit 5 zero_block.
Proof. apply del_read; [reflexivity|]. apply (is_block_set_bit _ _ is_block_zero). Qed.
Lemma del_index : del_view 5 = set_u32 0 6 zero_block.
Proof. apply del_read; [reflexivity|]. vm_compute. reflexivity. Qed.

Lemma del_bits k : bit (del_view 3) k = bool_decide (k < 3)%nat.
Proof.
  assert (HN : (3 < NBITS)%nat) by (unfold NBITS, BLOCK_SIZE; lia).
  rewrite del_bitmap, !bit_set_bit, bit_zero_block by (repeat apply is_block_set_bit; apply is_block_zero || lia).
  rewrite bool_decide_decide. repeat case_decide; try done; lia.
Qed.

Lemma del_val q : valid q -> slot_val del_view (idisk del_inode) q =
  if decide (q = Root 0) then 4 else if decide (q = Root 10) then 5 else if decide (q = Ind 0) then 6 else 0.
Proof.
  assert (Hr : forall i, (i < 13)%nat -> root_val (idisk del_inode) i = if decide (i = 0)%nat then 4 else if decide (i = 10)%nat then 5 else 0).
  { intros i Hi. do 13 (destruct i as [|i]; [done|]). lia. }
  assert (H10 : root_val (idisk del_inode) INODE_INDEX_1 = 5) by done. assert (H12 : root_val (idisk del_inode) INODE_INDEX_2 = 0) by done.
  destruct q as [i|k|k|k j]; cbn [valid slot_val]; intros Hv.
  - rewrite Hr by (unfold INODE_INDEX_3 in Hv; lia). repeat case_decide; naive_solver.
  - rewrite H10. change (entry del_view 5 k) with (u32_at (del_view 5) k). rewrite del_index.
    do 2 rewrite decide_False by done. destruct k as [|k]; [by vm_compute|]. rewrite decide_False by done.
    rewrite u32_at_set_ne; [apply u32_at_zero| |done]. change (length zero_block) with (length (replicate BLOCK_SIZE 0)). rewrite length_replicate. unfold BLOCK_SIZE. lia.
  - by rewrite H12.
  - by rewrite H12.
Qed.

Lemma del_file_ok : file_ok demo_sb del_view (idisk del_inode).
Proof.
  split.
  - split; cbn; try (unfold INODE_TYPE_DATA, U16, U32; lia); [done|]. repeat (constructor; [unfold U32; lia|]). constructor.
  - intros q q' Hq Hq'. rewrite !del_val by done. repeat case_decide; congruence.
  - intros q Hq. rewrite del_val by done. intros Hne.
    destruct (decide (q = Root 0)); [exists 0%nat|destruct (decide (q = Root 10)); [exists 1%nat|destruct (decide (q = Ind 0)); [exists 2%nat|done]]];
      (split; [reflexivity|split; [reflexivity|apply del_bits]]).
Qed.

(** The inode as it is left on disk. *)
Definition deleted (n : InodeDisk) : InodeDisk :=
  set_type 0 (set_size 0 (clear (seq 0 INODE_INDEX_1 ++ [INODE_INDEX_1; INODE_INDEX_2]) n)).

Lemma emptied_ok m : dinode_ok m -> dinode_ok (set_type 0 (set_size 0 m)).
Proof. intros []. split; cbn; try done; unfold U16, U32; lia. Qed.
Lemma deleted_ok n : dinode_ok n -> dinode_ok (deleted n).
Proof. intros H. apply emptied_ok. by apply cleared_ok. Qed.

(** The last reference to an inode without links is given back. *)
Lemma wp_inode_put_deletes {D} `{!BlockDevice D} (s : fsys D) v sb ic ip k :
  let n := idisk (ic ip) in let inum := Z.of_nat k in let bmap := sb_bmap_start sb in
  let ibm := sb_inode_start sb - 1 in let blk := inode_block sb inum in
  sb_ok sb -> 0 <= ibm -> blk < bmap -> fs_hold s v ∅ sb ic -> file_ok sb v n -> is_block (v bmap) -> is_block (v ibm) ->
  irefcnt (ic ip) = 1 -> nlink n = 0 -> inode_num (ic ip) = inum -> (k < NBITS)%nat -> bit (v ibm) k = true ->
  wp (inode_put ip) (fun _ s' => exists v' ic', fs_hold s' v' ∅ sb ic' /\
    (forall j, bit (v' bmap) j = true <-> bit (v bmap) j = true /\
       forall q, valid q -> q <> Root 11 -> slot_val v n q <> bmap + 1 + Z.of_nat j) /\
    (forall j, bit (v' ibm) j = if decide (j = k) then false else bit (v ibm) j) /\
    decode_dinode (slice (inode_offset inum) DINODE_SIZE (v' blk)) = deleted n /\
    (forall b, b <> bmap -> b <> ibm -> b <> blk -> v' b = v b) /\
    (is_block (v' bmap) /\ is_block (v' ibm) /\ forall i, i <> inum -> inode_block sb i < bmap -> inode_block sb i <> ibm -> record_at sb v' i = record_at sb v i) /\
    slot_is ic ic' ip (mkInode (deleted n) false 0 0)) s.
Proof.
  intros n inum bmap ibm blk Hsb Hibm Hblk Hh Hf Hb Hib Hr Hnl Hnum Hk Hbit. pose proof (so_max _ Hsb) as Hmax. pose proof (so_nblocks _ Hsb) as [Hnb _].
  assert (Hlo : ibm < blk) by (unfold ibm, blk, inode_block; pose proof (Z.div_pos inum IPB ltac:(unfold inum; lia) ltac:(done)); lia).
  unfold inode_put. wp_step. eapply wp_the_inode; [done|]. rewrite Hr. change (1 =? 0) with false. cbv iota. wp_step. wp_step.
  eapply wp_upd_inode; [done|]. intros s1 H1. change (1 - 1 =? 0) with true. fold n. rewrite Hnl. cbn [andb]. change (0 =? 0) with true. cbv iota zeta.
  set (ic1 := <[ip := set_irefcnt (1 - 1) (ic ip)]> ic) in *.
  assert (Hn1 : idisk (ic1 ip) = n) by (unfold ic1; by rewrite fn_lookup_insert).
  wp_step. eapply wp_mono; [|apply (wp_free_data_blocks sb ip Hsb v n Hf ic1 Hn1 s1 H1 Hb)].
  intros [] s2 (v2 & ic2 & [H2 Hs2 Hb2 Hk2] & [T2 To2]). rewrite Hn1 in T2. rewrite <-app_assoc in T2. cbn [app] in T2.
  rewrite Hnum. wp_step. eapply wp_mono; [|apply (wp_inode_free s2 v2 ∅ sb ic2 k H2); fold ibm].
  all: rewrite ?Hs2 by lia.
  - intros [] s3 H3. wp_step. eapply wp_upd_disk; [exact H3|]. intros s4 H4. wp_step. eapply wp_upd_disk; [exact H4|]. intros s5 H5.
    rewrite fn_lookup_insert in H5. wp_step.
    match type of H5 with fs_hold _ _ _ _ ?ic5 => set (icx := ic5) in * end.
    assert (Hicx : icx ip = mkInode (deleted n) (ivalid (ic ip)) inum 0).
    { unfold icx. rewrite fn_lookup_insert, T2. unfold ic1. rewrite fn_lookup_insert. unfold set_idisk, set_irefcnt. cbn [idisk ivalid inode_num irefcnt]. rewrite Hnum. reflexivity. }
    eapply wp_inode_rw_write; [exact H5|apply lookup_empty|rewrite map_size_empty; unfold N_BUFFER; lia|..].
    all: rewrite Hicx; cbn [idisk inode_num]; fold blk.
    + unfold U32 in *. lia.
    + apply (dk_len _ (deleted_ok n (fo_dinode _ _ _ Hf))).
    + intros s6 H6. wp_step. eapply wp_upd_inode; [exact H6|]. intros s7 H7. eapply wp_upd_inode; [exact H7|]. intros s8 H8.
      eexists _, _. split; [exact H8|]. split_and!.
      * intros j. rewrite !fn_lookup_insert_ne by lia. split; [intros [Hj Hq]%Hk2|intros [Hj Hq]; apply Hk2]; (split; [done|]); intros q.
        -- intros Hv Hne. apply Hq, file_slots_valid. done.
        -- intros [Hv Hne]%file_slots_valid. by apply Hq.
      * intros j. rewrite fn_lookup_insert_ne, fn_lookup_insert by lia. by apply bit_clear_bit.
      * rewrite fn_lookup_insert. pose proof (deleted_ok n (fo_dinode _ _ _ Hf)) as Hdel.
        pose proof (length_encode_dinode _ (dk_len _ Hdel)) as Hel.
        match goal with |- context [splice _ _ ?d] => pose proof (slice_splice (inode_offset inum) (encode_dinode (deleted n)) d) as Hs end.
        rewrite Hel in Hs. rewrite Hs; [by apply decode_encode_dinode|].
        rewrite (block_length sb _ _ _ _ blk H3). apply inode_offset_bound.
      * intros b B1 B2 B3. rewrite !fn_lookup_insert_ne by done. by apply Hs2.
      * rewrite !fn_lookup_insert_ne by lia. done.
      * rewrite fn_lookup_insert_ne, fn_lookup_insert by lia. by apply is_block_clear_bit.
      * intros i Hi Hi1 Hi2. pose proof (write_inode_view sb (deleted n) _ inum (deleted_ok n (fo_dinode _ _ _ Hf)) (fun b => block_length sb _ _ _ _ b H3)) as [_ W].
        unfold record_at. fold blk in W. rewrite W by done. rewrite fn_lookup_insert_ne by done. by rewrite Hs2 by lia.
      * split; [rewrite !fn_lookup_insert, Hicx; reflexivity|]. intros j Hj. rewrite !fn_lookup_insert_ne by done.
        unfold icx. rewrite !fn_lookup_insert_ne, To2 by done. unfold ic1. by rewrite fn_lookup_insert_ne.
  - apply lookup_empty.
  - rewrite map_size_empty. unfold N_BUFFER. lia.
  - done.
  - done.
  - unfold U32 in *. lia.
  - done.
Qed.

(** ** Properties *)

(** C10: giving back the last reference to an inode without links frees it:
    every block its map names, data and index blocks alike through the
    double-indirect level, is free in the bitmap and no other block's bit
    changed; the inode's own bit is clear; on disk the inode has type 0, size 0
    and no blocks; every block outside the two bitmaps and the inode's block is
    as before; and the cache slot is free. *)
Theorem inode_put_deletes {D} `{!BlockDevice D} (s : fsys D) v sb ic ip k :
  let n := idisk (ic ip) in let inum := Z.of_nat k in let bmap := sb_bmap_start sb in
  let ibm := sb_inode_start sb - 1 in let blk := inode_block sb inum in
  sb_ok sb -> 0 <= ibm -> blk < bmap -> fs_hold s v ∅ sb ic -> file_ok sb v n -> is_block (v bmap) -> is_block (v ibm) ->
  irefcnt (ic ip) = 1 -> nlink n = 0 -> inode_num (ic ip) = inum -> (k < NBITS)%nat -> bit (v ibm) k = true ->
  wp (inode_put ip) (fun _ s' => exists v' ic', fs_hold s' v' ∅ sb ic' /\
    (forall j, bit (v' bmap) j = true <-> bit (v bmap) j = true /\
       forall q, valid q -> q <> Root 11 -> slot_val v n q <> bmap + 1 + Z.of_nat j) /\
    (forall j, bit (v' ibm) j = if decide (j = k) then false else bit (v ibm) j) /\
    decode_dinode (slice (inode_offset inum) DINODE_SIZE (v' blk)) = deleted n /\
    (forall b, b <> bmap -> b <> ibm -> b <> blk -> v' b = v b) /\
    slot_is ic ic' ip (mkInode (deleted n) false 0 0)) s.
Proof.
  intros n inum bmap ibm blk Hsb Hibm Hblk Hh Hf Hb Hib Hr Hnl Hnum Hk Hbit.
  eapply wp_mono; [|by apply (wp_inode_put_deletes s v sb ic ip k)].
  intros [] s' (v' & ic' & H1 & H2 & H3 & H4 & H5 & _ & H6). by exists v', ic'.
Qed.

Lemma inode_put_deletes_witness :
  wp (inode_put 0) (fun _ s' => exists v' ic', fs_hold s' v' ∅ demo_sb ic' /\
    bit (v' 3) 0 = false /\ bit (v' 3) 1 = false /\ bit (v' 3) 2 = false /\ bit (v' 1) 5 = false /\ irefcnt (ic' 0%nat) = 0) del_fs.
Proof.
  eapply wp_mono; [|apply (inode_put_deletes del_fs del_view demo_sb (fun _ => del_inode) 0 5 demo_sb_ok ltac:(discriminate) ltac:(reflexivity) del_hold del_file_ok)].
  - intros [] s' (v' & ic' & Hh & Hbits & Hib & _ & _ & Hslot & _). exists v', ic'. split; [exact Hh|].
    assert (Hfree : forall j q, valid q -> q <> Root 11 -> slot_val del_view (idisk del_inode) q = 4 + Z.of_nat j -> bit (v' 3) j = false).
    { intros j q Hv Hne E. apply not_true_is_false. intros Hj. apply (proj2 (proj1 (Hbits j) Hj) q Hv Hne). exact E. }
    split; [apply (Hfree 0%nat (Root 0)); [cbn; unfold INODE_INDEX_3; lia|discriminate|reflexivity]|].
    split; [apply (Hfree 1%nat (Root 10)); [cbn; unfold INODE_INDEX_3; lia|discriminate|reflexivity]|].
    split; [apply (Hfree 2%nat (Ind 0)); [cbn; unfold NINDIRECT; lia|discriminate|rewrite del_val by (cbn; unfold NINDIRECT; lia); reflexivity]|].
    split; [exact (Hib 5%nat)|]. rewrite Hslot. reflexivity.
  - change (sb_bmap_start demo_sb) with 3. rewrite del_bitmap. do 3 apply is_block_set_bit. apply is_block_zero.
  - change (sb_inode_start demo_sb - 1) with 1. rewrite del_ibitmap. apply is_block_set_bit, is_block_zero.
  - reflexivity.
  - reflexivity.
  - reflexivity.
  - unfold NBITS, BLOCK_SIZE. lia.
  - change (sb_inode_start demo_sb - 1) with 1. rewrite del_ibitmap, bit_set_bit by (apply is_block_zero || (unfold NBITS, BLOCK_SIZE; lia)). reflexivity.
Defined.
