(* ===== verification/Directory.v ===== *)
(** * Directory entries and paths ([fs/dentry.rs], [fs/path.rs])

    A directory is a file of 64-byte entries; a path is a byte string split at
    slashes. *)
From stdpp Require Import functions.
From S2P Require Import Prelude Lru BufferCache FsState Bitmap InodeLayer.

(** ** Entries *)

(** [size_of::<DentryDisk>()] *)
Definition DENTRY_SIZE : Z := 64.

Record DentryDisk := mkDentry { dname : list Z; dinum : Z }.
Definition decode_dentry (bs : list Z) : DentryDisk :=
  mkDentry (slice 0 MAXLEN_FILENAME bs) (le_value (slice MAXLEN_FILENAME 4 bs)).
Definition encode_dentry (d : DentryDisk) : list Z := dname d ++ le_bytes 4 (dinum d).

(** The byte-by-byte comparison of [dentry_search] and [dentry_delete]. *)
Definition name_match (dn name : list Z) : bool :=
  forallb (fun i =>
    if (i <? length name)%nat then nth i dn 0 =? nth i name 0 else nth i dn 0 =? 0)
    (seq 0 MAXLEN_FILENAME).

(** The name field [dentry_create] builds: the first [MAXLEN_FILENAME] bytes,
    padded with zeros. *)
Definition pad_name (name : list Z) : list Z :=
  let len := if (MAXLEN_FILENAME <? length name)%nat then MAXLEN_FILENAME else length name in
  take len name ++ replicate (MAXLEN_FILENAME - len) 0.

Section directory.
Context {D : Type} `{!BlockDevice D}.

(** The rounds of a directory scan: one per entry. *)
Definition scan_fuel (sz : Z) : nat := S (S (Z.to_nat (sz / DENTRY_SIZE))).

(** Walk the entries of a directory; [f off entry] says whether to stop. *)
Definition scan_entries {A} (ip : nat) (sz : Z) (f : Z -> DentryDisk -> M (fsys D) (option A))
  : M (fsys D) (option A) :=
  loop (scan_fuel sz) (fun '(off, buf) =>
    if off <? sz then
      '(n, buf') ← inode_read_data ip off DENTRY_SIZE buf;
      if negb (n =? DENTRY_SIZE) then mret (inr None)
      else
        r ← f off (decode_dentry buf');
        match r with
        | Some a => mret (inr (Some a))
        | None =>
            off' ← uadd32 off DENTRY_SIZE;
            mret (inl (off', buf'))
        end
    else mret (inr None)) (0, replicate (Z.to_nat DENTRY_SIZE) 0).

Definition dentry_search (dir : nat) (name : list Z) : M (fsys D) (option Z) :=
  n ← the_inode dir;
  scan_entries dir (size (idisk n)) (fun _ dentry =>
    if negb (nth 0 (dname dentry) 0 =? 0) && name_match (dname dentry) name then
      mret (Some (dinum dentry))
    else mret None).

Definition dentry_create (dir : nat) (target_inum : Z) (name : list Z) : M (fsys D) Z :=
  found ← dentry_search dir name;
  match found with
  | Some _ => mret (-1)
  | None =>
      n ← the_inode dir;
      slot ← scan_entries dir (size (idisk n)) (fun off dentry =>
        if nth 0 (dname dentry) 0 =? 0 then mret (Some off) else mret None);
      let target_off := default (size (idisk n)) slot in
      let new_dentry := mkDentry (pad_name name) target_inum in
      w ← inode_write_data dir target_off DENTRY_SIZE (encode_dentry new_dentry);
      if negb (w =? DENTRY_SIZE) then mret (-1) else mret 0
  end.

Definition dentry_delete (dir : nat) (name : list Z) : M (fsys D) Z :=
  n ← the_inode dir;
  r ← scan_entries dir (size (idisk n)) (fun off dentry =>
    if negb (nth 0 (dname dentry) 0 =? 0) && name_match (dname dentry) name then
      inode_write_data dir off DENTRY_SIZE (replicate (Z.to_nat DENTRY_SIZE) 0);;
      mret (Some (as_i32 (dinum dentry)))
    else mret None);
  mret (default (-1) r).

(** ** Paths *)

Definition SLASH : Z := 47.

(** The two [while] loops of [get_element]: past the slashes, past the name. *)
Fixpoint skip_while (p : Z -> bool) (l : list Z) : nat :=
  match l with
  | [] => 0
  | c :: l' => if p c then S (skip_while p l') else 0
  end.

Definition get_element (path : list Z) (pos : nat) : option (list Z * nat) :=
  let start := (pos + skip_while (fun c => Z.eqb c SLASH) (drop pos path))%nat in
  if (length path <=? start)%nat then None
  else
    let len := skip_while (fun c => negb (Z.eqb c SLASH)) (drop start path) in
    Some (slice start len path, (start + len)%nat).

Definition starts_with_slash (path : list Z) : bool :=
  match path with c :: _ => c =? SLASH | [] => false end.

Definition start_inum (cwd_inum : Z) (path : list Z) : Z :=
  if starts_with_slash path then ROOT_INODE else cwd_inum.

(** Enter directory entry [name] of [ip]. *)
Definition descend (ip : nat) (name : list Z) : M (fsys D) (option nat) :=
  n ← the_inode ip;
  if negb (type_ (idisk n) =? INODE_TYPE_DIR) then
    inode_put ip;;
    mret None
  else
    o ← dentry_search ip name;
    match o with
    | Some inum =>
        next_inode ← inode_get inum;
        inode_put ip;;
        mret (Some next_inode)
    | None =>
        inode_put ip;;
        mret None
    end.

(** [__path_to_inode_at]; each round consumes a byte of the path. *)
Definition path_to_inode_at (cwd_inum : Z) (path : list Z) : M (fsys D) (option nat) :=
  ip ← inode_get (start_inum cwd_inum path);
  loop (S (S (length path))) (fun '(ip, pos) =>
    match get_element path pos with
    | None => mret (inr (Some ip))
    | Some (name, next_pos) =>
        o ← descend ip name;
        match o with
        | Some next => mret (inl (next, next_pos))
        | None => mret (inr None)
        end
    end) (ip, 0%nat).

Definition path_to_inode (path : list Z) : M (fsys D) (option nat) := path_to_inode_at ROOT_INODE path.

(** The copy of the last element into the caller's [name_buf]. *)
Definition fill_name_buf (name name_buf : list Z) : M (fsys D) (list Z) :=
  let len := if (MAXLEN_FILENAME <? length name)%nat then MAXLEN_FILENAME else length name in
  if (length name_buf <? len)%nat then panic "index out of bounds"
  else mret (take len name ++ replicate (length name_buf - len) 0).

(** Returns the parent inode, with the name buffer it filled in. *)
Definition path_to_parent_inode_at (cwd_inum : Z) (path name_buf : list Z)
  : M (fsys D) (option (nat * list Z)) :=
  ip ← inode_get (start_inum cwd_inum path);
  match get_element path 0 with
  | None => mret (Some (ip, name_buf))
  | Some (name, pos) =>
      loop (S (S (length path))) (fun '(ip, name, pos) =>
        match get_element path pos with
        | None =>
            nb ← fill_name_buf name name_buf;
            mret (inr (Some (ip, nb)))
        | Some (next_name, next_next_pos) =>
            o ← descend ip name;
            match o with
            | Some next => mret (inl (next, next_name, next_next_pos))
            | None => mret (inr None)
            end
        end) (ip, name, pos)
  end.

(** ** The self-test [fs_init] runs at boot *)

Definition is_inum_set (inum : Z) : M (fsys D) bool :=
  sb ← get_sb;
  ibmap_block ← usub32 (sb_inode_start sb) 1;
  b ← buf (buffer_read 0 ibmap_block);
  val ← load_byte b (Z.to_nat (inum / 8));
  buf (buffer_release b);;
  mret (negb (Z.land val (Z.shiftl 1 (inum mod 8)) =? 0)).

(** [inode.disk.nlink = 0; inode_rw(inode, true); inode_put(inode)] *)
Definition test_unlink (ip : nat) : M (fsys D) unit :=
  upd_disk ip (set_nlink 0);;
  inode_rw ip true;;
  inode_put ip.

Definition test_alloc : M (fsys D) unit :=
  ip ← inode_create INODE_TYPE_DATA 0 0;
  inode_dup ip;;
  inode_put ip;;
  test_unlink ip.

Definition test_data : M (fsys D) unit :=
  ip ← inode_create INODE_TYPE_DATA 0 0;
  let bytes := Z.of_nat <$> seq 0 100 in
  inode_write_data ip 0 100 bytes;;
  '(_, read_buf) ← inode_read_data ip 0 100 (replicate 100 0);
  (if decide (read_buf = bytes) then mret tt else panic "Test 2 failed: byte mismatch");;
  test_unlink ip.

Definition test_prepare_root : M (fsys D) unit :=
  set ← is_inum_set ROOT_INODE;
  if negb set then
    root_inum ← inode_alloc;
    if negb (root_inum =? ROOT_INODE) then panic "fs_test: expected to allocate inode 0 for root"
    else
      ip ← inode_get ROOT_INODE;
      upd_disk ip (set_type INODE_TYPE_DIR);;
      upd_disk ip (set_nlink 2);;
      upd_disk ip (set_size 0);;
      inode_rw ip true;;
      inode_put ip
  else
    ip ← inode_get ROOT_INODE;
    n ← the_inode ip;
    let t0 := type_ (idisk n) =? 0 in
    let l0 := nlink (idisk n) =? 0 in
    (if t0 then upd_disk ip (set_type INODE_TYPE_DIR) else mret tt);;
    (if l0 then upd_disk ip (set_nlink 2) else mret tt);;
    (if t0 || l0 then inode_rw ip true else mret tt);;
    inode_put ip.

Definition test_dentry (name : list Z) : M (fsys D) unit :=
  root ← inode_get ROOT_INODE;
  dentry_create root 100 name;;
  found ← dentry_search root name;
  (if decide (found = Some 100) then mret tt else panic "Test 3 failed: dentry not found");;
  dentry_delete root name;;
  found' ← dentry_search root name;
  (if found' is Some _ then panic "Test 3 failed: dentry not deleted" else mret tt);;
  inode_put root.

Definition test_path (name : list Z) : M (fsys D) unit :=
  root ← inode_get ROOT_INODE;
  ip ← inode_create INODE_TYPE_DATA 0 0;
  n ← the_inode ip;
  dentry_create root (inode_num n) name;;
  inode_put root;;
  inode_put ip;;
  found ← path_to_inode (SLASH :: name);
  match found with
  | None => panic "Test 4 failed: /test_path not found"
  | Some f => inode_put f
  end;;
  root' ← inode_get ROOT_INODE;
  dentry_delete root' name;;
  inode_put root'.

(** "test_file" and "test_path" *)
Definition TEST_FILE : list Z := [116; 101; 115; 116; 95; 102; 105; 108; 101].
Definition TEST_PATH : list Z := [116; 101; 115; 116; 95; 112; 97; 116; 104].

Definition fs_test : M (fsys D) unit :=
  test_alloc;;
  test_data;;
  test_prepare_root;;
  test_dentry TEST_FILE;;
  test_path TEST_PATH.

Definition fs_init : M (fsys D) unit :=
  fs_init_superblock;;
  fs_test.
End directory.

(** ** Names *)

Lemma length_pad_name name : length (pad_name name) = MAXLEN_FILENAME.
Proof.
  unfold pad_name. rewrite length_app, length_take, length_replicate. case_match; lia ||
    (apply Nat.ltb_ge in H; lia) || (apply Nat.ltb_lt in H; lia).
Qed.

Lemma nth_pad_name name i : (i < MAXLEN_FILENAME)%nat ->
  nth i (pad_name name) 0 = if (i <? length name)%nat then nth i name 0 else 0.
Proof.
  intros Hi. unfold pad_name. set (len := if (MAXLEN_FILENAME <? length name)%nat then _ else _).
  assert (Hlen : len = Nat.min MAXLEN_FILENAME (length name)).
  { subst len. destruct (Nat.ltb_spec MAXLEN_FILENAME (length name)); lia. }
  destruct (Nat.ltb_spec i (length name)).
  - rewrite app_nth1 by (rewrite length_take; lia). rewrite !nth_lookup, lookup_take, decide_True by lia. done.
  - rewrite app_nth2 by (rewrite length_take; lia). rewrite length_take.
    destruct (nth_in_or_default (i - len `min` length name) (replicate (MAXLEN_FILENAME - len) 0) 0) as [Hin|Heq]; [|done].
    by apply list_elem_of_In, elem_of_replicate in Hin as [-> _].
Qed.

(** Comparing a stored name with a name compares it with the padded name. *)
Lemma name_match_spec dn name : length dn = MAXLEN_FILENAME ->
  name_match dn name = true <-> dn = pad_name name.
Proof.
  intros Hl. unfold name_match. rewrite forallb_forall. split.
  - intros Hall. apply (nth_ext _ _ 0 0); [by rewrite length_pad_name|]. intros i Hi. rewrite Hl in Hi.
    rewrite nth_pad_name by done. specialize (Hall i). rewrite in_seq in Hall. specialize (Hall ltac:(lia)).
    destruct (i <? length name)%nat; by apply Z.eqb_eq in Hall.
  - intros -> i [_ Hi]%in_seq. rewrite nth_pad_name by done. destruct (i <? length name)%nat; apply Z.eqb_refl.
Qed.

Lemma pad_name_short name : (length name <= MAXLEN_FILENAME)%nat ->
  pad_name name = name ++ replicate (MAXLEN_FILENAME - length name) 0.
Proof.
  intros H. unfold pad_name. rewrite (proj2 (Nat.ltb_ge _ _)) by lia. by rewrite take_ge by lia.
Qed.

Lemma pad_name_inj a b : Forall (fun c => c <> 0) a -> Forall (fun c => c <> 0) b ->
  (length a <= MAXLEN_FILENAME)%nat -> (length b <= MAXLEN_FILENAME)%nat ->
  pad_name a = pad_name b -> a = b.
Proof.
  intros Ha Hb Hla Hlb Heq. rewrite !pad_name_short in Heq by done.
  assert (Hwlog : forall a b m n, Forall (fun c => c <> 0) a -> Forall (fun c => c <> 0) b ->
    a ++ replicate m 0 = b ++ replicate n 0 -> (length a <= length b)%nat -> a = b).
  { clear. induction a as [|x a IH]; intros [|y b] m n Ha Hb Heq Hlen; simpl in *; try lia; [done| |].
    - apply Forall_cons in Hb as [Hy _]. destruct m; simpl in Heq; [done|]. injection Heq as <- _. done.
    - injection Heq as -> Heq. f_equal. apply Forall_cons in Ha as [_ Ha], Hb as [_ Hb].
      eapply IH; [done..|exact Heq|lia]. }
  destruct (Nat.le_ge_cases (length a) (length b)); [by eapply Hwlog|symmetry; by eapply Hwlog].
Qed.

(** ** Path elements *)

Lemma skip_while_spec p l :
  Forall (fun c => p c = true) (take (skip_while p l) l) /\
  (skip_while p l <= length l)%nat /\
  (forall c, l !! skip_while p l = Some c -> p c = false).
Proof.
  induction l as [|c l IH]; simpl; [split_and!; [constructor|lia|done]|].
  destruct (p c) eqn:Hc; simpl.
  - destruct IH as (H1 & H2 & H3). split_and!; [by constructor|lia|done].
  - split_and!; [constructor|lia|]. by intros c' [= <-].
Qed.

Lemma skip_while_pos p l c l' : l = c :: l' -> p c = true -> (0 < skip_while p l)%nat.
Proof. intros -> Hc. simpl. rewrite Hc. lia. Qed.

(** What [get_element] returns: the next maximal run of non-slash bytes. *)
Definition element_at (path : list Z) (pos : nat) (name : list Z) (next : nat) : Prop :=
  exists start, (pos <= start < next)%nat /\ (next <= length path)%nat /\
    name = slice start (next - start) path /\
    Forall (fun c => c = SLASH) (slice pos (start - pos) path) /\
    Forall (fun c => c <> SLASH) name /\
    (forall c, path !! next = Some c -> c = SLASH).

Lemma slice_skip path a n : (n <= length (drop a path))%nat -> slice a n path = take n (drop a path).
Proof. done. Qed.

Lemma get_element_none path pos : (pos <= length path)%nat ->
  get_element path pos = None -> Forall (fun c => c = SLASH) (drop pos path).
Proof.
  intros Hpos. unfold get_element. pose proof (skip_while_spec (fun c => c =? SLASH) (drop pos path)) as (H1 & H2 & _).
  destruct (Nat.leb_spec (length path) (pos + skip_while (fun c => c =? SLASH) (drop pos path))) as [Hle|]; [|done].
  intros _. rewrite length_drop in H2. rewrite take_ge in H1 by (rewrite length_drop; lia).
  eapply Forall_impl; [exact H1|]. intros c. apply Z.eqb_eq.
Qed.

Lemma get_element_some path pos name next : (pos <= length path)%nat ->
  get_element path pos = Some (name, next) -> element_at path pos name next.
Proof.
  intros Hpos. unfold get_element.
  pose proof (skip_while_spec (fun c => c =? SLASH) (drop pos path)) as (H1 & H2 & H3).
  set (k := skip_while _ _) in *. rewrite length_drop in H2.
  destruct (Nat.leb_spec (length path) (pos + k)) as [|Hlt]; [done|].
  pose proof (skip_while_spec (fun c => negb (c =? SLASH)) (drop (pos + k) path)) as (G1 & G2 & G3).
  set (m := skip_while (fun c => negb (c =? SLASH)) _) in *. rewrite length_drop in G2.
  assert (Hm : (0 < m)%nat).
  { destruct (lookup_lt_is_Some_2 path (pos + k) Hlt) as [c Hc].
    eapply (skip_while_pos _ _ c); [by apply drop_S|].
    rewrite <-(lookup_drop path pos k) in Hc. by rewrite (H3 c Hc). }
  intros [= <- <-]. exists (pos + k)%nat. split_and!; [lia|lia|lia| | | |].
  - f_equal. lia.
  - unfold slice. replace (pos + k - pos)%nat with k by lia. eapply Forall_impl; [exact H1|].
    intros c. apply Z.eqb_eq.
  - unfold slice. eapply Forall_impl; [exact G1|]. intros c Hc. by apply negb_true_iff, Z.eqb_neq in Hc.
  - intros c Hc. rewrite <-(lookup_drop path (pos + k) m) in Hc. apply G3 in Hc.
    by apply negb_false_iff, Z.eqb_eq in Hc.
Qed.

(** ** Searching *)

Section search.
Context {D : Type} `{!BlockDevice D}.
Implicit Types (s : fsys D) (v : Z -> block).

(** The entries of a directory; bytes after the last whole one are not read. *)
Definition dir_entry v (n : InodeDisk) (k : Z) : DentryDisk := decode_dentry (file_bytes v n (DENTRY_SIZE * k) DENTRY_SIZE).
Definition dir_count (n : InodeDisk) : Z := size n / DENTRY_SIZE.
Definition dir_entries v (n : InodeDisk) : list DentryDisk := dir_entry v n <$> seqZ 0 (dir_count n).
Definition entry_named (name : list Z) (d : DentryDisk) : bool := negb (nth 0 (dname d) 0 =? 0) && name_match (dname d) name.

(** A scan acts at the first entry [p] holds of, and passes over the others. *)
Lemma wp_scan_first {A} s v sb ic ip (f : Z -> DentryDisk -> M (fsys D) (option A)) (p : DentryDisk -> bool) (Q : option A -> fsys D -> Prop) :
  let n := idisk (ic ip) in
  fs_hold s v ∅ sb ic -> length (index_ n) = INODE_INDEX_3 -> 0 <= size n -> size n + Z.of_nat BLOCK_SIZE < U32 ->
  (forall off d s, p d = false -> f off d s = Ret None s) ->
  (forall k s', fs_hold s' v ∅ sb ic -> 0 <= k < dir_count n -> (forall j, 0 <= j < k -> p (dir_entry v n j) = false) -> p (dir_entry v n k) = true ->
     wp (f (DENTRY_SIZE * k) (dir_entry v n k)) (fun r s'' => match r with Some a => Q (Some a) s'' | None => False end) s') ->
  (forall s', fs_hold s' v ∅ sb ic -> (forall j, 0 <= j < dir_count n -> p (dir_entry v n j) = false) -> Q None s') ->
  wp (scan_entries ip (size n) f) Q s.
Proof.
  intros n Hh Hlen H0 Hsz Hskip Hfound Hnone. unfold scan_entries. set (cnt := dir_count n) in *. change (Z.of_nat BLOCK_SIZE) with 4096 in Hsz.
  change DENTRY_SIZE with 64 in *.
  assert (Hcnt : 64 * cnt <= size n < 64 * cnt + 64 /\ 0 <= cnt).
  { subst cnt. unfold dir_count. change DENTRY_SIZE with 64. pose proof (Z.div_mod (size n) 64). pose proof (Z.mod_pos_bound (size n) 64). lia. }
  eapply (wp_loop (fun st s' => fs_hold s' v ∅ sb ic /\ length st.2 = 64%nat /\ exists k, 0 <= k <= cnt /\ st.1 = 64 * k /\
    forall j, 0 <= j < k -> p (dir_entry v n j) = false) (fun st _ => Z.to_nat (cnt - st.1 / 64))).
  - intros [off buf] s1 (H1 & Hb & k & Hk & Hoff & Hno). cbn [fst snd] in *. subst off. destruct (Z.ltb_spec (64 * k) (size n)) as [Hlt|Hge].
    2:{ wp_step. assert (k = cnt) as -> by lia. by apply Hnone. }
    wp_step. eapply wp_mono; [|apply (wp_inode_read_data s1 v sb ic ip (64 * k) 64 buf); [done|done|lia|lia| |]];
      [|unfold U32; unfold U32 in Hsz; lia|by change (Z.of_nat BLOCK_SIZE) with 4096].
    intros res s2 [H2 ->]. fold n. destruct (Z.eq_dec k cnt) as [->|Hne].
    + rewrite (proj2 (Z.eqb_neq _ _)) by lia. cbn [negb]. wp_step. by apply Hnone.
    + replace (Z.max 0 (Z.min 64 (size n - 64 * k))) with 64 by lia. change (64 =? 64) with true. cbn [negb].
      assert (Hd : drop (Z.to_nat 64) buf = []) by (apply drop_ge; rewrite Hb; done). rewrite Hd, app_nil_r. fold (dir_entry v n k).
      wp_step. destruct (p (dir_entry v n k)) eqn:Hp.
      * eapply wp_mono; [|apply (Hfound k s2); [done|lia|done|done]]. intros [a|] s3 Hq; [|done]. by wp_step.
      * eapply wp_intro; [by apply Hskip|]. cbv beta iota. wp_step. unfold uadd32. apply wp_checked; [unfold U32; unfold U32 in Hsz; lia|]. wp_step. cbn [fst snd]. split.
        -- split; [done|]. split; [apply length_file_bytes|]. exists (k + 1). split; [lia|]. split; [lia|]. intros j Hj.
           destruct (Z.eq_dec j k) as [->|Hjk]; [done|]. apply Hno. lia.
        -- replace (64 * k + 64) with ((k + 1) * 64) by lia. rewrite (Z.mul_comm 64 k), !Z.div_mul by done. lia.
  - cbn [fst snd]. split; [done|]. split; [done|]. exists 0. split; [lia|]. split; [done|]. lia.
  - cbn [fst]. unfold scan_fuel. change DENTRY_SIZE with 64. fold (dir_count n). change (size n / 64) with cnt. change (0 / 64) with 0. lia.
Qed.

(** The first entry of a list that [p] holds of. *)
Lemma find_first v n (p : DentryDisk -> bool) k : 0 <= k < dir_count n -> (forall j, 0 <= j < k -> p (dir_entry v n j) = false) -> p (dir_entry v n k) = true ->
  List.find p (dir_entries v n) = Some (dir_entry v n k).
Proof.
  intros Hk Hno Hp. unfold dir_entries. replace (dir_count n) with (k + (1 + (dir_count n - k - 1))) by lia. rewrite !seqZ_app by lia. rewrite !fmap_app.
  assert (Hskip : forall l r, (forall j, j ∈ l -> p (dir_entry v n j) = false) -> List.find p ((dir_entry v n <$> l) ++ r) = List.find p r).
  { intros l r. induction l as [|j l IH]; intros Hl; [done|]. cbn. rewrite Hl by by left. apply IH. intros j' Hj'. apply Hl. by right. }
  rewrite Hskip; [|intros j Hj; apply elem_of_seqZ in Hj; apply Hno; lia]. change (seqZ (0 + k) 1) with [0 + k]. cbn. rewrite Z.add_0_l. by rewrite Hp.
Qed.
Lemma find_none v n (p : DentryDisk -> bool) : (forall j, 0 <= j < dir_count n -> p (dir_entry v n j) = false) -> List.find p (dir_entries v n) = None.
Proof.
  intros Hno. destruct (List.find p (dir_entries v n)) as [d|] eqn:E; [|done]. apply find_some in E as [Hin Hp]. apply list_elem_of_In in Hin.
  apply list_elem_of_fmap in Hin as (j & -> & Hj). apply elem_of_seqZ in Hj. rewrite Hno in Hp by lia. done.
Qed.

Lemma wp_dentry_search s v sb ic ip name :
  let n := idisk (ic ip) in
  fs_hold s v ∅ sb ic -> length (index_ n) = INODE_INDEX_3 -> 0 <= size n -> size n + Z.of_nat BLOCK_SIZE < U32 ->
  wp (dentry_search ip name) (fun r s' => fs_hold s' v ∅ sb ic /\ r = dinum <$> List.find (entry_named name) (dir_entries v n)) s.
Proof.
  intros n Hh Hlen H0 Hsz. unfold dentry_search. wp_step. eapply wp_the_inode; [done|]. fold n.
  eapply (wp_scan_first s v sb ic ip _ (entry_named name)); [done|done|done|done| | |].
  - intros off d s' Hp. unfold entry_named in Hp. by rewrite Hp.
  - intros k s' H' Hk Hno Hp. fold n in Hp |- *. rewrite (find_first v n _ k) by done. unfold entry_named in Hp. rewrite Hp. wp_step. done.
  - intros s' H' Hno. by rewrite find_none.
Qed.

(** A path of one element, looked up when no inode is referenced: the answer
    is in slot 1, and no other slot is referenced. *)
Lemma wp_path_root_entry s v sb ic path name inum e Q :
  let root := idisk (cached v sb ROOT_INODE) in
  fs_hold s v ∅ sb ic -> (forall j, irefcnt (ic j) = 0) -> starts_with_slash path = true ->
  get_element path 0 = Some (name, length path) ->
  0 <= inode_block sb ROOT_INODE < U32 -> 0 <= inode_block sb inum < U32 ->
  length (index_ root) = INODE_INDEX_3 -> type_ root = INODE_TYPE_DIR -> nlink root <> 0 ->
  0 <= size root -> size root + Z.of_nat BLOCK_SIZE < U32 ->
  List.find (entry_named name) (dir_entries v root) = Some e -> dinum e = inum -> inum <> ROOT_INODE ->
  (forall s' ic', fs_hold s' v ∅ sb ic' -> ic' 1%nat = cached v sb inum -> (forall j, j <> 1%nat -> irefcnt (ic' j) = 0) -> Q (Some 1%nat) s') ->
  wp (path_to_inode path) Q s.
Proof.
  intros root Hh Hidle Hslash Hel Hb0 Hb1 Hlen Hty Hnl Hs0 Hs1 Hfind He Hne HQ. unfold path_to_inode, path_to_inode_at, start_inum. rewrite Hslash.
  wp_step. eapply (wp_inode_get_fresh _ _ _ _ _ 0); [done|unfold N_INODE; lia|intros j _; by rewrite Hidle|lia|done|done|]. intros s1 ic1 H1 [Hi1 Ho1].
  cbn [loop]. rewrite Hel. wp_step. wp_step. unfold descend. wp_step. eapply wp_the_inode; [exact H1|].
  rewrite Hi1. fold root. rewrite Hty. cbn [negb]. change (INODE_TYPE_DIR =? INODE_TYPE_DIR) with true. cbn [negb].
  wp_step. eapply wp_mono; [|apply (wp_dentry_search s1 v sb ic1 0 name); rewrite ?Hi1; done]. intros r s2 [H2 ->].
  rewrite Hi1. fold root. rewrite Hfind. cbn [fmap option_fmap option_map]. rewrite He.
  wp_step. eapply (wp_inode_get_fresh _ _ _ _ _ 1); [exact H2|unfold N_INODE; lia| | |by rewrite Ho1, Hidle|done|].
  { intros j Hj. destruct (decide (j = 0%nat)) as [->|Hj0]; [rewrite Hi1|by rewrite Ho1, Hidle].
    cbn [cached irefcnt inode_num ivalid]. rewrite (proj2 (Z.eqb_neq _ _)) by congruence. done. }
  { intros j Hj. assert (j = 0%nat) as -> by lia. by rewrite Hi1. }
  intros s3 ic3 H3 [Hi3 Ho3]. wp_step. eapply wp_inode_put_linked; [exact H3|rewrite Ho3, Hi1 by done; done|rewrite Ho3, Hi1 by done; done|].
  intros s4 ic4 H4 [Hi4 Ho4]. do 2 wp_step. cbv beta iota.
  assert (Hend : get_element path (length path) = None).
  { unfold get_element. rewrite drop_all. cbn [skip_while]. by rewrite (proj2 (Nat.leb_le _ _)) by lia. }
  rewrite Hend. wp_steps. eapply HQ; [exact H4|by rewrite Ho4|]. intros j Hj. destruct (decide (j = 0%nat)) as [->|Hj0].
  - rewrite Hi4, Ho3, Hi1 by done. done.
  - by rewrite Ho4, Ho3, Ho1.
Qed.
End search.

(** ** A freshly formatted disk, and booting from it *)

Definition fresh_sb_block : block := resize BLOCK_SIZE 0 (flat_map (le_bytes 4) [MAGIC; 68; 64; 64; 2; 3]).
Definition fresh_disk : ramdisk := {[0 := fresh_sb_block]}.

(** What [main.rs] does for the file system: [buffer::init] and [fs_init]. *)
Definition boot (d : ramdisk) : outcome (fsys ramdisk) unit :=
  (buf buffer_init;; fs_init) (boot_fs d).
Definition disk_after (o : outcome (fsys ramdisk) unit) : ramdisk :=
  match o with Ret _ s => disk (bc s) | _ => ∅ end.
(** The allocated inode numbers, by the inode bitmap (block 1 there). *)
Definition allocated_inodes (d : ramdisk) : list nat :=
  filter (fun k => bit (ram_read d 1) k = true) (seq 0 64).

(** ** Properties *)

(** A stored directory name matches a looked-up name exactly when it is
    that name cut at [MAXLEN_FILENAME] bytes and padded with zeros; so for
    names that fit and contain no zero byte a match is equality. *)
Theorem dentry_name_correct dn name :
  length dn = MAXLEN_FILENAME ->
  (name_match dn name = true <-> dn = pad_name name) /\
  (forall other, dn = pad_name other ->
     Forall (fun c => c <> 0) other -> Forall (fun c => c <> 0) name ->
     (length other <= MAXLEN_FILENAME)%nat -> (length name <= MAXLEN_FILENAME)%nat ->
     name_match dn name = true <-> other = name).
Proof.
  intros Hl. split; [by apply name_match_spec|]. intros other -> Ho Hn Hlo Hln.
  rewrite name_match_spec by done. split; [by apply pad_name_inj|by intros ->].
Qed.

Lemma dentry_name_correct_witness :
  name_match (pad_name TEST_FILE) TEST_PATH = true <-> TEST_FILE = TEST_PATH.
Proof.
  apply (dentry_name_correct (pad_name TEST_FILE) TEST_PATH (length_pad_name TEST_FILE) ).
  - reflexivity.
  - repeat (constructor; [discriminate|]). constructor.
  - repeat (constructor; [discriminate|]). constructor.
  - apply Nat.leb_le. reflexivity.
  - apply Nat.leb_le. reflexivity.
Defined.

(** [get_element] splits a path as intended: it returns nothing exactly
    when only slashes are left, and otherwise the next maximal run of bytes
    that are not slashes, which is not empty, and the position after it. *)
Theorem get_element_correct path pos :
  (pos <= length path)%nat ->
  match get_element path pos with
  | None => Forall (fun c => c = SLASH) (drop pos path)
  | Some (name, next) => element_at path pos name next
  end.
Proof.
  intros Hpos. destruct (get_element path pos) as [[name next]|] eqn:E;
    [by apply get_element_some|by apply get_element_none].
Qed.

Lemma get_element_correct_witness :
  element_at [47; 47; 97; 98; 47] 0 [97; 98] 4.
Proof. apply (get_element_correct [47; 47; 97; 98; 47] 0). apply Nat.leb_le. reflexivity. Defined.

(** On a freshly formatted disk the boot of the file system returns: the
    superblock is accepted and every step of the self-test (creating, writing,
    reading and deleting files, directory entries and path lookup) succeeds. *)
Example boot_self_test_passes :
  exists s, boot fresh_disk = Ret tt s /\ SB s = Some demo_sb /\ irefcnt (icache s 0) = 0.
Proof.
  assert (H : match boot fresh_disk with
    | Ret _ s => SB s = Some demo_sb /\ irefcnt (icache s 0) = 0 | _ => False end)
    by (vm_compute; split; reflexivity).
  destruct (boot fresh_disk) as [[] s|w|w]; [by exists s|done..].
Qed.

(** The self-test does not free the inode its path test creates: each boot
    of the same disk leaves one more inode allocated. *)
Example boot_leaks_an_inode :
  let d1 := disk_after (boot fresh_disk) in
  let d2 := disk_after (boot d1) in
  allocated_inodes fresh_disk = [] /\ allocated_inodes d1 = [0; 1]%nat /\ allocated_inodes d2 = [0; 1; 2]%nat.
Proof. vm_compute. split_and!; reflexivity. Qed.
