(* ===== verification/DirWrite.v ===== *)
(** * Changing directories ([dentry_create] and [dentry_delete] of [fs/dentry.rs])

    What creating and deleting an entry does to the list of entries of a
    directory, on top of what a write does to a file. *)
From stdpp Require Import functions.
From S2P Require Import Prelude Lru BufferCache FsState Bitmap InodeLayer Directory FileWrite.

(** ** Entries as bytes *)

Definition dentry_ok (d : DentryDisk) : Prop := length (dname d) = MAXLEN_FILENAME /\ 0 <= dinum d < U32.
(** What a deleted entry reads as *)
Definition no_entry : DentryDisk := mkDentry (replicate MAXLEN_FILENAME 0) 0.

Lemma decode_encode_dentry d : dentry_ok d -> decode_dentry (encode_dentry d) = d.
Proof.
  intros [Hl Hi]. destruct d as [nm i]. cbn [dname dinum] in *. unfold decode_dentry, encode_dentry, slice. cbn [dname dinum].
  rewrite drop_0, take_app_le, take_ge by lia. rewrite drop_app_ge by lia. rewrite Hl, Nat.sub_diag, drop_0, take_ge by (rewrite length_le_bytes; lia).
  f_equal. by apply (le_value_bytes 4).
Qed.
Lemma length_encode_dentry d : dentry_ok d -> length (encode_dentry d) = 64%nat.
Proof. intros [Hl _]. unfold encode_dentry. by rewrite length_app, Hl, length_le_bytes. Qed.

(** [n'] in [v'] is the directory [n] in [v] with entry [t] set to [d]. *)
Record dir_put (v : Z -> block) (n : InodeDisk) (v' : Z -> block) (n' : InodeDisk) (t : Z) (d : DentryDisk) : Prop := {
  dp_count : dir_count n' = Z.max (dir_count n) (t + 1);
  dp_size : size n' = DENTRY_SIZE * dir_count n';
  dp_entry : forall k, 0 <= k < dir_count n' -> dir_entry v' n' k = if decide (k = t) then d else dir_entry v n k;
}.

Lemma dir_put_written v n v' n' t d : dentry_ok d -> 0 <= t <= dir_count n -> size n = DENTRY_SIZE * dir_count n -> size n + DENTRY_SIZE < U32 ->
  size n' = Z.max (size n) (DENTRY_SIZE * t + DENTRY_SIZE) ->
  (forall k, 0 <= k < U32 -> file_byte v' n' k =
     if decide (DENTRY_SIZE * t <= k < DENTRY_SIZE * t + DENTRY_SIZE) then nth (Z.to_nat (k - DENTRY_SIZE * t)) (encode_dentry d) 0 else file_byte v n k) ->
  dir_put v n v' n' t d.
Proof.
  intros Hd Ht Hs Hmax Hs' Hb. change DENTRY_SIZE with 64 in *. pose proof (length_encode_dentry d Hd) as Hl.
  assert (Hc : dir_count n' = Z.max (dir_count n) (t + 1)).
  { unfold dir_count at 1. change DENTRY_SIZE with 64. rewrite Hs'. replace (Z.max (size n) (64 * t + 64)) with (Z.max (dir_count n) (t + 1) * 64) by lia. by apply Z.div_mul. }
  split; [done|change DENTRY_SIZE with 64; lia|]. intros k Hk. unfold dir_entry. change DENTRY_SIZE with 64. destruct (decide (k = t)) as [->|Hne].
  - assert (E : file_bytes v' n' (64 * t) 64 = encode_dentry d); [|rewrite E; by apply decode_encode_dentry].
    apply list_eq. intros i. unfold file_bytes. rewrite list_lookup_fmap. destruct (decide (i < 64)%nat) as [Hi|Hi].
    + rewrite lookup_seqZ_lt by lia. cbn [fmap option_fmap option_map]. rewrite Hb by lia. rewrite decide_True by lia.
      replace (Z.to_nat (64 * t + Z.of_nat i - 64 * t)) with i by lia. destruct (lookup_lt_is_Some_2 (encode_dentry d) i) as [x Hx]; [lia|]. by rewrite nth_lookup, Hx.
    + rewrite lookup_seqZ_ge by lia. symmetry. apply lookup_ge_None_2. lia.
  - f_equal. unfold file_bytes. apply list_fmap_ext. intros i x Hx. apply lookup_seqZ in Hx as [-> Hi]. rewrite Hb by lia. by rewrite decide_False by lia.
Qed.

(** ** Searching after a change *)

Lemma first_or_none v n (p : DentryDisk -> bool) :
  (exists k, 0 <= k < dir_count n /\ (forall j, 0 <= j < k -> p (dir_entry v n j) = false) /\ p (dir_entry v n k) = true) \/
  (forall j, 0 <= j < dir_count n -> p (dir_entry v n j) = false).
Proof.
  destruct (decide (Exists (fun k => p (dir_entry v n (Z.of_nat k)) = true) (seq 0 (Z.to_nat (dir_count n))))) as [Hex|Hno].
  - left. apply Exists_exists in Hex as (k & [_ Hk]%elem_of_seq & Hp).
    destruct (least_clear (fun k => negb (p (dir_entry v n (Z.of_nat k)))) (Z.to_nat (dir_count n))) as (m & Hm & Hpm & Hlow); [exists k; split; [lia|by rewrite Hp]|].
    exists (Z.of_nat m). split; [lia|]. split; [|by apply negb_false_iff]. intros j Hj. specialize (Hlow (Z.to_nat j) ltac:(lia)). rewrite Z2Nat.id in Hlow by lia. by apply negb_true_iff.
  - right. intros j Hj. destruct (p (dir_entry v n j)) eqn:E; [|done]. exfalso. apply Hno, Exists_exists. exists (Z.to_nat j). rewrite Z2Nat.id by lia.
    split; [apply elem_of_seq; lia|done].
Qed.

(** The change is not about names it does not match. *)
Lemma find_put_other v n v' n' t d p : dir_put v n v' n' t d -> 0 <= t <= dir_count n -> p d = false -> (t < dir_count n -> p (dir_entry v n t) = false) ->
  List.find p (dir_entries v' n') = List.find p (dir_entries v n).
Proof.
  intros [P1 P2 P3] Ht Hd Hold. assert (Hsame : forall k, 0 <= k < dir_count n -> p (dir_entry v' n' k) = p (dir_entry v n k)).
  { intros k Hk. rewrite P3 by lia. destruct (decide (k = t)) as [->|]; [|done]. by rewrite Hd, Hold by lia. }
  destruct (first_or_none v n p) as [(k & Hk & Hlow & Hp)|Hno].
  - rewrite (find_first v n p k), (find_first v' n' p k); [|lia|intros j Hj; rewrite Hsame by lia; by apply Hlow|by rewrite Hsame|done..].
    rewrite P3 by lia. destruct (decide (k = t)) as [->|]; [|done]. rewrite Hold in Hp by lia. done.
  - rewrite (find_none v n p), (find_none v' n' p); [done| |done]. intros j Hj. destruct (decide (j = t)) as [->|]; [rewrite P3 by lia; by rewrite decide_True|].
    rewrite Hsame by lia. apply Hno. lia.
Qed.
Lemma find_put_new v n v' n' t d p : dir_put v n v' n' t d -> 0 <= t <= dir_count n -> p d = true -> (forall j, 0 <= j < dir_count n -> p (dir_entry v n j) = false) ->
  List.find p (dir_entries v' n') = Some d.
Proof.
  intros [P1 P2 P3] Ht Hd Hno. assert (E : dir_entry v' n' t = d) by (rewrite P3 by lia; by rewrite decide_True).
  rewrite (find_first v' n' p t); [by rewrite E|lia| |by rewrite E]. intros j Hj. rewrite P3 by lia. rewrite decide_False by lia. apply Hno. lia.
Qed.

(** ** The operations *)

Section dirs.
Context {D : Type} `{!BlockDevice D}.
Context (sb : SuperBlock) (ip : nat) (meta : Z) (Hsb : sb_ok sb) (Hmeta : 0 <= meta < sb_bmap_start sb).
Implicit Types (s : fsys D) (v : Z -> block) (ic : nat -> Inode).

(** A directory in order with room for one more entry. *)
Record dir_st s v ic : Prop := {
  ds_file : file_st sb ip meta s v ic;
  ds_size : size (idisk (ic ip)) = DENTRY_SIZE * dir_count (idisk (ic ip));
  ds_room : size (idisk (ic ip)) + DENTRY_SIZE + Z.of_nat BLOCK_SIZE < U32;
}.

Lemma one_block t : 0 <= t -> blocks_left (DENTRY_SIZE * t) (DENTRY_SIZE * t + DENTRY_SIZE) = 1.
Proof.
  intros Ht. change DENTRY_SIZE with 64. unfold blocks_left. rewrite (proj2 (Z.ltb_lt _ _)) by lia. change (Z.of_nat BLOCK_SIZE) with 4096.
  pose proof (Z.div_mod t 64 ltac:(done)). pose proof (Z.mod_pos_bound t 64 ltac:(done)).
  rewrite <-(Z.div_unique (64 * t) 4096 (t / 64) (64 * (t mod 64))), <-(Z.div_unique (64 * t + 64 - 1) 4096 (t / 64) (64 * (t mod 64) + 63)); lia.
Qed.

(** What putting an entry leaves alone: the blocks in use that are not the
    directory's, the other inode records and cache slots. *)
Record left_alone v ic v' ic' : Prop := {
  la_free : (free_blocks sb v <= free_blocks sb v' + 3)%nat;
  la_records : records sb ip v ic v' ic';
  la_grown : grown sb meta v (idisk (ic ip)) v' (idisk (ic' ip));
}.

Lemma wp_put_entry s v ic t d : file_st sb ip meta s v ic -> size (idisk (ic ip)) = DENTRY_SIZE * dir_count (idisk (ic ip)) -> dentry_ok d ->
  0 <= t <= dir_count (idisk (ic ip)) -> DENTRY_SIZE * t + DENTRY_SIZE + Z.of_nat BLOCK_SIZE < U32 -> size (idisk (ic ip)) + DENTRY_SIZE < U32 -> (3 <= free_blocks sb v)%nat ->
  wp (inode_write_data ip (DENTRY_SIZE * t) DENTRY_SIZE (encode_dentry d)) (fun r s' => r = DENTRY_SIZE /\ exists v' ic', file_st sb ip meta s' v' ic' /\
    dir_put v (idisk (ic ip)) v' (idisk (ic' ip)) t d /\ left_alone v ic v' ic') s.
Proof.
  intros Hst Hsz Hd Ht Hmax Hmax' Hfree. eapply wp_mono; [|apply (wp_inode_write_data sb ip meta Hsb Hmeta s v ic (DENTRY_SIZE * t) DENTRY_SIZE (encode_dentry d) Hst)].
  - intros r s' (-> & v' & ic' & S' & [Hrec Hgr] & Hs' & Hfr & Hb & _). split; [done|]. exists v', ic'. split; [done|].
    rewrite one_block in Hfr by lia. split; [by apply dir_put_written|]. split; [lia|done|done].
  - change DENTRY_SIZE with 64. lia.
  - rewrite length_encode_dentry by done. done.
  - done.
  - rewrite one_block by lia. lia.
Qed.

(** The name field starts with a byte that is not zero. *)
Definition good_name (name : list Z) : Prop := nth 0 (pad_name name) 0 <> 0.

Lemma entry_named_new name inum : good_name name -> entry_named name (mkDentry (pad_name name) inum) = true.
Proof.
  intros Hg. unfold entry_named. cbn [dname]. rewrite (proj2 (Z.eqb_neq _ _) Hg). cbn [negb andb]. apply name_match_spec; [apply length_pad_name|done].
Qed.
Lemma entry_named_empty name d : (nth 0 (dname d) 0 =? 0) = true -> entry_named name d = false.
Proof. intros E. unfold entry_named. by rewrite E. Qed.

Lemma size_nonneg s v ic : file_st sb ip meta s v ic -> 0 <= size (idisk (ic ip)).
Proof. intros [_ Hf _ _]. apply (dk_size _ (fo_dinode _ _ _ Hf)). Qed.

Lemma wp_search_st s v ic name Q : file_st sb ip meta s v ic -> size (idisk (ic ip)) + Z.of_nat BLOCK_SIZE < U32 ->
  (forall s', file_st sb ip meta s' v ic -> Q (dinum <$> List.find (entry_named name) (dir_entries v (idisk (ic ip)))) s') -> wp (dentry_search ip name) Q s.
Proof.
  intros Hst Hsz HQ. pose proof Hst as [Hh Hf Hb Hm]. eapply wp_mono; [|apply (wp_dentry_search s v sb ic ip name Hh (dk_len _ (fo_dinode _ _ _ Hf))); [by eapply size_nonneg|done]].
  intros r s' [H' ->]. apply HQ. by split.
Qed.

(** The entry goes to the first free place, or to the end. *)
Lemma wp_dentry_create s v ic name inum : let n := idisk (ic ip) in
  dir_st s v ic -> 0 <= inum < U32 -> (3 <= free_blocks sb v)%nat -> List.find (entry_named name) (dir_entries v n) = None ->
  wp (dentry_create ip inum name) (fun r s' => r = 0 /\ exists v' ic' t, file_st sb ip meta s' v' ic' /\ 0 <= t <= dir_count n /\
    (t < dir_count n -> (nth 0 (dname (dir_entry v n t)) 0 =? 0) = true) /\
    dir_put v n v' (idisk (ic' ip)) t (mkDentry (pad_name name) inum) /\ left_alone v ic v' ic') s.
Proof.
  intros n [Hst Hsz Hroom] Hinum Hfree Hnone. pose proof Hst as [Hh Hf Hb Hm]. pose proof (size_nonneg s v ic Hst) as H0. pose proof (dk_len _ (fo_dinode _ _ _ Hf)) as Hlen.
  change DENTRY_SIZE with 64 in Hsz, Hroom. change (Z.of_nat BLOCK_SIZE) with 4096 in Hroom. fold n in Hsz, Hroom, H0.
  unfold dentry_create. wp_step. eapply wp_mono; [|apply (wp_dentry_search s v sb ic ip name Hh Hlen H0); change (Z.of_nat BLOCK_SIZE) with 4096; fold n; lia].
  intros o s1 [H1 ->]. fold n. rewrite Hnone. cbn [fmap option_fmap option_map]. wp_step. eapply wp_the_inode; [exact H1|]. fold n. wp_step.
  assert (Hput : forall s2 t, fs_hold s2 v ∅ sb ic -> 0 <= t <= dir_count n -> (t < dir_count n -> (nth 0 (dname (dir_entry v n t)) 0 =? 0) = true) ->
    wp (w ← inode_write_data ip (DENTRY_SIZE * t) DENTRY_SIZE (encode_dentry (mkDentry (pad_name name) inum));
        if negb (w =? DENTRY_SIZE) then mret (-1) else mret 0)
      (fun r s' => r = 0 /\ exists v' ic' t, file_st sb ip meta s' v' ic' /\ 0 <= t <= dir_count n /\
        (t < dir_count n -> (nth 0 (dname (dir_entry v n t)) 0 =? 0) = true) /\
        dir_put v n v' (idisk (ic' ip)) t (mkDentry (pad_name name) inum) /\ left_alone v ic v' ic') s2).
  { intros s2 t H2 Ht Hemp. wp_step. eapply wp_mono; [|apply (wp_put_entry s2 v ic t (mkDentry (pad_name name) inum))].
    - intros r s3 (-> & v' & ic' & S' & P'). rewrite Z.eqb_refl. cbn [negb]. wp_step. split; [done|]. exists v', ic', t. done.
    - by split.
    - change DENTRY_SIZE with 64. done.
    - split; [apply length_pad_name|done].
    - done.
    - change DENTRY_SIZE with 64. change (Z.of_nat BLOCK_SIZE) with 4096. fold n. lia.
    - change DENTRY_SIZE with 64. fold n. lia.
    - done. }
  eapply (wp_scan_first s1 v sb ic ip _ (fun d => nth 0 (dname d) 0 =? 0)); [done|done|done|change (Z.of_nat BLOCK_SIZE) with 4096; fold n; lia| | |].
  - intros off d s2 E. cbn beta in E. by rewrite E.
  - intros k s2 H2 Hk Hlow E. fold n in Hk, Hlow, E |- *. cbn beta in E. rewrite E. wp_step. cbn [default]. by apply Hput; [done|lia|].
  - intros s2 H2 Hno. cbn [default]. replace (size n) with (DENTRY_SIZE * dir_count n) by (change DENTRY_SIZE with 64; lia).
    apply Hput; [done| |lia]. unfold dir_count. change DENTRY_SIZE with 64. pose proof (Z.div_pos (size n) 64). lia.
Qed.

(** The first entry of the name is cleared. *)
Lemma wp_dentry_delete s v ic name t : let n := idisk (ic ip) in
  file_st sb ip meta s v ic -> size n = DENTRY_SIZE * dir_count n -> size n + DENTRY_SIZE + Z.of_nat BLOCK_SIZE < U32 -> (3 <= free_blocks sb v)%nat ->
  0 <= t < dir_count n -> (forall j, 0 <= j < t -> entry_named name (dir_entry v n j) = false) -> entry_named name (dir_entry v n t) = true ->
  wp (dentry_delete ip name) (fun r s' => r = as_i32 (dinum (dir_entry v n t)) /\ exists v' ic', file_st sb ip meta s' v' ic' /\
    dir_put v n v' (idisk (ic' ip)) t no_entry /\ left_alone v ic v' ic') s.
Proof.
  intros n Hst Hsz Hroom Hfree Ht Hlow Hp. pose proof Hst as [Hh Hf Hb Hm]. pose proof (size_nonneg s v ic Hst) as H0. pose proof (dk_len _ (fo_dinode _ _ _ Hf)) as Hlen.
  change DENTRY_SIZE with 64 in Hsz, Hroom. change (Z.of_nat BLOCK_SIZE) with 4096 in Hroom. fold n in H0.
  unfold dentry_delete. wp_step. eapply wp_the_inode; [exact Hh|]. fold n. wp_step.
  eapply (wp_scan_first s v sb ic ip _ (entry_named name)); [done|done|done|change (Z.of_nat BLOCK_SIZE) with 4096; fold n; lia| | |].
  - intros off d s2 E. unfold entry_named in E. by rewrite E.
  - intros k s2 H2 Hk Hlow' E. fold n in Hk, Hlow', E |- *.
    assert (k = t) as -> by (destruct (Z.lt_trichotomy k t) as [Hlt|[|Hgt]]; [rewrite Hlow in E by lia; done|done|rewrite Hlow' in Hp by lia; done]).
    unfold entry_named in E. rewrite E. wp_step.
    change (replicate (Z.to_nat DENTRY_SIZE) 0) with (encode_dentry no_entry).
    eapply wp_mono; [|apply (wp_put_entry s2 v ic t no_entry)].
    + intros r s3 (_ & v' & ic' & S' & P' & L'). do 2 wp_step. cbn [default]. split; [done|]. by exists v', ic'.
    + by split.
    + change DENTRY_SIZE with 64. done.
    + split; [done|]. cbn. unfold U32. lia.
    + fold n. lia.
    + change DENTRY_SIZE with 64. change (Z.of_nat BLOCK_SIZE) with 4096. lia.
    + change DENTRY_SIZE with 64. fold n. lia.
    + done.
  - intros s2 _ Hno. rewrite Hno in Hp by (fold n; lia). done.
Qed.

(** ** The operations, by names *)

Definition resolve v (n : InodeDisk) (name : list Z) : option DentryDisk := List.find (entry_named name) (dir_entries v n).
(** Entry [t] is [d], and the only one of the name. *)
Definition sole v (n : InodeDisk) (name : list Z) (t : Z) (d : DentryDisk) : Prop :=
  0 <= t < dir_count n /\ dir_entry v n t = d /\ entry_named name d = true /\
  forall j, 0 <= j < dir_count n -> j <> t -> entry_named name (dir_entry v n j) = false.
(** Names that [d] does not match resolve as before. *)
Record renamed v ic v' ic' (d : DentryDisk) : Prop := {
  rn_names : forall name', entry_named name' d = false -> resolve v' (idisk (ic' ip)) name' = resolve v (idisk (ic ip)) name';
  rn_size : size (idisk (ic' ip)) = DENTRY_SIZE * dir_count (idisk (ic' ip));
  rn_alone : left_alone v ic v' ic';
}.

Lemma sole_resolve v n name t d : sole v n name t d -> resolve v n name = Some d.
Proof.
  intros (Ht & E & Hd & Hno). unfold resolve. rewrite (find_first v n _ t); [by rewrite E|done| |by rewrite E]. intros j Hj. apply Hno; lia.
Qed.
Lemma resolve_none v n name j : resolve v n name = None -> 0 <= j < dir_count n -> entry_named name (dir_entry v n j) = false.
Proof.
  intros Hno Hj. eapply List.find_none; [exact Hno|]. apply list_elem_of_In, list_elem_of_fmap. exists j. split; [done|]. apply elem_of_seqZ. lia.
Qed.

Lemma wp_create_entry s v ic name inum : let n := idisk (ic ip) in let d := mkDentry (pad_name name) inum in
  dir_st s v ic -> 0 <= inum < U32 -> good_name name -> (3 <= free_blocks sb v)%nat -> resolve v n name = None ->
  wp (dentry_create ip inum name) (fun r s' => r = 0 /\ exists v' ic' t, file_st sb ip meta s' v' ic' /\ renamed v ic v' ic' d /\
    sole v' (idisk (ic' ip)) name t d /\ size (idisk (ic' ip)) <= size n + DENTRY_SIZE) s.
Proof.
  intros n d Hd Hinum Hgood Hfree Hnone. eapply wp_mono; [|by apply (wp_dentry_create s v ic name inum Hd)].
  intros r s' (-> & v' & ic' & t & S' & Ht & Hemp & P & L). fold n in Ht, Hemp, P. pose proof P as [C Z E]. split; [done|]. exists v', ic', t.
  assert (Hempty : t < dir_count n -> forall nm, entry_named nm (dir_entry v n t) = false) by (intros Hlt nm; by apply entry_named_empty, Hemp).
  split; [done|]. split; [split; [|done|done]|split].
  - intros name' Hn. unfold resolve. by apply (find_put_other v n v' _ t d); auto.
  - split; [lia|]. split; [rewrite E by lia; by rewrite decide_True|]. split; [by apply entry_named_new|].
    intros j Hj Hne. rewrite E by done. rewrite decide_False by done. apply resolve_none; [done|lia].
  - destruct Hd as [_ Hsz _]. fold n in Hsz. rewrite Z, C, Hsz. change DENTRY_SIZE with 64. lia.
Qed.

Lemma wp_delete_entry s v ic name t d : let n := idisk (ic ip) in
  dir_st s v ic -> (3 <= free_blocks sb v)%nat -> sole v n name t d ->
  wp (dentry_delete ip name) (fun r s' => r = as_i32 (dinum d) /\ exists v' ic', file_st sb ip meta s' v' ic' /\ renamed v ic v' ic' d /\
    resolve v' (idisk (ic' ip)) name = None /\ size (idisk (ic' ip)) = size n) s.
Proof.
  intros n [Hst Hsz Hroom] Hfree (Ht & Et & Hd & Hno). fold n in Hsz, Hroom.
  eapply wp_mono; [|apply (wp_dentry_delete s v ic name t Hst Hsz Hroom Hfree Ht); [intros j Hj; apply Hno; lia|fold n; by rewrite Et]].
  intros r s' (-> & v' & ic' & S' & P & L). fold n in P |- *. pose proof P as [C Z E]. rewrite Et. split; [done|]. exists v', ic'.
  split; [done|]. split; [split; [|done|done]|split].
  - intros name' Hn. apply (find_put_other v n v' _ t no_entry); [done|lia|by apply entry_named_empty|]. intros _. by rewrite Et.
  - apply find_none. intros j Hj. rewrite E by done. destruct (decide (j = t)); [by apply entry_named_empty|]. apply Hno; lia.
  - rewrite Z, C, Hsz. lia.
Qed.
End dirs.

(** ** Properties *)

(** C16: Directories keep what is put in them: after an entry is created its
    name resolves to its inode, and every name it does not match resolves as
    before; after it is deleted, which answers its inode number, the name
    resolves to nothing and every other name still resolves as before. *)
Theorem directory_roundtrip {D} `{!BlockDevice D} (s : fsys D) v sb ic ip meta name name' inum :
  let n := idisk (ic ip) in
  let old := dinum <$> List.find (entry_named name') (dir_entries v n) in
  sb_ok sb -> 0 <= meta < sb_bmap_start sb -> file_st sb ip meta s v ic ->
  size n = DENTRY_SIZE * dir_count n -> size n + 2 * DENTRY_SIZE + Z.of_nat BLOCK_SIZE < U32 ->
  0 <= inum < U32 -> good_name name -> name_match (pad_name name) name' = false ->
  List.find (entry_named name) (dir_entries v n) = None -> (6 <= free_blocks sb v)%nat ->
  wp (r ← dentry_create ip inum name;
      o1 ← dentry_search ip name;
      o2 ← dentry_search ip name';
      i ← dentry_delete ip name;
      o3 ← dentry_search ip name;
      o4 ← dentry_search ip name';
      mret (r, o1, o2, i, o3, o4))
    (fun res _ => res = (0, Some inum, old, as_i32 inum, None, old)) s.
Proof.
  intros n old Hsb Hm Hst Hsz Hroom Hinum Hgood Hother Hnone Hfree. set (d := mkDentry (pad_name name) inum). change DENTRY_SIZE with 64 in Hroom.
  assert (Hd' : entry_named name' d = false) by (unfold entry_named; cbn [dname d]; rewrite Hother; apply andb_false_r).
  wp_step. eapply wp_mono; [|apply (wp_create_entry sb ip meta Hsb Hm s v ic name inum); [split; [done|done|change DENTRY_SIZE with 64; fold n; lia]|done|done|lia|done]].
  intros r s1 (-> & v1 & ic1 & t & S1 & [N1 Z1 [F1 _ _]] & So1 & L1). fold n d in N1, So1, L1. set (n1 := idisk (ic1 ip)) in *. change DENTRY_SIZE with 64 in L1.
  pose proof (sole_resolve v1 n1 name t d So1) as R1. unfold resolve in R1, N1.
  wp_step. eapply (wp_search_st sb ip meta s1 v1 ic1 name); [done|fold n1; lia|]. intros s2 S2. fold n1. rewrite R1.
  wp_step. eapply (wp_search_st sb ip meta s2 v1 ic1 name'); [done|fold n1; lia|]. intros s3 S3. fold n1. rewrite N1 by done. fold old.
  wp_step. eapply wp_mono; [|apply (wp_delete_entry sb ip meta Hsb Hm s3 v1 ic1 name t d); [split; [done|done|change DENTRY_SIZE with 64; fold n1; lia]|lia|done]].
  intros i s4 (-> & v2 & ic2 & S4 & [N2 _ _] & R2 & L2). fold n1 in N2, L2. set (n2 := idisk (ic2 ip)) in *. unfold resolve in R2, N2.
  wp_step. eapply (wp_search_st sb ip meta s4 v2 ic2 name); [done|fold n2; lia|]. intros s5 S5. fold n2. rewrite R2.
  wp_step. eapply (wp_search_st sb ip meta s5 v2 ic2 name'); [done|fold n2; lia|]. intros s6 S6. fold n2. rewrite N2, N1 by done.
  wp_step. done.
Qed.

Lemma directory_roundtrip_witness :
  wp (r ← dentry_create 3 5 TEST_FILE;
      o1 ← dentry_search 3 TEST_FILE;
      o2 ← dentry_search 3 TEST_PATH;
      i ← dentry_delete 3 TEST_FILE;
      o3 ← dentry_search 3 TEST_FILE;
      o4 ← dentry_search 3 TEST_PATH;
      mret (r, o1, o2, i, o3, o4))
    (fun res _ => res = (0, Some 5, None, 5, None, None)) demo_fs.
Proof.
  apply (directory_roundtrip demo_fs demo_view demo_sb (fun _ => Inode_new) 3 2 TEST_FILE TEST_PATH 5 demo_sb_ok ltac:(split; [discriminate|reflexivity]) demo_file_st).
  - reflexivity.
  - reflexivity.
  - split; [discriminate|reflexivity].
  - discriminate.
  - reflexivity.
  - reflexivity.
  - rewrite demo_free. lia.
Defined.
