(* ===== verification/FsTest.v ===== *)
(** * The self-test at boot ([fs_test] of [fs/fs.rs])

    [fs_init] ends with a self-test that works on the real disk: it allocates
    and frees inodes, writes a file, and creates and deletes entries of the
    root directory. The lemmas below show that on a file system in order with
    room for it the test passes, and what it leaves alone: the blocks in use
    outside the root directory, the inode records other than the root's and the
    one it uses, and every name of the root directory but its own two. *)
From stdpp Require Import functions.
From S2P Require Import Prelude Lru BufferCache FsState Bitmap InodeLayer FileWrite FileDelete Directory DirWrite.

(** ** Files and bits *)

Lemma free_blocks_mono sb v v' : (forall j, bit (v' (sb_bmap_start sb)) j = true -> bit (v (sb_bmap_start sb)) j = true) ->
  (free_blocks sb v <= free_blocks sb v')%nat.
Proof.
  intros H. unfold free_blocks. apply submseteq_length, NoDup_submseteq; [apply NoDup_filter, NoDup_seq|].
  intros j [Hj Hs]%list_elem_of_filter. apply list_elem_of_filter. split; [|done].
  destruct (bit (v' (sb_bmap_start sb)) j) eqn:E; [|done]. apply H in E. congruence.
Qed.

Lemma resolve_ext v v' n name : 0 <= size n -> (forall k, 0 <= k < size n -> file_byte v' n k = file_byte v n k) -> resolve v' n name = resolve v n name.
Proof.
  intros H0 Hb. unfold resolve, dir_entries. f_equal. apply list_fmap_ext. intros i x Hx. apply lookup_seqZ in Hx as [-> Hi]. unfold dir_entry. f_equal.
  unfold dir_count in Hi. change DENTRY_SIZE with 64 in *. pose proof (Z.div_mod (size n) 64 ltac:(done)). pose proof (Z.mod_pos_bound (size n) 64 ltac:(done)).
  unfold file_bytes. apply list_fmap_ext. intros j y Hy. apply lookup_seqZ in Hy as [-> Hj]. apply Hb. lia.
Qed.

(** An inode without blocks. *)
Definition no_blocks (n : InodeDisk) : Prop := index_ n = replicate INODE_INDEX_3 0.
Lemma no_blocks_slot v n q : no_blocks n -> slot_val v n q = 0.
Proof.
  intros Hn. assert (Hr : forall i, root_val n i = 0).
  { intros i. unfold root_val. rewrite Hn. destruct (nth_in_or_default i (replicate INODE_INDEX_3 0) 0) as [Hin|Heq]; [|done].
    by apply list_elem_of_In, elem_of_replicate in Hin as [-> _]. }
  destruct q; cbn [slot_val]; unfold entry; rewrite ?Hr; done.
Qed.
Lemma no_blocks_ok sb v n : no_blocks n -> dinode_ok n -> file_ok sb v n.
Proof. intros Hn Hd. split; [done| |]; intros q; intros; by rewrite no_blocks_slot in *. Qed.

(** What [inode_create] puts in a new inode. *)
Definition new_dinode (ty : Z) : InodeDisk := mkDinode ty 0 0 1 0 (replicate INODE_INDEX_3 0).
Lemma new_dinode_ok ty : 0 <= ty < U16 -> dinode_ok (new_dinode ty).
Proof.
  intros Ht. split; cbn [type_ major minor nlink size index_ new_dinode]; try (unfold U16, U32; lia); [done|done|].
  repeat (constructor; [unfold U32; lia|]). constructor.
Qed.

Section selftest.
Context {D : Type} `{!BlockDevice D}.
Context (sb : SuperBlock) (Hsb : sb_ok sb) (k : nat).
Implicit Types (s : fsys D) (v : Z -> block) (ic : nat -> Inode).
Local Abbreviation bmap := (sb_bmap_start sb).
Local Abbreviation ibm := (sb_inode_start sb - 1).
Local Abbreviation kblk := (inode_block sb (Z.of_nat k)).
(** The inode bitmap, the inodes and the block bitmap lie in this order, and
    the root's record and that of inode [k] lie in the inode region. *)
Context (Hibm : 0 <= ibm) (Hrootb : inode_block sb ROOT_INODE < bmap) (Hkb : kblk < bmap) (Hkn : Z.of_nat k < sb_ninodes sb).

Lemma after_ibm inum : 0 <= inum -> ibm < inode_block sb inum.
Proof. intros H. unfold inode_block. pose proof (Z.div_pos inum IPB H ltac:(done)). lia. Qed.

(** ** A new inode *)

(** Inode [k] was allocated and holds [n]. *)
Record created v v' (n : InodeDisk) : Prop := {
  cr_record : decode_dinode (record_at sb v' (Z.of_nat k)) = n;
  cr_others : forall i, 0 <= i -> i <> Z.of_nat k -> inode_block sb i < bmap -> record_at sb v' i = record_at sb v i;
  cr_blocks : forall b, b <> ibm -> b <> kblk -> v' b = v b;
  cr_bitmap : is_block (v' ibm);
  cr_bits : forall j, bit (v' ibm) j = if decide (j = k) then true else bit (v ibm) j;
}.

Lemma wp_inode_create s v ic i ty Q : fs_hold s v ∅ sb ic -> is_block (v ibm) -> first_clear (v ibm) k -> 0 <= ty < U16 -> (i < N_INODE)%nat ->
  (forall j, (j < i)%nat -> irefcnt (ic j) <> 0) -> irefcnt (ic i) = 0 ->
  (forall j, (j < N_INODE)%nat -> irefcnt (ic j) = 0 \/ inode_num (ic j) <> Z.of_nat k) ->
  (forall s' v' ic', fs_hold s' v' ∅ sb ic' -> created v v' (new_dinode ty) -> slot_is ic ic' i (mkInode (new_dinode ty) true (Z.of_nat k) 1) -> Q i s') ->
  wp (inode_create ty 0 0) Q s.
Proof.
  intros Hh Hib Hk Hty Hi Hused Hfree Hmiss HQ. pose proof (so_max _ Hsb) as Hmax. pose proof (so_nblocks _ Hsb) as [Hnb _].
  pose proof (after_ibm (Z.of_nat k) ltac:(lia)) as Hlo. pose proof Hk as (Hbits & _ & _). unfold U32 in Hmax.
  unfold inode_create. wp_step. eapply wp_mono; [|apply (wp_inode_alloc s v ∅ sb ic k Hh)]; [|apply lookup_empty|rewrite map_size_empty; unfold N_BUFFER; lia|done|done|done|unfold U32; lia].
  intros r s1 [-> H1]. wp_step. eapply (wp_inode_get_fresh _ _ _ _ _ i); [exact H1|done| |done|done|unfold U32; lia|].
  { intros j Hj. destruct (Hmiss j Hj) as [->|Hne]; [done|]. rewrite (proj2 (Z.eqb_neq _ _) Hne). by destruct (0 <? irefcnt (ic j)). }
  intros s2 ic2 H2 [I2 O2]. wp_step. eapply wp_upd_disk; [exact H2|]. intros s3 H3. rewrite I2 in H3. cbn [cached idisk set_idisk ivalid inode_num irefcnt] in H3.
  match type of H3 with fs_hold _ _ _ _ ?x => set (ic3 := x) in * end.
  assert (I3 : ic3 i = mkInode (new_dinode ty) true (Z.of_nat k) 1) by (unfold ic3; by rewrite fn_lookup_insert).
  wp_step. eapply wp_inode_rw_write; [exact H3|apply lookup_empty|rewrite map_size_empty; unfold N_BUFFER; lia|..]; rewrite I3; cbn [inode_num idisk].
  { unfold U32. lia. }
  { done. }
  intros s4 H4. wp_step. eapply HQ; [exact H4| |].
  - assert (Hl : forall b, length ((<[ibm := set_bit k (v ibm)]> v) b) = BLOCK_SIZE) by (intros b; eapply block_length, H1).
    pose proof (write_inode_view sb (new_dinode ty) _ (Z.of_nat k) (new_dinode_ok ty Hty) Hl) as [W1 W2]. split.
    + exact W1.
    + intros j Hj Hne Hlt. unfold record_at. rewrite W2 by done. pose proof (after_ibm j Hj). by rewrite fn_lookup_insert_ne by lia.
    + intros b B1 B2. by rewrite !fn_lookup_insert_ne.
    + rewrite fn_lookup_insert_ne, fn_lookup_insert by lia. by apply is_block_set_bit.
    + intros j. rewrite fn_lookup_insert_ne, fn_lookup_insert by lia. by apply bit_set_bit.
  - split; [done|]. intros j Hj. unfold ic3. rewrite fn_lookup_insert_ne by done. by apply O2.
Qed.

(** ** Unlinking it *)

(** Inode [k], which held [n], is gone, and its blocks are free. *)
Record discarded v v' (n : InodeDisk) : Prop := {
  di_bits : forall j, bit (v' bmap) j = true <-> bit (v bmap) j = true /\ forall q, valid q -> q <> Root 11 -> slot_val v n q <> bmap + 1 + Z.of_nat j;
  di_ibits : forall j, bit (v' ibm) j = if decide (j = k) then false else bit (v ibm) j;
  di_blocks : forall b, b <> bmap -> b <> ibm -> b <> kblk -> v' b = v b;
  di_bitmaps : is_block (v' bmap) /\ is_block (v' ibm);
  di_others : forall i, 0 <= i -> i <> Z.of_nat k -> inode_block sb i < bmap -> record_at sb v' i = record_at sb v i;
}.

Lemma set_nlink_ok n : dinode_ok n -> dinode_ok (set_nlink 0 n).
Proof. intros []. by split. Qed.

Lemma wp_test_unlink s v ic ip Q : let n := idisk (ic ip) in
  fs_hold s v ∅ sb ic -> file_ok sb v n -> is_block (v bmap) -> is_block (v ibm) -> (k < NBITS)%nat -> bit (v ibm) k = true ->
  irefcnt (ic ip) = 1 -> inode_num (ic ip) = Z.of_nat k ->
  (forall s' v' ic', fs_hold s' v' ∅ sb ic' -> discarded v v' n -> irefcnt (ic' ip) = 0 -> (forall j, j <> ip -> ic' j = ic j) -> Q tt s') ->
  wp (test_unlink ip) Q s.
Proof.
  intros n Hh Hf Hb Hib Hk Hbit Hr Hnum HQ. pose proof (so_max _ Hsb) as Hmax. pose proof (so_nblocks _ Hsb) as [Hnb _].
  pose proof (after_ibm (Z.of_nat k) ltac:(lia)) as Hlo. pose proof (set_nlink_ok n (fo_dinode _ _ _ Hf)) as Hd. unfold U32 in Hmax.
  unfold test_unlink. wp_step. eapply wp_upd_disk; [exact Hh|]. intros s1 H1. fold n in H1.
  match type of H1 with fs_hold _ _ _ _ ?x => set (ic1 := x) in * end.
  assert (I1 : ic1 ip = set_idisk (set_nlink 0 n) (ic ip)) by (unfold ic1; by rewrite fn_lookup_insert).
  wp_step. eapply wp_inode_rw_write; [exact H1|apply lookup_empty|rewrite map_size_empty; unfold N_BUFFER; lia|..]; rewrite I1; cbn [inode_num idisk set_idisk]; rewrite ?Hnum.
  { unfold U32. lia. }
  { apply (dk_len _ Hd). }
  intros s2 H2. match type of H2 with fs_hold _ ?x _ _ _ => set (v1 := x) in * end.
  assert (Hoth : forall b, b <> kblk -> v1 b = v b) by (intros b Hbk; unfold v1; by rewrite fn_lookup_insert_ne).
  assert (Hnk : forall p, valid p -> slot_val v n p <> 0 -> slot_val v n p <> kblk).
  { intros p Hp Hne. pose proof (used_not_bmap sb v n p Hf Hp Hne). lia. }
  assert (Hs : forall q, valid q -> slot_val v1 (set_nlink 0 n) q = slot_val v n q).
  { intros q Hq. change (slot_val v1 n q = slot_val v n q). unfold v1. apply slot_val_store; auto. }
  assert (Hf1 : file_ok sb v1 (set_nlink 0 n)).
  { assert (Hf' : file_ok sb v1 n) by (unfold v1; apply file_ok_store; [done|lia|auto]). destruct Hf' as [G1 G2 G3]. by split. }
  pose proof (write_inode_view sb (set_nlink 0 n) v (Z.of_nat k) Hd (fun b => block_length sb _ _ _ _ b Hh)) as [_ W2].
  eapply wp_mono; [|apply (wp_inode_put_deletes s2 v1 sb ic1 ip k Hsb Hibm Hkb H2)]; rewrite ?I1, ?Hoth by lia; try done.
  intros [] s3 (v3 & ic3 & H3 & B1 & B2 & _ & B3 & (B4 & B5 & B6) & [I3 O3]).
  eapply HQ; [exact H3| |by rewrite I3|].
  - split; [| |intros b X1 X2 X3; rewrite B3 by done; by apply Hoth|done|].
    + intros j. rewrite B1. split; (intros [Hj Hq]; split; [done|]; intros q Hv Hne); [rewrite <-Hs by done|rewrite Hs by done]; by apply Hq.
    + intros j. by rewrite B2.
    + intros i Hi Hne Hlt. rewrite B6 by (done || pose proof (after_ibm i Hi); lia). unfold record_at, v1. by rewrite W2.
  - intros j Hj. rewrite O3 by done. unfold ic1. by rewrite fn_lookup_insert_ne.
Qed.

(** ** What the test keeps *)

(** [P] are data blocks of the file system [v0] that the test must not touch. *)
Context (P : nat -> Prop) (v0 : Z -> block).

Definition root v : InodeDisk := decode_dinode (record_at sb v ROOT_INODE).
Definition test_name (name : list Z) : Prop := name = TEST_FILE \/ name = TEST_PATH.
(** No entry of one of the test's names is found under [name]. *)
Definition other_name (name : list Z) : Prop := forall tn i, test_name tn -> entry_named name (mkDentry (pad_name tn) i) = false.

(** The file system is in order, has room for [c] more writes to the root
    directory or to a file of one block, and has kept what it must. *)
Record core v (c : nat) : Prop := {
  co_bitmap : is_block (v bmap);
  co_ibitmap : is_block (v ibm);
  co_rootbit : bit (v ibm) 0 = true;
  co_free : (3 * c <= free_blocks sb v)%nat;
  co_file : file_ok sb v (root v);
  co_type : type_ (root v) = INODE_TYPE_DIR;
  co_nlink : nlink (root v) <> 0;
  co_size : size (root v) = DENTRY_SIZE * dir_count (root v);
  co_room : size (root v) + DENTRY_SIZE * Z.of_nat c + Z.of_nat BLOCK_SIZE < U32;
  co_blocks : forall j, P j -> bit (v bmap) j = true /\ (forall q, valid q -> slot_val v (root v) q <> bmap + 1 + Z.of_nat j) /\
    v (bmap + 1 + Z.of_nat j) = v0 (bmap + 1 + Z.of_nat j);
  co_records : forall i, 0 <= i -> i <> ROOT_INODE -> i <> Z.of_nat k -> inode_block sb i < bmap -> record_at sb v i = record_at sb v0 i;
  co_names : forall name, other_name name -> resolve v (root v) name = resolve v0 (root v0) name;
}.

Lemma core_weaken v c c' : (c' <= c)%nat -> core v c -> core v c'.
Proof. intros Hc []. split; try done; [lia|change DENTRY_SIZE with 64 in *; lia]. Qed.

(** Inode [k] changed, and no data block in use. *)
Record apart v v' : Prop := {
  ap_bitmaps : is_block (v' bmap) /\ is_block (v' ibm);
  ap_rootbit : bit (v' ibm) 0 = true;
  ap_blocks : forall j, bit (v bmap) j = true -> bit (v' bmap) j = true /\ v' (bmap + 1 + Z.of_nat j) = v (bmap + 1 + Z.of_nat j);
  ap_records : forall i, 0 <= i -> i <> Z.of_nat k -> inode_block sb i < bmap -> record_at sb v' i = record_at sb v i;
}.

Lemma core_apart v v' c c' : k <> 0%nat -> core v c -> apart v v' -> (c' <= c)%nat -> (3 * c' <= free_blocks sb v')%nat ->
  core v' c' /\ forall name, resolve v' (root v') name = resolve v (root v) name.
Proof.
  intros Hk0 [C1 C2 C3 C4 C5 C6 C7 C8 C9 C10 C11 C12] [[A1 A2] A3 A4 A5] Hc Hfree.
  assert (Hroot : root v' = root v) by (unfold root; rewrite A5; [done|done|unfold ROOT_INODE; lia|done]).
  assert (Hsame : forall q, valid q -> slot_val v (root v) q <> 0 -> v' (slot_val v (root v) q) = v (slot_val v (root v) q)).
  { intros q Hq Hne. destruct (fo_used _ _ _ C5 q Hq Hne) as (j & _ & -> & Hj). by apply A4. }
  destruct (same_blocks_file sb v v' (root v) C5 Hsame) as (F1 & F2 & F3); [intros j Hj; by apply A4|].
  pose proof (dk_size _ (fo_dinode _ _ _ C5)) as Hsz.
  assert (Hres : forall name, resolve v' (root v') name = resolve v (root v) name).
  { intros name. rewrite Hroot. apply resolve_ext; [lia|]. intros x Hx. apply F3. lia. }
  split; [|done]. split; rewrite ?Hroot; try done.
  - change DENTRY_SIZE with 64 in *. lia.
  - intros j Hj. destruct (C10 j Hj) as (X1 & X2 & X3). destruct (A4 j X1) as [Y1 Y2]. split; [done|]. split; [|congruence].
    intros q Hq. rewrite F2 by done. by apply X2.
  - intros i Hi Hne Hik Hb. rewrite A5 by done. by apply C11.
  - intros name Hn. rewrite <-Hroot, Hres. by apply C12.
Qed.

(** Between two tests no inode is referenced and the test's names are free. *)
Record at_rest s v ic (c : nat) : Prop := {
  re_hold : fs_hold s v ∅ sb ic;
  re_idle : forall j, irefcnt (ic j) = 0;
  re_core : core v c;
  re_names : forall tn, test_name tn -> resolve v (root v) tn = None;
}.

(** ** Tests 1 and 2: inodes and data *)

Lemma apart_refl v c : core v c -> apart v v.
Proof. intros []. by split. Qed.
Lemma created_apart v v' n c : core v c -> created v v' n -> apart v v' /\ v' bmap = v bmap.
Proof.
  intros C [R1 R2 R3 R4 R5]. pose proof (after_ibm (Z.of_nat k) ltac:(lia)).
  assert (Hb : v' bmap = v bmap) by (apply R3; lia). split; [|done]. split; [| |intros j Hj; rewrite Hb|done].
  - split; [rewrite Hb; apply (co_bitmap _ _ C)|done].
  - rewrite R5. case_decide; [done|]. apply (co_rootbit _ _ C).
  - split; [done|]. apply R3; lia.
Qed.
Lemma grown_apart v v1 n1 v2 n2 : apart v v1 -> no_blocks n1 -> (forall i, i <> Z.of_nat k -> inode_block sb i < bmap -> record_at sb v2 i = record_at sb v1 i) ->
  is_block (v2 bmap) -> grown sb kblk v1 n1 v2 n2 -> apart v v2 /\
  forall j, bit (v bmap) j = true -> forall q, valid q -> slot_val v2 n2 q <> bmap + 1 + Z.of_nat j.
Proof.
  intros [[A1 A2] A3 A4 A5] Hn Hrec Hb [G1 G2 G3 G4 G5]. pose proof (after_ibm (Z.of_nat k) ltac:(lia)). pose proof (so_bmap _ Hsb). split; [split|].
  - split; [done|]. by rewrite G4 by lia.
  - by rewrite G4 by lia.
  - intros j Hj. destruct (A4 j Hj) as [Hj1 Hv]. split; [by apply G5|]. rewrite G3; [done|done|]. intros q _. rewrite no_blocks_slot by done. lia.
  - intros i Hi Hne Hlt. rewrite Hrec by done. by apply A5.
  - intros j Hj q Hq E. destruct (G2 q Hq ltac:(lia)) as [E'|(j' & E' & Hj')]; [rewrite (no_blocks_slot v1 n1) in E' by done; lia|].
    assert (j' = j) as -> by lia. destruct (A4 j Hj). congruence.
Qed.
Lemma discarded_apart v v2 v3 n : k <> 0%nat -> apart v v2 -> discarded v2 v3 n ->
  (forall j, bit (v bmap) j = true -> forall q, valid q -> slot_val v2 n q <> bmap + 1 + Z.of_nat j) ->
  apart v v3 /\ (free_blocks sb v2 <= free_blocks sb v3)%nat.
Proof.
  intros Hk0 [[A1 A2] A3 A4 A5] [D1 D2 D3 [D4 D5] D6] Hq. pose proof (after_ibm (Z.of_nat k) ltac:(lia)). split; [split|].
  - done.
  - rewrite D2. by case_decide.
  - intros j Hj. destruct (A4 j Hj) as [Hj2 Hv]. split; [apply D1; split; [done|]; intros q V _; by apply Hq|]. rewrite D3 by lia. done.
  - intros i Hi Hne Hlt. rewrite D6 by done. by apply A5.
  - apply free_blocks_mono. intros j Hj. by apply D1 in Hj as [? _].
Qed.
Lemma back_to_clear v v1 v2 v3 n n' : first_clear (v ibm) k -> created v v1 n -> v2 ibm = v1 ibm -> discarded v2 v3 n' -> first_clear (v3 ibm) k.
Proof.
  intros (K1 & K2 & K3) [_ _ _ _ R5] E [_ D2 _ _ _]. assert (Hb : forall j, bit (v3 ibm) j = bit (v ibm) j).
  { intros j. rewrite D2, E, R5. destruct (decide (j = k)) as [->|]; [by rewrite K2|done]. }
  split; [done|]. split; [by rewrite Hb|]. intros j Hj. rewrite Hb. by apply K3.
Qed.
Lemma test_inode v c : core v c -> first_clear (v ibm) k -> k <> 0%nat.
Proof. intros C (_ & K2 & _) ->. rewrite (co_rootbit _ _ C) in K2. done. Qed.
Lemma rest_apart v v' c c' s ic s' ic' : k <> 0%nat -> at_rest s v ic c -> apart v v' -> (c' <= c)%nat -> (3 * c' <= free_blocks sb v')%nat ->
  fs_hold s' v' ∅ sb ic' -> (forall j, irefcnt (ic' j) = 0) -> at_rest s' v' ic' c'.
Proof.
  intros Hk0 [_ _ C N] A Hc Hf Hh Hi. destruct (core_apart v v' c c' Hk0 C A Hc Hf) as [C' N']. split; [done|done|done|]. intros tn Ht. rewrite N'. by apply N.
Qed.

(** The inode created at rest sits in slot 0. *)
Lemma wp_create_at_rest s v ic c Q : at_rest s v ic c -> first_clear (v ibm) k ->
  (forall s1 v1 ic1, fs_hold s1 v1 ∅ sb ic1 -> created v v1 (new_dinode INODE_TYPE_DATA) ->
     slot_is ic ic1 0 (mkInode (new_dinode INODE_TYPE_DATA) true (Z.of_nat k) 1) -> Q 0%nat s1) ->
  wp (inode_create INODE_TYPE_DATA 0 0) Q s.
Proof.
  intros [Hh Hi C _] Hk HQ. eapply (wp_inode_create s v ic 0); [done|apply C|done|unfold INODE_TYPE_DATA, U16; lia|unfold N_INODE; lia|lia|done|by intros; left|done].
Qed.

Lemma wp_test_alloc s v ic c : at_rest s v ic c -> first_clear (v ibm) k ->
  wp test_alloc (fun _ s' => exists v' ic', at_rest s' v' ic' c /\ first_clear (v' ibm) k) s.
Proof.
  intros R Hk. pose proof R as [Hh Hi C N]. pose proof (test_inode v c C Hk) as Hk0. pose proof Hk as (Hkn' & _).
  unfold test_alloc. wp_step. eapply wp_create_at_rest; [done|done|]. intros s1 v1 ic1 H1 R1 [I1 O1].
  destruct (created_apart v v1 _ c C R1) as [A1 B1]. wp_step. unfold inode_dup. wp_step. eapply wp_the_inode; [exact H1|]. rewrite I1. cbn [irefcnt].
  wp_step. unfold uadd32. apply wp_checked; [unfold U32; lia|]. eapply wp_upd_inode; [exact H1|]. intros s2 H2. rewrite I1 in H2. cbn in H2.
  match type of H2 with fs_hold _ _ _ _ ?x => set (ic2 := x) in * end.
  assert (I2 : ic2 0%nat = mkInode (new_dinode INODE_TYPE_DATA) true (Z.of_nat k) 2) by (unfold ic2; by rewrite fn_lookup_insert).
  wp_step. eapply wp_inode_put_linked; [exact H2|by rewrite I2|by rewrite I2|]. rewrite I2. intros s3 ic3 H3 [I3 O3].
  assert (Hfile : file_ok sb v1 (new_dinode INODE_TYPE_DATA)) by (apply no_blocks_ok; [done|apply new_dinode_ok; unfold INODE_TYPE_DATA, U16; lia]).
  eapply (wp_test_unlink s3 v1 ic3 0); rewrite ?I3; try done; [by rewrite B1; apply C|apply (cr_bitmap _ _ _ R1)|by rewrite (cr_bits _ _ _ R1), decide_True|].
  intros s4 v4 ic4 H4 D4 Z4 O4. cbn [idisk set_irefcnt] in D4.
  destruct (discarded_apart v v1 v4 _ Hk0 A1 D4) as [A4 F4]. { intros j _ q _. rewrite no_blocks_slot by done. pose proof (so_bmap _ Hsb). lia. }
  assert (Hf1 : free_blocks sb v1 = free_blocks sb v) by (unfold free_blocks; by rewrite B1).
  exists v4, ic4. split; [|by eapply (back_to_clear v v1 v1)]. eapply (rest_apart v v4 c c); [done|done|done|lia|pose proof (co_free _ _ C); lia|done|].
  intros j. destruct (decide (j = 0%nat)) as [->|Hj]; [done|]. rewrite O4, O3 by done. unfold ic2. rewrite fn_lookup_insert_ne, O1 by done. apply Hi.
Qed.

Lemma wp_test_data s v ic c : at_rest s v ic (S c) -> first_clear (v ibm) k ->
  wp test_data (fun _ s' => exists v' ic', at_rest s' v' ic' c /\ first_clear (v' ibm) k) s.
Proof.
  intros R Hk. pose proof R as [Hh Hi C N]. pose proof (test_inode v _ C Hk) as Hk0. pose proof Hk as (Hkn' & _). pose proof (after_ibm (Z.of_nat k) ltac:(lia)) as Hlo.
  unfold test_data. wp_step. eapply wp_create_at_rest; [done|done|]. intros s1 v1 ic1 H1 R1 [I1 O1]. cbv zeta. set (bytes := Z.of_nat <$> seq 0 100).
  assert (Hlb : length bytes = 100%nat) by done.
  destruct (created_apart v v1 _ _ C R1) as [A1 B1]. assert (Hmeta : 0 <= kblk < bmap) by lia.
  assert (Hst : file_st sb 0 kblk s1 v1 ic1).
  { split; [done| |by rewrite B1; apply C|by rewrite I1]. rewrite I1. apply no_blocks_ok; [done|apply new_dinode_ok; unfold INODE_TYPE_DATA, U16; lia]. }
  assert (Hf1 : free_blocks sb v1 = free_blocks sb v) by (unfold free_blocks; by rewrite B1). pose proof (co_free _ _ C) as Hfree.
  assert (H1b : blocks_left 0 100 = 1) by reflexivity.
  wp_step. eapply wp_mono; [|apply (wp_inode_write_data sb 0 kblk Hsb Hmeta s1 v1 ic1 0 100 bytes Hst)];
    [|lia|rewrite Hlb; lia|reflexivity|rewrite Z.add_0_l, H1b; lia].
  rewrite !Z.add_0_l, H1b. intros r s2 (_ & v2 & ic2 & S2 & [[[I2 O2] Rc2 _] G2] & Hs2 & F2 & Hby & _). rewrite I1 in G2, Hs2, Rc2. cbn [idisk inode_num] in G2, Hs2, Rc2.
  destruct (grown_apart v v1 (new_dinode INODE_TYPE_DATA) v2 (idisk (ic2 0%nat)) A1 eq_refl Rc2 (fs_bitmap _ _ _ _ _ _ S2) G2) as [A2 Q2].
  wp_step. eapply wp_mono; [|apply (wp_inode_read_data s2 v2 sb ic2 0 0 100 (replicate 100 0) (fs_held _ _ _ _ _ _ S2))];
    [|apply (fo_dinode _ _ _ (fs_file _ _ _ _ _ _ S2))|lia|lia|reflexivity|rewrite Hs2; reflexivity].
  intros [cnt got] s3 [H3 Hgot]. rewrite Hs2 in Hgot. change (Z.max 0 (Z.min 100 (Z.max (size (new_dinode INODE_TYPE_DATA)) 100 - 0))) with 100 in Hgot.
  rewrite (file_bytes_written _ _ (file_byte v1 (idisk (ic1 0%nat))) 0 100 bytes) in Hgot by (done || rewrite ?Hlb; lia). injection Hgot as -> ->.
  wp_step. rewrite decide_True by reflexivity. wp_step.
  assert (E2 : ic2 0%nat = mkInode (idisk (ic2 0%nat)) true (Z.of_nat k) 1) by (rewrite I2 at 1; by rewrite I1).
  assert (Hib : v2 ibm = v1 ibm) by (apply (gr_low _ _ _ _ _ _ G2); lia).
  eapply (wp_test_unlink s3 v2 ic2 0); [done|apply S2|apply S2|by rewrite Hib; apply R1|done|by rewrite Hib, (cr_bits _ _ _ R1), decide_True|by rewrite E2|by rewrite E2|].
  intros s4 v4 ic4 H4 D4 Z4 O4. destruct (discarded_apart v v2 v4 _ Hk0 A2 D4) as [A4 F4]; [done|].
  exists v4, ic4. split; [|by eapply (back_to_clear v v1 v2)]. eapply (rest_apart v v4 (S c) c); [done|done|done|lia|lia|done|].
  intros j. destruct (decide (j = 0%nat)) as [->|Hj]; [done|]. rewrite O4, O2, O1 by done. apply Hi.
Qed.

(** ** The root directory, open in slot 0 *)

Record opened s v ic (c : nat) : Prop := {
  op_hold : fs_hold s v ∅ sb ic;
  op_root : ic 0%nat = cached v sb ROOT_INODE;
  op_core : core v c;
}.

Lemma wp_open_root s v ic c Q : fs_hold s v ∅ sb ic -> (forall j, irefcnt (ic j) = 0) -> core v c ->
  (forall s' ic', opened s' v ic' c -> (forall j, j <> 0%nat -> ic' j = ic j) -> Q 0%nat s') -> wp (inode_get ROOT_INODE) Q s.
Proof.
  intros Hh Hi C HQ. pose proof (so_max _ Hsb). pose proof (so_nblocks _ Hsb). pose proof (after_ibm ROOT_INODE ltac:(done)). unfold U32 in *.
  eapply (wp_inode_get_fresh _ _ _ _ _ 0); [done|unfold N_INODE; lia|intros j _; by rewrite Hi|lia|done|unfold U32; lia|].
  intros s' ic' H' [I' O']. by apply (HQ s' ic').
Qed.
Lemma wp_close_root s v ic c Q : opened s v ic c ->
  (forall s' ic', fs_hold s' v ∅ sb ic' -> irefcnt (ic' 0%nat) = 0 -> (forall j, j <> 0%nat -> ic' j = ic j) -> Q tt s') -> wp (inode_put 0) Q s.
Proof.
  intros [Hh Hi C] HQ. eapply wp_inode_put_linked; [done|by rewrite Hi|rewrite Hi; apply C|]. intros s' ic' H' [I' O']. eapply HQ; [done|by rewrite I', Hi|done].
Qed.

Lemma opened_dir s v ic c : opened s v ic (S c) -> dir_st sb 0 (inode_block sb ROOT_INODE) s v ic.
Proof.
  intros [Hh Hi C]. pose proof (co_room _ _ C). change DENTRY_SIZE with 64 in *. split; rewrite ?Hi; [split; rewrite ?Hi; [done|apply C|apply C|done]|apply C|].
  change (idisk (cached v sb ROOT_INODE)) with (root v). change DENTRY_SIZE with 64. lia.
Qed.

(** An entry of one of the test's names was put or cleared. *)
Lemma core_renamed s v ic c s' v' ic' d tn : opened s v ic (S c) -> test_name tn -> dname d = pad_name tn ->
  file_st sb 0 (inode_block sb ROOT_INODE) s' v' ic' -> renamed sb 0 (inode_block sb ROOT_INODE) v ic v' ic' d ->
  size (idisk (ic' 0%nat)) <= size (root v) + DENTRY_SIZE ->
  opened s' v' ic' c /\ (forall j, j <> 0%nat -> ic' j = ic j) /\ idisk (ic' 0%nat) = root v' /\ v' ibm = v ibm.
Proof.
  intros [Hh Hi C] Ht Hd [H' F' B' M'] [N1 N2 [L1 [[I' O'] Rc Sy] G]] Hsz. destruct G as [[Ga Gl] G2 G3 G4 G5]. rewrite Hi in N1, I', Rc, Ga, Gl, G2, G3.
  change (idisk (cached v sb ROOT_INODE)) with (root v) in N1, Ga, Gl, G2, G3. cbn [cached inode_num set_idisk] in I', Rc.
  pose proof (after_ibm ROOT_INODE ltac:(done)) as Hlo.
  assert (Hroot : idisk (ic' 0%nat) = root v').
  { unfold synced in Sy. rewrite Hi, I' in Sy. cbn [idisk inode_num] in Sy. symmetry. by apply Sy. }
  assert (I2 : ic' 0%nat = cached v' sb ROOT_INODE) by (rewrite I', Hroot; done). rewrite Hroot in *.
  destruct C as [C1 C2 C3 C4 C5 C6 C7 C8 C9 C10 C11 C12]. assert (Hib : v' ibm = v ibm) by (apply G4; lia).
  split; [|done]. split; [done|done|]. split; try done.
  - by rewrite Hib.
  - by rewrite Hib.
  - lia.
  - congruence.
  - congruence.
  - change DENTRY_SIZE with 64 in *. lia.
  - intros j Hj. destruct (C10 j Hj) as (X1 & X2 & X3). split; [by apply G5|]. split; [|by rewrite G3].
    intros q Hq E. pose proof (so_bmap _ Hsb). destruct (G2 q Hq ltac:(lia)) as [E'|(j' & E' & Hj')]; [by apply (X2 q Hq); congruence|].
    assert (j' = j) as -> by lia. congruence.
  - intros i Hi0 Hne Hik Hlt. rewrite Rc by done. by apply C11.
  - intros name Hn. rewrite N1; [by apply C12|]. destruct d as [dn di]. cbn in Hd. subst dn. by apply Hn.
Qed.

Lemma wp_root_create s v ic c tn inum : let d := mkDentry (pad_name tn) inum in
  opened s v ic (S c) -> test_name tn -> 0 <= inum < U32 -> resolve v (root v) tn = None ->
  wp (dentry_create 0 inum tn) (fun _ s' => exists v' ic' t, opened s' v' ic' c /\ (forall j, j <> 0%nat -> ic' j = ic j) /\
    sole v' (root v') tn t d /\ (forall name, entry_named name d = false -> resolve v' (root v') name = resolve v (root v) name) /\
    (forall i, 0 <= i -> i <> ROOT_INODE -> inode_block sb i < bmap -> record_at sb v' i = record_at sb v i) /\ v' ibm = v ibm) s.
Proof.
  intros d Ho Ht Hinum Hnone. pose proof Ho as [_ Hi C]. pose proof (so_bmap _ Hsb). pose proof (after_ibm ROOT_INODE ltac:(done)).
  assert (Hgood : good_name tn) by (destruct Ht as [-> | ->]; discriminate).
  eapply wp_mono; [|apply (wp_create_entry sb 0 (inode_block sb ROOT_INODE) Hsb ltac:(lia) s v ic tn inum (opened_dir _ _ _ _ Ho) Hinum Hgood)];
    [|pose proof (co_free _ _ C); lia|by rewrite Hi].
  intros r s' (_ & v' & ic' & t & S' & R' & So & Hsz). rewrite Hi in Hsz. change (idisk (cached v sb ROOT_INODE)) with (root v) in Hsz.
  destruct (core_renamed s v ic c s' v' ic' d tn Ho Ht eq_refl S' R' Hsz) as (O' & J' & E' & B'). destruct R' as [N1 _ [_ [_ Rc _] _]]. rewrite E' in So, N1. rewrite Hi in N1, Rc.
  exists v', ic', t. split; [done|]. split; [done|]. split; [done|]. split; [done|]. split; [|done]. intros i _. apply Rc.
Qed.

Lemma wp_root_delete s v ic c tn t d : opened s v ic (S c) -> test_name tn -> dname d = pad_name tn -> sole v (root v) tn t d ->
  wp (dentry_delete 0 tn) (fun _ s' => exists v' ic', opened s' v' ic' c /\ (forall j, j <> 0%nat -> ic' j = ic j) /\
    resolve v' (root v') tn = None /\ (forall name, entry_named name d = false -> resolve v' (root v') name = resolve v (root v) name) /\ v' ibm = v ibm) s.
Proof.
  intros Ho Ht Hd So. pose proof Ho as [_ Hi C]. pose proof (so_bmap _ Hsb). pose proof (after_ibm ROOT_INODE ltac:(done)).
  eapply wp_mono; [|apply (wp_delete_entry sb 0 (inode_block sb ROOT_INODE) Hsb ltac:(lia) s v ic tn t d (opened_dir _ _ _ _ Ho))];
    [|pose proof (co_free _ _ C); lia|by rewrite Hi].
  intros r s' (_ & v' & ic' & S' & R' & Hno & Hsz). rewrite Hi in Hsz. change (idisk (cached v sb ROOT_INODE)) with (root v) in Hsz.
  destruct (core_renamed s v ic c s' v' ic' d tn Ho Ht Hd S' R') as (O' & J' & E' & B'); [change DENTRY_SIZE with 64; lia|]. destruct R' as [N1 _ _]. rewrite E' in Hno, N1. rewrite Hi in N1.
  by exists v', ic'.
Qed.

Lemma wp_root_search s v ic c name Q : opened s v ic c -> (forall s', opened s' v ic c -> Q (dinum <$> resolve v (root v) name) s') -> wp (dentry_search 0 name) Q s.
Proof.
  intros [Hh Hi C] HQ. eapply (wp_search_st sb 0 (inode_block sb ROOT_INODE) s v ic name).
  - split; rewrite ?Hi; [done|apply C|apply C|done].
  - rewrite Hi. pose proof (co_room _ _ C). change (idisk (cached v sb ROOT_INODE)) with (root v). change DENTRY_SIZE with 64 in *. lia.
  - intros s' [H' _ _ _]. rewrite Hi. by apply HQ.
Qed.

(** ** Tests 3 and 4: the root directory *)

Lemma wp_root_set s v ic Q : fs_hold s v ∅ sb ic -> bit (v ibm) 0 = true -> (forall s', fs_hold s' v ∅ sb ic -> Q true s') -> wp (is_inum_set ROOT_INODE) Q s.
Proof.
  intros Hh Hbit HQ. pose proof (so_max _ Hsb) as Hmax. pose proof (so_nblocks _ Hsb) as [Hnb _]. pose proof (after_ibm ROOT_INODE ltac:(done)) as Hlo.
  unfold is_inum_set. wp_step. eapply wp_get_sb; [done|]. wp_step. unfold usub32. apply wp_checked; [unfold U32 in *; lia|].
  wp_step. eapply wp_fs_read; [done|apply lookup_empty|rewrite map_size_empty; unfold N_BUFFER; lia|]. intros id s1 H1.
  wp_step. eapply wp_intro; [eapply load_byte_run; [exact H1|by rewrite lookup_insert_eq]|].
  wp_step. eapply wp_fs_release; [exact H1|by rewrite lookup_insert_eq|]. intros s2 H2. rewrite held_released in H2 by apply lookup_empty. wp_step.
  change (ROOT_INODE mod 8) with (Z.of_nat (0 mod 8)). change (Z.to_nat (ROOT_INODE / 8)) with (0 / 8)%nat. rewrite land_bit by (cbn; lia).
  fold (bit (v ibm) 0). rewrite Hbit. by apply HQ.
Qed.

Lemma wp_test_prepare_root s v ic c : at_rest s v ic c -> wp test_prepare_root (fun _ s' => exists ic', at_rest s' v ic' c) s.
Proof.
  intros [Hh Hi C N]. unfold test_prepare_root. wp_step. eapply wp_root_set; [done|apply C|]. intros s1 H1. cbn [negb].
  wp_step. eapply wp_open_root; [exact H1|done|exact C|]. intros s2 ic2 O2 J2. pose proof O2 as [H2 I2 _].
  wp_step. eapply wp_the_inode; [exact H2|]. rewrite I2. change (idisk (cached v sb ROOT_INODE)) with (root v). cbv zeta.
  rewrite (co_type _ _ C), (proj2 (Z.eqb_neq _ _) (co_nlink _ _ C)). change (INODE_TYPE_DIR =? 0) with false. cbn [orb]. do 6 wp_step.
  eapply wp_close_root; [exact O2|]. intros s3 ic3 H3 Z3 J3. exists ic3. split; [done| |done|done].
  intros j. destruct (decide (j = 0%nat)) as [->|Hj]; [done|]. by rewrite J3, J2.
Qed.

Lemma test_file_not_path i : entry_named TEST_PATH (mkDentry (pad_name TEST_FILE) i) = false.
Proof. reflexivity. Qed.
Lemma test_path_not_file i : entry_named TEST_FILE (mkDentry (pad_name TEST_PATH) i) = false.
Proof. reflexivity. Qed.

Lemma wp_test_dentry s v ic c : at_rest s v ic (S (S c)) -> wp (test_dentry TEST_FILE) (fun _ s' => exists v' ic', at_rest s' v' ic' c /\ v' ibm = v ibm) s.
Proof.
  intros [Hh Hi C N]. assert (Ht : test_name TEST_FILE) by (by left). assert (Hp : test_name TEST_PATH) by (by right).
  unfold test_dentry. wp_step. eapply wp_open_root; [exact Hh|done|exact C|]. intros s1 ic1 O1 J1.
  wp_step. eapply wp_mono; [|apply (wp_root_create s1 v ic1 (S c) TEST_FILE 100 O1 Ht); [unfold U32; lia|by apply N]].
  intros r s2 (v2 & ic2 & t & O2 & J2 & So & N2 & _ & B2).
  wp_step. eapply wp_root_search; [exact O2|]. intros s3 O3. rewrite (sole_resolve _ _ _ _ _ So). cbn [fmap option_fmap option_map dinum].
  wp_step. rewrite decide_True by done. wp_step.
  wp_step. eapply wp_mono; [|apply (wp_root_delete s3 v2 ic2 c TEST_FILE t (mkDentry (pad_name TEST_FILE) 100) O3 Ht eq_refl So)]. intros r' s4 (v4 & ic4 & O4 & J4 & No4 & N4 & B4).
  wp_step. eapply wp_root_search; [exact O4|]. intros s5 O5. rewrite No4. cbn [fmap option_fmap option_map]. wp_step. wp_step.
  eapply wp_close_root; [exact O5|]. intros s6 ic6 H6 Z6 J6. exists v4, ic6. split; [|congruence]. split; [done| |apply O4|].
  - intros j. destruct (decide (j = 0%nat)) as [->|Hj]; [done|]. by rewrite J6, J4, J2, J1.
  - intros tn [-> | ->]; [done|]. rewrite N4, N2 by apply test_file_not_path. by apply N.
Qed.

Lemma wp_test_path s v ic c : at_rest s v ic (S (S c)) -> first_clear (v ibm) k -> wp (test_path TEST_PATH) (fun _ s' => exists v' ic', at_rest s' v' ic' c) s.
Proof.
  intros [Hh Hi C N] Hk. assert (Ht : test_name TEST_FILE) by (by left). assert (Hp : test_name TEST_PATH) by (by right).
  pose proof (test_inode v _ C Hk) as Hk0. pose proof (so_max _ Hsb) as Hmax. pose proof (so_nblocks _ Hsb) as [Hnb _]. pose proof Hk as (HkN & _ & _).
  assert (Hkr : Z.of_nat k <> ROOT_INODE) by (unfold ROOT_INODE; lia). pose proof (after_ibm (Z.of_nat k) ltac:(lia)) as Hlo. pose proof (after_ibm ROOT_INODE ltac:(done)) as Hlo0.
  unfold test_path. wp_step. eapply wp_open_root; [exact Hh|done|exact C|]. intros s1 ic1 O1 J1. pose proof O1 as [H1 I1 _].
  wp_step. eapply (wp_inode_create s1 v ic1 1); [exact H1|apply C|done|unfold INODE_TYPE_DATA, U16; lia|unfold N_INODE; lia| | | |].
  { intros j Hj. assert (j = 0%nat) as -> by lia. by rewrite I1. }
  { by rewrite J1. }
  { intros j _. destruct (decide (j = 0%nat)) as [->|Hj]; [right; rewrite I1; done|left; by rewrite J1]. }
  intros s2 v2 ic2 H2 R2 [I2 J2]. destruct (created_apart v v2 _ _ C R2) as [A2 B2].
  assert (Hf2 : free_blocks sb v2 = free_blocks sb v) by (unfold free_blocks; by rewrite B2).
  destruct (core_apart v v2 (S (S c)) (S (S c)) Hk0 C A2 ltac:(lia)) as [C2 N2]; [rewrite Hf2; apply C|].
  assert (Hroot2 : cached v2 sb ROOT_INODE = cached v sb ROOT_INODE).
  { unfold cached. do 2 f_equal. apply (cr_others _ _ _ R2); [done|congruence|done]. }
  assert (O2 : opened s2 v2 ic2 (S (S c))) by (split; [done|by rewrite J2, I1, Hroot2|done]).
  wp_step. eapply wp_the_inode; [exact H2|]. rewrite I2. cbn [inode_num].
  wp_step. eapply wp_mono; [|apply (wp_root_create s2 v2 ic2 (S c) TEST_PATH (Z.of_nat k) O2 Hp); [|by rewrite N2; apply N]].
  2:{ unfold U32 in *. assert (HNB : Z.of_nat NBITS = 32768) by (vm_compute; reflexivity). lia. }
  set (d := mkDentry (pad_name TEST_PATH) (Z.of_nat k)). intros r s3 (v3 & ic3 & t & O3 & J3 & So & N3 & Rc3 & _). pose proof (op_core _ _ _ _ O3) as C3.
  wp_step. eapply wp_close_root; [exact O3|]. intros s4 ic4 H4 Z4 J4.
  assert (I4 : ic4 1%nat = mkInode (new_dinode INODE_TYPE_DATA) true (Z.of_nat k) 1) by (by rewrite J4, J3).
  wp_step. eapply wp_inode_put_linked; [exact H4|by rewrite I4|by rewrite I4|]. rewrite I4. intros s5 ic5 H5 [I5 J5].
  assert (Idle5 : forall j, irefcnt (ic5 j) = 0).
  { intros j. destruct (decide (j = 1%nat)) as [->|Hj]; [by rewrite I5|]. rewrite J5 by done. destruct (decide (j = 0%nat)) as [->|Hj0]; [done|]. by rewrite J4, J3, J2, J1. }
  wp_step. pose proof (co_room _ _ C3) as Hroom. pose proof (fo_dinode _ _ _ (co_file _ _ C3)) as Hdi. change DENTRY_SIZE with 64 in Hroom.
  eapply (wp_path_root_entry s5 v3 sb ic5 (SLASH :: TEST_PATH) TEST_PATH (Z.of_nat k) d); [exact H5|done|done|reflexivity|unfold U32 in *; lia|unfold U32 in *; lia
    |apply Hdi|apply C3|apply C3|apply Hdi|change (size (root v3) + Z.of_nat BLOCK_SIZE < U32); lia|exact (sole_resolve _ _ _ _ _ So)|done|done|].
  intros s6 ic6 H6 I6 J6. assert (Hnl : idisk (ic6 1%nat) = new_dinode INODE_TYPE_DATA).
  { rewrite I6. unfold cached. cbn [idisk]. fold (record_at sb v3 (Z.of_nat k)). rewrite Rc3 by (done || lia). apply R2. }
  wp_step. eapply wp_inode_put_linked; [exact H6|by rewrite I6|by rewrite Hnl|]. rewrite I6. intros s7 ic7 H7 [I7 J7].
  assert (Idle7 : forall j, irefcnt (ic7 j) = 0).
  { intros j. destruct (decide (j = 1%nat)) as [->|Hj]; [by rewrite I7|]. rewrite J7 by done. by apply J6. }
  wp_step. eapply wp_open_root; [exact H7|done|exact C3|]. intros s8 ic8 O8 J8.
  wp_step. eapply wp_mono; [|apply (wp_root_delete s8 v3 ic8 c TEST_PATH t d O8 Hp eq_refl So)]. intros r' s9 (v9 & ic9 & O9 & J9 & No9 & N9 & _).
  eapply wp_close_root; [exact O9|]. intros s10 ic10 H10 Z10 J10. exists v9, ic10. split; [done| |apply O9|].
  - intros j. destruct (decide (j = 0%nat)) as [->|Hj]; [done|]. by rewrite J10, J9, J8.
  - intros tn [-> | ->]; [|done]. rewrite N9, N3, N2 by apply test_path_not_file. by apply N.
Qed.

(** ** The whole test *)

Lemma wp_fs_test s v ic : at_rest s v ic 5 -> first_clear (v ibm) k -> wp fs_test (fun _ s' => exists v' ic', at_rest s' v' ic' 0) s.
Proof.
  intros R Hk. unfold fs_test. wp_step. eapply wp_mono; [|by apply (wp_test_alloc s v ic 5)]. intros [] s1 (v1 & ic1 & R1 & K1).
  wp_step. eapply wp_mono; [|by apply (wp_test_data s1 v1 ic1 4)]. intros [] s2 (v2 & ic2 & R2 & K2).
  wp_step. eapply wp_mono; [|by apply (wp_test_prepare_root s2 v2 ic2 4)]. intros [] s3 (ic3 & R3).
  wp_step. eapply wp_mono; [|by apply (wp_test_dentry s3 v2 ic3 2)]. intros [] s4 (v4 & ic4 & R4 & B4).
  eapply (wp_test_path s4 v4 ic4 0); [done|by rewrite B4].
Qed.
End selftest.
