(* ===== verification/Mkfs.v ===== *)
(** * The disk image ([mkfs] of [xtask/src/main.rs])

    The host program that writes [disk.img]: an empty file system, or, with
    [GLENDA_RICH_MKFS] set, one with a root directory, two text files and the
    program [hello]. The theorems boot the kernel's file system from the image,
    self-test included, and read it with the kernel's own routines. Errors of the host's files are not modelled. *)
From stdpp Require Import functions.
From Stdlib Require Import Ascii String.
From S2P Require Import Prelude Lru BufferCache FsState Bitmap InodeLayer FileWrite Directory DirWrite FsTest.

(** ** The image file *)

(** Contents, length and position of an open [File]. *)
Record image := mkImage { i_bytes : Z -> Z; i_len : Z; i_pos : Z }.
Definition File_create : image := mkImage (fun _ => 0) 0 0.
Definition set_len (n : Z) : M image unit := modify (fun f => mkImage (i_bytes f) n (i_pos f)).
Definition seek (n : Z) : M image unit := modify (fun f => mkImage (i_bytes f) (i_len f) n).
Definition put_list (m : Z -> Z) (a : Z) (bs : list Z) : Z -> Z :=
  fun x => if (a <=? x) && (x <? a + Z.of_nat (length bs)) then nth (Z.to_nat (x - a)) bs 0 else m x.
Definition write_all (bs : list Z) : M image unit :=
  modify (fun f => let top := i_pos f + Z.of_nat (length bs) in
    mkImage (put_list (i_bytes f) (i_pos f) bs) (Z.max (i_len f) top) top).

(** [?] *)
Notation "m ;;? k" := (r ← m; match r with Ok _ => k | Err e => mret (Err e) end)
  (at level 100, k at level 200, right associativity) : stdpp_scope.

(** ** Layout *)

Definition N_INODES : Z := 200.
Definition N_DATA_BLOCKS : Z := 1000.
Definition MKFS_IPB : Z := Z.of_nat BLOCK_SIZE / 64.
Definition sb_blocks : Z := 1.
Definition inode_bitmap_blocks : Z := 1.
Definition inode_blocks : Z := (N_INODES + MKFS_IPB - 1) / MKFS_IPB.
Definition data_bitmap_blocks : Z := 1.
Definition total_blocks : Z := sb_blocks + inode_bitmap_blocks + inode_blocks + data_bitmap_blocks + N_DATA_BLOCKS.
Definition inode_region_start : Z := sb_blocks + inode_bitmap_blocks.
Definition data_bitmap_start : Z := inode_region_start + inode_blocks.
Definition data_start : Z := data_bitmap_start + 1.
Definition hello_start_block : Z := data_bitmap_start + 4.
Definition root_dir_block : Z := wrap32 (data_start + 0).
Definition upper_block : Z := wrap32 (data_start + 1).
Definition lower_block : Z := wrap32 (data_start + 2).

(** [buf[base..base + bs.len()].copy_from_slice(&bs)]: every range [mkfs] copies
    to lies in its block. *)
Definition copy_at (base : Z) (bs : list Z) (buf : block) : block := splice (Z.to_nat base) bs buf.

Definition sb_buf : block :=
  copy_at 20 (le_bytes 4 (wrap32 data_bitmap_start)) (copy_at 16 (le_bytes 4 (wrap32 inode_region_start))
  (copy_at 12 (le_bytes 4 (wrap32 N_INODES)) (copy_at 8 (le_bytes 4 (wrap32 N_DATA_BLOCKS))
  (copy_at 4 (le_bytes 4 (wrap32 total_blocks)) (copy_at 0 (le_bytes 4 MAGIC) zero_block))))).

(** [GLENDA_RICH_MKFS], lower-cased *)
Definition to_ascii_lowercase (s : string) : string :=
  string_of_list_ascii (map (fun c => let n := nat_of_ascii c in
    if (65 <=? n)%nat && (n <=? 90)%nat then ascii_of_nat (n + 32) else c) (list_ascii_of_string s)).
Definition rich (v : option string) : bool :=
  match v with
  | Some v => existsb (String.eqb (to_ascii_lowercase v)) ["1"; "true"; "yes"; "on"]%string
  | None => false
  end.

(** ** Blocks *)

(** [write_block] *)
Definition write_block (blk : Z) (data : block) : M image (result unit string) :=
  if negb (length data =? BLOCK_SIZE)%nat then mret (Err "block size mismatch"%string)
  else seek (blk * Z.of_nat BLOCK_SIZE);; write_all data;; mret (Ok tt).

(** [map[idx / 8] |= 1 << (idx % 8)] for each of the first [n] bits *)
Definition mark_bits {S} (n : Z) : M S block :=
  r ← for_each (B := Empty_set) (range 0 n) (fun m bit_idx =>
    let byte_idx := Z.to_nat (bit_idx / 8) in
    byte ← index m (bit_idx / 8);
    mret (inl (<[byte_idx := Z.lor byte (Z.shiftl 1 (bit_idx mod 8))]> m))) zero_block;
  match r with inl m => mret m | inr e => match (e : Empty_set) with end end.

(** [put_inode] *)
Definition put_inode (buf : block) (slot typ major minor nlink size : Z) (indices : list Z) : block :=
  let base := slot * 64 in
  let buf := copy_at base (le_bytes 2 typ) buf in
  let buf := copy_at (base + 2) (le_bytes 2 major) buf in
  let buf := copy_at (base + 4) (le_bytes 2 minor) buf in
  let buf := copy_at (base + 6) (le_bytes 2 nlink) buf in
  let buf := copy_at (base + 8) (le_bytes 4 size) buf in
  foldl (fun buf i =>
    let off := base + 12 + Z.of_nat i * 4 in
    let val := if (i <? length indices)%nat then nth i indices 0 else 0 in
    copy_at off (le_bytes 4 val) buf) buf (seq 0 INODE_INDEX_3).

(** [put_dentry] *)
Definition put_dentry (buf : block) (slot : Z) (name : list Z) (inum : Z) : block :=
  let base := slot * 64 in
  let copy_len := Nat.min (length name) MAXLEN_FILENAME in
  let buf := copy_at base (take copy_len name) buf in
  copy_at (base + Z.of_nat MAXLEN_FILENAME) (le_bytes 4 inum) buf.

Definition ascii_bytes (s : string) : list Z := map (fun c => Z.of_nat (nat_of_ascii c)) (list_ascii_of_string s).

Definition dir_block : block :=
  let b := put_dentry zero_block 0 (ascii_bytes ".") ROOT_INODE in
  let b := put_dentry b 1 (ascii_bytes "..") ROOT_INODE in
  let b := put_dentry b 2 (ascii_bytes "ABCD.txt") 1 in
  let b := put_dentry b 3 (ascii_bytes "abcd.txt") 2 in
  put_dentry b 4 (ascii_bytes "hello") 3.

(** [upper] and [lower] *)
Definition letters (first : Z) : block := (fun i => first + Z.of_nat (i mod 26)) <$> seq 0 BLOCK_SIZE.

(** ** The program on the image *)

Section rich.
Variable elf_data : list Z.

Definition elf_len : Z := Z.of_nat (length elf_data).
Definition elf_blocks : Z := (elf_len + Z.of_nat BLOCK_SIZE - 1) / Z.of_nat BLOCK_SIZE.
(** [hello_indirect_block] and [total_data_blocks] *)
Definition hello_indirect_block : Z := if 10 <? elf_blocks then data_bitmap_start + (4 + elf_blocks) else 0.
Definition total_data_blocks : Z := 4 + elf_blocks + (if 10 <? elf_blocks then 1 else 0).

Definition hello_indices : list Z :=
  ((fun i => wrap32 (hello_start_block + i)) <$> range 0 (Z.min elf_blocks 10)) ++
  (if negb (hello_indirect_block =? 0) then [wrap32 hello_indirect_block] else []).

Definition inode_block0 : block :=
  let b := put_inode zero_block 0 1 0 0 1 (5 * 64) [root_dir_block] in
  let b := put_inode b 1 2 0 0 1 (Z.of_nat BLOCK_SIZE) [upper_block] in
  let b := put_inode b 2 2 0 0 1 (Z.of_nat BLOCK_SIZE) [lower_block] in
  put_inode b 3 2 0 0 1 (wrap32 elf_len) hello_indices.

(** One block of the program *)
Definition elf_block (i : Z) : block :=
  let start := i * Z.of_nat BLOCK_SIZE in
  let end_ := Z.min (start + Z.of_nat BLOCK_SIZE) elf_len in
  copy_at 0 (slice (Z.to_nat start) (Z.to_nat (end_ - start)) elf_data) zero_block.
Definition write_elf_block (i : Z) : M image (result unit string) :=
  if i <? 10 then write_block (hello_start_block + i) (elf_block i)
  else
    let idx_in_indirect := i - 10 in
    let indirect_off := hello_indirect_block * Z.of_nat BLOCK_SIZE + idx_in_indirect * 4 in
    let data_blk := hello_start_block + i in
    write_block data_blk (elf_block i);;?
    seek indirect_off;;
    write_all (le_bytes 4 (wrap32 data_blk));;
    mret (Ok tt).
Definition write_elf : M image (result unit string) :=
  r ← for_each (range 0 elf_blocks) (fun _ i =>
    r ← write_elf_block i;
    match r with Ok _ => mret (inl tt) | Err e => mret (inr e) end) tt;
  mret (match r with inl _ => Ok tt | inr e => Err e end).

Definition write_rich : M image (result unit string) :=
  ibmap ← mark_bits 4;
  write_block 1 ibmap;;?
  dbmap ← mark_bits total_data_blocks;
  write_block data_bitmap_start dbmap;;?
  write_block inode_region_start inode_block0;;?
  write_block root_dir_block dir_block;;?
  write_block upper_block (letters 65);;?
  write_block lower_block (letters 97);;?
  write_elf.

(** [mkfs], on the file [File::create] answers *)
Definition mkfs (env : option string) : M image (result unit string) :=
  set_len (total_blocks * Z.of_nat BLOCK_SIZE);;
  seek 0;;
  write_all sb_buf;;
  if negb (rich env) then mret (Ok tt) else write_rich.
End rich.

(** ** The image in blocks *)

Local Abbreviation BS := (Z.of_nat BLOCK_SIZE).

(** What a disk with this image answers for block [b]. *)
Definition image_block (f : image) (b : Z) : block := i_bytes f <$> seqZ (b * BS) BS.

Lemma length_image_block f b : length (image_block f b) = BLOCK_SIZE.
Proof. unfold image_block. by rewrite length_fmap, length_seqZ, Nat2Z.id. Qed.

Lemma image_block_lookup f b (k : nat) : (k < BLOCK_SIZE)%nat -> image_block f b !! k = Some (i_bytes f (b * BS + Z.of_nat k)).
Proof. intros Hk. unfold image_block. rewrite list_lookup_fmap, lookup_seqZ_lt by lia. done. Qed.

(** A write inside block [b] is a splice of it and leaves the others. *)
Lemma image_block_write f b off bs l p b' : (off + length bs <= BLOCK_SIZE)%nat ->
  image_block (mkImage (put_list (i_bytes f) (b * BS + Z.of_nat off) bs) l p) b' =
  if decide (b' = b) then splice off bs (image_block f b) else image_block f b'.
Proof.
  intros Hl. apply list_eq. intros k. destruct (decide (k < BLOCK_SIZE)%nat) as [Hk|Hk].
  - rewrite image_block_lookup by done. cbn [i_bytes]. unfold put_list. destruct (decide (b' = b)) as [->|Hb].
    + rewrite splice_lookup by (rewrite length_image_block; done). destruct (decide _) as [Hin|Hout].
      * rewrite (proj2 (Z.leb_le _ _)), (proj2 (Z.ltb_lt _ _)) by lia. cbn [andb].
        replace (Z.to_nat _) with (k - off)%nat by lia. destruct (lookup_lt_is_Some_2 bs (k - off)) as [x Hx]; [lia|].
        by rewrite Hx, nth_lookup, Hx.
      * rewrite image_block_lookup by done. destruct (Z.leb_spec (b * BS + Z.of_nat off) (b * BS + Z.of_nat k)); [|done].
        by rewrite (proj2 (Z.ltb_ge _ _)) by lia.
    + rewrite image_block_lookup by done. destruct (Z.leb_spec (b * BS + Z.of_nat off) (b' * BS + Z.of_nat k)); [|done].
      rewrite (proj2 (Z.ltb_ge _ _)); [done|]. unfold BLOCK_SIZE in *. nia.
  - rewrite (lookup_ge_None_2 (image_block _ _)) by (rewrite length_image_block; lia). symmetry. apply lookup_ge_None_2.
    case_decide; [rewrite length_splice by (rewrite length_image_block; done)|]; rewrite length_image_block; lia.
Qed.

Lemma splice_all bs d : length bs = length d -> splice 0 bs d = bs.
Proof. intros H. unfold splice. rewrite take_0, drop_ge by lia. by rewrite app_nil_r. Qed.

(** [write_block] sets one block and keeps the length of the image. *)
Definition blocks_are (f : image) (v : Z -> block) : Prop := forall b, image_block f b = v b.

Lemma wp_write_block f v blk data Q : blocks_are f v -> length data = BLOCK_SIZE -> (blk + 1) * BS <= i_len f ->
  (forall f', blocks_are f' (<[blk := data]> v) -> i_len f' = i_len f -> Q (Ok tt) f') -> wp (write_block blk data) Q f.
Proof.
  intros Hv Hd Hlen HQ. unfold write_block. rewrite Hd, Nat.eqb_refl. cbn [negb].
  unfold seek, write_all. wp_steps. apply HQ; cbn [i_len i_pos].
  - intros b. pose proof (image_block_write f blk 0 data (Z.max (i_len f) (blk * BS + Z.of_nat (length data))) (blk * BS + Z.of_nat (length data)) b) as Hw.
    rewrite Z.add_0_r in Hw. cbn [i_bytes i_len i_pos]. rewrite Hw by lia.
    destruct (decide (b = blk)) as [->|Hb].
    + rewrite fn_lookup_insert. apply splice_all. by rewrite length_image_block.
    + by rewrite fn_lookup_insert_ne.
  - rewrite Hd. lia.
Qed.

(** ** Records in a block *)

Lemma splice_splice off a b d : (off + length a + length b <= length d)%nat ->
  splice (off + length a) b (splice off a d) = splice off (a ++ b) d.
Proof.
  intros Hl. apply list_eq. intros k. rewrite !splice_lookup; rewrite ?length_splice, ?length_app; try lia.
  destruct (decide (off + length a <= k < _)%nat) as [H1|H1].
  - rewrite decide_True by lia. rewrite lookup_app_r by lia. f_equal. lia.
  - destruct (decide (off <= k < off + length a)%nat) as [H2|H2].
    + rewrite decide_True by lia. by rewrite lookup_app_l by lia.
    + by rewrite decide_False by lia.
Qed.

(** The indices of an inode that [put_inode] pads with zeros. *)
Definition padded (indices : list Z) : list Z :=
  (fun i => if (i <? length indices)%nat then nth i indices 0 else 0) <$> seq 0 INODE_INDEX_3.
Lemma length_padded l : length (padded l) = INODE_INDEX_3.
Proof. unfold padded. by rewrite length_fmap, length_seq. Qed.

Lemma put_indices (base : nat) A (val : nat -> Z) n buf : (base + length A + 4 * n <= length buf)%nat ->
  foldl (fun buf i => copy_at (Z.of_nat (base + length A) + Z.of_nat i * 4) (le_bytes 4 (val i)) buf) (splice base A buf) (seq 0 n) =
  splice base (A ++ flat_map (le_bytes 4) (val <$> seq 0 n)) buf.
Proof.
  induction n as [|n IH]; intros Hl.
  - simpl. by rewrite app_nil_r.
  - rewrite seq_S, foldl_snoc, IH by lia. rewrite fmap_app, flat_map_app. cbn [flat_map fmap list_fmap]. rewrite app_nil_r.
    assert (Hlen : length (flat_map (le_bytes 4) (val <$> seq 0 n)) = (4 * n)%nat).
    { clear. induction n as [|n IH]; [done|]. rewrite seq_S, fmap_app, flat_map_app, length_app, IH. simpl. lia. }
    unfold copy_at. cbn [Nat.add]. pose proof (splice_splice base (A ++ flat_map (le_bytes 4) (val <$> seq 0 n)) (le_bytes 4 (val n)) buf) as Hs.
    rewrite length_app, Hlen, length_le_bytes in Hs. rewrite app_assoc, <-Hs by lia. f_equal. lia.
Qed.

Lemma put_inode_spec buf slot typ major minor nlink size indices : 0 <= slot < 64 -> length buf = BLOCK_SIZE ->
  put_inode buf slot typ major minor nlink size indices =
  splice (Z.to_nat (slot * 64)) (encode_dinode (mkDinode typ major minor nlink size (padded indices))) buf.
Proof.
  intros Hs Hb. unfold put_inode. cbv zeta. set (base := Z.to_nat (slot * 64)).
  assert (HB : slot * 64 = Z.of_nat base) by lia. rewrite HB. clearbody base. assert (base + 64 <= BLOCK_SIZE)%nat by (unfold BLOCK_SIZE; lia).
  unfold encode_dinode, padded; cbn [type_ FsState.major FsState.minor FsState.nlink FsState.size index_].
  pose proof (put_indices base (le_bytes 2 typ ++ le_bytes 2 major ++ le_bytes 2 minor ++ le_bytes 2 nlink ++ le_bytes 4 size)
    (fun i => if (i <? length indices)%nat then nth i indices 0 else 0) INODE_INDEX_3 buf) as HP.
  rewrite !length_app, !length_le_bytes in HP. rewrite <-!app_assoc in HP. rewrite <-HP by (unfold INODE_INDEX_3; lia). clear HP.
  replace (Z.of_nat (base + (2 + (2 + (2 + (2 + 4)))))) with (Z.of_nat base + 12) by lia. f_equal.
  unfold copy_at. rewrite Nat2Z.id. replace (Z.to_nat (Z.of_nat base + 2)) with (base + 2)%nat by lia.
  replace (Z.to_nat (Z.of_nat base + 4)) with (base + 4)%nat by lia. replace (Z.to_nat (Z.of_nat base + 6)) with (base + 6)%nat by lia.
  replace (Z.to_nat (Z.of_nat base + 8)) with (base + 8)%nat by lia.
  pose proof (splice_splice base (le_bytes 2 typ) (le_bytes 2 major) buf) as H1. rewrite !length_le_bytes in H1. rewrite H1 by lia.
  pose proof (splice_splice base (le_bytes 2 typ ++ le_bytes 2 major) (le_bytes 2 minor) buf) as H2. rewrite !length_app, !length_le_bytes in H2.
  cbn [Nat.add] in H2. rewrite H2 by lia.
  pose proof (splice_splice base ((le_bytes 2 typ ++ le_bytes 2 major) ++ le_bytes 2 minor) (le_bytes 2 nlink) buf) as H3.
  rewrite !length_app, !length_le_bytes in H3. cbn [Nat.add] in H3. rewrite H3 by lia.
  pose proof (splice_splice base (((le_bytes 2 typ ++ le_bytes 2 major) ++ le_bytes 2 minor) ++ le_bytes 2 nlink) (le_bytes 4 size) buf) as H4.
  rewrite !length_app, !length_le_bytes in H4. cbn [Nat.add] in H4. rewrite H4 by lia. by rewrite <-!app_assoc.
Qed.

(** ** Bitmaps *)

Lemma range_prefix n done x rest : range 0 n = done ++ x :: rest -> x = Z.of_nat (length done) /\ x < n.
Proof.
  intros H. unfold range in H. rewrite Z.sub_0_r in H.
  assert (Hl : seqZ 0 n !! length done = Some x) by (rewrite H; by apply list_lookup_middle).
  apply lookup_seqZ in Hl as [-> ?]. lia.
Qed.

Lemma wp_mark_bits {S} n (s : S) : 0 <= n <= Z.of_nat NBITS ->
  wp (mark_bits n) (fun m s' => s' = s /\ is_block m /\ forall k, bit m k = (Z.of_nat k <? n)) s.
Proof.
  intros Hn. unfold mark_bits. wp_step.
  eapply (wp_for_each (fun done m s' => s' = s /\ is_block m /\ forall k, bit m k = (Z.of_nat k <? Z.of_nat (length done)))).
  - split; [done|]. split; [apply is_block_zero|]. intros k. rewrite bit_zero_block. symmetry. apply Z.ltb_ge. simpl. lia.
  - intros done x rest m s' Hx (-> & Hm & Hb). apply range_prefix in Hx as [-> Hx].
    assert (Hk : (length done < NBITS)%nat) by lia. remember (length done) as k eqn:Hkd.
    destruct (bit_index k Hk) as (H1 & H2 & _). wp_step.
    assert (H8 : Z.of_nat k / 8 = Z.of_nat (k / 8)) by (by rewrite Nat2Z.inj_div).
    assert (Hm8 : Z.of_nat k mod 8 = Z.of_nat (k mod 8)) by (by rewrite Nat2Z.inj_mod).
    destruct (lookup_lt_is_Some_2 m (k / 8)) as [y Hy]; [destruct Hm; lia|].
    eapply wp_index; [rewrite H8; lia|by rewrite H8, Nat2Z.id|]. wp_step.
    rewrite H8, Hm8, Nat2Z.id. assert (Hyb : y = byte_at m (k / 8)) by (unfold byte_at; by rewrite nth_lookup, Hy).
    rewrite Hyb. fold (set_bit k m). split; [done|]. split; [by apply is_block_set_bit|]. intros k'.
    rewrite bit_set_bit, Hb, length_app, <-Hkd by done. simpl. case_decide; [subst; symmetry; apply Z.ltb_lt; lia|].
    destruct (Z.ltb_spec (Z.of_nat k') (Z.of_nat k)); symmetry; [apply Z.ltb_lt; lia|apply Z.ltb_ge; lia].
  - intros m s' (-> & Hm & Hb). wp_step. split; [done|]. split; [done|]. intros k. rewrite Hb. unfold range. rewrite length_seqZ. 
    destruct (Z.ltb_spec (Z.of_nat k) n); [apply Z.ltb_lt|apply Z.ltb_ge]; lia.
Qed.

(** ** The program's blocks *)

Section elf.
Variable elf : list Z.
Local Abbreviation n := (elf_blocks elf).

Lemma elf_blocks_spec : 0 <= n /\ n * BS < elf_len elf + BS /\ elf_len elf <= n * BS.
Proof.
  unfold elf_blocks. assert (0 <= elf_len elf) by (unfold elf_len; lia). change BS with 4096.
  pose proof (Z.div_mod (elf_len elf + 4096 - 1) 4096). pose proof (Z.mod_pos_bound (elf_len elf + 4096 - 1) 4096). lia.
Qed.

Lemma length_elf_block i : 0 <= i < n -> length (elf_block elf i) = BLOCK_SIZE.
Proof.
  intros Hi. pose proof elf_blocks_spec as (_ & Hn & _). unfold elf_block, copy_at. rewrite length_splice; [apply length_replicate|].
  unfold slice. rewrite length_take, length_drop. change (length zero_block) with BLOCK_SIZE. simpl. unfold elf_len. lia.
Qed.

(** Byte [k] of the program is in block [k / BS]. *)
Lemma elf_block_byte (k : nat) x : elf !! k = Some x -> byte_at (elf_block elf (Z.of_nat k / BS)) (Z.to_nat (Z.of_nat k mod BS)) = x.
Proof.
  intros Hx. pose proof (lookup_lt_Some _ _ _ Hx) as Hk. unfold byte_at, elf_block, copy_at. rewrite nth_lookup.
  change (Z.of_nat BLOCK_SIZE) with 4096 in *. pose proof (Z.div_mod (Z.of_nat k) 4096). pose proof (Z.mod_pos_bound (Z.of_nat k) 4096).
  assert (0 <= Z.of_nat k / 4096) by (apply Z.div_pos; lia). unfold elf_len.
  set (q := Z.of_nat k / 4096) in *. set (r := Z.of_nat k mod 4096) in *.
  rewrite splice_lookup; unfold slice; rewrite length_take, length_drop.
  - rewrite decide_True by lia. rewrite lookup_take_lt by lia. rewrite lookup_drop.
    replace (Z.to_nat (q * 4096) + (Z.to_nat r - Z.to_nat 0))%nat with k by lia. by rewrite Hx.
  - change (length zero_block) with BLOCK_SIZE. unfold BLOCK_SIZE. lia.
Qed.

(** The image while the program is written: [k] blocks are there. *)
Record elf_written (k : Z) (v0 v : Z -> block) : Prop := {
  ew_data : forall i, 0 <= i < k -> v (10 + i) = elf_block elf i;
  ew_ind : forall j, 0 <= j < k - 10 -> u32_at (v (10 + n)) (Z.to_nat j) = 20 + j;
  ew_low : forall b, b < 10 -> v b = v0 b;
  ew_len : forall b, length (v b) = BLOCK_SIZE;
}.

Lemma elf_written_mono k k' v0 v : elf_written k v0 v -> k' <= k -> elf_written k' v0 v.
Proof. intros [H1 H2 H3 H4] Hk. split; [|..|done|done]; intros; [apply H1|apply H2]; lia. Qed.

(** One round of the loop. *)
Lemma wp_write_elf_block f v0 v k Q : blocks_are f v -> elf_written k v0 v -> 0 <= k < n -> n <= 996 -> i_len f = total_blocks * BS ->
  (forall f' v', blocks_are f' v' -> elf_written (k + 1) v0 v' -> i_len f' = total_blocks * BS -> Q (Ok tt) f') ->
  wp (write_elf_block elf k) Q f.
Proof.
  intros Hf Hv Hk Hn Hlen HQ. destruct Hv as [V1 V2 V3 V4]. change total_blocks with 1007 in *. change BS with 4096 in *.
  assert (Hd : forall i, 0 <= i < k + 1 -> (<[10 + k := elf_block elf k]> v) (10 + i) = elf_block elf i).
  { intros i Hi. destruct (Z.eq_dec i k) as [->|Hne]; [by rewrite fn_lookup_insert|]. rewrite fn_lookup_insert_ne by lia. apply V1. lia. }
  unfold write_elf_block. change hello_start_block with 10. destruct (Z.ltb_spec k 10) as [Hlow|Hhigh].
  - eapply wp_write_block; [done|by apply length_elf_block|change BS with 4096; lia|]. intros f1 Hf1 Hl1.
    eapply HQ; [exact Hf1| |by rewrite Hl1]. split; [exact Hd|lia|intros b Hb; rewrite fn_lookup_insert_ne by lia; by apply V3|].
    intros b. destruct (Z.eq_dec b (10 + k)) as [->|Hne]; [rewrite fn_lookup_insert; by apply length_elf_block|by rewrite fn_lookup_insert_ne].
  - wp_step. eapply wp_write_block; [done|by apply length_elf_block|change BS with 4096; lia|]. intros f1 Hf1 Hl1.
    unfold seek, write_all. wp_steps. cbn [i_bytes i_len i_pos].
    assert (Hind : hello_indirect_block elf = 10 + n).
    { unfold hello_indirect_block. rewrite (proj2 (Z.ltb_lt _ _)) by lia. change data_bitmap_start with 6. lia. }
    rewrite Hind. assert (Hw : wrap32 (10 + k) = 10 + k) by (apply Z.mod_small; unfold U32; lia). rewrite Hw, length_le_bytes.
    set (v1 := <[10 + k := elf_block elf k]> v) in *.
    assert (L1 : forall b, length (v1 b) = BLOCK_SIZE).
    { intros b. unfold v1. destruct (Z.eq_dec b (10 + k)) as [->|Hne]; [rewrite fn_lookup_insert; by apply length_elf_block|by rewrite fn_lookup_insert_ne]. }
    apply (HQ _ (<[10 + n := set_u32 (Z.to_nat (k - 10)) (10 + k) (v1 (10 + n))]> v1)).
    + intros b. pose proof (image_block_write f1 (10 + n) (4 * Z.to_nat (k - 10)) (le_bytes 4 (10 + k))
        (Z.max (i_len f1) ((10 + n) * 4096 + (k - 10) * 4 + Z.of_nat 4)) ((10 + n) * 4096 + (k - 10) * 4 + Z.of_nat 4) b) as Hwr.
      change (Z.of_nat BLOCK_SIZE) with 4096 in Hwr. replace (Z.of_nat (4 * Z.to_nat (k - 10))) with ((k - 10) * 4) in Hwr by lia.
      cbn [i_bytes i_len i_pos] in Hwr |- *. change BS with 4096. rewrite Hwr by (rewrite length_le_bytes; unfold BLOCK_SIZE; lia).
      destruct (decide (b = 10 + n)) as [->|Hb].
      * rewrite fn_lookup_insert, Hf1. done.
      * rewrite fn_lookup_insert_ne by done. apply Hf1.
    + split.
      * intros i Hi. rewrite fn_lookup_insert_ne by lia. by apply Hd.
      * intros j Hj. rewrite fn_lookup_insert. destruct (Z.eq_dec j (k - 10)) as [->|Hne].
        -- rewrite u32_at_set by (rewrite ?L1; unfold BLOCK_SIZE, U32; lia). lia.
        -- rewrite u32_at_set_ne by (rewrite ?L1; unfold BLOCK_SIZE; lia). unfold v1. rewrite fn_lookup_insert_ne by lia. apply V2. lia.
      * intros b Hb. unfold v1. rewrite !fn_lookup_insert_ne by lia. by apply V3.
      * intros b. destruct (Z.eq_dec b (10 + n)) as [->|Hne]; [|by rewrite fn_lookup_insert_ne].
        rewrite fn_lookup_insert. unfold set_u32. rewrite length_splice; rewrite L1; [done|]. rewrite length_le_bytes. unfold BLOCK_SIZE. lia.
    + cbn [i_len]. rewrite Hl1, Hlen. change BS with 4096. rewrite Z.max_l; lia.
Qed.

Lemma wp_write_elf f v0 Q : blocks_are f v0 -> (forall b, length (v0 b) = BLOCK_SIZE) -> n <= 996 -> i_len f = total_blocks * BS ->
  (forall f' v', blocks_are f' v' -> elf_written n v0 v' -> i_len f' = total_blocks * BS -> Q (Ok tt) f') -> wp (write_elf elf) Q f.
Proof.
  intros Hf Hl Hn Hlen HQ. unfold write_elf. wp_step. pose proof elf_blocks_spec as (H0 & _ & _).
  eapply (wp_for_each (fun done _ f' => exists v', blocks_are f' v' /\ elf_written (Z.of_nat (length done)) v0 v' /\ i_len f' = total_blocks * BS)).
  - exists v0. split; [done|]. split; [|done]. split; simpl; [lia|lia|done|done].
  - intros done x rest [] f' Hx (v' & Hf' & Hv' & Hl'). apply range_prefix in Hx as [-> Hx]. wp_step.
    eapply wp_write_elf_block; [exact Hf'|exact Hv'|lia|done|done|]. intros f2 v2 Hf2 Hv2 Hl2. wp_step. exists v2.
    rewrite length_app, Nat2Z.inj_add. done.
  - intros [] f' (v' & Hf' & Hv' & Hl'). wp_step. eapply HQ; [exact Hf'| |done]. unfold range in Hv'. rewrite length_seqZ, Z.sub_0_r, Z2Nat.id in Hv' by done. done.
Qed.

(** ** The inodes *)

Definition hello_dinode : InodeDisk := mkDinode 2 0 0 1 (wrap32 (elf_len elf)) (padded (hello_indices elf)).

Lemma nth_padded l i : (i < INODE_INDEX_3)%nat -> nth i (padded l) 0 = if (i <? length l)%nat then nth i l 0 else 0.
Proof. intros Hi. rewrite nth_lookup. unfold padded. rewrite list_lookup_fmap, lookup_seq_lt by done. done. Qed.

Lemma hello_index (i : Z) : 0 <= i < Z.min n 10 -> nth (Z.to_nat i) (padded (hello_indices elf)) 0 = 10 + i.
Proof.
  intros Hi. rewrite nth_padded by (unfold INODE_INDEX_3; lia). unfold hello_indices, range.
  assert (Hl : length ((fun i => wrap32 (hello_start_block + i)) <$> seqZ 0 (Z.min n 10 - 0)) = Z.to_nat (Z.min n 10)).
  { rewrite length_fmap, length_seqZ. lia. }
  rewrite length_app, Hl. rewrite (proj2 (Nat.ltb_lt _ _)) by lia. rewrite app_nth1 by lia.
  rewrite nth_lookup, list_lookup_fmap, lookup_seqZ_lt by lia. cbn [fmap option_fmap option_map default from_option]. change hello_start_block with 10. rewrite Z.add_0_l, Z2Nat.id by lia. apply Z.mod_small. unfold U32. lia.
Qed.

Lemma hello_indirect : 10 < n -> n <= 996 -> nth INODE_INDEX_1 (padded (hello_indices elf)) 0 = 10 + n.
Proof.
  intros Hn Hmax. rewrite nth_padded by (unfold INODE_INDEX_1, INODE_INDEX_3; lia). unfold hello_indices, hello_indirect_block, range.
  rewrite (proj2 (Z.ltb_lt _ _)) by done. change data_bitmap_start with 6. rewrite (proj2 (Z.eqb_neq _ _)) by lia. cbn [negb].
  rewrite Z.min_r by lia. unfold wrap32. rewrite (Z.mod_small (6 + (4 + n))) by (unfold U32; lia). change (6 + (4 + n) = 10 + n). lia.
Qed.

Lemma hello_dinode_ok : dinode_ok hello_dinode.
Proof.
  assert (HU : forall x, 0 <= wrap32 x < U32) by (intros x; by apply Z.mod_pos_bound).
  split; cbn [type_ major minor nlink size index_ hello_dinode]; try (unfold U16; lia).
  - apply HU.
  - apply length_padded.
  - unfold padded. rewrite Forall_fmap. apply Forall_forall. intros i _. simpl. destruct (Nat.ltb_spec i (length (hello_indices elf))) as [Hi|Hi];
      [|unfold U32; lia]. destruct (lookup_lt_is_Some_2 _ _ Hi) as [x Hx]. rewrite nth_lookup, Hx. simpl.
    apply list_elem_of_lookup_2 in Hx. unfold hello_indices in Hx. apply elem_of_app in Hx as [Hx|Hx].
    + apply list_elem_of_fmap in Hx as (j & -> & _). apply HU.
    + destruct (negb _); [apply list_elem_of_singleton in Hx as ->; apply HU|by apply not_elem_of_nil in Hx].
Qed.

(** The kernel finds the program's inode in slot 3. *)
Lemma hello_inode_found : decode_dinode (slice (inode_offset 3) DINODE_SIZE (inode_block0 elf)) = hello_dinode.
Proof.
  unfold inode_block0. cbv zeta.
  match goal with |- context [put_inode ?b 3 _ _ _ _ _ _] => assert (Hb : length b = BLOCK_SIZE) by (vm_compute; reflexivity); generalize dependent b end.
  intros b Hb. rewrite put_inode_spec by (done || lia). fold hello_dinode.
  pose proof (length_encode_dinode hello_dinode (length_padded _)) as He.
  pose proof (slice_splice (inode_offset 3) (encode_dinode hello_dinode) b) as Hs. rewrite He in Hs.
  change (Z.to_nat (3 * 64)) with (inode_offset 3). rewrite Hs by (rewrite Hb; apply inode_offset_bound). apply decode_encode_dinode, hello_dinode_ok.
Qed.

Lemma nonzero_ne x : x <> 0 -> nonzero x = Some x.
Proof. intros Hx. unfold nonzero. by rewrite (proj2 (Z.eqb_neq _ _)). Qed.

Lemma hello_blocks v0 v lbn : elf_written n v0 v -> n <= 996 -> 0 <= lbn < n -> lookup_block v hello_dinode lbn = Some (10 + lbn).
Proof.
  intros [V1 V2 V3 V4] Hmax Hl. unfold lookup_block. cbn [index_ hello_dinode]. cbv zeta.
  destruct (Z.ltb_spec lbn 10) as [H10|H10].
  - rewrite hello_index by lia. apply nonzero_ne. lia.
  - rewrite (proj2 (Z.ltb_lt _ _)) by lia. rewrite hello_indirect, nonzero_ne by lia.
    cbn [mbind option_bind]. rewrite V2, nonzero_ne by lia. f_equal. lia.
Qed.

(** The file is the program. *)
Lemma hello_bytes v0 v : elf_written n v0 v -> n <= 996 -> file_bytes v hello_dinode 0 (elf_len elf) = elf.
Proof.
  intros Hv Hmax. apply list_eq. intros k. unfold file_bytes. rewrite list_lookup_fmap.
  destruct (decide (k < length elf)%nat) as [Hk|Hk].
  - rewrite lookup_seqZ_lt by (unfold elf_len; lia). cbn [fmap option_fmap option_map]. rewrite Z.add_0_l.
    destruct (lookup_lt_is_Some_2 elf k Hk) as [x Hx]. rewrite Hx. f_equal. unfold file_byte.
    pose proof elf_blocks_spec as (_ & _ & Hn). unfold elf_len in Hn. change (Z.of_nat BLOCK_SIZE) with 4096 in Hn |- *.
    assert (Hq : 0 <= Z.of_nat k / 4096 < n) by (split; [apply Z.div_pos|apply Z.div_lt_upper_bound]; lia).
    rewrite (hello_blocks v0) by done. rewrite (ew_data _ _ _ Hv) by done. by apply elf_block_byte.
  - rewrite (lookup_ge_None_2 elf) by lia. rewrite lookup_seqZ_ge by (unfold elf_len; lia). done.
Qed.

(** ** The whole image *)

Definition mkfs_sb : SuperBlock := mkSB MAGIC 1007 1000 200 2 6.

Record rich_image (v : Z -> block) : Prop := {
  ri_sb : v 0 = sb_buf;
  ri_ibmap : forall k, bit (v 1) k = (Z.of_nat k <? 4);
  ri_inodes : v 2 = inode_block0 elf;
  ri_dbmap : forall k, bit (v 6) k = (Z.of_nat k <? total_data_blocks elf);
  ri_dir : v 7 = dir_block;
  ri_upper : v 8 = letters 65;
  ri_lower : v 9 = letters 97;
  ri_elf : exists v0, elf_written n v0 v;
  ri_bitmaps : is_block (v 1) /\ is_block (v 6);
}.

Lemma length_inode_block0 : length (inode_block0 elf) = BLOCK_SIZE.
Proof.
  unfold inode_block0. cbv zeta.
  match goal with |- context [put_inode ?b 3 _ _ _ _ _ _] => assert (Hb : length b = BLOCK_SIZE) by (vm_compute; reflexivity); generalize dependent b end.
  intros b Hb. rewrite put_inode_spec by (done || lia). rewrite length_splice; [done|].
  rewrite length_encode_dinode by apply length_padded. rewrite Hb. apply (inode_offset_bound 3).
Qed.

Lemma wp_write_rich f Q : blocks_are f (<[0 := sb_buf]> (fun _ => zero_block)) -> n <= 996 -> i_len f = total_blocks * BS ->
  (forall f' v', blocks_are f' v' -> rich_image v' -> i_len f' = total_blocks * BS -> Q (Ok tt) f') -> wp (write_rich elf) Q f.
Proof.
  intros Hf Hn Hlen HQ. unfold write_rich. pose proof elf_blocks_spec as (H0 & _ & _).
  change inode_region_start with 2. change data_bitmap_start with 6. change root_dir_block with 7. change upper_block with 8. change lower_block with 9.
  assert (HN : Z.of_nat NBITS = 32768) by (vm_compute; reflexivity).
  wp_step. eapply wp_mono; [|apply wp_mark_bits; rewrite HN; lia]. intros ibmap s1 (-> & Hibm & Hi). pose proof Hibm as [Hib _].
  wp_step. eapply wp_write_block; [exact Hf|done|rewrite Hlen; change total_blocks with 1007; lia|]. intros f1 Hf1 L1.
  assert (Htot : 0 <= total_data_blocks elf <= Z.of_nat NBITS) by (rewrite HN; unfold total_data_blocks; destruct (10 <? n); lia). clear HN.
  wp_step. eapply wp_mono; [|apply wp_mark_bits; exact Htot]. intros dbmap s2 (-> & Hdbm & Hd). pose proof Hdbm as [Hdb _].
  wp_step. eapply wp_write_block; [exact Hf1|done|rewrite L1, Hlen; change total_blocks with 1007; lia|]. intros f2 Hf2 L2.
  wp_step. eapply wp_write_block; [exact Hf2|apply length_inode_block0|rewrite L2, L1, Hlen; change total_blocks with 1007; lia|]. intros f3 Hf3 L3.
  wp_step. eapply wp_write_block; [exact Hf3|vm_compute; reflexivity|rewrite L3, L2, L1, Hlen; change total_blocks with 1007; lia|]. intros f4 Hf4 L4.
  wp_step. eapply wp_write_block; [exact Hf4|unfold letters; by rewrite length_fmap, length_seq|rewrite L4, L3, L2, L1, Hlen; change total_blocks with 1007; lia|].
  intros f5 Hf5 L5.
  wp_step. eapply wp_write_block; [exact Hf5|unfold letters; by rewrite length_fmap, length_seq|rewrite L5, L4, L3, L2, L1, Hlen; change total_blocks with 1007; lia|].
  intros f6 Hf6 L6.
  eapply wp_write_elf; [exact Hf6| |done|congruence|].
  - intros b. rewrite <-Hf6. apply length_image_block.
  - intros f7 v7 Hf7 Hv L7. eapply HQ; [exact Hf7| |done]. pose proof (ew_low _ _ _ Hv) as Hlow.
    assert (Hget : forall b x, b < 10 -> (<[9:=letters 97]> (<[8:=letters 65]> (<[7:=dir_block]> (<[2:=inode_block0 elf]> (<[6:=dbmap]> (<[1:=ibmap]> (<[0:=sb_buf]> (fun _ => zero_block)))))))) b = x -> v7 b = x).
    { intros b x Hb <-. by apply Hlow. }
    split; [| | | | | | |by eexists|].
    8:{ split; [rewrite (Hget 1 ibmap)|rewrite (Hget 6 dbmap)]; by (done || lia || reflexivity). }
    + apply Hget; [lia|reflexivity].
    + intros k. rewrite <-Hi. f_equal. apply Hget; [lia|reflexivity].
    + apply Hget; [lia|reflexivity].
    + intros k. rewrite <-Hd. f_equal. apply Hget; [lia|reflexivity].
    + apply Hget; [lia|reflexivity].
    + apply Hget; [lia|reflexivity].
    + apply Hget; [lia|reflexivity].
Qed.
End elf.

(** ** What the kernel reads *)

(** A file whose first block is [b], inside that block. *)
Lemma first_block_bytes v n b off cnt : lookup_block v n 0 = Some b -> length (v b) = BLOCK_SIZE ->
  0 <= off -> 0 <= cnt -> off + cnt <= BS -> file_bytes v n off cnt = slice (Z.to_nat off) (Z.to_nat cnt) (v b).
Proof.
  intros Hb Hl Ho Hc Hle. apply list_eq. intros k. unfold file_bytes. rewrite list_lookup_fmap.
  destruct (decide (k < Z.to_nat cnt)%nat) as [Hk|Hk].
  - rewrite lookup_seqZ_lt by lia. cbn [fmap option_fmap option_map]. rewrite lookup_slice by done. unfold file_byte.
    rewrite Z.div_small, Z.mod_small by lia. rewrite Hb. unfold byte_at. rewrite nth_lookup.
    replace (Z.to_nat (off + Z.of_nat k)) with (Z.to_nat off + k)%nat by lia.
    destruct (lookup_lt_is_Some_2 (v b) (Z.to_nat off + k)%nat) as [x Hx]; [lia|]. by rewrite Hx.
  - rewrite lookup_seqZ_ge by lia. symmetry. apply lookup_ge_None_2. unfold slice. rewrite length_take. lia.
Qed.

(** The inodes of the directory and of the text files. *)
Definition small_dinode (typ size blk : Z) : InodeDisk := mkDinode typ 0 0 1 size (padded [blk]).

Lemma small_inode_found elf (slot : Z) typ size blk :
  (slot, typ, size, blk) ∈ [(0, 1, 320, 7); (1, 2, 4096, 8); (2, 2, 4096, 9)] ->
  decode_dinode (slice (inode_offset slot) DINODE_SIZE (inode_block0 elf)) = small_dinode typ size blk.
Proof.
  intros Hin. unfold inode_block0. cbv zeta.
  match goal with |- context [put_inode ?b 3 _ _ _ _ _ _] => remember b as b0 eqn:Hb0 end.
  assert (Hb : length b0 = BLOCK_SIZE) by (rewrite Hb0; vm_compute; reflexivity). rewrite put_inode_spec by (done || lia).
  pose proof (length_encode_dinode (hello_dinode elf) (length_padded _)) as He.
  rewrite slice_splice_other.
  - rewrite Hb0. clear Hb He Hb0. rewrite !elem_of_cons in Hin. destruct Hin as [Hin|[Hin|[Hin|Hin]]]; [injection Hin as -> -> -> ->..|by apply not_elem_of_nil in Hin];
      vm_compute; reflexivity.
  - fold (hello_dinode elf). rewrite He, Hb. apply (inode_offset_bound 3).
  - left. clear Hb Hb0 He. rewrite !elem_of_cons in Hin. destruct Hin as [Hin|[Hin|[Hin|Hin]]]; [injection Hin as -> _ _ _..|by apply not_elem_of_nil in Hin];
      apply Nat.leb_le; vm_compute; reflexivity.
Qed.

Lemma small_block v typ size blk : blk <> 0 -> lookup_block v (small_dinode typ size blk) 0 = Some blk.
Proof. intros Hb. unfold lookup_block. simpl. by apply nonzero_ne. Qed.

(** The entries of the root directory. *)
Lemma root_entries v : v 7 = dir_block -> dir_entries v (small_dinode 1 320 7) =
  [mkDentry (pad_name (ascii_bytes ".")) 0; mkDentry (pad_name (ascii_bytes "..")) 0; mkDentry (pad_name (ascii_bytes "ABCD.txt")) 1;
   mkDentry (pad_name (ascii_bytes "abcd.txt")) 2; mkDentry (pad_name (ascii_bytes "hello")) 3].
Proof.
  intros Hv. assert (Hb : forall k, 0 <= k < 5 -> file_bytes v (small_dinode 1 320 7) (64 * k) 64 = slice (Z.to_nat (64 * k)) 64 dir_block).
  { intros k Hk. rewrite (first_block_bytes v _ 7), Hv; [done|by apply small_block| | | |];
      [rewrite Hv; vm_compute; reflexivity|lia|lia|change BS with 4096; lia]. }
  unfold dir_entries. change (dir_count (small_dinode 1 320 7)) with 5.
  change (seqZ 0 5) with [0; 1; 2; 3; 4]. cbn [fmap list_fmap]. unfold dir_entry. change DENTRY_SIZE with 64. rewrite !Hb by lia. vm_compute. reflexivity.
Qed.

(** The files of the image: number, name and contents. *)
Definition image_files (elf : list Z) : list (Z * string * list Z) :=
  [(1, "ABCD.txt"%string, letters 65); (2, "abcd.txt"%string, letters 97); (3, "hello"%string, elf)].

(** The inode the kernel finds for a file of the image. *)
Record image_file_at (v : Z -> block) (inum : Z) (contents : list Z) : Prop := {
  fa_block : 0 <= inode_block mkfs_sb inum < U32;
  fa_index : length (index_ (idisk (cached v mkfs_sb inum))) = INODE_INDEX_3;
  fa_size : size (idisk (cached v mkfs_sb inum)) = Z.of_nat (length contents);
  fa_small : Z.of_nat (length contents) + BS < U32;
  fa_bytes : file_bytes v (idisk (cached v mkfs_sb inum)) 0 (Z.of_nat (length contents)) = contents;
}.

Lemma letters_at v (inum blk first : Z) :
  decode_dinode (slice (inode_offset inum) DINODE_SIZE (v 2)) = small_dinode 2 4096 blk -> inode_block mkfs_sb inum = 2 ->
  blk <> 0 -> v blk = letters first -> image_file_at v inum (letters first).
Proof.
  intros Hd Hi Hb Hv. assert (Hl : length (letters first) = BLOCK_SIZE) by (unfold letters; by rewrite length_fmap, length_seq).
  assert (Hc : idisk (cached v mkfs_sb inum) = small_dinode 2 4096 blk) by (unfold cached; rewrite Hi; exact Hd).
  split; rewrite ?Hc, ?Hl.
  - rewrite Hi. unfold U32. lia.
  - apply length_padded.
  - reflexivity.
  - unfold U32. change BS with 4096. lia.
  - rewrite (first_block_bytes v _ blk); [|by apply small_block|by rewrite Hv|lia|lia|lia].
    rewrite Hv, Nat2Z.id. unfold slice. apply firstn_all2. rewrite Hl. done.
Qed.

(** The part of the image the files live in. *)
Record files_image (elf : list Z) (v : Z -> block) : Prop := {
  fi_records : forall i, 1 <= i < 4 -> slice (inode_offset i) DINODE_SIZE (v 2) = slice (inode_offset i) DINODE_SIZE (inode_block0 elf);
  fi_upper : v 8 = letters 65;
  fi_lower : v 9 = letters 97;
  fi_elf : exists v0, elf_written elf (elf_blocks elf) v0 v;
}.

Lemma hello_at elf v : files_image elf v -> elf_blocks elf <= 996 -> image_file_at v 3 elf.
Proof.
  intros Hv Hn. pose proof (elf_blocks_spec elf) as (_ & _ & Hlen). change BS with 4096 in Hlen. unfold elf_len in Hlen.
  assert (Hc : idisk (cached v mkfs_sb 3) = hello_dinode elf).
  { unfold cached. change (inode_block mkfs_sb 3) with 2. rewrite (fi_records _ _ Hv) by lia. apply hello_inode_found. }
  split; rewrite ?Hc.
  - change (inode_block mkfs_sb 3) with 2. unfold U32. lia.
  - apply length_padded.
  - cbn [size hello_dinode]. apply Z.mod_small. unfold elf_len, U32. lia.
  - change BS with 4096. unfold U32. lia.
  - destruct (fi_elf _ _ Hv) as [v0 He]. by apply (hello_bytes elf v0).
Qed.

Lemma image_files_at elf v inum name contents : files_image elf v -> elf_blocks elf <= 996 ->
  (inum, name, contents) ∈ image_files elf -> image_file_at v inum contents.
Proof.
  intros Hv Hn Hin. unfold image_files in Hin. rewrite !elem_of_cons in Hin.
  destruct Hin as [Hin|[Hin|[Hin|Hin]]]; [injection Hin as -> -> ->..|by apply not_elem_of_nil in Hin].
  - apply (letters_at v 1 8); [|done|done|apply Hv]. rewrite (fi_records _ _ Hv) by lia. apply small_inode_found. set_solver.
  - apply (letters_at v 2 9); [|done|done|apply Hv]. rewrite (fi_records _ _ Hv) by lia. apply small_inode_found. set_solver.
  - by apply hello_at.
Qed.

Lemma root_lookup elf v inum name contents : v 7 = dir_block -> (inum, name, contents) ∈ image_files elf ->
  get_element (SLASH :: ascii_bytes name) 0 = Some (ascii_bytes name, length (SLASH :: ascii_bytes name)) /\
  (exists e, List.find (entry_named (ascii_bytes name)) (dir_entries v (small_dinode 1 320 7)) = Some e /\ dinum e = inum) /\ inum <> ROOT_INODE.
Proof.
  intros Hv Hin. rewrite (root_entries v Hv).
  assert (Hname : (inum, name) ∈ [(1, "ABCD.txt"%string); (2, "abcd.txt"%string); (3, "hello"%string)]).
  { apply (list_elem_of_fmap_2' fst (image_files elf) (inum, name, contents) (inum, name) Hin). done. }
  clear Hin. rewrite !elem_of_cons in Hname. destruct Hname as [Hn|[Hn|[Hn|Hn]]]; [injection Hn as -> ->..|by apply not_elem_of_nil in Hn].
  - split; [vm_compute; reflexivity|]. split; [|done]. exists (mkDentry (pad_name (ascii_bytes "ABCD.txt")) 1). split; [vm_compute; reflexivity|done].
  - split; [vm_compute; reflexivity|]. split; [|done]. exists (mkDentry (pad_name (ascii_bytes "abcd.txt")) 2). split; [vm_compute; reflexivity|done].
  - split; [vm_compute; reflexivity|]. split; [|done]. exists (mkDentry (pad_name (ascii_bytes "hello")) 3). split; [vm_compute; reflexivity|done].
Qed.

(** ** The kernel boots from the image *)

(** The free data blocks the self-test may need, and so the longest program. *)
Definition MAX_ELF_BLOCKS : Z := 980.
(** The data blocks of the files: all that are in use but the root directory's. *)
Definition file_blocks (elf : list Z) (j : nat) : Prop := 1 <= Z.of_nat j <= elf_blocks elf + 3.

Lemma mkfs_sb_ok : sb_ok mkfs_sb.
Proof. assert (HN : Z.of_nat NBITS = 32768) by (vm_compute; reflexivity). split; cbn [sb_bmap_start sb_nblocks mkfs_sb]; rewrite ?HN; unfold U32; lia. Qed.

Lemma root_slots v q : valid q -> slot_val v (small_dinode 1 320 7) q = if decide (q = Root 0) then 7 else 0.
Proof.
  intros Hq. assert (Hr : forall i, (i < INODE_INDEX_3)%nat -> root_val (small_dinode 1 320 7) i = if decide (i = 0%nat) then 7 else 0).
  { intros i Hi. unfold root_val. cbn [index_ small_dinode]. rewrite nth_padded by done. cbn [length]. destruct i as [|i]; [done|]. by rewrite (proj2 (Nat.ltb_ge _ _)) by lia. }
  destruct q as [i|i|i|i j]; cbn [slot_val]; rewrite ?Hr by (exact Hq || (unfold INODE_INDEX_1, INODE_INDEX_2, INODE_INDEX_3; lia)); cbn; try done.
  destruct i as [|i]; [done|]. by rewrite !decide_False by congruence.
Qed.

Lemma small_dinode_ok : dinode_ok (small_dinode 1 320 7).
Proof.
  split; cbn [type_ major minor nlink size index_ small_dinode]; try (unfold U16, U32; lia); [apply length_padded|].
  change (padded [7]) with (7 :: replicate 12 0). constructor; [unfold U32; lia|]. apply Forall_replicate. unfold U32. lia.
Qed.

Lemma image_free elf v : rich_image elf v -> elf_blocks elf <= MAX_ELF_BLOCKS -> (15 <= free_blocks mkfs_sb v)%nat.
Proof.
  intros Hv Hn. unfold free_blocks. change 15%nat with (length (seq 985 15)). apply submseteq_length, NoDup_submseteq; [apply NoDup_seq|].
  intros j [Hj1 Hj2]%elem_of_seq. apply list_elem_of_filter. cbn [sb_bmap_start sb_nblocks mkfs_sb]. split; [|apply elem_of_seq; lia].
  rewrite (ri_dbmap _ _ Hv). apply Z.ltb_ge. unfold total_data_blocks. unfold MAX_ELF_BLOCKS in Hn. destruct (10 <? elf_blocks elf); lia.
Qed.

Lemma image_root elf v : rich_image elf v -> root mkfs_sb v = small_dinode 1 320 7.
Proof.
  intros Hv. unfold root, record_at. change (inode_block mkfs_sb ROOT_INODE) with 2. rewrite (ri_inodes _ _ Hv). apply (small_inode_found elf 0), elem_of_cons. by left.
Qed.

(** The image is a file system in order, and the names of the test are free. *)
Lemma image_core elf v : rich_image elf v -> elf_blocks elf <= MAX_ELF_BLOCKS -> core mkfs_sb 4 (file_blocks elf) v v 5.
Proof.
  intros Hv Hn. pose proof (elf_blocks_spec elf) as (H0 & _ & _).
  pose proof (image_root elf v Hv) as Hroot. destruct (ri_bitmaps _ _ Hv) as [B1 B2].
  split; rewrite ?Hroot; try done.
  - change (bit (v 1) 0 = true). by rewrite (ri_ibmap _ _ Hv).
  - by apply (image_free elf).
  - split; [apply small_dinode_ok| |].
    + intros q q' Hq Hq' Hne. rewrite !root_slots in * by done. destruct (decide (q = Root 0)), (decide (q' = Root 0)); congruence || lia.
    + intros q Hq. rewrite root_slots by done. destruct (decide (q = Root 0)); [|done]. intros _. exists 0%nat. cbn [sb_bmap_start sb_nblocks mkfs_sb].
      split; [lia|]. split; [lia|]. rewrite (ri_dbmap _ _ Hv). apply Z.ltb_lt. unfold total_data_blocks. destruct (10 <? elf_blocks elf); lia.
  - intros j [Hj1 Hj2]. cbn [sb_bmap_start mkfs_sb]. split; [rewrite (ri_dbmap _ _ Hv); apply Z.ltb_lt; unfold total_data_blocks; destruct (10 <? elf_blocks elf); lia|].
    split; [|done]. intros q Hq. rewrite root_slots by done. destruct (decide (q = Root 0)); lia.
Qed.

Lemma image_names elf v tn : rich_image elf v -> test_name tn -> resolve v (small_dinode 1 320 7) tn = None.
Proof. intros Hv Ht. unfold resolve. rewrite root_entries by apply Hv. destruct Ht as [-> | ->]; vm_compute; reflexivity. Qed.

(** [main.rs]: [buffer::init] and [fs_init], the self-test included; after it
    the files are as they were. *)
Lemma wp_boot_image {D} `{!BlockDevice D} (d : D) elf : rich_image elf (disk_read d) -> elf_blocks elf <= MAX_ELF_BLOCKS ->
  wp (buf buffer_init;; fs_init) (fun _ s => exists v ic, at_rest mkfs_sb 4 (file_blocks elf) (disk_read d) s v ic 0) (boot_fs d).
Proof.
  intros Hv Hn. set (v := disk_read d) in *. assert (Hsb : read_superblock (v 0) = mkfs_sb) by (rewrite (ri_sb _ _ Hv); vm_compute; reflexivity).
  pose proof (image_core elf v Hv Hn) as C. unfold fs_init. apply wp_bind_assoc. wp_step.
  eapply wp_mono; [|apply wp_fs_boot; fold v; by rewrite Hsb]. intros [] s0 H0. fold v in H0. rewrite Hsb in H0.
  eapply (wp_fs_test mkfs_sb mkfs_sb_ok 4 ltac:(done) ltac:(done) ltac:(done) ltac:(done) _ _ s0 v (fun _ => Inode_new)).
  - split; [exact H0|done|exact C|]. intros tn Ht. rewrite (image_root elf) by done. by apply (image_names elf).
  - change (first_clear (v 1) 4). split; [apply Nat.ltb_lt; vm_compute; reflexivity|]. split; [by rewrite (ri_ibmap _ _ Hv)|].
    intros j Hj. rewrite (ri_ibmap _ _ Hv). apply Z.ltb_lt. lia.
Qed.

Lemma kept_files elf v0 v : rich_image elf v0 -> elf_blocks elf <= MAX_ELF_BLOCKS -> (forall b, length (v b) = BLOCK_SIZE) ->
  core mkfs_sb 4 (file_blocks elf) v0 v 0 -> files_image elf v.
Proof.
  intros Hv Hn Hl C. pose proof (elf_blocks_spec elf) as (H0 & _ & _). unfold MAX_ELF_BLOCKS in Hn.
  assert (Hb : forall b, 8 <= b <= elf_blocks elf + 10 -> v b = v0 b).
  { intros b Hb. destruct (co_blocks _ _ _ _ _ _ C (Z.to_nat (b - 7))) as (_ & _ & E); [unfold file_blocks; lia|]. cbn [sb_bmap_start mkfs_sb] in E.
    by replace (6 + 1 + Z.of_nat (Z.to_nat (b - 7))) with b in E by lia. }
  split.
  - intros i Hi. assert (Hblk : inode_block mkfs_sb i = 2) by (unfold inode_block; change IPB with 64; rewrite Z.div_small by lia; done).
    pose proof (co_records _ _ _ _ _ _ C i ltac:(lia) ltac:(unfold ROOT_INODE; lia) ltac:(lia)) as E. unfold record_at in E. rewrite Hblk in E.
    rewrite E by (cbn; lia). by rewrite (ri_inodes _ _ Hv).
  - rewrite Hb by lia. apply Hv.
  - rewrite Hb by lia. apply Hv.
  - destruct (ri_elf _ _ Hv) as [w [V1 V2 V3 V4]]. exists v. split; [| |done|done].
    + intros i Hi. rewrite Hb by lia. by apply V1.
    + intros j Hj. rewrite Hb by lia. by apply V2.
Qed.

(** [open] and [read] of a file from the root directory, after boot. *)
Definition read_file {D} `{!BlockDevice D} (path : list Z) (len : Z) (dst : list Z) : M (fsys D) (Z * list Z) :=
  (buf buffer_init;; fs_init);;
  o ← path_to_inode path;
  ip ← expect o "no such file";
  inode_read_data ip 0 len dst.

Lemma image_other_name elf inum name contents : (inum, name, contents) ∈ image_files elf -> other_name (ascii_bytes name).
Proof.
  intros Hin. assert (Hname : name ∈ ["ABCD.txt"%string; "abcd.txt"%string; "hello"%string]).
  { apply (list_elem_of_fmap_2' (fun x => x.1.2) (image_files elf) (inum, name, contents) name Hin). done. }
  clear Hin. intros tn i Ht. rewrite !elem_of_cons in Hname. destruct Hname as [->|[->|[->|Hn]]]; [..|by apply not_elem_of_nil in Hn]; destruct Ht as [-> | ->]; reflexivity.
Qed.

Lemma wp_read_file {D} `{!BlockDevice D} (d : D) elf inum name contents dst :
  rich_image elf (disk_read d) -> elf_blocks elf <= MAX_ELF_BLOCKS -> (inum, name, contents) ∈ image_files elf ->
  wp (read_file (SLASH :: ascii_bytes name) (Z.of_nat (length contents)) dst)
    (fun r _ => r = (Z.of_nat (length contents), contents ++ drop (length contents) dst)) (boot_fs d).
Proof.
  intros Hv Hn Hin. assert (Hn' : elf_blocks elf <= 996) by (unfold MAX_ELF_BLOCKS in Hn; lia).
  unfold read_file. wp_step. eapply wp_mono; [|by apply (wp_boot_image d elf)]. intros [] s0 (v & ic & [H0 Hidle C _]).
  pose proof (kept_files elf (disk_read d) v Hv Hn (fun b => block_length mkfs_sb _ _ _ _ b H0) C) as Hfi.
  destruct (image_files_at _ _ _ _ _ Hfi Hn' Hin) as [F1 F2 F3 F4 F5].
  destruct (root_lookup _ _ _ _ _ (ri_dir _ _ Hv) Hin) as (Hel & (e & He & Hnum) & Hne).
  pose proof (co_names _ _ _ _ _ _ C _ (image_other_name _ _ _ _ Hin)) as Hres. unfold resolve at 2 in Hres.
  rewrite (image_root elf (disk_read d)), He in Hres by done. pose proof (fo_dinode _ _ _ (co_file _ _ _ _ _ _ C)) as Hdi. pose proof (co_room _ _ _ _ _ _ C) as Hroom. wp_step.
  eapply (wp_path_root_entry s0 v mkfs_sb ic); [exact H0|done|done|exact Hel|change (inode_block mkfs_sb ROOT_INODE) with 2; unfold U32; lia|exact F1
    |apply Hdi|apply C|apply C|apply Hdi|change (size (root mkfs_sb v) + Z.of_nat BLOCK_SIZE < U32); change DENTRY_SIZE with 64 in Hroom; lia|exact Hres|exact Hnum|done|].
  intros s1 ic1 H1 Hic _. wp_step. unfold expect. wp_step. eapply wp_mono; [|apply (wp_inode_read_data s1 _ _ _ 1 0 (Z.of_nat (length contents)) dst H1)]; rewrite ?Hic;
    [|done|lia|lia|rewrite Z.add_0_l; unfold U32 in *; change BS with 4096 in *; lia|by rewrite F3].
  intros res s2 [_ ->]. rewrite F3, Z.sub_0_r, Z.min_id, Z.max_r, F5, Nat2Z.id by lia. done.
Qed.

(** ** [mkfs] as a whole *)

(** The blocks a disk of the image's size answers. *)
Definition on_disk {D} `{!BlockDevice D} (d : D) (f : image) : Prop :=
  forall b, 0 <= b < total_blocks -> disk_read d b = image_block f b.

Lemma rich_image_ext elf v v' : rich_image elf v -> elf_blocks elf <= 996 -> (forall b, length (v' b) = BLOCK_SIZE) ->
  (forall b, 0 <= b < total_blocks -> v' b = v b) -> rich_image elf v'.
Proof.
  intros [R1 R2 R3 R4 R5 R6 R7 [v0 [V1 V2 V3 V4]] [R8 R9]] Hn Hl Hv. change total_blocks with 1007 in Hv.
  pose proof (elf_blocks_spec elf) as (H0 & _ & _). split; try (intros; rewrite Hv by lia; auto; fail); [|split; by rewrite Hv by lia]. exists v'. split; [|..|done|done].
  - intros i Hi. rewrite Hv by lia. by apply V1.
  - intros j Hj. rewrite Hv by lia. by apply V2.
Qed.

Lemma image_block_empty n p b : image_block (mkImage (fun _ => 0) n p) b = zero_block.
Proof.
  apply list_eq. intros k. destruct (decide (k < BLOCK_SIZE)%nat) as [Hk|Hk].
  - rewrite image_block_lookup by done. cbn [i_bytes]. symmetry. by apply lookup_replicate_2.
  - rewrite (lookup_ge_None_2 (image_block _ _)) by (rewrite length_image_block; lia). symmetry. apply lookup_ge_None_2.
    unfold zero_block. rewrite length_replicate. lia.
Qed.

Lemma wp_mkfs elf env Q : elf_blocks elf <= 996 ->
  (forall f v, blocks_are f v -> i_len f = total_blocks * BS ->
     (if rich env then rich_image elf v else v = <[0 := sb_buf]> (fun _ => zero_block)) -> Q (Ok tt) f) ->
  wp (mkfs elf env) Q File_create.
Proof.
  intros Hn HQ. unfold mkfs, set_len, seek, write_all, File_create. wp_steps. cbn [i_bytes i_len i_pos].
  assert (Hsl : length sb_buf = BLOCK_SIZE) by (vm_compute; reflexivity). rewrite Hsl, Z.add_0_l, Z.max_l by (change total_blocks with 1007; change BS with 4096; lia).
  set (f0 := mkImage _ _ _). assert (Hf0 : blocks_are f0 (<[0 := sb_buf]> (fun _ => zero_block))).
  { intros b. pose proof (image_block_write (mkImage (fun _ => 0) (total_blocks * BS) 0) 0 0 sb_buf (total_blocks * BS) BS b) as Hw.
    cbn [i_bytes Nat.add] in Hw. change (0 * BS + Z.of_nat 0) with 0 in Hw. unfold f0. rewrite Hw by (rewrite Hsl; lia). destruct (decide (b = 0)) as [->|Hb].
    - rewrite fn_lookup_insert, splice_all; [done|]. by rewrite length_image_block.
    - rewrite fn_lookup_insert_ne by done. apply image_block_empty. }
  destruct (rich env); cbn [negb].
  - eapply wp_write_rich; [exact Hf0|done|done|]. intros f v Hf Hv Hl. by eapply HQ.
  - wp_step. by eapply HQ.
Qed.

(** ** Blocks in use *)

(** Block [b] belongs to the file of inode [dn]: its data, or an index block. *)
Definition file_uses (v : Z -> block) (dn : InodeDisk) (b : Z) : Prop :=
  (exists lbn, 0 <= lbn /\ lbn * BS < size dn /\ lookup_block v dn lbn = Some b) \/
  (b <> 0 /\ exists i, (INODE_INDEX_1 <= i < INODE_INDEX_3)%nat /\ nth i (index_ dn) 0 = b).
(** The inode numbered [inum], as the kernel reads it. *)
Definition image_inode (v : Z -> block) (inum : Z) : InodeDisk := idisk (cached v mkfs_sb inum).

Lemma small_uses v typ size blk b : size <= BS -> blk <> 0 -> file_uses v (small_dinode typ size blk) b -> b = blk.
Proof.
  intros Hs Hb [(lbn & H0 & Hl & Hlk)|(Hne & i & Hi & Hx)].
  - cbn [FsState.size small_dinode] in Hl. assert (lbn = 0) as -> by nia. rewrite small_block in Hlk by done. congruence.
  - exfalso. apply Hne. rewrite <-Hx. cbn [index_ small_dinode]. rewrite nth_padded by lia. cbn [length].
    unfold INODE_INDEX_1 in Hi. by rewrite (proj2 (Nat.ltb_ge _ _)) by lia.
Qed.

Lemma hello_uses elf v b : rich_image elf v -> elf_blocks elf <= 996 -> file_uses v (hello_dinode elf) b ->
  10 <= b < 10 + elf_blocks elf \/ (10 < elf_blocks elf /\ b = 10 + elf_blocks elf).
Proof.
  intros Hv Hn. pose proof (elf_blocks_spec elf) as (H0 & Hlt & Hlen). change BS with 4096 in *.
  intros [(lbn & Hl0 & Hl & Hlk)|(Hne & i & Hi & Hx)].
  - left. cbn [size hello_dinode] in Hl. change BS with 4096 in Hl. destruct (ri_elf _ _ Hv) as [v0 He]. unfold wrap32 in Hl.
    rewrite Z.mod_small in Hl by (unfold elf_len, U32 in *; lia). rewrite (hello_blocks elf v0) in Hlk by (done || lia). injection Hlk as <-. lia.
  - cbn [index_ hello_dinode] in Hx. unfold INODE_INDEX_1 in Hi. rewrite nth_padded in Hx by lia.
    assert (Hlen' : length (hello_indices elf) = (Z.to_nat (Z.min (elf_blocks elf) 10)%Z + (if (10 <? elf_blocks elf)%Z then 1 else 0))%nat).
    { unfold hello_indices, hello_indirect_block, range. rewrite length_app, length_fmap, length_seqZ, Z.sub_0_r. f_equal.
      change data_bitmap_start with 6. destruct (10 <? elf_blocks elf) eqn:E; [|done].
      rewrite (proj2 (Z.eqb_neq _ _)) by lia. done. }
    rewrite Hlen' in Hx. destruct (Z.ltb_spec 10 (elf_blocks elf)) as [Hbig|Hsmall].
    + right. split; [done|]. destruct (Nat.ltb_spec i (Z.to_nat (Z.min (elf_blocks elf) 10) + 1)) as [Hi2|Hi2]; [|done].
      assert (i = INODE_INDEX_1) as -> by (unfold INODE_INDEX_1; lia).
      rewrite <-Hx, <-(hello_indirect elf Hbig Hn), nth_padded by (unfold INODE_INDEX_1, INODE_INDEX_3; lia).
      rewrite Hlen', (proj2 (Nat.ltb_lt _ _)) by (unfold INODE_INDEX_1; lia). done.
    + rewrite (proj2 (Nat.ltb_ge _ _)) in Hx by lia. done.
Qed.

(** Where the blocks of each inode lie. *)
Lemma image_uses elf v inum b : rich_image elf v -> elf_blocks elf <= 996 -> 0 <= inum < 4 -> file_uses v (image_inode v inum) b ->
  if inum <? 3 then b = 7 + inum else 10 <= b /\ b - 7 < total_data_blocks elf /\ b < total_blocks.
Proof.
  intros Hv Hn Hi Hu. unfold image_inode, cached in Hu. cbn [idisk] in Hu.
  assert (Hblk : inode_block mkfs_sb inum = 2) by (unfold inode_block; change IPB with 64; rewrite Z.div_small by lia; done).
  rewrite Hblk, (ri_inodes _ _ Hv) in Hu. pose proof (elf_blocks_spec elf) as (H0 & _ & _).
  assert (inum = 0 \/ inum = 1 \/ inum = 2 \/ inum = 3) as [ -> | [ -> | [ -> | -> ]]] by lia; cbn [Z.ltb Z.compare Pos.compare Pos.compare_cont].
  - rewrite (small_inode_found elf 0 1 320 7) in Hu by (apply elem_of_cons; by left). by apply small_uses in Hu.
  - rewrite (small_inode_found elf 1 2 4096 8) in Hu by (rewrite !elem_of_cons; auto). by apply small_uses in Hu.
  - rewrite (small_inode_found elf 2 2 4096 9) in Hu by (rewrite !elem_of_cons; auto). by apply small_uses in Hu.
  - rewrite hello_inode_found in Hu. apply hello_uses in Hu; [|done|done]. unfold total_data_blocks. change total_blocks with 1007.
    destruct (Z.ltb_spec 10 (elf_blocks elf)); lia.
Qed.

(** ** Properties *)

(** C14: With [GLENDA_RICH_MKFS] set, [mkfs] succeeds for every program of at
    most 980 blocks, and the kernel boots from any disk that holds the image
    and finds the files again: [fs_init] accepts the superblock and its
    self-test, which allocates, writes and deletes on that disk, passes;
    afterwards "/ABCD.txt", "/abcd.txt" and "/hello" resolve through the root
    directory and each file is read back byte for byte, through the indirect
    block where the program is that long. The bound leaves fifteen data blocks
    free for the self-test. *)
Theorem mkfs_kernel_roundtrip elf env : rich env = true -> elf_blocks elf <= MAX_ELF_BLOCKS ->
  wp (mkfs elf env) (fun r f => r = Ok tt /\ i_len f = total_blocks * Z.of_nat BLOCK_SIZE /\
    forall D (HD : BlockDevice D) (d : D) inum name contents dst, on_disk d f -> (inum, name, contents) ∈ image_files elf ->
      wp (read_file (SLASH :: ascii_bytes name) (Z.of_nat (length contents)) dst)
        (fun r _ => r = (Z.of_nat (length contents), contents ++ drop (length contents) dst)) (boot_fs d)) File_create.
Proof.
  intros He Hn. assert (Hn' : elf_blocks elf <= 996) by (unfold MAX_ELF_BLOCKS in Hn; lia).
  apply wp_mkfs; [done|]. rewrite He. intros f v Hf Hl Hv. split; [done|]. split; [done|].
  intros D HD d inum name contents dst Hd Hin. eapply wp_read_file; [|exact Hn|exact Hin].
  eapply rich_image_ext; [exact Hv|done|apply disk_read_length|]. intros b Hb. by rewrite Hd, Hf.
Qed.

Lemma mkfs_kernel_roundtrip_witness :
  wp (mkfs [127; 69; 76; 70] (Some "Yes"%string)) (fun r f => r = Ok tt /\ i_len f = total_blocks * Z.of_nat BLOCK_SIZE /\
    forall D (HD : BlockDevice D) (d : D) inum name contents dst, on_disk d f -> (inum, name, contents) ∈ image_files [127; 69; 76; 70] ->
      wp (read_file (SLASH :: ascii_bytes name) (Z.of_nat (length contents)) dst)
        (fun r _ => r = (Z.of_nat (length contents), contents ++ drop (length contents) dst)) (boot_fs d)) File_create.
Proof. apply (mkfs_kernel_roundtrip [127; 69; 76; 70] (Some "Yes"%string)); [vm_compute; reflexivity|vm_compute; discriminate]. Defined.

(** On the image [mkfs] writes, every block of a file or of the root
    directory, index blocks included, lies in the data region and is marked
    used in the kernel's block bitmap, no block belongs to two inodes, and
    the four inodes are marked used: the kernel's allocators cannot hand out
    what the image already uses. *)
Theorem mkfs_bitmap_covers elf env : rich env = true -> elf_blocks elf <= 996 ->
  wp (mkfs elf env) (fun _ f =>
    (forall inum b, 0 <= inum < 4 -> file_uses (image_block f) (image_inode (image_block f) inum) b ->
       data_start <= b < total_blocks /\ bit (image_block f data_bitmap_start) (Z.to_nat (b - data_start)) = true /\
       bit (image_block f 1) (Z.to_nat inum) = true) /\
    (forall i j b, 0 <= i < 4 -> 0 <= j < 4 -> file_uses (image_block f) (image_inode (image_block f) i) b ->
       file_uses (image_block f) (image_inode (image_block f) j) b -> i = j)) File_create.
Proof.
  intros He Hn. apply wp_mkfs; [done|]. rewrite He. intros f v Hf Hl Hv0.
  assert (Hv : rich_image elf (image_block f)).
  { eapply rich_image_ext; [exact Hv0|done|apply length_image_block|]. intros b _. apply Hf. }
  pose proof (elf_blocks_spec elf) as (H0 & _ & _). split.
  - intros inum b Hi Hu. apply (image_uses elf) in Hu; [|done..]. change data_start with 7. change total_blocks with 1007 in *. change data_bitmap_start with 6.
    assert (7 <= b < 1007 /\ b - 7 < total_data_blocks elf) as [Hb Hb'].
    { unfold total_data_blocks in *. destruct (Z.ltb_spec inum 3), (Z.ltb_spec 10 (elf_blocks elf)); lia. }
    split; [done|]. rewrite (ri_dbmap _ _ Hv), (ri_ibmap _ _ Hv). split; apply Z.ltb_lt; lia.
  - intros i j b Hi Hj Hui Huj. apply (image_uses elf) in Hui; [|done..]. apply (image_uses elf) in Huj; [|done..].
    destruct (Z.ltb_spec i 3), (Z.ltb_spec j 3); lia.
Qed.

Lemma mkfs_bitmap_covers_witness :
  wp (mkfs (replicate 5 1) (Some "1"%string)) (fun _ f =>
    (forall inum b, 0 <= inum < 4 -> file_uses (image_block f) (image_inode (image_block f) inum) b ->
       data_start <= b < total_blocks /\ bit (image_block f data_bitmap_start) (Z.to_nat (b - data_start)) = true /\
       bit (image_block f 1) (Z.to_nat inum) = true) /\
    (forall i j b, 0 <= i < 4 -> 0 <= j < 4 -> file_uses (image_block f) (image_inode (image_block f) i) b ->
       file_uses (image_block f) (image_inode (image_block f) j) b -> i = j)) File_create.
Proof. apply (mkfs_bitmap_covers (replicate 5 1) (Some "1"%string)); [vm_compute; reflexivity|vm_compute; discriminate]. Defined.

(** The bitmap has one more block than the image uses: the block after the
    last one is marked and belongs to no inode. *)
Theorem mkfs_marks_spare_block elf env : rich env = true -> elf_blocks elf <= 995 ->
  wp (mkfs elf env) (fun _ f => exists b, bit (image_block f data_bitmap_start) (Z.to_nat (b - data_start)) = true /\ data_start <= b /\
    forall inum, 0 <= inum < 4 -> ~ file_uses (image_block f) (image_inode (image_block f) inum) b) File_create.
Proof.
  intros He Hn. apply wp_mkfs; [lia|]. rewrite He. intros f v Hf Hl Hv0.
  assert (Hv : rich_image elf (image_block f)).
  { eapply rich_image_ext; [exact Hv0|lia|apply length_image_block|]. intros b _. apply Hf. }
  pose proof (elf_blocks_spec elf) as (H0 & _ & _). exists (7 + total_data_blocks elf - 1).
  change data_bitmap_start with 6. change data_start with 7. rewrite (ri_dbmap _ _ Hv).
  split; [apply Z.ltb_lt; unfold total_data_blocks; destruct (10 <? _); lia|]. split; [unfold total_data_blocks; destruct (10 <? _); lia|].
  intros inum Hi Hu. destruct (Z.eq_dec inum 3) as [->|Hne].
  - unfold image_inode, cached in Hu. cbn [idisk] in Hu. change (inode_block mkfs_sb 3) with 2 in Hu. rewrite (ri_inodes _ _ Hv), hello_inode_found in Hu.
    apply hello_uses in Hu; [|done|lia]. unfold total_data_blocks in Hu. destruct (Z.ltb_spec 10 (elf_blocks elf)); lia.
  - apply (image_uses elf) in Hu; [|done|lia|done]. rewrite (proj2 (Z.ltb_lt _ _)) in Hu by lia.
    unfold total_data_blocks in Hu. destruct (Z.ltb_spec 10 (elf_blocks elf)); lia.
Qed.

(** The image without [GLENDA_RICH_MKFS] is the superblock and zeros, and the
    whole boot of the file system, self-test included, succeeds on it. *)
Example plain_image_boots elf env : rich env = false -> elf_blocks elf <= 996 ->
  wp (mkfs elf env) (fun r f => r = Ok tt /\ forall b, ram_read {[0 := sb_buf]} b = image_block f b) File_create /\
  exists s, boot {[0 := sb_buf]} = Ret tt s /\ SB s = Some mkfs_sb.
Proof.
  intros He Hn. split.
  - apply wp_mkfs; [done|]. rewrite He. intros f v Hf _ ->. split; [done|]. intros b. rewrite Hf. unfold ram_read.
    destruct (Z.eq_dec b 0) as [->|Hb].
    + rewrite fn_lookup_insert, lookup_singleton_eq. vm_compute. reflexivity.
    + rewrite fn_lookup_insert_ne, lookup_singleton_ne by done. cbn [default]. by rewrite resize_nil.
  - assert (H : match boot {[0 := sb_buf]} with Ret _ s => SB s = Some mkfs_sb | _ => False end) by (vm_compute; reflexivity).
    destruct (boot {[0 := sb_buf]}) as [[] s|w|w]; [by exists s|done..].
Qed.
