(* ===== verification/Xtask.v ===== *)
(** * The build driver ([xtask/src/main.rs])

    What each subcommand runs, writes and starts, on a host that is given by
    how it answers: which tools are on the path, which files there are and how
    a command exits, each depending on what was done before. The history of a
    run is the list of its effects. Command-line parsing ([clap]) is outside: a
    run starts from the parsed [Xtask]. *)
From stdpp Require Import functions pretty.
From Stdlib Require Import Ascii String.
From S2P Require Import Prelude Mkfs.

Local Open Scope string_scope.
Local Open Scope list_scope.

(** ** The host *)

(** [std::process::Command] *)
Record Command := mkCommand { program : string; args : list string; current_dir : option string }.

Inductive event :=
  | MadeDir (path : string)
  | Wrote (path content : string)
  | Ran (cmd : Command) (success : bool)
  | WroteImage (f : image).

(** The answers of the host, given the history. [h_spawn] is [None] when the
    program cannot be started; [h_write] is whether a directory can be made or
    a file written at a path. *)
Record Host := mkHost {
  h_which : string -> option string;
  h_env : string -> option string;
  h_file : list event -> string -> option (list Z);
  h_write : list event -> string -> bool;
  h_spawn : list event -> Command -> option bool;
}.

(** ** The command line *)

Inductive Cmd :=
  | Build
  | Run (cpus : Z) (mem display : string)
  | Test_ (cpus : Z) (mem display : string)
  | Gdb (cpus : Z) (mem display : string) (test : bool)
  | Objdump
  | Size
  | Mkfs_.
Record Xtask := mkXtask { release : bool; features : list string; cmd : Cmd }.

Section host.
Context (H : Host).
Abbreviation T := (M (list event) (result unit string)).

Definition emit (e : event) : M (list event) unit := modify (fun h => h ++ [e]).

(** [Path::exists] *)
Definition exists_ (path : string) : M (list event) bool := gets (fun h => match h_file H h path with Some _ => true | None => false end).
(** [std::fs::write(..).unwrap()] and [create_dir_all(..).unwrap()] *)
Definition write_unwrap (path content : string) : M (list event) unit :=
  ok ← gets (fun h => h_write H h path); if ok : bool then emit (Wrote path content) else panic "called `Result::unwrap()` on an `Err` value".
Definition create_dir_all_unwrap (path : string) : M (list event) unit :=
  ok ← gets (fun h => h_write H h path); if ok : bool then emit (MadeDir path) else panic "called `Result::unwrap()` on an `Err` value".

Definition run (c : Command) : T :=
  status ← gets (fun h => h_spawn H h c);
  match status with
  | None => mret (Err "cannot start the command")
  | Some success =>
      emit (Ran c success);;
      if negb success then mret (Err "[ ERROR ] command failed") else mret (Ok tt)
  end.

Definition elf_path (mode : string) : string := "target/riscv64gc-unknown-none-elf/" +:+ mode +:+ "/kernel".

(** ** Building *)

Definition build_kernel (mode : string) (features : list string) : T :=
  run (mkCommand "cargo" (["build"; "-p"; "kernel"; "--target"; "riscv64gc-unknown-none-elf"]
    ++ (if mode =? "release" then ["--release"] else [])
    ++ (match features with [] => [] | _ => ["--features"; String.concat "," features] end)) None).

Definition build_service (_mode : string) (_features : list string) : T :=
  let manifest_dir := default "xtask" (h_env H "CARGO_MANIFEST_DIR") in
  create_dir_all_unwrap (manifest_dir +:+ "/../target/service/hello");;
  run (mkCommand "make" ["CROSS_COMPILE=riscv64-unknown-elf-"] (Some (manifest_dir +:+ "/../service/hello"))).

Definition quote : string := String (ascii_of_nat 34) EmptyString.
Definition newline : string := String (ascii_of_nat 10) EmptyString.
(** The generated [proc_payload.rs], with and without a program. *)
Definition payload_source (bin : bool) : string :=
  if bin then
    "pub const PROC_PAYLOAD: &[u8] = include_bytes!(" +:+ quote +:+ "service/hello/hello.bin" +:+ quote +:+ ");" +:+ newline +:+
    "pub const HAS_PROC_PAYLOAD: bool = true;" +:+ newline
  else
    "pub const PROC_PAYLOAD: &[u8] = &[];" +:+ newline +:+ "pub const HAS_PROC_PAYLOAD: bool = false;" +:+ newline.

Definition link_service (_mode : string) (_features : list string) : T :=
  bin ← exists_ "target/service/hello/hello.bin";
  write_unwrap "target/proc_payload.rs" (payload_source bin);;
  mret (Ok tt).

Definition build (mode : string) (features : list string) : T :=
  build_service mode features;;?
  link_service mode features;;?
  build_kernel mode features;;?
  mret (Ok tt).

(** ** The disk image *)

(** [mkfs] of [Mkfs.v] on the host's files: the program and the environment. *)
Definition mkfs_host : T :=
  elf_data ← gets (fun h => default [] (h_file H h "target/service/hello/hello.elf"));
  match mkfs elf_data (h_env H "GLENDA_RICH_MKFS") File_create with
  | Ret r f => emit (WroteImage f);; mret r
  | Panic why => panic why
  | Hang why => hang why
  end.

(** ** QEMU *)

Definition qemu_cmd : M (list event) (result string string) :=
  mret (match h_which H "qemu-system-riscv64" with
        | Some qemu => Ok qemu
        | None => Err "[ ERROR ] qemu-system-riscv64 not found in PATH"
        end).

(** The arguments both ways of starting QEMU give before [-bios]. *)
Definition machine_args (cpus : Z) (mem display : string) : list string :=
  ["-machine"; "virt"]
  ++ (if (1 <? cpus)%Z then ["-smp"; pretty cpus] else [])
  ++ ["-m"; mem]
  ++ (if display =? "nographic" then ["-nographic"]
      else if display =? "none" then ["-display"; "none"]
      else ["-display"; display])
  ++ ["-drive"; "file=disk.img,if=none,format=raw,id=x0"; "-device"; "virtio-blk-device,drive=x0,bus=virtio-mmio-bus.0"].

Definition qemu (bios_args : list string) (mode : string) (cpus : Z) (mem display : string) : T :=
  let elf := elf_path mode in
  there ← exists_ elf;
  if negb there then mret (Err ("[ ERROR ] ELF not found: " +:+ elf))
  else
    q ← qemu_cmd;
    match q with
    | Err e => mret (Err e)
    | Ok qemu => run (mkCommand qemu (machine_args cpus mem display ++ bios_args ++ ["-kernel"; elf]) None)
    end.
Definition qemu_run : string -> Z -> string -> string -> T := qemu ["-bios"; "default"].
Definition qemu_gdb : string -> Z -> string -> string -> T := qemu ["-bios"; "default"; "-S"; "-s"].

(** ** Inspecting the kernel *)

Definition contains (s part : string) : bool := match String.index 0 part s with Some _ => true | None => false end.

Definition objdump (mode : string) : T :=
  let elf := elf_path mode in
  match (match h_which H "riscv64-elf-objdump" with Some t => Some t | None => h_which H "llvm-objdump" end) with
  | None => mret (Err "[ ERROR ] install objdump first")
  | Some tool =>
      run (mkCommand tool (if contains tool "llvm-objdump" then ["-d"; "--all-headers"; "--source"; elf]
                           else ["-d"; "--all-headers"; "--source"; elf]) None)
  end.

Definition size (mode : string) : T :=
  let elf := elf_path mode in
  match (match h_which H "riscv64-elf-size" with Some t => Some t | None => h_which H "size" end) with
  | None => mret (Err "[ ERROR ] install size first")
  | Some tool => run (mkCommand tool ["-A"; elf] None)
  end.

(** ** [main] *)

Definition with_tests (feats : list string) : list string :=
  if existsb (fun f => f =? "tests") feats then feats else feats ++ ["tests"].

Definition main (xtask : Xtask) : T :=
  let mode := if release xtask then "release" else "debug" in
  match cmd xtask with
  | Build => build mode (features xtask);;? mret (Ok tt)
  | Run cpus mem display =>
      build mode (features xtask);;? mkfs_host;;? qemu_run mode cpus mem display;;? mret (Ok tt)
  | Gdb cpus mem display test =>
      let feats := if test then with_tests (features xtask) else features xtask in
      build mode feats;;? mkfs_host;;? qemu_gdb mode cpus mem display;;? mret (Ok tt)
  | Test_ cpus mem display =>
      let feats := with_tests (features xtask) in
      build mode feats;;? mkfs_host;;? qemu_run mode cpus mem display;;? mret (Ok tt)
  | Objdump => objdump mode;;? mret (Ok tt)
  | Size => size mode;;? mret (Ok tt)
  | Mkfs_ => mkfs_host;;? mret (Ok tt)
  end.

(** ** Plans *)

(** A step: what must hold of the history for it to be taken, and its effect. *)
Record step := mkStep { st_guard : list event -> bool; st_event : list event -> event }.
Abbreviation plan := (list step).

(** Following a plan: each step on top of the effects of those before it. A run
    may stop where a step is not taken or where its command fails, and then
    does nothing further; it succeeds only at the end of the plan. *)
Inductive follows : plan -> list event -> result unit string -> list event -> Prop :=
  | follows_done h : follows [] h (Ok tt) h
  | follows_step st p h r h' : st_guard st h = true -> follows p (h ++ [st_event st h]) r h' -> follows (st :: p) h r h'
  | follows_stop st p h e : follows (st :: p) h (Err e) h
  | follows_fail st p h c e : st_guard st h = true -> st_event st h = Ran c true -> follows (st :: p) h (Err e) (h ++ [Ran c false]).
Create HintDb xtask.
Hint Constructors follows : xtask.

(** The history a plan leads to when every step is taken. *)
Fixpoint outcome_of (p : plan) (h : list event) : list event :=
  match p with [] => h | st :: p' => outcome_of p' (h ++ [st_event st h]) end.
(** Each step can be taken and each command succeeds. *)
Fixpoint smooth (p : plan) (h : list event) : Prop :=
  match p with
  | [] => True
  | st :: p' => st_guard st h = true /\ (forall c, st_event st h = Ran c true -> h_spawn H h c = Some true) /\ smooth p' (h ++ [st_event st h])
  end.

(** [m] carries out the plan [p]: it follows it on every host and completes it
    on one that lets it. *)
Definition carries_out (m : T) (p : plan) : Prop :=
  forall h, wp m (fun r h' => follows p h r h' /\ (smooth p h -> r = Ok tt /\ h' = outcome_of p h)) h.

Lemma follows_app p1 p2 h r h' h1 : follows p1 h (Ok tt) h1 -> follows p2 h1 r h' -> follows (p1 ++ p2) h r h'.
Proof.
  intros H1. remember (Ok tt) as ok eqn:Hok. induction H1; intros H2; simplify_eq; cbn [app]; auto with xtask.
Qed.

Lemma follows_err p1 p2 h e h' : follows p1 h (Err e) h' -> follows (p1 ++ p2) h (Err e) h'.
Proof. intros H1. remember (Err e) as r eqn:Hr. induction H1; simplify_eq; cbn [app]; eauto with xtask. Qed.

Lemma smooth_app p1 p2 : forall h, smooth (p1 ++ p2) h <-> smooth p1 h /\ smooth p2 (outcome_of p1 h).
Proof. induction p1 as [|st p1 IH]; intros h; simpl; [tauto|]. rewrite IH. tauto. Qed.

Lemma outcome_app p1 p2 : forall h, outcome_of (p1 ++ p2) h = outcome_of p2 (outcome_of p1 h).
Proof. induction p1 as [|st p1 IH]; intros h; simpl; [done|apply IH]. Qed.

(** [m1?; m2] carries out one plan after the other. *)
Lemma carries_seq m1 m2 p1 p2 : carries_out m1 p1 -> carries_out m2 p2 -> carries_out (m1;;? m2) (p1 ++ p2).
Proof.
  intros H1 H2 h. wp_step. eapply wp_mono; [|apply H1]. intros [[]|e] h1 [Hf Hs].
  - eapply wp_mono; [|apply H2]. intros r h2 [Hf2 Hs2]. split; [by eapply follows_app|]. rewrite smooth_app, outcome_app.
    intros [Hsm1 Hsm2]. destruct (Hs Hsm1) as [_ ->]. by apply Hs2.
  - apply wp_ret. split; [by apply follows_err|]. rewrite smooth_app. intros [Hsm1 _]. by destruct (Hs Hsm1) as [? _].
Qed.

Lemma carries_ret : carries_out (mret (Ok tt)) [].
Proof. intros h. apply wp_ret. split; [constructor|done]. Qed.

(** [m?; Ok(())] is [m]. *)
Lemma carries_last m p : carries_out m p -> carries_out (m;;? mret (Ok tt)) p.
Proof. intros Hm. rewrite <-(app_nil_r p). apply carries_seq; [done|apply carries_ret]. Qed.

Definition run_step (guard : list event -> bool) (c : Command) : step := mkStep guard (fun _ => Ran c true).

Lemma wp_run_step c guard h : guard h = true -> wp (run c) (fun r h' => follows [run_step guard c] h r h' /\
  (smooth [run_step guard c] h -> r = Ok tt /\ h' = outcome_of [run_step guard c] h)) h.
Proof.
  intros Hg. unfold run, emit. wp_step. wp_step. destruct (h_spawn H h c) as [[]|] eqn:Hs; cbn [negb]; wp_steps.
  - split; [|done]. apply (follows_step _ [] h); [done|]. apply follows_done.
  - split; [by apply (follows_fail (run_step guard c))|]. intros (_ & Hr & _). specialize (Hr c eq_refl). congruence.
  - split; [apply follows_stop|]. intros (_ & Hr & _). specialize (Hr c eq_refl). congruence.
Qed.

Lemma carries_run c : carries_out (run c) [run_step (fun _ => true) c].
Proof. intros h. by apply wp_run_step. Qed.

(** ** The plan of each subcommand *)

Definition manifest_dir : string := default "xtask" (h_env H "CARGO_MANIFEST_DIR").
Definition file_there (path : string) (h : list event) : bool := match h_file H h path with Some _ => true | None => false end.
Definition cargo_build (mode : string) (features : list string) : Command :=
  mkCommand "cargo" (["build"; "-p"; "kernel"; "--target"; "riscv64gc-unknown-none-elf"]
    ++ (if mode =? "release" then ["--release"] else [])
    ++ (match features with [] => [] | _ => ["--features"; String.concat "," features] end)) None.
Definition always (e : list event -> event) : step := mkStep (fun _ => true) e.

Definition build_plan (mode : string) (features : list string) : plan :=
  [always (fun _ => MadeDir (manifest_dir +:+ "/../target/service/hello"));
   run_step (fun _ => true) (mkCommand "make" ["CROSS_COMPILE=riscv64-unknown-elf-"] (Some (manifest_dir +:+ "/../service/hello")));
   always (fun h => Wrote "target/proc_payload.rs" (payload_source (file_there "target/service/hello/hello.bin" h)));
   run_step (fun _ => true) (cargo_build mode features)].

(** The image [mkfs] writes for the program on the host. *)
Definition program_of (h : list event) : list Z := default [] (h_file H h "target/service/hello/hello.elf").
Definition image_of (h : list event) : image := Prelude.final (mkfs (program_of h) (h_env H "GLENDA_RICH_MKFS")) File_create.
Definition image_step : step := always (fun h => WroteImage (image_of h)).

Definition qemu_step (bios_args : list string) (mode : string) (cpus : Z) (mem display : string) : step :=
  run_step (fun h => file_there (elf_path mode) h && (match h_which H "qemu-system-riscv64" with Some _ => true | None => false end))
    (mkCommand (default "qemu-system-riscv64" (h_which H "qemu-system-riscv64"))
       (machine_args cpus mem display ++ bios_args ++ ["-kernel"; elf_path mode]) None).

Definition tool_step (first second : string) (args : list string) : step :=
  run_step (fun _ => match h_which H first, h_which H second with None, None => false | _, _ => true end)
    (mkCommand (default second (from_option Some (h_which H second) (h_which H first))) args None).

Definition mode_of (x : Xtask) : string := if release x then "release" else "debug".
Definition boot_plan (feats : list string) (bios_args : list string) (x : Xtask) (cpus : Z) (mem display : string) : plan :=
  build_plan (mode_of x) feats ++ [image_step] ++ [qemu_step bios_args (mode_of x) cpus mem display].
Definition plan_of (x : Xtask) : plan :=
  match cmd x with
  | Build => build_plan (mode_of x) (features x)
  | Run cpus mem display => boot_plan (features x) ["-bios"; "default"] x cpus mem display
  | Gdb cpus mem display test =>
      boot_plan (if test then with_tests (features x) else features x) ["-bios"; "default"; "-S"; "-s"] x cpus mem display
  | Test_ cpus mem display => boot_plan (with_tests (features x)) ["-bios"; "default"] x cpus mem display
  | Objdump => [tool_step "riscv64-elf-objdump" "llvm-objdump" ["-d"; "--all-headers"; "--source"; elf_path (mode_of x)]]
  | Size => [tool_step "riscv64-elf-size" "size" ["-A"; elf_path (mode_of x)]]
  | Mkfs_ => [image_step]
  end.

(** ** The driver carries out its plans *)

Section writable.
Context (Hwrite : forall h path, h_write H h path = true).
Context (Hsmall : forall h, elf_blocks (program_of h) <= 996).

Lemma carries_build mode feats : carries_out (build mode feats) (build_plan mode feats).
Proof.
  unfold build. apply (carries_seq _ _ (take 2 (build_plan mode feats)) (drop 2 (build_plan mode feats))).
  - intros h. unfold build_service, create_dir_all_unwrap, emit. wp_steps. rewrite Hwrite. wp_steps.
    eapply wp_mono; [|by apply (wp_run_step _ (fun _ => true))]. intros r h' [Hf Hs]. split; [by apply follows_step|].
    cbn [smooth take build_plan]. intros (_ & _ & Hsm). by apply Hs.
  - apply (carries_seq _ _ (take 1 (drop 2 (build_plan mode feats))) (drop 3 (build_plan mode feats))).
    + intros h. unfold link_service, write_unwrap, exists_, emit. wp_steps. rewrite Hwrite. wp_steps. split; [|done].
      apply follows_step; [done|]. apply follows_done.
    + apply carries_last, carries_run.
Qed.

Lemma carries_mkfs : carries_out (mkfs_host) [image_step].
Proof.
  intros h. unfold mkfs_host, emit. wp_step. wp_step. fold (program_of h).
  pose proof (wp_mkfs (program_of h) (h_env H "GLENDA_RICH_MKFS") (fun r _ => r = Ok tt) (Hsmall h) ltac:(done)) as Hm.
  unfold wp in Hm at 1. destruct (mkfs (program_of h) _ File_create) as [r f| |] eqn:Hrun; [|done..]. subst r.
  assert (Hf : image_of h = f) by (unfold image_of, Prelude.final; by rewrite Hrun). wp_steps. rewrite <-Hf. split; [|done].
  apply (follows_step image_step []); [done|]. apply follows_done.
Qed.

Lemma carries_qemu bios mode cpus mem display : carries_out (qemu bios mode cpus mem display) [qemu_step bios mode cpus mem display].
Proof.
  intros h. unfold qemu, exists_, qemu_cmd. wp_step. wp_step. fold (file_there (elf_path mode) h).
  destruct (file_there (elf_path mode) h) eqn:Helf; cbn [negb]; wp_steps.
  2:{ split; [apply follows_stop|]. intros [Hg _]. simpl in Hg. by rewrite Helf in Hg. }
  unfold qemu_step. destruct (h_which H "qemu-system-riscv64") as [q|] eqn:Hq; wp_steps.
  - apply wp_run_step. by rewrite Helf.
  - split; [apply follows_stop|]. intros [Hg _]. simpl in Hg. by rewrite andb_false_r in Hg.
Qed.

Lemma carries_tool first second args e :
  carries_out (match (match h_which H first with Some t => Some t | None => h_which H second end) with
               | None => mret (Err e)
               | Some tool => run (mkCommand tool args None)
               end) [tool_step first second args].
Proof.
  intros h. unfold tool_step. destruct (h_which H first) as [t|] eqn:H1; cbn [from_option default]; [by apply wp_run_step|].
  destruct (h_which H second) as [t|] eqn:H2; [by apply wp_run_step|]. wp_steps. split; [apply follows_stop|]. by intros [Hg _].
Qed.

Lemma carries_boot mode feats bios cpus mem display :
  carries_out (build mode feats;;? mkfs_host;;? qemu bios mode cpus mem display;;? mret (Ok tt))
    (build_plan mode feats ++ [image_step] ++ [qemu_step bios mode cpus mem display]).
Proof.
  apply carries_seq; [apply carries_build|]. apply carries_seq; [apply carries_mkfs|]. apply carries_last, carries_qemu.
Qed.

Lemma carries_main x : carries_out (main x) (plan_of x).
Proof.
  unfold main, plan_of. fold (mode_of x). destruct (cmd x) as [|cpus mem display|cpus mem display|cpus mem display test| | |].
  - apply carries_last, carries_build.
  - apply carries_boot.
  - apply carries_boot.
  - apply carries_boot.
  - apply carries_last. intros h. pose proof (carries_tool "riscv64-elf-objdump" "llvm-objdump"
      ["-d"; "--all-headers"; "--source"; elf_path (mode_of x)] "[ ERROR ] install objdump first" h) as Hc.
    unfold objdump. destruct (match h_which H "riscv64-elf-objdump" with Some t => Some t | None => _ end) as [t|]; [|exact Hc].
    by destruct (contains t "llvm-objdump").
  - apply carries_last, carries_tool.
  - apply carries_last, carries_mkfs.
Qed.
End writable.

(** ** What is started when *)

Lemma follows_grows p h r h' : follows p h r h' -> exists evs, h' = h ++ evs.
Proof.
  induction 1 as [h|st p h r h' _ _ [evs ->]|st p h e|st p h c e _ _]; [exists []; by rewrite app_nil_r| |exists []; by rewrite app_nil_r|by eexists].
  rewrite <-app_assoc. by eexists.
Qed.

(** A run that got past the first steps of a plan did all of them. *)
Lemma follows_past p1 : forall p2 h r h', follows (p1 ++ p2) h r h' -> (length h + length p1 < length h')%nat ->
  exists evs, h' = outcome_of p1 h ++ evs.
Proof.
  induction p1 as [|st p1 IH]; intros p2 h r h' Hf Hlen; [by apply follows_grows in Hf|]. cbn [app length outcome_of] in *.
  inversion Hf as [|? ? ? ? ? _ Hrest|? ? ? ?|? ? ? ? ? _ _]; subst.
  - eapply IH; [done|]. rewrite length_app. simpl. lia.
  - lia.
  - rewrite length_app in Hlen. simpl in Hlen. lia.
Qed.
End host.

(** QEMU starts on a kernel that was just built and an image that was just
    written: a run that got further than those steps took all of them. *)
Lemma qemu_last H x cpus mem display h r h' : cmd x = Run cpus mem display -> follows (plan_of H x) h r h' ->
  (length h + 5 < length h')%nat -> exists evs, h' = outcome_of (build_plan H (mode_of x) (features x) ++ [image_step H]) h ++ evs.
Proof.
  intros Hc Hf Hlen. unfold plan_of, boot_plan in Hf. rewrite Hc, app_assoc in Hf. by apply follows_past in Hf.
Qed.

(** ** Properties *)

(** C31: every subcommand of the build driver carries out its plan, on any host
    that lets it write its files and whose program fits the image: the service
    is built before its payload is linked and before the kernel is, the disk
    image is written from the program just built, QEMU is started only on a
    kernel that is there, with the image attached, and last; a tool that is
    missing or fails ends the run with an error and nothing after it is done;
    and when every tool is there and succeeds the run ends well, having done
    the whole plan. *)
Theorem xtask_correct H x :
  (forall h path, h_write H h path = true) -> (forall h, elf_blocks (program_of H h) <= 996) ->
  forall h, wp (main H x) (fun r h' => follows (plan_of H x) h r h' /\
    (smooth H (plan_of H x) h -> r = Ok tt /\ h' = outcome_of (plan_of H x) h)) h.
Proof. intros Hw Hs. by apply carries_main. Qed.

Definition demo_host : Host :=
  mkHost (fun tool => Some tool) (fun _ => None) (fun _ path => if path =? elf_path "debug" then Some [] else None) (fun _ _ => true) (fun _ _ => Some true).

Lemma xtask_correct_witness :
  wp (main demo_host (mkXtask false ["tests"] (Test_ 4 "128M" "none"))) (fun r h' => r = Ok tt /\ length h' = 6%nat /\
    last h' = Some (Ran (mkCommand "qemu-system-riscv64" ["-machine"; "virt"; "-smp"; "4"; "-m"; "128M"; "-display"; "none"; "-drive";
      "file=disk.img,if=none,format=raw,id=x0"; "-device"; "virtio-blk-device,drive=x0,bus=virtio-mmio-bus.0"; "-bios"; "default";
      "-kernel"; "target/riscv64gc-unknown-none-elf/debug/kernel"] None) true)) [].
Proof.
  eapply wp_mono; [|apply (xtask_correct demo_host (mkXtask false ["tests"] (Test_ 4 "128M" "none")))].
  - intros r h' [_ Hs]. destruct Hs as [-> ->]; [|split; [reflexivity|split; reflexivity]].
    cbn. split_and!; try reflexivity; intros c _; reflexivity.
  - reflexivity.
  - intros h. vm_compute. discriminate.
Defined.
