(* ===== verification/FileTable.v ===== *)
(** * Open files ([fs/file.rs])

    The global file table, and the state a file-system call works on: the file
    system, physical memory, the file table and the parts of the calling
    process it uses. *)
From stdpp Require Import functions.
From S2P Require Import Prelude Addr PhysMem PageTable MmapWarehouse Uvm.
From S2P Require Import Lru BufferCache FsState Bitmap InodeLayer Directory.

Definition NFILE : nat := 128.
Definition NOFILE : nat := 32.

Inductive FileType := FtNone | FtInode | FtDevice (fmajor fminor : Z) | FtPipe.

Record File := mkFile {
  fty : FileType; readable : bool; writable : bool; foff : Z; finum : Z; frefcnt : Z;
}.
Definition File_new : File := mkFile FtNone false false 0 0 0.
Definition set_fty x f := mkFile x (readable f) (writable f) (foff f) (finum f) (frefcnt f).
Definition set_foff x f := mkFile (fty f) (readable f) (writable f) x (finum f) (frefcnt f).
Definition set_frefcnt x f := mkFile (fty f) (readable f) (writable f) (foff f) (finum f) x.

Definition FileTable : Type := nat -> File.
Definition upd_file (i : nat) (f : File -> File) (t : FileTable) : FileTable := <[i := f (t i)]> t.

(** [table.files[i]]: out of range panics. *)
Definition file_at (i : nat) : M FileTable File :=
  if (i <? NFILE)%nat then gets (fun t => t i) else panic "index out of bounds".

Definition file_alloc : M FileTable (option nat) :=
  r ← for_each (seq 0 NFILE) (fun (_ : unit) i =>
    f ← file_at i;
    if frefcnt f =? 0 then
      modify (upd_file i (fun f => set_foff 0 (set_frefcnt 1 f)));;
      mret (inr i)
    else mret (inl tt)) tt;
  match r with
  | inr i => mret (Some i)
  | inl _ => mret None
  end.

Definition file_dup (i : nat) : M FileTable unit :=
  f ← file_at i;
  if frefcnt f <? 1 then panic "file_dup: trying to dup a free file"
  else
    r ← uadd32 (frefcnt f) 1;
    modify (upd_file i (set_frefcnt r)).

(** The part of [file_close] under the table lock: the inode to put, when this
    was the last reference to an inode file. *)
Definition file_close_entry (i : nat) : M FileTable (option Z) :=
  f ← file_at i;
  if frefcnt f <? 1 then panic "file_close: already free"
  else
    let r := frefcnt f - 1 in
    modify (upd_file i (set_frefcnt r));;
    if 0 <? r then mret None
    else
      modify (upd_file i (set_fty FtNone));;
      mret (match fty f with FtInode => Some (finum f) | _ => None end).

(** [Stat] and [Dirent] as the bytes user space gets *)
Definition encode_stat (n : Inode) : list Z :=
  le_bytes 2 (type_ (idisk n)) ++ le_bytes 2 (nlink (idisk n)) ++ le_bytes 4 (size (idisk n)) ++
  le_bytes 2 (major (idisk n)) ++ le_bytes 2 (minor (idisk n)) ++ le_bytes 4 (inode_num n).
Definition encode_dirent (d : DentryDisk) : list Z := dname d ++ le_bytes 4 (dinum d).

Section kernel.
Context {D : Type} `{!BlockDevice D}.

Record kernel := mkKernel {
  kfs : fsys D;                     (** buffer cache, superblock, inode cache *)
  kpm : pmem;                       (** physical memory *)
  ftable : FileTable;               (** [FILE_TABLE] *)
  cwd : Z;                          (** the process: [cwd] *)
  open_files : nat -> option nat;   (** [open_files] *)
  root_pt_pa : Z;                   (** [root_pt_pa] *)
}.
Definition set_kfs x k := mkKernel x (kpm k) (ftable k) (cwd k) (open_files k) (root_pt_pa k).
Definition set_kpm x k := mkKernel (kfs k) x (ftable k) (cwd k) (open_files k) (root_pt_pa k).
Definition set_ftable x k := mkKernel (kfs k) (kpm k) x (cwd k) (open_files k) (root_pt_pa k).
Definition set_cwd x k := mkKernel (kfs k) (kpm k) (ftable k) x (open_files k) (root_pt_pa k).
Definition set_open_files x k := mkKernel (kfs k) (kpm k) (ftable k) (cwd k) x (root_pt_pa k).

Definition on_fs {A} (m : M (fsys D) A) : M kernel A := zoom kfs set_kfs m.
Definition on_mem {A} (m : M pmem A) : M kernel A := zoom kpm set_kpm m.
Definition on_files {A} (m : M FileTable A) : M kernel A := zoom ftable set_ftable m.

Definition file_close (f_idx : nat) : M kernel unit :=
  o ← on_files (file_close_entry f_idx);
  match o with
  | Some inum =>
      ip ← on_fs (inode_get inum);
      on_fs (inode_put ip);;
      on_fs (inode_put ip)
  | None => mret tt
  end.

(** [p.open_files[fd]] for [fd < NOFILE], [Err(())] when there is none. *)
Definition get_fd (fd : Z) : M kernel (option nat) :=
  if Z.of_nat NOFILE <=? fd then mret None else gets (fun k => open_files k (Z.to_nat fd)).

Definition set_fd (fd : nat) (x : option nat) : M kernel unit :=
  modify (fun k => set_open_files (<[fd := x]> (open_files k)) k).

(** [for fd in 0..NOFILE]: the first unused descriptor takes [f_idx]. *)
Definition install_fd (f_idx : nat) : M kernel (option nat) :=
  r ← for_each (seq 0 NOFILE) (fun (_ : unit) fd =>
    o ← gets (fun k => open_files k fd);
    match o with
    | None => set_fd fd (Some f_idx);; mret (inr fd)
    | Some _ => mret (inl tt)
    end) tt;
  match r with
  | inr fd => mret (Some fd)
  | inl _ => mret None
  end.
End kernel.
Arguments kernel : clear implicits.
