(* ===== verification/FsSyscall.v ===== *)
(** * File-system calls ([syscall/fs.rs])

    Each [fs_*] routine on the calling process, and the [sys_*] handlers, whose
    arguments are the registers [a0], [a1], ... of the trap context. *)
From stdpp Require Import functions.
From S2P Require Import Prelude Addr PhysMem PageTable MmapWarehouse Uvm.
From S2P Require Import Lru BufferCache FsState Bitmap InodeLayer Directory FileTable.

(** [i32] addition of the debug profile *)
Definition iadd32 {S} (x y : Z) : M S Z :=
  if (- 2 ^ 31 <=? x + y) && (x + y <? 2 ^ 31) then mret (x + y)
  else panic "attempt to add with overflow".

Definition flag (flags mask : Z) : bool := negb (Z.land flags mask =? 0).
Definition O_CREAT : Z := 0x40.
Definition O_TRUNC : Z := 0x200.
Definition MAX_PATH : nat := 256.
Definition IOBUF : Z := 512.

(** [name.iter().position(|&b| b == 0).unwrap_or(name.len())], as a slice *)
Definition until_zero (bs : list Z) : list Z := take (skip_while (fun b => negb (Z.eqb b 0)) bs) bs.

(** Rounds of a 512-byte transfer loop: file offsets are 32-bit. *)
Definition io_fuel (len : Z) : nat := Z.to_nat (Z.min len U32 / IOBUF + 3).

Section syscalls.
Context {D : Type} `{!BlockDevice D}.
Implicit Types (fd : Z) (path : list Z).

Definition the_file (i : nat) : M (kernel D) File := on_files (file_at i).
Definition upd_the_file (i : nat) (f : File -> File) : M (kernel D) unit := on_files (modify (upd_file i f)).
Definition root_pt : M (kernel D) Z := gets root_pt_pa.
Definition k_inode (ip : nat) : M (kernel D) Inode := on_fs (the_inode ip).
Definition fd_error {A} : M (kernel D) (result A unit) := mret (Err tt).

(** ** The process-level routines *)

(** The inode [fs_open] works on: found, or created under its parent. *)
Definition open_inode (path : list Z) (o_creat : bool) : M (kernel D) (option nat) :=
  c ← gets cwd;
  if o_creat then
    r ← on_fs (path_to_parent_inode_at c path (replicate MAXLEN_FILENAME 0));
    match r with
    | None => mret None
    | Some (parent, name_buf) =>
        let name := until_zero name_buf in
        if (length name =? 0)%nat then
          on_fs (inode_put parent);;
          mret None
        else
          found ← on_fs (dentry_search parent name);
          match found with
          | Some inum =>
              on_fs (inode_put parent);;
              ip ← on_fs (inode_get inum);
              mret (Some ip)
          | None =>
              ip ← on_fs (inode_create INODE_TYPE_DATA 0 0);
              n ← k_inode ip;
              on_fs (dentry_create parent (inode_num n) name);;
              on_fs (inode_put parent);;
              mret (Some ip)
          end
    end
  else on_fs (path_to_inode_at c path).

Definition fs_open (path : list Z) (flags : Z) : M (kernel D) (result Z unit) :=
  o ← open_inode path (flag flags O_CREAT);
  match o with
  | None => fd_error
  | Some ip =>
      n ← k_inode ip;
      if (type_ (idisk n) =? INODE_TYPE_DIR) && flag flags 3 then
        on_fs (inode_put ip);;
        fd_error
      else
        (if flag flags O_TRUNC && (type_ (idisk n) =? INODE_TYPE_DATA) then
           on_fs (upd_disk ip (set_size 0));;
           on_fs (inode_rw ip true)
         else mret tt);;
        a ← on_files file_alloc;
        match a with
        | None => fd_error
        | Some f_idx =>
            upd_the_file f_idx (fun f => mkFile FtInode (negb (Z.land flags 3 =? 1)) (flag flags 3)
              0 (inode_num n) (frefcnt f));;
            r ← install_fd f_idx;
            match r with
            | Some fd => mret (Ok (Z.of_nat fd))
            | None =>
                file_close f_idx;;
                fd_error
            end
        end
  end.

Definition fs_close (fd : Z) : M (kernel D) (result unit unit) :=
  o ← get_fd fd;
  match o with
  | None => fd_error
  | Some f_idx =>
      file_close f_idx;;
      set_fd (Z.to_nat fd) None;;
      mret (Ok tt)
  end.

(** [fs_read]: the file table stays locked throughout; [kbuf] is the kernel's
    512-byte buffer. *)
Definition fs_read (fd u_dst len : Z) : M (kernel D) (result Z unit) :=
  o ← get_fd fd;
  match o with
  | None => fd_error
  | Some f_idx =>
      f ← the_file f_idx;
      if negb (readable f) then fd_error
      else
        ip ← on_fs (inode_get (finum f));
        pt ← root_pt;
        loop (io_fuel len) (fun '(total_read, kbuf) =>
          if total_read <? len then
            let chunk_len := Z.min (len - total_read) IOBUF in
            f ← the_file f_idx;
            '(rd, dst) ← on_fs (inode_read_data ip (foff f) chunk_len (take (Z.to_nat chunk_len) kbuf));
            if rd =? 0 then
              on_fs (inode_put ip);;
              mret (inr (Ok total_read))
            else
              u ← uadd u_dst total_read;
              e ← on_mem (copyout pt u (take (Z.to_nat rd) dst));
              match e with
              | Some _ =>
                  on_fs (inode_put ip);;
                  mret (inr (Err tt))
              | None =>
                  total' ← uadd total_read rd;
                  off' ← uadd32 (foff f) rd;
                  upd_the_file f_idx (set_foff off');;
                  if rd <? chunk_len then
                    on_fs (inode_put ip);;
                    mret (inr (Ok total'))
                  else mret (inl (total', dst ++ drop (Z.to_nat chunk_len) kbuf))
              end
          else
            on_fs (inode_put ip);;
            mret (inr (Ok total_read))) (0, replicate (Z.to_nat IOBUF) 0)
  end.

Definition fs_write (fd u_src len : Z) : M (kernel D) (result Z unit) :=
  o ← get_fd fd;
  match o with
  | None => fd_error
  | Some f_idx =>
      f ← the_file f_idx;
      if negb (writable f) then fd_error
      else
        ip ← on_fs (inode_get (finum f));
        pt ← root_pt;
        loop (io_fuel len) (fun '(total_written, kbuf) =>
          if total_written <? len then
            let chunk_len := Z.min (len - total_written) IOBUF in
            u ← uadd u_src total_written;
            '(src, e) ← on_mem (copyin pt (take (Z.to_nat chunk_len) kbuf) u);
            match e with
            | Some _ =>
                on_fs (inode_put ip);;
                mret (inr (Err tt))
            | None =>
                f ← the_file f_idx;
                written ← on_fs (inode_write_data ip (foff f) chunk_len src);
                total' ← uadd total_written written;
                off' ← uadd32 (foff f) written;
                upd_the_file f_idx (set_foff off');;
                if written <? chunk_len then
                  on_fs (inode_put ip);;
                  mret (inr (Ok total'))
                else mret (inl (total', src ++ drop (Z.to_nat chunk_len) kbuf))
            end
          else
            on_fs (inode_put ip);;
            mret (inr (Ok total_written))) (0, replicate (Z.to_nat IOBUF) 0)
  end.

Definition fs_lseek (fd off whence : Z) : M (kernel D) (result Z unit) :=
  o ← get_fd fd;
  match o with
  | None => fd_error
  | Some f_idx =>
      f ← the_file f_idx;
      ip ← on_fs (inode_get (finum f));
      n ← k_inode ip;
      let sz := as_i32 (size (idisk n)) in
      on_fs (inode_put ip);;
      new_off ← (if whence =? 0 then mret (Some off)
                 else if whence =? 1 then x ← iadd32 (as_i32 (foff f)) off; mret (Some x)
                 else if whence =? 2 then x ← iadd32 sz off; mret (Some x)
                 else mret None);
      match new_off with
      | None => fd_error
      | Some x =>
          if x <? 0 then fd_error
          else
            upd_the_file f_idx (set_foff x);;
            mret (Ok x)
      end
  end.

Definition fs_dup (fd : Z) : M (kernel D) (result Z unit) :=
  o ← get_fd fd;
  match o with
  | None => fd_error
  | Some f_idx =>
      f ← the_file f_idx;
      r ← uadd32 (frefcnt f) 1;
      upd_the_file f_idx (set_frefcnt r);;
      i ← install_fd f_idx;
      match i with
      | Some new_fd => mret (Ok (Z.of_nat new_fd))
      | None =>
          f' ← the_file f_idx;
          r' ← usub32 (frefcnt f') 1;
          upd_the_file f_idx (set_frefcnt r');;
          fd_error
      end
  end.

Definition fs_fstat (fd u_stat : Z) : M (kernel D) (result unit unit) :=
  o ← get_fd fd;
  match o with
  | None => fd_error
  | Some f_idx =>
      f ← the_file f_idx;
      ip ← on_fs (inode_get (finum f));
      n ← k_inode ip;
      on_fs (inode_put ip);;
      pt ← root_pt;
      e ← on_mem (copyout pt u_stat (encode_stat n));
      mret (if e is Some _ then Err tt else Ok tt)
  end.

(** The parent directory of a path and the name under it; an empty name is an
    error. The caller puts the parent. *)
Definition parent_and_name (path : list Z) : M (kernel D) (option (nat * list Z)) :=
  c ← gets cwd;
  r ← on_fs (path_to_parent_inode_at c path (replicate MAXLEN_FILENAME 0));
  mret (r ← r; let '(parent, name_buf) := r in Some (parent, until_zero name_buf)).

Definition fs_mkdir (path : list Z) : M (kernel D) (result unit unit) :=
  r ← parent_and_name path;
  match r with
  | None => fd_error
  | Some (parent, name) =>
      if (length name =? 0)%nat then
        on_fs (inode_put parent);;
        fd_error
      else
        found ← on_fs (dentry_search parent name);
        match found with
        | Some _ =>
            on_fs (inode_put parent);;
            fd_error
        | None =>
            ip ← on_fs (inode_create INODE_TYPE_DIR 0 0);
            on_fs (upd_disk ip (set_nlink 2));;
            on_fs (inode_rw ip true);;
            n ← k_inode ip;
            on_fs (dentry_create parent (inode_num n) name);;
            on_fs (inode_put ip);;
            on_fs (inode_put parent);;
            mret (Ok tt)
        end
  end.

Definition fs_chdir (path : list Z) : M (kernel D) (result unit unit) :=
  c ← gets cwd;
  o ← on_fs (path_to_inode_at c path);
  match o with
  | None => fd_error
  | Some ip =>
      n ← k_inode ip;
      if negb (type_ (idisk n) =? INODE_TYPE_DIR) then
        on_fs (inode_put ip);;
        fd_error
      else
        modify (set_cwd (inode_num n));;
        on_fs (inode_put ip);;
        mret (Ok tt)
  end.

(** [nlink] is a [u16]. *)
Definition add_nlink (ip : nat) (x : Z) : M (kernel D) unit :=
  n ← k_inode ip;
  l ← checked U16 (if x <? 0 then "subtract" else "add") (nlink (idisk n) + x);
  on_fs (upd_disk ip (set_nlink l)).

Definition fs_link (old_path new_path : list Z) : M (kernel D) (result unit unit) :=
  c ← gets cwd;
  o ← on_fs (path_to_inode_at c old_path);
  match o with
  | None => fd_error
  | Some old_ip =>
      n ← k_inode old_ip;
      if type_ (idisk n) =? INODE_TYPE_DIR then
        on_fs (inode_put old_ip);;
        fd_error
      else
        r ← parent_and_name new_path;
        match r with
        | None =>
            on_fs (inode_put old_ip);;
            fd_error
        | Some (parent, name) =>
            bad ← (if (length name =? 0)%nat then mret true
                   else found ← on_fs (dentry_search parent name); mret (if found is Some _ then true else false));
            if bad : bool then
              on_fs (inode_put parent);;
              on_fs (inode_put old_ip);;
              fd_error
            else
              on_fs (dentry_create parent (inode_num n) name);;
              add_nlink old_ip 1;;
              on_fs (inode_rw old_ip true);;
              on_fs (inode_put parent);;
              on_fs (inode_put old_ip);;
              mret (Ok tt)
        end
  end.

Definition fs_unlink (path : list Z) : M (kernel D) (result unit unit) :=
  r ← parent_and_name path;
  match r with
  | None => fd_error
  | Some (parent, name) =>
      if (length name =? 0)%nat then
        on_fs (inode_put parent);;
        fd_error
      else
        found ← on_fs (dentry_search parent name);
        match found with
        | None =>
            on_fs (inode_put parent);;
            fd_error
        | Some inum =>
            ip ← on_fs (inode_get inum);
            n ← k_inode ip;
            if type_ (idisk n) =? INODE_TYPE_DIR then
              on_fs (inode_put ip);;
              on_fs (inode_put parent);;
              fd_error
            else
              on_fs (dentry_delete parent name);;
              add_nlink ip (-1);;
              on_fs (inode_rw ip true);;
              on_fs (inode_put ip);;
              on_fs (inode_put parent);;
              mret (Ok tt)
        end
  end.

Definition fs_get_dentries (fd u_buf max : Z) : M (kernel D) (result Z unit) :=
  o ← get_fd fd;
  match o with
  | None => fd_error
  | Some f_idx =>
      f ← the_file f_idx;
      ip ← on_fs (inode_get (finum f));
      n ← k_inode ip;
      if negb (type_ (idisk n) =? INODE_TYPE_DIR) then
        on_fs (inode_put ip);;
        fd_error
      else
        pt ← root_pt;
        count ← loop (scan_fuel (size (idisk n))) (fun '(count, off, kbuf) =>
          n ← k_inode ip;
          if (off <? size (idisk n)) && (count <? max) then
            '(rd, kbuf') ← on_fs (inode_read_data ip off DENTRY_SIZE kbuf);
            if negb (rd =? DENTRY_SIZE) then mret (inr count)
            else
              let dd := decode_dentry kbuf' in
              c ← (if negb (nth 0 (dname dd) 0 =? 0) then
                     skip ← umul count DENTRY_SIZE;
                     u ← uadd u_buf skip;
                     e ← on_mem (copyout pt u (encode_dirent dd));
                     mret (if e is Some _ then None else Some (count + 1))
                   else mret (Some count));
              match c with
              | None => mret (inr count)
              | Some count' =>
                  off' ← uadd32 off DENTRY_SIZE;
                  mret (inl (count', off', kbuf'))
              end
          else mret (inr count)) (0, 0, replicate (Z.to_nat DENTRY_SIZE) 0);
        on_fs (inode_put ip);;
        mret (Ok count)
  end.

(** ** The handlers *)

(** [match r { Ok(x) => f x, Err(_) => usize::MAX }] *)
Definition or_max {A} (f : A -> Z) (r : result A unit) : Z :=
  match r with Ok x => f x | Err _ => USIZE_MAX end.

Definition sys_alloc_block : M (kernel D) Z := on_fs bitmap_alloc.
Definition sys_free_block (a0 : Z) : M (kernel D) Z := on_fs (bitmap_free (wrap32 a0));; mret 0.
Definition sys_alloc_inode : M (kernel D) Z := on_fs inode_alloc.
Definition sys_free_inode (a0 : Z) : M (kernel D) Z := on_fs (inode_free (wrap32 a0));; mret 0.
Definition sys_show_bitmap : M (kernel D) Z := mret 0.
Definition sys_flush_buffer : M (kernel D) Z := mret 0.

Definition sys_get_block (a0 : Z) : M (kernel D) Z :=
  b ← on_fs (buf (buffer_read 0 (wrap32 a0)));
  mret (Z.of_nat b).

Definition sys_read_block (a0 a1 : Z) : M (kernel D) Z :=
  d ← on_fs (buf (load_data (Z.to_nat a0)));
  pt ← root_pt;
  e ← on_mem (copyout pt a1 d);
  mret (if e is Some _ then USIZE_MAX else 0).

(** The copy goes straight into the cached block, also when it fails midway. *)
Definition sys_write_block (a0 a1 : Z) : M (kernel D) Z :=
  d ← on_fs (buf (load_data (Z.to_nat a0)));
  pt ← root_pt;
  '(d', e) ← on_mem (copyin pt d a1);
  on_fs (buf (store_data (Z.to_nat a0) d'));;
  match e with
  | None =>
      on_fs (buf (buffer_write (Z.to_nat a0)));;
      mret 0
  | Some _ => mret USIZE_MAX
  end.

Definition sys_put_block (a0 : Z) : M (kernel D) Z :=
  on_fs (buf (buffer_release (Z.to_nat a0)));;
  mret 0.

Definition sys_inode_create (a0 a1 a2 : Z) : M (kernel D) Z :=
  ip ← on_fs (inode_create (Z.land a0 0xFFFF) (Z.land a1 0xFFFF) (Z.land a2 0xFFFF));
  n ← k_inode ip;
  mret (inode_num n).

Definition sys_inode_dup (a0 : Z) : M (kernel D) Z :=
  ip ← on_fs (inode_get (wrap32 a0));
  on_fs (inode_dup ip);;
  n ← k_inode ip;
  on_fs (inode_put ip);;
  mret (irefcnt n).

Definition sys_inode_put (a0 : Z) : M (kernel D) Z :=
  ip ← on_fs (inode_get (wrap32 a0));
  on_fs (inode_put ip);;
  mret 0.

Definition sys_inode_set_nlink (a0 a1 : Z) : M (kernel D) Z :=
  ip ← on_fs (inode_get (wrap32 a0));
  on_fs (upd_disk ip (set_nlink (Z.land a1 0xFFFF)));;
  on_fs (inode_rw ip true);;
  on_fs (inode_put ip);;
  mret 0.

Definition sys_inode_get_refcnt (a0 : Z) : M (kernel D) Z :=
  r ← on_fs (for_each (seq 0 N_INODE) (fun (_ : unit) i =>
    n ← the_inode i;
    if (0 <? irefcnt n) && (inode_num n =? wrap32 a0) then mret (inr (irefcnt n)) else mret (inl tt)) tt);
  mret (match r with inr c => c | inl _ => 0 end).

(** [if total > 0 { total } else { usize::MAX }] *)
Definition partial (total : Z) : Z := if 0 <? total then total else USIZE_MAX.

Definition sys_inode_write_data (a0 a1 a2 a3 : Z) : M (kernel D) Z :=
  pt ← root_pt;
  ip ← on_fs (inode_get (wrap32 a0));
  r ← loop (io_fuel a3) (fun '(total_written, kbuf) =>
    if total_written <? a3 then
      let chunk_len := Z.min (a3 - total_written) IOBUF in
      u ← uadd a2 total_written;
      '(src, e) ← on_mem (copyin pt (take (Z.to_nat chunk_len) kbuf) u);
      match e with
      | Some _ =>
          on_fs (inode_put ip);;
          mret (inr (inr (partial total_written)))
      | None =>
          off ← uadd32 (wrap32 a1) (wrap32 total_written);
          written ← on_fs (inode_write_data ip off chunk_len src);
          total' ← uadd total_written written;
          if written <? chunk_len then mret (inr (inl total'))
          else mret (inl (total', src ++ drop (Z.to_nat chunk_len) kbuf))
      end
    else mret (inr (inl total_written))) (0, replicate (Z.to_nat IOBUF) 0);
  match r with
  | inr z => mret z
  | inl total =>
      on_fs (inode_put ip);;
      mret total
  end.

Definition sys_inode_read_data (a0 a1 a2 a3 : Z) : M (kernel D) Z :=
  ip ← on_fs (inode_get (wrap32 a0));
  pt ← root_pt;
  r ← loop (io_fuel a3) (fun '(total_read, kbuf) =>
    if total_read <? a3 then
      let chunk_len := Z.min (a3 - total_read) IOBUF in
      off ← uadd32 (wrap32 a1) (wrap32 total_read);
      '(rd, dst) ← on_fs (inode_read_data ip off chunk_len (take (Z.to_nat chunk_len) kbuf));
      if rd =? 0 then mret (inr (inl total_read))
      else
        u ← uadd a2 total_read;
        e ← on_mem (copyout pt u (take (Z.to_nat rd) dst));
        match e with
        | Some _ =>
            on_fs (inode_put ip);;
            mret (inr (inr (partial total_read)))
        | None =>
            total' ← uadd total_read rd;
            if rd <? chunk_len then mret (inr (inl total'))
            else mret (inl (total', dst ++ drop (Z.to_nat chunk_len) kbuf))
        end
    else mret (inr (inl total_read))) (0, replicate (Z.to_nat IOBUF) 0);
  match r with
  | inr z => mret z
  | inl total =>
      on_fs (inode_put ip);;
      mret total
  end.

(** A string argument: the bytes [copyin_str] leaves in a buffer of [n], and
    its count. *)
Definition copy_str_arg (n : nat) (u : Z) : M (kernel D) (option (list Z * Z)) :=
  pt ← root_pt;
  '(b, r) ← on_mem (copyin_str pt (replicate n 0) u);
  mret (match r with Ok copied => Some (b, copied) | Err _ => None end).

(** [&buf[..copied.saturating_sub(1).min(cap)]] *)
Definition counted_name (cap : Z) (arg : list Z * Z) : list Z :=
  take (Z.to_nat (Z.min (sat_sub (snd arg) 1) cap)) (fst arg).

Definition with_name (u : Z) (k : list Z -> M (kernel D) Z) : M (kernel D) Z :=
  o ← copy_str_arg (S MAXLEN_FILENAME) u;
  match o with
  | None => mret USIZE_MAX
  | Some arg => k (counted_name (Z.of_nat MAXLEN_FILENAME) arg)
  end.

Definition with_path (u : Z) (k : list Z -> M (kernel D) Z) : M (kernel D) Z :=
  o ← copy_str_arg MAX_PATH u;
  match o with
  | None => mret USIZE_MAX
  | Some arg => k (counted_name 255 arg)
  end.

(** The path of [mkdir], [chdir], [link] and [unlink]: up to the first zero. *)
Definition with_cpath (u : Z) (k : list Z -> M (kernel D) Z) : M (kernel D) Z :=
  o ← copy_str_arg MAX_PATH u;
  match o with
  | None => mret USIZE_MAX
  | Some arg => k (until_zero (fst arg))
  end.

Definition sys_dentry_create (a0 a1 a2 : Z) : M (kernel D) Z :=
  with_name a2 (fun name =>
    dir ← on_fs (inode_get (wrap32 a0));
    ret ← on_fs (dentry_create dir (wrap32 a1) name);
    on_fs (inode_put dir);;
    mret (if ret <? 0 then USIZE_MAX else 0)).

Definition sys_dentry_search (a0 a1 : Z) : M (kernel D) Z :=
  with_name a1 (fun name =>
    dir ← on_fs (inode_get (wrap32 a0));
    ret ← on_fs (dentry_search dir name);
    on_fs (inode_put dir);;
    mret (default USIZE_MAX ret)).

Definition sys_dentry_delete (a0 a1 : Z) : M (kernel D) Z :=
  with_name a1 (fun name =>
    dir ← on_fs (inode_get (wrap32 a0));
    ret ← on_fs (dentry_delete dir name);
    on_fs (inode_put dir);;
    mret (if ret <? 0 then USIZE_MAX else ret)).

Definition sys_path_to_inode (a0 : Z) : M (kernel D) Z :=
  with_path a0 (fun path =>
    c ← gets cwd;
    res ← on_fs (path_to_inode_at c path);
    match res with
    | None => mret USIZE_MAX
    | Some ip =>
        n ← k_inode ip;
        on_fs (inode_put ip);;
        mret (inode_num n)
    end).

Definition sys_path_to_parent_inode (a0 a1 : Z) : M (kernel D) Z :=
  with_path a0 (fun path =>
    c ← gets cwd;
    res ← on_fs (path_to_parent_inode_at c path (replicate MAXLEN_FILENAME 0));
    match res with
    | None => mret USIZE_MAX
    | Some (parent, name_buf) =>
        pt ← root_pt;
        e ← on_mem (copyout pt a1 name_buf);
        match e with
        | Some _ =>
            on_fs (inode_put parent);;
            mret USIZE_MAX
        | None =>
            n ← k_inode parent;
            on_fs (inode_put parent);;
            mret (inode_num n)
        end
    end).

Definition sys_prepare_root_dir : M (kernel D) Z :=
  set ← on_fs (is_inum_set ROOT_INODE);
  if negb set then
    root_inum ← on_fs inode_alloc;
    if negb (root_inum =? ROOT_INODE) then mret USIZE_MAX
    else
      ip ← on_fs (inode_get ROOT_INODE);
      on_fs (upd_disk ip (set_type INODE_TYPE_DIR));;
      on_fs (upd_disk ip (set_nlink 2));;
      on_fs (upd_disk ip (set_size 0));;
      on_fs (inode_rw ip true);;
      on_fs (inode_put ip);;
      mret 0
  else
    ip ← on_fs (inode_get ROOT_INODE);
    n ← k_inode ip;
    let t0 := type_ (idisk n) =? 0 in
    let l0 := nlink (idisk n) =? 0 in
    (if t0 then on_fs (upd_disk ip (set_type INODE_TYPE_DIR)) else mret tt);;
    (if l0 then on_fs (upd_disk ip (set_nlink 2)) else mret tt);;
    (if t0 || l0 then on_fs (inode_rw ip true) else mret tt);;
    on_fs (inode_put ip);;
    mret 0.

Definition sys_open (a0 a1 : Z) : M (kernel D) Z :=
  with_path a0 (fun path => r ← fs_open path (wrap32 a1); mret (or_max id r)).
Definition sys_close (a0 : Z) : M (kernel D) Z := r ← fs_close a0; mret (or_max (fun _ => 0) r).
Definition sys_read (a0 a1 a2 : Z) : M (kernel D) Z := r ← fs_read a0 a1 a2; mret (or_max id r).
Definition sys_write (a0 a1 a2 : Z) : M (kernel D) Z := r ← fs_write a0 a1 a2; mret (or_max id r).
Definition sys_lseek (a0 a1 a2 : Z) : M (kernel D) Z :=
  r ← fs_lseek a0 (as_i32 a1) (wrap32 a2); mret (or_max id r).
Definition sys_dup (a0 : Z) : M (kernel D) Z := r ← fs_dup a0; mret (or_max id r).
Definition sys_fstat (a0 a1 : Z) : M (kernel D) Z := r ← fs_fstat a0 a1; mret (or_max (fun _ => 0) r).
Definition sys_get_dentries (a0 a1 a2 : Z) : M (kernel D) Z := r ← fs_get_dentries a0 a1 a2; mret (or_max id r).
Definition sys_mkdir (a0 : Z) : M (kernel D) Z :=
  with_cpath a0 (fun path => r ← fs_mkdir path; mret (or_max (fun _ => 0) r)).
Definition sys_chdir (a0 : Z) : M (kernel D) Z :=
  with_cpath a0 (fun path => r ← fs_chdir path; mret (or_max (fun _ => 0) r)).
Definition sys_link (a0 a1 : Z) : M (kernel D) Z :=
  with_cpath a0 (fun old => with_cpath a1 (fun new => r ← fs_link old new; mret (or_max (fun _ => 0) r))).
Definition sys_unlink (a0 : Z) : M (kernel D) Z :=
  with_cpath a0 (fun path => r ← fs_unlink path; mret (or_max (fun _ => 0) r)).
End syscalls.

(** ** Descriptors and reference counts *)

Definition is_free (o : option nat) : bool := match o with None => true | Some _ => false end.
Definition first_free (ofs : nat -> option nat) : option nat :=
  find (fun fd => is_free (ofs fd)) (seq 0 NOFILE).
Definition fd_refs (ofs : nat -> option nat) (i : nat) : Z :=
  Z.of_nat (length (filter (fun fd => ofs fd = Some i) (seq 0 NOFILE))).

Section descriptors.
Context {D : Type} `{!BlockDevice D}.
Implicit Types (k : kernel D) (i : nat).

(** Every descriptor names a slot of the table, and a slot's count is the
    number of descriptors of this process that name it, plus [others i] of
    other processes. *)
Record files_ok (others : nat -> Z) (k : kernel D) : Prop := {
  fo_range : forall fd i, (fd < NOFILE)%nat -> open_files k fd = Some i -> (i < NFILE)%nat;
  fo_count : forall i, (i < NFILE)%nat -> frefcnt (ftable k i) = fd_refs (open_files k) i + others i;
}.

Lemma install_fd_run i k : install_fd i k =
  match first_free (open_files k) with
  | Some fd => Ret (Some fd) (set_open_files (<[fd := Some i]> (open_files k)) k)
  | None => Ret None k
  end.
Proof.
  unfold install_fd, first_free, mbind, M_bind.
  rewrite (for_each_find (fun fd => is_free (open_files k fd)) _ id
    (fun fd => set_open_files (<[fd := Some i]> (open_files k)) k)).
  - by destruct (find _ _).
  - intros fd _. cbn. by destruct (open_files k fd).
  - intros fd _. cbn. by destruct (open_files k fd).
Qed.

Lemma first_free_spec ofs : match first_free ofs with
  | Some fd => (fd < NOFILE)%nat /\ ofs fd = None /\ forall fd', (fd' < fd)%nat -> ofs fd' <> None
  | None => forall fd, (fd < NOFILE)%nat -> ofs fd <> None
  end.
Proof.
  unfold first_free. generalize NOFILE as n. intros n.
  assert (Hgen : forall m, match find (fun fd => is_free (ofs fd)) (seq m n) with
    | Some fd => (m <= fd < m + n)%nat /\ ofs fd = None /\ forall fd', (m <= fd' < fd)%nat -> ofs fd' <> None
    | None => forall fd, (m <= fd < m + n)%nat -> ofs fd <> None
    end).
  { induction n as [|n IH]; intros m; simpl; [lia|]. destruct (ofs m) as [j|] eqn:Hm.
    - specialize (IH (S m)). destruct (find _ _) as [fd|].
      + destruct IH as (H1 & H2 & H3). split; [lia|]. split; [done|]. intros fd' Hfd.
        destruct (decide (fd' = m)) as [->|]; [by rewrite Hm|]. apply H3. lia.
      + intros fd Hfd. destruct (decide (fd = m)) as [->|]; [by rewrite Hm|]. apply IH. lia.
    - split; [lia|]. split; [done|]. lia. }
  specialize (Hgen 0%nat). destruct (find _ _) as [fd|].
  - destruct Hgen as (H1 & H2 & H3). split; [lia|]. split; [done|]. intros fd' Hfd. apply H3. lia.
  - intros fd Hfd. apply Hgen. lia.
Qed.

(** Pointing one descriptor elsewhere moves one reference. *)
Lemma fd_refs_insert ofs fd x i : (fd < NOFILE)%nat ->
  fd_refs (<[fd := x]> ofs) i =
    fd_refs ofs i + (if decide (x = Some i) then 1 else 0) - (if decide (ofs fd = Some i) then 1 else 0).
Proof.
  intros Hfd. unfold fd_refs. revert Hfd. generalize NOFILE as n. intros n Hn.
  assert (Hsplit : seq 0 n = seq 0 fd ++ fd :: seq (S fd) (n - S fd)).
  { replace n with (fd + S (n - S fd))%nat at 1 by lia. by rewrite seq_app. }
  assert (Hsame : forall l : list nat, fd ∉ l ->
    filter (fun f => <[fd := x]> ofs f = Some i) l = filter (fun f => ofs f = Some i) l).
  { intros l. induction l as [|f l IH]; [done|]. intros [Hf Hl]%not_elem_of_cons.
    rewrite !filter_cons, IH, fn_lookup_insert_ne by done. done. }
  rewrite Hsplit, !filter_app, !filter_cons, !length_app, !Hsame by (rewrite elem_of_seq; lia).
  rewrite fn_lookup_insert. do 2 case_decide; simpl; lia.
Qed.

Lemma fd_refs_pos k fd i : (fd < NOFILE)%nat -> open_files k fd = Some i -> 0 < fd_refs (open_files k) i <= Z.of_nat NOFILE.
Proof.
  intros Hfd Ho. unfold fd_refs. split.
  - assert (fd ∈ filter (fun f => open_files k f = Some i) (seq 0 NOFILE)) as Hin
      by (apply list_elem_of_filter; split; [done|]; apply elem_of_seq; lia).
    destruct (filter _ _); [by apply elem_of_nil in Hin|simpl; lia].
  - apply inj_le. etrans; [apply length_filter|]. by rewrite length_seq.
Qed.

Lemma get_fd_run k fd : 0 <= fd < Z.of_nat NOFILE -> get_fd fd k = Ret (open_files k (Z.to_nat fd)) k.
Proof. intros Hfd. unfold get_fd. by rewrite (proj2 (Z.leb_gt _ _)) by lia. Qed.

Lemma the_file_run k i : (i < NFILE)%nat -> the_file i k = Ret (ftable k i) k.
Proof.
  intros Hi. unfold the_file, on_files, zoom, file_at. rewrite (proj2 (Nat.ltb_lt _ _) Hi). simpl. by destruct k.
Qed.

Lemma upd_the_file_run k i f : upd_the_file i f k = Ret tt (set_ftable (upd_file i f (ftable k)) k).
Proof. done. Qed.

Lemma upd_file_eq i f t : upd_file i f t i = f (t i).
Proof. unfold upd_file. apply fn_lookup_insert. Qed.
Lemma upd_file_ne i j f t : j <> i -> upd_file i f t j = t j.
Proof. intros. unfold upd_file. by apply fn_lookup_insert_ne. Qed.

(** The table after a descriptor was repointed and one count changed. *)
Lemma files_ok_change others k k' fd i x c : files_ok others k -> (fd < NOFILE)%nat ->
  open_files k' = <[fd := x]> (open_files k) ->
  (forall j, x = Some j -> j = i) -> (forall j, open_files k fd = Some j -> j = i) -> (i < NFILE)%nat ->
  frefcnt (ftable k' i) = frefcnt (ftable k i) + c ->
  (forall j, j <> i -> frefcnt (ftable k' j) = frefcnt (ftable k j)) ->
  c = (if decide (x = Some i) then 1 else 0) - (if decide (open_files k fd = Some i) then 1 else 0) ->
  files_ok others k'.
Proof.
  intros [Hr Hc] Hfd Hof Hx Hold Hi Hci Hcj Hcval. split; rewrite Hof.
  - intros fd' j Hfd'. destruct (decide (fd' = fd)) as [->|Hne].
    + rewrite fn_lookup_insert. intros Hj. by rewrite (Hx j Hj).
    + rewrite fn_lookup_insert_ne by done. by apply Hr.
  - intros j Hj. rewrite fd_refs_insert by done. destruct (decide (j = i)) as [->|Hne].
    + rewrite Hci, Hc by done. lia.
    + rewrite Hcj, Hc by done.
      rewrite (decide_False (P := x = Some j)), (decide_False (P := open_files k fd = Some j)); [lia| |];
        intros H; [apply Hold in H|apply Hx in H]; congruence.
Qed.

Lemma fs_dup_spec others k fd i : files_ok others k -> (forall j, 0 <= others j < U32 - 64) ->
  0 <= fd < Z.of_nat NOFILE -> open_files k (Z.to_nat fd) = Some i ->
  exists r k', fs_dup fd k = Ret r k' /\ files_ok others k' /\ kfs k' = kfs k /\ kpm k' = kpm k /\ cwd k' = cwd k /\
    match r with
    | Ok n => exists m, n = Z.of_nat m /\ (m < NOFILE)%nat /\ open_files k m = None /\
        (forall m', (m' < m)%nat -> open_files k m' <> None) /\
        open_files k' = <[m := Some i]> (open_files k) /\
        ftable k' i = set_frefcnt (frefcnt (ftable k i) + 1) (ftable k i) /\
        forall j, j <> i -> ftable k' j = ftable k j
    | Err _ => (forall m, (m < NOFILE)%nat -> open_files k m <> None) /\ open_files k' = open_files k /\
        forall j, ftable k' j = ftable k j
    end.
Proof.
  intros Hok Hoth Hfd Hof. pose proof (fo_range _ _ Hok (Z.to_nat fd) i ltac:(lia) Hof) as Hi.
  pose proof (fd_refs_pos k (Z.to_nat fd) i ltac:(lia) Hof) as Href.
  pose proof (fo_count _ _ Hok i Hi) as Hc. pose proof (Hoth i) as Ho. change (Z.of_nat NOFILE) with 32 in Href.
  unfold fs_dup. rewrite (bind_run _ _ _ _ _ (get_fd_run k fd Hfd)), Hof, (bind_run _ _ _ _ _ (the_file_run k i Hi)).
  erewrite bind_run by (apply checked_run; lia).
  rewrite (bind_run _ _ _ _ _ (upd_the_file_run _ _ _)).
  set (k1 := set_ftable _ k). unfold mbind at 1, M_bind at 1. rewrite install_fd_run. change (open_files k1) with (open_files k).
  pose proof (first_free_spec (open_files k)) as Hff. destruct (first_free (open_files k)) as [m|].
  - destruct Hff as (Hm & Hn & Hlow). eexists _, _. split; [reflexivity|].
    assert (Ht : ftable k1 i = set_frefcnt (frefcnt (ftable k i) + 1) (ftable k i)) by apply upd_file_eq.
    assert (Ht' : forall j, j <> i -> ftable k1 j = ftable k j) by (intros; by apply upd_file_ne).
    split; [|split_and!; [done|done|done|]; exists m; done].
    eapply (files_ok_change others k _ m i (Some i) 1); try done.
    + intros j. congruence.
    + intros j. congruence.
    + change (frefcnt (ftable k1 i) = frefcnt (ftable k i) + 1). by rewrite Ht.
    + intros j Hj. change (frefcnt (ftable k1 j) = frefcnt (ftable k j)). by rewrite Ht'.
    + rewrite decide_True, decide_False by (done || by rewrite Hn). lia.
  - rewrite (bind_run _ _ _ _ _ (the_file_run k1 i Hi)).
    assert (Ht : frefcnt (ftable k1 i) = frefcnt (ftable k i) + 1) by (unfold k1; simpl; by rewrite upd_file_eq).
    rewrite Ht. erewrite bind_run by (apply checked_run; lia).
    rewrite (bind_run _ _ _ _ _ (upd_the_file_run _ _ _)). eexists _, _. split; [reflexivity|].
    assert (Hsame : forall j, ftable (set_ftable (upd_file i (set_frefcnt (frefcnt (ftable k i) + 1 - 1)) (ftable k1)) k1) j = ftable k j).
    { intros j. simpl. destruct (decide (j = i)) as [->|Hne].
      - rewrite !upd_file_eq. rewrite Z.add_simpl_r. by destruct (ftable k i).
      - by rewrite !upd_file_ne. }
    split; [|split_and!; done]. split; [apply Hok|]. intros j Hj. rewrite Hsame. by apply Hok.
Qed.

(** The inode is in the cache, at slot [ip], and dropping a reference to it
    does not delete it. *)
Definition is_cached (s : fsys D) (inum : Z) (j : nat) : bool :=
  (0 <? irefcnt (icache s j)) && (inode_num (icache s j) =? inum) && ivalid (icache s j).
Record cached (s : fsys D) (inum : Z) (ip : nat) : Prop := {
  ca_find : find (is_cached s inum) (seq 0 N_INODE) = Some ip;
  ca_range : forall j, irefcnt (icache s j) < U32 - 1;
  ca_keep : 1 < irefcnt (icache s ip) \/ nlink (idisk (icache s ip)) <> 0;
}.

Lemma inode_get_cached s inum ip : cached s inum ip ->
  inode_get inum s = Ret ip (upd_inode ip (set_irefcnt (irefcnt (icache s ip) + 1)) s).
Proof.
  intros [Hf Hr _]. unfold inode_get, mbind at 1, M_bind at 1.
  rewrite (for_each_find (is_cached s inum) _ id (fun j => upd_inode j (set_irefcnt (irefcnt (icache s j) + 1)) s)), Hf; [done| |].
  - intros j _ Hj. unfold is_cached in Hj. erewrite bind_run by reflexivity. by rewrite Hj.
  - intros j _ Hj. unfold is_cached in Hj. erewrite bind_run by reflexivity. rewrite Hj.
    erewrite bind_run by (apply checked_run; breflect; specialize (Hr j); lia). done.
Qed.

Lemma inode_put_keep s ip : 0 < irefcnt (icache s ip) ->
  (1 < irefcnt (icache s ip) \/ nlink (idisk (icache s ip)) <> 0) ->
  inode_put ip s = Ret tt (upd_inode ip (set_irefcnt (irefcnt (icache s ip) - 1)) s).
Proof.
  intros Hp Hk. unfold inode_put. erewrite bind_run by reflexivity.
  rewrite (proj2 (Z.eqb_neq _ _)) by lia. erewrite bind_run by reflexivity.
  destruct (_ && _) eqn:E; [breflect; lia|done].
Qed.

Lemma icache_upd_eq ip f (s : fsys D) : icache (upd_inode ip f s) ip = f (icache s ip).
Proof. apply fn_lookup_insert. Qed.
Lemma icache_upd_ne ip j f (s : fsys D) : j <> ip -> icache (upd_inode ip f s) j = icache s j.
Proof. intros. by apply fn_lookup_insert_ne. Qed.

(** [inode_get] and two [inode_put]s: one reference less. *)
Definition drop_ref (inum : Z) : M (fsys D) unit :=
  ip ← inode_get inum; inode_put ip;; inode_put ip.

Lemma drop_ref_cached s inum ip : cached s inum ip -> exists s', drop_ref inum s = Ret tt s' /\
  bc s' = bc s /\ SB s' = SB s /\
  icache s' ip = set_irefcnt (irefcnt (icache s ip) - 1) (icache s ip) /\
  forall j, j <> ip -> icache s' j = icache s j.
Proof.
  intros Hc. pose proof (ca_keep _ _ _ Hc) as Hk.
  assert (Hpos : 0 < irefcnt (icache s ip)).
  { pose proof (ca_find _ _ _ Hc) as Hf. apply find_some in Hf as [_ Hf]. unfold is_cached in Hf. breflect. lia. }
  unfold drop_ref. rewrite (bind_run _ _ _ _ _ (inode_get_cached s inum ip Hc)).
  set (s1 := upd_inode ip _ s).
  assert (H1 : icache s1 ip = set_irefcnt (irefcnt (icache s ip) + 1) (icache s ip)) by apply icache_upd_eq.
  rewrite (bind_run _ _ _ _ _ (inode_put_keep s1 ip ltac:(rewrite H1; simpl; lia) ltac:(left; rewrite H1; simpl; lia))).
  set (s2 := upd_inode ip _ s1).
  assert (H2 : icache s2 ip = icache s ip).
  { unfold s2. rewrite icache_upd_eq, H1. simpl. rewrite Z.add_simpl_r. by destruct (icache s ip). }
  rewrite (inode_put_keep s2 ip) by (rewrite H2; done). eexists. split; [reflexivity|]. split_and!; [done|done| |].
  - by rewrite icache_upd_eq, H2.
  - intros j Hj. unfold s2, s1. by rewrite !icache_upd_ne.
Qed.

Lemma on_fs_bind {A B} (m : M (fsys D) A) (f : A -> M (fsys D) B) k :
  (x ← on_fs m; on_fs (f x)) k = on_fs (x ← m; f x) k.
Proof.
  unfold mbind, M_bind, on_fs, zoom. destruct (m (kfs k)) as [a s'|w|w]; [|done|done].
  simpl. by destruct (f a s').
Qed.

Lemma file_close_entry_run t i : (i < NFILE)%nat -> 1 <= frefcnt (t i) ->
  exists t', file_close_entry i t =
      Ret (if 1 <? frefcnt (t i) then None else match fty (t i) with FtInode => Some (finum (t i)) | _ => None end) t' /\
    frefcnt (t' i) = frefcnt (t i) - 1 /\ forall j, j <> i -> t' j = t j.
Proof.
  intros Hi Hr. unfold file_close_entry.
  erewrite bind_run by (unfold file_at; rewrite (proj2 (Nat.ltb_lt _ _) Hi); reflexivity).
  rewrite (proj2 (Z.ltb_ge _ _)) by lia. erewrite bind_run by reflexivity.
  destruct (Z.ltb_spec 1 (frefcnt (t i))).
  - rewrite (proj2 (Z.ltb_lt _ _)) by lia. eexists. split; [reflexivity|].
    split; [by rewrite upd_file_eq|intros j Hj; by rewrite upd_file_ne].
  - rewrite (proj2 (Z.ltb_ge _ _)) by lia. eexists. split; [reflexivity|].
    split; [by rewrite !upd_file_eq|intros j Hj; by rewrite !upd_file_ne].
Qed.

(** Whether closing file [i] also drops the inode: it is the last reference to
    an inode file. *)
Definition last_ref k i : option Z :=
  if 1 <? frefcnt (ftable k i) then None
  else match fty (ftable k i) with FtInode => Some (finum (ftable k i)) | _ => None end.

Lemma fs_close_spec others k fd i : files_ok others k -> (forall j, 0 <= others j) ->
  0 <= fd < Z.of_nat NOFILE -> open_files k (Z.to_nat fd) = Some i ->
  (forall inum, last_ref k i = Some inum -> exists ip, cached (kfs k) inum ip) ->
  exists k', fs_close fd k = Ret (Ok tt) k' /\ files_ok others k' /\ kpm k' = kpm k /\
    open_files k' = <[Z.to_nat fd := None]> (open_files k) /\
    frefcnt (ftable k' i) = frefcnt (ftable k i) - 1 /\ (forall j, j <> i -> ftable k' j = ftable k j) /\
    match last_ref k i with
    | None => kfs k' = kfs k
    | Some inum => drop_ref inum (kfs k) = Ret tt (kfs k')
    end.
Proof.
  intros Hok Hoth Hfd Hof Hca. pose proof (fo_range _ _ Hok (Z.to_nat fd) i ltac:(lia) Hof) as Hi.
  pose proof (fd_refs_pos k (Z.to_nat fd) i ltac:(lia) Hof) as Href.
  pose proof (fo_count _ _ Hok i Hi) as Hc. pose proof (Hoth i) as Ho.
  unfold fs_close. rewrite (bind_run _ _ _ _ _ (get_fd_run k fd Hfd)), Hof.
  destruct (file_close_entry_run (ftable k) i Hi ltac:(lia)) as (t' & Hrun & Hti & Htj).
  assert (Hclose : exists s', file_close i k = Ret tt (set_kfs s' (set_ftable t' k)) /\
    match last_ref k i with None => s' = kfs k | Some inum => drop_ref inum (kfs k) = Ret tt s' end).
  { unfold file_close. erewrite bind_run by (unfold on_files, zoom; rewrite Hrun; reflexivity). fold (last_ref k i).
    destruct (last_ref k i) as [inum|].
    - destruct (Hca inum eq_refl) as [ip Hip]. destruct (drop_ref_cached _ _ _ Hip) as (s' & Hd & _).
      exists s'. split; [|done].
      assert (Hon : on_fs (drop_ref inum) (set_ftable t' k) = Ret tt (set_kfs s' (set_ftable t' k)))
        by (unfold on_fs, zoom; simpl; by rewrite Hd).
      rewrite <-Hon. unfold drop_ref. rewrite <-on_fs_bind. unfold mbind at 1 3, M_bind at 1 3.
      destruct (on_fs (inode_get inum) _) as [a k1|w|w]; [|done|done]. by rewrite <-on_fs_bind.
    - exists (kfs k). split; [|done]. by destruct k. }
  destruct Hclose as (s' & Hcl & Hs'). rewrite (bind_run _ _ _ _ _ Hcl). erewrite bind_run by reflexivity.
  eexists. split; [reflexivity|]. split; [|by split_and!].
  eapply (files_ok_change others k _ (Z.to_nat fd) i None (-1)); try done.
  - lia.
  - intros j. congruence.
  - intros j Hj. simpl. by rewrite Htj.
  - rewrite decide_False, decide_True by done. lia.
Qed.
End descriptors.

(** ** A machine with one process *)

Definition booted : fsys ramdisk :=
  match boot fresh_disk with Ret _ s => s | _ => mkFs demo_cache None (fun _ => Inode_new) end.

(** One page of user memory at 0x1000, no open files, the root as directory. *)
Definition demo_kernel : kernel ramdisk :=
  mkKernel booted demo_user (fun _ => File_new) ROOT_INODE (fun _ => None) demo_root.

(** "/f" *)
Definition demo_path : list Z := [47; 102; 0].
Definition demo_data (n : nat) : list Z := (fun i => Z.of_nat i mod 251) <$> seq 0 n.

(** User memory as the program itself would fill and inspect it. *)
Definition poke (va : Z) (bs : list Z) : M (kernel ramdisk) unit :=
  e ← on_mem (copyout demo_root va bs);
  if e is Some _ then panic "poke" else mret tt.
Definition peek (va : Z) (n : nat) : M (kernel ramdisk) (list Z) :=
  '(bs, e) ← on_mem (copyin demo_root (replicate n 0) va);
  if e is Some _ then panic "peek" else mret bs.

Record session_result := mkSession {
  se_open : Z; se_write : Z; se_seek : Z; se_read : Z; se_data : bool;
  se_dup : Z; se_close : Z; se_unlink : Z; se_reopen : Z;
}.

(** Create "/f", write [n] bytes, seek to the start, read them back, duplicate
    the descriptor, close both, unlink the file and try to open it again. *)
Definition session (n : nat) : M (kernel ramdisk) session_result :=
  poke 0x1000 demo_path;;
  poke 0x1100 (demo_data n);;
  fd ← sys_open 0x1000 0x42;
  w ← sys_write fd 0x1100 (Z.of_nat n);
  p ← sys_lseek fd 0 0;
  r ← sys_read fd 0x1800 (Z.of_nat n + 100);
  bs ← peek 0x1800 n;
  d ← sys_dup fd;
  c1 ← sys_close fd;
  c2 ← sys_close d;
  u ← sys_unlink 0x1000;
  o ← sys_open 0x1000 0;
  mret (mkSession fd w p r (bool_decide (bs = demo_data n)) d (c1 + c2) u o).

(** The machine with file 0 open as descriptor 0 and held once more elsewhere. *)
Definition demo_opened : kernel ramdisk :=
  set_open_files (<[0%nat := Some 0%nat]> (fun _ => None))
    (set_ftable (upd_file 0 (fun _ => mkFile FtInode true true 0 0 2) (fun _ => File_new)) demo_kernel).
Definition demo_others (i : nat) : Z := if decide (i = 0%nat) then 1 else 0.

Lemma demo_opened_ok : files_ok demo_others demo_opened.
Proof.
  assert (H0 : forall i, fd_refs (fun _ => None) i = 0) by (intros i; reflexivity).
  split.
  - intros fd i _. simpl. destruct (decide (fd = 0%nat)) as [->|Hne].
    + rewrite fn_lookup_insert. intros [= <-]. unfold NFILE. lia.
    + by rewrite fn_lookup_insert_ne.
  - intros i _. cbn [open_files ftable demo_opened set_open_files set_ftable].
    rewrite fd_refs_insert, H0 by (unfold NOFILE; lia). unfold demo_others.
    destruct (decide (i = 0%nat)) as [->|Hne]; [done|].
    rewrite upd_file_ne, (decide_False (P := Some 0%nat = Some i)), decide_False by congruence. done.
Qed.

(** ** Properties *)

(** [dup] gives the lowest unused descriptor, which then names the same
    open file (so they share its offset), and adds one to its count; with no
    descriptor left it fails and changes nothing. Either way the counts of the
    file table agree with the descriptors that name each file. *)
Theorem fs_dup_correct {D} `{!BlockDevice D} (others : nat -> Z) (k : kernel D) fd i :
  files_ok others k -> (forall j, 0 <= others j < U32 - 64) ->
  0 <= fd < Z.of_nat NOFILE -> open_files k (Z.to_nat fd) = Some i ->
  exists r k', fs_dup fd k = Ret r k' /\ files_ok others k' /\ kfs k' = kfs k /\ kpm k' = kpm k /\ cwd k' = cwd k /\
    match r with
    | Ok n => exists m, n = Z.of_nat m /\ (m < NOFILE)%nat /\ open_files k m = None /\
        (forall m', (m' < m)%nat -> open_files k m' <> None) /\
        open_files k' = <[m := Some i]> (open_files k) /\
        ftable k' i = set_frefcnt (frefcnt (ftable k i) + 1) (ftable k i) /\
        forall j, j <> i -> ftable k' j = ftable k j
    | Err _ => (forall m, (m < NOFILE)%nat -> open_files k m <> None) /\ open_files k' = open_files k /\
        forall j, ftable k' j = ftable k j
    end.
Proof. apply fs_dup_spec. Qed.

Lemma fs_dup_correct_witness : exists r k', fs_dup 0 demo_opened = Ret r k' /\ files_ok demo_others k'.
Proof.
  destruct (fs_dup_correct demo_others demo_opened 0 0 demo_opened_ok) as (r & k' & Hr & Hok & _).
  - intros j. unfold demo_others. destruct (decide (j = 0%nat)); split; (discriminate || reflexivity).
  - split; [discriminate|reflexivity].
  - reflexivity.
  - exists r, k'. exact (conj Hr Hok).
Defined.

(** [close] of an open descriptor succeeds, frees the descriptor and drops
    one reference of its file; if that was the last one to an inode file whose
    inode is cached and not about to be deleted, the inode loses one reference
    too. The counts of the file table stay in step with the descriptors. *)
Theorem fs_close_correct {D} `{!BlockDevice D} (others : nat -> Z) (k : kernel D) fd i :
  files_ok others k -> (forall j, 0 <= others j) ->
  0 <= fd < Z.of_nat NOFILE -> open_files k (Z.to_nat fd) = Some i ->
  (forall inum, last_ref k i = Some inum -> exists ip, cached (kfs k) inum ip) ->
  exists k', fs_close fd k = Ret (Ok tt) k' /\ files_ok others k' /\ kpm k' = kpm k /\
    open_files k' = <[Z.to_nat fd := None]> (open_files k) /\
    frefcnt (ftable k' i) = frefcnt (ftable k i) - 1 /\ (forall j, j <> i -> ftable k' j = ftable k j) /\
    match last_ref k i with
    | None => kfs k' = kfs k
    | Some inum => exists ip, cached (kfs k) inum ip /\ bc (kfs k') = bc (kfs k) /\
        icache (kfs k') ip = set_irefcnt (irefcnt (icache (kfs k) ip) - 1) (icache (kfs k) ip) /\
        forall j, j <> ip -> icache (kfs k') j = icache (kfs k) j
    end.
Proof.
  intros Hok Hoth Hfd Hof Hca. destruct (fs_close_spec others k fd i) as (k' & H1 & H2 & H3 & H4 & H5 & H6 & H7); try done.
  exists k'. split_and!; try done. destruct (last_ref k i) as [inum|]; [|done].
  destruct (Hca inum eq_refl) as [ip Hip]. destruct (drop_ref_cached _ _ _ Hip) as (s' & Hd & Hb & _ & Hi & Hj).
  rewrite H7 in Hd. injection Hd as <-. by exists ip.
Qed.

Lemma fs_close_correct_witness : exists k', fs_close 0 demo_opened = Ret (Ok tt) k' /\ frefcnt (ftable k' 0%nat) = 1.
Proof.
  destruct (fs_close_correct demo_others demo_opened 0 0 demo_opened_ok) as (k' & Hr & _ & _ & _ & Hc & _).
  - intros j. unfold demo_others. destruct (decide (j = 0%nat)); discriminate.
  - split; [discriminate|reflexivity].
  - reflexivity.
  - intros inum. discriminate.
  - exists k'. split; [exact Hr|]. exact Hc.
Defined.

(** On a freshly formatted disk a program creates a file, writes 600 bytes
    from its memory, seeks back, reads the same bytes into another place (and
    no more, although it asks for more), duplicates and closes its
    descriptors, and unlinks the file: every call returns what it should, the
    file is gone afterwards and its inode is free again. *)
Theorem file_session_correct :
  match session 600 demo_kernel with
  | Ret r k => r = mkSession 0 600 0 600 true 1 0 0 USIZE_MAX /\
      allocated_inodes (disk (bc (kfs k))) = allocated_inodes (disk (bc booted))
  | _ => False
  end.
Proof. vm_compute. split; reflexivity. Qed.

(** A program can panic the kernel with [lseek]: seeking a file at offset
    1 by [i32::MAX] from the current position overflows the [i32] addition. *)
Theorem lseek_overflow_panics :
  (poke 0x1000 demo_path;;
   fd ← sys_open 0x1000 0x42;
   sys_lseek fd 1 0;;
   sys_lseek fd (2 ^ 31 - 1) 1) demo_kernel = Panic "attempt to add with overflow".
Proof. vm_compute. reflexivity. Qed.
