(* ===== verification/RunQueue.v ===== *)
(** * The runnable queue ([proc/runnable_queue.rs], [proc/table.rs])

    The bitmap of runnable processes and the process-table fields the
    scheduler uses. A process is its index in [PROC_TABLE]; its address is
    [base + index * size_of::<Process>()]. The two spin locks are state:
    taking a lock the same flow of control already holds never ends. *)
From stdpp Require Import functions.
From S2P Require Import Prelude Addr.

Definition NPROC : Z := 64.

Inductive ProcState := Unused | Zombie | Dying | Sleeping | Runnable | Running.
#[global] Instance ProcState_eq_dec : EqDecision ProcState.
Proof. solve_decision. Defined.

(** [Process]: [parent] is an address, null for none. *)
Record Process := mkProc { state : ProcState; parent : Z; exit_code : Z; sleep_chan : Z; pid : Z }.
Definition Process_new : Process := mkProc Unused 0 0 0 0.
Definition set_state x p := mkProc x (parent p) (exit_code p) (sleep_chan p) (pid p).
Definition set_parent x p := mkProc (state p) x (exit_code p) (sleep_chan p) (pid p).
Definition set_exit_code x p := mkProc (state p) (parent p) x (sleep_chan p) (pid p).
Definition set_sleep_chan x p := mkProc (state p) (parent p) (exit_code p) x (pid p).

Record sched := mkSched {
  PROC_TABLE : Z -> Process;
  table_locked : bool;         (** the lock around [PROC_TABLE] *)
  RUNNABLE_BITMAP : Z;
  BITMAP_LOCK : bool;
  GLOBAL_PID : Z;
  hart_proc : option Z;        (** [hart.proc] *)
  sie : bool;                  (** [sstatus.SIE] *)
}.
Definition set_table x s := mkSched x (table_locked s) (RUNNABLE_BITMAP s) (BITMAP_LOCK s) (GLOBAL_PID s) (hart_proc s) (sie s).
Definition set_table_locked x s := mkSched (PROC_TABLE s) x (RUNNABLE_BITMAP s) (BITMAP_LOCK s) (GLOBAL_PID s) (hart_proc s) (sie s).
Definition set_bitmap x s := mkSched (PROC_TABLE s) (table_locked s) x (BITMAP_LOCK s) (GLOBAL_PID s) (hart_proc s) (sie s).
Definition set_bitmap_lock x s := mkSched (PROC_TABLE s) (table_locked s) (RUNNABLE_BITMAP s) x (GLOBAL_PID s) (hart_proc s) (sie s).
Definition set_global_pid x s := mkSched (PROC_TABLE s) (table_locked s) (RUNNABLE_BITMAP s) (BITMAP_LOCK s) x (hart_proc s) (sie s).
Definition set_hart_proc x s := mkSched (PROC_TABLE s) (table_locked s) (RUNNABLE_BITMAP s) (BITMAP_LOCK s) (GLOBAL_PID s) x (sie s).
Definition set_sie x s := mkSched (PROC_TABLE s) (table_locked s) (RUNNABLE_BITMAP s) (BITMAP_LOCK s) (GLOBAL_PID s) (hart_proc s) x.

Definition upd_proc (i : Z) (f : Process -> Process) (s : sched) : sched :=
  set_table (<[i := f (PROC_TABLE s i)]> (PROC_TABLE s)) s.
Definition proc_at (i : Z) : M sched Process := gets (fun s => PROC_TABLE s i).

(** The spin locks *)
Definition lock_table : M sched unit :=
  l ← gets table_locked;
  if l : bool then hang "PROC_TABLE is already locked" else modify (set_table_locked true).
Definition unlock_table : M sched unit := modify (set_table_locked false).
Definition rq_lock : M sched unit :=
  l ← gets BITMAP_LOCK;
  if l : bool then hang "BITMAP_LOCK is already locked" else modify (set_bitmap_lock true).
Definition rq_unlock : M sched unit := modify (set_bitmap_lock false).

(** ** The bitmap *)

Definition mark_runnable (i : Z) : M sched unit :=
  if NPROC <=? i then mret tt
  else modify (fun s => set_bitmap (Z.lor (RUNNABLE_BITMAP s) (Z.shiftl 1 i)) s).

Definition mark_not_runnable (i : Z) : M sched unit :=
  if NPROC <=? i then mret tt
  else modify (fun s => set_bitmap (Z.land (RUNNABLE_BITMAP s) (unot (Z.shiftl 1 i))) s).

Definition clear_runnable_bit (i : Z) : M sched unit :=
  if NPROC <=? i then mret tt
  else modify (fun s => set_bitmap (Z.land (RUNNABLE_BITMAP s) (unot (Z.shiftl 1 i))) s).

(** [u64::trailing_zeros] *)
Definition trailing_zeros (x : Z) : Z := default 64 (find (Z.testbit x) (seqZ 0 64)).

Definition find_runnable : M sched (option Z) :=
  b ← gets RUNNABLE_BITMAP;
  if b =? 0 then mret None
  else
    let idx := trailing_zeros b in
    mret (if idx <? NPROC then Some idx else None).

Definition has_runnable : M sched bool := gets (fun s => negb (RUNNABLE_BITMAP s =? 0)).
Definition clear_all : M sched unit := modify (set_bitmap 0).

(** [find_proc_index], the table being at [base] and a process [size] bytes. *)
Definition find_proc_index (base size : Z) (proc : Z) : M sched (option Z) :=
  lock_table;;
  let r :=
    if proc <? base then None
    else
      let idx := (proc - base) / size in
      if (idx <? NPROC) && (base + idx * size =? proc) then Some idx else None in
  unlock_table;;
  mret r.

(** ** Facts about the bitmap *)

Lemma unot_testbit x j : 0 <= x < U64 -> 0 <= j < 64 -> Z.testbit (unot x) j = negb (Z.testbit x j).
Proof.
  intros Hx Hj. unfold unot. change (U64 - 1) with (Z.ones 64).
  rewrite Z.sub_nocarry_ldiff.
  - rewrite Z.ldiff_spec, Z.ones_spec_low by lia. done.
  - apply Z.bits_inj'. intros n Hn. rewrite Z.ldiff_spec, Z.bits_0.
    destruct (Z.lt_ge_cases n 64); [rewrite Z.ones_spec_low by lia; apply andb_false_r|].
    by rewrite (testbit_high x 64) by done.
Qed.

Lemma testbit_one i j : 0 <= i -> 0 <= j -> Z.testbit (Z.shiftl 1 i) j = (i =? j).
Proof. intros Hi Hj. rewrite Z.shiftl_1_l. by apply Z.pow2_bits_eqb. Qed.

Lemma set_bit_spec b i j : 0 <= i -> 0 <= j -> Z.testbit (Z.lor b (Z.shiftl 1 i)) j = Z.testbit b j || (i =? j).
Proof. intros. by rewrite Z.lor_spec, testbit_one. Qed.

Lemma clear_bit_spec b i j : 0 <= i < 64 -> 0 <= j < 64 ->
  Z.testbit (Z.land b (unot (Z.shiftl 1 i))) j = Z.testbit b j && negb (i =? j).
Proof.
  intros Hi Hj. rewrite Z.land_spec, unot_testbit, testbit_one; [done|lia|lia| |done].
  rewrite Z.shiftl_1_l. split; [apply Z.pow_nonneg; lia|]. apply Z.pow_lt_mono_r; lia.
Qed.

(** A 64-bit value is one whose higher bits are clear. *)
Lemma u64_bits b : 0 <= b < U64 <-> 0 <= b /\ forall j, 64 <= j -> Z.testbit b j = false.
Proof.
  split.
  - intros Hb. split; [lia|]. intros j Hj. by apply (testbit_high b 64).
  - intros [Hb Hj]. split; [done|]. destruct (Z.eq_dec b 0) as [->|Hne]; [done|].
    apply Z.log2_lt_pow2; [lia|]. destruct (Z.lt_ge_cases (Z.log2 b) 64); [done|].
    pose proof (Z.bit_log2 b ltac:(lia)) as Hl. by rewrite Hj in Hl.
Qed.

Lemma lor_u64 b i : 0 <= b < U64 -> 0 <= i < 64 -> 0 <= Z.lor b (Z.shiftl 1 i) < U64.
Proof.
  rewrite !u64_bits. intros [Hb Hj] Hi. split.
  - apply Z.lor_nonneg. split; [done|]. rewrite Z.shiftl_1_l. apply Z.pow_nonneg. lia.
  - intros j Hj'. rewrite set_bit_spec, Hj by lia. apply Z.eqb_neq. lia.
Qed.

Lemma land_u64 b m : 0 <= b < U64 -> 0 <= Z.land b m < U64.
Proof.
  rewrite !u64_bits. intros [Hb Hj]. split; [apply Z.land_nonneg; by left|].
  intros j Hj'. by rewrite Z.land_spec, Hj.
Qed.

(** The lowest set bit. *)
Lemma trailing_zeros_spec b : 0 < b < U64 ->
  0 <= trailing_zeros b < 64 /\ Z.testbit b (trailing_zeros b) = true /\
  forall j, 0 <= j < trailing_zeros b -> Z.testbit b j = false.
Proof.
  intros Hb. unfold trailing_zeros.
  assert (Hgen : forall n lo, match find (Z.testbit b) (seqZ lo (Z.of_nat n)) with
    | Some i => lo <= i < lo + Z.of_nat n /\ Z.testbit b i = true /\ forall j, lo <= j < i -> Z.testbit b j = false
    | None => forall j, lo <= j < lo + Z.of_nat n -> Z.testbit b j = false
    end).
  { induction n as [|n IH]; intros lo; [simpl; lia|]. rewrite seqZ_cons by lia. simpl.
    destruct (Z.testbit b lo) eqn:E; [split; [lia|]; split; [done|lia]|].
    specialize (IH (Z.succ lo)). replace (Z.pred (Z.of_nat (S n))) with (Z.of_nat n) by lia.
    destruct (find _ _) as [i|].
    - destruct IH as (H1 & H2 & H3). split; [lia|]. split; [done|]. intros j Hj.
      destruct (Z.eq_dec j lo) as [->|]; [done|]. apply H3. lia.
    - intros j Hj. destruct (Z.eq_dec j lo) as [->|]; [done|]. apply IH. lia. }
  specialize (Hgen 64%nat 0). change (Z.of_nat 64) with 64 in Hgen. destruct (find _ _) as [i|]; [done|].
  exfalso. pose proof (Z.bit_log2 b ltac:(lia)) as Hl. rewrite Hgen in Hl; [done|].
  split; [apply Z.log2_nonneg|]. apply Z.log2_lt_pow2; [lia|apply Hb].
Qed.
