(* ===== verification/Scheduler.v ===== *)
(** * The scheduler ([proc/scheduler.rs], the state changes of [proc/process.rs])

    One hart runs the scheduler. [switch_context] hands control over, so each
    routine is cut there: [scheduler_pick] is the loop body up to the switch to
    a process, [scheduler_return] what follows it, and [yield_proc], [sched],
    [sleep] and a round of [wait] are the code before the switch back. The
    memory, files and trap frames of a process are not part of this state. *)
From stdpp Require Import functions.
From S2P Require Import Prelude Addr RunQueue.

Section scheduler.
(** Where [PROC_TABLE] lies and how large a [Process] is. *)
Variables (base psize : Z).

Definition proc_addr (i : Z) : Z := base + i * psize.

(** [&mut *hart.proc] *)
Definition current : M sched Z :=
  o ← gets hart_proc;
  expect o "hart.proc is null".

Definition procs : list Z := seqZ 0 NPROC.

(** [sstatus::read().sie()] then [clear_sie], and the restoring [set_sie] *)
Definition sie_off : M sched bool :=
  b ← gets sie;
  modify (set_sie false);;
  mret b.
Definition sie_restore (b : bool) : M sched unit := if b then modify (set_sie true) else mret tt.

Definition scheduler_pick : M sched (option Z) :=
  modify (set_sie false);;
  o ← find_runnable;
  match o with
  | None =>
      modify (set_sie true);;
      mret None
  | Some i =>
      rq_lock;;
      lock_table;;
      p ← proc_at i;
      run ← (if decide (state p = Runnable) then
               modify (upd_proc i (set_state Running));;
               clear_runnable_bit i;;
               mret true
             else
               clear_runnable_bit i;;
               mret false);
      unlock_table;;
      rq_unlock;;
      if run : bool then
        modify (set_hart_proc (Some i));;
        mret (Some i)
      else mret None
  end.

Definition scheduler_return (i : Z) : M sched unit :=
  modify (set_hart_proc None);;
  rq_lock;;
  lock_table;;
  p ← proc_at i;
  (if decide (state p = Dying) then modify (upd_proc i (set_state Zombie))
   else if decide (state p = Runnable) then mark_runnable i
   else mret tt);;
  unlock_table;;
  rq_unlock.

(** A running process becomes runnable again. *)
Definition make_runnable (i : Z) : M sched unit :=
  p ← proc_at i;
  if decide (state p = Running) then
    modify (upd_proc i (set_state Runnable));;
    o ← find_proc_index base psize (proc_addr i);
    match o with
    | Some idx => mark_runnable idx
    | None => mret tt
    end
  else mret tt.

Definition sched_out : M sched unit := i ← current; make_runnable i.
Definition yield_proc : M sched unit := i ← current; make_runnable i.

Definition sleep (channel : Z) : M sched unit :=
  i ← current;
  sie_off;;
  lock_table;;
  modify (upd_proc i (fun p => set_sleep_chan channel (set_state Sleeping p)));;
  o ← find_proc_index base psize (proc_addr i);
  (match o with Some idx => mark_not_runnable idx | None => mret tt end);;
  unlock_table.

(** One round of [wait]: the answer, or the process has gone to sleep. The
    memory [free] gives back is not part of this state. *)
Definition wait_round : M sched (unit + option (Z * Z)) :=
  curr ← current;
  sie_enabled ← sie_off;
  lock_table;;
  r ← for_each procs (fun have_kids i =>
    p ← proc_at i;
    if parent p =? proc_addr curr then
      if decide (state p = Zombie) then
        modify (upd_proc i (fun _ => Process_new));;
        mret (inr (pid p, exit_code p))
      else mret (inl true)
    else mret (inl have_kids)) false;
  match r with
  | inr found =>
      unlock_table;;
      sie_restore sie_enabled;;
      mret (inr (Some found))
  | inl false =>
      unlock_table;;
      sie_restore sie_enabled;;
      mret (inr None)
  | inl true =>
      modify (upd_proc curr (fun p => set_sleep_chan (proc_addr curr) (set_state Sleeping p)));;
      o ← find_proc_index base psize (proc_addr curr);
      (match o with Some idx => mark_not_runnable idx | None => mret tt end);;
      unlock_table;;
      mret (inl tt)
  end.

Definition wakeup (channel : Z) : M sched unit :=
  sie_enabled ← sie_off;
  rq_lock;;
  lock_table;;
  for_each (B := Empty_set) procs (fun _ i =>
    p ← proc_at i;
    (if decide (state p = Sleeping /\ sleep_chan p = channel) then
       modify (upd_proc i (fun p => set_sleep_chan 0 (set_state Runnable p)));;
       mark_runnable i
     else mret tt);;
    mret (inl tt)) tt;;
  sie_restore sie_enabled;;
  unlock_table;;
  rq_unlock.

(** One slot of the scan of [exit]: adopt a child, notice oneself. *)
Definition reparent_body (i : Z) (self_idx : option Z) (j : Z) : M sched (option Z + Empty_set) :=
  q ← proc_at j;
  (if parent q =? proc_addr i then modify (upd_proc j (set_parent (proc_addr 0))) else mret tt);;
  mret (inl (if proc_addr j =? proc_addr i then Some j else self_idx)).

(** [Process::exit]: up to the closing of the files, and with no files open;
    the answer is whether interrupts were on. *)
Definition proc_exit_begin (i : Z) : M sched bool :=
  sie_enabled ← sie_off;
  p ← proc_at i;
  (if negb (parent p =? 0) then wakeup (parent p) else mret tt);;
  lock_table;;
  self_idx ← for_each procs (reparent_body i) None;
  (match self_idx with inl (Some idx) => mark_not_runnable idx | _ => mret tt end);;
  unlock_table;;
  modify (upd_proc i (set_state Dying));;
  mret sie_enabled.
Definition proc_exit (i : Z) : M sched unit :=
  sie_enabled ← proc_exit_begin i;
  sie_restore sie_enabled.

(** [sys_exit] up to the switch. *)
Definition sys_exit (code : Z) : M sched unit :=
  i ← current;
  modify (upd_proc i (set_exit_code code));;
  proc_exit i;;
  yield_proc.

(** One slot of the scan of [alloc]. *)
Definition alloc_body (sie_enabled : bool) (_ : unit) (i : Z) : M sched (unit + Z) :=
  p ← proc_at i;
  if decide (state p = Unused) then
    new_pid ← gets GLOBAL_PID;
    modify (fun s => set_global_pid (wrap64 (GLOBAL_PID s + 1)) s);;
    modify (upd_proc i (fun _ => mkProc Runnable 0 0 0 new_pid));;
    mark_runnable i;;
    sie_restore sie_enabled;;
    mret (inr i)
  else mret (inl tt).

Definition proc_alloc : M sched (option Z) :=
  sie_enabled ← sie_off;
  lock_table;;
  r ← for_each procs (alloc_body sie_enabled) tt;
  match r with
  | inr i =>
      unlock_table;;
      mret (Some i)
  | inl _ =>
      sie_restore sie_enabled;;
      unlock_table;;
      mret None
  end.

(** ** The invariant *)

(** At rest no lock is held, the bitmap has exactly the runnable processes,
    and the running process is the one the hart executes. *)
Record sched_inv (s : sched) : Prop := {
  si_table : table_locked s = false;
  si_bm : BITMAP_LOCK s = false;
  si_u64 : 0 <= RUNNABLE_BITMAP s < U64;
  si_bits : forall i, 0 <= i < NPROC -> Z.testbit (RUNNABLE_BITMAP s) i = true <-> state (PROC_TABLE s i) = Runnable;
  si_running : forall i, 0 <= i < NPROC -> state (PROC_TABLE s i) = Running -> hart_proc s = Some i;
  si_current : forall i, hart_proc s = Some i -> 0 <= i < NPROC /\ state (PROC_TABLE s i) = Running;
  si_dying : forall i, 0 <= i < NPROC -> state (PROC_TABLE s i) <> Dying;
}.

(** ** One step of each routine *)

Ltac wp_prim ::=
  lazymatch goal with
  | |- wp (proc_at _) _ _ => unfold proc_at; apply wp_gets
  | |- wp unlock_table _ _ => unfold unlock_table; apply wp_modify
  | |- wp rq_unlock _ _ => unfold rq_unlock; apply wp_modify
  end.

Lemma wp_mark i s (Q : unit -> sched -> Prop) : 0 <= i < NPROC ->
  Q tt (set_bitmap (Z.lor (RUNNABLE_BITMAP s) (Z.shiftl 1 i)) s) -> wp (mark_runnable i) Q s.
Proof. intros Hi HQ. unfold mark_runnable. rewrite (proj2 (Z.leb_gt _ _)) by lia. exact HQ. Qed.

Lemma wp_clear i s (Q : unit -> sched -> Prop) : 0 <= i < NPROC ->
  Q tt (set_bitmap (Z.land (RUNNABLE_BITMAP s) (unot (Z.shiftl 1 i))) s) ->
  wp (clear_runnable_bit i) Q s /\ wp (mark_not_runnable i) Q s.
Proof.
  intros Hi HQ. unfold clear_runnable_bit, mark_not_runnable. rewrite (proj2 (Z.leb_gt _ _)) by lia. split; exact HQ.
Qed.

Lemma wp_lock_table s (Q : unit -> sched -> Prop) : table_locked s = false ->
  Q tt (set_table_locked true s) -> wp lock_table Q s.
Proof. intros Hl HQ. unfold lock_table. wp_step. wp_step. by rewrite Hl. Qed.

Lemma wp_rq_lock s (Q : unit -> sched -> Prop) : BITMAP_LOCK s = false ->
  Q tt (set_bitmap_lock true s) -> wp rq_lock Q s.
Proof. intros Hl HQ. unfold rq_lock. wp_step. wp_step. by rewrite Hl. Qed.

Lemma wp_sie_off s (Q : bool -> sched -> Prop) : Q (sie s) (set_sie false s) -> wp sie_off Q s.
Proof. done. Qed.

Lemma upd_proc_eq i f s : PROC_TABLE (upd_proc i f s) i = f (PROC_TABLE s i).
Proof. apply fn_lookup_insert. Qed.
Lemma upd_proc_ne i j f s : j <> i -> PROC_TABLE (upd_proc i f s) j = PROC_TABLE s j.
Proof. intros. by apply fn_lookup_insert_ne. Qed.

(** The index a process pointer has. *)
Lemma find_proc_index_run s i : 0 < psize -> 0 <= i < NPROC -> table_locked s = false ->
  find_proc_index base psize (proc_addr i) s = Ret (Some i) (set_table_locked false (set_table_locked true s)).
Proof.
  intros Hp Hi Hl. unfold find_proc_index, proc_addr.
  erewrite bind_run by (unfold lock_table; erewrite bind_run by reflexivity; rewrite Hl; reflexivity).
  erewrite bind_run by reflexivity.
  rewrite (proj2 (Z.ltb_ge _ _)) by nia.
  replace (base + i * psize - base) with (i * psize) by lia. rewrite Z.div_mul by lia.
  rewrite (proj2 (Z.ltb_lt _ _)), Z.eqb_refl by lia. done.
Qed.

(** The one process that changes hands between the hart and the queue: the
    invariant after its state, its bit and [hart.proc] were set together. *)
Lemma inv_handover s s' i : sched_inv s -> 0 <= i < NPROC -> (forall j, hart_proc s = Some j -> j = i) ->
  table_locked s' = false -> BITMAP_LOCK s' = false -> 0 <= RUNNABLE_BITMAP s' < U64 ->
  (forall j, j <> i -> PROC_TABLE s' j = PROC_TABLE s j) ->
  (forall j, 0 <= j < NPROC -> j <> i -> Z.testbit (RUNNABLE_BITMAP s') j = Z.testbit (RUNNABLE_BITMAP s) j) ->
  (Z.testbit (RUNNABLE_BITMAP s') i = true <-> state (PROC_TABLE s' i) = Runnable) ->
  hart_proc s' = (if decide (state (PROC_TABLE s' i) = Running) then Some i else None) ->
  state (PROC_TABLE s' i) <> Dying -> sched_inv s'.
Proof.
  intros [Hl Hm Hu Hb Hr Hc Hd] Hi Hcur Hl' Hm' Hu' Hother Hbits Hbit Hhart Hnd. split; [done|done|done| | | |].
  - intros j Hj. destruct (decide (j = i)) as [->|Hne]; [done|]. by rewrite Hbits, Hother, Hb.
  - intros j Hj. destruct (decide (j = i)) as [->|Hne]; [intros Hrun; by rewrite Hhart, decide_True|].
    rewrite Hother by done. intros Hrun%Hr; [|done]. by apply Hcur in Hrun.
  - intros j. rewrite Hhart. case_decide; [|done]. by intros [= <-].
  - intros j Hj. destruct (decide (j = i)) as [->|Hne]; [done|]. rewrite Hother by done. by apply Hd.
Qed.

(** What picking does: the lowest runnable process starts to run. *)
Record picked (s : sched) (i : Z) (s' : sched) : Prop := {
  pk_range : 0 <= i < NPROC;
  pk_runnable : state (PROC_TABLE s i) = Runnable;
  pk_lowest : forall j, 0 <= j < i -> state (PROC_TABLE s j) <> Runnable;
  pk_proc : PROC_TABLE s' i = set_state Running (PROC_TABLE s i);
  pk_other : forall j, j <> i -> PROC_TABLE s' j = PROC_TABLE s j;
  pk_hart : hart_proc s' = Some i;
}.

Lemma bitmap_zero s : sched_inv s -> RUNNABLE_BITMAP s = 0 <->
  forall i, 0 <= i < NPROC -> state (PROC_TABLE s i) <> Runnable.
Proof.
  intros [_ _ Hu Hb _ _ _]. split.
  - intros H0 i Hi Hr. apply Hb in Hr; [|done]. by rewrite H0, Z.bits_0 in Hr.
  - intros Hn. apply Z.bits_inj'. intros j Hj. rewrite Z.bits_0.
    destruct (Z.lt_ge_cases j 64); [|by apply (proj1 (u64_bits _) Hu)].
    destruct (Z.testbit (RUNNABLE_BITMAP s) j) eqn:E; [|done]. apply Hb in E; [|done]. by apply Hn in E.
Qed.

Lemma wp_pick s : sched_inv s -> hart_proc s = None ->
  wp scheduler_pick (fun r s' => sched_inv s' /\
    match r with
    | Some i => picked s i s'
    | None => PROC_TABLE s' = PROC_TABLE s /\ hart_proc s' = None /\
        forall i, 0 <= i < NPROC -> state (PROC_TABLE s i) <> Runnable
    end) s.
Proof.
  intros Hinv Hh. pose proof Hinv as [Hl Hm Hu Hb Hr Hc Hd].
  unfold scheduler_pick. do 2 wp_step. unfold find_runnable. do 3 wp_step. cbn [RUNNABLE_BITMAP set_sie].
  destruct (Z.eqb_spec (RUNNABLE_BITMAP s) 0) as [H0|Hn0].
  - wp_step. wp_steps. split; [by split|]. split; [done|]. split; [done|]. by apply bitmap_zero.
  - destruct (trailing_zeros_spec (RUNNABLE_BITMAP s) ltac:(lia)) as (Hi & Hset & Hlow).
    set (i := trailing_zeros (RUNNABLE_BITMAP s)) in *. assert (Hrn : state (PROC_TABLE s i) = Runnable) by by apply Hb.
    rewrite (proj2 (Z.ltb_lt i NPROC)) by (unfold NPROC; lia). wp_step.
    wp_step. apply wp_rq_lock; [done|]. wp_step. apply wp_lock_table; [done|].
    wp_step. wp_step. wp_step. cbn [PROC_TABLE set_sie set_bitmap_lock set_table_locked].
    rewrite decide_True by done. wp_step. wp_step. wp_step. refine (proj1 (wp_clear i _ _ ltac:(unfold NPROC; lia) _)). wp_step.
    wp_steps.
    set (s' := set_hart_proc _ _).
    assert (Ht : PROC_TABLE s' = <[i := set_state Running (PROC_TABLE s i)]> (PROC_TABLE s)) by done.
    assert (Hother : forall j, j <> i -> PROC_TABLE s' j = PROC_TABLE s j)
      by (intros j Hj; rewrite Ht; by apply fn_lookup_insert_ne).
    assert (Hsame : PROC_TABLE s' i = set_state Running (PROC_TABLE s i)) by (rewrite Ht; apply fn_lookup_insert).
    assert (Hbm : forall j, 0 <= j < NPROC -> Z.testbit (RUNNABLE_BITMAP s') j = Z.testbit (RUNNABLE_BITMAP s) j && negb (i =? j))
      by (intros j Hj; apply clear_bit_spec; [lia|done]). split.
    + apply (inv_handover s s' i); [done|done|by rewrite Hh|done|done|by apply land_u64|done| | |by rewrite Hsame|by rewrite Hsame].
      * intros j Hj Hne. rewrite Hbm, (proj2 (Z.eqb_neq _ _)), andb_true_r by (done || congruence). done.
      * rewrite Hbm, Z.eqb_refl, andb_false_r, Hsame by done. done.
    + split; [unfold NPROC; lia|done| |done|done|done].
      intros j Hj Hrj. apply Hb in Hrj; [|unfold NPROC; lia]. rewrite Hlow in Hrj by done. done.
Qed.

(** *** Yielding *)

Lemma wp_yield s i : 0 < psize -> sched_inv s -> hart_proc s = Some i ->
  wp (yield_proc;; scheduler_return i) (fun _ s' => sched_inv s' /\ hart_proc s' = None /\
    PROC_TABLE s' i = set_state Runnable (PROC_TABLE s i) /\
    forall j, j <> i -> PROC_TABLE s' j = PROC_TABLE s j) s.
Proof.
  intros Hp Hinv Hh. pose proof Hinv as [Hl Hm Hu Hb Hr Hc Hd]. destruct (Hc i Hh) as [Hi Hrun].
  unfold yield_proc. wp_step. wp_step. unfold current. do 2 wp_step. rewrite Hh. apply (wp_expect _ _ i); [done|].
  unfold make_runnable. wp_step. wp_step. rewrite decide_True by done. wp_step. wp_step. wp_step.
  eapply wp_intro; [by apply find_proc_index_run|]. apply wp_mark; [done|].
  unfold scheduler_return. do 2 wp_step. wp_step. apply wp_rq_lock; [done|]. wp_step. apply wp_lock_table; [done|].
  wp_step. wp_step. wp_step.
  cbn [PROC_TABLE set_table_locked set_bitmap_lock set_hart_proc set_bitmap]. rewrite upd_proc_eq.
  rewrite decide_False, decide_True by done. apply wp_mark; [done|]. wp_steps.
  set (s' := set_bitmap_lock _ _).
  assert (Ht : PROC_TABLE s' = <[i := set_state Runnable (PROC_TABLE s i)]> (PROC_TABLE s)) by done.
  assert (Hsame : PROC_TABLE s' i = set_state Runnable (PROC_TABLE s i)) by (rewrite Ht; apply fn_lookup_insert).
  assert (Hother : forall j, j <> i -> PROC_TABLE s' j = PROC_TABLE s j)
    by (intros j Hj; rewrite Ht; by apply fn_lookup_insert_ne).
  assert (Hbm : forall j, 0 <= j < NPROC -> Z.testbit (RUNNABLE_BITMAP s') j = Z.testbit (RUNNABLE_BITMAP s) j || (i =? j) || (i =? j))
    by (intros j Hj; change (RUNNABLE_BITMAP s') with (Z.lor (Z.lor (RUNNABLE_BITMAP s) (Z.shiftl 1 i)) (Z.shiftl 1 i));
        by rewrite !set_bit_spec by lia).
  split; [|done]. apply (inv_handover s s' i); [done|done|congruence|done|done|by repeat apply lor_u64|done| | |by rewrite Hsame|by rewrite Hsame].
  - intros j Hj Hne. rewrite Hbm, (proj2 (Z.eqb_neq _ _)), !orb_false_r by (done || congruence). done.
  - rewrite Hbm, Z.eqb_refl, orb_true_r, Hsame by done. done.
Qed.

(** *** Waking sleepers *)

Definition sleeps_on (ch : Z) (p : Process) : bool := bool_decide (state p = Sleeping /\ sleep_chan p = ch).
Definition wake (p : Process) : Process := set_sleep_chan 0 (set_state Runnable p).

Lemma procs_split dn x rest : procs = dn ++ x :: rest -> 0 <= x < NPROC /\ x ∉ dn.
Proof.
  intros Hs. assert (Hx : x ∈ procs) by (rewrite Hs; set_solver). split.
  - unfold procs in Hx. apply elem_of_seqZ in Hx. lia.
  - assert (Hn : NoDup procs) by apply NoDup_seqZ. rewrite Hs in Hn. apply NoDup_app in Hn as (_ & Hn & _).
    intros Hd. by apply (Hn x Hd), elem_of_cons; left.
Qed.

Definition visited (dn : list Z) (j : Z) : bool := bool_decide (j ∈ dn).

Lemma visited_snoc dn x j : visited (dn ++ [x]) j = visited dn j || (x =? j).
Proof.
  apply eq_true_iff_eq. unfold visited. rewrite orb_true_iff, !bool_decide_eq_true, Z.eqb_eq.
  rewrite elem_of_app, list_elem_of_singleton. naive_solver.
Qed.

Lemma visited_not dn x : x ∉ dn -> visited dn x = false.
Proof. intros. by apply bool_decide_false. Qed.

(** After [wakeup] has visited [dn], from [s0]. *)
Record woken (s0 : sched) (ch : Z) (dn : list Z) (s : sched) : Prop := {
  wk_proc : forall j, PROC_TABLE s j =
    if visited dn j && sleeps_on ch (PROC_TABLE s0 j) then wake (PROC_TABLE s0 j) else PROC_TABLE s0 j;
  wk_u64 : 0 <= RUNNABLE_BITMAP s < U64;
  wk_bits : forall j, 0 <= j < NPROC -> Z.testbit (RUNNABLE_BITMAP s) j =
    Z.testbit (RUNNABLE_BITMAP s0) j || (visited dn j && sleeps_on ch (PROC_TABLE s0 j));
  wk_same : hart_proc s = hart_proc s0 /\ GLOBAL_PID s = GLOBAL_PID s0 /\
    table_locked s = true /\ BITMAP_LOCK s = true /\ sie s = sie s0;
}.

Lemma wp_wakeup_body s0 ch dn x rest s : procs = dn ++ x :: rest -> woken s0 ch dn s ->
  wp (p ← proc_at x;
      (if decide (state p = Sleeping /\ sleep_chan p = ch) then
         modify (upd_proc x (fun p => set_sleep_chan 0 (set_state Runnable p)));;
         mark_runnable x
       else mret tt);;
      mret (inl tt : unit + Empty_set)) (fun r s' => match r with inl _ => woken s0 ch (dn ++ [x]) s' | inr _ => False end) s.
Proof.
  intros Hs [Hp Hu Hb Hsm]. destruct (procs_split _ _ _ Hs) as [Hx Hnot%visited_not].
  assert (Hpx : PROC_TABLE s x = PROC_TABLE s0 x) by by rewrite Hp, Hnot.
  wp_step. wp_step. wp_step. rewrite Hpx. destruct (decide _) as [Hsl|Hns].
  - assert (Hs1 : sleeps_on ch (PROC_TABLE s0 x) = true) by by apply bool_decide_true.
    wp_step. wp_step. apply wp_mark; [done|]. wp_step. split; [| | |done].
    + intros j. cbn [PROC_TABLE set_bitmap]. rewrite visited_snoc. destruct (Z.eqb_spec x j) as [<-|Hne].
      * by rewrite upd_proc_eq, Hpx, orb_true_r, Hs1.
      * by rewrite upd_proc_ne, orb_false_r by done.
    + cbn [RUNNABLE_BITMAP set_bitmap upd_proc set_table]. by apply lor_u64.
    + intros j Hj. cbn [RUNNABLE_BITMAP set_bitmap upd_proc set_table]. rewrite set_bit_spec, Hb, visited_snoc by lia.
      destruct (Z.eqb_spec x j) as [<-|Hne]; [by rewrite Hs1, !orb_true_r|by rewrite !orb_false_r].
  - assert (Hs0 : sleeps_on ch (PROC_TABLE s0 x) = false) by by apply bool_decide_false.
    do 2 wp_step. split; [|done| |done].
    + intros j. rewrite Hp, visited_snoc. destruct (Z.eqb_spec x j) as [<-|Hne];
        [by rewrite Hs0, !andb_false_r|by rewrite orb_false_r].
    + intros j Hj. rewrite Hb, visited_snoc by done. destruct (Z.eqb_spec x j) as [<-|Hne];
        [by rewrite Hs0, !andb_false_r|by rewrite orb_false_r].
Qed.

(** What a wake-up does from any state without locks held. *)
Record woke (s : sched) (ch : Z) (s' : sched) : Prop := {
  wo_proc : forall j, 0 <= j < NPROC -> PROC_TABLE s' j =
    if sleeps_on ch (PROC_TABLE s j) then wake (PROC_TABLE s j) else PROC_TABLE s j;
  wo_u64 : 0 <= RUNNABLE_BITMAP s' < U64;
  wo_bits : forall j, 0 <= j < NPROC ->
    Z.testbit (RUNNABLE_BITMAP s') j = Z.testbit (RUNNABLE_BITMAP s) j || sleeps_on ch (PROC_TABLE s j);
  wo_same : hart_proc s' = hart_proc s /\ GLOBAL_PID s' = GLOBAL_PID s /\
    table_locked s' = false /\ BITMAP_LOCK s' = false /\ sie s' = sie s;
}.

Lemma wp_wakeup ch s : table_locked s = false -> BITMAP_LOCK s = false -> 0 <= RUNNABLE_BITMAP s < U64 ->
  wp (wakeup ch) (fun _ s' => woke s ch s') s.
Proof.
  intros Hl Hm Hu. unfold wakeup. wp_step. apply wp_sie_off. wp_step. apply wp_rq_lock; [done|].
  wp_step. apply wp_lock_table; [done|]. wp_step.
  set (s1 := set_table_locked true _).
  apply (wp_for_each (fun dn _ s' => woken s1 ch dn s')).
  - assert (Hv : forall j, visited [] j = false) by (intros j; apply visited_not, not_elem_of_nil).
    split; [intros j; by rewrite Hv|done|intros j _; by rewrite Hv, orb_false_r|done].
  - intros dn x rest [] s' Hs Hw. eapply wp_mono; [|by eapply wp_wakeup_body].
    intros [[]|[]] s''; done.
  - intros [] s' [Hp Hu' Hb (Hh & Hg & _ & _ & Hsie)].
    assert (Hv : forall j, 0 <= j < NPROC -> visited procs j = true)
      by (intros j Hj; apply bool_decide_true, elem_of_seqZ; lia).
    assert (Hdone : forall s2, PROC_TABLE s2 = PROC_TABLE s' -> RUNNABLE_BITMAP s2 = RUNNABLE_BITMAP s' ->
      hart_proc s2 = hart_proc s' -> GLOBAL_PID s2 = GLOBAL_PID s' -> table_locked s2 = false ->
      BITMAP_LOCK s2 = false -> sie s2 = sie s -> woke s ch s2).
    { intros s2 E1 E2 E3 E4 E5 E6 E7. split.
      - intros j Hj. rewrite E1, Hp, Hv by done. done.
      - by rewrite E2.
      - intros j Hj. rewrite E2, Hb, Hv by done. done.
      - rewrite E3, E4, Hh, Hg. done. }
    wp_step. unfold sie_restore. cbv beta. destruct (sie s) eqn:Hs0; repeat wp_step; by apply Hdone.
Qed.

Lemma woke_inv s ch s' : sched_inv s -> woke s ch s' -> sched_inv s'.
Proof.
  intros [Hl Hm Hu Hb Hr Hc Hd] [Hp Hu' Hb' (Hh & _ & Hl' & Hm' & _)].
  assert (Hst : forall j, 0 <= j < NPROC -> state (PROC_TABLE s' j) =
    if sleeps_on ch (PROC_TABLE s j) then Runnable else state (PROC_TABLE s j))
    by (intros j Hj; rewrite Hp by done; by destruct (sleeps_on _ _)).
  split; [done|done|done| | | |].
  - intros j Hj. rewrite Hb', Hst, orb_true_iff, Hb by done. destruct (sleeps_on _ _); naive_solver.
  - intros j Hj. rewrite Hst, Hh by done. destruct (sleeps_on _ _); [done|by apply Hr].
  - intros j. rewrite Hh. intros Hj. destruct (Hc j Hj) as [Hj0 Hj1]. split; [done|]. rewrite Hst by done.
    unfold sleeps_on. rewrite bool_decide_false; [done|]. intros [? _]. congruence.
  - intros j Hj. rewrite Hst by done. destruct (sleeps_on _ _); [done|by apply Hd].
Qed.

(** *** Waiting for children *)

Definition child_of (s : sched) (c j : Z) : bool := parent (PROC_TABLE s j) =? proc_addr c.
Definition zombie_child (s : sched) (c j : Z) : bool :=
  child_of s c j && bool_decide (state (PROC_TABLE s j) = Zombie).

Lemma wait_scan s c xs acc :
  for_each xs (fun have_kids i =>
    p ← proc_at i;
    if parent p =? proc_addr c then
      if decide (state p = Zombie) then
        modify (upd_proc i (fun _ => Process_new));;
        mret (inr (pid p, exit_code p))
      else mret (inl true)
    else mret (inl have_kids)) acc s =
  match find (zombie_child s c) xs with
  | Some j => Ret (inr (pid (PROC_TABLE s j), exit_code (PROC_TABLE s j))) (upd_proc j (fun _ => Process_new) s)
  | None => Ret (inl (acc || existsb (child_of s c) xs)) s
  end.
Proof.
  revert acc. induction xs as [|x xs IH]; intros acc; [simpl; by rewrite orb_false_r|].
  cbn [for_each find existsb]. unfold zombie_child at 1.
  change (child_of s c x) with (parent (PROC_TABLE s x) =? proc_addr c).
  destruct (parent (PROC_TABLE s x) =? proc_addr c) eqn:E.
  - destruct (decide (state (PROC_TABLE s x) = Zombie)) as [Hz|Hz].
    + erewrite bind_run.
      2: { erewrite bind_run by reflexivity. rewrite E, decide_True by done. by erewrite bind_run by reflexivity. }
      by rewrite (bool_decide_true _ Hz).
    + erewrite bind_run by (erewrite bind_run by reflexivity; rewrite E, decide_False by done; reflexivity).
      cbv beta iota. rewrite IH, (bool_decide_false _ Hz). simpl.
      destruct (find _ _); [done|]. by rewrite orb_true_r.
  - erewrite bind_run by (erewrite bind_run by reflexivity; rewrite E; reflexivity). cbv beta iota. by rewrite IH.
Qed.

Lemma lock_table_run s : table_locked s = false -> lock_table s = Ret tt (set_table_locked true s).
Proof. intros Hl. unfold lock_table. erewrite bind_run by reflexivity. by rewrite Hl. Qed.

(** Locking a lock that is held never returns. *)
Lemma find_proc_index_hang s ptr : table_locked s = true ->
  find_proc_index base psize ptr s = Hang "PROC_TABLE is already locked".
Proof.
  intros Hl. unfold find_proc_index, mbind at 1, M_bind at 1, lock_table.
  by erewrite bind_run by reflexivity; rewrite Hl.
Qed.

Lemma bind_hang {A B} (m : M sched A) (k : A -> M sched B) s w : m s = Hang w -> (m ≫= k) s = Hang w.
Proof. unfold mbind, M_bind. by intros ->. Qed.

Lemma wait_run s c : hart_proc s = Some c -> table_locked s = false ->
  wait_round s =
  match find (zombie_child s c) procs with
  | Some j => Ret (inr (Some (pid (PROC_TABLE s j), exit_code (PROC_TABLE s j))))
      (set_sie (sie s) (set_table_locked false (upd_proc j (fun _ => Process_new) s)))
  | None =>
      if existsb (child_of s c) procs then Hang "PROC_TABLE is already locked"
      else Ret (inr None) (set_sie (sie s) (set_table_locked false s))
  end.
Proof.
  intros Hh Hl. unfold wait_round.
  erewrite bind_run by (unfold current; erewrite bind_run by reflexivity; rewrite Hh; reflexivity).
  erewrite bind_run by reflexivity. rewrite (bind_run _ _ _ _ _ (lock_table_run (set_sie false s) Hl)).
  set (s1 := set_table_locked true _).
  unfold mbind at 1, M_bind at 1. rewrite wait_scan.
  change (zombie_child s1 c) with (zombie_child s c). change (child_of s1 c) with (child_of s c).
  destruct (find (zombie_child s c) procs) as [j|].
  - erewrite bind_run by reflexivity. destruct s as [????? ? []]; reflexivity.
  - rewrite orb_false_l. destruct (existsb _ _).
    + erewrite bind_run by reflexivity. by apply bind_hang, find_proc_index_hang.
    + erewrite bind_run by reflexivity. destruct s as [????? ? []]; reflexivity.
Qed.

Lemma sleep_hangs s i ch : hart_proc s = Some i -> table_locked s = false ->
  sleep ch s = Hang "PROC_TABLE is already locked".
Proof.
  intros Hh Hl. unfold sleep.
  erewrite bind_run by (unfold current; erewrite bind_run by reflexivity; rewrite Hh; reflexivity).
  erewrite bind_run by reflexivity. rewrite (bind_run _ _ _ _ _ (lock_table_run (set_sie false s) Hl)).
  erewrite bind_run by reflexivity. by apply bind_hang, find_proc_index_hang.
Qed.

(** Freeing the slot of a dead process keeps the invariant. *)
Lemma reap_inv s j b : sched_inv s -> 0 <= j < NPROC -> state (PROC_TABLE s j) = Zombie ->
  sched_inv (set_sie b (set_table_locked false (upd_proc j (fun _ => Process_new) s))).
Proof.
  intros [Hl Hm Hu Hb Hr Hc Hd] Hj Hz.
  assert (Hother : forall k, k <> j -> PROC_TABLE (upd_proc j (fun _ => Process_new) s) k = PROC_TABLE s k)
    by (intros; by apply upd_proc_ne).
  split; [done|done|done| | | |]; cbn [PROC_TABLE set_sie set_table_locked hart_proc RUNNABLE_BITMAP upd_proc set_table].
  - intros k Hk. rewrite Hb by done. destruct (decide (k = j)) as [->|Hne];
      [rewrite fn_lookup_insert, Hz; done|by rewrite fn_lookup_insert_ne].
  - intros k Hk. destruct (decide (k = j)) as [->|Hne]; [by rewrite fn_lookup_insert|].
    rewrite fn_lookup_insert_ne by done. by apply Hr.
  - intros k Hk. destruct (Hc k Hk) as [? Hrun]. split; [done|]. rewrite fn_lookup_insert_ne; [done|].
    intros ->. congruence.
  - intros k Hk. destruct (decide (k = j)) as [->|Hne]; [by rewrite fn_lookup_insert|].
    rewrite fn_lookup_insert_ne by done. by apply Hd.
Qed.

(** *** Creating processes *)

Definition fresh_proc (s : sched) (i : Z) (s' : sched) : Prop :=
  0 <= i < NPROC /\ state (PROC_TABLE s i) = Unused /\ (forall j, 0 <= j < i -> state (PROC_TABLE s j) <> Unused) /\
  PROC_TABLE s' = <[i := mkProc Runnable 0 0 0 (GLOBAL_PID s)]> (PROC_TABLE s) /\
  RUNNABLE_BITMAP s' = Z.lor (RUNNABLE_BITMAP s) (Z.shiftl 1 i) /\
  GLOBAL_PID s' = wrap64 (GLOBAL_PID s + 1) /\ hart_proc s' = hart_proc s /\
  table_locked s' = false /\ BITMAP_LOCK s' = BITMAP_LOCK s.

Lemma find_seqZ_spec (p : Z -> bool) : match find p procs with
  | Some i => 0 <= i < NPROC /\ p i = true /\ forall j, 0 <= j < i -> p j = false
  | None => forall j, 0 <= j < NPROC -> p j = false
  end.
Proof.
  unfold procs, NPROC. change 64 with (Z.of_nat 64). generalize 64%nat as n. intros n.
  assert (Hgen : forall lo, match find p (seqZ lo (Z.of_nat n)) with
    | Some i => lo <= i < lo + Z.of_nat n /\ p i = true /\ forall j, lo <= j < i -> p j = false
    | None => forall j, lo <= j < lo + Z.of_nat n -> p j = false
    end).
  { induction n as [|n IH]; intros lo; [simpl; lia|]. rewrite seqZ_cons by lia. simpl.
    destruct (p lo) eqn:E; [split; [lia|]; split; [done|lia]|].
    specialize (IH (Z.succ lo)). replace (Z.pred (Z.of_nat (S n))) with (Z.of_nat n) by lia.
    destruct (find _ _) as [i|].
    - destruct IH as (H1 & H2 & H3). split; [lia|]. split; [done|]. intros j Hj.
      destruct (Z.eq_dec j lo) as [->|]; [done|]. apply H3. lia.
    - intros j Hj. destruct (Z.eq_dec j lo) as [->|]; [done|]. apply IH. lia. }
  specialize (Hgen 0). rewrite Z.add_0_l in Hgen. exact Hgen.
Qed.

Lemma wp_proc_alloc s : table_locked s = false ->
  wp proc_alloc (fun r s' => match r with
    | Some i => fresh_proc s i s'
    | None => (forall j, 0 <= j < NPROC -> state (PROC_TABLE s j) <> Unused) /\
        s' = set_sie (sie s) (set_table_locked false s)
    end) s.
Proof.
  intros Hl. unfold proc_alloc. wp_step. apply wp_sie_off. wp_step. apply wp_lock_table; [done|].
  set (s1 := set_table_locked true _).
  pose (unused := fun i => bool_decide (state (PROC_TABLE s i) = Unused)).
  pose (h := fun i => set_sie (sie s) (set_bitmap (Z.lor (RUNNABLE_BITMAP s) (Z.shiftl 1 i))
    (upd_proc i (fun _ => mkProc Runnable 0 0 0 (GLOBAL_PID s)) (set_global_pid (wrap64 (GLOBAL_PID s + 1)) s1)))).
  wp_step. unfold wp at 1. rewrite (for_each_find unused _ id h).
  - pose proof (find_seqZ_spec unused) as Hf. destruct (find unused procs) as [i|].
    + destruct Hf as (Hi & Hu & Hlow). wp_steps. split; [done|]. split; [by apply bool_decide_eq_true in Hu|].
      split; [|by split_and!]. intros j Hj Hju. specialize (Hlow j Hj). by apply bool_decide_eq_false in Hlow.
    + assert (Hn : forall j, 0 <= j < NPROC -> state (PROC_TABLE s j) <> Unused)
        by (intros j Hj Hju; specialize (Hf j Hj); by apply bool_decide_eq_false in Hf).
      wp_step. unfold sie_restore. destruct (sie s) eqn:Hsie; wp_steps; (split; [done|]);
        by destruct s; simpl in *; subst.
  - intros i _ Hu. apply bool_decide_eq_false in Hu. unfold alloc_body. erewrite bind_run by reflexivity.
    by rewrite decide_False.
  - intros i Hi Hu. apply bool_decide_eq_true in Hu. apply elem_of_seqZ in Hi. unfold alloc_body.
    erewrite bind_run by reflexivity. rewrite decide_True by done.
    unfold mark_runnable. rewrite (proj2 (Z.leb_gt _ _)) by lia. unfold h. by destruct s as [????? ? []].
Qed.

Lemma fresh_proc_inv s i s' : sched_inv s -> fresh_proc s i s' -> sched_inv s'.
Proof.
  intros [Hl Hm Hu Hb Hr Hc Hd] (Hi & Hun & _ & Ht & Hbm & _ & Hh & Hl' & Hm').
  assert (Hsame : PROC_TABLE s' i = mkProc Runnable 0 0 0 (GLOBAL_PID s)) by (rewrite Ht; apply fn_lookup_insert).
  assert (Hother : forall j, j <> i -> PROC_TABLE s' j = PROC_TABLE s j)
    by (intros j Hj; rewrite Ht; by apply fn_lookup_insert_ne).
  split; [done|congruence|rewrite Hbm; by apply lor_u64| | | |].
  - intros j Hj. rewrite Hbm, set_bit_spec, orb_true_iff, Z.eqb_eq, Hb by lia.
    destruct (decide (j = i)) as [->|Hne]; [rewrite Hsame; tauto|]. rewrite Hother by done. naive_solver.
  - intros j Hj. destruct (decide (j = i)) as [->|Hne]; [by rewrite Hsame|]. rewrite Hother, Hh by done. by apply Hr.
  - intros j. rewrite Hh. intros Hj. destruct (Hc j Hj) as [? Hrun]. split; [done|].
    rewrite Hother; [done|]. intros ->. congruence.
  - intros j Hj. destruct (decide (j = i)) as [->|Hne]; [by rewrite Hsame|]. rewrite Hother by done. by apply Hd.
Qed.

(** *** Exiting *)

Definition adopt (i : Z) (p : Process) : Process := if parent p =? proc_addr i then set_parent (proc_addr 0) p else p.

Record reparented (s0 : sched) (i : Z) (dn : list Z) (self : option Z) (s : sched) : Prop := {
  rp_proc : forall j, PROC_TABLE s j = if visited dn j then adopt i (PROC_TABLE s0 j) else PROC_TABLE s0 j;
  rp_self : self = if visited dn i then Some i else None;
  rp_same : RUNNABLE_BITMAP s = RUNNABLE_BITMAP s0 /\ hart_proc s = hart_proc s0 /\ GLOBAL_PID s = GLOBAL_PID s0 /\
    table_locked s = table_locked s0 /\ BITMAP_LOCK s = BITMAP_LOCK s0;
}.

Lemma wp_reparent s0 i : 0 < psize -> 0 <= i < NPROC ->
  wp (for_each procs (reparent_body i) None) (fun r s => match r with
    | inl self => self = Some i /\ reparented s0 i procs (Some i) s
    | inr _ => False
    end) s0.
Proof.
  intros Hp Hi.
  assert (Hv : visited procs i = true) by (apply bool_decide_true, elem_of_seqZ; lia).
  apply (wp_for_each (fun dn self s => reparented s0 i dn self s)).
  - assert (Hv0 : forall j, visited [] j = false) by (intros j; apply visited_not, not_elem_of_nil).
    split; [intros j; by rewrite Hv0|by rewrite Hv0|done].
  - intros dn x rest self s Hs [Hpr Hself Hsm]. destruct (procs_split _ _ _ Hs) as [Hx Hnot%visited_not].
    assert (Hpx : PROC_TABLE s x = PROC_TABLE s0 x) by by rewrite Hpr, Hnot.
    assert (Haddr : (proc_addr x =? proc_addr i) = (x =? i)).
    { apply eq_true_iff_eq. rewrite !Z.eqb_eq. unfold proc_addr. split; [|by intros ->]. nia. }
    assert (Hself' : (if proc_addr x =? proc_addr i then Some x else self) = if visited (dn ++ [x]) i then Some i else None).
    { rewrite Haddr, visited_snoc, Hself. destruct (Z.eqb_spec x i) as [->|]; [by rewrite orb_true_r|by rewrite orb_false_r]. }
    unfold reparent_body. wp_step. wp_step. wp_step. rewrite Hpx, Hself'.
    destruct (parent (PROC_TABLE s0 x) =? proc_addr i) eqn:E; wp_steps; (split; [|done|done]); intros j; rewrite visited_snoc.
    + destruct (Z.eqb_spec x j) as [<-|Hne].
      * rewrite upd_proc_eq, Hpx, orb_true_r. unfold adopt. by rewrite E.
      * by rewrite upd_proc_ne, Hpr, orb_false_r by done.
    + rewrite Hpr. destruct (Z.eqb_spec x j) as [<-|Hne]; [|by rewrite orb_false_r].
      rewrite orb_true_r, Hnot. unfold adopt. by rewrite E.
  - intros self s [Hpr Hself Hsm]. rewrite Hv in Hself. subst self. split; [done|]. split; [done|by rewrite Hv|done].
Qed.

(** What an exit leaves: a zombie with its code, its sleeping parent awake,
    its children handed to the first process. *)
Record exited (s : sched) (i code : Z) (s' : sched) : Prop := {
  xt_self : state (PROC_TABLE s' i) = Zombie /\ exit_code (PROC_TABLE s' i) = code /\ pid (PROC_TABLE s' i) = pid (PROC_TABLE s i);
  xt_other : forall j, 0 <= j < NPROC -> j <> i ->
    state (PROC_TABLE s' j) = (if negb (parent (PROC_TABLE s i) =? 0) && sleeps_on (parent (PROC_TABLE s i)) (PROC_TABLE s j)
      then Runnable else state (PROC_TABLE s j)) /\
    parent (PROC_TABLE s' j) = (if parent (PROC_TABLE s j) =? proc_addr i then proc_addr 0 else parent (PROC_TABLE s j)) /\
    pid (PROC_TABLE s' j) = pid (PROC_TABLE s j) /\ exit_code (PROC_TABLE s' j) = exit_code (PROC_TABLE s j);
  xt_hart : hart_proc s' = None;
}.

(** The wake-up of the parent, when there is one. *)
Definition woke_if (b : bool) (s : sched) (ch : Z) (s' : sched) : Prop :=
  if b then woke s ch s' else s' = s.

Lemma wp_proc_exit_begin s i : 0 < psize -> 0 <= i < NPROC -> table_locked s = false -> BITMAP_LOCK s = false ->
  0 <= RUNNABLE_BITMAP s < U64 ->
  wp (proc_exit_begin i) (fun _ s' => exists s1, woke_if (negb (parent (PROC_TABLE s i) =? 0)) (set_sie false s) (parent (PROC_TABLE s i)) s1 /\
    PROC_TABLE s' i = set_state Dying (adopt i (PROC_TABLE s1 i)) /\
    (forall j, 0 <= j < NPROC -> j <> i -> PROC_TABLE s' j = adopt i (PROC_TABLE s1 j)) /\
    RUNNABLE_BITMAP s' = Z.land (RUNNABLE_BITMAP s1) (unot (Z.shiftl 1 i)) /\
    hart_proc s' = hart_proc s /\ table_locked s' = false /\ BITMAP_LOCK s' = false) s.
Proof.
  intros Hp Hi Hl Hm Hu. unfold proc_exit_begin. wp_step. apply wp_sie_off. do 3 wp_step.
  eapply (wp_mono _ (fun _ s1 => woke_if (negb (parent (PROC_TABLE s i) =? 0)) (set_sie false s) (parent (PROC_TABLE s i)) s1)).
  2: { cbn [PROC_TABLE set_sie]. destruct (negb _); [by apply wp_wakeup|by wp_step]. }
  intros [] s1 Hw.
  assert (Hlk : table_locked s1 = false /\ BITMAP_LOCK s1 = false /\ hart_proc s1 = hart_proc s).
  { unfold woke_if in Hw. destruct (negb _); [|by subst]. destruct (wo_same _ _ _ Hw) as (? & ? & ? & ? & ?). done. }
  destruct Hlk as (Hl1 & Hm1 & Hh1).
  wp_step. apply wp_lock_table; [done|]. wp_step. eapply wp_mono; [|by apply wp_reparent].
  intros [self|[]] s2. intros [-> [Hpr _ (Hb2 & Hh2 & _ & Hl2 & Hm2)]].
  assert (Hv : forall j, 0 <= j < NPROC -> visited procs j = true)
    by (intros j Hj; apply bool_decide_true, elem_of_seqZ; lia).
  wp_step. refine (proj2 (wp_clear i _ _ Hi _)). do 5 wp_step.
  assert (Hend : forall s3, PROC_TABLE s3 = <[i := set_state Dying (PROC_TABLE s2 i)]> (PROC_TABLE s2) ->
    RUNNABLE_BITMAP s3 = Z.land (RUNNABLE_BITMAP s2) (unot (Z.shiftl 1 i)) -> hart_proc s3 = hart_proc s2 ->
    table_locked s3 = false -> BITMAP_LOCK s3 = BITMAP_LOCK s2 ->
    exists s1, woke_if (negb (parent (PROC_TABLE s i) =? 0)) (set_sie false s) (parent (PROC_TABLE s i)) s1 /\
    PROC_TABLE s3 i = set_state Dying (adopt i (PROC_TABLE s1 i)) /\
    (forall j, 0 <= j < NPROC -> j <> i -> PROC_TABLE s3 j = adopt i (PROC_TABLE s1 j)) /\
    RUNNABLE_BITMAP s3 = Z.land (RUNNABLE_BITMAP s1) (unot (Z.shiftl 1 i)) /\
    hart_proc s3 = hart_proc s /\ table_locked s3 = false /\ BITMAP_LOCK s3 = false).
  { intros s3 E1 E2 E3 E4 E5. exists s1. split; [done|]. split_and!.
    - rewrite E1, fn_lookup_insert, Hpr, Hv by done. done.
    - intros j Hj Hne. rewrite E1, fn_lookup_insert_ne, Hpr, Hv by done. done.
    - by rewrite E2, Hb2.
    - by rewrite E3, Hh2.
    - done.
    - by rewrite E5, Hm2. }
  by apply Hend.
Qed.

Lemma wp_proc_exit s i : 0 < psize -> 0 <= i < NPROC -> table_locked s = false -> BITMAP_LOCK s = false ->
  0 <= RUNNABLE_BITMAP s < U64 ->
  wp (proc_exit i) (fun _ s' => exists s1, woke_if (negb (parent (PROC_TABLE s i) =? 0)) (set_sie false s) (parent (PROC_TABLE s i)) s1 /\
    PROC_TABLE s' i = set_state Dying (adopt i (PROC_TABLE s1 i)) /\
    (forall j, 0 <= j < NPROC -> j <> i -> PROC_TABLE s' j = adopt i (PROC_TABLE s1 j)) /\
    RUNNABLE_BITMAP s' = Z.land (RUNNABLE_BITMAP s1) (unot (Z.shiftl 1 i)) /\
    hart_proc s' = hart_proc s /\ table_locked s' = false /\ BITMAP_LOCK s' = false) s.
Proof.
  intros Hp Hi Hl Hm Hu. unfold proc_exit. wp_step. eapply wp_mono; [|by apply wp_proc_exit_begin].
  intros b s' Hs. unfold sie_restore. destruct b; by wp_step.
Qed.

Lemma adopt_fields i p : state (adopt i p) = state p /\ pid (adopt i p) = pid p /\ exit_code (adopt i p) = exit_code p /\
  parent (adopt i p) = if parent p =? proc_addr i then proc_addr 0 else parent p.
Proof. unfold adopt. by destruct (_ =? _). Qed.

(** The state in between: the table after the wake-up, seen from the start. *)
Lemma woke_if_fields b s i code ch s1 : hart_proc s = Some i -> state (PROC_TABLE s i) = Running -> 0 <= i < NPROC ->
  woke_if b (set_sie false (upd_proc i (set_exit_code code) s)) ch s1 -> 0 <= RUNNABLE_BITMAP s < U64 ->
  PROC_TABLE s1 i = set_exit_code code (PROC_TABLE s i) /\
  (forall j, 0 <= j < NPROC -> j <> i -> PROC_TABLE s1 j =
     if b && sleeps_on ch (PROC_TABLE s j) then wake (PROC_TABLE s j) else PROC_TABLE s j) /\
  0 <= RUNNABLE_BITMAP s1 < U64 /\
  (forall j, 0 <= j < NPROC -> j <> i -> Z.testbit (RUNNABLE_BITMAP s1) j =
     Z.testbit (RUNNABLE_BITMAP s) j || (b && sleeps_on ch (PROC_TABLE s j))).
Proof.
  intros Hh Hrun Hi Hw Hu. set (s0 := set_sie false _) in *.
  assert (Hself : PROC_TABLE s0 i = set_exit_code code (PROC_TABLE s i)) by apply upd_proc_eq.
  assert (Hother : forall j, j <> i -> PROC_TABLE s0 j = PROC_TABLE s j) by (intros; by apply upd_proc_ne).
  destruct b; simpl in Hw.
  - destruct Hw as [Hp Hu1 Hb _]. split; [|split; [|split; [done|]]].
    + rewrite Hp, Hself by done. unfold sleeps_on. rewrite bool_decide_false; [done|]. intros [H _]. simpl in H. congruence.
    + intros j Hj Hne. by rewrite Hp, Hother.
    + intros j Hj Hne. by rewrite Hb, Hother.
  - subst s1. split; [done|]. split; [intros j Hj Hne; by rewrite Hother|]. split; [done|]. intros j Hj Hne. simpl. by rewrite orb_false_r.
Qed.

Lemma wp_exit s i code : 0 < psize -> sched_inv s -> hart_proc s = Some i ->
  wp (sys_exit code;; scheduler_return i) (fun _ s' => sched_inv s' /\ exited s i code s') s.
Proof.
  intros Hp Hinv Hh. pose proof Hinv as [Hl Hm Hu Hb Hr Hc Hd]. destruct (Hc i Hh) as [Hi Hrun].
  unfold sys_exit. wp_step. wp_step. unfold current at 1. do 2 wp_step. rewrite Hh. apply (wp_expect _ _ i); [done|].
  do 3 wp_step. eapply wp_mono; [|by apply (wp_proc_exit (upd_proc i (set_exit_code code) s) i)].
  intros [] s2 (s1 & Hw & Hself & Hother & Hbm & Hh2 & Hl2 & Hm2).
  assert (Hpar : parent (PROC_TABLE (upd_proc i (set_exit_code code) s) i) = parent (PROC_TABLE s i)) by (by rewrite upd_proc_eq).
  rewrite Hpar in Hw. destruct (woke_if_fields _ s i code _ s1 Hh Hrun Hi Hw Hu) as (H1i & H1j & Hu1 & Hb1).
  clear Hw. assert (Hst2 : state (PROC_TABLE s2 i) = Dying) by by rewrite Hself.
  unfold yield_proc, current. do 3 wp_step. rewrite Hh2. change (hart_proc (upd_proc _ _ s)) with (hart_proc s).
  rewrite Hh. apply (wp_expect _ _ i); [done|]. unfold make_runnable. do 2 wp_step. rewrite decide_False by (by rewrite Hst2). wp_step.
  unfold scheduler_return. do 2 wp_step. wp_step. apply wp_rq_lock; [done|]. wp_step. apply wp_lock_table; [done|].
  do 3 wp_step. cbn [PROC_TABLE set_table_locked set_bitmap_lock set_hart_proc]. rewrite decide_True by done. wp_steps.
  set (s' := set_bitmap_lock _ _).
  assert (Hi' : PROC_TABLE s' i = set_state Zombie (PROC_TABLE s2 i)) by apply fn_lookup_insert.
  assert (Hj' : forall j, 0 <= j < NPROC -> j <> i -> PROC_TABLE s' j = adopt i (PROC_TABLE s1 j)).
  { intros j Hj Hne. rewrite <-Hother by done. by apply fn_lookup_insert_ne. }
  assert (Hsj : forall j, 0 <= j < NPROC -> j <> i -> state (PROC_TABLE s' j) =
    if negb (parent (PROC_TABLE s i) =? 0) && sleeps_on (parent (PROC_TABLE s i)) (PROC_TABLE s j)
      then Runnable else state (PROC_TABLE s j)).
  { intros j Hj Hne. rewrite Hj' by done. destruct (adopt_fields i (PROC_TABLE s1 j)) as (-> & _).
    rewrite H1j by done. by destruct (_ && _). }
  assert (Hbm' : RUNNABLE_BITMAP s' = Z.land (RUNNABLE_BITMAP s1) (unot (Z.shiftl 1 i))) by done. split.
  - split; [done|done|rewrite Hbm'; by apply land_u64| | |done|].
    + intros j Hj. rewrite Hbm', clear_bit_spec, andb_true_iff, negb_true_iff, Z.eqb_neq by (done || unfold NPROC in *; lia).
      destruct (decide (j = i)) as [->|Hne]; [rewrite Hi'; split; [intros [_ ?]; lia|done]|].
      rewrite Hsj, Hb1, orb_true_iff, Hb by done. destruct (_ && _); naive_solver.
    + intros j Hj. destruct (decide (j = i)) as [->|Hne]; [by rewrite Hi'|]. rewrite Hsj by done.
      destruct (_ && _); [done|]. intros H%Hr; [|done]. congruence.
    + intros j Hj. destruct (decide (j = i)) as [->|Hne]; [by rewrite Hi'|]. rewrite Hsj by done.
      destruct (_ && _); [done|by apply Hd].
  - split; [| |done].
    + rewrite Hi', Hself. destruct (adopt_fields i (PROC_TABLE s1 i)) as (_ & Hpid & Hcode & _).
      simpl. by rewrite Hpid, Hcode, H1i.
    + intros j Hj Hne. split; [by apply Hsj|]. rewrite Hj' by done.
      destruct (adopt_fields i (PROC_TABLE s1 j)) as (_ & -> & -> & ->). rewrite H1j by done. by destruct (_ && _).
Qed.
End scheduler.

(** ** Runs *)

(** From one return to the scheduler or the running process to the next. *)
Inductive sched_step (base psize : Z) : sched -> sched -> Prop :=
  | step_pick s r s' : hart_proc s = None -> scheduler_pick s = Ret r s' -> sched_step base psize s s'
  | step_yield s i s' : hart_proc s = Some i -> (yield_proc base psize;; scheduler_return i) s = Ret tt s' ->
      sched_step base psize s s'
  | step_exit s i code s' : hart_proc s = Some i -> (sys_exit base psize code;; scheduler_return i) s = Ret tt s' ->
      sched_step base psize s s'
  | step_wait s i r s' : hart_proc s = Some i -> wait_round base psize s = Ret (inr r) s' -> sched_step base psize s s'
  | step_wakeup s ch s' : wakeup ch s = Ret tt s' -> sched_step base psize s s'
  | step_alloc s r s' : proc_alloc s = Ret r s' -> sched_step base psize s s'.

(** The statics at boot. *)
Definition sched_boot : sched := mkSched (fun _ => Process_new) false 0 false 1 None true.

Lemma sched_boot_inv : sched_inv sched_boot.
Proof.
  split; try done. intros i Hi. cbn [RUNNABLE_BITMAP PROC_TABLE sched_boot Process_new state].
  by rewrite Z.bits_0.
Qed.

Lemma sie_table_inv s b : sched_inv s -> sched_inv (set_sie b (set_table_locked false s)).
Proof. by intros []. Qed.

Lemma wp_run {A} (m : M sched A) (Q : A -> sched -> Prop) s a s' : wp m Q s -> m s = Ret a s' -> Q a s'.
Proof. unfold wp. intros H Hr. by rewrite Hr in H. Qed.

Lemma sched_step_inv base psize s s' : 0 < psize -> sched_inv s -> sched_step base psize s s' -> sched_inv s'.
Proof.
  intros Hp Hinv Hstep. destruct Hstep as [s r s' Hh Hr|s i s' Hh Hr|s i code s' Hh Hr|s i r s' Hh Hr|s ch s' Hr|s r s' Hr].
  - by apply (wp_run _ _ _ _ _ (wp_pick s Hinv Hh) Hr).
  - by apply (wp_run _ _ _ _ _ (wp_yield base psize s i Hp Hinv Hh) Hr).
  - by apply (wp_run _ _ _ _ _ (wp_exit base psize s i code Hp Hinv Hh) Hr).
  - rewrite (wait_run base psize s i Hh (si_table _ Hinv)) in Hr.
    pose proof (find_seqZ_spec (zombie_child base psize s i)) as Hf. destruct (find _ _) as [j|].
    + destruct Hf as (Hj & Hz & _). apply andb_true_iff in Hz as [_ Hz%bool_decide_eq_true].
      injection Hr as _ <-. by apply reap_inv.
    + destruct (existsb _ _); [done|]. injection Hr as _ <-. by apply sie_table_inv.
  - pose proof (wp_run _ _ _ _ _ (wp_wakeup ch s (si_table _ Hinv) (si_bm _ Hinv) (si_u64 _ Hinv)) Hr) as H.
    exact (woke_inv s ch s' Hinv H).
  - pose proof (wp_run _ _ _ _ _ (wp_proc_alloc s (si_table _ Hinv)) Hr) as H. destruct r as [i|].
    + exact (fresh_proc_inv s i s' Hinv H).
    + destruct H as [_ ->]. by apply sie_table_inv.
Qed.

(** A running process and its child, which is in state [st]; the table is at
    address 4096 and a process has 1024 bytes. *)
Definition demo_child (st : ProcState) : sched :=
  mkSched (fun i => if i =? 0 then mkProc Running 0 0 0 1 else if i =? 1 then mkProc st 4096 7 0 2 else Process_new)
    false (if decide (st = Runnable) then 2 else 0) false 3 (Some 0) true.

Lemma demo_child_inv st : st <> Running -> st <> Dying -> sched_inv (demo_child st).
Proof.
  intros H1 H2.
  assert (Hbit : forall i, 0 <= i < NPROC -> Z.testbit 2 i = (1 =? i)) by (intros i Hi; apply (Z.pow2_bits_eqb 1); lia).
  split; cbn [table_locked BITMAP_LOCK RUNNABLE_BITMAP PROC_TABLE hart_proc demo_child]; try done.
  - by destruct (decide _).
  - intros i Hi. destruct (Z.eqb_spec i 0) as [->|Hn0]; [by destruct (decide _)|].
    destruct (Z.eqb_spec i 1) as [->|Hn1]; [by destruct (decide _)|].
    destruct (decide _); [rewrite Hbit by done|by rewrite Z.bits_0]. rewrite (proj2 (Z.eqb_neq _ _)) by lia. done.
  - intros i Hi. destruct (Z.eqb_spec i 0) as [->|Hn0]; [done|]. by destruct (i =? 1).
  - intros i [= <-]. done.
  - intros i Hi. destruct (Z.eqb_spec i 0) as [->|Hn0]; [done|]. by destruct (i =? 1).
Qed.

(** ** Properties *)

(** C4: in every reachable state of the scheduler (any interleaving of picks,
    yields, exits, answered waits, wake-ups and process creations from boot) no
    lock is left held, the bitmap has a process's bit exactly when it is
    runnable, at most the hart's current process is running, and no process is
    left dying. *)
Theorem scheduler_invariant base psize s :
  0 < psize -> rtc (sched_step base psize) sched_boot s -> sched_inv s.
Proof.
  intros Hp. assert (Hgen : forall a, sched_inv a -> rtc (sched_step base psize) a s -> sched_inv s).
  { intros a Ha Hr. induction Hr as [|a b c Hab _ IH]; [done|]. by apply IH, (sched_step_inv base psize a). }
  apply Hgen, sched_boot_inv.
Qed.

Lemma scheduler_invariant_witness : sched_inv (final proc_alloc sched_boot).
Proof.
  apply (scheduler_invariant 4096 1024); [lia|]. eapply rtc_l; [|apply rtc_refl].
  apply (step_alloc 4096 1024 sched_boot (Some 0)). vm_compute. reflexivity.
Defined.

(** The scheduler runs the runnable process with the lowest index and
    changes nothing else; it runs none exactly when no process is runnable. *)
Theorem scheduler_pick_correct s : sched_inv s -> hart_proc s = None ->
  wp scheduler_pick (fun r s' => sched_inv s' /\
    match r with
    | Some i => picked s i s'
    | None => PROC_TABLE s' = PROC_TABLE s /\ hart_proc s' = None /\
        forall i, 0 <= i < NPROC -> state (PROC_TABLE s i) <> Runnable
    end) s.
Proof. apply wp_pick. Qed.

Lemma scheduler_pick_correct_witness :
  wp scheduler_pick (fun r s' => sched_inv s' /\ r = None) sched_boot.
Proof.
  eapply wp_mono; [|exact (scheduler_pick_correct sched_boot sched_boot_inv eq_refl)].
  intros [i|] s' [Hinv H]; [|exact (conj Hinv eq_refl)]. discriminate (pk_runnable _ _ _ H).
Defined.

(** A process that yields while every other runnable process has a higher
    index is picked again at once: the others never run. *)
Theorem yield_keeps_lowest base psize s i :
  0 < psize -> sched_inv s -> hart_proc s = Some i ->
  (forall j, 0 <= j < i -> state (PROC_TABLE s j) <> Runnable) ->
  wp (yield_proc base psize;; scheduler_return i;; scheduler_pick) (fun r s' => r = Some i /\ hart_proc s' = Some i) s.
Proof.
  intros Hp Hinv Hh Hlow. destruct (si_current _ Hinv i Hh) as [Hi _].
  assert (Hassoc : (yield_proc base psize;; scheduler_return i;; scheduler_pick) s =
    ((yield_proc base psize;; scheduler_return i);; scheduler_pick) s).
  { unfold mbind, M_bind. by destruct (yield_proc base psize s). }
  unfold wp. rewrite Hassoc. apply wp_bind. eapply wp_mono; [|by apply wp_yield].
  intros [] s1 (Hinv1 & Hh1 & Hi1 & Hj1). eapply wp_mono; [|by apply wp_pick].
  intros [k|] s2 [_ H].
  - destruct (Z.lt_trichotomy k i) as [Hlt|[->|Hgt]].
    + destruct (Hlow k); [pose proof (pk_range _ _ _ H); lia|]. rewrite <-Hj1 by lia. apply H.
    + split; [done|apply H].
    + destruct (pk_lowest _ _ _ H i); [lia|]. by rewrite Hi1.
  - destruct H as (_ & _ & H). destruct (H i Hi). by rewrite Hi1.
Qed.

Lemma yield_keeps_lowest_witness :
  wp (yield_proc 4096 1024;; scheduler_return 0;; scheduler_pick)
    (fun r s' => r = Some 0 /\ hart_proc s' = Some 0) (demo_child Runnable).
Proof.
  apply (yield_keeps_lowest 4096 1024 (demo_child Runnable) 0);
    [lia|apply demo_child_inv; discriminate|reflexivity|intros j Hj; lia].
Defined.

(** C37: [exit] of the running process ends in the scheduler: the process is a
    zombie with its exit code, exactly its parent's sleep is ended, its
    children have the first process as parent, and the invariant holds. *)
Theorem exit_correct base psize s i code :
  0 < psize -> sched_inv s -> hart_proc s = Some i ->
  wp (sys_exit base psize code;; scheduler_return i)
    (fun _ s' => sched_inv s' /\ exited base psize s i code s') s.
Proof. apply wp_exit. Qed.

Lemma exit_correct_witness :
  wp (sys_exit 4096 1024 3;; scheduler_return 0)
    (fun _ s' => exit_code (PROC_TABLE s' 0) = 3 /\ hart_proc s' = None) (demo_child Sleeping).
Proof.
  eapply wp_mono; [|exact (exit_correct 4096 1024 (demo_child Sleeping) 0 3 (ltac:(lia) : 0 < 1024)
    (demo_child_inv Sleeping ltac:(discriminate) ltac:(discriminate)) eq_refl)].
  intros [] s' [_ H]. exact (conj (proj1 (proj2 (xt_self _ _ _ _ _ _ H))) (xt_hart _ _ _ _ _ _ H)).
Defined.

(** A wake-up makes runnable exactly the processes asleep on its channel
    and marks them in the bitmap, leaves every other process alone, and keeps
    the invariant. *)
Theorem wakeup_correct ch s : sched_inv s ->
  wp (wakeup ch) (fun _ s' => sched_inv s' /\ woke s ch s') s.
Proof.
  intros Hinv. eapply wp_mono; [|apply (wp_wakeup ch s); apply Hinv]. intros [] s' H. split; [by eapply woke_inv|done].
Qed.

Lemma wakeup_correct_witness :
  wp (wakeup 0) (fun _ s' => state (PROC_TABLE s' 1) = Runnable) (demo_child Sleeping).
Proof.
  eapply wp_mono; [|exact (wakeup_correct 0 (demo_child Sleeping)
    (demo_child_inv Sleeping ltac:(discriminate) ltac:(discriminate)))].
  intros [] s' [_ H]. rewrite (wo_proc _ _ _ H 1); [reflexivity|]. split; [discriminate|reflexivity].
Defined.

(** C38: a call of [wait] returns the pid and exit code of its lowest zombie
    child and frees the slot, or nothing when the caller has no child; with
    children of which none is a zombie it locks the process table a second
    time and never returns. *)
Theorem wait_correct base psize s c : hart_proc s = Some c -> table_locked s = false ->
  wait_round base psize s =
  match find (zombie_child base psize s c) procs with
  | Some j => Ret (inr (Some (pid (PROC_TABLE s j), exit_code (PROC_TABLE s j))))
      (set_sie (sie s) (set_table_locked false (upd_proc j (fun _ => Process_new) s)))
  | None =>
      if existsb (child_of base psize s c) procs then Hang "PROC_TABLE is already locked"
      else Ret (inr None) (set_sie (sie s) (set_table_locked false s))
  end.
Proof. apply wait_run. Qed.

Lemma wait_correct_witness :
  wait_round 4096 1024 (demo_child Sleeping) = Hang "PROC_TABLE is already locked" /\
  exists s', wait_round 4096 1024 (demo_child Zombie) = Ret (inr (Some (2, 7))) s'.
Proof.
  split.
  - rewrite (wait_correct 4096 1024 (demo_child Sleeping) 0 eq_refl eq_refl). vm_compute. reflexivity.
  - rewrite (wait_correct 4096 1024 (demo_child Zombie) 0 eq_refl eq_refl). eexists. vm_compute. reflexivity.
Defined.

(** C40: [sleep] never returns, for any process and channel: it holds the lock
    of the process table when [find_proc_index] takes it again. *)
Theorem sleep_deadlocks base psize s i ch : hart_proc s = Some i -> table_locked s = false ->
  sleep base psize ch s = Hang "PROC_TABLE is already locked".
Proof. apply sleep_hangs. Qed.

Lemma sleep_deadlocks_witness :
  sleep 4096 1024 0 (demo_child Runnable) = Hang "PROC_TABLE is already locked".
Proof. apply (sleep_deadlocks 4096 1024 (demo_child Runnable) 0 0); reflexivity. Defined.
