(* ===== verification/Plic.v ===== *)
(** * Interrupt controller registers ([irq/plic.rs], [irq/clint.rs])

    Device registers are reached by volatile accesses. A device is any type
    with a read and a write (class [Mmio]; a read may change it, as claiming an
    interrupt does); [plain] says which registers of a device simply hold what
    was written, which is what the PLIC specification promises of priorities,
    enables and thresholds. The PLIC's address comes from the device tree. *)
From S2P Require Import Prelude Addr RunQueue PhysMem PageTable FreshPages Vm.

(** A device behind memory-mapped registers of [w] bytes. *)
Class Mmio (D : Type) := {
  mmio_read : Z -> Z -> D -> Z * D;
  mmio_write : Z -> Z -> Z -> D -> D;
}.

(** [read_volatile] and [write_volatile]; the value written has [w] bytes. *)
Definition volatile_read {D} `{!Mmio D} (w a : Z) : M D Z := fun d => let '(v, d') := mmio_read w a d in Ret v d'.
Definition volatile_write {D} `{!Mmio D} (w a v : Z) : M D unit := fun d => Ret tt (mmio_write w a v d).

(** The 32-bit registers of [P] hold what was written and reading them has no effect. *)
Class plain {D} `{!Mmio D} (P : Z -> Prop) : Prop := {
  plain_read : forall a d, P a -> (mmio_read 4 a d).2 = d /\ 0 <= (mmio_read 4 a d).1 < U32;
  plain_same : forall a v d, P a -> 0 <= v < U32 -> (mmio_read 4 a (mmio_write 4 a v d)).1 = v;
  plain_other : forall a b v d, P a -> P b -> a <> b -> (mmio_read 4 b (mmio_write 4 a v d)).1 = (mmio_read 4 b d).1;
}.

(** Memory as a device: every register is plain. *)
#[export] Instance ram_mmio : Mmio (Z -> Z) := {
  mmio_read _ a m := (m a mod U32, m);
  mmio_write _ a v m := upd m a v;
}.
#[export] Instance ram_plain P : plain (D := Z -> Z) P.
Proof.
  split; simpl.
  - intros a d _. split; [done|]. by apply Z.mod_pos_bound.
  - intros a v d _ Hv. rewrite upd_eq. by apply Z.mod_small.
  - intros a b v d _ _ Hne. by rewrite upd_ne by congruence.
Qed.

Definition VIRTIO0_IRQ : Z := 1.
Definition UART_IRQ : Z := 10.

Section plic.
Context {D : Type} `{!Mmio D}.
(** [dtb::plic_base()] *)
Variable base_opt : option Z.

Definition plic_base : M D Z := expect base_opt "PLIC base not found in DTB".
Definition ctx_index_s (hartid : Z) : M D Z := h ← umul hartid 2; uadd h 1.
Definition ctx_index_m (hartid : Z) : M D Z := umul hartid 2.

(** [plic_base() + off + i * stride] *)
Definition reg (off i stride : Z) : M D Z :=
  b ← plic_base;
  x ← uadd b off;
  y ← umul i stride;
  uadd x y.

Definition set_priority (id priority : Z) : M D unit :=
  addr ← reg 0 id 4;
  volatile_write 4 addr (wrap32 priority).

Definition get_priority (id : Z) : M D Z := addr ← reg 0 id 4; volatile_read 4 addr.

(** [1 << (id % 32)] and its complement in a [u32] *)
Definition bit32 (id : Z) : Z := Z.shiftl 1 (id mod 32).
Definition unot32 (x : Z) : Z := U32 - 1 - x.
Definition with_bit (cur id : Z) (enable : bool) : Z :=
  if enable then Z.lor cur (bit32 id) else Z.land cur (unot32 (bit32 id)).

Definition set_enable_m (hartid id : Z) (enable : bool) : M D unit :=
  addr ← reg 0x2000 hartid 0x100;
  cur ← volatile_read 4 addr;
  volatile_write 4 addr (with_bit cur id enable).

Definition get_enable_m (hartid id : Z) : M D bool :=
  addr ← reg 0x2000 hartid 0x100;
  cur ← volatile_read 4 addr;
  mret (negb (Z.land cur (bit32 id) =? 0)).

Definition enable_reg (hartid id : Z) : M D Z :=
  context ← ctx_index_s hartid;
  word_index ← umul (id / 32) 4;
  x ← reg 0x2000 context 0x80;
  uadd x word_index.

Definition set_enable_s (hartid id : Z) (enable : bool) : M D unit :=
  addr ← enable_reg hartid id;
  cur ← volatile_read 4 addr;
  volatile_write 4 addr (with_bit cur id enable).

Definition get_enable_s (hartid id : Z) : M D bool :=
  addr ← enable_reg hartid id;
  cur ← volatile_read 4 addr;
  mret (negb (Z.land cur (bit32 id) =? 0)).

(** The M-mode accessors nobody calls *)
Definition set_priority_m (hartid id priority : Z) : M D unit :=
  x ← reg 0x2000 hartid 0x100;
  off ← umul id 4;
  addr ← uadd x off;
  volatile_write 4 addr (wrap32 priority).

Definition get_priority_m (hartid id : Z) : M D Z :=
  x ← reg 0x2000 hartid 0x100;
  off ← umul id 4;
  addr ← uadd x off;
  volatile_read 4 addr.

Definition set_claim_m (hartid id : Z) : M D unit := addr ← reg 0x2004 hartid 0x100; volatile_write 4 addr (wrap32 id).
Definition get_claim_m (hartid : Z) : M D Z := addr ← reg 0x2004 hartid 0x100; volatile_read 4 addr.

Definition set_threshold_s (hartid threshold : Z) : M D unit :=
  context ← ctx_index_s hartid;
  addr ← reg 0x200000 context 0x1000;
  volatile_write 4 addr (wrap32 threshold).

Definition get_threshold_s (hartid : Z) : M D Z :=
  context ← ctx_index_s hartid;
  addr ← reg 0x200000 context 0x1000;
  volatile_read 4 addr.

Definition set_claim_s (hartid id : Z) : M D unit :=
  context ← ctx_index_s hartid;
  addr ← reg 0x200004 context 0x1000;
  volatile_write 4 addr (wrap32 id).

Definition get_claim_s (hartid : Z) : M D Z :=
  context ← ctx_index_s hartid;
  addr ← reg 0x200004 context 0x1000;
  volatile_read 4 addr.

Definition claim (hartid : Z) : M D Z := get_claim_s hartid.
Definition complete (hartid id : Z) : M D unit := set_claim_s hartid id.

(** [plic::init] and [plic::init_hart] *)
Definition plic_init : M D unit := set_priority UART_IRQ 1;; set_priority VIRTIO0_IRQ 1.
Definition plic_init_hart (hartid : Z) : M D unit :=
  set_enable_s hartid UART_IRQ true;;
  set_enable_s hartid VIRTIO0_IRQ true;;
  set_threshold_s hartid 0.

(** ** Core-local interruptor *)

Definition CLINT_BASE : Z := 0x02000000.
Definition clint_reg (off i stride : Z) : M D Z := x ← uadd CLINT_BASE off; y ← umul i stride; uadd x y.
Definition set_msip (hartid : Z) : M D unit := addr ← clint_reg 0 hartid 4; volatile_write 4 addr 1.
Definition get_msip (hartid : Z) : M D Z := addr ← clint_reg 0 hartid 4; volatile_read 4 addr.
Definition set_mtime : M D Z := volatile_write 8 (CLINT_BASE + 0xBFF8) 0;; mret 0.
Definition get_mtime : M D Z := volatile_read 8 (CLINT_BASE + 0xBFF8).
Definition set_mtimecmp (hartid time : Z) : M D unit := addr ← clint_reg 0x4000 hartid 8; volatile_write 8 addr time.
Definition get_mtimecmp (hartid : Z) : M D Z := addr ← clint_reg 0x4000 hartid 8; volatile_read 8 addr.
End plic.

(** ** Register addresses *)

Definition priority_addr (b id : Z) : Z := b + 4 * id.
Definition enable_addr (b hartid id : Z) : Z := b + 0x2000 + (2 * hartid + 1) * 0x80 + id / 32 * 4.
Definition threshold_addr (b hartid : Z) : Z := b + 0x200000 + (2 * hartid + 1) * 0x1000.
Definition claim_addr (b hartid : Z) : Z := threshold_addr b hartid + 4.

(** The arguments the kernel passes: few harts, interrupt ids of ten bits. *)
Definition plic_args (b hartid id : Z) : Prop := 0 <= b < 2 ^ 40 /\ 0 <= hartid < 8 /\ 0 <= id < 1024.

Section runs.
Context {D : Type} `{!Mmio D} (b hartid id : Z) (Hargs : plic_args b hartid id).
Implicit Types (d : D).

Ltac arith := apply checked_run; destruct Hargs as (? & ? & ?); unfold U64 in *; lia.

Lemma reg_run d off i stride : 0 <= off < 2 ^ 40 -> 0 <= i < 2 ^ 11 -> 0 <= stride < 2 ^ 20 ->
  reg (Some b) off i stride d = Ret (b + off + i * stride) d.
Proof.
  intros Ho Hi Hs. unfold reg. assert (0 <= i * stride <= 2 ^ 11 * 2 ^ 20) by nia.
  erewrite bind_run by reflexivity. do 2 (erewrite bind_run by arith). arith.
Qed.

Lemma ctx_run d : ctx_index_s hartid d = Ret (2 * hartid + 1) d.
Proof. unfold ctx_index_s. erewrite bind_run by arith. rewrite (Z.mul_comm 2). arith. Qed.

Lemma enable_reg_run d : enable_reg (Some b) hartid id d = Ret (enable_addr b hartid id) d.
Proof.
  destruct Hargs as (Hb & Hh & Hid). assert (0 <= id / 32 < 32) by (Z.to_euclidean_division_equations; lia).
  unfold enable_reg, enable_addr. erewrite bind_run by apply ctx_run. erewrite bind_run by (apply checked_run; unfold U64; lia).
  erewrite bind_run by (apply reg_run; lia). apply checked_run. unfold U64. lia.
Qed.

Lemma set_priority_run d v : set_priority (Some b) id v d = Ret tt (mmio_write 4 (priority_addr b id) (wrap32 v) d).
Proof.
  destruct Hargs as (Hb & Hh & Hid). unfold set_priority. erewrite bind_run by (apply reg_run; lia).
  unfold volatile_write, priority_addr. by replace (b + 0 + id * 4) with (b + 4 * id) by lia.
Qed.

Lemma set_enable_run d en : set_enable_s (Some b) hartid id en d =
  let r := mmio_read 4 (enable_addr b hartid id) d in
  Ret tt (mmio_write 4 (enable_addr b hartid id) (with_bit r.1 id en) r.2).
Proof.
  unfold set_enable_s. erewrite bind_run by apply enable_reg_run. unfold mbind, M_bind, volatile_read, volatile_write.
  by destruct (mmio_read 4 (enable_addr b hartid id) d).
Qed.

Lemma get_enable_run d : get_enable_s (Some b) hartid id d =
  let r := mmio_read 4 (enable_addr b hartid id) d in Ret (Z.testbit r.1 (id mod 32)) r.2.
Proof.
  unfold get_enable_s. erewrite bind_run by apply enable_reg_run. unfold mbind, M_bind, volatile_read, bit32.
  destruct (mmio_read 4 (enable_addr b hartid id) d) as [v d']. rewrite land_bit by (apply Z.mod_pos_bound; lia).
  by rewrite negb_involutive.
Qed.

Lemma set_threshold_run d v : set_threshold_s (Some b) hartid v d = Ret tt (mmio_write 4 (threshold_addr b hartid) (wrap32 v) d).
Proof.
  destruct Hargs as (Hb & Hh & Hid). unfold set_threshold_s. erewrite bind_run by apply ctx_run.
  by erewrite bind_run by (apply reg_run; lia).
Qed.

Lemma claim_run d : claim (Some b) hartid d = let r := mmio_read 4 (claim_addr b hartid) d in Ret r.1 r.2.
Proof.
  destruct Hargs as (Hb & Hh & Hid). unfold claim, get_claim_s. erewrite bind_run by apply ctx_run.
  erewrite bind_run by (apply reg_run; lia). unfold volatile_read, claim_addr, threshold_addr.
  replace (b + 2097156 + (2 * hartid + 1) * 4096) with (b + 2097152 + (2 * hartid + 1) * 4096 + 4) by lia.
  by destruct (mmio_read _ _ d).
Qed.

Lemma complete_run d i : complete (Some b) hartid i d = Ret tt (mmio_write 4 (claim_addr b hartid) (wrap32 i) d).
Proof.
  destruct Hargs as (Hb & Hh & Hid). unfold complete, set_claim_s. erewrite bind_run by apply ctx_run.
  erewrite bind_run by (apply reg_run; lia). unfold volatile_write, claim_addr, threshold_addr.
  by replace (b + 2097156 + (2 * hartid + 1) * 4096) with (b + 2097152 + (2 * hartid + 1) * 4096 + 4) by lia.
Qed.
End runs.

(** ** One bit of a 32-bit word *)

Lemma bit32_testbit id j : 0 <= j -> Z.testbit (bit32 id) j = (id mod 32 =? j).
Proof. intros Hj. unfold bit32. apply testbit_one; [apply Z.mod_pos_bound; lia|done]. Qed.

Lemma unot32_testbit x j : 0 <= x < U32 -> 0 <= j < 32 -> Z.testbit (unot32 x) j = negb (Z.testbit x j).
Proof.
  intros Hx Hj. unfold unot32. change (U32 - 1) with (Z.ones 32). rewrite Z.sub_nocarry_ldiff.
  - rewrite Z.ldiff_spec, Z.ones_spec_low by lia. done.
  - apply Z.bits_inj'. intros n Hn. rewrite Z.ldiff_spec, Z.bits_0.
    destruct (Z.lt_ge_cases n 32); [rewrite Z.ones_spec_low by lia; apply andb_false_r|].
    by rewrite (testbit_high x 32) by done.
Qed.

Lemma bit32_range id : 0 <= bit32 id < U32.
Proof.
  unfold bit32. rewrite Z.shiftl_1_l. pose proof (Z.mod_pos_bound id 32 ltac:(lia)).
  split; [apply Z.pow_nonneg; lia|]. apply Z.pow_lt_mono_r; lia.
Qed.

Lemma with_bit_spec cur id en j : 0 <= cur < U32 -> 0 <= j < 32 ->
  Z.testbit (with_bit cur id en) j = if id mod 32 =? j then en else Z.testbit cur j.
Proof.
  intros Hc Hj. unfold with_bit. destruct en.
  - rewrite Z.lor_spec, bit32_testbit by lia. destruct (_ =? j); [by rewrite orb_true_r|by rewrite orb_false_r].
  - rewrite Z.land_spec, unot32_testbit, bit32_testbit by (done || lia || apply bit32_range).
    destruct (_ =? j); [by rewrite andb_false_r|by rewrite andb_true_r].
Qed.

Lemma with_bit_range cur id en : 0 <= cur < U32 -> 0 <= with_bit cur id en < U32.
Proof.
  intros Hc. pose proof (bit32_range id) as Hb. unfold with_bit. destruct en.
  - split; [apply Z.lor_nonneg; lia|]. destruct (Z.eq_dec (Z.lor cur (bit32 id)) 0) as [->|Hne]; [done|].
    assert (0 <= Z.lor cur (bit32 id)) by (apply Z.lor_nonneg; lia).
    apply Z.log2_lt_pow2; [lia|]. rewrite Z.log2_lor by lia.
    apply Z.max_lub_lt.
    { destruct (Z.eq_dec cur 0) as [->|]; [done|]. apply Z.log2_lt_pow2; [lia|apply Hc]. }
    unfold bit32. rewrite Z.shiftl_1_l, Z.log2_pow2 by (apply Z.mod_pos_bound; lia). apply Z.mod_pos_bound. lia.
  - assert (Hle : 0 <= Z.land cur (unot32 (bit32 id)) <= cur); [|lia].
    apply Z.ldiff_le; [lia|]. apply Z.bits_inj'. intros n Hn. rewrite Z.ldiff_spec, Z.land_spec, Z.bits_0.
    destruct (Z.testbit cur n); [by rewrite andb_false_r|done].
Qed.

(** The addresses the S-mode accessors use for [hartid] and [id]. *)
Definition s_registers (b hartid id : Z) : list Z :=
  [priority_addr b id; enable_addr b hartid id; threshold_addr b hartid; claim_addr b hartid].

(** Two sources of one hart share an enable word exactly when they are in the
    same group of 32. *)
Lemma enable_addr_inj b h h' id id' : 0 <= h -> 0 <= h' -> 0 <= id < 1024 -> 0 <= id' < 1024 ->
  enable_addr b h id = enable_addr b h' id' -> h = h' /\ id / 32 = id' / 32.
Proof. unfold enable_addr. intros. split; Z.to_euclidean_division_equations; lia. Qed.

Section plain_plic.
Context {D : Type} `{!Mmio D} (b hartid : Z) (P : Z -> Prop) `{!plain P}.
Context (HP : forall id, 0 <= id < 1024 -> Forall P (take 3 (s_registers b hartid id))).
Context (Hb : 0 <= b < 2 ^ 40) (Hh : 0 <= hartid < 8).

(** Whether source [id] is enabled, and the plain registers as values. *)
Definition enabled (d : D) (id : Z) : bool := Z.testbit (mmio_read 4 (enable_addr b hartid id) d).1 (id mod 32).
Definition reg_value (d : D) (a : Z) : Z := (mmio_read 4 a d).1.

Lemma args id : 0 <= id < 1024 -> plic_args b hartid id.
Proof. done. Qed.

Lemma P_enable id : 0 <= id < 1024 -> P (enable_addr b hartid id).
Proof. intros Hid. specialize (HP id Hid). simpl in HP. rewrite !Forall_cons in HP. tauto. Qed.
Lemma P_priority id : 0 <= id < 1024 -> P (priority_addr b id).
Proof. intros Hid. specialize (HP id Hid). simpl in HP. rewrite !Forall_cons in HP. tauto. Qed.
Lemma P_threshold : P (threshold_addr b hartid).
Proof. specialize (HP 0 ltac:(lia)). simpl in HP. rewrite !Forall_cons in HP. tauto. Qed.

(** The three groups of registers do not overlap. *)
Lemma groups_apart id id' : 0 <= id < 1024 -> 0 <= id' < 1024 ->
  priority_addr b id <> enable_addr b hartid id' /\ priority_addr b id <> threshold_addr b hartid /\
  enable_addr b hartid id' <> threshold_addr b hartid.
Proof. unfold priority_addr, enable_addr, threshold_addr. intros. split_and!; Z.to_euclidean_division_equations; lia. Qed.

Lemma wp_set_enable id en d (Q : unit -> D -> Prop) : 0 <= id < 1024 ->
  (forall d', (forall id', 0 <= id' < 1024 -> enabled d' id' = if id' =? id then en else enabled d id') ->
    (forall a, P a -> (forall id', 0 <= id' < 1024 -> a <> enable_addr b hartid id') -> reg_value d' a = reg_value d a) -> Q tt d') ->
  wp (set_enable_s (Some b) hartid id en) Q d.
Proof.
  intros Hid HQ. unfold wp. rewrite set_enable_run by by apply args. cbv zeta.
  destruct (plain_read (P := P) _ d (P_enable id Hid)) as [Hd Hr].
  rewrite Hd. apply HQ.
  - intros id' Hid'. unfold enabled. assert (Hm : 0 <= id' mod 32 < 32) by by apply Z.mod_pos_bound.
    destruct (Z.eq_dec (enable_addr b hartid id) (enable_addr b hartid id')) as [Heq|Hne].
    + rewrite <-Heq, plain_same, with_bit_spec; [|done..|by apply P_enable|by apply with_bit_range].
      apply enable_addr_inj in Heq as [_ Hdiv]; [|lia..].
      destruct (Z.eqb_spec (id mod 32) (id' mod 32)), (Z.eqb_spec id' id); subst; try done; exfalso;
        Z.to_euclidean_division_equations; lia.
    + rewrite (plain_other (P := P)); [|by apply P_enable|by apply P_enable|done].
      destruct (Z.eqb_spec id' id) as [->|]; [|done]. by destruct Hne.
  - intros a Ha Hne. unfold reg_value. rewrite (plain_other (P := P)); [done|by apply P_enable|done|]. intros Heq. by apply (Hne id).
Qed.

Lemma wp_write_plain a v d (Q : unit -> D -> Prop) m : P a ->
  m d = Ret tt (mmio_write 4 a (wrap32 v) d) -> 
  (forall d', reg_value d' a = wrap32 v -> (forall a', P a' -> a' <> a -> reg_value d' a' = reg_value d a') -> Q tt d') ->
  wp m Q d.
Proof.
  intros Ha Hm HQ. unfold wp. rewrite Hm. apply HQ.
  - apply (plain_same (P := P)); [done|]. by apply Z.mod_pos_bound.
  - intros a' Ha' Hne. by apply (plain_other (P := P)); [done|done|congruence].
Qed.
End plain_plic.

(** ** Properties *)

(** After [plic::init] and [plic::init_hart] exactly the UART's and the
    disk's interrupts have been added to those enabled for the hart's S-mode
    context, both have priority 1 and the threshold is 0, whatever the
    registers held before; no other enable bit changes. *)
Theorem plic_boot_correct {D} `{!Mmio D} b hartid (P : Z -> Prop) `{!plain P} (d : D) :
  0 <= b < 2 ^ 40 -> 0 <= hartid < 8 -> (forall id, 0 <= id < 1024 -> Forall P (take 3 (s_registers b hartid id))) ->
  wp (plic_init (Some b);; plic_init_hart (Some b) hartid) (fun _ d' =>
    (forall id, 0 <= id < 1024 ->
       enabled b hartid d' id = (id =? UART_IRQ) || (id =? VIRTIO0_IRQ) || enabled b hartid d id) /\
    reg_value d' (priority_addr b UART_IRQ) = 1 /\ reg_value d' (priority_addr b VIRTIO0_IRQ) = 1 /\
    reg_value d' (threshold_addr b hartid) = 0) d.
Proof.
  intros Hb Hh HP. pose proof (P_enable b hartid P HP Hb Hh) as Pe. pose proof (P_priority b hartid P HP Hb Hh) as Pp.
  pose proof (P_threshold b hartid P HP Hb Hh) as Pt. pose proof (groups_apart b hartid Hb Hh) as Hap.
  assert (Hen : forall d d' id, 0 <= id < 1024 -> reg_value d' (enable_addr b hartid id) = reg_value d (enable_addr b hartid id) ->
    enabled b hartid d' id = enabled b hartid d id) by (intros d1 d2 id Hid Heq; unfold enabled, reg_value in *; by rewrite Heq).
  unfold plic_init, plic_init_hart. wp_step. wp_step.
  eapply (wp_write_plain P (priority_addr b UART_IRQ) 1); [by apply Pp|by apply (set_priority_run b hartid)|]. intros d1 H1 F1.
  eapply (wp_write_plain P (priority_addr b VIRTIO0_IRQ) 1); [by apply Pp|by apply (set_priority_run b hartid)|]. intros d2 H2 F2.
  wp_step. apply (wp_set_enable b hartid P HP Hb Hh); [done|]. intros d3 H3 F3.
  wp_step. apply (wp_set_enable b hartid P HP Hb Hh); [done|]. intros d4 H4 F4.
  eapply (wp_write_plain P (threshold_addr b hartid) 0); [exact Pt|by apply (set_threshold_run b hartid 0)|]. intros d5 H5 F5.
  assert (Hpri : forall id, 0 <= id < 1024 -> reg_value d5 (priority_addr b id) = reg_value d2 (priority_addr b id)).
  { intros id Hid. rewrite F5, F4, F3; try by apply Pp.
    - done.
    - intros id' Hid'. by destruct (Hap id id' Hid Hid').
    - intros id' Hid'. by destruct (Hap id id' Hid Hid').
    - by destruct (Hap id 0 Hid ltac:(lia)) as (_ & ? & _). }
  split; [|split; [|split]].
  - intros id Hid. destruct (Hap 0 id ltac:(lia) Hid) as (_ & _ & Het).
    rewrite (Hen d4 d5), H4, H3 by (done || (apply F5; [by apply Pe|done])).
    assert (enabled b hartid d2 id = enabled b hartid d id) as ->.
    { rewrite (Hen d1 d2), (Hen d d1); [done|done| |done|].
      - apply F1; [by apply Pe|]. destruct (Hap UART_IRQ id); [done|done|congruence].
      - apply F2; [by apply Pe|]. destruct (Hap VIRTIO0_IRQ id); [done|done|congruence]. }
    by destruct (id =? VIRTIO0_IRQ), (id =? UART_IRQ).
  - rewrite Hpri, F2, H1; [done|by apply Pp|unfold priority_addr, UART_IRQ, VIRTIO0_IRQ; lia|done].
  - rewrite Hpri, H2 by done. done.
  - by rewrite H5.
Qed.

Lemma plic_boot_correct_witness :
  wp (plic_init (Some 0xC000000);; plic_init_hart (Some 0xC000000) 1) (fun _ d => d 0xC002180 = 2 ^ 10 + 2) (fun _ : Z => 0).
Proof.
  eapply wp_mono; [|apply (wp_and _ (fun _ d' => d' = final (plic_init (Some 0xC000000);; plic_init_hart (Some 0xC000000) 1) (fun _ : Z => 0)));
    [vm_compute; reflexivity|apply (plic_boot_correct 0xC000000 1 (fun _ => True) (fun _ : Z => 0)); [lia|lia|]]].
  - intros [] d [-> _]. vm_compute. reflexivity.
  - intros id _. repeat constructor.
Defined.

Definition in_window (x y a : Z) : Prop := align_down x <= a < align_up_val y.

(** ** The accesses of a call *)

(** A device together with the addresses it was accessed at. *)
Record traced (D : Type) := mkTraced { device : D; accessed : list Z }.
Arguments mkTraced {_}.
Arguments device {_}.
Arguments accessed {_}.
Definition traced_read {D} `{!Mmio D} (w a : Z) (t : traced D) : Z * traced D :=
  let '(v, d) := mmio_read w a (device t) in (v, mkTraced d (a :: accessed t)).
#[export] Instance traced_mmio {D} `{!Mmio D} : Mmio (traced D) := {
  mmio_read := traced_read;
  mmio_write w a v t := mkTraced (mmio_write w a v (device t)) (a :: accessed t);
}.

(** [m] returns, and all its accesses are at addresses of [P]. *)
Definition stays_in {D A} (P : Z -> Prop) (m : M (traced D) A) : Prop :=
  forall t, Forall P (accessed t) -> wp m (fun _ t' => Forall P (accessed t')) t.

Lemma stays_seq {D A B} (P : Z -> Prop) (m : M (traced D) A) (n : M (traced D) B) : stays_in P m -> stays_in P n -> stays_in P (m;; n).
Proof. intros Hm Hn t Ht. apply wp_bind. eapply wp_mono; [|by apply Hm]. intros x t'. apply Hn. Qed.

Lemma stays_ret {D A} (P : Z -> Prop) (x : A) : stays_in (D := D) P (mret x).
Proof. by intros t Ht. Qed.

(** The calls of the kernel on the PLIC: the S-mode accessors, the boot and the
    trap handler. *)
Definition plic_calls {D} `{!Mmio D} (base : option Z) (hartid id v : Z) (en : bool) : list (M (traced D) unit) :=
  [set_priority base id v; set_enable_s base hartid id en; set_threshold_s base hartid v;
   claim base hartid;; mret tt; complete base hartid v; plic_init base; plic_init_hart base hartid].

(** The page of [a] is mapped to itself, readable and writable. *)
Definition device_page (s : pmem) (T : gmap (list Z) Z) (a : Z) : Prop :=
  trans s T a = Some (pa_to_pte (a / PGSIZE * PGSIZE) (Z.lor KDATA PTE_V)).

(** The register addresses lie in the two windows, below the kernel stacks. *)
Lemma s_registers_window b harts hartid id a : 0 <= b -> b + 0x200000 + 2 * Z.max 1 harts * 0x1000 + PGSIZE <= KSTACK_VA_BASE ->
  harts <= 8 -> 0 <= hartid < harts -> 0 <= id < 1024 -> a ∈ s_registers b hartid id ->
  (in_window b (b + 0x3000) a \/ in_window (b + 0x200000) (b + 0x200000 + 2 * harts * 0x1000) a) /\ 0 <= a < KSTACK_VA_BASE.
Proof.
  intros Hb0 Hb1 Hn Hh Hid Ha. unfold in_window. change KSTACK_VA_BASE with 274609471488 in *.
  destruct (align_down_spec b) as [_ ?]; [page_lia|]. destruct (align_down_spec (b + 0x200000)) as [_ ?]; [page_lia|].
  destruct (align_up_val_spec (b + 0x3000)) as [_ ?]. destruct (align_up_val_spec (b + 0x200000 + 2 * harts * 0x1000)) as [_ ?].
  unfold s_registers in Ha. rewrite !elem_of_cons, elem_of_nil in Ha.
  unfold claim_addr, threshold_addr, priority_addr, enable_addr in Ha.
  assert (0 <= id / 32 < 32) by (Z.to_euclidean_division_equations; lia). destruct Ha as [->|[->|[->|[->|[]]]]]; page_lia.
Qed.

(** ** Properties of the accesses *)

Section mapped.
Context {kb ub : RegionBounds} (e : boot_env) (s s' : pmem) (fr : Z -> Z) (T' : gmap (list Z) Z) (b : Z).
Context (Hk : kernel_table (kb := kb) (ub := ub) e s fr s' T') (Henv : env_ok kb ub e) (Hb : be_plic e = Some b) (Hn : be_harts e <= 8).
Context (hartid id : Z) (Hh : 0 <= hartid < be_harts e) (Hid : 0 <= id < 1024).

Lemma plic_base_bound : 0 <= b < 2 ^ 40.
Proof. destruct (eo_plic _ _ _ Henv b Hb) as [? ?]. change KSTACK_VA_BASE with 274609471488 in *. page_lia. Qed.

Lemma s_register_trans a : a ∈ s_registers b hartid id -> device_page s' T' a.
Proof.
  intros Ha. pose proof (env_regions kb ub e (pi_layout _ _ _ (kt_inv _ _ _ _ _ Hk)) Henv) as HL.
  destruct (eo_plic _ _ _ Henv b Hb) as [Hb0 Hb1].
  destruct (s_registers_window b (be_harts e) hartid id a Hb0 Hb1 Hn Hh Hid Ha) as [Hin Hmax]. unfold device_page.
  rewrite (kt_trans _ _ _ _ _ Hk) by (change KSTACK_VA_BASE with 274609471488 in *; change VA_MAX with 274877906944; lia).
  destruct (in_range _ _ a) eqn:E; [apply in_range_true in E; lia|]. change KSTACK_VA_BASE with 274609471488 in *.
  unfold kernel_regions in HL |- *. rewrite Hb in *. rewrite (proj2 (Z.ltb_lt 0 (be_harts e))) in * by lia.
  destruct (align_down_lt b (b + 1)) as [_ H1]; [page_lia|lia|].
  destruct (align_down_lt (b + 0x200000) (b + 0x200001)) as [_ H2]; [page_lia|lia|]. destruct Hin as [Hin|Hin].
  - apply region_entry_data; [exact HL| |apply Hmax|by repeat constructor].
    destruct (identity_span b (b + 0x3000) KDATA) as [-> ->]; [page_lia|done|done].
  - match goal with |- region_entry (?l ++ ?r :: ?q :: ?l') _ = _ => change (l ++ r :: q :: l') with ((l ++ [r]) ++ q :: l') in * end.
    apply region_entry_data; [exact HL| |apply Hmax|by repeat constructor].
    destruct (identity_span (b + 0x200000) (b + 0x200000 + 2 * be_harts e * 0x1000) KDATA) as [-> ->]; [page_lia|done|done].
Qed.

Context {D : Type} `{!Mmio D}.
Local Abbreviation ok := (stays_in (D := D) (device_page s' T')).

(** The accesses to plain registers and to the claim register. *)
Lemma setters_stay v en : ok (set_priority (Some b) id v) /\ ok (set_enable_s (Some b) hartid id en) /\
  ok (set_threshold_s (Some b) hartid v) /\ ok (claim (Some b) hartid) /\ ok (complete (Some b) hartid v).
Proof.
  pose proof plic_base_bound as Hb40. assert (Hargs : plic_args b hartid id) by (split; [done|lia]).
  assert (Hreg : forall a, a ∈ s_registers b hartid id -> device_page s' T' a) by exact s_register_trans. unfold s_registers in Hreg.
  split_and!; intros t Ht; unfold wp.
  - rewrite (set_priority_run b hartid) by done. simpl. constructor; [apply Hreg; set_solver|done].
  - rewrite set_enable_run by done. simpl. unfold traced_read. destruct (mmio_read _ _ _). simpl.
    repeat (constructor; [apply Hreg; set_solver|]). done.
  - rewrite (set_threshold_run b hartid id) by done. simpl. constructor; [apply Hreg; set_solver|done].
  - rewrite (claim_run b hartid id) by done. simpl. unfold traced_read. destruct (mmio_read _ _ _). simpl.
    constructor; [apply Hreg; set_solver|done].
  - rewrite (complete_run b hartid id) by done. simpl. constructor; [apply Hreg; set_solver|done].
Qed.
End mapped.

(** C39: after [init_kernel_vm] no access the kernel makes to the PLIC can
    fault: for each of its harts, every interrupt source and every value,
    whatever the device answers, the S-mode accessors, the boot's [plic_init] and
    [plic_init_hart] and the [claim] and [complete] of the trap handler return,
    and every address they access is mapped to itself, readable and writable. *)
Theorem plic_registers_mapped {D} `{!Mmio D} kb ub e s T b :
  pmem_inv kb ub s -> pt_wf kb ub s (be_kpt e) T -> (forall va, trans s T va = None) -> env_ok kb ub e ->
  cost (kernel_regions kb ub e) + 12 <= allocable (inner (region true s)) -> be_plic e = Some b -> be_harts e <= 8 ->
  wp (init_kernel_vm e false) (fun _ s' => exists T', pt_wf kb ub s' (be_kpt e) T' /\
    forall hartid id v en, 0 <= hartid < be_harts e -> 0 <= id < 1024 ->
      Forall (stays_in (D := D) (device_page s' T')) (plic_calls (be_plic e) hartid id v en)) s.
Proof.
  intros Hinv Hwf Hempty Henv Hcost Hb Hn. eapply wp_mono; [|by apply (wp_init_kernel_vm (kb := kb) (ub := ub) e s T)].
  intros built s' (_ & fr & T' & Hk). exists T'. split; [apply Hk|]. intros hartid id v en Hh Hid.
  pose proof (fun i Hi => setters_stay e s s' fr T' b Hk Henv Hb Hn hartid i Hh Hi (D := D)) as Hst.
  unfold plic_calls. rewrite Hb. rewrite !Forall_cons, Forall_nil.
  split_and!; try (by apply (Hst id Hid v en)); [| | |done]; unfold plic_init, plic_init_hart;
    repeat (apply stays_seq); by (apply stays_ret || apply (Hst id Hid v en) || apply (Hst UART_IRQ ltac:(done)) || apply (Hst VIRTIO0_IRQ ltac:(done))).
Qed.

Lemma plic_registers_mapped_witness :
  wp (init_kernel_vm qemu false) (fun _ s' => exists T', stays_in (D := Z -> Z) (device_page s' T') (plic_init_hart (be_plic qemu) 0)) boot_pm.
Proof.
  eapply wp_mono; [|apply (plic_registers_mapped (D := Z -> Z) boot_kb boot_ub qemu boot_pm {[ [] := boot_kpt ]} 0xC000000
    (proj1 boot_pm_ok) (proj1 boot_pm_table) (proj2 boot_pm_table) qemu_ok)].
  - intros built s' (T' & _ & H). exists T'. specialize (H 0 10 0 true ltac:(vm_compute; split; [discriminate|reflexivity]) ltac:(lia)).
    rewrite Forall_forall in H. apply H. unfold plic_calls. set_solver.
  - rewrite (proj1 (proj2 boot_pm_ok)). vm_compute. discriminate.
  - reflexivity.
  - vm_compute. discriminate.
Defined.
