(* ===== verification/Utf8.v ===== *)
(** * The console's UTF-8 decoder and line widths ([drivers/uart/utf8.rs])

    [push] is [Utf8Decoder::push], on the four-byte buffer, with the
    standard library's [str::from_utf8], [chars] and [encode_utf8] as they are
    documented (well-formed UTF-8: no overlong forms, no surrogates, at most
    U+10FFFF). [ConsoleEcho] remembers the widths of the last 256 characters. *)
From S2P Require Import Prelude.

(** ** The standard library *)

(** Continuation bytes, and the second byte a given first byte allows. *)
Definition is_cont (b : Z) : bool := (0x80 <=? b) && (b <=? 0xBF).
Definition second_ok (b0 b1 : Z) : bool :=
  if b0 =? 0xE0 then (0xA0 <=? b1) && (b1 <=? 0xBF)
  else if b0 =? 0xED then (0x80 <=? b1) && (b1 <=? 0x9F)
  else if b0 =? 0xF0 then (0x90 <=? b1) && (b1 <=? 0xBF)
  else if b0 =? 0xF4 then (0x80 <=? b1) && (b1 <=? 0x8F)
  else is_cont b1.

(** [str::from_utf8(bs)] followed by [chars]: the code points, or an error. *)
Fixpoint from_utf8 (bs : list Z) : option (list Z) :=
  match bs with
  | [] => Some []
  | b0 :: r0 =>
      if b0 <? 0x80 then cons b0 <$> from_utf8 r0
      else match r0 with
      | [] => None
      | b1 :: r1 =>
          if (0xC2 <=? b0) && (b0 <=? 0xDF) && is_cont b1 then
            cons ((b0 - 0xC0) * 64 + (b1 - 0x80)) <$> from_utf8 r1
          else match r1 with
          | [] => None
          | b2 :: r2 =>
              if (0xE0 <=? b0) && (b0 <=? 0xEF) && second_ok b0 b1 && is_cont b2 then
                cons ((b0 - 0xE0) * 4096 + (b1 - 0x80) * 64 + (b2 - 0x80)) <$> from_utf8 r2
              else match r2 with
              | [] => None
              | b3 :: r3 =>
                  if (0xF0 <=? b0) && (b0 <=? 0xF4) && second_ok b0 b1 && is_cont b2 && is_cont b3 then
                    cons ((b0 - 0xF0) * 262144 + (b1 - 0x80) * 4096 + (b2 - 0x80) * 64 + (b3 - 0x80)) <$> from_utf8 r3
                  else None
              end
          end
      end
  end.

(** [char]: a Unicode scalar value; [c.encode_utf8(buf)] *)
Definition scalar (c : Z) : Prop := 0 <= c < 0xD800 \/ 0xE000 <= c <= 0x10FFFF.
Definition encode_utf8 (c : Z) : list Z :=
  if c <? 0x80 then [c]
  else if c <? 0x800 then [0xC0 + c / 64; 0x80 + c mod 64]
  else if c <? 0x10000 then [0xE0 + c / 4096; 0x80 + c / 64 mod 64; 0x80 + c mod 64]
  else [0xF0 + c / 262144; 0x80 + c / 4096 mod 64; 0x80 + c / 64 mod 64; 0x80 + c mod 64].

(** ** The decoder *)

Definition LINEBUF_CAP : nat := 256.

Record Utf8Decoder := mkDecoder { dbuf : list Z; dlen : Z; need : Z }.
Definition Utf8Decoder_new : Utf8Decoder := mkDecoder [0; 0; 0; 0] 0 0.
Definition decoder_clear (d : Utf8Decoder) : Utf8Decoder := mkDecoder (dbuf d) 0 0.
Definition has_pending (d : Utf8Decoder) : bool := 0 <? dlen d.

Inductive Utf8PushResult := Pending | Completed (c : Z) | Invalid.

Definition utf8_expected_len (b : Z) : Z :=
  if (0xC2 <=? b) && (b <=? 0xDF) then 2
  else if (0xE0 <=? b) && (b <=? 0xEF) then 3
  else if (0xF0 <=? b) && (b <=? 0xF4) then 4
  else 0.

(** [&buf[..n]] *)
Definition slice_to {S} (l : list Z) (n : Z) : M S (list Z) :=
  if n <=? Z.of_nat (length l) then mret (take (Z.to_nat n) l) else panic "range end index out of range for slice".

Definition push (b : Z) : M Utf8Decoder Utf8PushResult :=
  len ← gets dlen;
  if len =? 0 then
    let n := utf8_expected_len b in
    if n =? 0 then mret Invalid
    else
      modify (fun d => mkDecoder (<[0%nat := b]> (dbuf d)) 1 n);;
      mret Pending
  else if negb (Z.land b 0xC0 =? 0x80) then
    modify decoder_clear;;
    mret Invalid
  else
    (if len <? 4 then modify (fun d => mkDecoder (<[Z.to_nat len := b]> (dbuf d)) (dlen d) (need d)) else mret tt);;
    len' ← checked U8 "add" (len + 1);
    modify (fun d => mkDecoder (dbuf d) len' (need d));;
    n ← gets need;
    if len' =? n then
      buf ← gets dbuf;
      slice ← slice_to buf len';
      match from_utf8 slice with
      | Some cs =>
          let c := match cs with [] => 0xFFFD | c :: _ => c end in
          match cs with
          | _ :: _ :: _ => modify decoder_clear;; mret Invalid
          | _ => modify decoder_clear;; mret (Completed c)
          end
      | None => modify decoder_clear;; mret Invalid
      end
    else mret Pending.

(** ** Widths *)

Definition RANGES_2 : list (Z * Z) :=
  [(0x1100, 0x115F); (0x2329, 0x232A); (0x2E80, 0xA4CF); (0xAC00, 0xD7A3); (0xF900, 0xFAFF); (0xFE10, 0xFE19);
   (0xFE30, 0xFE6F); (0xFF00, 0xFF60); (0xFFE0, 0xFFE6); (0x1F300, 0x1F64F); (0x1F900, 0x1F9FF);
   (0x20000, 0x2FFFD); (0x30000, 0x3FFFD)].

Definition char_display_width (c : Z) : Z :=
  if c <? 0x80 then 1
  else if existsb (fun '(lo, hi) => (lo <=? c) && (c <=? hi)) RANGES_2 then 2 else 1.

Record ConsoleEcho := mkEcho { decoder : Utf8Decoder; widths : list Z; elen : Z }.
Definition ConsoleEcho_new : ConsoleEcho := mkEcho Utf8Decoder_new (repeat 0 LINEBUF_CAP) 0.
Definition set_decoder x c := mkEcho x (widths c) (elen c).
Definition clear_line (c : ConsoleEcho) : ConsoleEcho := mkEcho (decoder c) (widths c) 0.

(** The [while] that shifts the widths down by one. *)
Fixpoint shift_down (fuel : nat) (i : nat) (w : list Z) : list Z :=
  match fuel with
  | O => w
  | S fuel' => if (i <? LINEBUF_CAP)%nat then shift_down fuel' (S i) (<[(i - 1)%nat := default 0 (w !! i)]> w) else w
  end.

Definition push_width (w : Z) (c : ConsoleEcho) : ConsoleEcho :=
  if w =? 0 then c
  else if elen c <? Z.of_nat LINEBUF_CAP then
    mkEcho (decoder c) (<[Z.to_nat (elen c) := w]> (widths c)) (elen c + 1)
  else mkEcho (decoder c) (<[(LINEBUF_CAP - 1)%nat := w]> (shift_down LINEBUF_CAP 1 (widths c))) (elen c).

Definition pop_width (c : ConsoleEcho) : option Z * ConsoleEcho :=
  if elen c =? 0 then (None, c)
  else (widths c !! Z.to_nat (elen c - 1), mkEcho (decoder c) (widths c) (elen c - 1)).

(** ** The decoder's invariant *)

(** Between bytes: nothing is buffered, or fewer bytes than the first one
    asked for, which is at most four. *)
Record decoder_ok (d : Utf8Decoder) : Prop := {
  do_buf : length (dbuf d) = 4%nat;
  do_len : dlen d = 0 \/ (1 <= dlen d < need d /\ need d <= 4);
  do_need : dlen d <> 0 -> exists b0, dbuf d !! 0%nat = Some b0 /\ need d = utf8_expected_len b0;
}.

Lemma expected_len_range b : 0 <= utf8_expected_len b <= 4 /\ utf8_expected_len b <> 1.
Proof. unfold utf8_expected_len. repeat case_match; lia. Qed.

Lemma new_ok : decoder_ok Utf8Decoder_new.
Proof. split; [done|by left|done]. Qed.
Lemma clear_ok d : decoder_ok d -> decoder_ok (decoder_clear d).
Proof. intros [H _ _]. split; [done|by left|done]. Qed.

(** What the bytes buffered so far are. *)
Definition buffered (d : Utf8Decoder) : list Z := take (Z.to_nat (dlen d)) (dbuf d).

(** The result of a push as a function of the buffered bytes. *)
Definition push_spec (bs : list Z) (b : Z) : Utf8PushResult * list Z :=
  match bs with
  | [] => if utf8_expected_len b =? 0 then (Invalid, []) else (Pending, [b])
  | b0 :: _ =>
      if negb (Z.land b 0xC0 =? 0x80) then (Invalid, [])
      else if Z.of_nat (length bs) + 1 =? utf8_expected_len b0 then
        (match from_utf8 (bs ++ [b]) with Some [c] => Completed c | _ => Invalid end, [])
      else (Pending, bs ++ [b])
  end.

Lemma from_utf8_nonempty b bs : from_utf8 (b :: bs) <> Some [].
Proof.
  cbn [from_utf8]. repeat case_match; try done; match goal with |- fmap _ ?o <> _ => by destruct o end.
Qed.

Lemma wp_slice_to {S} l n (Q : list Z -> S -> Prop) s : n <= Z.of_nat (length l) ->
  Q (take (Z.to_nat n) l) s -> wp (slice_to l n) Q s.
Proof. intros Hn HQ. unfold slice_to. rewrite (proj2 (Z.leb_le _ _)) by done. by wp_step. Qed.

Lemma take_insert_last (l : list Z) n b : (n < length l)%nat -> take (S n) (<[n := b]> l) = take n l ++ [b].
Proof.
  intros Hn. rewrite (take_S_r _ n b) by by apply list_lookup_insert_eq. f_equal. by apply take_insert_ge.
Qed.

Lemma wp_decoder_push d b : decoder_ok d ->
  wp (push b) (fun r d' => decoder_ok d' /\ (r, buffered d') = push_spec (buffered d) b) d.
Proof.
  intros Hd. pose proof Hd as [Hbuf Hlen Hneed]. pose proof (expected_len_range b) as Hexp.
  unfold push. do 2 wp_step. destruct (Z.eqb_spec (dlen d) 0) as [H0|H0].
  - unfold buffered at 2. rewrite H0. simpl take. unfold push_spec.
    destruct (Z.eqb_spec (utf8_expected_len b) 0) as [He|He].
    + wp_step. unfold buffered. rewrite H0. done.
    + do 2 wp_step. wp_step. destruct d as [[|x0 buf] len n]; [done|]. split; [|done].
      split; [done|right; simpl; lia|]. intros _. by exists b.
  - destruct Hlen as [?|[Hlen Hn4]]; [done|]. destruct (Hneed H0) as (b0 & Hb0 & Hn).
    assert (Hb : exists rest, buffered d = b0 :: rest /\ Z.of_nat (length (buffered d)) = dlen d).
    { unfold buffered. destruct (dbuf d) as [|x buf] eqn:E; [done|]. simpl in Hb0. injection Hb0 as ->.
      destruct (Z.to_nat (dlen d)) as [|k] eqn:Ek; [lia|]. exists (take k buf). split; [done|]. rewrite length_take. lia. }
    destruct Hb as (rest & Hb & Hbl). rewrite Hb. unfold push_spec. rewrite <-Hb, <-Hn, Hbl.
    destruct (negb (Z.land b 0xC0 =? 0x80)); [do 3 wp_step; split; [by apply clear_ok|done]|].
    rewrite (proj2 (Z.ltb_lt (dlen d) 4)) by lia. do 2 wp_step. wp_step. wp_step; [unfold U8; lia|]. do 3 wp_step. wp_step.
    cbn [dbuf dlen need].
    assert (Htk : take (Z.to_nat (dlen d + 1)) (<[Z.to_nat (dlen d) := b]> (dbuf d)) = buffered d ++ [b]).
    { replace (Z.to_nat (dlen d + 1)) with (S (Z.to_nat (dlen d))) by lia. apply take_insert_last. lia. }
    destruct (Z.eqb_spec (dlen d + 1) (need d)) as [He|He].
    + wp_step. wp_step. wp_step. apply wp_slice_to; [cbn [dbuf]; rewrite length_insert; lia|]. cbn [dbuf]. rewrite Htk.
      assert (Hok : decoder_ok (decoder_clear (mkDecoder (<[Z.to_nat (dlen d):=b]> (dbuf d)) (dlen d + 1) (need d))))
        by (split; [simpl; by rewrite length_insert|by left|done]).
      destruct (from_utf8 (buffered d ++ [b])) as [[|c [|c' cs]]|] eqn:Ef; try (do 2 wp_step; wp_step; by split).
      by rewrite Hb in Ef; simpl app in Ef; apply from_utf8_nonempty in Ef.
    + wp_step. split; [|unfold buffered at 1; cbn [dbuf dlen]; by rewrite Htk].
      split; cbn [dbuf dlen need]; [by rewrite length_insert|right; lia|]. intros _. exists b0.
      split; [|done]. rewrite list_lookup_insert_ne by lia. done.
Qed.

(** Feeding the decoder several bytes. *)
Fixpoint push_all (bs : list Z) : M Utf8Decoder (list Utf8PushResult) :=
  match bs with
  | [] => mret []
  | b :: bs' =>
      r ← push b;
      rs ← push_all bs';
      mret (r :: rs)
  end.

Fixpoint feed (buf bs : list Z) : list Utf8PushResult :=
  match bs with
  | [] => []
  | b :: bs' => let '(r, buf') := push_spec buf b in r :: feed buf' bs'
  end.

Lemma wp_push_all bs d : decoder_ok d -> wp (push_all bs) (fun rs d' => decoder_ok d' /\ rs = feed (buffered d) bs) d.
Proof.
  revert d. induction bs as [|b bs IH]; intros d Hd; simpl; [by wp_step|].
  wp_step. eapply wp_mono; [|by apply wp_decoder_push]. intros r d1 [Hd1 Hr]. rewrite <-Hr.
  wp_step. eapply wp_mono; [|by apply IH]. intros rs d2 [Hd2 ->]. by wp_step.
Qed.

(** ** Bytes and code points *)

Lemma cont_land b : 0 <= b < 256 -> (Z.land b 0xC0 =? 0x80) = is_cont b.
Proof.
  intros Hb. assert (H : forallb (fun b => Bool.eqb (Z.land b 0xC0 =? 0x80) (is_cont b)) (seqZ 0 256) = true) by by vm_compute.
  rewrite forallb_forall in H. specialize (H b). apply Bool.eqb_prop, H. apply list_elem_of_In, elem_of_seqZ. lia.
Qed.

Ltac boolz :=
  repeat match goal with
  | H : context [?x <=? ?y] |- _ => destruct (Z.leb_spec x y) in H; try done
  | H : context [?x =? ?y] |- _ => destruct (Z.eqb_spec x y) in H; try done
  | H : context [?x <? ?y] |- _ => destruct (Z.ltb_spec x y) in H; try done
  end.

Lemma is_cont_iff b : is_cont b = true <-> 0x80 <= b <= 0xBF.
Proof. unfold is_cont. rewrite andb_true_iff, !Z.leb_le. done. Qed.

Definition lead2 (b : Z) : Prop := 0xC2 <= b <= 0xDF.
Definition lead3 (b : Z) : Prop := 0xE0 <= b <= 0xEF.
Definition lead4 (b : Z) : Prop := 0xF0 <= b <= 0xF4.

Lemma expected_len_cases b :
  (lead2 b /\ utf8_expected_len b = 2) \/ (lead3 b /\ utf8_expected_len b = 3) \/
  (lead4 b /\ utf8_expected_len b = 4) \/ (~ lead2 b /\ ~ lead3 b /\ ~ lead4 b /\ utf8_expected_len b = 0).
Proof.
  unfold utf8_expected_len, lead2, lead3, lead4.
  destruct (_ && _) eqn:E2; [left; apply andb_true_iff in E2; rewrite !Z.leb_le in E2; done|].
  destruct ((0xE0 <=? b) && _) eqn:E3; [right; left; apply andb_true_iff in E3; rewrite !Z.leb_le in E3; done|].
  destruct ((0xF0 <=? b) && _) eqn:E4; [right; right; left; apply andb_true_iff in E4; rewrite !Z.leb_le in E4; done|].
  right. right. right. rewrite andb_false_iff, !Z.leb_gt in E2, E3, E4. split_and!; (done || lia).
Qed.

(** What a complete sequence of each length decodes to. *)
Lemma decode2 b0 b1 : lead2 b0 -> from_utf8 [b0; b1] = if is_cont b1 then Some [(b0 - 0xC0) * 64 + (b1 - 0x80)] else None.
Proof.
  unfold lead2. intros H. cbn [from_utf8]. rewrite (proj2 (Z.ltb_ge _ _)), (proj2 (Z.leb_le 0xC2 b0)), (proj2 (Z.leb_le b0 0xDF)) by lia.
  by destruct (is_cont b1).
Qed.
Lemma decode3 b0 b1 b2 : lead3 b0 -> from_utf8 [b0; b1; b2] =
  if second_ok b0 b1 && is_cont b2 then Some [(b0 - 0xE0) * 4096 + (b1 - 0x80) * 64 + (b2 - 0x80)] else None.
Proof.
  unfold lead3. intros H. cbn [from_utf8].
  rewrite (proj2 (Z.ltb_ge _ _)), (proj2 (Z.leb_gt b0 0xDF)), (proj2 (Z.leb_le 0xE0 b0)), (proj2 (Z.leb_le b0 0xEF)) by lia.
  rewrite andb_false_r. simpl. by destruct (second_ok b0 b1), (is_cont b2).
Qed.
Lemma decode4 b0 b1 b2 b3 : lead4 b0 -> from_utf8 [b0; b1; b2; b3] =
  if second_ok b0 b1 && is_cont b2 && is_cont b3 then
    Some [(b0 - 0xF0) * 262144 + (b1 - 0x80) * 4096 + (b2 - 0x80) * 64 + (b3 - 0x80)] else None.
Proof.
  unfold lead4. intros H. cbn [from_utf8].
  rewrite (proj2 (Z.ltb_ge _ _)), (proj2 (Z.leb_gt b0 0xDF)), (proj2 (Z.leb_gt b0 0xEF)), (proj2 (Z.leb_le 0xF0 b0)), (proj2 (Z.leb_le b0 0xF4)) by lia.
  rewrite !andb_false_r. simpl. by destruct (second_ok b0 b1), (is_cont b2), (is_cont b3).
Qed.

Lemma second_ok_iff b0 b1 : second_ok b0 b1 = true <-> 0x80 <= b1 <= 0xBF /\
  (b0 = 0xE0 -> 0xA0 <= b1) /\ (b0 = 0xED -> b1 <= 0x9F) /\ (b0 = 0xF0 -> 0x90 <= b1) /\ (b0 = 0xF4 -> b1 <= 0x8F).
Proof.
  unfold second_ok, is_cont. repeat (case_match; breflect); rewrite andb_true_iff, !Z.leb_le; lia.
Qed.

(** The sequences that decode to [c]: exactly its encoding. *)
Lemma encoding2 b0 b1 c : 0x80 <= c -> scalar c ->
  (lead2 b0 /\ is_cont b1 = true /\ c = (b0 - 0xC0) * 64 + (b1 - 0x80)) <-> [b0; b1] = encode_utf8 c.
Proof.
  intros Hc Hs. rewrite is_cont_iff. unfold lead2, encode_utf8, scalar in *. rewrite (proj2 (Z.ltb_ge c 0x80)) by lia. split.
  - intros (H0 & H1 & ->). rewrite (proj2 (Z.ltb_lt _ 0x800)) by lia. f_equal; [|f_equal]; Z.to_euclidean_division_equations; lia.
  - destruct (Z.ltb_spec c 0x800) as [H|H]; [|by destruct (c <? 0x10000)]. intros [= -> ->]. Z.to_euclidean_division_equations; lia.
Qed.
Lemma encoding3 b0 b1 b2 c : 0x80 <= c -> scalar c ->
  (lead3 b0 /\ second_ok b0 b1 = true /\ is_cont b2 = true /\ c = (b0 - 0xE0) * 4096 + (b1 - 0x80) * 64 + (b2 - 0x80)) <->
  [b0; b1; b2] = encode_utf8 c.
Proof.
  intros Hc Hs. rewrite is_cont_iff, second_ok_iff. unfold lead3, encode_utf8, scalar in *. rewrite (proj2 (Z.ltb_ge c 0x80)) by lia. split.
  - intros (H0 & H1 & H2 & ->). rewrite (proj2 (Z.ltb_ge _ 0x800)), (proj2 (Z.ltb_lt _ 0x10000)) by lia.
    f_equal; [|f_equal; [|f_equal]]; Z.to_euclidean_division_equations; lia.
  - destruct (Z.ltb_spec c 0x800); [done|]. destruct (Z.ltb_spec c 0x10000); [|done]. intros [= -> -> ->].
    Z.to_euclidean_division_equations; lia.
Qed.
Lemma encoding4 b0 b1 b2 b3 c : 0x80 <= c -> scalar c ->
  (lead4 b0 /\ second_ok b0 b1 = true /\ is_cont b2 = true /\ is_cont b3 = true /\
   c = (b0 - 0xF0) * 262144 + (b1 - 0x80) * 4096 + (b2 - 0x80) * 64 + (b3 - 0x80)) <-> [b0; b1; b2; b3] = encode_utf8 c.
Proof.
  intros Hc Hs. rewrite !is_cont_iff, second_ok_iff. unfold lead4, encode_utf8, scalar in *. rewrite (proj2 (Z.ltb_ge c 0x80)) by lia. split.
  - intros (H0 & H1 & H2 & H3 & ->). rewrite (proj2 (Z.ltb_ge _ 0x800)), (proj2 (Z.ltb_ge _ 0x10000)) by lia.
    f_equal; [|f_equal; [|f_equal; [|f_equal]]]; Z.to_euclidean_division_equations; lia.
  - destruct (Z.ltb_spec c 0x800); [done|]. destruct (Z.ltb_spec c 0x10000); [done|]. intros [= -> -> -> ->].
    Z.to_euclidean_division_equations; lia.
Qed.

Lemma encode_expected c b0 r : 0x80 <= c -> scalar c -> encode_utf8 c = b0 :: r ->
  utf8_expected_len b0 = Z.of_nat (S (length r)) /\ (lead2 b0 \/ lead3 b0 \/ lead4 b0).
Proof.
  intros Hc Hs He. destruct (expected_len_cases b0) as [[H ->]|[[H ->]|[[H ->]|(H2 & H3 & H4 & _)]]];
    unfold lead2, lead3, lead4, encode_utf8, scalar in *; rewrite (proj2 (Z.ltb_ge c 0x80)) in He by lia;
    destruct (Z.ltb_spec c 0x800); [|destruct (Z.ltb_spec c 0x10000)| |destruct (Z.ltb_spec c 0x10000)| |destruct (Z.ltb_spec c 0x10000)| |destruct (Z.ltb_spec c 0x10000)];
    injection He as Hb Hr; subst b0; rewrite <-?Hr; simpl length; Z.to_euclidean_division_equations; lia.
Qed.

(** All of [bs] but its last byte is pending, and the last completes [c]. *)
Definition completes (rs : list Utf8PushResult) (c : Z) : Prop := rs = repeat Pending (length rs - 1) ++ [Completed c].

Lemma completes_cons r rs c : completes (r :: rs) c <-> (rs = [] /\ r = Completed c) \/ (r = Pending /\ completes rs c).
Proof.
  unfold completes. simpl length. rewrite Nat.sub_1_r, Nat.pred_succ. destruct rs as [|r' rs].
  - simpl. split; [intros [= ->]; by left|intros [[_ ->]|[_ ?]]; done].
  - simpl length. rewrite Nat.sub_1_r, Nat.pred_succ. cbn [repeat app].
    split; [intros [= -> ?]; by right|intros [[? _]|[-> ->]]; done].
Qed.

Lemma completes_nil c : ~ completes [] c.
Proof. done. Qed.

Lemma feed_cons buf b bs : feed buf (b :: bs) = (push_spec buf b).1 :: feed (push_spec buf b).2 bs.
Proof. simpl. by destruct (push_spec buf b). Qed.

(** A byte after some but not all of the bytes a sequence needs. *)
Lemma push_more b0 bs b : 0 <= b < 256 -> Z.of_nat (S (length bs)) + 1 < utf8_expected_len b0 ->
  push_spec (b0 :: bs) b = if is_cont b then (Pending, b0 :: bs ++ [b]) else (Invalid, []).
Proof.
  intros Hb Hl. unfold push_spec. rewrite cont_land by done. destruct (is_cont b); [|done]. cbn [negb].
  rewrite (proj2 (Z.eqb_neq _ _)) by (simpl length; lia). done.
Qed.
Lemma push_last b0 bs b : 0 <= b < 256 -> Z.of_nat (S (length bs)) + 1 = utf8_expected_len b0 ->
  push_spec (b0 :: bs) b = (if is_cont b then match from_utf8 (b0 :: bs ++ [b]) with Some [c] => Completed c | _ => Invalid end else Invalid, []).
Proof.
  intros Hb Hl. unfold push_spec. rewrite cont_land by done. destruct (is_cont b); [|done]. cbn [negb].
  rewrite (proj2 (Z.eqb_eq _ _)) by (simpl length; lia). done.
Qed.

(** The byte that must complete: it does so exactly when nothing follows. *)
Lemma completes_last b0 bs b rest c : 0 <= b < 256 -> Z.of_nat (S (length bs)) + 1 = utf8_expected_len b0 ->
  completes (feed (b0 :: bs) (b :: rest)) c <-> rest = [] /\ is_cont b = true /\ from_utf8 (b0 :: bs ++ [b]) = Some [c].
Proof.
  intros Hb Hl. rewrite feed_cons, push_last, completes_cons by done. cbn [fst snd].
  assert (Hnp : (if is_cont b then match from_utf8 (b0 :: bs ++ [b]) with Some [c'] => Completed c' | _ => Invalid end else Invalid) <> Pending)
    by (repeat case_match; done).
  assert (Hnil : feed [] rest = [] <-> rest = []).
  { destruct rest as [|x rest]; [done|]. rewrite feed_cons. done. }
  rewrite Hnil. split.
  - intros [[-> He]|[? _]]; [|done]. split; [done|]. destruct (is_cont b); [|done].
    split; [done|]. destruct (from_utf8 _) as [[|c' [|? ?]]|]; try done. by injection He as ->.
  - intros (-> & -> & ->). by left.
Qed.

Lemma completes_more b0 bs b rest c : 0 <= b < 256 -> Z.of_nat (S (length bs)) + 1 < utf8_expected_len b0 ->
  completes (feed (b0 :: bs) (b :: rest)) c <-> is_cont b = true /\ completes (feed (b0 :: bs ++ [b]) rest) c.
Proof.
  intros Hb Hl. rewrite feed_cons, push_more, completes_cons by done. destruct (is_cont b); cbn [fst snd].
  - split; [intros [[_ ?]|[_ ?]]; done|intros [_ ?]; by right].
  - split; [intros [[_ ?]|[? _]]; done|intros [? _]; done].
Qed.

Lemma feed_first b0 rest c : completes (feed [] (b0 :: rest)) c <-> utf8_expected_len b0 <> 0 /\ completes (feed [b0] rest) c.
Proof.
  rewrite feed_cons, completes_cons. unfold push_spec. destruct (Z.eqb_spec (utf8_expected_len b0) 0); cbn [fst snd].
  - split; [intros [[_ ?]|[? _]]; done|intros [? _]; done].
  - split; [intros [[_ ?]|[_ ?]]; done|intros [_ ?]; by right].
Qed.

Lemma second_cont b0 b1 : second_ok b0 b1 = true -> is_cont b1 = true.
Proof. rewrite second_ok_iff, is_cont_iff. tauto. Qed.

Lemma decoded_scalar b0 bs c : from_utf8 (b0 :: bs) = Some [c] ->
  (lead2 b0 /\ (exists b1, bs = [b1])) \/ (lead3 b0 /\ (exists b1 b2, bs = [b1; b2])) \/
  (lead4 b0 /\ (exists b1 b2 b3, bs = [b1; b2; b3])) -> 0x80 <= c /\ scalar c.
Proof.
  intros Hd [[Hl (b1 & ->)]|[[Hl (b1 & b2 & ->)]|[Hl (b1 & b2 & b3 & ->)]]];
    rewrite ?decode2, ?decode3, ?decode4 in Hd by done; (destruct (_ && _) eqn:E in Hd || destruct (is_cont b1) eqn:E; [|done]);
    injection Hd as <-; rewrite ?andb_true_iff, ?second_ok_iff, ?is_cont_iff in E;
    unfold scalar, lead2, lead3, lead4 in *; lia.
Qed.

Lemma feed_complete_iff bs c : Forall (fun b => 0 <= b < 256) bs ->
  completes (feed [] bs) c <-> 0x80 <= c /\ scalar c /\ bs = encode_utf8 c.
Proof.
  destruct bs as [|b0 bs]; intros Hb.
  { split; [by intros ?%completes_nil|]. intros (? & ? & He). unfold encode_utf8 in He. by repeat case_match. }
  apply Forall_cons in Hb as [Hb0 Hb]. rewrite feed_first. split.
  - intros [Hne Hc].
    destruct bs as [|b1 bs]; [done|]. apply Forall_cons in Hb as [Hb1 Hb].
    destruct (expected_len_cases b0) as [[Hl He]|[[Hl He]|[[Hl He]|(_ & _ & _ & ?)]]]; [| | |done].
    + apply completes_last in Hc as (-> & Hk & Hd); [|done|simpl length; lia]. simpl app in Hd.
      destruct (decoded_scalar _ _ _ Hd) as [H1 H2]; [left; eauto|]. split_and!; [done|done|].
      apply encoding2; [done|done|]. rewrite decode2, Hk in Hd by done. by injection Hd as <-.
    + apply completes_more in Hc as [Hk Hc]; [|done|simpl length; lia]. simpl app in Hc.
      destruct bs as [|b2 bs]; [done|]. apply Forall_cons in Hb as [Hb2 Hb].
      apply completes_last in Hc as (-> & Hk2 & Hd); [|done|simpl length; lia]. simpl app in Hd.
      destruct (decoded_scalar _ _ _ Hd) as [H1 H2]; [right; left; eauto|]. split_and!; [done|done|].
      apply encoding3; [done|done|]. rewrite decode3, Hk2 in Hd by done. destruct (second_ok b0 b1); [|done]. by injection Hd as <-.
    + apply completes_more in Hc as [Hk Hc]; [|done|simpl length; lia]. simpl app in Hc.
      destruct bs as [|b2 bs]; [done|]. apply Forall_cons in Hb as [Hb2 Hb].
      apply completes_more in Hc as [Hk2 Hc]; [|done|simpl length; lia]. simpl app in Hc.
      destruct bs as [|b3 bs]; [done|]. apply Forall_cons in Hb as [Hb3 Hb].
      apply completes_last in Hc as (-> & Hk3 & Hd); [|done|simpl length; lia]. simpl app in Hd.
      destruct (decoded_scalar _ _ _ Hd) as [H1 H2]; [right; right; eauto 10|]. split_and!; [done|done|].
      apply encoding4; [done|done|]. rewrite decode4, Hk2, Hk3 in Hd by done. destruct (second_ok b0 b1); [|done]. by injection Hd as <-.
  - intros (Hc & Hs & He). destruct (encode_expected c b0 bs Hc Hs (eq_sym He)) as [Hl Hlead]. split; [lia|].
    assert (Hlen : utf8_expected_len b0 <= 4) by apply expected_len_range.
    destruct bs as [|b1 [|b2 [|b3 [|b4 bs]]]]; simpl length in Hl; [|rewrite !Forall_cons in Hb..|lia].
    + destruct (expected_len_range b0). lia.
    + apply encoding2 in He as (H0 & H1 & ->); [|done|done]. apply completes_last; [tauto|simpl length; lia|].
      simpl app. by rewrite decode2, H1.
    + apply encoding3 in He as (H0 & H1 & H2 & ->); [|done|done]. apply completes_more; [tauto|simpl length; lia|].
      split; [by eapply second_cont|]. apply completes_last; [tauto|simpl length; lia|]. simpl app. by rewrite decode3, H1, H2.
    + apply encoding4 in He as (H0 & H1 & H2 & H3 & ->); [|done|done]. apply completes_more; [tauto|simpl length; lia|].
      split; [by eapply second_cont|]. simpl app. apply completes_more; [tauto|simpl length; lia|]. split; [done|].
      apply completes_last; [tauto|simpl length; lia|]. simpl app. by rewrite decode4, H1, H2, H3.
Qed.

(** ** Widths as a list *)

(** The widths that can be erased, oldest first. *)
Definition line (c : ConsoleEcho) : list Z := take (Z.to_nat (elen c)) (widths c).
Record echo_ok (c : ConsoleEcho) : Prop := {
  eo_widths : length (widths c) = LINEBUF_CAP;
  eo_len : 0 <= elen c <= Z.of_nat LINEBUF_CAP;
  eo_decoder : decoder_ok (decoder c);
}.

Lemma shift_down_spec fuel i w : length w = LINEBUF_CAP -> (1 <= i)%nat -> (LINEBUF_CAP <= i + fuel)%nat ->
  shift_down fuel i w = take (i - 1) w ++ drop i w ++ drop (LINEBUF_CAP - 1) w \/ (LINEBUF_CAP < i)%nat.
Proof.
  revert i w. induction fuel as [|fuel IH]; intros i w Hw Hi Hf.
  - destruct (decide (i = LINEBUF_CAP)) as [->|]; [|right; lia]. left. simpl. rewrite (drop_ge w LINEBUF_CAP) by lia.
    simpl. by rewrite take_drop.
  - cbn [shift_down]. destruct (Nat.ltb_spec i LINEBUF_CAP) as [Hlt|Hge].
    + left. destruct (lookup_lt_is_Some_2 w i) as [x Hx]; [lia|]. rewrite Hx. simpl default.
      destruct (IH (S i) (<[(i - 1)%nat := x]> w)) as [->|?]; [by rewrite length_insert|lia|lia| |lia].
      replace (S i - 1)%nat with (S (i - 1)) by lia. rewrite take_insert_last by lia.
      rewrite !drop_insert_lt by lia. rewrite (drop_S w x i Hx), <-app_assoc. done.
    + destruct (decide (i = LINEBUF_CAP)) as [->|]; [|right; lia]. left. rewrite (drop_ge w LINEBUF_CAP) by lia. simpl app. by rewrite take_drop.
Qed.

Lemma shift_insert (l : list Z) n w : length l = S n -> <[n := w]> (drop 1 l ++ drop n l) = drop 1 l ++ [w].
Proof.
  intros Hl. destruct (lookup_lt_is_Some_2 l n) as [x Hx]; [lia|].
  rewrite (drop_S l x n Hx), (drop_ge l (S n)) by lia.
  rewrite insert_app_r_alt by (rewrite length_drop; lia). rewrite length_drop, Hl, Nat.sub_1_r, Nat.pred_succ, Nat.sub_diag. done.
Qed.

Lemma push_width_line w c : echo_ok c -> w <> 0 ->
  echo_ok (push_width w c) /\ line (push_width w c) = drop (length (line c) + 1 - LINEBUF_CAP) (line c ++ [w]).
Proof.
  intros [Hw Hl Hd] Hw0. assert (Hlen : length (line c) = Z.to_nat (elen c)) by (unfold line; rewrite length_take; lia).
  unfold push_width. rewrite (proj2 (Z.eqb_neq w 0)) by done. destruct (Z.ltb_spec (elen c) (Z.of_nat LINEBUF_CAP)).
  - split; [split; simpl; [by rewrite length_insert|lia|done]|]. rewrite Hlen.
    replace (Z.to_nat (elen c) + 1 - LINEBUF_CAP)%nat with 0%nat by lia. rewrite drop_0. unfold line. simpl.
    replace (Z.to_nat (elen c + 1)) with (S (Z.to_nat (elen c))) by lia. apply take_insert_last. lia.
  - assert (He : Z.to_nat (elen c) = LINEBUF_CAP) by lia.
    destruct (shift_down_spec LINEBUF_CAP 1 (widths c) Hw) as [Hs|?]; [lia|lia| |unfold LINEBUF_CAP in *; lia].
    change (take (1 - 1) (widths c)) with (@nil Z) in Hs. change (LINEBUF_CAP - 1)%nat with 255%nat in *.
    rewrite app_nil_l in Hs. rewrite Hs.
    assert (Hin : <[255%nat := w]> (drop 1 (widths c) ++ drop 255 (widths c)) = drop 1 (widths c) ++ [w]).
    { by apply shift_insert. }
    split; [split; cbn [widths elen decoder]; [|lia|done]|].
    + rewrite Hin, length_app, length_drop, Hw. unfold LINEBUF_CAP. simpl length. lia.
    + unfold line. cbn [widths elen decoder]. rewrite Hin, He, (take_ge (widths c)) by lia. rewrite Hw.
      rewrite take_ge by (rewrite length_app, length_drop, Hw; simpl length; unfold LINEBUF_CAP; lia).
      replace (LINEBUF_CAP + 1 - LINEBUF_CAP)%nat with 1%nat by lia. by rewrite drop_app_le by (rewrite Hw; unfold LINEBUF_CAP; lia).
Qed.

Lemma pop_width_line c : echo_ok c ->
  echo_ok (pop_width c).2 /\ (pop_width c).1 = last (line c) /\ line (pop_width c).2 = take (length (line c) - 1) (line c).
Proof.
  intros [Hw Hl Hd]. assert (Hlen : length (line c) = Z.to_nat (elen c)) by (unfold line; rewrite length_take; lia).
  unfold pop_width. destruct (Z.eqb_spec (elen c) 0) as [H0|H0]; cbn [fst snd].
  - split; [done|]. unfold line. rewrite H0. done.
  - split; [split; simpl; [done|lia|done]|]. rewrite last_lookup, Hlen. unfold line. simpl. split.
    + rewrite lookup_take_lt by lia. f_equal. lia.
    + rewrite take_take. f_equal. lia.
Qed.

(** ** Properties *)

(** C35: the decoder's type invariant: from any state between bytes (nothing
    buffered, or fewer bytes than the first one announced, at most four) every
    byte is handled without a panic, no index leaves the four-byte buffer, and
    the invariant holds again; what is buffered and what is answered depend on
    the bytes since the last answer only. *)
Theorem utf8_decoder_invariant d b : decoder_ok d ->
  wp (push b) (fun r d' => decoder_ok d' /\ (r, buffered d') = push_spec (buffered d) b) d.
Proof. apply wp_decoder_push. Qed.

Lemma utf8_decoder_invariant_witness :
  wp (push 0xE4) (fun r d' => decoder_ok d' /\ r = Pending /\ buffered d' = [0xE4]) Utf8Decoder_new.
Proof.
  eapply wp_mono; [|exact (utf8_decoder_invariant Utf8Decoder_new 0xE4 new_ok)].
  intros r d' [Hd Hr]. split; [exact Hd|]. vm_compute in Hr. injection Hr as -> Hb. split; [reflexivity|exact Hb].
Defined.

(** C33: decoding is the inverse of encoding: fed any bytes from a clear state,
    the decoder answers pending for all but the last and completes the
    character [c] with the last exactly when the bytes are the UTF-8 encoding
    of the non-ASCII scalar value [c]; overlong forms, surrogates and values
    above U+10FFFF never complete. *)
Theorem utf8_roundtrip d bs c : decoder_ok d -> dlen d = 0 -> Forall (fun b => 0 <= b < 256) bs ->
  wp (push_all bs) (fun rs d' => decoder_ok d' /\
    (completes rs c <-> 0x80 <= c /\ scalar c /\ bs = encode_utf8 c)) d.
Proof.
  intros Hd H0 Hb. eapply wp_mono; [|by apply wp_push_all]. intros rs d' [Hd' ->]. split; [done|].
  unfold buffered. rewrite H0. by apply feed_complete_iff.
Qed.

Lemma utf8_roundtrip_witness :
  wp (push_all [0xE4; 0xBD; 0xA0]) (fun rs _ => completes rs 0x4F60) Utf8Decoder_new.
Proof.
  eapply wp_mono; [|apply (utf8_roundtrip Utf8Decoder_new [0xE4; 0xBD; 0xA0] 0x4F60 new_ok eq_refl)].
  - intros rs d' [_ H]. apply H. split; [lia|]. split; [left; lia|reflexivity].
  - repeat constructor; lia.
Defined.

(** The console's record of character widths is a stack of the last 256:
    pushing appends, dropping the oldest when full, and erasing takes the
    newest; both keep the record well formed, so no index is out of range. *)
Theorem console_widths_stack w c : echo_ok c -> w <> 0 ->
  echo_ok (push_width w c) /\ line (push_width w c) = drop (length (line c) + 1 - LINEBUF_CAP) (line c ++ [w]) /\
  echo_ok (pop_width c).2 /\ (pop_width c).1 = last (line c) /\ line (pop_width c).2 = take (length (line c) - 1) (line c).
Proof.
  intros Hc Hw. destruct (push_width_line w c Hc Hw) as [H1 H2]. destruct (pop_width_line c Hc) as (H3 & H4 & H5). done.
Qed.

Lemma echo_new_ok : echo_ok ConsoleEcho_new.
Proof. split; [apply repeat_length|done|apply new_ok]. Qed.

Lemma console_widths_stack_witness : line (push_width 2 ConsoleEcho_new) = [2].
Proof. destruct (console_widths_stack 2 ConsoleEcho_new echo_new_ok ltac:(lia)) as (_ & -> & _). vm_compute. reflexivity. Defined.
