(* ===== verification/Uart.v ===== *)
(** * The serial console ([drivers/uart/mod.rs], [drivers/uart/irq.rs])

    The driver of a 16550 UART behind any [Mmio] device, the writer the kernel
    prints with, and both interrupt handlers: the plain one and the one of the
    feature [uart-unicode]. [SerialLine] states what the driver relies on of
    the UART: data-ready and transmitter-empty bits that mean what the 16550
    data sheet says. *)
From S2P Require Import Prelude Addr RunQueue PhysMem PageTable FreshPages Vm Plic Utf8.

Record Config := mkConfig { cbase : Z; thr_offset : Z; lsr_offset : Z; lsr_thre_bit : Z }.
Definition THR_REGISTER_INDEX : Z := 0.
Definition LSR_REGISTER_INDEX : Z := 5.
Definition DEFAULT_LSR_THRE : Z := 0x20.
Definition DEFAULT_QEMU_VIRT : Config := mkConfig 0x10000000 0 5 0x20.

Record Uart := mkUart { thr : Z; lsr : Z; lsr_thre : Z; cfg : Config }.
Definition from_config {S} (c : Config) : M S Uart :=
  t ← uadd (cbase c) (thr_offset c);
  l ← uadd (cbase c) (lsr_offset c);
  mret (mkUart t l (lsr_thre_bit c) c).

Section uart.
Context {D : Type} `{!Mmio D}.
(** Bound on the rounds of the polling loops. *)
Variable fuel : nat.

Definition putb (u : Uart) (b : Z) : M D unit :=
  loop fuel (fun (_ : unit) =>
    status ← volatile_read 1 (lsr u);
    mret (if Z.land status (lsr_thre u) =? 0 then inl tt else inr tt)) tt;;
  volatile_write 1 (thr u) b.

Fixpoint puts (u : Uart) (s : list Z) : M D unit :=
  match s with
  | [] => mret tt
  | b :: s' => putb u b;; puts u s'
  end.

(** [UartWriter]: a carriage return before every line feed *)
Fixpoint write_str (u : Uart) (s : list Z) : M D unit :=
  match s with
  | [] => mret tt
  | ch :: s' => (if ch =? 10 then putb u 13 else mret tt);; putb u ch;; write_str u s'
  end.
Definition write_char (u : Uart) (c : Z) : M D unit :=
  (if c =? 10 then putb u 13 else mret tt);;
  puts u (encode_utf8 c).

Definition LSR_DR : Z := 0x01.
(** [UART.get().expect(..)] *)
Definition uart_get (UART : option Uart) (msg : string) : M D Uart := expect UART msg.

(** What the plain handler does with one byte. *)
Definition plain_byte (u : Uart) (b : Z) : M D unit :=
  if (b =? 13) || (b =? 10) then puts u [10]
  else if (b =? 8) || (b =? 0x7f) then puts u [8; 32; 8]
  else putb u b.

Definition handler (UART : option Uart) : M D unit :=
  u ← uart_get UART "UART not initialized in interrupt handler";
  loop fuel (fun (_ : unit) =>
    status ← volatile_read 1 (lsr u);
    if Z.land status LSR_DR =? 0 then mret (inr tt)
    else
      b ← volatile_read 1 (thr u);
      plain_byte u b;;
      mret (inl tt)) tt.

(** [irq::enable] *)
Definition uart_enable (UART : option Uart) : M D unit :=
  u ← uart_get UART "UART not initialized in interrupt enable";
  let lsr_off := lsr_offset (cfg u) in
  let stride := if 5 <=? lsr_off then lsr_off / 5 else 1 in
  ier ← uadd (cbase (cfg u)) (stride * 1);
  volatile_write 1 ier 0x01.

(** ** The handler of the feature [uart-unicode] *)

Record console := mkConsole { dev : D; echo : ConsoleEcho }.
Definition on_dev {A} (m : M D A) : M console A := zoom dev (fun d c => mkConsole d (echo c)) m.
Definition on_decoder {A} (m : M Utf8Decoder A) : M console A :=
  zoom (fun c => decoder (echo c)) (fun x c => mkConsole (dev c) (set_decoder x (echo c))) m.
Definition upd_echo (f : ConsoleEcho -> ConsoleEcho) : M console unit := modify (fun c => mkConsole (dev c) (f (echo c))).
Definition clear_decoder : M console unit := upd_echo (fun e => set_decoder (decoder_clear (decoder e)) e).

(** U+FFFD, the replacement character *)
Definition REPLACEMENT : list Z := encode_utf8 0xFFFD.

(** [for _ in 0..w { uart.puts("\x08 \x08") }] *)
Fixpoint erase (u : Uart) (w : nat) : M console unit :=
  match w with
  | O => mret tt
  | S w' => on_dev (puts u [8; 32; 8]);; erase u w'
  end.

Definition unicode_byte (u : Uart) (b : Z) : M console unit :=
  if (b =? 13) || (b =? 10) then
    clear_decoder;;
    upd_echo clear_line;;
    on_dev (puts u [10])
  else if (b =? 8) || (b =? 0x7f) then
    p ← gets (fun c => has_pending (decoder (echo c)));
    if p : bool then clear_decoder
    else
      o ← gets (fun c => (pop_width (echo c)).1);
      match o with
      | Some w =>
          upd_echo (fun e => (pop_width e).2);;
          erase u (Z.to_nat w)
      | None => mret tt
      end
  else if b <? 0x80 then
    p ← gets (fun c => has_pending (decoder (echo c)));
    (if p : bool then
       on_dev (puts u REPLACEMENT);;
       upd_echo (push_width 1);;
       clear_decoder
     else mret tt);;
    on_dev (puts u (encode_utf8 b));;
    upd_echo (push_width 1)
  else
    r ← on_decoder (push b);
    match r with
    | Pending => mret tt
    | Completed c =>
        on_dev (puts u (encode_utf8 c));;
        upd_echo (push_width (char_display_width c))
    | Invalid =>
        on_dev (puts u REPLACEMENT);;
        upd_echo (push_width 1)
    end.

Definition handler_unicode (UART : option Uart) : M console unit :=
  u ← on_dev (uart_get UART "UART not initialized in interrupt handler");
  loop fuel (fun (_ : unit) =>
    status ← on_dev (volatile_read 1 (lsr u));
    if Z.land status LSR_DR =? 0 then mret (inr tt)
    else
      b ← on_dev (volatile_read 1 (thr u));
      unicode_byte u b;;
      mret (inl tt)) tt.
End uart.
Arguments console : clear implicits.

(** ** What the driver relies on of the UART *)

Class SerialLine {D} `{!Mmio D} (u : Uart) := {
  rx : D -> list Z;      (** bytes received and not yet read *)
  tx : D -> list Z;      (** bytes sent *)
  busy : D -> nat;       (** polls until the transmitter is empty *)
  busy_max : nat;
  busy_bound : forall d, (busy d <= busy_max)%nat;
  lsr_read : forall d, let '(v, d') := mmio_read 1 (lsr u) d in
    rx d' = rx d /\ tx d' = tx d /\ (Z.land v LSR_DR = 0 <-> rx d = []) /\
    (Z.land v (lsr_thre u) = 0 -> (busy d' < busy d)%nat);
  rbr_read : forall d b r, rx d = b :: r -> let '(v, d') := mmio_read 1 (thr u) d in v = b /\ rx d' = r /\ tx d' = tx d;
  thr_write : forall d b, rx (mmio_write 1 (thr u) b d) = rx d /\ tx (mmio_write 1 (thr u) b d) = tx d ++ [b];
}.

Section driver.
Context {D : Type} `{!Mmio D} (u : Uart) `{!SerialLine u} (fuel : nat).
Implicit Types (d : D).
Local Abbreviation busy_max := (busy_max (u := u)).

Lemma wp_putb b d (Q : unit -> D -> Prop) : (busy_max < fuel)%nat ->
  (forall d', rx (u := u) d' = rx (u := u) d -> tx (u := u) d' = tx (u := u) d ++ [b] -> Q tt d') -> wp (putb fuel u b) Q d.
Proof.
  intros Hf HQ. unfold putb. wp_step.
  apply (wp_loop (fun _ d1 => rx (u := u) d1 = rx (u := u) d /\ tx (u := u) d1 = tx (u := u) d) (fun _ d1 => busy (u := u) d1)).
  - intros [] d1 [Hr Ht]. wp_step. unfold wp, volatile_read. pose proof (lsr_read (u := u) d1) as Hl.
    destruct (mmio_read 1 (lsr u) d1) as [v d2]. destruct Hl as (H1 & H2 & _ & H3).
    destruct (Z.eqb_spec (Z.land v (lsr_thre u)) 0) as [H0|H0]; cbn.
    + rewrite H1, H2. auto.
    + apply HQ; destruct (thr_write (u := u) d2 b); congruence.
  - done.
  - pose proof (busy_bound (u := u) d). lia.
Qed.

Lemma wp_puts s d (Q : unit -> D -> Prop) : (busy_max < fuel)%nat ->
  (forall d', rx (u := u) d' = rx (u := u) d -> tx (u := u) d' = tx (u := u) d ++ s -> Q tt d') -> wp (puts fuel u s) Q d.
Proof.
  intros Hf. revert d. induction s as [|b s IH]; intros d HQ; simpl.
  - wp_step. apply HQ; [done|]. by rewrite app_nil_r.
  - wp_step. apply wp_putb; [done|]. intros d1 Hr Ht. apply IH. intros d2 Hr2 Ht2.
    apply HQ; [congruence|]. by rewrite Ht2, Ht, <-app_assoc.
Qed.

(** The receive loop of both handlers: every byte is read and treated in turn.
    [I d done]: the state after the bytes [done] were treated. *)
Lemma wp_receive {St} (get : St -> D) (set : D -> St -> St) (body : Z -> M St unit) (I : list Z -> St -> Prop) (s : St) :
  (forall d s, get (set d s) = d) ->
  I [] s -> (length (rx (u := u) (get s)) < fuel)%nat ->
  (forall dn s d', I dn s -> rx (u := u) d' = rx (u := u) (get s) -> tx (u := u) d' = tx (u := u) (get s) -> I dn (set d' s)) ->
  (forall dn b rest s d', I dn s -> rx (u := u) (get s) = b :: rest -> rx (u := u) d' = rest -> tx (u := u) d' = tx (u := u) (get s) ->
    wp (body b) (fun _ s' => rx (u := u) (get s') = rest /\ I (dn ++ [b]) s') (set d' s)) ->
  wp (loop fuel (fun (_ : unit) =>
    status ← zoom get set (volatile_read 1 (lsr u));
    if Z.land status LSR_DR =? 0 then mret (inr tt)
    else
      b ← zoom get set (volatile_read 1 (thr u));
      body b;;
      mret (inl tt)) tt)
    (fun _ s' => rx (u := u) (get s') = [] /\ I (rx (u := u) (get s)) s') s.
Proof.
  intros Hgs H0 Hf Hstable Hbody.
  apply (wp_loop (fun _ s1 => exists dn, rx (u := u) (get s) = dn ++ rx (u := u) (get s1) /\ I dn s1)
    (fun _ s1 => length (rx (u := u) (get s1)))); [|by exists []|done].
  intros [] s1 (dn & Hrx & HI). wp_step. wp_step. unfold wp at 1, volatile_read.
  pose proof (lsr_read (u := u) (get s1)) as Hl. destruct (mmio_read 1 (lsr u) (get s1)) as [v d1].
  destruct Hl as (H1 & H2 & Hdr & _). destruct (Z.eqb_spec (Z.land v LSR_DR) 0) as [Hz|Hz].
  - wp_step. apply Hdr in Hz. rewrite Hgs, H1, Hz. split; [done|]. rewrite Hrx, Hz, app_nil_r. by apply Hstable.
  - destruct (rx (u := u) (get s1)) as [|b rest] eqn:Hr; [by destruct Hz; apply Hdr|].
    do 2 wp_step. unfold wp at 1, volatile_read. rewrite Hgs. pose proof (rbr_read (u := u) d1 b rest H1) as Hb.
    destruct (mmio_read 1 (thr u) d1) as [v' d2]. destruct Hb as (-> & Hr2 & Ht2). wp_step.
    eapply wp_mono; [|apply (Hbody dn b rest (set d1 s1) d2); [by apply Hstable; rewrite ?Hr|by rewrite Hgs| |by rewrite Hgs]]; [|done].
    intros [] s2 [Hr3 HI3]. wp_step. cbv beta. rewrite Hr3. split; [|simpl; lia].
    exists (dn ++ [b]). by rewrite <-app_assoc.
Qed.
End driver.

(** ** The plain handler *)

Definition echo_of (b : Z) : list Z :=
  if (b =? 13) || (b =? 10) then [10] else if (b =? 8) || (b =? 0x7f) then [8; 32; 8] else [b].

Section plain_handler.
Context {D : Type} `{!Mmio D} (u : Uart) `{!SerialLine u} (fuel : nat).
Context (Hf : (busy_max (u := u) < fuel)%nat).

Lemma wp_plain_byte b d (Q : unit -> D -> Prop) :
  (forall d', rx (u := u) d' = rx (u := u) d -> tx (u := u) d' = tx (u := u) d ++ echo_of b -> Q tt d') -> wp (plain_byte fuel u b) Q d.
Proof.
  intros HQ. unfold plain_byte, echo_of in *.
  destruct (_ || _); [by apply (wp_puts u fuel)|]. destruct (_ || _); [by apply (wp_puts u fuel)|by apply (wp_putb u fuel)].
Qed.

Lemma wp_handler d : (length (rx (u := u) d) < fuel)%nat ->
  wp (handler fuel (Some u)) (fun _ d' => rx (u := u) d' = [] /\ tx (u := u) d' = tx (u := u) d ++ (rx (u := u) d ≫= echo_of)) d.
Proof.
  intros Hlen. unfold handler. wp_step. eapply wp_expect; [done|]. cbv beta.
  pose proof (wp_receive u fuel (fun d : D => d) (fun d _ => d) (plain_byte fuel u)
    (fun dn d1 => tx (u := u) d1 = tx (u := u) d ++ (dn ≫= echo_of)) d) as H.
  assert (Hz : forall A (m : M D A) s, zoom (fun d => d) (fun d _ => d) m s = m s) by (intros A m s; unfold zoom; by destruct (m s)).
  eapply wp_mono; [|eapply wp_loop_ext; [|apply H]]; try done.
  - intros [] s1. unfold mbind, M_bind. rewrite Hz. destruct (volatile_read 1 (lsr u) s1) as [v d1| |]; [|done|done].
    destruct (_ =? 0); [done|]. by rewrite Hz.
  - by rewrite app_nil_r.
  - intros dn s1 d' H1 H2 H3. by rewrite H3.
  - intros dn b rest s1 d' H1 H2 H3 H4. apply wp_plain_byte. intros d2 Hr Ht. rewrite Hr. split; [done|].
    rewrite Ht, H4, H1, bind_app, <-app_assoc. simpl. by rewrite app_nil_r.
Qed.
End plain_handler.

(** ** The Unicode handler *)

(** What a byte does to the console record, and what is sent for it. *)
Definition after_push (r : Utf8PushResult) (e : ConsoleEcho) : ConsoleEcho * list Z :=
  match r with
  | Pending => (e, [])
  | Completed c => (push_width (char_display_width c) e, encode_utf8 c)
  | Invalid => (push_width 1 e, REPLACEMENT)
  end.

Definition uni_step (e : ConsoleEcho) (b : Z) : ConsoleEcho * list Z :=
  let clear e := set_decoder (decoder_clear (decoder e)) e in
  if (b =? 13) || (b =? 10) then (clear_line (clear e), [10])
  else if (b =? 8) || (b =? 0x7f) then
    if has_pending (decoder e) then (clear e, [])
    else match (pop_width e).1 with
         | Some w => ((pop_width e).2, concat (repeat [8; 32; 8] (Z.to_nat w)))
         | None => (e, [])
         end
  else if b <? 0x80 then
    if has_pending (decoder e) then (push_width 1 (clear (push_width 1 e)), REPLACEMENT ++ encode_utf8 b)
    else (push_width 1 e, encode_utf8 b)
  else match push b (decoder e) with
       | Ret r d => after_push r (set_decoder d e)
       | _ => (e, [])
       end.

Lemma set_decoder_ok d e : decoder_ok d -> echo_ok e -> echo_ok (set_decoder d e).
Proof. intros Hd [H1 H2 _]. by split. Qed.
Lemma push_width_ok w e : echo_ok e -> echo_ok (push_width w e).
Proof.
  intros He. destruct (Z.eq_dec w 0) as [->|Hw]; [done|]. by apply push_width_line.
Qed.
Lemma clear_ok' e : echo_ok e -> echo_ok (set_decoder (decoder_clear (decoder e)) e).
Proof. intros He. apply set_decoder_ok; [apply clear_ok, He|done]. Qed.
#[local] Hint Resolve set_decoder_ok push_width_ok clear_ok' : glenda.

Lemma uni_step_ok e b : echo_ok e -> echo_ok (uni_step e b).1.
Proof.
  intros He. unfold uni_step. destruct (_ || _).
  { cbn [fst]. destruct He as [H1 H2 H3]. split; [done|done|]. by apply clear_ok. }
  destruct (_ || _).
  { destruct (has_pending _); [by apply clear_ok'|]. destruct (pop_width_line e He) as (H1 & _). by destruct (pop_width e).1. }
  destruct (b <? 0x80); [destruct (has_pending _); cbn [fst]; auto 6 with glenda|].
  pose proof (wp_decoder_push (decoder e) b (eo_decoder _ He)) as Hp. unfold wp in Hp. destruct (push b (decoder e)) as [r d| |]; [|done|done].
  destruct Hp as [Hd _]. destruct r; cbn [after_push fst]; auto with glenda.
Qed.

Section unicode_handler.
Context {D : Type} `{!Mmio D} (u : Uart) `{!SerialLine u} (fuel : nat).
Context (Hf : (busy_max (u := u) < fuel)%nat).
Implicit Types (c : console D).

(** The device sent [out]. *)
Definition sent (out : list Z) (d d' : D) : Prop := rx (u := u) d' = rx (u := u) d /\ tx (u := u) d' = tx (u := u) d ++ out.

Lemma wp_send s c (Q : unit -> console D -> Prop) :
  (forall d', sent s (dev c) d' -> Q tt (mkConsole d' (echo c))) -> wp (on_dev (puts fuel u s)) Q c.
Proof. intros HQ. unfold on_dev. wp_step. apply (wp_puts u fuel); [done|]. intros d' H1 H2. by apply HQ. Qed.

Lemma sent_app a b d d1 d2 : sent a d d1 -> sent b d1 d2 -> sent (a ++ b) d d2.
Proof. intros [H1 H2] [H3 H4]. split; [congruence|]. by rewrite H4, H2, <-app_assoc. Qed.

Lemma wp_erase w c (Q : unit -> console D -> Prop) :
  (forall d', sent (concat (repeat [8; 32; 8] w)) (dev c) d' -> Q tt (mkConsole d' (echo c))) -> wp (erase fuel u w) Q c.
Proof.
  revert c. induction w as [|w IH]; intros c HQ; cbn [erase].
  - wp_step. destruct c as [d e]. apply HQ. split; [done|]. by rewrite app_nil_r.
  - wp_step. apply wp_send. intros d' H1. apply IH. cbn [echo dev]. intros d2 H2. apply HQ.
    change (sent ([8; 32; 8] ++ concat (repeat [8; 32; 8] w)) (dev c) d2). by eapply sent_app.
Qed.

Lemma wp_unicode_byte b c (Q : unit -> console D -> Prop) : echo_ok (echo c) ->
  (forall d', sent (uni_step (echo c) b).2 (dev c) d' -> Q tt (mkConsole d' (uni_step (echo c) b).1)) ->
  wp (unicode_byte fuel u b) Q c.
Proof.
  intros He HQ. unfold unicode_byte, uni_step in *.
  assert (Hnil : forall d : D, sent [] d d) by (intros d; split; [done|by rewrite app_nil_r]).
  destruct (_ || _).
  { unfold clear_decoder, upd_echo. do 4 wp_step. by apply wp_send. }
  destruct (_ || _).
  { do 2 wp_step. destruct (has_pending _).
    - unfold clear_decoder, upd_echo. wp_step. apply (HQ (dev c)), Hnil.
    - do 2 wp_step. destruct (pop_width (echo c)).1 as [w|].
      + unfold upd_echo. do 2 wp_step. by apply wp_erase.
      + wp_step. destruct c as [d e]. apply (HQ d), Hnil. }
  destruct (b <? 0x80).
  { do 2 wp_step. destruct (has_pending _).
    - wp_step. wp_step. apply wp_send. intros d1 H1. unfold upd_echo, clear_decoder, upd_echo. do 3 wp_step. cbv beta. wp_step.
      apply wp_send. cbn [dev echo]. intros d2 H2. wp_step. cbn [dev echo]. apply HQ. by eapply sent_app.
    - wp_step. wp_step. wp_step. apply wp_send. intros d1 H1. unfold upd_echo. wp_step. by apply HQ. }
  wp_step. unfold on_decoder. wp_step. pose proof (wp_decoder_push (decoder (echo c)) b (eo_decoder _ He)) as Hp. unfold wp at 1. unfold wp in Hp.
  destruct (push b (decoder (echo c))) as [r d| |]; [|done|done]. unfold upd_echo. destruct r as [|ch|]; cbn [after_push fst snd] in HQ.
  - wp_step. apply (HQ (dev c)), Hnil.
  - wp_step. apply wp_send. cbn [dev echo]. intros d' H1. wp_step. by apply HQ.
  - wp_step. apply wp_send. cbn [dev echo]. intros d' H1. wp_step. by apply HQ.
Qed.

(** The bytes of a run, one after the other. *)
Fixpoint uni_run (e : ConsoleEcho) (bs : list Z) : ConsoleEcho * list Z :=
  match bs with
  | [] => (e, [])
  | b :: bs' => let '(e1, o) := uni_step e b in let '(e2, os) := uni_run e1 bs' in (e2, o ++ os)
  end.

Lemma uni_run_snoc e bs b : uni_run e (bs ++ [b]) =
  ((uni_step (uni_run e bs).1 b).1, (uni_run e bs).2 ++ (uni_step (uni_run e bs).1 b).2).
Proof.
  revert e. induction bs as [|x bs IH]; intros e; simpl.
  - destruct (uni_step e b). simpl. by rewrite app_nil_r.
  - destruct (uni_step e x) as [e1 o]. rewrite IH. destruct (uni_run e1 bs) as [e2 os]. simpl. by rewrite app_assoc.
Qed.

Lemma uni_run_ok e bs : echo_ok e -> echo_ok (uni_run e bs).1.
Proof.
  revert e. induction bs as [|b bs IH]; intros e He; simpl; [done|].
  pose proof (uni_step_ok e b He) as H1. destruct (uni_step e b) as [e1 o]. specialize (IH e1 H1). by destruct (uni_run e1 bs).
Qed.

Lemma wp_handler_unicode c : echo_ok (echo c) -> (length (rx (u := u) (dev c)) < fuel)%nat ->
  wp (handler_unicode fuel (Some u)) (fun _ c' => rx (u := u) (dev c') = [] /\
    echo c' = (uni_run (echo c) (rx (u := u) (dev c))).1 /\
    tx (u := u) (dev c') = tx (u := u) (dev c) ++ (uni_run (echo c) (rx (u := u) (dev c))).2) c.
Proof.
  intros He Hlen. unfold handler_unicode. wp_step. unfold on_dev at 1. wp_step. eapply wp_expect; [done|]. cbv beta.
  set (c1 := mkConsole (dev c) (echo c)).
  pose proof (wp_receive u fuel dev (fun d c => mkConsole d (echo c)) (unicode_byte fuel u)
    (fun dn c2 => echo c2 = (uni_run (echo c) dn).1 /\ tx (u := u) (dev c2) = tx (u := u) (dev c) ++ (uni_run (echo c) dn).2) c1) as H.
  eapply wp_mono; [|apply H]; try done.
  - cbn. by rewrite app_nil_r.
  - intros dn s1 d' [H1 H2] H3 H4. split; [done|]. cbn [dev]. congruence.
  - intros dn b rest s1 d' [H1 H2] H3 H4 H5. apply wp_unicode_byte; cbn [dev echo]; rewrite H1; [by apply uni_run_ok|].
    intros d2 [Hr Ht]. cbn [dev echo]. split; [congruence|]. rewrite uni_run_snoc. split; [done|].
    cbn [snd]. rewrite Ht, H5, H2, app_assoc. done.
Qed.
End unicode_handler.

(** ** Typed text *)

(** A character the handler does not treat as a control: a printable scalar value. *)
Definition printable (c : Z) : Prop := scalar c /\ 0x20 <= c /\ c <> 0x7f.
Definition typed (cs : list Z) : list Z := cs ≫= encode_utf8.

Lemma encode_high c : 0x80 <= c -> scalar c -> Forall (fun b => 0x80 <= b < 256) (encode_utf8 c).
Proof.
  unfold scalar, encode_utf8. intros Hc Hs. rewrite (proj2 (Z.ltb_ge c 0x80)) by lia.
  repeat case_match; repeat constructor; Z.to_euclidean_division_equations; lia.
Qed.

Lemma buffered_nil d : decoder_ok d -> buffered d = [] <-> has_pending d = false.
Proof.
  intros [Hb Hl _]. unfold buffered, has_pending. rewrite Z.ltb_ge. split; intros H.
  - apply (f_equal length) in H. rewrite length_take in H. simpl in H. lia.
  - by replace (Z.to_nat (dlen d)) with 0%nat by lia.
Qed.

(** A byte of a multi-byte sequence. *)
Lemma uni_step_high e b : 0x80 <= b -> echo_ok e ->
  exists d, decoder_ok d /\ buffered d = (push_spec (buffered (decoder e)) b).2 /\
    uni_step e b = after_push (push_spec (buffered (decoder e)) b).1 (set_decoder d e).
Proof.
  intros Hb He. unfold uni_step.
  rewrite (proj2 (Z.eqb_neq b 13)), (proj2 (Z.eqb_neq b 10)), (proj2 (Z.eqb_neq b 8)), (proj2 (Z.eqb_neq b 0x7f)), (proj2 (Z.ltb_ge b 0x80)) by lia.
  pose proof (wp_decoder_push (decoder e) b (eo_decoder _ He)) as Hp. unfold wp in Hp. cbn [orb].
  destruct (push b (decoder e)) as [r d| |]; [|done|done]. destruct Hp as [Hd Hr]. exists d. rewrite <-Hr. done.
Qed.

Lemma set_decoder_twice d1 d2 e : set_decoder d2 (set_decoder d1 e) = set_decoder d2 e.
Proof. done. Qed.

Lemma uni_run_completes bs : forall e c, Forall (fun b => 0x80 <= b < 256) bs -> echo_ok e ->
  completes (feed (buffered (decoder e)) bs) c ->
  exists d, decoder_ok d /\ has_pending d = false /\
    uni_run e bs = (push_width (char_display_width c) (set_decoder d e), encode_utf8 c).
Proof.
  induction bs as [|b bs IH]; intros e c Hb He Hc; [by apply completes_nil in Hc|].
  apply Forall_cons in Hb as [Hb Hbs]. destruct (uni_step_high e b) as (d & Hd & Hbuf & Hst); [lia|done|].
  rewrite feed_cons, completes_cons in Hc. cbn [uni_run]. rewrite Hst.
  destruct Hc as [[Hnil Hr]|[Hr Hc]]; rewrite Hr; cbn [after_push].
  - exists d. destruct bs as [|b' bs]; [|by rewrite feed_cons in Hnil]. cbn [uni_run]. rewrite app_nil_r.
    split; [done|]. split; [|done]. apply buffered_nil; [done|]. rewrite Hbuf.
    unfold push_spec in Hr |- *. repeat case_match; done.
  - destruct (IH (set_decoder d e) c Hbs) as (d' & Hd' & Hp & ->); [by apply set_decoder_ok|by cbn [decoder set_decoder]; rewrite Hbuf|].
    by exists d'.
Qed.

(** One printable character, typed with nothing pending. *)
Lemma uni_run_char e c : printable c -> echo_ok e -> has_pending (decoder e) = false ->
  exists d, decoder_ok d /\ has_pending d = false /\
    uni_run e (encode_utf8 c) = (push_width (if c <? 0x80 then 1 else char_display_width c) (set_decoder d e), encode_utf8 c).
Proof.
  intros (Hs & H1 & H2) He Hp. destruct (Z.ltb_spec c 0x80) as [Hc|Hc].
  - exists (decoder e). split; [apply He|]. split; [done|]. unfold encode_utf8. rewrite (proj2 (Z.ltb_lt c 0x80)) by done.
    cbn [uni_run]. unfold uni_step. rewrite Hp, (proj2 (Z.ltb_lt c 0x80)) by done.
    rewrite (proj2 (Z.eqb_neq c 13)), (proj2 (Z.eqb_neq c 10)), (proj2 (Z.eqb_neq c 8)), (proj2 (Z.eqb_neq c 0x7f)) by lia. cbn [orb].
    unfold encode_utf8. rewrite (proj2 (Z.ltb_lt c 0x80)) by done. by destruct e.
  - apply uni_run_completes; [by apply encode_high|done|]. rewrite (proj2 (buffered_nil _ (eo_decoder _ He)) Hp).
    apply feed_complete_iff; [|done]. eapply Forall_impl; [by apply encode_high|]. simpl. lia.
Qed.

Lemma uni_run_app e bs1 bs2 : uni_run e (bs1 ++ bs2) =
  ((uni_run (uni_run e bs1).1 bs2).1, (uni_run e bs1).2 ++ (uni_run (uni_run e bs1).1 bs2).2).
Proof.
  revert e. induction bs1 as [|b bs1 IH]; intros e; simpl; [by destruct (uni_run e bs2)|].
  destruct (uni_step e b) as [e1 o]. rewrite IH. destruct (uni_run e1 bs1) as [e2 os]. simpl. by rewrite app_assoc.
Qed.

Lemma push_width_pending w e : decoder (push_width w e) = decoder e.
Proof. unfold push_width. repeat case_match; done. Qed.

(** Printable text is echoed as it is, and ends with nothing pending. *)
Lemma uni_run_typed cs : forall e, Forall printable cs -> echo_ok e -> has_pending (decoder e) = false ->
  (uni_run e (typed cs)).2 = typed cs /\ has_pending (decoder (uni_run e (typed cs)).1) = false.
Proof.
  induction cs as [|c cs IH]; intros e Hcs He Hp; [done|]. apply Forall_cons in Hcs as [Hc Hcs].
  change (typed (c :: cs)) with (encode_utf8 c ++ typed cs). rewrite uni_run_app.
  destruct (uni_run_char e c Hc He Hp) as (d & Hd & Hdp & ->). cbn [fst snd].
  edestruct IH as [-> ->]; [done| | |done]; [by apply push_width_ok, set_decoder_ok|by rewrite push_width_pending].
Qed.

(** The line editor: erasing after typing one character takes back its columns. *)
Lemma uni_run_snoc_run e bs b : (uni_run e (bs ++ [b])).2 = (uni_run e bs).2 ++ (uni_step (uni_run e bs).1 b).2.
Proof. by rewrite uni_run_snoc. Qed.

Lemma uni_erase e c : printable c -> echo_ok e -> has_pending (decoder e) = false ->
  (if c <? 0x80 then 1 else char_display_width c) <> 0 ->
  (uni_run e (encode_utf8 c ++ [0x7f])).2 =
    encode_utf8 c ++ concat (repeat [8; 32; 8] (Z.to_nat (if c <? 0x80 then 1 else char_display_width c))).
Proof.
  intros Hc He Hp Hw. rewrite uni_run_snoc_run. destruct (uni_run_char e c Hc He Hp) as (d & Hd & Hdp & ->). cbn [fst snd]. f_equal.
  set (w := if c <? 0x80 then 1 else char_display_width c) in *. set (e1 := set_decoder d e).
  assert (He1 : echo_ok e1) by by apply set_decoder_ok.
  destruct (push_width_line w e1 He1 Hw) as [Hok Hl]. destruct (pop_width_line _ Hok) as (_ & Hpop & _).
  unfold uni_step. change (0x7f =? 13) with false. change (0x7f =? 10) with false. change (0x7f =? 8) with false. change (0x7f =? 0x7f) with true.
  cbn [orb]. rewrite push_width_pending. change (decoder e1) with d. rewrite Hdp, Hpop, Hl.
  assert (Hlast : last (drop (length (line e1) + 1 - LINEBUF_CAP) (line e1 ++ [w])) = Some w).
  { rewrite drop_app_le by (unfold LINEBUF_CAP; lia). by rewrite last_app. }
  by rewrite Hlast.
Qed.

(** ** A UART on a pair of queues

    It raises interrupt 10 while bytes wait, which hart 0 claims at the PLIC's
    usual place. *)

Record sim := mkSim { sim_rx : list Z; sim_tx : list Z }.
Definition sim_base : Z := 0x10000000.
Definition sim_claim : Z := 0xc201004.
#[export] Instance sim_mmio : Mmio sim := {|
  mmio_read w a s :=
    if a =? sim_base + 5 then (match sim_rx s with [] => 0x20 | _ => 0x21 end, s)
    else if a =? sim_base then (hd 0 (sim_rx s), mkSim (tl (sim_rx s)) (sim_tx s))
    else if a =? sim_claim then (match sim_rx s with [] => 0 | _ => 10 end, s) else (0, s);
  mmio_write w a v s := if a =? sim_base then mkSim (sim_rx s) (sim_tx s ++ [v]) else s |}.
Definition sim_uart : Uart := mkUart sim_base (sim_base + 5) 0x20 DEFAULT_QEMU_VIRT.
#[export] Instance sim_serial : SerialLine sim_uart.
Proof.
  refine {| rx := sim_rx; tx := sim_tx; busy _ := 0%nat; busy_max := 0%nat |}; try done.
  - intros [[|b r] t]; simpl; split_and!; try done.
  - intros [r t] b r' Hr. simpl in *. by subst.
Defined.

(** ** Properties *)

(** The interrupt handler answers every byte that waits, in order, and
    returns with the receive queue empty: a carriage return or a line feed
    as a line feed, backspace or delete as the three bytes that erase a
    column, anything else as itself, whatever the UART's transmit delays up to
    its bound. *)
Theorem uart_handler_echoes {D} `{!Mmio D} (u : Uart) `{!SerialLine u} fuel d :
  (busy_max (u := u) < fuel)%nat -> (length (rx (u := u) d) < fuel)%nat ->
  wp (handler fuel (Some u)) (fun _ d' => rx (u := u) d' = [] /\ tx (u := u) d' = tx (u := u) d ++ (rx (u := u) d ≫= echo_of)) d.
Proof. intros. by apply wp_handler. Qed.

Lemma uart_handler_echoes_witness :
  wp (handler 5 (Some sim_uart)) (fun _ d' => sim_tx d' = [104; 105; 10; 8; 32; 8]) (mkSim [104; 105; 13; 0x7f] []).
Proof.
  eapply wp_mono; [|apply (uart_handler_echoes sim_uart 5 (mkSim [104; 105; 13; 0x7f] [])); vm_compute; lia].
  intros [] d' [_ Ht]. exact Ht.
Defined.

(** C36: with the feature [uart-unicode] the handler terminates on any input
    without a panic, every byte consumed, whatever sequence of valid,
    truncated and invalid UTF-8 waits, and keeps the console record valid. *)
Theorem uart_unicode_terminates {D} `{!Mmio D} (u : Uart) `{!SerialLine u} fuel c :
  (busy_max (u := u) < fuel)%nat -> echo_ok (echo c) -> (length (rx (u := u) (dev c)) < fuel)%nat ->
  wp (handler_unicode fuel (Some u)) (fun _ c' => rx (u := u) (dev c') = [] /\ echo_ok (echo c')) c.
Proof.
  intros Hf He Hl. eapply wp_mono; [|by apply (wp_handler_unicode u fuel Hf c He Hl)].
  intros [] c' (H1 & H2 & _). split; [done|]. rewrite H2. by apply uni_run_ok.
Qed.

Lemma uart_unicode_terminates_witness :
  wp (handler_unicode 9 (Some sim_uart)) (fun _ c' => sim_rx (dev c') = []) (mkConsole (mkSim [0xE4; 0xE4; 0x80; 0x41; 0xFF] []) ConsoleEcho_new).
Proof.
  eapply wp_mono; [|apply (uart_unicode_terminates sim_uart 9 (mkConsole (mkSim [0xE4; 0xE4; 0x80; 0x41; 0xFF] []) ConsoleEcho_new));
    [vm_compute; lia|exact echo_new_ok|simpl; lia]].
  intros [] c' [H _]. exact H.
Defined.

(** Text typed at the Unicode console is echoed byte for byte: any
    sequence of printable characters, of every encoded length, with nothing
    left pending. *)
Theorem uart_unicode_echoes_text {D} `{!Mmio D} (u : Uart) `{!SerialLine u} fuel c cs :
  (busy_max (u := u) < fuel)%nat -> echo_ok (echo c) -> has_pending (decoder (echo c)) = false -> Forall printable cs ->
  rx (u := u) (dev c) = typed cs -> (length (typed cs) < fuel)%nat ->
  wp (handler_unicode fuel (Some u)) (fun _ c' =>
    tx (u := u) (dev c') = tx (u := u) (dev c) ++ typed cs /\ has_pending (decoder (echo c')) = false) c.
Proof.
  intros Hf He Hp Hcs Hrx Hl. eapply wp_mono; [|apply (wp_handler_unicode u fuel Hf c He); by rewrite Hrx].
  intros [] c' (_ & H2 & H3). rewrite Hrx in H2, H3. rewrite H2, H3. destruct (uni_run_typed cs (echo c) Hcs He Hp) as [-> ->]. done.
Qed.

Lemma uart_unicode_echoes_text_witness :
  wp (handler_unicode 9 (Some sim_uart)) (fun _ c' => sim_tx (dev c') = [0xE4; 0xBD; 0xA0; 0x41])
    (mkConsole (mkSim [0xE4; 0xBD; 0xA0; 0x41] []) ConsoleEcho_new).
Proof.
  eapply wp_mono; [|apply (uart_unicode_echoes_text sim_uart 9 (mkConsole (mkSim [0xE4; 0xBD; 0xA0; 0x41] []) ConsoleEcho_new) [0x4F60; 0x41])].
  - intros [] c' [H _]. exact H.
  - vm_compute. lia.
  - exact echo_new_ok.
  - reflexivity.
  - repeat constructor; unfold scalar; lia.
  - reflexivity.
  - vm_compute. lia.
Defined.
