(* ===== verification/Dtb.v ===== *)
(** * The device tree ([dtb/], the configuration of [drivers/uart/mod.rs])

    What the kernel reads from the flattened device tree: the UART the firmware
    prints on, the number of harts, the memory and the PLIC. The crate [fdt] is
    the class [FdtOps]: its nodes, properties and iterators. *)
From S2P Require Import Prelude Addr RunQueue PhysMem PageTable FreshPages Vm Plic Utf8 Uart.

(** The functions of the crate [fdt] that the kernel calls. *)
Class FdtOps (Fdt Node Prop_ : Type) := {
  from_ptr : Z -> option Fdt;                       (** [Fdt::from_ptr], [None] an [FdtError] *)
  find_node : Fdt -> string -> option Node;
  property : Node -> string -> option Prop_;
  as_str : Prop_ -> option string;
  as_usize : Prop_ -> option Z;
  compatible : Node -> option (list string);        (** [compatible()] and its [all()] *)
  reg : Node -> option (list (Z * option Z));       (** start and size of each region *)
  cpus : Fdt -> list Node;
  memory_regions : Fdt -> list (Z * option Z);
  all_nodes : Fdt -> list Node;
}.

(** [s.contains(p)] *)
Definition contains (p s : string) : bool := if String.index 0 p s is Some _ then true else false.
(** [s.split(c).next()] *)
Fixpoint before (c : Ascii.ascii) (s : string) : string :=
  match s with
  | EmptyString => EmptyString
  | String a s' => if Ascii.eqb a c then EmptyString else String a (before c s')
  end.
Definition is_some_and {A} (f : A -> bool) (o : option A) : bool := if o is Some a then f a else false.

(** [dtb/types.rs] *)
Definition range_end {S} (r : MemoryRange) : M S Z := uadd (mr_start r) (mr_size r).
Record DeviceTreeInfo := mkInfoDT { dt_uart : option Config; dt_harts : Z; dt_memory : option MemoryRange; dt_plic : option Z }.
Definition info_hart_count (i : DeviceTreeInfo) : Z := Z.max (dt_harts i) 1.

Section dtb.
Context {Fdt Node Prop_ : Type} `{!FdtOps Fdt Node Prop_} {S : Type}.

Definition is_ns16550_compatible (n : Node) : bool := is_some_and (existsb (contains "ns16550")) (compatible n).

Definition register_stride (n : Node) : Z :=
  let reg_shift := default 0 (property n "reg-shift" ≫= as_usize) in
  let reg_io_width := default 1 (property n "reg-io-width" ≫= as_usize) in
  let shift_multiplier := if reg_shift <? 64 then wrap64 (Z.shiftl 1 reg_shift) else 0 in
  let stride := Z.min USIZE_MAX (reg_io_width * (if shift_multiplier =? 0 then 1 else shift_multiplier)) in
  Z.max stride 1.

Definition from_fdt (n : Node) : M S (option Config) :=
  if negb (is_ns16550_compatible n) then mret None
  else
    match reg n with
    | None | Some [] => mret None
    | Some ((base, _) :: _) =>
        let stride := register_stride n in
        t ← umul THR_REGISTER_INDEX stride;
        l ← umul LSR_REGISTER_INDEX stride;
        mret (Some (mkConfig base t l DEFAULT_LSR_THRE))
    end.

(** The path of the console, without the options after the colon. *)
Definition stdout_node (f : Fdt) : option Node :=
  chosen ← find_node f "/chosen";
  stdout_path ← property chosen "stdout-path" ≫= as_str;
  find_node f (before (Ascii.ascii_of_nat 58) stdout_path).

Definition parse_uart (f : Fdt) : M S (option Config) :=
  match stdout_node f with
  | Some n => from_fdt n
  | None => mret None
  end.

Definition cpu_disabled (n : Node) : bool := is_some_and (fun s => String.eqb s "disabled") (property n "status" ≫= as_str).

Definition parse_hart_count (f : Fdt) : Z :=
  Z.max (fold_left (fun count cpu => if cpu_disabled cpu then count else count + 1) (cpus f) 0) 1.

(** [regions.find_map(..)]: the first region that has a size *)
Fixpoint first_sized (l : list (Z * option Z)) : option MemoryRange :=
  match l with
  | [] => None
  | (start, Some size) :: _ => Some (mkRange start size)
  | (_, None) :: l' => first_sized l'
  end.
Definition parse_memory (f : Fdt) : option MemoryRange := first_sized (memory_regions f).

Definition is_plic (n : Node) : bool :=
  is_some_and (existsb (fun s => contains "riscv,plic0" s || contains "sifive,plic-1" s)) (compatible n).
Fixpoint first_plic (l : list Node) : option Z :=
  match l with
  | [] => None
  | n :: l' =>
      if negb (is_plic n) then first_plic l'
      else match reg n with
           | Some ((start, _) :: _) => Some start
           | _ => first_plic l'
           end
  end.
Definition parse_plic_base (f : Fdt) : option Z := first_plic (all_nodes f).

Definition parse_device_tree (f : Fdt) : M S DeviceTreeInfo :=
  uart ← parse_uart f;
  mret (mkInfoDT uart (parse_hart_count f) (parse_memory f) (parse_plic_base f)).

(** ** [dtb/mod.rs]: the static [DEVICE_TREE] *)

Definition DEVICE_TREE := option DeviceTreeInfo.
Definition dtb_hart_count (t : DEVICE_TREE) : Z := from_option info_hart_count 1 t.
Definition dtb_uart_config (t : DEVICE_TREE) : option Config := t ≫= dt_uart.
Definition dtb_memory_range (t : DEVICE_TREE) : option MemoryRange := t ≫= dt_memory.
Definition dtb_plic_base (t : DEVICE_TREE) : option Z := t ≫= dt_plic.
End dtb.

Section init.
Context {Fdt Node Prop_ : Type} `{!FdtOps Fdt Node Prop_}.

(** [_init] then the match of [init] *)
Definition dtb_init (dtb : Z) : M DEVICE_TREE unit :=
  match from_ptr (FdtOps := _) dtb with
  | Some f =>
      info ← parse_device_tree f;
      modify (fun t => if t is Some _ then t else Some info)
  | None => panic "Device tree parsing failed"
  end.
End init.

(** [uart::init] and [initialize_from_dtb] *)
Definition uart_init (c : Config) : M (option Uart) unit :=
  o ← gets (fun u => u);
  match o with
  | Some _ => mret tt
  | None => u ← from_config c; modify (fun _ => Some u)
  end.
Definition initialize_from_dtb (t : DEVICE_TREE) : M (option Uart) unit :=
  match dtb_uart_config t with
  | Some c => uart_init c
  | None => uart_init DEFAULT_QEMU_VIRT
  end.

(** ** What is read *)

Section facts.
Context {Fdt Node Prop_ : Type} `{!FdtOps Fdt Node Prop_} {S : Type}.
Lemma stride_range n : 1 <= register_stride n <= USIZE_MAX.
Proof. unfold register_stride. split; [lia|]. apply Z.max_lub; [lia|done]. Qed.

Lemma from_fdt_some n (s s' : S) c : from_fdt n s = Ret (Some c) s' ->
  s' = s /\ thr_offset c = 0 /\ lsr_offset c = 5 * register_stride n /\ lsr_thre_bit c = 0x20 /\
  is_ns16550_compatible n = true /\ exists sz rest, reg n = Some ((cbase c, sz) :: rest).
Proof.
  unfold from_fdt. destruct (is_ns16550_compatible n); [|done]. simpl negb. cbv iota.
  destruct (reg n) as [[|[base sz] rest]|]; try done. unfold umul, checked, THR_REGISTER_INDEX, LSR_REGISTER_INDEX.
  destruct (_ && _); [|done]. unfold mbind, M_bind. destruct (_ && _); [|done]. intros [= <- <-]. by eauto 10.
Qed.
End facts.

Lemma from_config_some {S} c (s : S) u s' : from_config c s = Ret u s' ->
  s' = s /\ thr u = cbase c + thr_offset c /\ lsr u = cbase c + lsr_offset c /\ lsr_thre u = lsr_thre_bit c /\ cfg u = c /\
  0 <= cbase c + thr_offset c /\ cbase c + lsr_offset c < U64.
Proof.
  unfold from_config, uadd, checked, mbind, M_bind. destruct ((0 <=? cbase c + thr_offset c) && _) eqn:E0; [|done].
  destruct ((0 <=? cbase c + lsr_offset c) && _) eqn:E; [|done]. intros [= <- <-].
  apply andb_true_iff in E as [_ ?%Z.ltb_lt], E0 as [?%Z.leb_le _]. done.
Qed.

Section parsed.
Context {Fdt Node Prop_ : Type} `{!FdtOps Fdt Node Prop_}.

Lemma count_fold l k : fold_left (fun count cpu => if cpu_disabled cpu then count else count + 1) l k =
  k + Z.of_nat (length (filter (fun n => cpu_disabled n = false) l)).
Proof.
  revert k. induction l as [|n l IH]; intros k; [simpl; lia|]. cbn [fold_left]. rewrite IH. destruct (cpu_disabled n) eqn:E.
  - rewrite filter_cons_False by congruence. done.
  - rewrite filter_cons_True by done. simpl. lia.
Qed.

(** The harts that are used: those not disabled, and at least the one that runs. *)
Lemma hart_count_spec f : parse_hart_count f = Z.max 1 (Z.of_nat (length (filter (fun n => cpu_disabled n = false) (cpus f)))).
Proof. unfold parse_hart_count. rewrite count_fold. lia. Qed.

Lemma first_sized_spec l r : first_sized l = Some r <->
  exists pre post, l = pre ++ (mr_start r, Some (mr_size r)) :: post /\ Forall (fun x => x.2 = None) pre.
Proof.
  revert r. induction l as [|[a [sz|]] l IH]; intros r; simpl.
  - split; [done|]. intros (pre & post & H & _). by destruct pre.
  - split.
    + intros [= <-]. exists [], l. done.
    + intros (pre & post & H & Hp). destruct pre as [|x pre]; [injection H as -> -> _; by destruct r|].
      injection H as <- _. apply Forall_cons in Hp as [Hp _]. done.
  - rewrite IH. split.
    + intros (pre & post & -> & Hp). exists ((a, None) :: pre), post. split; [done|]. by constructor.
    + intros (pre & post & H & Hp). destruct pre as [|x pre]; [done|]. injection H as _ ->.
      apply Forall_cons in Hp as [_ Hp]. by exists pre, post.
Qed.
End parsed.

(** ** A small device tree *)

Record demo_node := mkNodeDT { nd_props : list (string * (option string * option Z)); nd_compat : option (list string);
  nd_reg : option (list (Z * option Z)) }.
Record demo_tree_t := mkTreeDT { td_nodes : list (string * demo_node); td_cpus : list demo_node; td_mem : list (Z * option Z) }.
Definition assoc {A} (l : list (string * A)) (k : string) : option A := snd <$> find (fun p => String.eqb p.1 k) l.
Definition uart_node (sh w : Z) : demo_node := mkNodeDT [("reg-shift"%string, (None, Some sh)); ("reg-io-width"%string, (None, Some w))]
  (Some ["ns16550a"%string]) (Some [(0x10000000, Some 0x100)]).
Definition cpu_node (status : string) : demo_node := mkNodeDT [("status"%string, (Some status, None))] None None.
Definition demo_dtb : demo_tree_t := mkTreeDT
  [("/chosen"%string, mkNodeDT [("stdout-path"%string, (Some "/soc/serial@10000000:115200"%string, None))] None None);
   ("/soc/serial@10000000"%string, uart_node 0 1);
   ("/soc/plic@c000000"%string, mkNodeDT [] (Some ["sifive,plic-1.0.0"%string; "riscv,plic0"%string]) (Some [(0xc000000, Some 0x600000)]))]
  [cpu_node "okay"; cpu_node "disabled"; cpu_node "okay"] [(0x80000000, Some 0x8000000)].
#[export] Instance demo_fdt : FdtOps demo_tree_t demo_node (option string * option Z) := {|
  from_ptr p := if p =? 0 then None else Some demo_dtb;
  find_node t := assoc (td_nodes t);
  property n := assoc (nd_props n);
  as_str := fst; as_usize := snd;
  compatible := nd_compat; reg := nd_reg;
  cpus := td_cpus; memory_regions := td_mem; all_nodes t := snd <$> td_nodes t |}.

Example demo_dtb_parsed : dtb_init (FdtOps0 := demo_fdt) 0x87000000 None =
  Ret tt (Some (mkInfoDT (Some DEFAULT_QEMU_VIRT) 2 (Some (mkRange 0x80000000 0x8000000)) (Some 0xc000000))).
Proof. vm_compute. reflexivity. Qed.

(** ** Properties *)

(** Whatever register stride the device tree gives, the driver's three
    registers are the 16550's: the transmit register at the base, the line
    status register five strides above it, and the interrupt enable register
    that [enable] recovers from the stored line-status offset exactly one
    stride above it. *)
Theorem uart_registers_from_tree {Fdt Node Prop_} `{!FdtOps Fdt Node Prop_} {D} `{!Mmio D} (n : Node) c u (d : D) :
  from_fdt n d = Ret (Some c) d -> from_config c d = Ret u d ->
  thr u = cbase c /\ lsr u = cbase c + 5 * register_stride n /\
  uart_enable (Some u) d = Ret tt (mmio_write 1 (cbase c + register_stride n) 1 d).
Proof.
  intros Hf Hc. apply from_fdt_some in Hf as (_ & H0 & H5 & _). apply from_config_some in Hc as (_ & Ht & Hl & _ & Hcfg & Hr).
  pose proof (stride_range n) as Hs. rewrite Ht, Hl, H0, H5, Z.add_0_r. split; [done|]. split; [done|].
  unfold uart_enable, uart_get, expect, mbind, M_bind, mret, M_ret. cbv beta iota zeta. rewrite Hcfg, H5, (proj2 (Z.leb_le 5 _)) by lia.
  replace (5 * register_stride n / 5) with (register_stride n) by (rewrite Z.mul_comm, Z.div_mul; lia).
  rewrite Z.mul_1_r. rewrite H5 in Hr. unfold uadd.
  rewrite checked_run by lia. done.
Qed.

Lemma uart_registers_from_tree_witness :
  register_stride (uart_node 2 1) = 4 /\
  uart_enable (Some (mkUart 0x10000000 0x10000014 0x20 (mkConfig 0x10000000 0 20 0x20))) (mkSim [] []) =
    Ret tt (mmio_write 1 0x10000004 1 (mkSim [] [])).
Proof.
  split; [reflexivity|].
  exact (proj2 (proj2 (uart_registers_from_tree (uart_node 2 1) (mkConfig 0x10000000 0 20 0x20)
    (mkUart 0x10000000 0x10000014 0x20 (mkConfig 0x10000000 0 20 0x20)) (mkSim [] []) eq_refl eq_refl))).
Defined.

(** [reg-io-width] multiplies the stride, so a UART with four-byte
    registers described as the bindings prescribe (shift 2, access width 4) is
    driven with a stride of sixteen bytes instead of four. *)
Theorem register_stride_scales_with_width {Fdt Node Prop_} `{!FdtOps Fdt Node Prop_} (n : Node) p q :
  property n "reg-shift" = Some p -> as_usize p = Some 2 -> property n "reg-io-width" = Some q -> as_usize q = Some 4 ->
  register_stride n = 16.
Proof. intros H1 H2 H3 H4. unfold register_stride. rewrite H1, H3. simpl. by rewrite H2, H4. Qed.

Lemma register_stride_scales_with_width_witness : register_stride (uart_node 2 4) = 16.
Proof. by apply (register_stride_scales_with_width (uart_node 2 4) (None, Some 2) (None, Some 4)). Defined.

(** What the kernel takes from a device tree that parses: the harts
    that are not disabled, at least one; the first memory region that has a
    size; and the tree stays the one parsed first, whoever asks again. *)
Theorem device_tree_correct {Fdt Node Prop_} `{!FdtOps Fdt Node Prop_} dtb f (c : option Config) :
  from_ptr dtb = Some f -> (forall S (s : S), parse_uart f s = Ret c s) ->
  exists info, dtb_init dtb None = Ret tt (Some info) /\ dtb_init dtb (Some info) = Ret tt (Some info) /\
    dtb_uart_config (Some info) = c /\
    dtb_hart_count (Some info) = Z.max 1 (Z.of_nat (length (filter (fun n => cpu_disabled n = false) (cpus f)))) /\
    (forall r, dtb_memory_range (Some info) = Some r <->
      exists pre post, memory_regions f = pre ++ (mr_start r, Some (mr_size r)) :: post /\ Forall (fun x => x.2 = None) pre).
Proof.
  intros Hf Hu. exists (mkInfoDT c (parse_hart_count f) (parse_memory f) (parse_plic_base f)).
  assert (Hi : forall t, dtb_init dtb t = Ret tt (match t with Some _ => t | None => Some (mkInfoDT c (parse_hart_count f) (parse_memory f) (parse_plic_base f)) end)).
  { intros t. unfold dtb_init. rewrite Hf. unfold parse_device_tree, mbind, M_bind. by rewrite Hu. }
  rewrite !Hi. split; [done|]. split; [done|]. split; [done|]. split.
  - simpl. unfold info_hart_count. cbn [dt_harts]. rewrite hart_count_spec. lia.
  - intros r. apply first_sized_spec.
Qed.

Lemma device_tree_correct_witness : exists info, dtb_init (FdtOps0 := demo_fdt) 0x87000000 None = Ret tt (Some info) /\ dtb_hart_count (Some info) = 2.
Proof.
  destruct (device_tree_correct (FdtOps0 := demo_fdt) 0x87000000 demo_dtb (Some DEFAULT_QEMU_VIRT) eq_refl (fun S s => eq_refl))
    as (info & H1 & _ & _ & H2 & _).
  exists info. split; [exact H1|]. rewrite H2. reflexivity.
Defined.
