(* ===== verification/Virtio.v ===== *)
(** * The virtio block driver ([drivers/virtio/])

    The legacy virtio-mmio disk: its initialisation, the three-descriptor
    request of [rw], the wait for the status byte, and the interrupt handler.
    The ring page, the request header and the status byte lie in physical
    memory, which the device reads and writes too: [tick] is what the device
    does while the driver waits. *)
From stdpp Require Import functions.
From S2P Require Import Prelude Addr PhysMem PageTable MmapWarehouse Uvm PhysBytes Lru BufferCache RunQueue FreshPages Vm Plic.

Definition VIRTIO_MMIO_MAGIC_VALUE : Z := 0x000.
Definition VIRTIO_MMIO_VERSION : Z := 0x004.
Definition VIRTIO_MMIO_DEVICE_ID : Z := 0x008.
Definition VIRTIO_MMIO_VENDOR_ID : Z := 0x00c.
Definition VIRTIO_MMIO_DEVICE_FEATURES : Z := 0x010.
Definition VIRTIO_MMIO_GUEST_PAGE_SIZE : Z := 0x028.
Definition VIRTIO_MMIO_QUEUE_SEL : Z := 0x030.
Definition VIRTIO_MMIO_QUEUE_NUM_MAX : Z := 0x034.
Definition VIRTIO_MMIO_QUEUE_NUM : Z := 0x038.
Definition VIRTIO_MMIO_QUEUE_ALIGN : Z := 0x03c.
Definition VIRTIO_MMIO_QUEUE_PFN : Z := 0x040.
Definition VIRTIO_MMIO_QUEUE_NOTIFY : Z := 0x050.
Definition VIRTIO_MMIO_INTERRUPT_STATUS : Z := 0x060.
Definition VIRTIO_MMIO_INTERRUPT_ACK : Z := 0x064.
Definition VIRTIO_MMIO_STATUS : Z := 0x070.
Definition VIRTIO_CONFIG_S_ACKNOWLEDGE : Z := 1.
Definition VIRTIO_CONFIG_S_DRIVER : Z := 2.
Definition VIRTIO_CONFIG_S_DRIVER_OK : Z := 4.
Definition VIRTIO_CONFIG_S_FEATURES_OK : Z := 8.
(** [RO], [SCSI], [CONFIG_WCE], [MQ], [ANY_LAYOUT], [EVENT_IDX], [INDIRECT_DESC] *)
Definition REFUSED_FEATURES : list Z := [5; 7; 11; 12; 27; 29; 28].
Definition NUM_DESCS : Z := 8.
Definition VIRTIO0 : Z := 0x10001000.
Definition VRING_DESC_F_NEXT : Z := 1.
Definition VRING_DESC_F_WRITE : Z := 2.
Definition VIRTIO_BLK_T_IN : Z := 0.
Definition VIRTIO_BLK_T_OUT : Z := 1.

Section virtio.
Context {P : Type} `{!Mmio P}.

(** [DISK], with the memory and the device *)
Record vdisk := mkVdisk {
  v_pm : pmem;
  v_dev : P;
  v_pages : option PhysFrame;
  v_init_done : bool;
  v_locked : bool;          (** the lock around [DISK] *)
  v_sie : bool;             (** [sstatus.SIE] *)
}.
Definition set_v_pm x v := mkVdisk x (v_dev v) (v_pages v) (v_init_done v) (v_locked v) (v_sie v).
Definition set_v_dev x v := mkVdisk (v_pm v) x (v_pages v) (v_init_done v) (v_locked v) (v_sie v).
Definition set_v_pages x v := mkVdisk (v_pm v) (v_dev v) x (v_init_done v) (v_locked v) (v_sie v).
Definition set_v_init_done x v := mkVdisk (v_pm v) (v_dev v) (v_pages v) x (v_locked v) (v_sie v).
Definition set_v_locked x v := mkVdisk (v_pm v) (v_dev v) (v_pages v) (v_init_done v) x (v_sie v).
Definition set_v_sie x v := mkVdisk (v_pm v) (v_dev v) (v_pages v) (v_init_done v) (v_locked v) x.

Definition v_mem {A} (m : M pmem A) : M vdisk A := zoom v_pm set_v_pm m.
Definition v_mmio {A} (m : M P A) : M vdisk A := zoom v_dev set_v_dev m.
Definition reg_read (off : Z) : M vdisk Z := v_mmio (volatile_read 4 (VIRTIO0 + off)).
Definition reg_write (off v : Z) : M vdisk unit := v_mmio (volatile_write 4 (VIRTIO0 + off) v).

Definition lock_disk : M vdisk unit :=
  l ← gets v_locked;
  if l : bool then hang "DISK is already locked" else modify (set_v_locked true).
Definition unlock_disk : M vdisk unit := modify (set_v_locked false).

Definition intr : M vdisk unit :=
  lock_disk;;
  status ← reg_read VIRTIO_MMIO_INTERRUPT_STATUS;
  reg_write VIRTIO_MMIO_INTERRUPT_ACK (Z.land status 3);;
  unlock_disk.

(** ** Initialisation *)

(** [features &= !bit], for each feature the driver does not want; the word
    read is 32 bits wide *)
Definition clear_features (features : Z) : Z :=
  fold_left (fun f bit => Z.land f (unot (Z.shiftl 1 bit))) REFUSED_FEATURES features.

Definition valid_device : M vdisk bool :=
  magic ← reg_read VIRTIO_MMIO_MAGIC_VALUE;
  if negb (magic =? 0x74726976) then mret false else
  version ← reg_read VIRTIO_MMIO_VERSION;
  if negb (version =? 1) then mret false else
  id ← reg_read VIRTIO_MMIO_DEVICE_ID;
  if negb (id =? 2) then mret false else
  vendor ← reg_read VIRTIO_MMIO_VENDOR_ID;
  mret (vendor =? 0x554d4551).

Definition set_up_device : M vdisk unit :=
  ok ← valid_device;
  if negb ok then panic "VirtIO: invalid device" else
  let status := VIRTIO_CONFIG_S_ACKNOWLEDGE in
  reg_write VIRTIO_MMIO_STATUS status;;
  let status := Z.lor status VIRTIO_CONFIG_S_DRIVER in
  reg_write VIRTIO_MMIO_STATUS status;;
  features ← reg_read VIRTIO_MMIO_DEVICE_FEATURES;
  reg_write VIRTIO_MMIO_DEVICE_FEATURES (wrap32 (clear_features features));;
  let status := Z.lor status VIRTIO_CONFIG_S_FEATURES_OK in
  reg_write VIRTIO_MMIO_STATUS status;;
  s ← reg_read VIRTIO_MMIO_STATUS;
  if Z.land s VIRTIO_CONFIG_S_FEATURES_OK =? 0 then panic "VirtIO: features not ok" else
  reg_write VIRTIO_MMIO_QUEUE_SEL 0;;
  max ← reg_read VIRTIO_MMIO_QUEUE_NUM_MAX;
  if max =? 0 then panic "VirtIO: queue num max 0" else
  if max <? NUM_DESCS then panic "VirtIO: queue num max too small" else
  reg_write VIRTIO_MMIO_QUEUE_NUM NUM_DESCS;;
  o ← v_mem PhysFrame_alloc;
  frame ← expect o "VirtIO: failed to alloc page";
  modify (set_v_pages (Some frame));;
  reg_write VIRTIO_MMIO_GUEST_PAGE_SIZE PGSIZE;;
  reg_write VIRTIO_MMIO_QUEUE_PFN (wrap32 (frame_addr frame / PGSIZE));;
  reg_write VIRTIO_MMIO_QUEUE_ALIGN 16;;
  reg_write VIRTIO_MMIO_STATUS (Z.lor status VIRTIO_CONFIG_S_DRIVER_OK);;
  modify (set_v_init_done true).

Definition virtio_init : M vdisk unit :=
  lock_disk;;
  done ← gets v_init_done;
  (if done : bool then mret tt else set_up_device);;
  unlock_disk.

(** ** Requests *)

(** Where [DISK_STATE] has the header and the status byte of slot 0. *)
Variables (head_pa status_pa : Z).

(** Fields of structs in memory *)
Definition put16 (a v : Z) : M pmem unit := store_bytes a (le_bytes 2 v).
Definition put32 (a v : Z) : M pmem unit := store_bytes a (le_bytes 4 v).
Definition put64 (a v : Z) : M pmem unit := store_bytes a (le_bytes 8 v).
Definition get16 (a : Z) : M pmem Z := bs ← load_bytes a 2; mret (le_value bs).

Definition write_header (sector : Z) (write : bool) : M pmem unit :=
  put64 (head_pa + 8) sector;;
  put32 head_pa (if write then VIRTIO_BLK_T_OUT else VIRTIO_BLK_T_IN);;
  put32 (head_pa + 4) 0.

(** [VRingDesc] number [k] of the ring at [page] *)
Definition write_desc (page k addr len flags next : Z) : M pmem unit :=
  put64 (page + 16 * k) addr;;
  put32 (page + 16 * k + 8) len;;
  put16 (page + 16 * k + 12) flags;;
  put16 (page + 16 * k + 14) next.

Definition write_chain (page data_pa : Z) (write : bool) : M pmem unit :=
  write_desc page 0 head_pa 16 VRING_DESC_F_NEXT 1;;
  write_desc page 1 data_pa PGSIZE (Z.lor VRING_DESC_F_NEXT (if negb write then VRING_DESC_F_WRITE else 0)) 2;;
  write_desc page 2 status_pa 1 VRING_DESC_F_WRITE 0.

(** The head of the chain goes into the available ring. *)
Definition make_available (page : Z) : M pmem unit :=
  idx_val ← get16 (page + 128 + 2);
  put16 (page + 128 + 4 + 2 * (idx_val mod 8)) 0;;
  put16 (page + 128 + 2) (wrap16 (idx_val + 1)).

(** What the device does meanwhile, and a bound on the polls. *)
Variables (tick : M vdisk unit) (fuel : nat).

Definition rw (data_pa blockno : Z) (write : bool) : M vdisk unit :=
  sie_enabled ← gets v_sie;
  modify (set_v_sie false);;
  lock_disk;;
  let sector := blockno * (PGSIZE / 512) in
  v_mem (write_header sector write);;
  o ← gets v_pages;
  frame ← expect o "virtio not initialized";
  let page := frame_addr frame in
  v_mem (write_chain page data_pa write);;
  v_mem (make_available page);;
  reg_write VIRTIO_MMIO_QUEUE_NOTIFY 0;;
  tick;;
  v_mem (store_bytes status_pa [0xFF]);;
  unlock_disk;;
  (if sie_enabled : bool then modify (set_v_sie true) else mret tt);;
  loop fuel (fun (_ : unit) =>
    tick;;
    s ← v_mem (load_bytes status_pa 1);
    mret (if negb (bool_decide (s = [0xFF])) then inr tt else inl tt)) tt.
End virtio.
Arguments vdisk : clear implicits.

(** ** What the device sees

    The virtio specification's reading of the ring: the newest available entry
    names the head of a chain of three descriptors, header, data and status. *)

Record vdesc := mkDesc { d_addr : Z; d_len : Z; d_flags : Z; d_next : Z }.
Definition desc_at (m : Z -> Z) (page k : Z) : vdesc :=
  mkDesc (get_le m (page + 16 * k) 8) (get_le m (page + 16 * k + 8) 4) (get_le m (page + 16 * k + 12) 2) (get_le m (page + 16 * k + 14) 2).
Definition newest (m : Z -> Z) (page : Z) : Z :=
  get_le m (page + 132 + 2 * ((get_le m (page + 130) 2 - 1) mod 65536 mod 8)) 2.

(** One request served: a read fills the data buffer, a write stores it; the
    status byte is 0, or 1 when the request makes no sense. *)
Definition serve {B} `{!BlockDevice B} (page : Z) (disk : B) (m : Z -> Z) : B * (Z -> Z) :=
  let d0 := desc_at m page (newest m page) in
  let d1 := desc_at m page (d_next d0) in
  let d2 := desc_at m page (d_next d1) in
  let ty := get_le m (d_addr d0) 4 in
  let block := get_le m (d_addr d0 + 8) 8 / 8 in
  let device_writes := negb (Z.land (d_flags d1) VRING_DESC_F_WRITE =? 0) in
  if (ty =? VIRTIO_BLK_T_IN) && device_writes then (disk, put_bytes (put_bytes m (d_addr d1) (disk_read disk block)) (d_addr d2) [0])
  else if (ty =? VIRTIO_BLK_T_OUT) && negb device_writes then
    (disk_write disk block (bytes_at m (d_addr d1) (Z.to_nat (d_len d1))), put_bytes m (d_addr d2) [0])
  else (disk, put_bytes m (d_addr d2) [1]).

(** A device that serves a notified request after some idle ticks. *)
Record blk_device {B} `{!BlockDevice B} {P} `{!Mmio P} (disk_of : P -> B) (left : P -> option nat) (tick : M (vdisk P) unit) : Prop := {
  bd_notify : forall d, disk_of (mmio_write 4 (VIRTIO0 + VIRTIO_MMIO_QUEUE_NOTIFY) 0 d) = disk_of d;
  bd_idle : forall v n, left (v_dev v) = Some (S n) ->
    exists d', tick v = Ret tt (set_v_dev d' v) /\ disk_of d' = disk_of (v_dev v) /\ left d' = Some n;
  bd_serve : forall v f, left (v_dev v) = Some O -> v_pages v = Some f ->
    exists d', let '(disk', m') := serve (frame_addr f) (disk_of (v_dev v)) (mem (v_pm v)) in
      tick v = Ret tt (set_v_dev d' (set_v_pm (set_mem m' (v_pm v)) v)) /\ disk_of d' = disk' /\ left d' = None;
  bd_rest : forall v, left (v_dev v) = None -> tick v = Ret tt v;
}.

Lemma wp_same {S A} (m m' : M S A) (Q : A -> S -> Prop) s s' : m s = m' s' -> wp m' Q s' -> wp m Q s.
Proof. unfold wp. by intros ->. Qed.

(** ** The request in memory *)

Section request.
Context (head_pa status_pa page data_pa : Z).

(** The four places a request uses lie apart. *)
Record apart : Prop := {
  ap_addr : 0 <= head_pa < U64 /\ 0 <= status_pa < U64 /\ 0 <= data_pa < U64;
  ap_page_head : page + PGSIZE <= head_pa \/ head_pa + 16 <= page;
  ap_page_status : page + PGSIZE <= status_pa \/ status_pa + 1 <= page;
  ap_page_data : page + PGSIZE <= data_pa \/ data_pa + PGSIZE <= page;
  ap_head_status : head_pa + 16 <= status_pa \/ status_pa + 1 <= head_pa;
  ap_head_data : head_pa + 16 <= data_pa \/ data_pa + PGSIZE <= head_pa;
  ap_status_data : status_pa + 1 <= data_pa \/ data_pa + PGSIZE <= status_pa;
}.

(** The chain for block [b] is in the ring. *)
Record queued (b : Z) (write : bool) (m : Z -> Z) : Prop := {
  qd_head : newest m page = 0;
  qd_0 : desc_at m page 0 = mkDesc head_pa 16 1 1;
  qd_1 : desc_at m page 1 = mkDesc data_pa PGSIZE (if write then 1 else 3) 2;
  qd_2 : desc_at m page 2 = mkDesc status_pa 1 2 0;
  qd_type : get_le m head_pa 4 = if write then 1 else 0;
  qd_sector : get_le m (head_pa + 8) 8 = b * 8;
}.

(** Memory that no request touches. *)
Definition elsewhere (a : Z) (n : nat) : Prop :=
  (page + PGSIZE <= a \/ a + Z.of_nat n <= page) /\ (head_pa + 16 <= a \/ a + Z.of_nat n <= head_pa).

Lemma mod8_range x : 0 <= x mod 65536 mod 8 < 8.
Proof. by apply Z.mod_pos_bound. Qed.

(** Fields through writes of other fields. *)
Ltac field := repeat (first
  [ rewrite get_le_same by (simpl; unfold PGSIZE, U64, U32 in *; lia)
  | rewrite get_le_other by (first [apply le_bytes_range | rewrite length_le_bytes; unfold PGSIZE in *; lia]) ]); try done.

(** Stores one after the other, over the same rest of the state. *)
Lemma wp_field n a x m s (Q : unit -> pmem -> Prop) : Q tt (set_mem (put_bytes m a (le_bytes n x)) s) -> wp (store_bytes a (le_bytes n x)) Q (set_mem m s).
Proof. done. Qed.

Ltac fields := repeat match goal with |- wp (store_bytes _ _) _ _ => apply wp_field | |- wp (_ ≫= _) _ _ => apply wp_bind end.

Lemma wp_request b write s : apart -> 0 <= b < U32 ->
  wp (write_header head_pa (b * (PGSIZE / 512)) write;; write_chain head_pa status_pa page data_pa write;; make_available page)
    (fun _ s' => exists m', s' = set_mem m' s /\ queued b write m' /\ forall a n, elsewhere a n -> bytes_at m' a n = bytes_at (mem s) a n) s.
Proof.
  intros [(Hh & Hst & Hda) H1 H2 H3 H4 H5 H6] Hb. change (PGSIZE / 512) with 8.
  unfold write_header, write_chain, write_desc, make_available, get16, put16, put32, put64,
    VRING_DESC_F_NEXT, VRING_DESC_F_WRITE, VIRTIO_BLK_T_OUT, VIRTIO_BLK_T_IN.
  set (ty := if write then 1 else 0). set (fl := Z.lor 1 _).
  assert (Hty : 0 <= ty < 2 /\ 0 <= fl < 4) by (unfold ty, fl; destruct write; vm_compute; split; split; congruence).
  assert (Hs : s = set_mem (mem s) s) by by destruct s. match goal with |- wp ?p ?Q s => rewrite Hs; change (wp p Q (set_mem (mem s) s)) end.
  fields. eapply wp_intro; [apply (load_bytes_at _ 2)|]. apply wp_ret. fields. cbn [mem set_mem].
  match goal with |- context [bytes_at ?m _ 2] => remember m as m1 eqn:Hm1 end.
  fold (get_le m1 (page + 128 + 2) 2). set (idx := get_le m1 (page + 128 + 2) 2).
  assert (Hidx : 0 <= idx < 65536).
  { unfold idx, get_le. pose proof (le_value_bound (bytes_at m1 (page + 128 + 2) 2)) as Hbd. unfold bytes_at in *. simpl in *.
    apply Hbd. repeat constructor; apply Z.mod_pos_bound; lia. }
  pose proof (Z.mod_pos_bound idx 8 ltac:(lia)) as Hm8.
  assert (Hw : 0 <= wrap16 (idx + 1) < 256 ^ Z.of_nat 2) by (unfold wrap16; apply Z.mod_pos_bound; done).
  match goal with |- context [set_mem (put_bytes ?m ?a ?l) _] => remember (put_bytes m a l) as m2 eqn:Hm2 end.
  exists m2. split; [done|]. split; [|].
  - assert (Hf : forall a n, a + Z.of_nat n <= page + 128 \/ page + PGSIZE <= a -> get_le m2 a n = get_le m1 a n).
    { intros a n Ha. rewrite Hm2, !get_le_other; [done|apply le_bytes_range|rewrite length_le_bytes; unfold PGSIZE in *; lia|
        apply le_bytes_range|rewrite length_le_bytes; unfold PGSIZE in *; lia]. }
    split.
    + unfold newest. replace (page + 130) with (page + 128 + 2) by lia. rewrite Hm2 at 2. rewrite get_le_same by done.
      unfold wrap16, U16. change (2 ^ 16) with 65536. rewrite Zminus_mod_idemp_l. replace (idx + 1 - 1) with idx by lia. rewrite (Z.mod_small idx) by done.
      replace (page + 132 + 2 * (idx mod 8)) with (page + 128 + 4 + 2 * (idx mod 8)) by lia. rewrite Hm2. field.
    + unfold desc_at. rewrite !Hf by (unfold PGSIZE in *; lia). rewrite Hm1. f_equal; field.
    + unfold desc_at. rewrite !Hf by (unfold PGSIZE in *; lia). rewrite Hm1. f_equal; field. unfold fl. by destruct write.
    + unfold desc_at. rewrite !Hf by (unfold PGSIZE in *; lia). rewrite Hm1. f_equal; field.
    + rewrite Hf by (unfold PGSIZE in *; lia). rewrite Hm1. field.
    + rewrite Hf by (unfold PGSIZE in *; lia). rewrite Hm1. field.
  - intros a n [He1 He2]. rewrite Hm2, Hm1.
    rewrite !bytes_at_other by (first [apply le_bytes_range | rewrite length_le_bytes; unfold PGSIZE in *; lia]). done.
Qed.
(** Writes outside ring and header leave the request as it is. *)
Lemma queued_keep b write m a bs : queued b write m -> Forall is_byte bs -> elsewhere a (length bs) -> queued b write (put_bytes m a bs).
Proof.
  intros [Q1 Q2 Q3 Q4 Q5 Q6] Hb [He1 He2].
  assert (Hg : forall a' n, (page <= a' /\ a' + Z.of_nat n <= page + PGSIZE) \/ (head_pa <= a' /\ a' + Z.of_nat n <= head_pa + 16) ->
    get_le (put_bytes m a bs) a' n = get_le m a' n) by (intros a' n Ha; apply get_le_other; [done|lia]).
  assert (Hd : forall k, 0 <= k < 8 -> desc_at (put_bytes m a bs) page k = desc_at m page k)
    by (intros k Hk; unfold desc_at; rewrite !Hg by (unfold PGSIZE; lia); done).
  split.
  - unfold newest in *. rewrite (Hg (page + 130)) by (unfold PGSIZE; lia). rewrite Hg; [done|].
    pose proof (mod8_range (get_le m (page + 130) 2 - 1)). unfold PGSIZE. lia.
  - by rewrite Hd.
  - by rewrite Hd.
  - by rewrite Hd.
  - by rewrite Hg by lia.
  - by rewrite Hg by lia.
Qed.

Lemma serve_queued {B} `{!BlockDevice B} b write m (disk : B) : queued b write m ->
  serve page disk m = if write then (disk_write disk b (bytes_at m data_pa BLOCK_SIZE), put_bytes m status_pa [0])
                      else (disk, put_bytes (put_bytes m data_pa (disk_read disk b)) status_pa [0]).
Proof.
  intros [Q1 Q2 Q3 Q4 Q5 Q6]. unfold serve. rewrite Q1, Q2. cbn [d_next d_addr]. rewrite Q3. cbn [d_next d_addr d_flags d_len].
  rewrite Q4, Q5, Q6, Z.div_mul by done. cbn [d_addr]. by destruct write.
Qed.
End request.

Section transfer.
Context {B : Type} `{!BlockDevice B} {P : Type} `{!Mmio P}.
Context (disk_of : P -> B) (left : P -> option nat) (tick : M (vdisk P) unit) (Hdev : blk_device disk_of left tick).
Context (head_pa status_pa : Z) (fuel : nat).
Implicit Types (v : vdisk P).

Local Abbreviation notified d := (mmio_write 4 (VIRTIO0 + VIRTIO_MMIO_QUEUE_NOTIFY) 0 d).

(** The state at the notification: the request is queued. *)
Definition asked page data_pa b write v v' : Prop := exists m', queued head_pa status_pa page data_pa b write m' /\
  (forall a n, elsewhere head_pa page a n -> bytes_at m' a n = bytes_at (mem (v_pm v)) a n) /\
  v' = set_v_dev (notified (v_dev v)) (set_v_pm (set_mem m' (v_pm v)) (set_v_locked true (set_v_sie false v))).

(** The polling loop. *)
Definition poll : M (vdisk P) unit :=
  loop fuel (fun (_ : unit) =>
    tick;;
    s ← v_mem (load_bytes status_pa 1);
    mret (if negb (bool_decide (s = [0xFF])) then inr tt else inl tt)) tt.

(** What is left of [rw] then. *)
Definition finish (sie_enabled : bool) : M (vdisk P) unit :=
  tick;;
  v_mem (store_bytes status_pa [0xFF]);;
  unlock_disk;;
  (if sie_enabled then modify (set_v_sie true) else mret tt);;
  poll.

Lemma rw_asked page data_pa b write v : apart head_pa status_pa (frame_addr page) data_pa -> 0 <= b < U32 ->
  v_pages v = Some page -> v_locked v = false ->
  exists v', asked (frame_addr page) data_pa b write v v' /\ rw head_pa status_pa tick fuel data_pa b write v = finish (v_sie v) v'.
Proof.
  intros Hap Hb Hpg Hlk.
  pose proof (wp_request head_pa status_pa (frame_addr page) data_pa b write (v_pm v) Hap Hb) as Hreq.
  unfold wp in Hreq. unfold mbind, M_bind in Hreq.
  destruct (write_header head_pa (b * (PGSIZE / 512)) write (v_pm v)) as [[] s1| |] eqn:E1; [|done|done].
  destruct (write_chain head_pa status_pa (frame_addr page) data_pa write s1) as [[] s2| |] eqn:E2; [|done|done].
  destruct (make_available (frame_addr page) s2) as [[] s3| |] eqn:E3; [|done|done]. destruct Hreq as (m' & -> & Hq & He).
  exists (set_v_dev (notified (v_dev v)) (set_v_pm (set_mem m' (v_pm v)) (set_v_locked true (set_v_sie false v)))).
  split; [by exists m'|]. unfold rw, lock_disk, gets, modify, v_mem, zoom, mbind, M_bind.
  cbn [v_pm v_pages v_locked set_v_locked set_v_sie]. rewrite Hlk. cbn [v_pm v_pages v_locked set_v_locked set_v_sie]. rewrite E1.
  cbn [v_pages set_v_pm set_v_locked set_v_sie]. rewrite Hpg. cbn [expect]. unfold mret, M_ret. cbn [v_pm set_v_pm]. rewrite E2.
  cbn [v_pm set_v_pm]. rewrite E3. done.
Qed.

Lemma load_status s : load_bytes status_pa 1 s = Ret (bytes_at (mem s) status_pa 1) s.
Proof. apply (load_bytes_at status_pa 1). Qed.

(** Waiting for a request that is still to be served. *)
Lemma wp_poll page data_pa b write n v : apart head_pa status_pa (frame_addr page) data_pa -> v_pages v = Some page ->
  queued head_pa status_pa (frame_addr page) data_pa b write (mem (v_pm v)) -> bytes_at (mem (v_pm v)) status_pa 1 = [0xFF] ->
  left (v_dev v) = Some n -> (n < fuel)%nat ->
  wp poll (fun _ v' => exists d', v' = set_v_dev d' (set_v_pm (set_mem (serve (frame_addr page) (disk_of (v_dev v)) (mem (v_pm v))).2 (v_pm v)) v) /\
    disk_of d' = (serve (frame_addr page) (disk_of (v_dev v)) (mem (v_pm v))).1) v.
Proof.
  intros Hap Hpg Hq Hst Hl Hf. unfold poll.
  apply (wp_loop (fun _ v1 => exists d1, v1 = set_v_dev d1 v /\ disk_of d1 = disk_of (v_dev v) /\ is_Some (left d1))
    (fun _ v1 => default O (left (v_dev v1)))).
  - intros [] v1 (d1 & -> & Hd & [k Hk]). wp_step. destruct k as [|k].
    + destruct (bd_serve _ _ _ Hdev (set_v_dev d1 v) page Hk Hpg) as [d2 Hs]. cbn [v_dev v_pm set_v_dev] in Hs. rewrite Hd in Hs.
      destruct (serve (frame_addr page) (disk_of (v_dev v)) (mem (v_pm v))) as [disk' m'] eqn:Es. destruct Hs as (Ht & Hd2 & _).
      eapply wp_intro; [exact Ht|]. wp_step. unfold v_mem. wp_step. eapply wp_intro; [apply load_status|]. cbn [v_pm set_v_dev set_v_pm mem set_mem].
      assert (Hz : bytes_at m' status_pa 1 = [0]).
      { rewrite (serve_queued head_pa status_pa (frame_addr page) data_pa b write _ _ Hq) in Es.
        destruct write; injection Es as _ <-; apply (bytes_at_same _ status_pa [0]); repeat constructor; lia. }
      rewrite Hz. wp_step. cbv beta. exists d2. split; [by destruct v|done].
    + destruct (bd_idle _ _ _ Hdev (set_v_dev d1 v) k Hk) as (d2 & Ht & Hd2 & Hl2).
      eapply wp_intro; [exact Ht|]. wp_step. unfold v_mem. wp_step. eapply wp_intro; [apply load_status|]. cbn [v_pm set_v_dev].
      rewrite Hst. wp_step. cbv beta. rewrite bool_decide_true by done. cbn [negb]. split.
      * exists d2. split; [by destruct v|]. split; [by rewrite Hd2|by eexists].
      * cbn [v_dev set_v_dev v_pm set_v_pm] in *. rewrite Hl2, Hk. simpl. lia.
  - exists (v_dev v). split; [by destruct v|]. split; [done|by eexists].
  - by rewrite Hl.
Qed.

(** A status byte that nothing will change any more. *)
Lemma poll_forever v : left (v_dev v) = None -> bytes_at (mem (v_pm v)) status_pa 1 = [0xFF] -> poll v = Hang "loop: out of fuel".
Proof.
  intros Hl Hst. unfold poll. induction fuel as [|f IH]; [done|]. cbn [loop].
  assert (Hpm : set_v_pm (v_pm v) v = v) by by destruct v.
  unfold mbind, M_bind. rewrite (bd_rest _ _ _ Hdev v Hl). unfold v_mem, zoom. rewrite load_status, Hst, Hpm.
  rewrite bool_decide_true by done. exact IH.
Qed.
End transfer.

(** ** Registers *)

(** What the driver relies on of a legacy device with one queue: [regs] are the
    contents of its registers, reading one does not change them, a write to one
    the driver owns is kept, and the feature word of the device is read-only. *)
Definition READABLE : list Z := [VIRTIO_MMIO_MAGIC_VALUE; VIRTIO_MMIO_VERSION; VIRTIO_MMIO_DEVICE_ID; VIRTIO_MMIO_VENDOR_ID;
  VIRTIO_MMIO_DEVICE_FEATURES; VIRTIO_MMIO_QUEUE_NUM_MAX; VIRTIO_MMIO_STATUS].
Definition WRITABLE : list Z := [VIRTIO_MMIO_STATUS; VIRTIO_MMIO_QUEUE_SEL; VIRTIO_MMIO_QUEUE_NUM; VIRTIO_MMIO_GUEST_PAGE_SIZE;
  VIRTIO_MMIO_QUEUE_PFN; VIRTIO_MMIO_QUEUE_ALIGN].

Record virtio_regs {P} `{!Mmio P} (regs : P -> Z -> Z) : Prop := {
  vr_read : forall off d, off ∈ READABLE -> mmio_read 4 (VIRTIO0 + off) d = (regs d off, d);
  vr_write : forall off x d o, off ∈ WRITABLE -> 0 <= x < U32 -> regs (mmio_write 4 (VIRTIO0 + off) x d) o = upd (regs d) off x o;
  vr_features : forall x d o, regs (mmio_write 4 (VIRTIO0 + VIRTIO_MMIO_DEVICE_FEATURES) x d) o = regs d o }.

(** Membership of a listed register *)
Ltac listed := apply (bool_decide_unpack _); vm_compute; exact I.

Section registers.
Context {P : Type} `{!Mmio P} (regs : P -> Z -> Z) (Hregs : virtio_regs regs).
Implicit Types (v : vdisk P).

(** The registers of the device hold what [f] says. *)
Definition agree (f : Z -> Z) v : Prop := forall off, regs (v_dev v) off = f off.

Lemma wp_reg_read f off v (Q : Z -> vdisk P -> Prop) : agree f v -> off ∈ READABLE -> Q (f off) v -> wp (reg_read off) Q v.
Proof.
  intros Ha Ho HQ. unfold reg_read, v_mmio, volatile_read, wp, zoom. rewrite (vr_read _ Hregs) by done. rewrite Ha. by destruct v.
Qed.
Lemma wp_reg_write f off x v (Q : unit -> vdisk P -> Prop) : agree f v -> off ∈ WRITABLE -> 0 <= x < U32 ->
  (forall d', agree (upd f off x) (set_v_dev d' v) -> Q tt (set_v_dev d' v)) -> wp (reg_write off x) Q v.
Proof.
  intros Ha Ho Hx HQ. unfold reg_write, v_mmio, volatile_write, wp, zoom. apply HQ. intros o. simpl.
  rewrite (vr_write _ Hregs) by done. unfold upd. destruct (o =? off); [done|apply Ha].
Qed.
Lemma wp_features_write f x v (Q : unit -> vdisk P -> Prop) : agree f v ->
  (forall d', agree f (set_v_dev d' v) -> Q tt (set_v_dev d' v)) -> wp (reg_write VIRTIO_MMIO_DEVICE_FEATURES x) Q v.
Proof.
  intros Ha HQ. unfold reg_write, v_mmio, volatile_write, wp, zoom. apply HQ. intros o. simpl. rewrite (vr_features _ Hregs). apply Ha.
Qed.

Lemma wp_valid_device f v : agree f v -> f VIRTIO_MMIO_MAGIC_VALUE = 0x74726976 -> f VIRTIO_MMIO_VERSION = 1 ->
  f VIRTIO_MMIO_DEVICE_ID = 2 -> f VIRTIO_MMIO_VENDOR_ID = 0x554d4551 -> wp valid_device (fun ok v' => ok = true /\ v' = v) v.
Proof.
  intros Ha H1 H2 H3 H4. unfold valid_device. wp_step. eapply wp_reg_read; [done|listed|]. rewrite H1.
  cbn [negb Z.eqb Pos.eqb]. wp_step. eapply wp_reg_read; [done|listed|]. rewrite H2. cbn [negb Z.eqb Pos.eqb].
  wp_step. eapply wp_reg_read; [done|listed|]. rewrite H3. cbn [negb Z.eqb Pos.eqb].
  wp_step. eapply wp_reg_read; [done|listed|]. rewrite H4. by wp_step.
Qed.

(** The kernel page of the queue *)
Lemma wp_queue_page kb ub v (Q : option PhysFrame -> vdisk P -> Prop) :
  pmem_inv kb ub (v_pm v) -> 0 < allocable (inner (region true (v_pm v))) ->
  (forall page s', 0 < page < 2 ^ 44 -> alloc_post kb ub true (v_pm v) page s' -> Q (Some (mkFrame page)) (set_v_pm s' v)) ->
  wp (v_mem PhysFrame_alloc) Q v.
Proof.
  intros Hinv Hfree HQ. unfold v_mem. apply wp_zoom. unfold PhysFrame_alloc. wp_step.
  eapply wp_mono; [|by apply (wp_pmem_alloc (kb := kb) (ub := ub))]. intros page s' Hp. simpl.
  destruct (layout_pick true (pi_layout _ _ _ Hinv)) as [??]. destruct (ap_in _ _ _ _ Hp) as [Hb _]. simpl in *.
  unfold PHY_MEM_START, TOTAL_PAGES, PGSIZE in *. change (128 * 1024 * 1024 / 4096) with 32768 in *.
  rewrite (proj2 (Z.eqb_neq _ _)) by lia. wp_step. by apply HQ; [lia|].
Qed.
End registers.

(** ** A disk on a map *)

Record simdisk := mkSimdisk { sd_disk : ramdisk; sd_left : option nat; sd_delay : nat }.
#[export] Instance simdisk_mmio : Mmio simdisk := {|
  mmio_read _ _ d := (0, d);
  mmio_write _ a _ d := if a =? VIRTIO0 + VIRTIO_MMIO_QUEUE_NOTIFY then mkSimdisk (sd_disk d) (Some (sd_delay d)) (sd_delay d) else d |}.
Definition sim_tick : M (vdisk simdisk) unit := fun v =>
  let d := v_dev v in
  match sd_left d, v_pages v with
  | Some (S n), _ => Ret tt (set_v_dev (mkSimdisk (sd_disk d) (Some n) (sd_delay d)) v)
  | Some O, Some f =>
      let '(disk', m') := serve (frame_addr f) (sd_disk d) (mem (v_pm v)) in
      Ret tt (set_v_dev (mkSimdisk disk' None (sd_delay d)) (set_v_pm (set_mem m' (v_pm v)) v))
  | _, _ => Ret tt v
  end.
Lemma sim_blk : blk_device sd_disk sd_left sim_tick.
Proof.
  split.
  - done.
  - intros v n Hl. unfold sim_tick. rewrite Hl. by eexists.
  - intros v f Hl Hp. unfold sim_tick. rewrite Hl, Hp. destruct (serve _ _ _). by eexists.
  - intros v Hl. unfold sim_tick. by rewrite Hl.
Qed.
(** The ring at 0x3000, header and status byte at 0x5000, block 7 all ones. *)
Definition sim_disk (delay : nat) : vdisk simdisk :=
  mkVdisk demo (mkSimdisk {[7 := replicate BLOCK_SIZE 1]} None delay) (Some (mkFrame 0x3000)) true false true.

(** ** A whole request *)

(** What a served request leaves behind: a read has the block in the buffer and
    the disk as it was, a write has the buffer in the block and no other block
    changed; the lock is free, interrupts are as before, and memory outside the
    ring, the header, the status byte and the buffer is untouched. *)
Definition transferred {B} `{!BlockDevice B} {P} (disk_of : P -> B) (head_pa status_pa page data_pa b : Z) (write : bool) (v : vdisk P)
  (_ : unit) (v' : vdisk P) : Prop :=
    (if write then disk_of (v_dev v') = disk_write (disk_of (v_dev v)) b (bytes_at (mem (v_pm v)) data_pa BLOCK_SIZE)
     else disk_of (v_dev v') = disk_of (v_dev v) /\ bytes_at (mem (v_pm v')) data_pa BLOCK_SIZE = disk_read (disk_of (v_dev v)) b) /\
    v_locked v' = false /\ v_sie v' = v_sie v /\
    forall a k, elsewhere head_pa page a k -> (status_pa + 1 <= a \/ a + Z.of_nat k <= status_pa) ->
      (data_pa + PGSIZE <= a \/ a + Z.of_nat k <= data_pa) -> bytes_at (mem (v_pm v')) a k = bytes_at (mem (v_pm v)) a k.

Lemma wp_disk_rw {B} `{!BlockDevice B} {P} `{!Mmio P} (disk_of : P -> B) left tick head_pa status_pa fuel page data_pa b write n (v : vdisk P) :
  blk_device disk_of left tick -> apart head_pa status_pa (frame_addr page) data_pa -> 0 <= b < U32 ->
  v_pages v = Some page -> v_locked v = false -> Forall is_byte (disk_read (disk_of (v_dev v)) b) ->
  left (mmio_write 4 (VIRTIO0 + VIRTIO_MMIO_QUEUE_NOTIFY) 0 (v_dev v)) = Some (S n) -> (n < fuel)%nat ->
  wp (rw head_pa status_pa tick fuel data_pa b write) (transferred disk_of head_pa status_pa (frame_addr page) data_pa b write v) v.
Proof.
  intros Hdev Hap Hb Hpg Hlk Hbytes Hleft Hf. pose proof Hap as [(Hh & Hst & Hda) H1 H2 H3 H4 H5 H6].
  assert (Hff : Forall is_byte [0xFF]) by (repeat constructor; lia). assert (Hz : Forall is_byte [0]) by (repeat constructor; lia).
  assert (Hbl : Z.of_nat BLOCK_SIZE = PGSIZE) by done.
  destruct (rw_asked tick head_pa status_pa fuel page data_pa b write v Hap Hb Hpg Hlk) as (v1 & (m1 & Hq & He & ->) & Hrun).
  eapply wp_same; [exact Hrun|]. clear Hrun.
  unfold finish.
  wp_step. destruct (bd_idle _ _ _ Hdev (set_v_dev (mmio_write 4 (VIRTIO0 + VIRTIO_MMIO_QUEUE_NOTIFY) 0 (v_dev v))
    (set_v_pm (set_mem m1 (v_pm v)) (set_v_locked true (set_v_sie false v)))) n Hleft) as (d2 & Ht & Hd2 & Hl2). eapply wp_intro; [exact Ht|].
  cbn [v_dev set_v_dev] in Hd2. rewrite (bd_notify _ _ _ Hdev) in Hd2.
  unfold v_mem, store_bytes, unlock_disk. wp_steps. cbn [v_pm set_v_dev set_v_pm mem set_mem].
  set (m2 := put_bytes m1 status_pa [0xFF]).
  assert (Hq2 : queued head_pa status_pa (frame_addr page) data_pa b write m2) by (apply queued_keep; [done|done|split; simpl length; lia]).
  assert (Hs2 : bytes_at m2 status_pa 1 = [0xFF]) by by apply (bytes_at_same m1 status_pa [0xFF]).
  eapply (wp_mono _ (fun _ v3 => v3 = set_v_sie (v_sie v) (set_v_locked false (set_v_dev d2 (set_v_pm (set_mem m2 (v_pm v)) v))))).
  2: { destruct (v_sie v) eqn:E; wp_step; destruct v; cbn in *; subst; done. }
  intros [] v3 ->.
  eapply wp_mono; [|eapply (wp_poll disk_of left tick Hdev head_pa status_pa fuel page data_pa b write n); [exact Hap|done|done|done|done|done]].
  intros [] v' (d' & -> & Hd'). unfold transferred. cbn [v_dev v_pm v_locked v_sie set_v_sie set_v_locked set_v_dev set_v_pm mem set_mem] in *.
  rewrite (serve_queued head_pa status_pa (frame_addr page) data_pa b write _ _ Hq2), Hd2 in *.
  split; [|split; [done|split; [done|]]].
  - destruct write; cbn [fst snd] in *.
    + rewrite Hd'. f_equal. unfold m2. rewrite bytes_at_other by (done || simpl length; lia). apply He. split; lia.
    + split; [done|]. rewrite bytes_at_other by (done || simpl length; lia). rewrite <-(disk_read_length (disk_of (v_dev v)) b) at 1.
      by apply bytes_at_same.
  - intros a k Hel Ha1 Ha2. assert (Hm2 : bytes_at m2 a k = bytes_at (mem (v_pm v)) a k).
    { unfold m2. rewrite bytes_at_other by (done || simpl length; lia). by apply He. }
    destruct write; cbn [snd].
    + by rewrite bytes_at_other by (done || simpl length; lia).
    + rewrite bytes_at_other by (done || simpl length; lia). rewrite bytes_at_other by (done || rewrite disk_read_length; lia). done.
Qed.

(** ** Properties *)

Lemma sim_apart : apart 0x5000 0x5100 0x3000 0x10000.
Proof. split; unfold U64, PGSIZE; lia. Qed.

(** A request that the device serves before the driver gets to mark
    it as in progress is waited for without end: the mark overwrites the status
    the device has written. *)
Theorem early_completion_hangs {B} `{!BlockDevice B} {P} `{!Mmio P} (disk_of : P -> B) left tick head_pa status_pa fuel page data_pa b write (v : vdisk P) :
  blk_device disk_of left tick -> apart head_pa status_pa (frame_addr page) data_pa -> 0 <= b < U32 ->
  v_pages v = Some page -> v_locked v = false ->
  left (mmio_write 4 (VIRTIO0 + VIRTIO_MMIO_QUEUE_NOTIFY) 0 (v_dev v)) = Some O ->
  rw head_pa status_pa tick fuel data_pa b write v = Hang "loop: out of fuel".
Proof.
  intros Hdev Hap Hb Hpg Hlk Hleft.
  destruct (rw_asked tick head_pa status_pa fuel page data_pa b write v Hap Hb Hpg Hlk) as (v1 & (m1 & Hq & He & ->) & ->).
  destruct (bd_serve _ _ _ Hdev (set_v_dev (mmio_write 4 (VIRTIO0 + VIRTIO_MMIO_QUEUE_NOTIFY) 0 (v_dev v))
    (set_v_pm (set_mem m1 (v_pm v)) (set_v_locked true (set_v_sie false v)))) page Hleft Hpg) as [d2 Hs].
  destruct (serve _ _ _) as [disk' m2]. destruct Hs as (Ht & _ & Hl2).
  unfold finish. rewrite (bind_run _ _ _ _ _ Ht). erewrite bind_run by reflexivity. erewrite bind_run by reflexivity.
  assert (Hff : Forall is_byte [0xFF]) by (repeat constructor; lia).
  destruct (v_sie v); (erewrite bind_run by reflexivity); apply (poll_forever disk_of left tick Hdev); try done;
    apply (bytes_at_same _ status_pa [0xFF] Hff).
Qed.

Lemma early_completion_hangs_witness : rw 0x5000 0x5100 sim_tick 1000 0x10000 7 false (sim_disk 0) = Hang "loop: out of fuel".
Proof.
  apply (early_completion_hangs sd_disk sd_left sim_tick 0x5000 0x5100 1000 (mkFrame 0x3000) 0x10000 7 false (sim_disk 0) sim_blk sim_apart);
    [unfold U32; lia|reflexivity|reflexivity|reflexivity].
Defined.

(** C12: one disk request, for any device that serves a notified request after
    [n] ticks. When the device is still busy as the driver marks the status byte
    in progress, one tick after the notification, the call returns with
    exactly the block asked for transferred ([transferred]: a read has it in the
    buffer, a write on the disk, nothing else changes, lock and interrupts are
    as before); when the device has finished by then, the mark overwrites its
    status and the call never returns. *)
Theorem disk_rw_correct {B} `{!BlockDevice B} {P} `{!Mmio P} (disk_of : P -> B) left tick head_pa status_pa fuel page data_pa b write n (v : vdisk P) :
  blk_device disk_of left tick -> apart head_pa status_pa (frame_addr page) data_pa -> 0 <= b < U32 ->
  v_pages v = Some page -> v_locked v = false -> Forall is_byte (disk_read (disk_of (v_dev v)) b) ->
  left (mmio_write 4 (VIRTIO0 + VIRTIO_MMIO_QUEUE_NOTIFY) 0 (v_dev v)) = Some n -> (n <= fuel)%nat ->
  match n with
  | O => rw head_pa status_pa tick fuel data_pa b write v = Hang "loop: out of fuel"
  | S _ => wp (rw head_pa status_pa tick fuel data_pa b write) (transferred disk_of head_pa status_pa (frame_addr page) data_pa b write v) v
  end.
Proof.
  intros Hdev Hap Hb Hpg Hlk Hbytes Hleft Hf. destruct n as [|n].
  - by apply (early_completion_hangs disk_of left tick head_pa status_pa fuel page).
  - by apply (wp_disk_rw disk_of left tick head_pa status_pa fuel page data_pa b write n).
Qed.

Lemma disk_rw_correct_witness :
  wp (rw 0x5000 0x5100 sim_tick 9 0x10000 7 false) (fun _ v' => bytes_at (mem (v_pm v')) 0x10000 BLOCK_SIZE = replicate BLOCK_SIZE 1) (sim_disk 4).
Proof.
  assert (Hr : disk_read (sd_disk (v_dev (sim_disk 4))) 7 = replicate BLOCK_SIZE 1) by (vm_compute; reflexivity).
  eapply wp_mono; [|apply (disk_rw_correct sd_disk sd_left sim_tick 0x5000 0x5100 9 (mkFrame 0x3000) 0x10000 7 false 4 (sim_disk 4) sim_blk sim_apart)].
  - intros [] v' [[_ H] _]. rewrite H. exact Hr.
  - unfold U32. lia.
  - reflexivity.
  - reflexivity.
  - rewrite Hr. apply Forall_replicate. unfold is_byte. lia.
  - reflexivity.
  - lia.
Defined.

(** A device of registers *)
Record vregs := mkVregs { vr_of : Z -> Z }.
#[export] Instance vregs_mmio : Mmio vregs := {
  mmio_read _ a d := (vr_of d (a - VIRTIO0), d);
  mmio_write _ a x d := if a =? VIRTIO0 + VIRTIO_MMIO_DEVICE_FEATURES then d else mkVregs (upd (vr_of d) (a - VIRTIO0) x);
}.
Lemma vregs_ok : virtio_regs vr_of.
Proof.
  split; simpl.
  - intros off d _. by rewrite Z.add_simpl_l.
  - intros off x d o Ho _. rewrite (proj2 (Z.eqb_neq _ _)); [simpl; by rewrite Z.add_simpl_l|].
    unfold WRITABLE in Ho. rewrite !elem_of_cons in Ho. destruct Ho as [->|[->|[->|[->|[->|[->|Ho]]]]]]; [done..|]. by apply elem_of_nil in Ho.
  - done.
Qed.
Definition legacy_disk : vregs := mkVregs (fun off => if off =? 0 then 0x74726976 else if off =? 4 then 1 else if off =? 8 then 2 else
  if off =? 12 then 0x554d4551 else if off =? 0x10 then 0x30006e54 else if off =? 0x34 then 1024 else 0).

(** Initialisation of a legacy virtio disk: with the identification
    registers of one and a queue of at least eight entries the driver takes a
    fresh page of the kernel pool, gives its page number and the queue size to
    the device, and leaves the device in the state driver-ok; a second call
    changes nothing. The feature word it clears bits of is the device's, which
    is read-only, so the features stay as the device offers them. *)
Theorem virtio_init_correct {P} `{!Mmio P} (regs : P -> Z -> Z) kb ub (v : vdisk P) : virtio_regs regs ->
  v_locked v = false -> v_init_done v = false ->
  regs (v_dev v) VIRTIO_MMIO_MAGIC_VALUE = 0x74726976 -> regs (v_dev v) VIRTIO_MMIO_VERSION = 1 ->
  regs (v_dev v) VIRTIO_MMIO_DEVICE_ID = 2 -> regs (v_dev v) VIRTIO_MMIO_VENDOR_ID = 0x554d4551 ->
  NUM_DESCS <= regs (v_dev v) VIRTIO_MMIO_QUEUE_NUM_MAX -> pmem_inv kb ub (v_pm v) -> 0 < allocable (inner (region true (v_pm v))) ->
  wp virtio_init (fun _ v' => exists page, v_pages v' = Some (mkFrame page) /\ alloc_post kb ub true (v_pm v) page (v_pm v') /\
    regs (v_dev v') VIRTIO_MMIO_STATUS = 15 /\ regs (v_dev v') VIRTIO_MMIO_QUEUE_NUM = 8 /\
    regs (v_dev v') VIRTIO_MMIO_QUEUE_PFN = page / PGSIZE /\ regs (v_dev v') VIRTIO_MMIO_GUEST_PAGE_SIZE = PGSIZE /\
    regs (v_dev v') VIRTIO_MMIO_DEVICE_FEATURES = regs (v_dev v) VIRTIO_MMIO_DEVICE_FEATURES /\
    v_locked v' = false /\ virtio_init v' = Ret tt v') v.
Proof.
  intros HR Hl Hi H1 H2 H3 H4 H5 Hinv Hfree. remember (regs (v_dev v)) as f eqn:Hf.
  assert (Ha : agree regs f v) by (intros o; by subst f).
  unfold virtio_init. wp_step. unfold lock_disk. wp_step. wp_step. rewrite Hl. do 3 wp_step.
  cbn [v_init_done set_v_locked]. rewrite Hi. wp_step. unfold set_up_device. wp_step.
  eapply wp_mono; [|by apply (wp_valid_device regs HR f)]. intros ? ? [-> ->]. cbn [negb].
  wp_step. eapply (wp_reg_write regs HR f); [done|listed|unfold U32; by split|]. intros d1 H1a.
  wp_step. eapply (wp_reg_write regs HR); [exact H1a|listed|unfold U32; by split|]. intros d2 H2a.
  wp_step. eapply (wp_reg_read regs HR); [exact H2a|listed|].
  wp_step. eapply (wp_features_write regs HR); [exact H2a|]. intros d3 H3a.
  wp_step. eapply (wp_reg_write regs HR); [exact H3a|listed|unfold U32; by split|]. intros d4 H4a.
  wp_step. eapply (wp_reg_read regs HR); [exact H4a|listed|]. rewrite upd_eq.
  match goal with |- wp (if ?b then _ else _) _ _ => change b with false end. cbn iota.
  wp_step. eapply (wp_reg_write regs HR); [exact H4a|listed|unfold U32; by split|]. intros d5 H5a.
  wp_step. eapply (wp_reg_read regs HR); [exact H5a|listed|]. rewrite !upd_ne by done. unfold NUM_DESCS in H5.
  rewrite (proj2 (Z.eqb_neq _ _)), (proj2 (Z.ltb_ge _ _)) by (unfold NUM_DESCS; lia).
  wp_step. eapply (wp_reg_write regs HR); [exact H5a|listed|unfold U32; by split|]. intros d6 H6a.
  wp_step. apply (wp_queue_page kb ub); [done|done|]. intros page s' Hpage Hpost. wp_step. unfold expect. do 3 wp_step.
  wp_step. eapply (wp_reg_write regs HR); [exact H6a|listed|unfold U32, PGSIZE; by split|]. intros d7 H7a.
  wp_step. eapply (wp_reg_write regs HR); [exact H7a|listed|by apply Z.mod_pos_bound|]. intros d8 H8a.
  wp_step. eapply (wp_reg_write regs HR); [exact H8a|listed|unfold U32; by split|]. intros d9 H9a.
  wp_step. eapply (wp_reg_write regs HR); [exact H9a|listed|unfold U32; by split|]. intros d10 H10a.
  wp_step. unfold unlock_disk. wp_step. exists page. unfold agree in H10a. cbn in H10a.
  cbn -[virtio_init]. rewrite !H10a. split_and!; [done|done| | | | | |done|by unfold virtio_init, lock_disk; vm_compute].
  all: repeat first [rewrite upd_eq|rewrite upd_ne by done]; try done.
  unfold wrap32. apply Z.mod_small. unfold U32, PGSIZE. pose proof (Z.div_pos page 4096). pose proof (Z.div_lt_upper_bound page 4096 (2 ^ 32)). lia.
Qed.

Lemma virtio_init_correct_witness :
  wp virtio_init (fun _ v' => exists page, v_pages v' = Some (mkFrame page) /\ vr_of (v_dev v') VIRTIO_MMIO_QUEUE_PFN = page / PGSIZE)
    (mkVdisk demo legacy_disk None false false true).
Proof.
  eapply wp_mono; [|apply (virtio_init_correct vr_of demo_kb demo_ub (mkVdisk demo legacy_disk None false false true) vregs_ok); try reflexivity; [done|exact demo_inv]].
  intros [] v' (page & H1 & _ & _ & _ & H2 & _). by exists page.
Defined.
