(* ===== verification/Machine.v ===== *)
(** * The machine ([irq/trap/mod.rs], [proc/context.rs], [hart.rs], the fields of [Process], [printk.rs])

    The state the process, system-call and trap code works on: the components
    of the kernel put together, the fields of [Process] the scheduler does not
    use, the control registers of the hart and its devices. A trap frame lies in
    physical memory, where the trampoline, the kernel and an [exec] that
    replaces it see the same words. *)
From stdpp Require Import functions.
From S2P Require Import Prelude Addr PhysMem PageTable FreshPages Vm MmapWarehouse Uvm.
From S2P Require Import Lru BufferCache FsState Bitmap InodeLayer Directory FileTable RunQueue Scheduler Plic Utf8 Uart.

(** ** Registers *)

(** The fields of [TrapContext], in the order of the struct. *)
Module Reg.
Inductive reg :=
  | ra | sp | gp | tp | t0 | t1 | t2 | s0 | s1 | a0 | a1 | a2 | a3 | a4 | a5 | a6 | a7
  | s2 | s3 | s4 | s5 | s6 | s7 | s8 | s9 | s10 | s11 | t3 | t4 | t5 | t6.
#[global] Instance reg_eq_dec : EqDecision reg.
Proof. solve_decision. Defined.

Definition all : list reg :=
  [ra; sp; gp; tp; t0; t1; t2; s0; s1; a0; a1; a2; a3; a4; a5; a6; a7;
   s2; s3; s4; s5; s6; s7; s8; s9; s10; s11; t3; t4; t5; t6].

(** Position in the struct. *)
Definition pos (r : reg) : Z :=
  match r with
  | ra => 0 | sp => 1 | gp => 2 | tp => 3 | t0 => 4 | t1 => 5 | t2 => 6 | s0 => 7 | s1 => 8
  | a0 => 9 | a1 => 10 | a2 => 11 | a3 => 12 | a4 => 13 | a5 => 14 | a6 => 15 | a7 => 16
  | s2 => 17 | s3 => 18 | s4 => 19 | s5 => 20 | s6 => 21 | s7 => 22 | s8 => 23 | s9 => 24
  | s10 => 25 | s11 => 26 | t3 => 27 | t4 => 28 | t5 => 29 | t6 => 30
  end.
End Reg.
Abbreviation reg := Reg.reg.

(** [TrapContext] *)
Definition TrapContext : Type := reg -> Z.
Definition TrapContext_new : TrapContext := fun _ => 0.
(** [ctx.r = v] *)
Definition set_reg (r : reg) (v : Z) (c : TrapContext) : TrapContext := fun r' => if decide (r' = r) then v else c r'.

(** [TrapFrame]: five words for the kernel, then the registers. *)
Definition KERNEL_SATP : Z := 0.
Definition KERNEL_SP : Z := 8.
Definition KERNEL_TRAPVECTOR : Z := 16.
Definition KERNEL_EPC : Z := 24.
Definition KERNEL_HARTID : Z := 32.
Definition tf_reg (r : reg) : Z := 40 + 8 * Reg.pos r.
Definition TRAPFRAME_WORDS : Z := 36.

Definition tf_load (tf off : Z) : M pmem Z := load (tf + off).
Definition tf_store (tf off v : Z) : M pmem unit := store (tf + off) v.
(** The registers of a trap frame, read and written as a struct. *)
Definition tf_regs (tf : Z) : M pmem TrapContext := gets (fun s r => mem s (tf + tf_reg r)).
Definition put_regs (tf : Z) (c : TrapContext) : M pmem unit :=
  modify (fun s => set_mem (foldl (fun m r => upd m (tf + tf_reg r) (c r)) (mem s) Reg.all) s).
(** [copy_nonoverlapping(src, dst, 1)] on trap frames *)
Definition tf_copy (src dst : Z) : M pmem unit :=
  modify (fun s => set_mem (foldl (fun m k => upd m (dst + 8 * k) (mem s (src + 8 * k))) (mem s) (seqZ 0 TRAPFRAME_WORDS)) s).

(** [ProcContext]: the callee-saved registers a switch keeps *)
Record ProcContext := mkContext { c_ra : Z; c_sp : Z; c_s : list Z }.
Definition ProcContext_new : ProcContext := mkContext 0 0 (replicate 12 0).

(** ** Processes *)

(** The fields of [Process] apart from those of the scheduler. *)
Record ProcMem := mkPM {
  p_root : Z;                          (** [root_pt_pa] *)
  p_root_frame : option PhysFrame;     (** [root_pt_frame] *)
  p_heap_top : Z;
  p_heap_base : Z;
  p_stack_pages : Z;
  p_trapframe : Z;
  p_trapframe_frame : option PhysFrame;
  p_trapframe_va : Z;
  p_context : ProcContext;
  p_kstack : option KernelStack;
  p_entry_va : Z;
  p_user_sp_va : Z;
  p_mmap_head : option nat;
  p_open_files : nat -> option nat;
  p_cwd : Z;
}.
Definition ProcMem_new : ProcMem := mkPM 0 None 0 0 0 0 None 0 ProcContext_new None 0 0 None (fun _ => None) ROOT_INODE.

Definition set_root x f p := mkPM x f (p_heap_top p) (p_heap_base p) (p_stack_pages p) (p_trapframe p) (p_trapframe_frame p)
  (p_trapframe_va p) (p_context p) (p_kstack p) (p_entry_va p) (p_user_sp_va p) (p_mmap_head p) (p_open_files p) (p_cwd p).
Definition set_heap top b p := mkPM (p_root p) (p_root_frame p) top b (p_stack_pages p) (p_trapframe p) (p_trapframe_frame p)
  (p_trapframe_va p) (p_context p) (p_kstack p) (p_entry_va p) (p_user_sp_va p) (p_mmap_head p) (p_open_files p) (p_cwd p).
Definition set_stack_pages x p := mkPM (p_root p) (p_root_frame p) (p_heap_top p) (p_heap_base p) x (p_trapframe p) (p_trapframe_frame p)
  (p_trapframe_va p) (p_context p) (p_kstack p) (p_entry_va p) (p_user_sp_va p) (p_mmap_head p) (p_open_files p) (p_cwd p).
Definition set_trapframe x f p := mkPM (p_root p) (p_root_frame p) (p_heap_top p) (p_heap_base p) (p_stack_pages p) x f
  (p_trapframe_va p) (p_context p) (p_kstack p) (p_entry_va p) (p_user_sp_va p) (p_mmap_head p) (p_open_files p) (p_cwd p).
Definition set_trapframe_va x p := mkPM (p_root p) (p_root_frame p) (p_heap_top p) (p_heap_base p) (p_stack_pages p) (p_trapframe p)
  (p_trapframe_frame p) x (p_context p) (p_kstack p) (p_entry_va p) (p_user_sp_va p) (p_mmap_head p) (p_open_files p) (p_cwd p).
Definition set_context x p := mkPM (p_root p) (p_root_frame p) (p_heap_top p) (p_heap_base p) (p_stack_pages p) (p_trapframe p)
  (p_trapframe_frame p) (p_trapframe_va p) x (p_kstack p) (p_entry_va p) (p_user_sp_va p) (p_mmap_head p) (p_open_files p) (p_cwd p).
Definition set_kstack x p := mkPM (p_root p) (p_root_frame p) (p_heap_top p) (p_heap_base p) (p_stack_pages p) (p_trapframe p)
  (p_trapframe_frame p) (p_trapframe_va p) (p_context p) x (p_entry_va p) (p_user_sp_va p) (p_mmap_head p) (p_open_files p) (p_cwd p).
Definition set_entry_va x p := mkPM (p_root p) (p_root_frame p) (p_heap_top p) (p_heap_base p) (p_stack_pages p) (p_trapframe p)
  (p_trapframe_frame p) (p_trapframe_va p) (p_context p) (p_kstack p) x (p_user_sp_va p) (p_mmap_head p) (p_open_files p) (p_cwd p).
Definition set_user_sp_va x p := mkPM (p_root p) (p_root_frame p) (p_heap_top p) (p_heap_base p) (p_stack_pages p) (p_trapframe p)
  (p_trapframe_frame p) (p_trapframe_va p) (p_context p) (p_kstack p) (p_entry_va p) x (p_mmap_head p) (p_open_files p) (p_cwd p).
Definition set_mmap_head x p := mkPM (p_root p) (p_root_frame p) (p_heap_top p) (p_heap_base p) (p_stack_pages p) (p_trapframe p)
  (p_trapframe_frame p) (p_trapframe_va p) (p_context p) (p_kstack p) (p_entry_va p) (p_user_sp_va p) x (p_open_files p) (p_cwd p).
Definition set_files x c p := mkPM (p_root p) (p_root_frame p) (p_heap_top p) (p_heap_base p) (p_stack_pages p) (p_trapframe p)
  (p_trapframe_frame p) (p_trapframe_va p) (p_context p) (p_kstack p) (p_entry_va p) (p_user_sp_va p) (p_mmap_head p) x c.

(** ** The hart *)

Record csrs := mkCsrs {
  sepc : Z;
  scause : bool * Z;      (** interrupt or exception, and its code *)
  stval : Z;
  spp : bool;             (** [sstatus.SPP]: the trap came from S-mode *)
  stvec : Z;
  sscratch : Z;
  satp : Z;
  ssip : bool;            (** [sip.SSIP] *)
  sie_bits : Z;           (** the [sie] register *)
  time : Z;
  stimecmp : Z;           (** what [sbi_set_timer] was last given *)
  tp : Z;                 (** the hart id *)
}.
Definition set_sepc x c := mkCsrs x (scause c) (stval c) (spp c) (stvec c) (sscratch c) (satp c) (ssip c) (sie_bits c) (time c) (stimecmp c) (tp c).
Definition set_spp x c := mkCsrs (sepc c) (scause c) (stval c) x (stvec c) (sscratch c) (satp c) (ssip c) (sie_bits c) (time c) (stimecmp c) (tp c).
Definition set_stvec x c := mkCsrs (sepc c) (scause c) (stval c) (spp c) x (sscratch c) (satp c) (ssip c) (sie_bits c) (time c) (stimecmp c) (tp c).
Definition set_sscratch x c := mkCsrs (sepc c) (scause c) (stval c) (spp c) (stvec c) x (satp c) (ssip c) (sie_bits c) (time c) (stimecmp c) (tp c).
Definition set_satp x c := mkCsrs (sepc c) (scause c) (stval c) (spp c) (stvec c) (sscratch c) x (ssip c) (sie_bits c) (time c) (stimecmp c) (tp c).
Definition set_ssip x c := mkCsrs (sepc c) (scause c) (stval c) (spp c) (stvec c) (sscratch c) (satp c) x (sie_bits c) (time c) (stimecmp c) (tp c).
Definition set_sie_bits x c := mkCsrs (sepc c) (scause c) (stval c) (spp c) (stvec c) (sscratch c) (satp c) (ssip c) x (time c) (stimecmp c) (tp c).
Definition set_stimecmp x c := mkCsrs (sepc c) (scause c) (stval c) (spp c) (stvec c) (sscratch c) (satp c) (ssip c) (sie_bits c) (time c) x (tp c).

(** ** The whole *)

Section machine.
(** The disk, and the devices behind registers. *)
Context {D : Type} `{!BlockDevice D} {P : Type} `{!Mmio P}.

Record machine := mkMachine {
  m_fs : fsys D;
  m_pm : pmem;
  m_files : FileTable;
  m_wh : MmapWarehouse;
  m_sched : sched;
  m_procs : Z -> ProcMem;           (** [PROC_TABLE], the other fields *)
  m_csr : csrs;
  m_dev : P;
  m_uart : option Uart;             (** [UART] *)
  m_nest : Z -> Z;                  (** [HARTS[..].nest_count] *)
  m_ticks : Z;                      (** [SYS_TICKS] *)
  m_user_satp : option Z;           (** [CURRENT_USER_SATP] *)
  m_print_lock : bool;              (** [PRINTK_LOCK] *)
}.
Implicit Types (m : machine).
Definition set_m_fs x m := mkMachine x (m_pm m) (m_files m) (m_wh m) (m_sched m) (m_procs m) (m_csr m) (m_dev m) (m_uart m) (m_nest m) (m_ticks m) (m_user_satp m) (m_print_lock m).
Definition set_m_pm x m := mkMachine (m_fs m) x (m_files m) (m_wh m) (m_sched m) (m_procs m) (m_csr m) (m_dev m) (m_uart m) (m_nest m) (m_ticks m) (m_user_satp m) (m_print_lock m).
Definition set_m_files x m := mkMachine (m_fs m) (m_pm m) x (m_wh m) (m_sched m) (m_procs m) (m_csr m) (m_dev m) (m_uart m) (m_nest m) (m_ticks m) (m_user_satp m) (m_print_lock m).
Definition set_m_wh x m := mkMachine (m_fs m) (m_pm m) (m_files m) x (m_sched m) (m_procs m) (m_csr m) (m_dev m) (m_uart m) (m_nest m) (m_ticks m) (m_user_satp m) (m_print_lock m).
Definition set_m_sched x m := mkMachine (m_fs m) (m_pm m) (m_files m) (m_wh m) x (m_procs m) (m_csr m) (m_dev m) (m_uart m) (m_nest m) (m_ticks m) (m_user_satp m) (m_print_lock m).
Definition set_m_procs x m := mkMachine (m_fs m) (m_pm m) (m_files m) (m_wh m) (m_sched m) x (m_csr m) (m_dev m) (m_uart m) (m_nest m) (m_ticks m) (m_user_satp m) (m_print_lock m).
Definition set_m_csr x m := mkMachine (m_fs m) (m_pm m) (m_files m) (m_wh m) (m_sched m) (m_procs m) x (m_dev m) (m_uart m) (m_nest m) (m_ticks m) (m_user_satp m) (m_print_lock m).
Definition set_m_dev x m := mkMachine (m_fs m) (m_pm m) (m_files m) (m_wh m) (m_sched m) (m_procs m) (m_csr m) x (m_uart m) (m_nest m) (m_ticks m) (m_user_satp m) (m_print_lock m).
Definition set_m_nest x m := mkMachine (m_fs m) (m_pm m) (m_files m) (m_wh m) (m_sched m) (m_procs m) (m_csr m) (m_dev m) (m_uart m) x (m_ticks m) (m_user_satp m) (m_print_lock m).
Definition set_m_ticks x m := mkMachine (m_fs m) (m_pm m) (m_files m) (m_wh m) (m_sched m) (m_procs m) (m_csr m) (m_dev m) (m_uart m) (m_nest m) x (m_user_satp m) (m_print_lock m).
Definition set_m_user_satp x m := mkMachine (m_fs m) (m_pm m) (m_files m) (m_wh m) (m_sched m) (m_procs m) (m_csr m) (m_dev m) (m_uart m) (m_nest m) (m_ticks m) x (m_print_lock m).
Definition set_m_print_lock x m := mkMachine (m_fs m) (m_pm m) (m_files m) (m_wh m) (m_sched m) (m_procs m) (m_csr m) (m_dev m) (m_uart m) (m_nest m) (m_ticks m) (m_user_satp m) x.

Definition on_pmem {A} (c : M pmem A) : M machine A := zoom m_pm set_m_pm c.
Definition on_sched {A} (c : M sched A) : M machine A := zoom m_sched set_m_sched c.
Definition on_mmio {A} (c : M P A) : M machine A := zoom m_dev set_m_dev c.
Definition on_warehouse {A} (c : M MmapWarehouse A) : M machine A := zoom m_wh set_m_wh c.
Definition on_umem {A} (c : M umem A) : M machine A :=
  zoom (fun m => mkUmem (m_pm m) (m_wh m)) (fun u m => set_m_wh (um_wh u) (set_m_pm (um_pm u) m)) c.
Definition upd_csr (f : csrs -> csrs) : M machine unit := modify (fun m => set_m_csr (f (m_csr m)) m).
Definition csr {A} (f : csrs -> A) : M machine A := gets (fun m => f (m_csr m)).

Definition proc_mem (i : Z) : M machine ProcMem := gets (fun m => m_procs m i).
Definition upd_pm (i : Z) (f : ProcMem -> ProcMem) : M machine unit :=
  modify (fun m => set_m_procs (<[i := f (m_procs m i)]> (m_procs m)) m).

(** A file-system call of process [i]. *)
Definition kernel_of (i : Z) m : kernel D :=
  mkKernel (m_fs m) (m_pm m) (m_files m) (p_cwd (m_procs m i)) (p_open_files (m_procs m i)) (p_root (m_procs m i)).
Definition put_kernel (i : Z) (k : kernel D) m : machine :=
  set_m_fs (kfs k) (set_m_pm (kpm k) (set_m_files (ftable k)
    (set_m_procs (<[i := set_files (open_files k) (cwd k) (m_procs m i)]> (m_procs m)) m))).
Definition on_kernel {A} (i : Z) (c : M (kernel D) A) : M machine A := zoom (kernel_of i) (put_kernel i) c.

(** ** [hart.rs], [proc/mod.rs], [printk.rs] *)

Definition MAX_HARTS : Z := 8.
Definition getid : M machine Z := csr tp.
(** [HARTS[getid()]]: the index is checked *)
Definition hart_get : M machine Z :=
  id ← getid;
  if id <? MAX_HARTS then mret id else panic "index out of bounds".

Definition set_current_user_satp (x : Z) : M machine unit := modify (set_m_user_satp (Some x)).
Definition current_user_satp : M machine (option Z) := gets m_user_satp.

Definition current_proc : M machine Z :=
  hart_get;;
  o ← gets (fun m => hart_proc (m_sched m));
  match o with
  | None => panic "current_proc: hart.proc is null"
  | Some i => mret i
  end.

(** [_print] writes what was formatted, if there is a UART. [fuel] bounds the
    polls of its transmitter. *)
Variable fuel : nat.
Definition print (s : list Z) : M machine unit :=
  u ← gets m_uart;
  match u with
  | Some u => on_mmio (write_str fuel u s)
  | None => mret tt
  end.
Definition printk (s : list Z) : M machine unit :=
  h ← hart_get;
  n ← gets (fun m => m_nest m h);
  if 0 <? n then print s
  else
    l ← gets m_print_lock;
    if l : bool then hang "PRINTK_LOCK is already locked"
    else
      modify (set_m_print_lock true);;
      print s;;
      modify (set_m_print_lock false).
End machine.
Arguments machine : clear implicits.

(** ** Trap frames in memory *)

(** One write per element of [l], at distinct addresses. *)
Lemma foldl_upd_out {A} (k v : A -> Z) l m a : (forall r, r ∈ l -> k r <> a) -> foldl (fun m r => upd m (k r) (v r)) m l a = m a.
Proof.
  revert m. induction l as [|r l IH]; intros m Hn; [done|]. cbn [foldl]. rewrite IH by (intros r' Hr'; apply Hn; by right).
  apply upd_ne. intros ->. apply (Hn r); [by left|done].
Qed.
Lemma foldl_upd_in {A} (k v : A -> Z) l m r : (forall r r', k r = k r' -> r = r') -> r ∈ l -> foldl (fun m r => upd m (k r) (v r)) m l (k r) = v r.
Proof.
  intros Hk. revert m. induction l as [|r0 l IH] using rev_ind; intros m Hr; [by apply not_elem_of_nil in Hr|].
  rewrite foldl_app. cbn [foldl]. destruct (decide (k r0 = k r)) as [E|E].
  - rewrite E, (Hk r0 r E). apply upd_eq.
  - rewrite upd_ne by done. apply IH. apply elem_of_app in Hr as [Hr|Hr]; [done|]. apply list_elem_of_singleton in Hr as ->. done.
Qed.

Lemma reg_all r : r ∈ Reg.all.
Proof. destruct r; repeat (by left) || right; by left. Qed.
Lemma tf_reg_range r : 40 <= tf_reg r <= 280.
Proof. destruct r; unfold tf_reg; simpl; lia. Qed.
Lemma tf_reg_inj r r' : tf_reg r = tf_reg r' -> r = r'.
Proof. destruct r, r'; unfold tf_reg; simpl; done || lia. Qed.

(** The memory after a register file was stored. *)
Lemma put_regs_in m tf c r : foldl (fun m r => upd m (tf + tf_reg r) (c r)) m Reg.all (tf + tf_reg r) = c r.
Proof.
  apply (foldl_upd_in (fun r => tf + tf_reg r) c); [|apply reg_all]. intros r1 r2 H. apply tf_reg_inj. lia.
Qed.
Lemma put_regs_out m tf c a : (forall r, a <> tf + tf_reg r) -> foldl (fun m r => upd m (tf + tf_reg r) (c r)) m Reg.all a = m a.
Proof. intros Ha. apply (foldl_upd_out (fun r => tf + tf_reg r) c). intros r _ E. by apply (Ha r). Qed.
Lemma put_regs_low m tf c off : off < 40 -> foldl (fun m r => upd m (tf + tf_reg r) (c r)) m Reg.all (tf + off) = m (tf + off).
Proof. intros Ho. apply put_regs_out. intros r. pose proof (tf_reg_range r). lia. Qed.

(** The memory after a trap frame was copied to another page. *)
Lemma tf_copy_in m src dst k : 0 <= k < TRAPFRAME_WORDS ->
  foldl (fun m' k => upd m' (dst + 8 * k) (m (src + 8 * k))) m (seqZ 0 TRAPFRAME_WORDS) (dst + 8 * k) = m (src + 8 * k).
Proof.
  intros Hk. apply (foldl_upd_in (fun k => dst + 8 * k) (fun k => m (src + 8 * k))); [intros; lia|]. apply elem_of_seqZ. lia.
Qed.
Lemma tf_copy_out m src dst a : (forall k, 0 <= k < TRAPFRAME_WORDS -> a <> dst + 8 * k) ->
  foldl (fun m' k => upd m' (dst + 8 * k) (m (src + 8 * k))) m (seqZ 0 TRAPFRAME_WORDS) a = m a.
Proof.
  intros Ha. apply (foldl_upd_out (fun k => dst + 8 * k) (fun k => m (src + 8 * k))).
  intros k Hk E. apply elem_of_seqZ in Hk. by apply (Ha k); [lia|].
Qed.

Lemma set_reg_eq r v c : set_reg r v c r = v.
Proof. unfold set_reg. by rewrite decide_True. Qed.
Lemma set_reg_ne r r' v c : r' <> r -> set_reg r v c r' = c r'.
Proof. intros. unfold set_reg. by rewrite decide_False. Qed.

(** One step on the machine. *)
Ltac wp_machine :=
  lazymatch goal with
  | |- wp (on_pmem _) _ _ => unfold on_pmem; apply wp_zoom
  | |- wp (on_sched _) _ _ => unfold on_sched; apply wp_zoom
  | |- wp (on_mmio _) _ _ => unfold on_mmio; apply wp_zoom
  | |- wp (upd_csr _) _ _ => unfold upd_csr; apply wp_modify
  | |- wp (csr _) _ _ => unfold csr; apply wp_gets
  | |- wp getid _ _ => unfold getid, csr; apply wp_gets
  | |- wp (proc_mem _) _ _ => unfold proc_mem; apply wp_gets
  | |- wp (upd_pm _ _) _ _ => unfold upd_pm; apply wp_modify
  | |- wp (tf_load _ _) _ _ => unfold tf_load, load; apply wp_gets
  | |- wp (tf_store _ _ _) _ _ => unfold tf_store, store; apply wp_modify
  | |- wp (tf_regs _) _ _ => unfold tf_regs; apply wp_gets
  | |- wp (proc_at _) _ _ => unfold proc_at; apply wp_gets
  | |- wp (put_regs _ _) _ _ => unfold put_regs; apply wp_modify
  end.
Ltac mstep := first [wp_step | wp_machine].
Ltac msteps := repeat (mstep; cbv beta iota).

(** A machine with its registers, its scheduler and the contents of its memory
    exchanged: the state a run of register and trap-frame accesses is in. *)
Section at_state.
Context {D : Type} `{!BlockDevice D} {P : Type} `{!Mmio P}.
Implicit Types (m : machine D P) (c : csrs) (s : sched) (M : Z -> Z).

Definition at_ c s M m : machine D P := set_m_csr c (set_m_sched s (set_m_pm (set_mem M (m_pm m)) m)).

Lemma at_start {A} m (p : Prelude.M (machine D P) A) Q : wp p Q (at_ (m_csr m) (m_sched m) (mem (m_pm m)) m) -> wp p Q m.
Proof. unfold at_. destruct m as [? [????] ? ? ? ? ? ? ? ? ? ? ?]. done. Qed.
Lemma at_csr {A} (f : csrs -> A) c s M m Q : Q (f c) (at_ c s M m) -> wp (csr f) Q (at_ c s M m).
Proof. done. Qed.
Lemma at_upd_csr f c s M m Q : Q tt (at_ (f c) s M m) -> wp (upd_csr f) Q (at_ c s M m).
Proof. done. Qed.
Lemma at_getid c s M m Q : Q (tp c) (at_ c s M m) -> wp getid Q (at_ c s M m).
Proof. done. Qed.
Lemma at_proc_mem i c s M m Q : Q (m_procs m i) (at_ c s M m) -> wp (proc_mem i) Q (at_ c s M m).
Proof. done. Qed.
Lemma at_sched f c s M m Q : Q tt (at_ c (f s) M m) -> wp (on_sched (modify f)) Q (at_ c s M m).
Proof. done. Qed.
Lemma at_load tf off c s M m Q : Q (M (tf + off)) (at_ c s M m) -> wp (on_pmem (tf_load tf off)) Q (at_ c s M m).
Proof. done. Qed.
Lemma at_store tf off v c s M m Q : Q tt (at_ c s (upd M (tf + off) v) m) -> wp (on_pmem (tf_store tf off v)) Q (at_ c s M m).
Proof. done. Qed.
Lemma at_regs tf c s M m Q : Q (fun r => M (tf + tf_reg r)) (at_ c s M m) -> wp (on_pmem (tf_regs tf)) Q (at_ c s M m).
Proof. done. Qed.
End at_state.

Ltac astep :=
  lazymatch goal with
  | |- wp (_ ≫= _) _ _ => apply wp_bind
  | |- wp (csr _) _ _ => apply at_csr
  | |- wp (upd_csr _) _ _ => apply at_upd_csr
  | |- wp getid _ _ => apply at_getid
  | |- wp (proc_mem _) _ _ => apply at_proc_mem
  | |- wp (on_sched (modify _)) _ _ => apply at_sched
  | |- wp (on_pmem (tf_load _ _)) _ _ => apply at_load
  | |- wp (on_pmem (tf_store _ _ _)) _ _ => apply at_store
  | |- wp (on_pmem (tf_regs _)) _ _ => apply at_regs
  | |- wp (uadd _ _) _ _ => wp_step
  | |- wp (usub _ _) _ _ => wp_step
  | |- wp (checked _ _ _) _ _ => wp_step
  end; cbv beta.
Ltac asteps := repeat astep.

Section current.
Context {D : Type} `{!BlockDevice D} {P : Type} `{!Mmio P}.

(** Process [i] runs on a hart the kernel has a slot for. *)
Record running (m : machine D P) (i : Z) : Prop := {
  ru_hart : 0 <= tp (m_csr m) < MAX_HARTS;
  ru_proc : hart_proc (m_sched m) = Some i;
}.

Lemma wp_hart_get m (Q : Z -> machine D P -> Prop) : tp (m_csr m) < MAX_HARTS -> Q (tp (m_csr m)) m -> wp hart_get Q m.
Proof. intros H HQ. unfold hart_get. mstep. mstep. rewrite (proj2 (Z.ltb_lt _ _)) by done. by mstep. Qed.

Lemma wp_current_proc m i (Q : Z -> machine D P -> Prop) : running m i -> Q i m -> wp current_proc Q m.
Proof. intros [Hh Hp] HQ. unfold current_proc. mstep. apply wp_hart_get; [lia|]. mstep. mstep. rewrite Hp. by mstep. Qed.
End current.
