(* ===== verification/Asm.v ===== *)
(** * The assembly routines ([asm/switch.S], [asm/vector.S], [asm/enter.S], [asm/boot.S])

    Instructions on registers, memory words and control registers; each routine
    is the list of its instructions, in the order of the file. What a routine
    calls in Rust is a parameter. *)
From stdpp Require Import functions.
From S2P Require Import Prelude Machine.
Import Machine.Reg.

(** ** Instructions *)

Inductive csr := c_sie | c_sepc | c_sstatus | c_mscratch | c_mip.
#[export] Instance csr_eq_dec : EqDecision csr.
Proof. solve_decision. Defined.

Inductive instr :=
  | sd (rs : reg) (off : Z) (base : reg)
  | ld (rd : reg) (off : Z) (base : reg)
  | addi (rd rs : reg) (imm : Z)
  | mv (rd rs : reg)
  | li (rd : reg) (imm : Z)
  | add (rd rs1 rs2 : reg)
  | sub (rd rs1 rs2 : reg)
  | mul (rd rs1 rs2 : reg)
  | csrw (c : csr) (rs : option reg)      (** [None] is the register [zero] *)
  | csrrw (rd : reg) (c : csr) (rs : reg)
  | csrs (c : csr) (rs : reg)
  | csrc (c : csr) (rs : reg).

(** Registers, the 64-bit words of memory by their address, control registers. *)
Record cpu := mkCpu { regs : reg -> Z; words : Z -> Z; csr_of : csr -> Z }.
Definition set_regs f c := mkCpu (f (regs c)) (words c) (csr_of c).
Definition set_words f c := mkCpu (regs c) (f (words c)) (csr_of c).
Definition set_csr f c := mkCpu (regs c) (words c) (f (csr_of c)).

Definition aligned (a : Z) : bool := a mod 8 =? 0.

(** One instruction; a misaligned access traps, which no routine expects. *)
Definition exec_instr (i : instr) (c : cpu) : option cpu :=
  let R := regs c in
  match i with
  | sd rs off base => let a := wrap64 (R base + off) in if aligned a then Some (set_words (fun m => <[a := R rs]> m) c) else None
  | ld rd off base => let a := wrap64 (R base + off) in if aligned a then Some (set_regs (fun r => <[rd := words c a]> r) c) else None
  | addi rd rs imm => Some (set_regs (fun r => <[rd := wrap64 (R rs + imm)]> r) c)
  | mv rd rs => Some (set_regs (fun r => <[rd := R rs]> r) c)
  | li rd imm => Some (set_regs (fun r => <[rd := wrap64 imm]> r) c)
  | add rd x y => Some (set_regs (fun r => <[rd := wrap64 (R x + R y)]> r) c)
  | sub rd x y => Some (set_regs (fun r => <[rd := wrap64 (R x - R y)]> r) c)
  | mul rd x y => Some (set_regs (fun r => <[rd := wrap64 (R x * R y)]> r) c)
  | csrw k o => Some (set_csr (fun f => <[k := match o with Some rs => R rs | None => 0 end]> f) c)
  | csrrw rd k rs => Some (set_regs (fun r => <[rd := csr_of c k]> r) (set_csr (fun f => <[k := R rs]> f) c))
  | csrs k rs => Some (set_csr (fun f => <[k := Z.lor (f k) (R rs)]> f) c)
  | csrc k rs => Some (set_csr (fun f => <[k := Z.ldiff (f k) (R rs)]> f) c)
  end.

Fixpoint run (l : list instr) (c : cpu) : option cpu :=
  match l with
  | [] => Some c
  | i :: l => c' ← exec_instr i c; run l c'
  end.

(** ** The routines *)

(** [switch_context]; the result is the address [ret] jumps to. *)
Definition switch_context_body : list instr :=
  [sd ra 0 a0; sd sp 8 a0; sd s0 16 a0; sd s1 24 a0; sd s2 32 a0; sd s3 40 a0; sd s4 48 a0; sd s5 56 a0; sd s6 64 a0;
   sd s7 72 a0; sd s8 80 a0; sd s9 88 a0; sd s10 96 a0; sd s11 104 a0;
   ld ra 0 a1; ld sp 8 a1; ld s0 16 a1; ld s1 24 a1; ld s2 32 a1; ld s3 40 a1; ld s4 48 a1; ld s5 56 a1; ld s6 64 a1;
   ld s7 72 a1; ld s8 80 a1; ld s9 88 a1; ld s10 96 a1; ld s11 104 a1].
Definition switch_context (c : cpu) : option (cpu * Z) := c' ← run switch_context_body c; Some (c', regs c' ra).

(** [kernel_vector], up to the call and after it *)
Definition kernel_vector_entry : list instr :=
  [addi sp sp (-256);
   sd ra 0 sp; sd sp 8 sp; sd gp 16 sp; sd tp 24 sp; sd t0 32 sp; sd t1 40 sp; sd t2 48 sp; sd s0 56 sp; sd s1 64 sp;
   sd a0 72 sp; sd a1 80 sp; sd a2 88 sp; sd a3 96 sp; sd a4 104 sp; sd a5 112 sp; sd a6 120 sp; sd a7 128 sp;
   sd s2 136 sp; sd s3 144 sp; sd s4 152 sp; sd s5 160 sp; sd s6 168 sp; sd s7 176 sp; sd s8 184 sp; sd s9 192 sp;
   sd s10 200 sp; sd s11 208 sp; sd t3 216 sp; sd t4 224 sp; sd t5 232 sp; sd t6 240 sp;
   mv a0 sp].
Definition kernel_vector_exit : list instr :=
  [ld ra 0 sp; ld gp 16 sp; ld t0 32 sp; ld t1 40 sp; ld t2 48 sp; ld s0 56 sp; ld s1 64 sp;
   ld a0 72 sp; ld a1 80 sp; ld a2 88 sp; ld a3 96 sp; ld a4 104 sp; ld a5 112 sp; ld a6 120 sp; ld a7 128 sp;
   ld s2 136 sp; ld s3 144 sp; ld s4 152 sp; ld s5 160 sp; ld s6 168 sp; ld s7 176 sp; ld s8 184 sp; ld s9 192 sp;
   ld s10 200 sp; ld s11 208 sp; ld t3 216 sp; ld t4 224 sp; ld t5 232 sp; ld t6 240 sp;
   addi sp sp 256].
Definition kernel_vector (handler : cpu -> option cpu) (c : cpu) : option cpu :=
  c1 ← run kernel_vector_entry c;
  c2 ← handler c1;
  run kernel_vector_exit c2.

(** [timer_vector] *)
Definition timer_vector : list instr :=
  [csrrw a0 c_mscratch a0;
   sd a1 0 a0; sd a2 8 a0; sd a3 16 a0;
   ld a1 24 a0; ld a2 32 a0;
   ld a3 0 a1; add a3 a3 a2; sd a3 0 a1;
   li a1 2; csrs c_mip a1;
   ld a3 16 a0; ld a2 8 a0; ld a1 0 a0;
   csrrw a0 c_mscratch a0].

(** [enter_proc]; [sret] jumps to [sepc] in the mode [SPP] names. *)
Definition SSTATUS_SPP : Z := 8.
Definition SSTATUS_SUM : Z := 18.
Definition enter_proc_body : list instr :=
  [mv sp a1; csrw c_sepc (Some a0); li t0 (Z.shiftl 1 SSTATUS_SPP); csrc c_sstatus t0; li t0 (Z.shiftl 1 SSTATUS_SUM); csrs c_sstatus t0].
Definition enter_proc (c : cpu) : option (cpu * (Z * bool)) :=
  c' ← run enter_proc_body c;
  Some (c', (csr_of c' c_sepc, Z.testbit (csr_of c' c_sstatus) SSTATUS_SPP)).

(** [HART_ENTRY], up to the jump to [glenda_main] *)
Definition BOOT_STACK_SIZE : Z := 65536.
Definition MAX_BOOT_HARTS : Z := 8.
Definition hart_entry (boot_stack_top : Z) (c : cpu) : option cpu :=
  c ← run [csrw c_sie None; li t1 boot_stack_top; li t2 BOOT_STACK_SIZE; li t3 MAX_BOOT_HARTS; mv tp a0] c;
  if regs c t3 <=? regs c a0 then run [mv sp t1] c
  else run [mul t2 t2 a0; sub sp t1 t2] c.

(** ** Runs of stores and loads *)

Definition saves (base : reg) (l : list (reg * Z)) : list instr := map (fun '(r, off) => sd r off base) l.
Definition loads (base : reg) (l : list (reg * Z)) : list instr := map (fun '(r, off) => ld r off base) l.

Lemma run_app l l' c : run (l ++ l') c = (c' ← run l c; run l' c').
Proof.
  revert c. induction l as [|i l IH]; intros c; [done|]. cbn [app run]. destruct (exec_instr i c) as [c'|]; [apply IH|done].
Qed.

(** A block of [8 n] bytes at [b]: aligned and below the top. *)
Definition area (b n : Z) : Prop := aligned b = true /\ 0 <= b /\ b + n <= U64.
Definition offsets_in (n : Z) (l : list (reg * Z)) : Prop := Forall (fun '(_, off) => aligned off = true /\ 0 <= off < n) l.

Lemma area_word b n off : area b n -> aligned off = true -> 0 <= off < n -> wrap64 (b + off) = b + off /\ aligned (b + off) = true.
Proof.
  intros (Hb & H0 & Hn) Ho Hoff. unfold wrap64, aligned in *. rewrite Z.mod_small by lia. split; [done|].
  apply Z.eqb_eq in Hb, Ho. apply Z.eqb_eq. rewrite Z.add_mod, Hb, Ho by lia. done.
Qed.

Definition saved (b : Z) (R : reg -> Z) (l : list (reg * Z)) (m : Z -> Z) : Z -> Z := foldl (fun m '(r, off) => <[b + off := R r]> m) m l.
Definition loaded (b : Z) (m : Z -> Z) (l : list (reg * Z)) (R : reg -> Z) : reg -> Z := foldl (fun R '(r, off) => <[r := m (b + off)]> R) R l.

Lemma run_saves base l n c : area (regs c base) n -> offsets_in n l ->
  run (saves base l) c = Some (set_words (saved (regs c base) (regs c) l) c).
Proof.
  intros Ha Hl. revert c Ha. induction Hl as [|[r off] l [Ho1 Ho2] Hl IH]; intros c Ha; [by destruct c|].
  cbn [saves map run exec_instr]. destruct (area_word _ _ _ Ha Ho1 Ho2) as [-> ->]. cbn [mbind option_bind]. fold (saves base l). by rewrite IH.
Qed.

Lemma run_loads base l n c : area (regs c base) n -> offsets_in n l -> Forall (fun '(r, _) => r <> base) l ->
  run (loads base l) c = Some (set_regs (loaded (regs c base) (words c) l) c).
Proof.
  intros Ha Hl Hb. revert c Ha. induction Hl as [|[r off] l [Ho1 Ho2] Hl IH]; intros c Ha; [by destruct c|].
  inversion Hb as [|? ? Hr Hb']; subst. cbn [loads map run exec_instr]. destruct (area_word _ _ _ Ha Ho1 Ho2) as [-> ->]. cbn [mbind option_bind].
  fold (loads base l). assert (Hbase : regs (set_regs (fun R => <[r := words c (regs c base + off)]> R) c) base = regs c base) by (by apply fn_lookup_insert_ne).
  rewrite IH by (done || by rewrite Hbase). by rewrite Hbase.
Qed.

Lemma saved_in b R l m r off : NoDup l.*2 -> (r, off) ∈ l -> saved b R l m (b + off) = R r.
Proof.
  revert m. induction l as [|[r' off'] l IH]; intros m Hnd Hin; [by apply not_elem_of_nil in Hin|].
  cbn [fmap list_fmap snd] in Hnd. apply NoDup_cons in Hnd as [Hni Hnd]. cbn [saved foldl]. apply elem_of_cons in Hin as [[= -> ->]|Hin]; [|by apply IH].
  clear IH. assert (Hout : forall m', saved b R l m' (b + off') = m' (b + off')).
  { clear Hnd. induction l as [|[r2 o2] l IH]; intros m'; [done|]. cbn [saved foldl]. cbn [fmap list_fmap snd] in Hni. apply not_elem_of_cons in Hni as [Hne Hni].
    etransitivity; [by apply IH|]. apply fn_lookup_insert_ne. lia. }
  etransitivity; [apply Hout|]. apply fn_lookup_insert.
Qed.

Lemma saved_out b R l m a : (forall r off, (r, off) ∈ l -> a <> b + off) -> saved b R l m a = m a.
Proof.
  revert m. induction l as [|[r off] l IH]; intros m Ha; [done|]. cbn [saved foldl]. etransitivity; [apply IH|].
  - intros r' off' Hin. apply (Ha r'). by right.
  - apply fn_lookup_insert_ne. intros Heq. by apply (Ha r off); [left|].
Qed.

Lemma loaded_out b m l R r : r ∉ l.*1 -> loaded b m l R r = R r.
Proof.
  revert R. induction l as [|[r' off] l IH]; intros R Hr; [done|]. cbn [loaded foldl]. cbn [fmap list_fmap fst] in Hr. apply not_elem_of_cons in Hr as [Hne Hr].
  etransitivity; [by apply IH|]. by apply fn_lookup_insert_ne.
Qed.

Lemma loaded_in b m l R r off : NoDup l.*1 -> (r, off) ∈ l -> loaded b m l R r = m (b + off).
Proof.
  revert R. induction l as [|[r' off'] l IH]; intros R Hnd Hin; [by apply not_elem_of_nil in Hin|].
  cbn [fmap list_fmap fst] in Hnd. apply NoDup_cons in Hnd as [Hni Hnd]. cbn [loaded foldl]. apply elem_of_cons in Hin as [[= -> ->]|Hin]; [|by apply IH].
  etransitivity; [by apply loaded_out|]. apply fn_lookup_insert.
Qed.

(** ** Frames *)

(** [ProcContext], by the registers [switch_context] keeps in it *)
Definition ctx_slots : list (reg * Z) :=
  [(ra, 0); (sp, 8); (s0, 16); (s1, 24); (s2, 32); (s3, 40); (s4, 48); (s5, 56); (s6, 64); (s7, 72); (s8, 80); (s9, 88); (s10, 96); (s11, 104)].
Definition CTX_SIZE : Z := 112.
(** [TrapContext]: all registers, in the order of the struct *)
Definition frame_slots : list (reg * Z) := map (fun r => (r, 8 * Reg.pos r)) Reg.all.
Definition FRAME_SIZE : Z := 256.
(** What [kernel_vector] restores: all but [sp] and [tp] *)
Definition restored_slots : list (reg * Z) := base.filter (fun p => fst p <> sp /\ fst p <> tp) frame_slots.

Lemma switch_context_shape : switch_context_body = saves a0 ctx_slots ++ loads a1 ctx_slots.
Proof. reflexivity. Qed.
Lemma kernel_vector_entry_shape : kernel_vector_entry = addi sp sp (-256) :: saves sp frame_slots ++ [mv a0 sp].
Proof. reflexivity. Qed.
Lemma kernel_vector_exit_shape : kernel_vector_exit = loads sp restored_slots ++ [addi sp sp 256].
Proof. vm_compute. reflexivity. Qed.

Lemma ctx_slots_ok : offsets_in CTX_SIZE ctx_slots /\ NoDup ctx_slots.*1 /\ NoDup ctx_slots.*2.
Proof.
  split; [|split; apply (bool_decide_unpack _); vm_compute; exact I].
  repeat (constructor; [split; [reflexivity|unfold CTX_SIZE; lia]|]). constructor.
Qed.
Lemma frame_slots_ok : offsets_in FRAME_SIZE frame_slots /\ NoDup frame_slots.*1 /\ NoDup frame_slots.*2.
Proof.
  split; [|split; apply (bool_decide_unpack _); vm_compute; exact I].
  apply Forall_forall. intros [r off] Hin. apply list_elem_of_fmap in Hin as (r' & [= -> ->] & _).
  destruct r'; cbn [Reg.pos]; (split; [reflexivity|unfold FRAME_SIZE; lia]).
Qed.
Lemma frame_slot r : (r, 8 * Reg.pos r) ∈ frame_slots.
Proof. apply (list_elem_of_fmap_2' _ _ r); [|done]. apply (bool_decide_unpack _). destruct r; vm_compute; exact I. Qed.
Lemma restored_slots_ok : offsets_in FRAME_SIZE restored_slots /\ NoDup restored_slots.*1 /\ Forall (fun '(r, _) => r <> sp) restored_slots.
Proof.
  split; [|split].
  - apply Forall_forall. intros p Hp. apply list_elem_of_filter in Hp as [_ Hp]. destruct frame_slots_ok as (H & _). by eapply Forall_forall in H.
  - apply (bool_decide_unpack _). vm_compute. exact I.
  - apply Forall_forall. intros [r off] Hp. apply list_elem_of_filter in Hp as [[? _] _]. done.
Qed.
Lemma restored_slot r : r <> sp -> r <> tp -> (r, 8 * Reg.pos r) ∈ restored_slots.
Proof. intros H1 H2. apply list_elem_of_filter. split; [done|apply frame_slot]. Qed.
Lemma restored_not r : r = sp \/ r = tp -> r ∉ restored_slots.*1.
Proof. intros Hr Hin. apply list_elem_of_fmap in Hin as ([r' off] & -> & Hin). apply list_elem_of_filter in Hin as [[? ?] _]. by destruct Hr. Qed.

Definition apart (a n b m : Z) : Prop := a + n <= b \/ b + m <= a.

(** What a switch does to registers and memory. *)
Record switched (c c' : cpu) : Prop := {
  sw_saved : forall r off, (r, off) ∈ ctx_slots -> words c' (regs c a0 + off) = regs c r;
  sw_loaded : forall r off, (r, off) ∈ ctx_slots -> regs c' r = words c (regs c a1 + off);
  sw_regs : forall r, r ∉ ctx_slots.*1 -> regs c' r = regs c r;
  sw_words : forall a, a < regs c a0 \/ regs c a0 + CTX_SIZE <= a -> words c' a = words c a;
  sw_csrs : csr_of c' = csr_of c;
}.

Lemma switch_context_run c : area (regs c a0) CTX_SIZE -> area (regs c a1) CTX_SIZE -> apart (regs c a0) CTX_SIZE (regs c a1) CTX_SIZE ->
  exists c', switch_context c = Some (c', words c (regs c a1)) /\ switched c c'.
Proof.
  intros Ho Hn Hd. destruct ctx_slots_ok as (Hoff & Hr & Hk). unfold switch_context. rewrite switch_context_shape, run_app.
  rewrite (run_saves a0 ctx_slots CTX_SIZE) by done. cbn [mbind option_bind].
  rewrite (run_loads a1 ctx_slots CTX_SIZE); [|done|done|repeat (constructor; [done|]); constructor].
  cbn [mbind option_bind regs words csr_of set_regs set_words].
  assert (Hout : forall r off, (r, off) ∈ ctx_slots -> saved (regs c a0) (regs c) ctx_slots (words c) (regs c a1 + off) = words c (regs c a1 + off)).
  { intros r off Hin. apply saved_out. intros r' off' Hin'. pose proof (proj1 (Forall_forall _ _) Hoff _ Hin) as [_ H1].
    pose proof (proj1 (Forall_forall _ _) Hoff _ Hin') as [_ H2]. unfold apart, CTX_SIZE in *. lia. }
  eexists. split.
  - f_equal. f_equal. rewrite (loaded_in _ _ _ _ ra 0) by (done || by left). rewrite (Hout ra 0) by by left. by rewrite Z.add_0_r.
  - split; cbn [regs words csr_of set_regs set_words]; [|..|done].
    + intros r off Hin. by apply saved_in.
    + intros r off Hin. rewrite (loaded_in _ _ _ _ r off) by done. by apply (Hout r).
    + intros r Hin. by apply loaded_out.
    + intros a Ha. apply saved_out. intros r off Hin. pose proof (proj1 (Forall_forall _ _) Hoff _ Hin) as [_ H1]. lia.
Qed.

Lemma kernel_vector_entered c : area (regs c sp - FRAME_SIZE) FRAME_SIZE ->
  exists c1, run kernel_vector_entry c = Some c1 /\ regs c1 sp = regs c sp - FRAME_SIZE /\ regs c1 a0 = regs c sp - FRAME_SIZE /\
    (forall r, words c1 (regs c1 a0 + 8 * Reg.pos r) = if decide (r = sp) then regs c sp - FRAME_SIZE else regs c r) /\
    (forall a, a < regs c sp - FRAME_SIZE \/ regs c sp <= a -> words c1 a = words c a) /\ csr_of c1 = csr_of c.
Proof.
  intros Ha. destruct frame_slots_ok as (Hoff & _ & Hk). rewrite kernel_vector_entry_shape. cbn [run exec_instr mbind option_bind].
  assert (Hw : wrap64 (regs c sp + -256) = regs c sp - FRAME_SIZE) by (destruct Ha as (_ & ? & ?); unfold FRAME_SIZE in *; apply Z.mod_small; lia).
  rewrite Hw, run_app. set (c0 := set_regs _ c). assert (Hsp : regs c0 sp = regs c sp - FRAME_SIZE) by apply fn_lookup_insert.
  rewrite (run_saves sp frame_slots FRAME_SIZE) by (done || by rewrite Hsp). cbn [mbind option_bind run exec_instr].
  eexists. split; [reflexivity|]. cbn [regs words csr_of set_regs set_words]. rewrite fn_lookup_insert, fn_lookup_insert_ne by done.
  cbn [regs set_words]. rewrite Hsp. split; [done|]. split; [done|]. split; [|split; [|done]].
  - intros r. rewrite (saved_in _ _ _ _ r) by (done || apply frame_slot). case_decide as Hr; [by subst r|by apply fn_lookup_insert_ne].
  - intros a Hout. apply saved_out. intros r off Hin. pose proof (proj1 (Forall_forall _ _) Hoff _ Hin) as [_ H1]. lia.
Qed.

Lemma kernel_vector_left c b : regs c sp = b -> area b FRAME_SIZE -> b + FRAME_SIZE < U64 ->
  exists c', run kernel_vector_exit c = Some c' /\ regs c' sp = b + FRAME_SIZE /\ regs c' tp = regs c tp /\
    (forall r, r <> sp -> r <> tp -> regs c' r = words c (b + 8 * Reg.pos r)) /\ words c' = words c /\ csr_of c' = csr_of c.
Proof.
  intros Hsp Ha Htop. destruct restored_slots_ok as (Hoff & Hr & Hb). rewrite kernel_vector_exit_shape, run_app.
  rewrite (run_loads sp restored_slots FRAME_SIZE) by (done || by rewrite Hsp). cbn [mbind option_bind run exec_instr].
  eexists. split; [reflexivity|]. cbn [regs words csr_of set_regs set_words]. rewrite fn_lookup_insert, fn_lookup_insert_ne by done.
  rewrite !loaded_out by (apply restored_not; auto). rewrite Hsp. split_and!; [|done| |done|done].
  - apply Z.mod_small. destruct Ha as (_ & ? & _). unfold FRAME_SIZE in *. lia.
  - intros r H1 H2. rewrite fn_lookup_insert_ne by done. apply loaded_in; [done|]. by apply restored_slot.
Qed.

(** ** The boot stacks *)

Ltac regs_simp := repeat (rewrite fn_lookup_insert || rewrite fn_lookup_insert_ne by done).

Lemma hart_entry_run top c : 0 <= regs c a0 < U64 -> MAX_BOOT_HARTS * BOOT_STACK_SIZE <= top < U64 ->
  exists c', hart_entry top c = Some c' /\ regs c' tp = regs c a0 /\ regs c' a0 = regs c a0 /\ regs c' a1 = regs c a1 /\ csr_of c' c_sie = 0 /\
    regs c' sp = if regs c a0 <? MAX_BOOT_HARTS then top - BOOT_STACK_SIZE * regs c a0 else top.
Proof.
  intros Hh Ht. unfold hart_entry. cbn [run exec_instr mbind option_bind].
  assert (Hw : wrap64 top = top /\ wrap64 BOOT_STACK_SIZE = BOOT_STACK_SIZE /\ wrap64 MAX_BOOT_HARTS = MAX_BOOT_HARTS).
  { split; [|done]. apply Z.mod_small. unfold MAX_BOOT_HARTS, BOOT_STACK_SIZE in Ht. lia. }
  destruct Hw as (H1 & H2 & H3). rewrite H1, H2, H3. cbn [regs set_regs set_csr csr_of].
  regs_simp. unfold MAX_BOOT_HARTS in *. destruct (Z.leb_spec 8 (regs c a0)) as [Hge|Hlt].
  - rewrite (proj2 (Z.ltb_ge _ _)) by lia. eexists. split; [reflexivity|]. cbn [regs set_regs set_csr csr_of]. done.
  - rewrite (proj2 (Z.ltb_lt _ _)) by lia. eexists. split; [reflexivity|]. cbn [regs set_regs set_csr csr_of]. split_and!; try done.
    regs_simp. unfold wrap64, BOOT_STACK_SIZE in *. clear H1 H2 H3.
    rewrite (Z.mod_small (65536 * regs c a0)) by (unfold U64; lia). apply Z.mod_small. lia.
Qed.

(** ** Properties *)

(** C21: A context switch resumes what it suspended: after [switch_context]
    from context [old], and whatever runs until a later switch back to [old]
    that leaves its words alone, control returns to the address the first
    switch was to return to, with the stack pointer and every callee-saved
    register as they were at the first switch. *)
Theorem switch_context_roundtrip c c2 old :
  regs c a0 = old -> regs c2 a1 = old ->
  area old CTX_SIZE -> area (regs c a1) CTX_SIZE -> apart old CTX_SIZE (regs c a1) CTX_SIZE ->
  area (regs c2 a0) CTX_SIZE -> apart (regs c2 a0) CTX_SIZE old CTX_SIZE ->
  exists c1 pc1, switch_context c = Some (c1, pc1) /\ switched c c1 /\
    ((forall r off, (r, off) ∈ ctx_slots -> words c2 (old + off) = words c1 (old + off)) ->
     exists c3, switch_context c2 = Some (c3, regs c ra) /\ forall r, r ∈ ctx_slots.*1 -> regs c3 r = regs c r).
Proof.
  intros <- H2 A1 A2 A3 A4 A5. destruct (switch_context_run c A1 A2 A3) as (c1 & E1 & S1). exists c1, (words c (regs c a1)).
  split; [done|]. split; [done|]. intros Hkeep.
  assert (Hw : forall r off, (r, off) ∈ ctx_slots -> words c2 (regs c a0 + off) = regs c r).
  { intros r off Hin. rewrite (Hkeep r off Hin). by apply S1. }
  destruct (switch_context_run c2) as (c3 & E3 & S3); [done|by rewrite H2|by rewrite H2|]. exists c3. split.
  - rewrite E3, H2. f_equal. f_equal. rewrite <-(Hw ra 0), Z.add_0_r by by left. done.
  - intros r Hr. apply list_elem_of_fmap in Hr as ([r' off] & -> & Hin). cbn [fst]. rewrite (sw_loaded _ _ S3 _ _ Hin), H2. by apply Hw.
Qed.

(** Two contexts a page apart; the second run starts in the other one. *)
Definition demo_cpu (from to : Z) (m : Z -> Z) : cpu := mkCpu (fun r => if decide (r = a0) then from else if decide (r = a1) then to else 8 * Reg.pos r) m (fun _ => 0).
Lemma switch_context_roundtrip_witness : let c := demo_cpu 4096 8192 (fun _ => 7) in
  exists c3, switch_context (demo_cpu 8192 4096 (saved 4096 (regs c) ctx_slots (words c))) = Some (c3, regs c ra) /\
    forall r, r ∈ ctx_slots.*1 -> regs c3 r = regs c r.
Proof.
  intros c. destruct (switch_context_roundtrip c (demo_cpu 8192 4096 (saved 4096 (regs c) ctx_slots (words c))) 4096) as (c1 & pc1 & _ & S1 & H);
    try first [reflexivity|split; [reflexivity|vm_compute; split; discriminate]|right; vm_compute; discriminate|left; vm_compute; discriminate].
  apply H. intros r off Hin. symmetry. etransitivity; [exact (sw_saved _ _ S1 r off Hin)|]. symmetry. apply saved_in; [apply ctx_slots_ok|exact Hin].
Defined.

(** C32: A trap taken in the kernel is transparent to the code it interrupts.
    [kernel_vector] calls the handler with the address of a frame below the
    interrupted stack whose words are the interrupted registers, except that
    the word for [sp] is the lowered one, the frame's own address, 256 below
    the interrupted [sp]; no word outside the frame changes. When the handler
    returns with the stack pointer it was given and the frame as it was, every
    register but [tp], [sp] included, has its value from before the trap when
    [sret] is reached, and [tp] the value the handler left. *)
Theorem kernel_vector_correct handler c :
  area (regs c sp - FRAME_SIZE) FRAME_SIZE -> regs c sp < U64 ->
  exists c1, run kernel_vector_entry c = Some c1 /\ regs c1 a0 = regs c sp - FRAME_SIZE /\
    (forall r, words c1 (regs c1 a0 + 8 * Reg.pos r) = if decide (r = sp) then regs c sp - FRAME_SIZE else regs c r) /\
    (forall a, a < regs c sp - FRAME_SIZE \/ regs c sp <= a -> words c1 a = words c a) /\
    (forall c2, handler c1 = Some c2 -> regs c2 sp = regs c1 sp ->
       (forall r, words c2 (regs c1 sp + 8 * Reg.pos r) = words c1 (regs c1 sp + 8 * Reg.pos r)) ->
       exists c', kernel_vector handler c = Some c' /\ (forall r, r <> tp -> regs c' r = regs c r) /\ regs c' tp = regs c2 tp).
Proof.
  intros Ha Htop. destruct (kernel_vector_entered c Ha) as (c1 & E1 & Hsp & Ha0 & Hfr & Hout & _). exists c1. split_and!; [done..|].
  intros c2 E2 Hsp2 Hkeep. destruct (kernel_vector_left c2 (regs c sp - FRAME_SIZE)) as (c' & E3 & S1 & S2 & S3 & _); [by rewrite Hsp2|done|unfold FRAME_SIZE; lia|].
  exists c'. unfold kernel_vector. rewrite E1. cbn [mbind option_bind]. rewrite E2. cbn [mbind option_bind]. split; [done|]. split; [|done].
  intros r Hr. destruct (decide (r = sp)) as [->|Hne]; [rewrite S1; lia|]. rewrite S3 by done.
  rewrite <-Hsp, Hkeep, Hsp, <-Ha0, Hfr. by rewrite decide_False.
Qed.

Lemma kernel_vector_correct_witness : let c := demo_cpu 1 2 (fun _ => 5) in let c0 := set_regs (fun r => <[sp := 4096]> r) c in
  exists c1, run kernel_vector_entry c0 = Some c1 /\ regs c1 a0 = regs c0 sp - FRAME_SIZE /\
    (forall r, words c1 (regs c1 a0 + 8 * Reg.pos r) = if decide (r = sp) then regs c0 sp - FRAME_SIZE else regs c0 r) /\
    (forall a, a < regs c0 sp - FRAME_SIZE \/ regs c0 sp <= a -> words c1 a = words c0 a) /\
    (forall c2, Some c1 = Some c2 -> regs c2 sp = regs c1 sp ->
       (forall r, words c2 (regs c1 sp + 8 * Reg.pos r) = words c1 (regs c1 sp + 8 * Reg.pos r)) ->
       exists c', kernel_vector Some c0 = Some c' /\ (forall r, r <> tp -> regs c' r = regs c0 r) /\ regs c' tp = regs c2 tp).
Proof.
  apply (kernel_vector_correct Some (set_regs (fun r => <[sp := 4096]> r) (demo_cpu 1 2 (fun _ => 5))));
    [split; [reflexivity|vm_compute; split; discriminate]|vm_compute; reflexivity].
Defined.

(** The harts the boot code has stacks for start on stacks of their own:
    the 64 KiB below each hart's stack pointer lie in the boot stack area and
    no two overlap; the hart number is in [tp] and its interrupts are off. *)
Theorem boot_stacks_disjoint top h h' c c' :
  MAX_BOOT_HARTS * BOOT_STACK_SIZE <= top < U64 -> 0 <= h < MAX_BOOT_HARTS -> 0 <= h' < MAX_BOOT_HARTS -> h <> h' ->
  regs c a0 = h -> regs c' a0 = h' ->
  exists d d', hart_entry top c = Some d /\ hart_entry top c' = Some d' /\
    regs d tp = h /\ csr_of d c_sie = 0 /\
    apart (regs d sp - BOOT_STACK_SIZE) BOOT_STACK_SIZE (regs d' sp - BOOT_STACK_SIZE) BOOT_STACK_SIZE /\
    top - MAX_BOOT_HARTS * BOOT_STACK_SIZE <= regs d sp - BOOT_STACK_SIZE /\ regs d sp <= top.
Proof.
  intros Ht Hh Hh' Hne <- <-. assert (HU : MAX_BOOT_HARTS < U64) by done.
  destruct (hart_entry_run top c) as (d & E & T & _ & _ & I & S); [lia|done|]. destruct (hart_entry_run top c') as (d' & E' & _ & _ & _ & _ & S'); [lia|done|].
  exists d, d'. split_and!; [done..| | |]; rewrite ?S, ?S', ?(proj2 (Z.ltb_lt _ _)) by lia; unfold apart, MAX_BOOT_HARTS, BOOT_STACK_SIZE in *; lia.
Qed.

Lemma boot_stacks_disjoint_witness : let c := demo_cpu 0 0 (fun _ => 0) in let c' := demo_cpu 7 0 (fun _ => 0) in
  exists d d', hart_entry 0x80300000 c = Some d /\ hart_entry 0x80300000 c' = Some d' /\
    regs d tp = 0 /\ csr_of d c_sie = 0 /\
    apart (regs d sp - BOOT_STACK_SIZE) BOOT_STACK_SIZE (regs d' sp - BOOT_STACK_SIZE) BOOT_STACK_SIZE /\
    0x80300000 - MAX_BOOT_HARTS * BOOT_STACK_SIZE <= regs d sp - BOOT_STACK_SIZE /\ regs d sp <= 0x80300000.
Proof.
  apply (boot_stacks_disjoint 0x80300000 0 7); [vm_compute; split; [discriminate|reflexivity]|vm_compute; split; [discriminate|reflexivity]|
    vm_compute; split; [discriminate|reflexivity]|discriminate|reflexivity|reflexivity].
Defined.

(** A hart past the eighth starts on the stack of hart 0. *)
Theorem late_hart_shares_stack top h c c' : MAX_BOOT_HARTS * BOOT_STACK_SIZE <= top < U64 -> MAX_BOOT_HARTS <= h < U64 ->
  regs c a0 = 0 -> regs c' a0 = h ->
  exists d d', hart_entry top c = Some d /\ hart_entry top c' = Some d' /\ regs d' sp = regs d sp.
Proof.
  intros Ht Hh Hc <-. destruct (hart_entry_run top c) as (d & E & _ & _ & _ & _ & S); [rewrite Hc; done|done|].
  destruct (hart_entry_run top c') as (d' & E' & _ & _ & _ & _ & S'); [unfold MAX_BOOT_HARTS in Hh; lia|done|].
  exists d, d'. split_and!; [done..|]. rewrite S, S', Hc, (proj2 (Z.ltb_ge _ _)) by lia. change (0 <? MAX_BOOT_HARTS) with true. cbv iota. lia.
Qed.

(** [enter_proc] goes to user mode at the entry, on the given stack. *)
Theorem enter_proc_correct c : exists c', enter_proc c = Some (c', (regs c a0, false)) /\ regs c' sp = regs c a1 /\ words c' = words c /\
  Z.testbit (csr_of c' c_sstatus) SSTATUS_SUM = true.
Proof.
  unfold enter_proc. cbn [run enter_proc_body exec_instr mbind option_bind regs words csr_of set_regs set_csr]. eexists. split.
  - refine (f_equal Some (f_equal2 pair eq_refl (f_equal2 pair _ _))); cbn [csr_of set_regs set_csr]; regs_simp; [done|]. change (wrap64 (Z.shiftl 1 SSTATUS_SPP)) with 256. change (wrap64 (Z.shiftl 1 SSTATUS_SUM)) with 262144.
    by rewrite Z.lor_spec, Z.ldiff_spec, andb_false_r.
  - cbn [regs words csr_of set_regs set_csr]. regs_simp. split; [done|]. split; [done|].
    change (wrap64 (Z.shiftl 1 SSTATUS_SUM)) with (2 ^ SSTATUS_SUM). rewrite Z.lor_spec, Z.pow2_bits_true by done. apply orb_true_r.
Qed.

Ltac words_simp := repeat (rewrite fn_lookup_insert || rewrite fn_lookup_insert_ne by (done || lia)).

(** The machine-mode timer interrupt leaves the interrupted program as it
    was: every register and [mscratch] keep their values, the timer compare
    register moves on by the interval, a supervisor software interrupt is made
    pending, and of memory only the three save slots of the scratch area and
    the compare register change. *)
Theorem timer_vector_correct c p cmp :
  csr_of c c_mscratch = p -> words c (p + 24) = cmp -> area p 40 -> area cmp 8 -> apart p 40 cmp 8 ->
  exists c', run timer_vector c = Some c' /\ (forall r, regs c' r = regs c r) /\ csr_of c' c_mscratch = p /\
    words c' cmp = wrap64 (words c cmp + words c (p + 32)) /\ csr_of c' c_mip = Z.lor (csr_of c c_mip) 2 /\
    forall a, a <> p -> a <> p + 8 -> a <> p + 16 -> a <> cmp -> words c' a = words c a.
Proof.
  intros Hp Hcmp Ha Hc Hd. unfold apart in Hd.
  destruct (area_word p 40 0 Ha) as [E0 A0]; [done|lia|]. destruct (area_word p 40 8 Ha) as [E1 A1]; [done|lia|].
  destruct (area_word p 40 16 Ha) as [E2 A2]; [done|lia|]. destruct (area_word p 40 24 Ha) as [E3 A3]; [done|lia|].
  destruct (area_word p 40 32 Ha) as [E4 A4]; [done|lia|]. destruct (area_word cmp 8 0 Hc) as [E5 A5]; [done|lia|].
  rewrite Z.add_0_r in E0, E5, A0, A5. unfold timer_vector.
  repeat (cbn [run exec_instr mbind option_bind regs words csr_of set_regs set_words set_csr]; words_simp;
    rewrite ?Z.add_0_r, ?Hp, ?E0, ?A0, ?E1, ?A1, ?E2, ?A2, ?E3, ?A3, ?E4, ?A4, ?Hcmp, ?E5, ?A5).
  eexists. split; [reflexivity|]. cbn [regs words csr_of set_regs set_words set_csr].
  split; [intros r; destruct r; by words_simp|]. words_simp. split; [done|]. split; [done|]. split; [done|].
  intros a ? ? ? ?. by rewrite !fn_lookup_insert_ne by lia.
Qed.
