(* ===== verification/Boot.v ===== *)
(** * Boot ([init/mod.rs], [init/hart.rs], [main.rs], [sbi.rs], [hart.rs])

    Every hart runs [init]: the global parts behind a [spin::Once] each, the
    others per hart. The harts run at the same time, so a run is a sequence of
    steps of harts; a hart that finds a [Once] running spins, which is not a
    step. What each part does is the subject of its own file; here it is an
    event, or a panic of the hart that runs it ([returns]), and the theorems
    are about the order of events. *)
From stdpp Require Import functions relations.
From S2P Require Import Prelude Machine.

(** ** Firmware calls *)

(** [sbi::set_timer] and [sbi_hart_start], on the firmware's answer *)
Definition sbi_result (err : Z) : result unit Z := if err =? 0 then Ok tt else Err err.

(** ** What the harts share *)

(** The guards of [init/mod.rs] *)
Inductive task := DTB_INIT | UART_INIT | PMEM_INIT | IRQ_INIT | VM_INIT | FS_INIT.
#[export] Instance task_eq_dec : EqDecision task.
Proof. solve_decision. Defined.

(** [spin::Once] *)
Inductive once := Incomplete | Running (h : nat) | Complete.

(** The steps of [init], in order *)
Inductive action := CallOnce (t : task) | InitHart | SwitchToKernel | EnableHart | BootstrapSecondaryHarts.
#[export] Instance action_eq_dec : EqDecision action.
Proof. solve_decision. Defined.

Definition init : list action :=
  [CallOnce DTB_INIT; CallOnce UART_INIT; CallOnce PMEM_INIT; CallOnce IRQ_INIT; InitHart;
   CallOnce VM_INIT; SwitchToKernel; CallOnce FS_INIT; EnableHart; BootstrapSecondaryHarts].

(** What a hart does: not started; in [init] with actions left; in the loop of
    [bootstrap_secondary_harts] with targets left; through; panicked. *)
Inductive phase := Off | InInit (rest : list action) | InStart (targets : list nat) | Up | Panicked.

Inductive event := Ran (t : task) (h : nat) | HartInitialised (h : nat) | Switched (h : nat) | Enabled (h : nat) | Started (h : nat).

Record bstate := mkB {
  guards : task -> once;
  bootstrap_done : bool;
  phases : nat -> phase;
  enabled : nat -> bool;       (** [HARTS[h].enabled] *)
  log : list event;            (** what has happened, oldest first *)
}.
Definition set_guard t x s := mkB (<[t := x]> (guards s)) (bootstrap_done s) (phases s) (enabled s) (log s).
Definition set_done s := mkB (guards s) true (phases s) (enabled s) (log s).
Definition set_phase h x s := mkB (guards s) (bootstrap_done s) (<[h := x]> (phases s)) (enabled s) (log s).
Definition enable_hart h s := mkB (guards s) (bootstrap_done s) (phases s) (<[h := true]> (enabled s)) (log s).
Definition emit e s := mkB (guards s) (bootstrap_done s) (phases s) (enabled s) (log s ++ [e]).

Section boot.
(** [dtb::hart_count()], the firmware's answer to the start of a hart, and
    which of the global parts return when they are run; the others panic. *)
Context (harts : nat) (sbi_hart_start : nat -> Z) (returns : task -> bool).

(** [match sbi_hart_start(target, ..)]: a started hart enters at
    [secondary_start], which runs [init]. *)
Definition start_hart (target : nat) (s : bstate) : bstate :=
  match sbi_result (sbi_hart_start target) with
  | Ok _ => emit (Started target) (set_phase target (InInit init) s)
  | Err _ => s
  end.

(** The next step of hart [h]; [None] when it has none or spins. A panic does not
    unwind, so the guard of a part that panics stays taken. The parts of a single
    hart panic only for a hart number past the table or without a PLIC, and
    without one [IRQ_INIT] has panicked before. *)
Definition hart_step (h : nat) (s : bstate) : option bstate :=
  match phases s h with
  | Off | Up | Panicked => None
  | InInit [] => Some (set_phase h Up s)
  | InInit (a :: rest) =>
      let next := set_phase h (InInit rest) in
      match a with
      | CallOnce t =>
          match guards s t with
          | Incomplete => Some (set_guard t (Running h) s)
          | Running h' => 
              if decide (h' = h) then
                if returns t then Some (next (emit (Ran t h) (set_guard t Complete s))) else Some (set_phase h Panicked s)
              else None
          | Complete => Some (next s)
          end
      | InitHart => Some (next (emit (HartInitialised h) s))
      | SwitchToKernel => Some (next (emit (Switched h) s))
      | EnableHart =>
          if decide (Z.of_nat h < MAX_HARTS) then Some (next (emit (Enabled h) (enable_hart h s)))
          else Some (set_phase h Panicked s)
      | BootstrapSecondaryHarts =>
          if bootstrap_done s then Some (next s)
          else Some (set_phase h (InStart (seq 0 harts)) (set_done s))
      end
  | InStart [] => Some (set_phase h Up s)
  | InStart (target :: targets) =>
      let next := set_phase h (InStart targets) in
      if decide (target = h) then Some (next s) else Some (start_hart target (next s))
  end.

(** Hart [boot] comes from the firmware. *)
Definition power_on (boot : nat) : bstate :=
  mkB (fun _ => Incomplete) false (<[boot := InInit init]> (fun _ => Off)) (fun _ => false) [].

Inductive step (s : bstate) : bstate -> Prop := step_hart h s' : hart_step h s = Some s' -> step s s'.

(** A schedule names the hart to move; one that cannot move spins. *)
Fixpoint run_schedule (sched : list nat) (s : bstate) : bstate :=
  match sched with
  | [] => s
  | h :: sched => run_schedule sched (default s (hart_step h s))
  end.

Lemma run_schedule_rtc sched s : rtc step s (run_schedule sched s).
Proof.
  revert s. induction sched as [|h sched IH]; intros s; [done|]. cbn [run_schedule].
  destruct (hart_step h s) as [s'|] eqn:E; cbn [default]; [|apply IH]. eapply rtc_l; [by econstructor|apply IH].
Qed.

(** ** The order of events *)

Definition order : list task := [DTB_INIT; UART_INIT; PMEM_INIT; IRQ_INIT; VM_INIT; FS_INIT].
Definition idx (t : task) : nat := match t with DTB_INIT => 0 | UART_INIT => 1 | PMEM_INIT => 2 | IRQ_INIT => 3 | VM_INIT => 4 | FS_INIT => 5 end.
Definition ran (l : list event) : list task := omap (fun e => match e with Ran t _ => Some t | _ => None end) l.
(** The global parts an event relies on *)
Definition needs (e : event) : list task :=
  match e with
  | Ran t _ => take (idx t) order
  | HartInitialised _ => take 4 order
  | Switched _ => take 5 order
  | Enabled _ | Started _ => order
  end.
(** and those an action of [init] comes after *)
Definition before (a : action) : list task :=
  match a with
  | CallOnce t => take (idx t) order
  | InitHart => take 4 order
  | SwitchToKernel => take 5 order
  | EnableHart | BootstrapSecondaryHarts => order
  end.

Lemma elem_of_order k t : t ∈ take k order <-> (idx t < k)%nat.
Proof.
  do 6 (destruct k as [|k]; [destruct t; apply (bool_decide_unpack _); exact I|]). rewrite take_ge by (cbn; lia).
  destruct t; cbn [idx]; (split; [lia|intros _; apply (bool_decide_unpack _); exact I]).
Qed.
Lemma idx_surj k : (k < 6)%nat -> exists t, idx t = k.
Proof.
  intros Hk. destruct k as [|[|[|[|[|[|k]]]]]]; [by exists DTB_INIT|by exists UART_INIT|by exists PMEM_INIT|by exists IRQ_INIT|by exists VM_INIT|by exists FS_INIT|lia].
Qed.
Lemma take_order t : take (S (idx t)) order = take (idx t) order ++ [t].
Proof. by destruct t. Qed.

Lemma init_at n a rest : drop n init = a :: rest ->
  rest = drop (S n) init /\ take (S n) init = take n init ++ [a] /\ forall t, t ∈ before a -> CallOnce t ∈ take n init.
Proof.
  intros H. do 10 (destruct n as [|n]; [injection H as <- <-; split; [done|]; split; [done|]; intros t; cbn; set_solver|]). by destruct n.
Qed.
Lemma init_end n : drop n init = [] -> forall t, CallOnce t ∈ take n init.
Proof. intros H t. do 10 (destruct n as [|n]; [done|]). destruct t; cbn; set_solver. Qed.

(** ** The invariant *)

Record inv (boot : nat) (s : bstate) : Prop := {
  i_log : exists k, ran (log s) = take k order /\ forall t, guards s t = Complete <-> (idx t < k)%nat;
  i_running : forall t h, guards s t = Running h -> (exists rest, phases s h = InInit (CallOnce t :: rest)) \/ phases s h = Panicked /\ returns t = false;
  i_returns : forall t, guards s t = Complete -> returns t = true;
  i_pos : forall h rest, phases s h = InInit rest -> exists n, rest = drop n init /\ forall t, CallOnce t ∈ take n init -> guards s t = Complete;
  i_past : forall h, phases s h = Up \/ (exists ts, phases s h = InStart ts) -> forall t, guards s t = Complete;
  i_events : forall l1 e l2, log s = l1 ++ e :: l2 -> needs e ⊆ ran l1;
  i_alone : bootstrap_done s = false -> forall h, h <> boot -> phases s h = Off;
  i_start : forall h ts, phases s h = InStart ts -> h = boot /\ bootstrap_done s = true /\ NoDup ts /\ forall t, t ∈ ts -> t <> boot -> phases s t = Off;
}.

(** A phase hart [h] may be in, with the guards of [s]. *)
Definition may_be (boot : nat) (s : bstate) (h : nat) (x : phase) : Prop :=
  match x with
  | Off => False
  | InInit rest => exists n, rest = drop n init /\ forall t, CallOnce t ∈ take n init -> guards s t = Complete
  | InStart ts => (forall t, guards s t = Complete) /\ h = boot /\ bootstrap_done s = true /\ NoDup ts /\ forall t, t ∈ ts -> t <> boot -> phases s t = Off
  | Up => forall t, guards s t = Complete
  | Panicked => True
  end.

Lemma inv_phase boot s h x : inv boot s -> (forall t, guards s t <> Running h) -> may_be boot s h x ->
  (phases s h = Off -> bootstrap_done s = true /\ h <> boot /\ forall h' ts, phases s h' = InStart ts -> h ∉ ts) -> inv boot (set_phase h x s).
Proof.
  intros [I1 I2 I8 I3 I4 I5 I6 I7] Hnr Hx Hoff. split; cbn [guards log phases bootstrap_done set_phase]; [done| |done| | |done| |].
  - intros t h' Hr. destruct (decide (h' = h)) as [->|Hne]; [by apply Hnr in Hr|]. rewrite fn_lookup_insert_ne by done. by apply I2.
  - intros h' rest. destruct (decide (h' = h)) as [->|Hne].
    + rewrite fn_lookup_insert. by intros ->.
    + rewrite fn_lookup_insert_ne by done. apply I3.
  - intros h'. destruct (decide (h' = h)) as [->|Hne].
    + rewrite fn_lookup_insert. intros [->|[ts ->]]; [exact Hx|apply Hx].
    + rewrite fn_lookup_insert_ne by done. apply I4.
  - intros Hd h' Hb. destruct (decide (h' = h)) as [->|Hne]; [|rewrite fn_lookup_insert_ne by done; by apply I6].
    specialize (I6 Hd h Hb). destruct (Hoff I6). congruence.
  - intros h' ts. destruct (decide (h' = h)) as [->|Hne].
    + rewrite fn_lookup_insert. intros ->. destruct Hx as (_ & -> & Hd & Hnd & Hts). split; [done|]. split; [done|]. split; [done|]. intros t Ht Hb.
      rewrite fn_lookup_insert_ne by done. by apply Hts.
    + rewrite fn_lookup_insert_ne by done. intros E. destruct (I7 _ _ E) as (-> & Hd & Hnd & Hts). split; [done|]. split; [done|]. split; [done|]. intros t Ht Hb.
      pose proof (Hts t Ht Hb) as Ho. destruct (decide (t = h)) as [->|Hth]; [|by rewrite fn_lookup_insert_ne]. destruct (Hoff Ho) as (_ & _ & Hni). by destruct (Hni _ _ E).
Qed.

Lemma inv_emit boot s e : inv boot s -> needs e ⊆ ran (log s) -> (forall t h, e <> Ran t h) -> inv boot (emit e s).
Proof.
  intros [I1 I2 I8 I3 I4 I5 I6 I7] Hn He. split; cbn [guards log phases bootstrap_done emit]; try done.
  - destruct I1 as (k & Hk & Hg). exists k. split; [|done]. unfold ran. rewrite omap_app. fold (ran (log s)). rewrite Hk. destruct e; cbn; rewrite ?app_nil_r; [|done..].
    by destruct (He t h).
  - intros l1 e' l2 Heq. destruct l2 as [|x l2 _] using rev_ind.
    + by apply app_inj_tail in Heq as [<- <-].
    + rewrite app_comm_cons, app_assoc in Heq. apply app_inj_tail in Heq as [Heq _]. by eapply I5.
Qed.

Lemma inv_same boot s s' : guards s' = guards s -> bootstrap_done s' = bootstrap_done s -> phases s' = phases s -> log s' = log s -> inv boot s -> inv boot s'.
Proof. intros E1 E2 E3 E4 [I1 I2 I8 I3 I4 I5 I6 I7]. split; rewrite ?E1, ?E2, ?E3, ?E4; done. Qed.

Lemma inv_begin boot s h t rest : inv boot s -> phases s h = InInit (CallOnce t :: rest) -> guards s t = Incomplete -> inv boot (set_guard t (Running h) s).
Proof.
  intros [I1 I2 I8 I3 I4 I5 I6 I7] Hp Hg.
  assert (Hc : forall t', <[t := Running h]> (guards s) t' = Complete <-> guards s t' = Complete).
  { intros t'. destruct (decide (t' = t)) as [->|Hne]; [by rewrite fn_lookup_insert, Hg|by rewrite fn_lookup_insert_ne]. }
  split; cbn [guards log phases bootstrap_done set_guard]; try done.
  - destruct I1 as (k & Hk & Hg'). exists k. split; [done|]. intros t'. by rewrite Hc.
  - intros t' h'. destruct (decide (t' = t)) as [->|Hne]; [rewrite fn_lookup_insert; intros [= <-]; eauto|rewrite fn_lookup_insert_ne by done; apply I2].
  - intros t' Ht. apply I8. by apply Hc.
  - intros h' rest' E. destruct (I3 _ _ E) as (n & -> & Hn). exists n. split; [done|]. intros t' Ht. apply Hc. by apply Hn.
  - intros h' E t'. apply Hc. by eapply I4.
Qed.

(** The part panics: its guard stays taken. *)
Lemma inv_panic boot s h t rest : inv boot s -> phases s h = InInit (CallOnce t :: rest) -> guards s t = Running h -> returns t = false ->
  inv boot (set_phase h Panicked s).
Proof.
  intros [I1 I2 I8 I3 I4 I5 I6 I7] Hp Hg Hret.
  assert (Hph : forall h', <[h := Panicked]> (phases s) h' = if decide (h' = h) then Panicked else phases s h').
  { intros h'. case_decide as Hh; [subst; apply fn_lookup_insert|by apply fn_lookup_insert_ne]. }
  split; cbn [guards log phases bootstrap_done set_phase]; [done| |done| | |done| |].
  - intros t' h' Hr. rewrite Hph. case_decide as Hh; [|by apply I2]. subst h'. right. split; [done|].
    destruct (I2 _ _ Hr) as [[rest' E]|[E _]]; rewrite Hp in E; [|done]. by injection E as <- _.
  - intros h' rest'. rewrite Hph. case_decide; [done|apply I3].
  - intros h'. rewrite Hph. case_decide; [by intros [?|[ts ?]]|apply I4].
  - intros Hd h' Hb. rewrite Hph. case_decide as Hh; [|by apply I6]. subst h'. rewrite (I6 Hd h Hb) in Hp. done.
  - intros h' ts. rewrite Hph. case_decide as Hh; [done|]. intros E. destruct (I7 _ _ E) as (-> & Hd & Hnd & Hts). split_and!; [done..|].
    intros t' Ht Hb. rewrite Hph. case_decide as Hh'; [|by apply Hts]. subst t'. rewrite (Hts h Ht Hb) in Hp. done.
Qed.

(** The hart that runs a part finds all earlier ones complete, so it is the next. *)
Lemma inv_ran boot s h t rest : inv boot s -> phases s h = InInit (CallOnce t :: rest) -> guards s t = Running h -> returns t = true ->
  inv boot (emit (Ran t h) (set_guard t Complete s)).
Proof.
  intros [I1 I2 I8 I3 I4 I5 I6 I7] Hp Hg Hret. destruct I1 as (k & Hk & Hg').
  destruct (I3 _ _ Hp) as (n & Hn & Hcomp). destruct (init_at n (CallOnce t) rest (eq_sym Hn)) as (_ & _ & Hbef).
  assert (Hidx : k = idx t).
  { assert (~ (idx t < k)%nat) by (rewrite <-Hg', Hg; done). destruct (decide (k = idx t)) as [|Hne]; [done|]. exfalso.
    assert (Ho : exists t', idx t' = k) by (apply idx_surj; destruct t; cbn [idx] in *; lia).
    destruct Ho as [t' Ht']. assert (Hin : t' ∈ before (CallOnce t)) by (apply elem_of_order; lia). apply Hbef, Hcomp, Hg' in Hin. lia. }
  subst k. assert (Hc : forall t', guards s t' = Complete -> <[t := Complete]> (guards s) t' = Complete).
  { intros t' Ht'. destruct (decide (t' = t)) as [->|Hne]; [by rewrite fn_lookup_insert|by rewrite fn_lookup_insert_ne]. }
  split; cbn [guards log phases bootstrap_done emit set_guard]; try done.
  - exists (S (idx t)). split; [unfold ran; rewrite omap_app; fold (ran (log s)); by rewrite Hk, take_order|]. intros t'.
    destruct (decide (t' = t)) as [->|Hne]; [rewrite fn_lookup_insert; split; [lia|done]|]. rewrite fn_lookup_insert_ne, Hg' by done.
    assert (idx t' <> idx t) by (intros E; apply Hne; destruct t, t'; done). lia.
  - intros t' h'. destruct (decide (t' = t)) as [->|Hne]; [by rewrite fn_lookup_insert|rewrite fn_lookup_insert_ne by done; apply I2].
  - intros t'. destruct (decide (t' = t)) as [->|Hne]; [done|rewrite fn_lookup_insert_ne by done; apply I8].
  - intros h' rest' E. destruct (I3 _ _ E) as (n' & -> & Hn'). exists n'. split; [done|]. intros t' Ht. by apply Hc, Hn'.
  - intros h' E t'. apply Hc. by eapply I4.
  - intros l1 e' l2 Heq. destruct l2 as [|x l2 _] using rev_ind.
    + apply app_inj_tail in Heq as [<- <-]. cbn [needs]. by rewrite Hk.
    + rewrite app_comm_cons, app_assoc in Heq. apply app_inj_tail in Heq as [Heq _]. by eapply I5.
Qed.

(** The hart goes on to the next action of [init]. *)
Lemma inv_next boot s h a rest : inv boot s -> phases s h = InInit (a :: rest) -> (forall t, a = CallOnce t -> guards s t = Complete) ->
  inv boot (set_phase h (InInit rest) s).
Proof.
  intros Hi Hp Ha. apply inv_phase; [done| | |congruence].
  - intros t Hr. destruct (i_running _ _ Hi _ _ Hr) as [[rest' E]|[E _]]; rewrite Hp in E; [|done]. injection E as -> _. specialize (Ha t eq_refl). congruence.
  - destruct (i_pos _ _ Hi _ _ Hp) as (n & Hn & Hc). destruct (init_at n a rest (eq_sym Hn)) as (-> & Ht & _). exists (S n). split; [done|].
    intros t. rewrite Ht, elem_of_app, list_elem_of_singleton. intros [Hin|Heq]; [by apply Hc|by apply Ha].
Qed.

Lemma inv_needs boot s h a rest : inv boot s -> phases s h = InInit (a :: rest) -> before a ⊆ ran (log s).
Proof.
  intros Hi Hp t Ht. destruct (i_pos _ _ Hi _ _ Hp) as (n & Hn & Hc). destruct (init_at n a rest (eq_sym Hn)) as (_ & _ & Hb).
  destruct (i_log _ _ Hi) as (k & -> & Hg). apply elem_of_order, Hg. by apply Hc, Hb.
Qed.

Lemma inv_not_running boot s h x : inv boot s -> phases s h = x -> x <> Panicked -> (forall t rest, x <> InInit (CallOnce t :: rest)) -> forall t, guards s t <> Running h.
Proof. intros Hi Hp Hnp Hx t Hr. destruct (i_running _ _ Hi _ _ Hr) as [[rest E]|[E _]]; rewrite Hp in E; [by apply Hx in E|done]. Qed.

Lemma inv_all boot s h : inv boot s -> (phases s h = InInit [] \/ exists rest, phases s h = InInit (BootstrapSecondaryHarts :: rest)) -> forall t, guards s t = Complete.
Proof.
  intros Hi [Hp|[rest Hp]] t; destruct (i_pos _ _ Hi _ _ Hp) as (n & Hn & Hc); apply Hc.
  - by apply init_end.
  - destruct (init_at n _ _ (eq_sym Hn)) as (_ & _ & Hb). apply Hb. cbn [before]. change order with (take 6 order). apply elem_of_order. destruct t; cbn [idx]; lia.
Qed.

Lemma inv_step boot s h s' : inv boot s -> hart_step h s = Some s' -> inv boot s'.
Proof.
  intros Hi. unfold hart_step. destruct (phases s h) as [|[|a rest]|[|target ts]| |] eqn:Hp; try discriminate.
  - intros [= <-]. apply inv_phase; [done|exact (inv_not_running _ _ _ _ Hi Hp ltac:(done) ltac:(done))|intros t; eapply inv_all; eauto|congruence].
  - destruct a as [t| | | |].
    + destruct (guards s t) as [|h'|] eqn:Hg.
      * intros [= <-]. by eapply inv_begin.
      * destruct (decide (h' = h)) as [->|]; [|done]. destruct (returns t) eqn:Hret; intros [= <-]; [|by eapply inv_panic].
        eapply (inv_next boot _ h (CallOnce t)); [by eapply inv_ran|done|]. intros t' [= <-]. apply fn_lookup_insert.
      * intros [= <-]. eapply inv_next; [done|done|]. by intros t' [= <-].
    + intros [= <-]. eapply inv_next; [|exact Hp|done]. apply inv_emit; [done|exact (inv_needs _ _ _ _ _ Hi Hp)|done].
    + intros [= <-]. eapply inv_next; [|exact Hp|done]. apply inv_emit; [done|exact (inv_needs _ _ _ _ _ Hi Hp)|done].
    + destruct (decide _); intros [= <-].
      * eapply inv_next; [|exact Hp|done]. apply inv_emit; [by apply (inv_same _ s)|exact (inv_needs _ _ _ _ _ Hi Hp)|done].
      * apply inv_phase; [done|exact (inv_not_running _ _ _ _ Hi Hp ltac:(done) ltac:(done))|done|congruence].
    + destruct (bootstrap_done s) eqn:Hd; intros [= <-]; [by eapply inv_next|].
      assert (Hb : h = boot) by (destruct (decide (h = boot)) as [|Hne]; [done|]; rewrite (i_alone _ _ Hi Hd h Hne) in Hp; done).
      apply inv_phase; [|exact (inv_not_running _ _ _ _ Hi Hp ltac:(done) ltac:(done))| |cbn; congruence].
      * destruct Hi as [I1 I2 I8 I3 I4 I5 I6 I7]. split; try done. intros h' ts' E. destruct (I7 _ _ E) as (-> & _ & ?). done.
      * split; [intros t; eapply (inv_all _ s); eauto|]. split; [done|]. split; [done|]. split; [apply NoDup_seq|]. intros t _ Hne. apply (i_alone _ _ Hi Hd). congruence.
  - intros [= <-]. apply inv_phase; [done|exact (inv_not_running _ _ _ _ Hi Hp ltac:(done) ltac:(done))|intros t; eapply i_past; eauto|congruence].
  - destruct (i_start _ _ Hi _ _ Hp) as (-> & Hdone & Hnd & Hoff). apply NoDup_cons in Hnd as [Hni Hnd].
    assert (Hnext : inv boot (set_phase boot (InStart ts) s)).
    { apply inv_phase; [done|exact (inv_not_running _ _ _ _ Hi Hp ltac:(done) ltac:(done))| |congruence]. split; [intros t; eapply i_past; eauto|]. split; [done|]. split; [done|]. split; [done|].
      intros t Ht Hb. apply Hoff; [by right|done]. }
    destruct (decide (target = boot)) as [->|Hne]; intros [= <-]; [done|].
    unfold start_hart. destruct (sbi_result _) as [u|err]; [|done].
    assert (Hto : phases s target = Off) by (apply Hoff; [by left|done]).
    assert (Hall : forall t, guards s t = Complete) by (intros t; eapply i_past; eauto).
    apply inv_emit; [|cbn [needs log set_phase]|done].
    + apply inv_phase; [done| | |].
      * cbn [guards set_phase]. intros t. by rewrite Hall.
      * exists 0%nat. split; [done|]. intros t Ht. by apply not_elem_of_nil in Ht.
      * cbn [bootstrap_done phases set_phase]. intros _. split; [done|]. split; [done|].
        intros h' ts'. destruct (decide (h' = boot)) as [->|Hb]; [rewrite fn_lookup_insert; by intros [= <-]|].
           rewrite fn_lookup_insert_ne by done. intros E. by destruct (i_start _ _ Hi _ _ E).
    + intros t Ht. destruct (i_log _ _ Hi) as (k & -> & Hg). apply elem_of_order, Hg, Hall.
Qed.

Lemma inv_power_on boot : inv boot (power_on boot).
Proof.
  split; cbn [power_on guards log phases bootstrap_done].
  - exists 0%nat. split; [done|]. intros t. split; [done|lia].
  - done.
  - done.
  - intros h rest. destruct (decide (h = boot)) as [->|Hne]; [rewrite fn_lookup_insert|by rewrite fn_lookup_insert_ne].
    intros [= <-]. exists 0%nat. split; [done|]. intros t Ht. by apply not_elem_of_nil in Ht.
  - intros h. destruct (decide (h = boot)) as [->|Hne]; [rewrite fn_lookup_insert|rewrite fn_lookup_insert_ne by done]; by intros [?|[ts ?]].
  - intros l1 e l2 H. by destruct l1.
  - intros _ h Hne. by rewrite fn_lookup_insert_ne.
  - intros h ts. destruct (decide (h = boot)) as [->|Hne]; [by rewrite fn_lookup_insert|by rewrite fn_lookup_insert_ne].
Qed.

Lemma inv_reachable boot s : rtc step (power_on boot) s -> inv boot s.
Proof. apply (rtc_ind_r (inv boot)); [apply inv_power_on|]. intros s1 s2 _ [h s' E] Hi. by eapply inv_step. Qed.

(** ** Every hart gets through *)

Section liveness.
Context (boot : nat) (Hboot : (boot < harts)%nat) (Hsbi : forall t, sbi_hart_start t = 0) (Hret : forall t, returns t = true).

Record live (s : bstate) : Prop := {
  l_boot : phases s boot <> Off;
  l_panic : forall h, phases s h = Panicked -> MAX_HARTS <= Z.of_nat h;
  l_bound : forall h, (harts <= h)%nat -> phases s h = Off;
  l_wait : bootstrap_done s = false -> phases s boot = Panicked \/ exists rest, phases s boot = InInit rest /\ BootstrapSecondaryHarts ∈ rest;
  l_started : bootstrap_done s = true -> forall t, (t < harts)%nat -> phases s t = Off -> exists ts, phases s boot = InStart ts /\ t ∈ ts;
  l_enabled : forall h, phases s h = Up \/ (exists ts, phases s h = InStart ts) \/ (exists rest, phases s h = InInit rest /\ EnableHart ∉ rest) -> enabled s h = true;
  l_targets : forall h ts, phases s h = InStart ts -> forall t, t ∈ ts -> (t < harts)%nat;
}.

Lemma live_power_on : live (power_on boot).
Proof.
  split; cbn [power_on phases bootstrap_done enabled].
  - by rewrite fn_lookup_insert.
  - intros h. destruct (decide (h = boot)) as [->|Hne]; [by rewrite fn_lookup_insert|by rewrite fn_lookup_insert_ne].
  - intros h Hh. by rewrite fn_lookup_insert_ne by lia.
  - intros _. right. exists init. rewrite fn_lookup_insert. split; [done|]. apply (bool_decide_unpack _). exact I.
  - done.
  - intros h. destruct (decide (h = boot)) as [->|Hne]; [rewrite fn_lookup_insert|rewrite fn_lookup_insert_ne by done].
    + intros [?|[[ts ?]|(rest & [= <-] & Hni)]]; try done. exfalso. apply Hni. apply (bool_decide_unpack _). exact I.
    + by intros [?|[[ts ?]|(rest & ? & _)]].
  - intros h ts. destruct (decide (h = boot)) as [->|Hne]; [by rewrite fn_lookup_insert|by rewrite fn_lookup_insert_ne].
Qed.

(** Hart [h] moves to phase [x]; the rest of the state may log and complete parts. *)
Lemma live_phase s s' h x : live s -> phases s h <> Off -> phases s' = <[h := x]> (phases s) -> bootstrap_done s' = bootstrap_done s ->
  (forall h', enabled s h' = true -> enabled s' h' = true) ->
  x <> Off -> (x = Panicked -> MAX_HARTS <= Z.of_nat h) ->
  (x = Up \/ (exists ts, x = InStart ts) \/ (exists rest, x = InInit rest /\ EnableHart ∉ rest) -> enabled s' h = true) ->
  (h = boot -> bootstrap_done s = false -> x = Panicked \/ exists rest, x = InInit rest /\ BootstrapSecondaryHarts ∈ rest) ->
  (forall ts, phases s h = InStart ts -> forall t, t ∈ ts -> t <> h -> exists ts', x = InStart ts' /\ t ∈ ts') ->
  (forall ts, x = InStart ts -> forall t, t ∈ ts -> (t < harts)%nat) -> live s'.
Proof.
  intros [L1 L2 L3 L4 L5 L6 L7] Hon Hp Hd He Hx Hpan Hen Hw Hts Htg.
  assert (Hh : (h < harts)%nat) by (destruct (decide (h < harts)%nat); [done|]; exfalso; apply Hon, L3; lia).
  split; rewrite ?Hp, ?Hd.
  - destruct (decide (h = boot)) as [->|Hne]; [by rewrite fn_lookup_insert|by rewrite fn_lookup_insert_ne].
  - intros h'. destruct (decide (h' = h)) as [->|Hne]; [rewrite fn_lookup_insert; apply Hpan|rewrite fn_lookup_insert_ne by done; apply L2].
  - intros h' Hh'. rewrite fn_lookup_insert_ne by lia. by apply L3.
  - intros E. destruct (decide (h = boot)) as [->|Hne]; [rewrite fn_lookup_insert; auto|rewrite fn_lookup_insert_ne by done; auto].
  - intros E t Ht. destruct (decide (t = h)) as [->|Hne]; [by rewrite fn_lookup_insert|rewrite fn_lookup_insert_ne by done]. intros Ho.
    destruct (L5 E t Ht Ho) as (ts & Hb & Hin). destruct (decide (h = boot)) as [->|Hhb].
    + rewrite fn_lookup_insert. by eapply Hts.
    + rewrite fn_lookup_insert_ne by done. eauto.
  - intros h'. destruct (decide (h' = h)) as [->|Hne]; [rewrite fn_lookup_insert; apply Hen|rewrite fn_lookup_insert_ne by done; intros H'; by apply He, L6].
  - intros h' ts. destruct (decide (h' = h)) as [->|Hne]; [rewrite fn_lookup_insert; apply Htg|rewrite fn_lookup_insert_ne by done; apply L7].
Qed.

Lemma live_same s s' : live s -> phases s' = phases s -> bootstrap_done s' = bootstrap_done s -> enabled s' = enabled s -> live s'.
Proof. intros [L1 L2 L3 L4 L5 L6 L7] E1 E2 E3. split; rewrite ?E1, ?E2, ?E3; done. Qed.

Lemma live_next s s' h a rest : live s -> phases s h = InInit (a :: rest) -> phases s' = <[h := InInit rest]> (phases s) -> bootstrap_done s' = bootstrap_done s ->
  (forall h', enabled s h' = true -> enabled s' h' = true) -> (a = EnableHart -> enabled s' h = true) -> (a = BootstrapSecondaryHarts -> bootstrap_done s = true) -> live s'.
Proof.
  intros Hl Hp Hp' Hd He Ha Hb. eapply live_phase; [exact Hl|by rewrite Hp|exact Hp'|done|done|done|done| | |by rewrite Hp|done].
  - intros [?|[[ts ?]|(rest' & [= <-] & Hni)]]; [done..|]. destruct (decide (a = EnableHart)) as [->|Hne]; [by apply Ha|].
    apply He, (l_enabled _ Hl). right. right. exists (a :: rest). split; [done|]. by apply not_elem_of_cons.
  - intros -> Hf. right. exists rest. split; [done|]. destruct (l_wait _ Hl Hf) as [E|(rest' & E & Hin)]; rewrite Hp in E; [done|]. injection E as <-.
    apply elem_of_cons in Hin as [<-|Hin]; [|done]. rewrite Hb in Hf by done. done.
Qed.

Lemma live_bootstrap s : inv boot s -> live s -> (exists rest, phases s boot = InInit (BootstrapSecondaryHarts :: rest)) -> bootstrap_done s = false ->
  live (set_phase boot (InStart (seq 0 harts)) (set_done s)).
Proof.
  intros Hi [L1 L2 L3 L4 L5 L6 L7] [rest Hp] Hd. split; cbn [phases set_phase set_done bootstrap_done enabled].
  - by rewrite fn_lookup_insert.
  - intros h. destruct (decide (h = boot)) as [->|Hne]; [by rewrite fn_lookup_insert|rewrite fn_lookup_insert_ne by done; apply L2].
  - intros h Hh. rewrite fn_lookup_insert_ne by lia. by apply L3.
  - done.
  - intros _ t Ht _. exists (seq 0 harts). rewrite fn_lookup_insert. split; [done|]. apply elem_of_seq. lia.
  - intros h. destruct (decide (h = boot)) as [->|Hne]; [intros _|rewrite fn_lookup_insert_ne by done; apply L6].
    apply L6. right. right. eexists. split; [exact Hp|]. destruct (i_pos _ _ Hi _ _ Hp) as (n & Hn & _). clear -Hn.
    do 10 (destruct n as [|n]; [first [done|injection Hn as ->; apply (bool_decide_unpack _); exact I]|]). by destruct n.
  - intros h ts. destruct (decide (h = boot)) as [->|Hne]; [rewrite fn_lookup_insert|rewrite fn_lookup_insert_ne by done; apply L7].
    intros [= <-] t Ht. apply elem_of_seq in Ht. lia.
Qed.

Lemma live_start s target ts : inv boot s -> live s -> phases s boot = InStart (target :: ts) -> target <> boot ->
  live (start_hart target (set_phase boot (InStart ts) s)).
Proof.
  intros Hi [L1 L2 L3 L4 L5 L6 L7] Hp Hne. unfold start_hart, sbi_result. rewrite Hsbi. cbn [Z.eqb].
  destruct (i_start _ _ Hi _ _ Hp) as (_ & Hd & _ & _). assert (Htg : (target < harts)%nat) by (eapply L7; [exact Hp|by left]).
  split; cbn [phases set_phase bootstrap_done enabled emit].
  - rewrite fn_lookup_insert_ne, fn_lookup_insert by done. done.
  - intros h. destruct (decide (h = target)) as [->|]; [by rewrite fn_lookup_insert|rewrite fn_lookup_insert_ne by done].
    destruct (decide (h = boot)) as [->|]; [by rewrite fn_lookup_insert|rewrite fn_lookup_insert_ne by done; apply L2].
  - intros h Hh. rewrite !fn_lookup_insert_ne by lia. by apply L3.
  - congruence.
  - intros _ t Ht. rewrite (fn_lookup_insert_ne _ target boot), (fn_lookup_insert _ boot) by done.
    destruct (decide (t = target)) as [->|]; [by rewrite fn_lookup_insert|rewrite fn_lookup_insert_ne by done].
    destruct (decide (t = boot)) as [->|]; [by rewrite fn_lookup_insert|rewrite fn_lookup_insert_ne by done].
    intros Ho. destruct (L5 Hd t Ht Ho) as (ts' & E & Hin). rewrite Hp in E. injection E as <-. exists ts. split; [done|]. by apply elem_of_cons in Hin as [|].
  - intros h. destruct (decide (h = target)) as [->|].
    + rewrite fn_lookup_insert. intros [?|[[? ?]|(rest & [= <-] & Hni)]]; try done. exfalso. apply Hni. apply (bool_decide_unpack _). exact I.
    + rewrite fn_lookup_insert_ne by done. destruct (decide (h = boot)) as [->|]; [intros _; apply L6; eauto|rewrite fn_lookup_insert_ne by done; apply L6].
  - intros h ts'. destruct (decide (h = target)) as [->|]; [by rewrite fn_lookup_insert|rewrite fn_lookup_insert_ne by done].
    destruct (decide (h = boot)) as [->|]; [rewrite fn_lookup_insert|rewrite fn_lookup_insert_ne by done; apply L7]. intros [= <-] t Ht. eapply L7; [exact Hp|by right].
Qed.

Lemma live_step s h s' : inv boot s -> live s -> hart_step h s = Some s' -> live s'.
Proof.
  intros Hi Hl. unfold hart_step. destruct (phases s h) as [|[|a rest]|[|target ts]| |] eqn:Hp; try discriminate.
  - intros [= <-]. eapply live_phase; [exact Hl|by rewrite Hp|done|done|done|done|done| | |by rewrite Hp|done].
    + intros _. apply (l_enabled _ Hl). right. right. exists []. split; [done|apply not_elem_of_nil].
    + intros -> Hf. destruct (l_wait _ Hl Hf) as [E|(rest & E & Hin)]; rewrite Hp in E; [done|]. injection E as <-. by apply not_elem_of_nil in Hin.
  - destruct a as [t| | | |].
    + destruct (guards s t) as [|h'|] eqn:Hg; [intros [= <-]; by eapply live_same| |intros [= <-]; by eapply live_next].
      destruct (decide (h' = h)); [|done]. rewrite Hret. intros [= <-]. by eapply live_next.
    + intros [= <-]. by eapply live_next.
    + intros [= <-]. by eapply live_next.
    + destruct (decide _) as [Hm|Hm]; intros [= <-].
      * eapply live_next; [exact Hl|exact Hp|done|done| |intros _; apply fn_lookup_insert|done].
        intros h' E. cbn [enabled set_phase emit enable_hart]. destruct (decide (h' = h)) as [->|]; [apply fn_lookup_insert|by rewrite fn_lookup_insert_ne].
      * eapply live_phase; [exact Hl|by rewrite Hp|done|done|done|done|intros _; lia| |by left|by rewrite Hp|done].
        by intros [?|[[? ?]|(? & ? & _)]].
    + destruct (bootstrap_done s) eqn:Hd; intros [= <-]; [by eapply live_next|].
      assert (Hb : h = boot) by (destruct (decide (h = boot)) as [|Hne]; [done|]; rewrite (i_alone _ _ Hi Hd h Hne) in Hp; done).
      subst h. apply live_bootstrap; eauto.
  - intros [= <-]. destruct (i_start _ _ Hi _ _ Hp) as (-> & Hd & _). eapply live_phase; [exact Hl|by rewrite Hp|done|done|done|done|done| |congruence| |done].
    + intros _. apply (l_enabled _ Hl). eauto.
    + intros ts E t Ht _. rewrite Hp in E. injection E as <-. by apply not_elem_of_nil in Ht.
  - destruct (i_start _ _ Hi _ _ Hp) as (-> & Hd & _). destruct (decide (target = boot)) as [->|Hne]; intros [= <-]; [|by apply live_start].
    eapply live_phase; [exact Hl|by rewrite Hp|done|done|done|done|done| |congruence| |].
    + intros _. apply (l_enabled _ Hl). eauto.
    + intros ts' E t Ht Hb. rewrite Hp in E. injection E as <-. exists ts. split; [done|]. by apply elem_of_cons in Ht as [|].
    + intros ts' [= <-] t Ht. eapply (l_targets _ Hl); [exact Hp|by right].
Qed.

Lemma live_reachable s : rtc step (power_on boot) s -> inv boot s /\ live s.
Proof.
  apply (rtc_ind_r (fun s => inv boot s /\ live s)); [split; [apply inv_power_on|apply live_power_on]|].
  intros s1 s2 _ [h s' E] [Hi Hl]. split; [by eapply inv_step|by eapply live_step].
Qed.

(** Nothing is left to do only when every hart is through. *)
Lemma stuck_up s : inv boot s -> live s -> Z.of_nat harts <= MAX_HARTS -> (forall h, hart_step h s = None) ->
  forall h, (h < harts)%nat -> phases s h = Up /\ enabled s h = true.
Proof.
  intros Hi Hl Hm Hstuck.
  assert (Hend : forall h, phases s h = Off \/ phases s h = Up \/ phases s h = Panicked).
  { intros h. pose proof (Hstuck h) as E. unfold hart_step in E. destruct (phases s h) as [|[|a rest]|[|t ts]| |] eqn:Hp; auto; exfalso; [done| |done|].
    - destruct a as [t| | | |]; [|done|done|by destruct (decide _)|by destruct (bootstrap_done s)].
      destruct (guards s t) as [|h'|] eqn:Hg; [done| |done]. destruct (decide (h' = h)) as [|Hne]; [by rewrite Hret in E|].
      destruct (i_running _ _ Hi _ _ Hg) as [[rest' Hp']|[_ Hf]]; [|by rewrite Hret in Hf].
      pose proof (Hstuck h') as E'. unfold hart_step in E'. rewrite Hp', Hg in E'. by rewrite decide_True, Hret in E' by done.
    - by destruct (decide (t = h)). }
  assert (Hnp : forall h, (h < harts)%nat -> phases s h <> Panicked) by (intros h Hh E; apply (l_panic _ Hl) in E; lia).
  assert (Hb : phases s boot = Up).
  { destruct (Hend boot) as [E|[E|E]]; [by destruct (l_boot _ Hl)|done|by destruct (Hnp boot)]. }
  assert (Hd : bootstrap_done s = true).
  { destruct (bootstrap_done s) eqn:Hd; [done|]. destruct (l_wait _ Hl Hd) as [E|(rest & E & _)]; congruence. }
  intros h Hh. assert (Hu : phases s h = Up).
  { destruct (Hend h) as [E|[E|E]]; [|done|by destruct (Hnp h)]. destruct (l_started _ Hl Hd h Hh E) as (ts & E' & _). congruence. }
  split; [done|]. apply (l_enabled _ Hl). by left.
Qed.

(** ** Steps left *)

Definition weight (x : phase) : nat :=
  match x with
  | Off => length init + harts + 4
  | InInit rest => length rest + harts + 3
  | InStart ts => length ts + 1
  | Up | Panicked => 0
  end.
Definition phase_work (f : nat -> phase) : nat := sum_list_with (fun h => weight (f h)) (seq 0 harts).
Definition guard_work (g : task -> once) : nat := sum_list_with (fun t => match g t with Incomplete => 1 | _ => 0 end)%nat order.
Definition steps_left (s : bstate) : nat := phase_work (phases s) + guard_work (guards s).

Lemma sum_insert (f : nat -> phase) (h : nat) x (l : list nat) : NoDup l -> h ∈ l ->
  (sum_list_with (fun h' => weight (<[h := x]> f h')) l + weight (f h) = sum_list_with (fun h' => weight (f h')) l + weight x)%nat.
Proof.
  assert (Hout : forall l, h ∉ l -> sum_list_with (fun h' => weight (<[h := x]> f h')) l = sum_list_with (fun h' => weight (f h')) l).
  { clear l. intros l. induction l as [|a l IH]; [done|]. intros Hni. apply not_elem_of_cons in Hni as [Hne Hni]. cbn. by rewrite fn_lookup_insert_ne, IH. }
  induction l as [|a l IH]; intros Hnd Hin; [by apply not_elem_of_nil in Hin|]. apply NoDup_cons in Hnd as [Hni Hnd]. cbn [sum_list_with].
  destruct (decide (a = h)) as [->|Hne]; [rewrite fn_lookup_insert, Hout by done; lia|]. apply elem_of_cons in Hin as [Heq|Hin]; [done|].
  rewrite fn_lookup_insert_ne by done. specialize (IH Hnd Hin). lia.
Qed.
Lemma phase_work_set (f : nat -> phase) h x : (h < harts)%nat -> (phase_work (<[h := x]> f) + weight (f h) = phase_work f + weight x)%nat.
Proof. intros Hh. apply sum_insert; [apply NoDup_seq|apply elem_of_seq; lia]. Qed.

Lemma guard_work_set (g : task -> once) t x : x <> Incomplete ->
  (guard_work (<[t := x]> g) + (match g t with Incomplete => 1 | _ => 0 end) = guard_work g)%nat.
Proof.
  intros Hx. assert (Hg : forall t', <[t := x]> g t' = if decide (t' = t) then x else g t').
  { intros t'. destruct (decide (t' = t)) as [->|Hne]; [apply fn_lookup_insert|by apply fn_lookup_insert_ne]. }
  unfold guard_work, order. cbn [sum_list_with]. rewrite !Hg.
  destruct t; repeat first [rewrite decide_True by done|rewrite decide_False by done]; (destruct x; [done|lia|lia]).
Qed.

Lemma step_decreases s h s' : inv boot s -> live s -> hart_step h s = Some s' -> (steps_left s' < steps_left s)%nat.
Proof.
  intros Hi Hl. unfold hart_step, steps_left.
  assert (Hh : phases s h <> Off -> (h < harts)%nat) by (intros Hon; destruct (decide (h < harts)%nat); [done|]; exfalso; apply Hon, (l_bound _ Hl); lia).
  assert (Hw : forall x, phases s h <> Off -> (phase_work (<[h := x]> (phases s)) + weight (phases s h) = phase_work (phases s) + weight x)%nat).
  { intros x Hon. by apply phase_work_set, Hh. }
  destruct (phases s h) as [|[|a rest]|[|target ts]| |] eqn:Hp; try discriminate.
  - intros [= <-]. specialize (Hw Up ltac:(done)). cbn in Hw |- *. lia.
  - assert (Hn : (phase_work (<[h := InInit rest]> (phases s)) < phase_work (phases s))%nat) by (specialize (Hw (InInit rest) ltac:(done)); cbn in Hw; lia).
    destruct a as [t| | | |].
    + destruct (guards s t) as [|h'|] eqn:Hg.
      * intros [= <-]. cbn [phases guards set_guard]. pose proof (guard_work_set (guards s) t (Running h) ltac:(done)) as G. rewrite Hg in G. lia.
      * destruct (decide (h' = h)); [|done]. rewrite Hret. intros [= <-]. cbn [phases guards set_guard set_phase emit].
        pose proof (guard_work_set (guards s) t Complete ltac:(done)) as G. lia.
      * intros [= <-]. cbn [phases guards set_phase]. lia.
    + intros [= <-]. cbn [phases guards set_phase emit]. lia.
    + intros [= <-]. cbn [phases guards set_phase emit]. lia.
    + destruct (decide _); intros [= <-]; cbn [phases guards set_phase emit enable_hart]; [lia|]. specialize (Hw Panicked ltac:(done)). cbn in Hw. lia.
    + destruct (bootstrap_done s); intros [= <-]; cbn [phases guards set_phase set_done]; [lia|].
      specialize (Hw (InStart (seq 0 harts)) ltac:(done)). cbn [weight length] in Hw. rewrite length_seq in Hw. lia.
  - intros [= <-]. specialize (Hw Up ltac:(done)). cbn in Hw |- *. lia.
  - assert (Hn : (phase_work (<[h := InStart ts]> (phases s)) < phase_work (phases s))%nat) by (specialize (Hw (InStart ts) ltac:(done)); cbn in Hw; lia).
    destruct (decide (target = h)) as [->|Hne]; intros [= <-]; [cbn [phases guards set_phase]; lia|].
    unfold start_hart, sbi_result. rewrite Hsbi. cbn [Z.eqb phases guards set_phase emit].
    destruct (i_start _ _ Hi _ _ Hp) as (-> & _ & _ & Hoff). assert (Ho : phases s target = Off) by (apply Hoff; [by left|done]).
    assert (Htg : (target < harts)%nat) by (eapply (l_targets _ Hl); [exact Hp|by left]).
    pose proof (phase_work_set (<[boot := InStart ts]> (phases s)) target (InInit init) Htg) as G. rewrite fn_lookup_insert_ne, Ho in G by done.
    cbn [weight] in G. lia.
Qed.

Lemma nsteps_bound n s : nsteps step n (power_on boot) s -> (n + steps_left s <= steps_left (power_on boot))%nat.
Proof.
  revert s. induction n as [|n IH]; intros s Hn; [inversion Hn; subst; lia|].
  apply nsteps_inv_r in Hn as (s1 & Hn & [h s' E]). destruct (live_reachable s1) as [Hi Hl]; [by eapply rtc_nsteps_2|].
  pose proof (step_decreases _ _ _ Hi Hl E). specialize (IH _ Hn). lia.
Qed.

Lemma sum_bound (f : nat -> nat) l k : (forall h, f h <= k)%nat -> (sum_list_with f l <= length l * k)%nat.
Proof. intros Hf. induction l as [|a l IH]; [done|]. cbn. specialize (Hf a). lia. Qed.
Lemma steps_left_power_on : (steps_left (power_on boot) <= harts * (harts + 14) + 6)%nat.
Proof.
  unfold steps_left, phase_work. cbn [power_on phases guards]. pose proof (sum_bound (fun h => weight (<[boot := InInit init]> (fun _ => Off) h)) (seq 0 harts) (harts + 14)) as H.
  rewrite length_seq in H. change (guard_work (fun _ => Incomplete)) with 6%nat. apply Nat.add_le_mono_r, H. intros h.
  destruct (decide (h = boot)) as [->|Hne]; [rewrite fn_lookup_insert|rewrite fn_lookup_insert_ne by done]; cbn; lia.
Qed.
End liveness.
End boot.

(** ** After [init] *)

(** [glenda_main]: hart 0 makes the first process and schedules, the others wait. *)
Inductive after_init := CreateAndSchedule (payload : list Z) | WaitForever.
Definition glenda_main (hartid : nat) (HAS_PROC_PAYLOAD : bool) (PROC_PAYLOAD : list Z) : after_init :=
  if (hartid =? 0)%nat then
    if HAS_PROC_PAYLOAD && negb (length PROC_PAYLOAD =? 0)%nat then CreateAndSchedule PROC_PAYLOAD
    else CreateAndSchedule [0x6f; 0x00; 0x00; 0x00]
  else WaitForever.

(** ** Properties *)

(** C20: Whatever the harts' interleaving, the global parts of the boot run in
    the order of the source and at most once each; and everything that happens
    comes after the global parts it relies on, also when a part panics: a hart's interrupt set-up after
    memory and the interrupt controller, the switch to the kernel page table
    after it is built, and the start of another hart after all of them. *)
Theorem boot_order harts sbi_hart_start returns boot sched :
  let s := run_schedule harts sbi_hart_start returns sched (power_on boot) in
  (exists k, ran (log s) = take k order) /\
  forall l1 e l2, log s = l1 ++ e :: l2 -> forall t, t ∈ needs e -> t ∈ ran l1.
Proof.
  intros s. assert (Hi : inv returns boot s) by (eapply inv_reachable, run_schedule_rtc). split.
  - destruct (i_log _ _ _ Hi) as (k & Hk & _). eauto.
  - intros l1 e l2 Hl t Ht. by eapply (i_events _ _ _ Hi).
Qed.

(** C30: On a machine of at most eight harts whose firmware starts the harts it
    is asked to, the boot completes exactly when no global part panics. If all
    six return, no run of the harts is longer than [harts * (harts + 14) + 6]
    steps, and when no hart can move, every hart is through [init] and enabled
    and the six parts have run. If one panics, then whatever the interleaving
    neither that part nor a later one is ever done, and no hart gets through. *)
Theorem boot_completes harts sbi_hart_start returns boot :
  (boot < harts)%nat -> Z.of_nat harts <= MAX_HARTS -> (forall t, sbi_hart_start t = 0) ->
  ((forall t, returns t = true) ->
    (forall n s, nsteps (step harts sbi_hart_start returns) n (power_on boot) s -> (n <= harts * (harts + 14) + 6)%nat) /\
    (forall sched, let s := run_schedule harts sbi_hart_start returns sched (power_on boot) in
       (forall h, hart_step harts sbi_hart_start returns h s = None) ->
       ran (log s) = order /\ forall h, (h < harts)%nat -> phases s h = Up /\ enabled s h = true)) /\
  (forall t sched, returns t = false -> let s := run_schedule harts sbi_hart_start returns sched (power_on boot) in
     (forall t', (idx t <= idx t')%nat -> t' ∉ ran (log s)) /\ forall h, phases s h <> Up).
Proof.
  intros Hb Hm Hsbi. split; [intros Hret; split|].
  - intros n s Hn. pose proof (nsteps_bound harts sbi_hart_start returns boot Hb Hsbi Hret n s Hn). pose proof (steps_left_power_on harts boot). lia.
  - intros sched s Hstuck. destruct (live_reachable harts sbi_hart_start returns boot Hb Hsbi Hret s (run_schedule_rtc _ _ _ _ _)) as [Hi Hl].
    pose proof (stuck_up harts sbi_hart_start returns boot Hb Hret s Hi Hl Hm Hstuck) as Hup. split; [|exact Hup].
    destruct (Hup boot Hb) as [Hu _]. destruct (i_log _ _ _ Hi) as (k & -> & Hg). apply take_ge.
    assert (Hk : (idx FS_INIT < k)%nat) by (apply Hg; eapply (i_past _ _ _ Hi boot); by left). cbn in *. lia.
  - intros t sched Hf s. assert (Hi : inv returns boot s) by (eapply inv_reachable, run_schedule_rtc).
    assert (Hnc : guards s t <> Complete) by (intros E; by rewrite (i_returns _ _ _ Hi t E) in Hf). split.
    + intros t' Ht'. destruct (i_log _ _ _ Hi) as (k & -> & Hg). rewrite elem_of_order. intros Hk. apply Hnc, Hg. lia.
    + intros h Hu. apply Hnc. eapply (i_past _ _ _ Hi h). by left.
Qed.

(** Two harts, and every part returns. *)
Lemma boot_completes_witness :
  let s := run_schedule 2 (fun _ => 0) (fun _ => true) (concat (replicate 40 [0; 1]%nat)) (power_on 1) in
  ran (log s) = order /\ forall h, (h < 2)%nat -> phases s h = Up /\ enabled s h = true.
Proof.
  apply (proj1 (boot_completes 2 (fun _ => 0) (fun _ => true) 1 ltac:(lia) ltac:(vm_compute; discriminate) ltac:(reflexivity)) ltac:(reflexivity)).
  intros [|[|h]]; vm_compute; reflexivity.
Defined.
