(* ===== verification/Process.v ===== *)
(** * Processes ([proc/process.rs], [proc/scheduler.rs] across switches)

    Creation, fork, exec, exit, reaping and the blocking calls on the whole
    machine. [switch_context] leaves the flow of control to the rest of the
    system: it is the argument [switch], what runs until the process is
    resumed. *)
From stdpp Require Import functions.
From S2P Require Import Prelude Addr PhysMem PageTable FreshPages Vm MmapWarehouse Uvm PhysBytes.
From S2P Require Import Lru BufferCache FsState Bitmap InodeLayer Directory FileTable FsSyscall RunQueue Scheduler Plic Utf8 Uart Machine.

(** Where the linker put things. *)
Record kenv := mkKenv {
  e_table : Z;                (** [PROC_TABLE] *)
  e_psize : Z;                (** [size_of::<Process>()] *)
  e_kpt : Z;                  (** the kernel page table *)
  e_trampoline : Z;           (** [trampoline], [user_vector], [user_return] *)
  e_user_vector : Z;
  e_user_return : Z;
  e_kernel_vector : Z;
  e_trap_user_handler : Z;
  e_trap_user_return : Z;
  e_fs_init_wrapper : Z;
  e_proc_return : Z;
  e_ticks : Z;                (** [&SYS_TICKS] *)
}.

Definition TRAMP_VA : Z := VA_MAX - PGSIZE.
Definition TRAPFRAME_VA : Z := TRAMP_VA - PGSIZE.
Definition TRAMP_FLAGS : Z := Z.lor (Z.lor PTE_R PTE_X) PTE_A.
Definition CODE_FLAGS : Z := Z.lor (Z.lor (Z.lor (Z.lor (Z.lor PTE_U PTE_R) PTE_W) PTE_X) PTE_A) PTE_D.
Definition CODE_VA : Z := PGSIZE.

(** [Process::root_satp] *)
Definition root_satp (root pid : Z) : Z :=
  let ppn := Z.land (Z.shiftr root 12) (Z.shiftl 1 52 - 1) in
  Z.lor (Z.lor (wrap64 (Z.shiftl SV39 60)) (wrap64 (Z.shiftl pid 44))) ppn.

(** Drop of an [Option<PhysFrame>] and of an [Option<KernelStack>] *)
Definition drop_frame (o : option PhysFrame) : M pmem unit :=
  match o with Some f => PhysFrame_drop f | None => mret tt end.
Definition drop_kstack (kpt : Z) (o : option KernelStack) : M pmem unit :=
  match o with Some k => KernelStack_drop kpt k | None => mret tt end.

(** ** Loading a flat image: [Process::exec] *)

(** One page of the payload: the bytes from [off] on. *)
Definition load_page (root : Z) (payload : list Z) (off : Z) : M pmem Z :=
  pa ← pmem_alloc false;
  let this_len := Z.min PGSIZE (Z.of_nat (length payload) - off) in
  zero_page pa;;
  store_bytes pa (take (Z.to_nat this_len) (drop (Z.to_nat off) payload));;
  va ← uadd CODE_VA off;
  mappages root va pa PGSIZE CODE_FLAGS;;
  uadd off this_len.

(** The pages of the payload; the answer is [mapped_len]. *)
Definition load_payload (root : Z) (payload : list Z) : M pmem Z :=
  if (length payload =? 0)%nat then
    pa ← pmem_alloc false;
    zero_page pa;;
    mappages root CODE_VA pa PGSIZE (Z.lor (Z.lor (Z.lor (Z.lor PTE_U PTE_R) PTE_W) PTE_X) PTE_A);;
    mret PGSIZE
  else
    loop (S (S (length payload / Z.to_nat PGSIZE))) (fun mapped_len =>
      if mapped_len <? Z.of_nat (length payload) then
        n ← load_page root payload mapped_len;
        mret (inl n)
      else mret (inr mapped_len)) 0.

(** The heap starts on the page after the image. *)
Definition image_top {S} (mapped_len : Z) : M S Z :=
  x ← uadd mapped_len PGSIZE;
  x ← usub x 1;
  top ← uadd CODE_VA (Z.land x (unot PGMASK));
  mret (align_down top).

Section process.
Context {D : Type} `{!BlockDevice D} {P : Type} `{!Mmio P}.
Variables (e : kenv) (fuel : nat).
Local Abbreviation machine := (machine D P).
(** What runs between a switch away from this process and its resumption. *)
Variable switch : M machine unit.

Definition addr_of (i : Z) : Z := proc_addr (e_table e) (e_psize e) i.
Definition proc_pid (i : Z) : M machine Z := gets (fun m => pid (PROC_TABLE (m_sched m) i)).

Definition exec (i : Z) (payload : list Z) : M machine unit :=
  p ← proc_mem i;
  mapped_len ← on_pmem (load_payload (p_root p) payload);
  top ← image_top mapped_len;
  upd_pm i (fun p => set_heap top top (set_entry_va CODE_VA p)).

Definition alloc : M machine (option Z) :=
  o ← on_sched (proc_alloc);
  match o with
  | Some i => upd_pm i (set_context (mkContext (e_proc_return e) 0 (replicate 12 0)));; mret (Some i)
  | None => mret None
  end.

(** A new address space: root, trampoline and trap frame. *)
Definition new_space : M pmem (PhysFrame * PhysFrame) :=
  o ← PhysFrame_alloc;
  root ← expect o "Failed to alloc root pt";
  zero_page (frame_addr root);;
  mappages (frame_addr root) TRAMP_VA (align_down (e_trampoline e)) PGSIZE TRAMP_FLAGS;;
  o ← PhysFrame_alloc;
  tf ← expect o "Failed to alloc trapframe";
  mappages (frame_addr root) TRAPFRAME_VA (frame_addr tf) PGSIZE KDATA;;
  mret (root, tf).

Definition create (payload : list Z) : M machine Z :=
  o ← alloc;
  i ← expect o "Failed to allocate process";
  '(root, tf) ← on_pmem new_space;
  upd_pm i (fun p => set_trapframe_va TRAPFRAME_VA (set_trapframe (frame_addr tf) (Some tf) (set_root (frame_addr root) (Some root) p)));;
  exec i payload;;
  pid ← proc_pid i;
  kstack ← on_pmem (KernelStack_new (e_kpt e) pid);
  upd_pm i (fun p => set_user_sp_va STACK_TOP (set_kstack (Some kstack) p));;
  p ← proc_mem i;
  let tf := p_trapframe p in
  on_pmem (tf_store tf (tf_reg Reg.sp) (p_user_sp_va p));;
  on_pmem (tf_store tf KERNEL_EPC (p_entry_va p));;
  satp ← csr satp;
  on_pmem (tf_store tf KERNEL_SATP satp);;
  hartid ← getid;
  on_pmem (tf_store tf KERNEL_HARTID hartid);;
  on_pmem (tf_store tf KERNEL_SP (ks_top kstack));;
  set_current_user_satp (root_satp (p_root p) pid);;
  upd_csr (set_sscratch (p_trapframe_va p));;
  on_pmem (tf_store tf (tf_reg Reg.a0) (p_trapframe_va p));;
  upd_pm i (fun p => set_context (mkContext (if pid =? 1 then e_fs_init_wrapper e else e_trap_user_return e) (ks_top kstack)
    (c_s (p_context p))) p);;
  on_sched (modify (upd_proc i (set_state Runnable)));;
  mret i.

(** ** Fork *)

(** The descriptors of the child share the parent's files. *)
Definition share_file (o : option nat) : M FileTable unit :=
  match o with
  | Some f_idx =>
      f ← file_at f_idx;
      r ← uadd32 (frefcnt f) 1;
      modify (upd_file f_idx (set_frefcnt r))
  | None => mret tt
  end.
Definition share_files (ofs : nat -> option nat) : M FileTable unit :=
  for_each (B := Empty_set) (seq 0 NOFILE) (fun _ fd => share_file (ofs fd);; mret (inl tt)) tt;;
  mret tt.

(** The trap frame of the child: a copy that returns 0 from the call on the
    child's own kernel stack; the parent's gets the child's pid. *)
Definition fork_frames (ptf ctf kstack_top cpid : Z) : M pmem unit :=
  tf_copy ptf ctf;;
  tf_store ctf (tf_reg Reg.a0) 0;;
  epc ← tf_load ctf KERNEL_EPC;
  tf_store ctf KERNEL_EPC (wrap64 (epc + 4));;
  tf_store ctf KERNEL_SP kstack_top;;
  tf_store ptf (tf_reg Reg.a0) cpid.

Definition fork (i : Z) : M machine Z :=
  o ← alloc;
  child ← expect o "Failed to allocate process";
  on_sched (modify (upd_proc child (set_parent (addr_of i))));;
  self ← proc_mem i;
  upd_pm child (fun p => set_trapframe_va (p_trapframe_va self) (set_user_sp_va (p_user_sp_va self) (set_entry_va (p_entry_va self) p)));;
  r ← on_pmem (pt_copy (p_root self));
  pa ← (match r with Ok pa => mret pa | Err _ => panic "Failed to copy page table" end);
  upd_pm child (set_root pa (Some (mkFrame pa)));;
  upd_pm child (fun p => set_stack_pages (p_stack_pages self) (set_heap (p_heap_top self) (p_heap_base self) p));;
  upd_pm child (fun p => set_files (p_open_files self) (p_cwd p) p);;
  zoom m_files set_m_files (share_files (p_open_files self));;
  upd_pm child (fun p => set_files (p_open_files p) (p_cwd self) p);;
  o ← on_pmem PhysFrame_alloc;
  tf ← expect o "Failed to alloc trapframe";
  upd_pm child (set_trapframe (frame_addr tf) (Some tf));;
  pid ← proc_pid child;
  kstack ← on_pmem (KernelStack_new (e_kpt e) pid);
  upd_pm child (set_kstack (Some kstack));;
  on_pmem (unmappages pa (p_trapframe_va self) PGSIZE true);;
  on_pmem (mappages pa (p_trapframe_va self) (frame_addr tf) PGSIZE KDATA);;
  on_pmem (fork_frames (p_trapframe self) (frame_addr tf) (ks_top kstack) pid);;
  upd_pm child (fun p => set_context (mkContext (e_trap_user_return e) (ks_top kstack) (c_s (p_context p))) p);;
  on_sched (modify (upd_proc child (set_state Runnable)));;
  mret child.

(** ** Exit and reaping *)

Definition close_all (i : Z) : M machine unit :=
  on_kernel i (for_each (B := Empty_set) (seq 0 NOFILE) (fun _ fd =>
    o ← gets (fun k => open_files k fd);
    (match o with
     | Some f_idx => file_close f_idx;; set_fd fd None
     | None => mret tt
     end);;
    mret (inl tt)) tt;;
  mret tt).

Definition exit (i : Z) : M machine unit :=
  sie_enabled ← on_sched (proc_exit_begin (e_table e) (e_psize e) i);
  close_all i;;
  on_sched (sie_restore sie_enabled).

(** [Process::free] *)
Definition free (i : Z) : M machine unit :=
  p ← proc_mem i;
  on_pmem (pt_destroy (p_root p));;
  on_pmem (drop_frame (p_root_frame p));;
  upd_pm i (set_root (p_root p) None);;
  on_warehouse (mregion_free (p_mmap_head p));;
  on_pmem (drop_kstack (e_kpt e) (p_kstack p));;
  upd_pm i (set_kstack None).

(** [*p = Process::new()]: the old fields are dropped. *)
Definition reset (i : Z) : M machine unit :=
  p ← proc_mem i;
  on_pmem (drop_frame (p_root_frame p));;
  on_pmem (drop_frame (p_trapframe_frame p));;
  on_pmem (drop_kstack (e_kpt e) (p_kstack p));;
  upd_pm i (fun _ => ProcMem_new);;
  on_sched (modify (upd_proc i (fun _ => Process_new))).

(** ** Blocking *)

Definition yield_ : M machine unit := on_sched (yield_proc (e_table e) (e_psize e));; switch.

Definition sleep_ (channel : Z) : M machine unit :=
  sie_enabled ← gets (fun m => sie (m_sched m));
  on_sched (sleep (e_table e) (e_psize e) channel);;
  switch;;
  on_sched (sie_restore sie_enabled).

(** [launch]: hand the hart to process [i]. *)
Definition launch (i : Z) : M machine unit := on_sched (modify (set_hart_proc (Some i)));; switch.

(** Where a process that was only allocated starts: it gives the hart back, and
    idles if it is ever resumed. *)
Definition proc_return : M machine unit :=
  on_sched (sched_out (e_table e) (e_psize e));;
  switch;;
  hang "proc_return: loop { wfi(); }".

(** [proc::process::init] *)
Definition proc_init : M machine unit := on_sched (modify (set_global_pid 1)).

(** One round of [wait]: the table is searched under its lock. *)
Definition wait_scan (curr : Z) : M machine (bool + Z * Z) :=
  for_each procs (fun have_kids j =>
    p ← on_sched (proc_at j);
    if parent p =? addr_of curr then
      if decide (state p = Zombie) then
        free j;;
        reset j;;
        mret (inr (pid p, exit_code p))
      else mret (inl true)
    else mret (inl have_kids)) false.

Definition wait_step : M machine (unit + option (Z * Z)) :=
  curr ← current_proc;
  sie_enabled ← on_sched sie_off;
  on_sched lock_table;;
  r ← wait_scan curr;
  match r with
  | inr found => on_sched unlock_table;; on_sched (sie_restore sie_enabled);; mret (inr (Some found))
  | inl false => on_sched unlock_table;; on_sched (sie_restore sie_enabled);; mret (inr None)
  | inl true =>
      on_sched (
        modify (upd_proc curr (fun p => set_sleep_chan (addr_of curr) (set_state Sleeping p)));;
        o ← find_proc_index (e_table e) (e_psize e) (addr_of curr);
        (match o with Some idx => mark_not_runnable idx | None => mret tt end);;
        unlock_table);;
      switch;;
      on_sched (sie_restore sie_enabled);;
      mret (inl tt)
  end.
Definition wait : M machine (option (Z * Z)) := loop fuel (fun (_ : unit) => wait_step) tt.
End process.

(** ** The pages of an image *)

Definition page_bytes (payload : list Z) (n : Z) : list Z := take (Z.to_nat PGSIZE) (drop (Z.to_nat ((n - 1) * PGSIZE)) payload).
Definition image_word (payload : list Z) (n o : Z) : Z := put_bytes (fun _ => 0) 0 (page_bytes payload n) o.
Definition image_end (payload : list Z) : Z := CODE_VA + align_up_val (Z.of_nat (length payload)).

Section image.
Context {kb ub : RegionBounds} {root : Z}.
Local Abbreviation pt_wf := (pt_wf kb ub).
Local Abbreviation pmem_inv := (pmem_inv kb ub).
Definition image_grown (payload : list Z) := grown_range (kb := kb) (ub := ub) (root := root) false CODE_FLAGS (image_word payload).

Lemma wp_load_page s T payload k fr s0 T0 (Q : Z -> pmem -> Prop) : pmem_inv s -> pt_wf s root T -> 0 <= k ->
  k * PGSIZE < Z.of_nat (length payload) -> image_end payload <= VA_MAX -> room false s T CODE_VA (image_end payload) ->
  image_grown payload s T CODE_VA (CODE_VA + k * PGSIZE) fr s0 T0 ->
  (forall fr' s' T', image_grown payload s T CODE_VA (CODE_VA + (k + 1) * PGSIZE) fr' s' T' ->
     Q (Z.min (Z.of_nat (length payload)) ((k + 1) * PGSIZE)) s') ->
  wp (load_page root payload (k * PGSIZE)) Q s0.
Proof.
  intros Hinv Hwf Hk Hlt Hmax Hroom Hg HQ. unfold load_page. wp_step.
  assert (Hend : image_end payload mod PGSIZE = 0 /\ CODE_VA + k * PGSIZE < image_end payload /\ Z.of_nat (length payload) <= image_end payload).
  { unfold image_end, CODE_VA. destruct (align_up_val_spec (Z.of_nat (length payload))) as [H1 H2].
    split; [rewrite <-Zplus_mod_idemp_r, H1; done|unfold PGSIZE in *; lia]. }
  destruct Hend as (He1 & He2 & He3). change VA_MAX with 274877906944 in *.
  assert (Ha : (CODE_VA + k * PGSIZE) mod PGSIZE = 0) by (unfold CODE_VA; rewrite Z_mod_plus_full; done).
  eapply (wp_grow_step false CODE_FLAGS (image_word payload) s T CODE_VA (image_end payload) (CODE_VA + k * PGSIZE) fr); try done.
  { unfold CODE_VA, PGSIZE. lia. }
  intros p s1 Hpost Hp Hpal Hmap. unfold zero_page, store_bytes. do 4 wp_step. cbn [mem set_mem].
  wp_step. wp_step; [unfold U64, CODE_VA, PGSIZE in *; lia|]. unfold mappages. wp_step. wp_step.
  set (bs := take _ (drop _ payload)). set (m := put_bytes _ p bs).
  assert (Hp8 : p mod 8 = 0) by (unfold PGSIZE in *; Z.to_euclidean_division_equations; lia).
  assert (Hbs : bs = page_bytes payload ((CODE_VA + k * PGSIZE) / PGSIZE)).
  { unfold bs, page_bytes, CODE_VA. rewrite Z.div_add by done. change (PGSIZE / PGSIZE) with 1. replace (1 + k - 1) with k by lia.
    destruct (Z.le_ge_cases PGSIZE (Z.of_nat (length payload) - k * PGSIZE)).
    - by rewrite Z.min_l.
    - rewrite Z.min_r by done. rewrite !take_ge; [done|rewrite length_drop; unfold PGSIZE in *; lia..]. }
  assert (Hlen : Z.of_nat (length bs) <= PGSIZE) by (rewrite Hbs; unfold page_bytes; rewrite length_take; unfold PGSIZE; lia).
  eapply wp_mono; [|apply (Hmap m)].
  - intros ok s' [-> (T' & Hg')]. wp_step. wp_step.
    replace (k * PGSIZE + Z.min PGSIZE (Z.of_nat (length payload) - k * PGSIZE)) with (Z.min (Z.of_nat (length payload)) ((k + 1) * PGSIZE)) by lia.
    apply (HQ (upd fr ((CODE_VA + k * PGSIZE) / PGSIZE) p) _ T'). replace (CODE_VA + (k + 1) * PGSIZE) with (CODE_VA + k * PGSIZE + PGSIZE) by lia. exact Hg'.
  - intros w [Hw1 Hw2]. unfold image_word. rewrite <-Hbs. unfold m.
    pose proof (put_bytes_shift bs (fill (mem s1) p PGSIZE 0) (fun _ => 0) p 0 Hp8 ltac:(lia) ltac:(lia)) as Hsh.
    rewrite Z.add_0_r in Hsh. specialize (Hsh ltac:(intros o Ho; apply fill_in; lia) (w - p) ltac:(lia)).
    by replace (p + (w - p)) with w in Hsh by lia.
  - intros w Hw. unfold m. pose proof (put_bytes_outside bs (fill (mem s1) p PGSIZE 0) p 0 w Hp8 ltac:(lia) ltac:(lia) Hw) as Ho.
    rewrite Z.add_0_r in Ho. rewrite Ho. apply fill_out. exact Hw.
Qed.
Lemma wp_load_payload s T payload : pmem_inv s -> pt_wf s root T -> payload <> [] -> image_end payload <= VA_MAX ->
  room false s T CODE_VA (image_end payload) ->
  wp (load_payload root payload) (fun n s' => n = Z.of_nat (length payload) /\ exists fr T',
    image_grown payload s T CODE_VA (image_end payload) fr s' T') s.
Proof.
  intros Hinv Hwf Hne Hmax Hroom. unfold load_payload.
  destruct (Nat.eqb_spec (length payload) 0) as [H0|_]; [by apply length_zero_iff_nil in H0|].
  set (len := Z.of_nat (length payload)) in *. destruct (align_up_val_spec len) as [Hal1 Hal2].
  set (n := align_up_val len / PGSIZE). assert (Hn : align_up_val len = n * PGSIZE) by (unfold n, PGSIZE in *; Z.to_euclidean_division_equations; lia).
  assert (Hlen : 0 < len) by (unfold len; destruct payload; [done|simpl; lia]).
  apply (wp_loop (fun ml s' => exists k fr T', 0 <= k <= n /\ ml = Z.min len (k * PGSIZE) /\ image_grown payload s T CODE_VA (CODE_VA + k * PGSIZE) fr s' T')
    (fun ml _ => Z.to_nat ((len - ml + PGSIZE - 1) / PGSIZE))).
  - intros ml s0 (k & fr & T0 & Hk & -> & Hg). destruct (Z.ltb_spec (Z.min len (k * PGSIZE)) len) as [Hlt|Hge].
    + assert (Hkl : k * PGSIZE < len) by lia. rewrite Z.min_r by lia. wp_step.
      eapply (wp_load_page s T payload k fr s0 T0); try done; [lia|]. intros fr' s' T' Hg'. wp_step. cbv beta. split.
      * exists (k + 1), fr', T'. split; [unfold PGSIZE in *; lia|]. done.
      * fold len. assert (0 <= (len - Z.min len ((k + 1) * PGSIZE) + PGSIZE - 1) / PGSIZE) by (apply Z.div_pos; unfold PGSIZE in *; lia).
        assert ((len - Z.min len ((k + 1) * PGSIZE) + PGSIZE - 1) / PGSIZE < (len - k * PGSIZE + PGSIZE - 1) / PGSIZE)
          by (unfold PGSIZE in *; Z.to_euclidean_division_equations; lia). lia.
    + wp_step. split; [lia|]. exists fr, T0. assert (k = n) as -> by (unfold PGSIZE in *; lia).
      unfold image_end. fold len. by rewrite Hn.
  - exists 0, (fun _ => 0), T. split; [unfold PGSIZE in *; lia|]. split; [unfold PGSIZE; lia|]. rewrite Z.mul_0_l, Z.add_0_r. by apply grown_range_refl.
  - rewrite Z.sub_0_r.
    assert (Hq : Z.of_nat (length payload / Z.to_nat PGSIZE) = len / PGSIZE) by (rewrite Nat2Z.inj_div; done).
    assert ((len + PGSIZE - 1) / PGSIZE <= len / PGSIZE + 1) by (unfold PGSIZE in *; Z.to_euclidean_division_equations; lia). lia.
Qed.

(** The bytes a program finds at its code. *)
Lemma image_byte payload s T fr s' T' k b : image_grown payload s T CODE_VA (image_end payload) fr s' T' -> layout_ok kb ub ->
  Forall is_byte payload -> payload !! k = Some b ->
  phys_byte (mem s') (fr ((CODE_VA + Z.of_nat k) / PGSIZE) + Z.of_nat k mod PGSIZE) = b.
Proof.
  intros Hg HL Hb Hk. pose proof (lookup_lt_Some _ _ _ Hk) as Hlt.
  assert (Hva : CODE_VA <= CODE_VA + Z.of_nat k < image_end payload).
  { unfold image_end. destruct (align_up_val_spec (Z.of_nat (length payload))). lia. }
  destruct (gr_frame _ _ _ _ _ _ _ _ _ _ Hg _ Hva) as (Hin & _ & _ & Hw). set (n := (CODE_VA + Z.of_nat k) / PGSIZE) in *.
  destruct (pool_frame_range false (fr n) HL Hin) as [_ Hpal].
  assert (Hp8 : fr n mod 8 = 0) by (unfold PGSIZE in *; Z.to_euclidean_division_equations; lia).
  set (o := Z.of_nat k mod PGSIZE). assert (Ho : 0 <= o < PGSIZE) by (apply Z.mod_pos_bound; done).
  assert (Heq : phys_byte (mem s') (fr n + o) = phys_byte (image_word payload n) o).
  { unfold phys_byte. rewrite <-!(Zplus_mod_idemp_l (fr n)), Hp8, Z.add_0_l.
    replace (fr n + o - o mod 8) with (fr n + (o - o mod 8)) by lia. rewrite Hw.
    - by replace (fr n + (o - o mod 8) - fr n) with (o - o mod 8) by lia.
    - unfold in_page, PGSIZE in *. clear Hp8 Hpal. Z.to_euclidean_division_equations; lia. }
  rewrite Heq. unfold image_word.
  assert (Hn : n = 1 + Z.of_nat k / PGSIZE) by (unfold n, CODE_VA; rewrite <-(Z.mul_1_l PGSIZE) at 1; rewrite Z.div_add_l; done).
  assert (Hko : Z.to_nat ((n - 1) * PGSIZE) = (k - Z.to_nat o)%nat /\ (Z.to_nat o <= k)%nat).
  { rewrite Hn. replace (1 + Z.of_nat k / PGSIZE - 1) with (Z.of_nat k / PGSIZE) by lia. unfold o, PGSIZE. clear. Z.to_euclidean_division_equations; lia. }
  destruct Hko as [Hko Hok].
  assert (Hnth : page_bytes payload n !! Z.to_nat o = Some b).
  { unfold page_bytes. rewrite lookup_take_lt, lookup_drop, Hko by (unfold PGSIZE in *; lia). rewrite <-Hk. f_equal. lia. }
  rewrite phys_byte_put_bytes by (unfold page_bytes; by apply Forall_take, Forall_drop).
  pose proof (lookup_lt_Some _ _ _ Hnth). rewrite (proj2 (Z.leb_le 0 o)), (proj2 (Z.ltb_lt o _)) by lia. cbn [andb].
  rewrite Z.sub_0_r. apply nth_lookup_Some with (d := 0) in Hnth. exact Hnth.
Qed.
End image.

(** ** Files across fork and exit *)

Definition refs_in (ofs : nat -> option nat) (l : list nat) (i : nat) : Z := Z.of_nat (length (filter (fun fd => ofs fd = Some i) l)).

Lemma refs_in_snoc ofs l fd i : refs_in ofs (l ++ [fd]) i = refs_in ofs l i + (if decide (ofs fd = Some i) then 1 else 0).
Proof.
  unfold refs_in. rewrite filter_app, length_app. destruct (decide (ofs fd = Some i)) as [E|E].
  - rewrite filter_cons_True by done. simpl. lia.
  - rewrite filter_cons_False by done. simpl. lia.
Qed.
Lemma refs_in_le ofs dn rest i : refs_in ofs dn i <= refs_in ofs (dn ++ rest) i.
Proof. unfold refs_in. rewrite filter_app, length_app. lia. Qed.

(** The table after the descriptors of [l] were shared. *)
Record shared (ofs : nat -> option nat) (l : list nat) (t t' : FileTable) : Prop := {
  sh_count : forall i, frefcnt (t' i) = frefcnt (t i) + refs_in ofs l i;
  sh_rest : forall i, set_frefcnt 0 (t' i) = set_frefcnt 0 (t i);
}.

Lemma wp_share_files ofs t : (forall fd i, (fd < NOFILE)%nat -> ofs fd = Some i -> (i < NFILE)%nat) ->
  (forall i, (i < NFILE)%nat -> 0 <= frefcnt (t i) /\ frefcnt (t i) + fd_refs ofs i < U32) ->
  wp (share_files ofs) (fun _ t' => shared ofs (seq 0 NOFILE) t t') t.
Proof.
  intros Hr Hc. unfold share_files. wp_step.
  apply (wp_for_each (fun dn _ t' => shared ofs dn t t')); [split; [intros i; unfold refs_in; simpl; lia|done]| |intros [] t' Ht; by wp_step].
  intros dn fd rest [] t' Hs [H1 H2]. wp_step.
  assert (Hfd : (fd < NOFILE)%nat).
  { assert (fd ∈ seq 0 NOFILE) as Hin by (rewrite Hs; apply elem_of_app; right; by left). apply elem_of_seq in Hin. lia. }
  destruct (ofs fd) as [i|] eqn:Ho; cbn [share_file].
  - wp_step. unfold file_at. rewrite (proj2 (Nat.ltb_lt i NFILE)) by by eapply Hr. wp_step. wp_step.
    assert (Hle : refs_in ofs (dn ++ [fd]) i <= fd_refs ofs i).
    { unfold fd_refs. rewrite Hs. change (fd :: rest) with ([fd] ++ rest). rewrite app_assoc. apply refs_in_le. }
    rewrite refs_in_snoc, decide_True in Hle by done. destruct (Hc i) as [Hc1 Hc2]; [by eapply Hr|].
    assert (0 <= refs_in ofs dn i) by (unfold refs_in; lia).
    wp_step; [rewrite H1; unfold U32 in *; lia|]. wp_step. wp_step. split.
    + intros j. rewrite refs_in_snoc, Ho. destruct (decide (Some i = Some j)) as [[= <-]|Hne].
      * rewrite upd_file_eq. cbn [frefcnt set_frefcnt]. rewrite H1. lia.
      * rewrite upd_file_ne, H1 by congruence. lia.
    + intros j. destruct (decide (j = i)) as [->|Hne]; [rewrite upd_file_eq; apply H2|rewrite upd_file_ne by done; apply H2].
  - wp_step. wp_step. split; [|done]. intros j. rewrite refs_in_snoc, Ho, decide_False by done. rewrite H1. lia.
Qed.

Section closing.
Context {D : Type} `{!BlockDevice D}.
Implicit Types (k : kernel D).

(** The kernel after the descriptors of [l] were closed, none the last of its file. *)
Record closed (l : list nat) k k' : Prop := {
  cl_open : forall fd, open_files k' fd = if decide (fd ∈ l) then None else open_files k fd;
  cl_count : forall i, frefcnt (ftable k' i) = frefcnt (ftable k i) - refs_in (open_files k) l i;
  cl_rest : kfs k' = kfs k /\ kpm k' = kpm k /\ cwd k' = cwd k /\ root_pt_pa k' = root_pt_pa k;
}.

Lemma file_close_shared k i : (i < NFILE)%nat -> 1 < frefcnt (ftable k i) ->
  exists t', file_close i k = Ret tt (set_ftable t' k) /\ frefcnt (t' i) = frefcnt (ftable k i) - 1 /\ forall j, j <> i -> t' j = ftable k j.
Proof.
  intros Hi Hr. destruct (file_close_entry_run (ftable k) i Hi ltac:(lia)) as (t' & Hrun & H1 & H2).
  exists t'. split; [|done]. unfold file_close. erewrite bind_run by (unfold on_files, zoom; rewrite Hrun; reflexivity).
  by rewrite (proj2 (Z.ltb_lt 1 _)).
Qed.

Definition close_body (_ : unit) (fd : nat) : M (kernel D) (unit + Empty_set) :=
  o ← gets (fun k => open_files k fd);
  (match o with
   | Some f_idx => file_close f_idx;; set_fd fd None
   | None => mret tt
   end);;
  mret (inl tt).

Lemma wp_close_fds k : (forall fd i, (fd < NOFILE)%nat -> open_files k fd = Some i -> (i < NFILE)%nat) ->
  (forall i, (i < NFILE)%nat -> 0 < fd_refs (open_files k) i -> fd_refs (open_files k) i < frefcnt (ftable k i)) ->
  wp (for_each (seq 0 NOFILE) close_body tt;; mret tt) (fun _ k' => closed (seq 0 NOFILE) k k') k.
Proof.
  intros Hr Hc. wp_step. apply (wp_for_each (fun dn _ k' => closed dn k k')).
  - split; [done|intros i; unfold refs_in; simpl; lia|done].
  - intros dn fd rest [] k' Hs [H1 H2 (Hfs & Hpm & Hcw & Hrt)]. unfold close_body. wp_step. wp_step.
    assert (Hfd : (fd < NOFILE)%nat /\ fd ∉ dn).
    { assert (fd ∈ seq 0 NOFILE) as Hin by (rewrite Hs; apply elem_of_app; right; by left). apply elem_of_seq in Hin.
      split; [lia|]. pose proof (NoDup_seq 0 NOFILE) as Hnd. rewrite Hs in Hnd. apply NoDup_app in Hnd as (_ & Hnd & _).
      intros Hd. apply (Hnd fd Hd). by left. }
    destruct Hfd as [Hfd Hnd]. wp_step. rewrite H1, decide_False by done.
    assert (Hmem : forall x, (if decide (x ∈ dn ++ [fd]) then None else open_files k x) =
      if decide (x = fd) then None else if decide (x ∈ dn) then None else open_files k x).
    { intros x. destruct (decide (x = fd)) as [->|]; [rewrite decide_True; [done|apply elem_of_app; right; by left]|].
      destruct (decide (x ∈ dn)); [rewrite decide_True; [done|apply elem_of_app; by left]|]. rewrite decide_False; [done|].
      rewrite elem_of_app, list_elem_of_singleton. tauto. }
    destruct (open_files k fd) as [i|] eqn:Ho.
    + assert (Hle : refs_in (open_files k) dn i + 1 <= fd_refs (open_files k) i).
      { replace (refs_in (open_files k) dn i + 1) with (refs_in (open_files k) (dn ++ [fd]) i) by (rewrite refs_in_snoc, decide_True; done).
        unfold fd_refs. rewrite Hs. change (fd :: rest) with ([fd] ++ rest). rewrite app_assoc. apply refs_in_le. }
      assert (0 <= refs_in (open_files k) dn i) by (unfold refs_in; lia). specialize (Hc i ltac:(by eapply Hr) ltac:(lia)).
      destruct (file_close_shared k' i) as (t' & Hrun & Hi & Hj); [by eapply Hr|rewrite H2; lia|].
      wp_step. eapply wp_intro; [exact Hrun|]. unfold set_fd. wp_step. wp_step. split; cbn [open_files ftable kfs kpm cwd root_pt_pa set_open_files set_ftable].
      * intros x. rewrite Hmem. destruct (decide (x = fd)) as [->|]; [apply fn_lookup_insert|]. rewrite fn_lookup_insert_ne by done. apply H1.
      * intros j. rewrite refs_in_snoc, Ho. destruct (decide (Some i = Some j)) as [[= <-]|Hne]; [rewrite Hi, H2; lia|].
        rewrite Hj, H2 by congruence. lia.
      * done.
    + wp_step. wp_step. split; [|intros j; rewrite refs_in_snoc, Ho, H2, decide_False by done; lia|done].
      intros x. rewrite Hmem. destruct (decide (x = fd)) as [->|]; [by rewrite H1, decide_False|apply H1].
  - intros [] k' Hk. by wp_step.
Qed.
End closing.

(** ** The [satp] of a process *)

Lemma lor_shiftl_add a b n : 0 <= n -> 0 <= b < 2 ^ n -> Z.lor (Z.shiftl a n) b = a * 2 ^ n + b.
Proof.
  intros Hn Hb. rewrite <-Z.shiftl_mul_pow2 by done. symmetry.
  assert (Hz : Z.land (Z.shiftl a n) b = 0).
  { apply Z.bits_inj'. intros j Hj. rewrite Z.land_spec, Z.bits_0, Z.shiftl_spec by done. destruct (Z.lt_ge_cases j n).
    - by rewrite Z.testbit_neg_r by lia.
    - rewrite <-(Z.mod_small b (2 ^ n)), Z.mod_pow2_bits_high, andb_false_r by lia. done. }
  by rewrite Z.add_nocarry_lxor, Z.lxor_lor.
Qed.

Lemma root_satp_sum root pid : 0 <= pid < 2 ^ 16 -> 0 <= root < 2 ^ 56 -> root_satp root pid = (SV39 * 2 ^ 16 + pid) * 2 ^ 44 + Z.shiftr root 12.
Proof.
  intros Hpid Hroot. assert (Hppn : 0 <= Z.shiftr root 12 < 2 ^ 44).
  { rewrite Z.shiftr_div_pow2 by lia. split; [apply Z.div_pos; lia|]. apply Z.div_lt_upper_bound; [done|]. change (2 ^ 12 * 2 ^ 44) with (2 ^ 56). lia. }
  unfold root_satp. change (Z.shiftl 1 52 - 1) with (Z.ones 52). rewrite Z.land_ones by lia.
  rewrite (Z.mod_small (Z.shiftr root 12)) by (change (2 ^ 52) with 4503599627370496; change (2 ^ 44) with 17592186044416 in *; lia).
  rewrite (wrap64_small (Z.shiftl pid 44))
    by (rewrite Z.shiftl_mul_pow2 by lia; unfold U64; change (2 ^ 44) with 17592186044416; change (2 ^ 16) with 65536 in *; lia).
  change (wrap64 (Z.shiftl SV39 60)) with (Z.shiftl (Z.shiftl SV39 16) 44). rewrite <-Z.shiftl_lor.
  rewrite lor_shiftl_add by lia. f_equal. f_equal. apply lor_shiftl_add; lia.
Qed.

(** ** A machine with one process *)

Definition demo_env : kenv := mkKenv 4096 1024 0x80250000 0x80201000 0x80201010 0x80201100 0x80202000 0x80203000 0x80204000
  0x80205000 0x80206000 0x80240000.
(** Process 0 runs on hart 0 with the address space [root]. *)
Definition demo_sched : sched := mkSched (<[0 := mkProc Running 0 0 0 1]> (fun _ => Process_new)) false 0 false 2 (Some 0) true.
Definition demo_tf : Z := 0x80300000.
Definition demo_proc (root : Z) : ProcMem := mkPM root None 0x2000 0x2000 6 demo_tf None TRAPFRAME_VA ProcContext_new
  (Some (mkKStack 1 0x3FF0008000)) 0x1000 STACK_TOP None (fun _ => None) ROOT_INODE.
Definition demo_csrs : csrs := mkCsrs 0 (false, 0) 0 false 0x3FFFFFF010 TRAPFRAME_VA 0 false 0x222 500 0 0.
Definition one_process (pm : pmem) (root : Z) : machine ramdisk sim :=
  mkMachine booted pm (fun _ => File_new) MmapWarehouse_new demo_sched (<[0 := demo_proc root]> (fun _ => ProcMem_new)) demo_csrs
    (mkSim [] []) (Some sim_uart) (fun _ => 0) 0 None false.

(** ** Properties *)

(** C29: loading a flat image: a non-empty payload fits, page by page from the
    second page of the address space, into fresh frames that are mapped
    readable, writable and executable for the user; every byte of it is found
    at its address, the rest of the last page is zero, nothing else is mapped
    or changed, and the heap starts at the end of the image. *)
Theorem exec_loads_payload {D} `{!BlockDevice D} {P} `{!Mmio P} kb ub (m : machine D P) i T payload :
  let root := p_root (m_procs m i) in
  pmem_inv kb ub (m_pm m) -> pt_wf kb ub (m_pm m) root T -> payload <> [] -> Forall is_byte payload ->
  image_end payload <= VA_MAX -> room false (m_pm m) T CODE_VA (image_end payload) ->
  wp (exec i payload) (fun _ m' => exists fr T',
    image_grown (kb := kb) (ub := ub) (root := root) payload (m_pm m) T CODE_VA (image_end payload) fr (m_pm m') T' /\
    (forall k b, payload !! k = Some b -> phys_byte (mem (m_pm m')) (fr ((CODE_VA + Z.of_nat k) / PGSIZE) + Z.of_nat k mod PGSIZE) = b) /\
    p_entry_va (m_procs m' i) = CODE_VA /\ p_heap_base (m_procs m' i) = image_end payload /\ p_heap_top (m_procs m' i) = image_end payload) m.
Proof.
  intros root Hinv Hwf Hne Hb Hmax Hroom. unfold exec. msteps. fold root.
  eapply wp_mono; [|by apply (wp_load_payload (kb := kb) (ub := ub) (m_pm m) T payload)].
  intros n s' (-> & fr & T' & Hg). unfold image_top.
  destruct (align_up_val_spec (Z.of_nat (length payload))) as [Hal1 Hal2].
  assert (Hle : Z.of_nat (length payload) <= VA_MAX) by (unfold image_end, CODE_VA, PGSIZE in *; lia).
  change VA_MAX with 274877906944 in *. mstep. do 2 mstep. mstep. mstep.
  replace (Z.of_nat (length payload) + PGSIZE - 1) with (Z.of_nat (length payload) + PGMASK) by (unfold PGMASK; lia).
  rewrite land_pgmask_not by (unfold U64, PGMASK, PGSIZE; lia). fold (align_up_val (Z.of_nat (length payload))).
  mstep. mstep; [unfold U64, image_end in *; unfold CODE_VA, PGSIZE in *; lia|]. msteps. fold (image_end payload).
  rewrite align_down_aligned.
  - exists fr, T'. split; [exact Hg|]. split; [intros k b Hk; by eapply image_byte; [exact Hg|apply Hinv|..]|].
    cbn [m_procs set_m_procs set_m_pm]. by rewrite fn_lookup_insert.
  - unfold U64, image_end, CODE_VA, PGSIZE in *. lia.
  - unfold image_end, CODE_VA. rewrite <-Zplus_mod_idemp_r, Hal1. done.
Qed.

Lemma exec_loads_payload_witness :
  wp (exec 0 [0x6f; 0; 0; 0]) (fun _ m' => p_heap_top (m_procs m' 0) = 0x2000 /\ p_entry_va (m_procs m' 0) = 0x1000)
    (one_process demo_pt demo_root).
Proof.
  eapply wp_mono; [|apply (exec_loads_payload demo_kb demo_ub (one_process demo_pt demo_root) 0 demo_tree [0x6f; 0; 0; 0] demo_pt_inv demo_pt_wf)].
  - intros [] m' (fr & T' & _ & _ & H1 & _ & H2). split; [exact H2|exact H1].
  - discriminate.
  - repeat constructor; lia.
  - vm_compute. discriminate.
  - split; [intros _; vm_compute; discriminate|]. split; [vm_compute; discriminate|]. intros va _. apply demo_pt_trans.
Defined.

(** Fork gives the child the parent's trap frame, word for word, but
    for the result 0, the address of the next instruction and the child's own
    kernel stack; the parent's changes in its result only, the child's pid. *)
Theorem fork_frames_correct ptf ctf top cpid (s : pmem) : (ptf + 8 * TRAPFRAME_WORDS <= ctf \/ ctf + 8 * TRAPFRAME_WORDS <= ptf) ->
  wp (fork_frames ptf ctf top cpid) (fun _ s' =>
    (forall k, 0 <= k < TRAPFRAME_WORDS -> mem s' (ctf + 8 * k) =
      if 8 * k =? tf_reg Reg.a0 then 0
      else if 8 * k =? KERNEL_EPC then wrap64 (mem s (ptf + KERNEL_EPC) + 4)
      else if 8 * k =? KERNEL_SP then top else mem s (ptf + 8 * k)) /\
    (forall k, 0 <= k < TRAPFRAME_WORDS -> mem s' (ptf + 8 * k) = if 8 * k =? tf_reg Reg.a0 then cpid else mem s (ptf + 8 * k)) /\
    forall a, ~ (ctf <= a < ctf + 8 * TRAPFRAME_WORDS) -> ~ (ptf <= a < ptf + 8 * TRAPFRAME_WORDS) -> mem s' a = mem s a) s.
Proof.
  intros Hdis. unfold fork_frames, tf_copy. msteps. cbn -[foldl]. unfold TRAPFRAME_WORDS in *.
  assert (Ha0 : tf_reg Reg.a0 = 112) by done. rewrite Ha0. unfold KERNEL_EPC, KERNEL_SP in *.
  split; [|split].
  - intros k Hk. rewrite (upd_ne _ (ptf + 112)) by lia.
    destruct (Z.eqb_spec (8 * k) 112) as [E|E]; [rewrite E, !upd_ne by lia; rewrite upd_eq; done|].
    destruct (Z.eqb_spec (8 * k) 24) as [E1|E1].
    { rewrite E1, upd_ne, upd_eq, upd_ne by lia. f_equal. f_equal.
      change 24 with (8 * 3). by rewrite tf_copy_in by (unfold TRAPFRAME_WORDS; lia). }
    destruct (Z.eqb_spec (8 * k) 8) as [E2|E2]; [rewrite E2, upd_eq; done|]. rewrite !upd_ne by lia. by apply tf_copy_in.
  - intros k Hk. destruct (Z.eqb_spec (8 * k) 112) as [E|E]; [rewrite E, upd_eq; done|]. rewrite !upd_ne by lia.
    apply tf_copy_out. intros k' Hk'. unfold TRAPFRAME_WORDS in *. lia.
  - intros a Hc Hp. rewrite !upd_ne by lia. apply tf_copy_out. intros k' Hk'. unfold TRAPFRAME_WORDS in *. lia.
Qed.

Lemma fork_frames_correct_witness : wp (fork_frames 0x1000 0x2000 77 5) (fun _ s' => mem s' (0x2000 + 112) = 0 /\ mem s' (0x1000 + 112) = 5) demo.
Proof.
  eapply wp_mono; [|apply (fork_frames_correct 0x1000 0x2000 77 5 demo); unfold TRAPFRAME_WORDS; lia].
  intros [] s' (H1 & H2 & _). split.
  - exact (H1 14 ltac:(unfold TRAPFRAME_WORDS; lia)).
  - exact (H2 14 ltac:(unfold TRAPFRAME_WORDS; lia)).
Defined.

(** The open files of a process that forks and whose child exits: the
    child's descriptors count as holders of the parent's files, and its exit
    gives every one of them up and closes none, so that the file table is what
    it was. *)
Theorem fork_exit_files_roundtrip {D} `{!BlockDevice D} others (k : kernel D) :
  files_ok others k -> (forall i, 0 <= others i) -> (forall i, (i < NFILE)%nat -> frefcnt (ftable k i) + fd_refs (open_files k) i < U32) ->
  wp (on_files (share_files (open_files k));; for_each (seq 0 NOFILE) close_body tt;; mret tt) (fun _ k' =>
    (forall fd, (fd < NOFILE)%nat -> open_files k' fd = None) /\ (forall i, frefcnt (ftable k' i) = frefcnt (ftable k i)) /\ kfs k' = kfs k) k.
Proof.
  intros [Hr Hcnt] Hoth Hc. assert (Hpos : forall i, 0 <= fd_refs (open_files k) i) by (intros i; unfold fd_refs; lia).
  assert (Hge : forall i, (i < NFILE)%nat -> fd_refs (open_files k) i <= frefcnt (ftable k i)).
  { intros i Hi. rewrite Hcnt by done. specialize (Hoth i). lia. } wp_step.
  unfold on_files. wp_step. eapply wp_mono; [|apply wp_share_files; [done|intros i Hi; specialize (Hc i Hi); specialize (Hge i Hi); specialize (Hpos i); lia]].
  intros [] t' [Hs1 Hs2]. eapply wp_mono; [|apply (wp_close_fds (set_ftable t' k)); [done|]].
  - intros [] k' [H1 H2 (H3 & _)]. split; [|split; [|done]].
    + intros fd Hfd. rewrite H1, decide_True; [done|]. apply elem_of_seq. lia.
    + intros i. rewrite H2. cbn [ftable open_files set_ftable]. rewrite Hs1. lia.
  - intros i Hi H0. cbn [ftable open_files set_ftable] in *. rewrite Hs1. change (refs_in _ (seq 0 NOFILE) i) with (fd_refs (open_files k) i).
    specialize (Hge i Hi). lia.
Qed.

Lemma fork_exit_files_roundtrip_witness :
  wp (on_files (share_files (open_files demo_opened));; for_each (seq 0 NOFILE) close_body tt;; mret tt)
    (fun _ k' => frefcnt (ftable k' 0%nat) = 2) demo_opened.
Proof.
  eapply wp_mono; [|apply (fork_exit_files_roundtrip demo_others demo_opened demo_opened_ok)].
  - intros [] k' (_ & H & _). exact (H 0%nat).
  - intros i. unfold demo_others. destruct (decide (i = 0%nat)); discriminate.
  - intros i Hi. rewrite (fo_count _ _ demo_opened_ok i Hi).
    assert (fd_refs (open_files demo_opened) i <= 32) by (unfold fd_refs; etransitivity; [apply inj_le, length_filter|reflexivity]).
    assert (demo_others i <= 1) by (unfold demo_others; destruct (decide _); lia). unfold U32. lia.
Defined.

(** The value written to [satp] for a process: Sv39 in the mode field,
    the process number in the address-space field, the page number of its root
    table, for the process numbers a kernel stack exists for. *)
Theorem root_satp_fields root pid : 0 <= pid < 2 ^ 16 -> 0 <= root < 2 ^ 56 ->
  0 <= root_satp root pid < U64 /\ Z.shiftr (root_satp root pid) 60 = SV39 /\
  Z.land (Z.shiftr (root_satp root pid) 44) 0xFFFF = pid /\ Z.land (root_satp root pid) (Z.ones 44) = Z.shiftr root 12.
Proof.
  intros Hpid Hroot. rewrite root_satp_sum by done.
  assert (Hppn : 0 <= Z.shiftr root 12 < 2 ^ 44).
  { rewrite Z.shiftr_div_pow2 by lia. split; [apply Z.div_pos; lia|]. apply Z.div_lt_upper_bound; [done|]. change (2 ^ 12 * 2 ^ 44) with (2 ^ 56). lia. }
  generalize dependent (Z.shiftr root 12). intros ppn Hppn. rewrite !Z.shiftr_div_pow2 by lia.
  change 0xFFFF with (Z.ones 16). rewrite !Z.land_ones by lia. change (2 ^ 44) with 17592186044416 in *. change (2 ^ 60) with 1152921504606846976.
  change (2 ^ 16) with 65536 in *. unfold U64, SV39. split; [lia|]. clear Hroot root. Z.to_euclidean_division_equations. lia.
Qed.

Lemma root_satp_fields_witness : Z.land (root_satp 0x80300000 5) (Z.ones 44) = 0x80300.
Proof. destruct (root_satp_fields 0x80300000 5) as (_ & _ & _ & H); [lia|lia|exact H]. Defined.
