(* ===== verification/Exec.v ===== *)
(** * Executing a file ([Process::proc_exec], [sys_exec])

    An ELF file is read through the file system into a new address space, the
    argument strings are copied from the old one, and the new one is
    committed. Frames held in local variables are dropped on every error path. *)
From stdpp Require Import functions.
From S2P Require Import Prelude Addr PhysMem PageTable FreshPages Vm MmapWarehouse Uvm.
From S2P Require Import Lru BufferCache FsState Bitmap InodeLayer Directory FileTable FsSyscall RunQueue Scheduler Plic Utf8 Uart Machine Process.

(** [u16::from_le_bytes(b[lo..lo + n].try_into().unwrap())] and the like *)
Definition le_field (b : list Z) (lo n : nat) : Z := le_value (slice lo n b).

Definition ELF_MAGIC : list Z := [0x7f; 69; 76; 70].
Definition PT_LOAD : Z := 1.

Record Phdr := mkPhdr { p_type : Z; p_flags : Z; p_offset : Z; p_vaddr : Z; p_filesz : Z; p_memsz : Z }.
Definition phdr_of (ph : list Z) : Phdr :=
  mkPhdr (le_field ph 0 4) (le_field ph 4 4) (le_field ph 8 8) (le_field ph 16 8) (le_field ph 32 8) (le_field ph 40 8).

(** The permissions while loading: always writable. *)
Definition seg_perm (flags : Z) : Z :=
  let perm := Z.lor (Z.lor (Z.lor PTE_U PTE_A) PTE_D) PTE_W in
  let perm := if negb (Z.land flags 1 =? 0) then Z.lor perm PTE_X else perm in
  if negb (Z.land flags 4 =? 0) then Z.lor perm PTE_R else perm.

(** [while va < end_va]: a fresh page for each; pages run out after at most
    [TOTAL_PAGES] rounds. *)
Definition map_segment (root start_va end_va perm : Z) : M pmem unit :=
  loop (S (Z.to_nat (Z.min ((end_va - start_va) / PGSIZE + 1) (TOTAL_PAGES + 2)))) (fun va =>
    if va <? end_va then
      pa ← pmem_alloc false;
      zero_page pa;;
      mappages root va pa PGSIZE perm;;
      va' ← uadd va PGSIZE;
      mret (inl va')
    else mret (inr tt)) start_va.

(** The stack of the new program: pages that are not yet there. *)
Definition map_stack (root : Z) : M pmem unit :=
  loop 8 (fun va =>
    if STACK_BASE <=? va then
      o ← pt_lookup root va;
      (match o with
       | None =>
           pa ← pmem_alloc false;
           zero_page pa;;
           mappages root va pa PGSIZE USER_FLAGS
       | Some _ => mret tt
       end);;
      va' ← usub va PGSIZE;
      mret (inl va')
    else mret (inr tt)) (STACK_TOP - PGSIZE).

(** [sp &= !7] *)
Definition align8 (sp : Z) : Z := Z.land sp (unot 7).

(** The argument strings, last first, below the top of the stack; the answer is
    the stack pointer and the addresses, in the order of the arguments. *)
Fixpoint push_strings (old_root root : Z) (args_rev : list Z) (sp : Z) (ptrs : list Z) : M pmem (result (Z * list Z) unit) :=
  match args_rev with
  | [] => mret (Ok (sp, ptrs))
  | u :: rest =>
      '(arg_buf, r) ← copyin_str old_root (replicate 128 0) u;
      match r with
      | Err _ => mret (Err tt)
      | Ok len =>
          sp ← usub sp len;
          let sp := align8 sp in
          o ← copyout root sp (take (Z.to_nat len) arg_buf);
          match o with
          | Some _ => mret (Err tt)
          | None => push_strings old_root root rest sp (sp :: ptrs)
          end
      end
  end.

Fixpoint push_pointers (root sp : Z) (ptrs : list Z) : M pmem (result unit unit) :=
  match ptrs with
  | [] => mret (Ok tt)
  | p :: rest =>
      o ← copyout root sp (le_bytes 8 p);
      match o with
      | Some _ => mret (Err tt)
      | None => push_pointers root (sp + 8) rest
      end
  end.

Definition push_args (old_root root : Z) (u_argv : list Z) : M pmem (result Z unit) :=
  r ← push_strings old_root root (rev u_argv) STACK_TOP [];
  match r with
  | Err _ => mret (Err tt)
  | Ok (sp, ptrs) =>
      sp ← usub sp (Z.of_nat (length u_argv) * 8);
      let sp := align8 sp in
      r ← push_pointers root sp ptrs;
      mret (match r with Ok _ => Ok sp | Err _ => Err tt end)
  end.

Section exec.
Context {D : Type} `{!BlockDevice D} {P : Type} `{!Mmio P}.
Variables (e : kenv).
Local Abbreviation machine := (machine D P).

(** The file contents of a segment, 512 bytes at a time: [false] when a copy to
    the new address space failed, which is what leaves [proc_exec]. *)
Definition load_segment (i : Z) (root : Z) (ip : nat) (ph : Phdr) : M machine bool :=
  loop (S (Z.to_nat (Z.min (p_filesz ph / 512 + 1) (TOTAL_PAGES * 8 + 2)))) (fun read_off =>
    if read_off <? p_filesz ph then
      let chunk := Z.min (p_filesz ph - read_off) 512 in
      off ← uadd (p_offset ph) read_off;
      '(n, kbuf) ← on_kernel i (on_fs (inode_read_data ip (wrap32 off) chunk (replicate (Z.to_nat chunk) 0)));
      if negb (n =? chunk) then mret (inr true)
      else
        va ← uadd (p_vaddr ph) read_off;
        o ← on_pmem (copyout root va kbuf);
        match o with
        | Some _ => mret (inr false)
        | None => mret (inl (read_off + chunk))
        end
    else mret (inr true)) 0.

(** One program header: the new [max_va], or [None] to leave [proc_exec]. *)
Definition exec_segment (i root : Z) (ip : nat) (ph : Phdr) (max_va : Z) : M machine (option Z) :=
  let start_va := align_down (p_vaddr ph) in
  x ← uadd (p_vaddr ph) (p_memsz ph);
  x ← uadd x PGSIZE;
  x ← usub x 1;
  let end_va := Z.land x (unot PGMASK) in
  on_pmem (map_segment root start_va end_va (seg_perm (p_flags ph)));;
  ok ← load_segment i root ip ph;
  mret (if ok : bool then Some (Z.max max_va end_va) else None).

Definition exec_segments (i root : Z) (ip : nat) (phoff phnum phentsize : Z) : M machine (option Z) :=
  r ← for_each (range 0 phnum) (fun max_va k =>
    off ← uadd32 phoff (wrap32 (k * phentsize));
    '(n, ph) ← on_kernel i (on_fs (inode_read_data ip off 56 (replicate 56 0)));
    if negb (n =? 56) then mret (inr (Some max_va))
    else
      let ph := phdr_of ph in
      if p_type ph =? PT_LOAD then
        o ← exec_segment i root ip ph max_va;
        mret (match o with Some x => inl x | None => inr None end)
      else mret (inl max_va)) 0;
  mret (match r with inl max_va => Some max_va | inr o => o end).

(** From the program headers to the arguments on the new stack: [max_va] and
    the stack pointer. *)
Definition build_image (i root : Z) (fd : Z) (ip : nat) (elf_header u_argv : list Z) : M machine (result (Z * Z) unit) :=
  o ← exec_segments i root ip (wrap32 (le_field elf_header 32 8)) (le_field elf_header 56 2) (le_field elf_header 54 2);
  match o with
  | None => mret (Err tt)
  | Some max_va =>
      on_kernel i (on_fs (inode_put ip));;
      r ← on_kernel i (fs_close fd);
      match r with
      | Err _ => mret (Err tt)
      | Ok _ =>
          on_pmem (map_stack root);;
          p ← proc_mem i;
          r ← on_pmem (push_args (p_root p) root u_argv);
          mret (match r with Ok sp => Ok (max_va, sp) | Err _ => Err tt end)
      end
  end.

(** The new address space replaces the old one. *)
Definition commit (i : Z) (root tf : PhysFrame) (max_va entry sp argc : Z) : M machine unit :=
  p ← proc_mem i;
  (match p_root_frame p with
   | Some f => on_pmem (pt_destroy (frame_addr f));; on_pmem (PhysFrame_drop f)
   | None => mret tt
   end);;
  upd_pm i (fun p => set_user_sp_va sp (set_entry_va entry (set_stack_pages (STACK_SIZE / PGSIZE) (set_heap max_va max_va
    (set_trapframe_va TRAPFRAME_VA (set_trapframe (frame_addr tf) (Some tf) (set_root (frame_addr root) (Some root) p)))))));;
  let t := frame_addr tf in
  on_pmem (tf_store t (tf_reg Reg.sp) sp);;
  on_pmem (tf_store t KERNEL_EPC entry);;
  on_pmem (tf_store t (tf_reg Reg.a0) argc);;
  on_pmem (tf_store t (tf_reg Reg.a1) sp);;
  satp ← csr satp;
  on_pmem (tf_store t KERNEL_SATP satp);;
  hartid ← getid;
  on_pmem (tf_store t KERNEL_HARTID hartid);;
  kstack ← expect (p_kstack p) "called `Option::unwrap()` on a `None` value";
  on_pmem (tf_store t KERNEL_SP (ks_top kstack));;
  pid ← proc_pid i;
  set_current_user_satp (root_satp (frame_addr root) pid);;
  upd_csr (set_sscratch TRAPFRAME_VA);;
  on_pmem (drop_frame (p_trapframe_frame p)).

(** The file is closed again, then [Err(())]; an error of [fs_close] is the same. *)
Definition give_up_file (i fd : Z) (ip : nat) : M machine (result unit unit) :=
  on_kernel i (on_fs (inode_put ip));;
  on_kernel i (fs_close fd);;
  mret (Err tt).

(** With the ELF file read and checked. *)
Definition exec_image (i fd : Z) (ip : nat) (elf_header u_argv : list Z) : M machine (result unit unit) :=
  o ← on_pmem PhysFrame_alloc;
  match o with
  | None => mret (Err tt)
  | Some root =>
      on_pmem (zero_page (frame_addr root));;
      on_pmem (mappages (frame_addr root) TRAMP_VA (align_down (e_trampoline e)) PGSIZE TRAMP_FLAGS);;
      o ← on_pmem PhysFrame_alloc;
      match o with
      | None => on_pmem (PhysFrame_drop root);; mret (Err tt)
      | Some tf =>
          on_pmem (mappages (frame_addr root) TRAPFRAME_VA (frame_addr tf) PGSIZE KDATA);;
          r ← build_image i (frame_addr root) fd ip elf_header u_argv;
          match r with
          | Err _ =>
              on_pmem (PhysFrame_drop tf);;
              on_pmem (PhysFrame_drop root);;
              mret (Err tt)
          | Ok (max_va, sp) =>
              commit i root tf max_va (le_field elf_header 24 8) sp (Z.of_nat (length u_argv));;
              mret (Ok tt)
          end
      end
  end.

Definition proc_exec (i : Z) (path u_argv : list Z) : M machine (result unit unit) :=
  r ← on_kernel i (fs_open path 0);
  match r with
  | Err _ => mret (Err tt)
  | Ok fd =>
      p ← proc_mem i;
      match p_open_files p (Z.to_nat fd) with
      | None => mret (Err tt)
      | Some f_idx =>
          f ← on_kernel i (on_files (file_at f_idx));
          ip ← on_kernel i (on_fs (inode_get (finum f)));
          '(n, elf_header) ← on_kernel i (on_fs (inode_read_data ip 0 64 (replicate 64 0)));
          if negb (n =? 64) then give_up_file i fd ip
          else if negb (bool_decide (take 4 elf_header = ELF_MAGIC)) then give_up_file i fd ip
          else exec_image i fd ip elf_header u_argv
      end
  end.

(** [sys_exec]: the argument pointers, at most fifteen of them *)
Definition read_argv (root u_argv : Z) : M pmem (list Z) :=
  loop 17 (fun argv =>
    a ← uadd u_argv (Z.of_nat (length argv) * 8);
    '(bytes, o) ← copyin root (replicate 8 0) a;
    match o with
    | Some _ => mret (inr argv)
    | None =>
        let u_arg_ptr := le_value bytes in
        if (u_arg_ptr =? 0) || (15 <=? Z.of_nat (length argv)) then mret (inr argv)
        else mret (inl (argv ++ [u_arg_ptr]))
    end) [].

Definition sys_exec (u_path u_argv : Z) : M machine Z :=
  i ← current_proc;
  p ← proc_mem i;
  '(path_buf, r) ← on_pmem (copyin_str (p_root p) (replicate 256 0) u_path);
  match r with
  | Err _ => mret USIZE_MAX
  | Ok _ =>
      argv ← on_pmem (read_argv (p_root p) u_argv);
      r ← proc_exec i (until_zero path_buf) argv;
      mret (match r with Ok _ => 0 | Err _ => USIZE_MAX end)
  end.
End exec.

(** ** Properties *)

(** [proc_exec] leaves the stack of the new program unmapped: with any
    segment in the first two megabytes the table that covers the stack exists,
    [lookup] then finds an entry for every stack page although none is valid,
    and the loop that should map them maps nothing. *)
Theorem exec_skips_stack kb ub root s T t : pt_wf kb ub s root T -> T !! [0; 0] = Some t -> map_stack root s = Ret tt s.
Proof.
  intros Hwf Ht.
  assert (Hl : forall va, 0 <= va < 0x200000 -> exists a, pt_lookup root va s = Ret (Some a) s).
  { intros va Hva. exists (entry t (vpn va 0)). rewrite (lookup_run (kb := kb) (ub := ub) s T va Hwf) by (change VA_MAX with 274877906944; lia).
    assert (Hv : forall l, 1 <= l -> vpn va l = 0).
    { intros l Hl1. assert (2 ^ 21 <= 2 ^ (12 + 9 * l)) by (apply Z.pow_le_mono_r; lia). change (2 ^ 21) with 0x200000 in *.
      rewrite vpn_eq, Z.div_small by lia. done. }
    unfold leaf_ref. rewrite (Hv 2), (Hv 1) by lia. by rewrite Ht. }
  enough (H : wp (map_stack root) (fun _ s' => s' = s) s) by (destruct (wp_elim _ _ _ H) as ([] & s' & -> & ->); done).
  unfold map_stack. apply (wp_loop (fun va s' => s' = s /\ va < 0x200000 /\ 0 <= va) (fun va _ => Z.to_nat ((va - STACK_BASE) / PGSIZE + 1))).
  - intros va s' (-> & Hva & H0). destruct (Z.leb_spec STACK_BASE va) as [Hb|Hb]; [|by wp_step].
    destruct (Hl va ltac:(lia)) as [a Ha]. wp_step. eapply wp_intro; [exact Ha|]. do 2 wp_step. wp_step.
    wp_step; [unfold U64, STACK_BASE, PGSIZE in *; lia|]. wp_step. cbv beta.
    unfold STACK_BASE, PGSIZE in *. split; [split; [done|lia]|]. Z.to_euclidean_division_equations; lia.
  - split; [done|]. vm_compute. split; congruence.
  - vm_compute. lia.
Qed.

(** A program with one page at 0x1000. *)
Lemma exec_skips_stack_witness : map_stack demo_root demo_user = Ret tt demo_user.
Proof.
  destruct (demo_map_ok USER_FLAGS) as (T & _ & Hwf & _ & _ & Htr). fold demo_user in Hwf, Htr.
  specialize (Htr 0x1000 ltac:(vm_compute; split; [discriminate|reflexivity])).
  assert (Hs : exists t, T !! [0; 0] = Some t).
  { unfold trans, leaf_ref in Htr. change (vpn 0x1000 2) with 0 in Htr. change (vpn 0x1000 1) with 0 in Htr.
    destruct (T !! [0; 0]) as [t|]; [by exists t|discriminate Htr]. }
  destruct Hs as [t Ht]. apply (exec_skips_stack demo_kb demo_ub demo_root demo_user T t Hwf Ht).
Defined.
