(* ===== verification/Syscall.v ===== *)
(** * System calls ([syscall/] apart from [fs.rs], [irq/timer.rs])

    The memory, process, copy and print calls, the ticks they wait for, and the
    dispatcher over all calls, on the whole machine. *)
From stdpp Require Import functions pretty.
From S2P Require Import Prelude Addr PhysMem PageTable FreshPages Vm MmapWarehouse Uvm.
From S2P Require Import Lru BufferCache FsState Bitmap InodeLayer Directory FileTable FsSyscall RunQueue Scheduler Plic Utf8 Uart Machine Process Exec UserGrowth.

Definition SYS_HELLOWORLD : Z := 1.
Definition SYS_COPYIN : Z := 2.
Definition SYS_COPYOUT : Z := 3.
Definition SYS_COPYINSTR : Z := 4.
Definition SYS_BRK : Z := 5.
Definition SYS_MMAP : Z := 6.
Definition SYS_MUNMAP : Z := 7.
Definition SYS_PRINT_STR : Z := 8.
Definition SYS_PRINT_INT : Z := 9.
Definition SYS_GETPID : Z := 10.
Definition SYS_ALLOC_BLOCK : Z := 11.
Definition SYS_FREE_BLOCK : Z := 12.
Definition SYS_ALLOC_INODE : Z := 13.
Definition SYS_FREE_INODE : Z := 14.
Definition SYS_SHOW_BITMAP : Z := 15.
Definition SYS_GET_BLOCK : Z := 16.
Definition SYS_READ_BLOCK : Z := 17.
Definition SYS_WRITE_BLOCK : Z := 18.
Definition SYS_PUT_BLOCK : Z := 19.
Definition SYS_SHOW_BUFFER : Z := 20.
Definition SYS_FLUSH_BUFFER : Z := 21.
Definition SYS_FORK : Z := 22.
Definition SYS_WAIT : Z := 23.
Definition SYS_EXIT : Z := 24.
Definition SYS_SLEEP : Z := 25.
Definition SYS_INODE_CREATE : Z := 26.
Definition SYS_INODE_DUP : Z := 27.
Definition SYS_INODE_PUT : Z := 28.
Definition SYS_INODE_SET_NLINK : Z := 29.
Definition SYS_INODE_GET_REFCNT : Z := 30.
Definition SYS_INODE_PRINT : Z := 31.
Definition SYS_INODE_WRITE_DATA : Z := 32.
Definition SYS_INODE_READ_DATA : Z := 33.
Definition SYS_DENTRY_CREATE : Z := 34.
Definition SYS_DENTRY_SEARCH : Z := 35.
Definition SYS_DENTRY_DELETE : Z := 36.
Definition SYS_DENTRY_PRINT : Z := 37.
Definition SYS_PATH_TO_INODE : Z := 38.
Definition SYS_PATH_TO_PARENT : Z := 39.
Definition SYS_PREPARE_ROOT : Z := 40.
Definition SYS_EXEC : Z := 41.
Definition SYS_OPEN : Z := 42.
Definition SYS_CLOSE : Z := 43.
Definition SYS_READ : Z := 44.
Definition SYS_WRITE : Z := 45.
Definition SYS_LSEEK : Z := 46.
Definition SYS_DUP : Z := 47.
Definition SYS_FSTAT : Z := 48.
Definition SYS_GET_DENTRIES : Z := 49.
Definition SYS_MKDIR : Z := 50.
Definition SYS_CHDIR : Z := 51.
Definition SYS_PRINT_CWD : Z := 52.
Definition SYS_LINK : Z := 53.
Definition SYS_UNLINK : Z := 54.

(** The bytes of a string literal, and of a number formatted with [{}]. *)
Definition str_bytes (s : string) : list Z := (fun c => Z.of_nat (Ascii.nat_of_ascii c)) <$> String.list_ascii_of_string s.
Definition decimal (x : Z) : list Z := str_bytes (pretty x).

Section syscall.
Context {D : Type} `{!BlockDevice D} {P : Type} `{!Mmio P}.
Variables (e : kenv) (fuel : nat).
Local Abbreviation machine := (machine D P).
Variable switch : M machine unit.

(** A call on the calling process, and one that uses no process. *)
Definition of_current {A} (c : M (kernel D) A) : M machine A := i ← current_proc; on_kernel i c.
Definition any_proc {A} (c : M (kernel D) A) : M machine A := on_kernel 0 c.
(** The caller and its page table *)
Definition caller : M machine (Z * ProcMem) := i ← current_proc; p ← proc_mem i; mret (i, p).

Definition sys_helloworld : M machine Z :=
  printk fuel (str_bytes "proczero: hello world!" ++ [10]);; mret 0.

(** ** [copy.rs], [util.rs] *)

Definition sys_copyout (u_dst : Z) : M machine Z :=
  '(_, p) ← caller;
  o ← on_pmem (copyout (p_root p) u_dst ([1; 2; 3; 4; 5] ≫= le_bytes 4));
  mret (match o with None => 0 | Some _ => USIZE_MAX end).

(** The [count] words copied, printed one per line. *)
Definition sys_copyin (u_src n : Z) : M machine Z :=
  let count := Z.min n 32 in
  '(_, p) ← caller;
  '(bytes, o) ← on_pmem (copyin (p_root p) (replicate (Z.to_nat (count * 4)) 0) u_src);
  match o with
  | None =>
      for_each (B := Empty_set) (range 0 count) (fun _ k =>
        printk fuel (str_bytes "copyin[" ++ decimal k ++ str_bytes "] = " ++
          decimal (le_value (slice (Z.to_nat (4 * k)) 4 bytes)) ++ [10]);;
        mret (inl tt)) tt;;
      mret 0
  | Some _ => mret USIZE_MAX
  end.

(** [&buf[..len.saturating_sub(1)]]: without the terminator *)
Definition text_of (buf : list Z) (len : Z) : list Z := take (Z.to_nat (sat_sub len 1)) buf.

Definition sys_copyinstr (u_src : Z) : M machine Z :=
  '(_, p) ← caller;
  '(buf, r) ← on_pmem (copyin_str (p_root p) (replicate 256 0) u_src);
  match r with
  | Ok len =>
      (match from_utf8 (text_of buf len) with
       | Some _ => printk fuel (str_bytes "copyinstr: " ++ text_of buf len ++ [10])
       | None => printk fuel (str_bytes "copyinstr: <non-utf8> len=" ++ decimal len ++ str_bytes " bytes" ++ [10])
       end);;
      mret 0
  | Err _ => mret USIZE_MAX
  end.

Definition sys_print_str (u_src : Z) : M machine Z :=
  '(_, p) ← caller;
  '(buf, r) ← on_pmem (copyin_str (p_root p) (replicate 256 0) u_src);
  match r with
  | Ok len =>
      (match from_utf8 (text_of buf len) with
       | Some _ => printk fuel (text_of buf len)
       | None => mret tt
       end);;
      mret 0
  | Err _ => mret USIZE_MAX
  end.

Definition sys_print_int (a0 : Z) : M machine Z := printk fuel (decimal (as_i32 a0));; mret 0.

Definition sys_print_cwd : M machine Z :=
  '(_, p) ← caller;
  printk fuel (str_bytes "CWD Inode: " ++ decimal (p_cwd p) ++ [10]);;
  mret 0.

(** ** [brk.rs], [mmap.rs] *)

Definition sys_brk (new_top : Z) : M machine Z :=
  '(i, p) ← caller;
  let old_top := p_heap_top p in
  if new_top =? 0 then mret old_top
  else if MMAP_BEGIN <? new_top then mret USIZE_MAX
  else if new_top <? p_heap_base p then mret USIZE_MAX
  else
    new_heap_top ← align_up new_top;
    res ← (if old_top <? new_heap_top then on_pmem (heap_grow (p_root p) old_top new_heap_top)
           else if new_heap_top <? old_top then on_pmem (heap_ungrow (p_root p) old_top new_heap_top)
           else mret (Ok tt));
    match res with
    | Ok _ =>
        upd_pm i (fun p => set_heap new_heap_top (p_heap_base p) p);;
        mret new_heap_top
    | Err _ => mret USIZE_MAX
    end.

Definition sys_mmap (begin len : Z) : M machine Z :=
  '(i, p) ← caller;
  '(r, head) ← on_umem (uvm_mmap (p_root p) (p_mmap_head p) begin len MMAP_BEGIN MMAP_END);
  upd_pm i (set_mmap_head head);;
  mret (match r with Ok va => va | Err _ => USIZE_MAX end).

Definition sys_munmap (begin len : Z) : M machine Z :=
  '(i, p) ← caller;
  '(r, head) ← on_umem (uvm_munmap (p_root p) (p_mmap_head p) begin len);
  upd_pm i (set_mmap_head head);;
  mret (match r with Ok _ => 0 | Err _ => USIZE_MAX end).

(** ** [irq/timer.rs] *)

Definition INTERVAL : Z := 1000000.
Definition timer_create : M machine unit := modify (set_m_ticks 0).
Definition timer_update : M machine unit :=
  modify (fun m => set_m_ticks (wrap64 (m_ticks m + 1)) m);;
  on_sched (wakeup (e_ticks e)).
Definition get_ticks : M machine Z := gets m_ticks.
(** The result of [sbi::set_timer] is ignored. *)
Definition program_next_tick : M machine unit :=
  now ← csr time;
  upd_csr (set_stimecmp (wrap64 (now + INTERVAL))).
Definition timer_init : M machine unit := program_next_tick.
Definition timer_start (hartid : Z) : M machine unit := if hartid =? 0 then program_next_tick else mret tt.
Definition timer_wait (ticks : Z) : M machine unit :=
  start ← get_ticks;
  target ← uadd start ticks;
  loop fuel (fun (_ : unit) =>
    t ← get_ticks;
    if t <? target then sleep_ e switch (e_ticks e);; mret (inl tt)
    else mret (inr tt)) tt.

(** ** [proc.rs] *)

Definition sys_getpid : M machine Z := i ← current_proc; proc_pid i.
Definition sys_fork : M machine Z := i ← current_proc; child ← fork e i; proc_pid child.
Definition sys_exit_ (a0 : Z) : M machine Z :=
  i ← current_proc;
  on_sched (modify (upd_proc i (set_exit_code (as_i32 a0))));;
  exit e i;;
  yield_ e switch;;
  mret 0.
Definition sys_wait (addr : Z) : M machine Z :=
  r ← wait e fuel switch;
  match r with
  | Some (pid, code) =>
      (if negb (addr =? 0) then
         '(_, p) ← caller;
         on_pmem (copyout (p_root p) addr (le_bytes 4 (wrap32 code)));;
         mret tt
       else mret tt);;
      mret pid
  | None => mret USIZE_MAX
  end.
Definition sys_sleep (ticks : Z) : M machine Z := timer_wait ticks;; mret 0.

(** ** Calls of [fs.rs] that print *)

Definition sys_show_buffer : M (kernel D) Z := mret 0.
Definition sys_inode_print (a0 : Z) : M (kernel D) Z :=
  ip ← on_fs (inode_get (wrap32 a0));
  on_fs (inode_put ip);;
  mret 0.
Definition dentry_print (dir : nat) : M (fsys D) unit :=
  n ← the_inode dir;
  scan_entries (A := unit) dir (size (idisk n)) (fun _ _ => mret None);;
  mret tt.
Definition sys_dentry_print (a0 : Z) : M (kernel D) Z :=
  dir ← on_fs (inode_get (wrap32 a0));
  on_fs (dentry_print dir);;
  on_fs (inode_put dir);;
  mret 0.

(** ** The dispatcher *)

Definition dispatch (a : TrapContext) : M machine Z :=
  let n := a Reg.a7 in
  if n =? SYS_HELLOWORLD then sys_helloworld
  else if n =? SYS_COPYOUT then sys_copyout (a Reg.a0)
  else if n =? SYS_COPYIN then sys_copyin (a Reg.a0) (a Reg.a1)
  else if n =? SYS_COPYINSTR then sys_copyinstr (a Reg.a0)
  else if n =? SYS_BRK then sys_brk (a Reg.a0)
  else if n =? SYS_MMAP then sys_mmap (a Reg.a0) (a Reg.a1)
  else if n =? SYS_MUNMAP then sys_munmap (a Reg.a0) (a Reg.a1)
  else if n =? SYS_PRINT_STR then sys_print_str (a Reg.a0)
  else if n =? SYS_PRINT_INT then sys_print_int (a Reg.a0)
  else if n =? SYS_GETPID then sys_getpid
  else if n =? SYS_ALLOC_BLOCK then any_proc sys_alloc_block
  else if n =? SYS_FREE_BLOCK then any_proc (sys_free_block (a Reg.a0))
  else if n =? SYS_ALLOC_INODE then any_proc sys_alloc_inode
  else if n =? SYS_FREE_INODE then any_proc (sys_free_inode (a Reg.a0))
  else if n =? SYS_SHOW_BITMAP then any_proc sys_show_bitmap
  else if n =? SYS_GET_BLOCK then any_proc (sys_get_block (a Reg.a0))
  else if n =? SYS_READ_BLOCK then of_current (sys_read_block (a Reg.a0) (a Reg.a1))
  else if n =? SYS_WRITE_BLOCK then of_current (sys_write_block (a Reg.a0) (a Reg.a1))
  else if n =? SYS_PUT_BLOCK then any_proc (sys_put_block (a Reg.a0))
  else if n =? SYS_SHOW_BUFFER then any_proc sys_show_buffer
  else if n =? SYS_FLUSH_BUFFER then any_proc sys_flush_buffer
  else if n =? SYS_FORK then sys_fork
  else if n =? SYS_WAIT then sys_wait (a Reg.a0)
  else if n =? SYS_EXIT then sys_exit_ (a Reg.a0)
  else if n =? SYS_SLEEP then sys_sleep (a Reg.a0)
  else if n =? SYS_EXEC then sys_exec e (a Reg.a0) (a Reg.a1)
  else if n =? SYS_INODE_CREATE then any_proc (sys_inode_create (a Reg.a0) (a Reg.a1) (a Reg.a2))
  else if n =? SYS_INODE_DUP then any_proc (sys_inode_dup (a Reg.a0))
  else if n =? SYS_INODE_PUT then any_proc (sys_inode_put (a Reg.a0))
  else if n =? SYS_INODE_SET_NLINK then any_proc (sys_inode_set_nlink (a Reg.a0) (a Reg.a1))
  else if n =? SYS_INODE_GET_REFCNT then any_proc (sys_inode_get_refcnt (a Reg.a0))
  else if n =? SYS_INODE_PRINT then any_proc (sys_inode_print (a Reg.a0))
  else if n =? SYS_INODE_WRITE_DATA then of_current (sys_inode_write_data (a Reg.a0) (a Reg.a1) (a Reg.a2) (a Reg.a3))
  else if n =? SYS_INODE_READ_DATA then of_current (sys_inode_read_data (a Reg.a0) (a Reg.a1) (a Reg.a2) (a Reg.a3))
  else if n =? SYS_DENTRY_CREATE then of_current (sys_dentry_create (a Reg.a0) (a Reg.a1) (a Reg.a2))
  else if n =? SYS_DENTRY_SEARCH then of_current (sys_dentry_search (a Reg.a0) (a Reg.a1))
  else if n =? SYS_DENTRY_DELETE then of_current (sys_dentry_delete (a Reg.a0) (a Reg.a1))
  else if n =? SYS_DENTRY_PRINT then any_proc (sys_dentry_print (a Reg.a0))
  else if n =? SYS_PATH_TO_INODE then of_current (sys_path_to_inode (a Reg.a0))
  else if n =? SYS_PATH_TO_PARENT then of_current (sys_path_to_parent_inode (a Reg.a0) (a Reg.a1))
  else if n =? SYS_PREPARE_ROOT then any_proc sys_prepare_root_dir
  else if n =? SYS_OPEN then of_current (sys_open (a Reg.a0) (a Reg.a1))
  else if n =? SYS_CLOSE then of_current (sys_close (a Reg.a0))
  else if n =? SYS_READ then of_current (sys_read (a Reg.a0) (a Reg.a1) (a Reg.a2))
  else if n =? SYS_WRITE then of_current (sys_write (a Reg.a0) (a Reg.a1) (a Reg.a2))
  else if n =? SYS_LSEEK then of_current (sys_lseek (a Reg.a0) (a Reg.a1) (a Reg.a2))
  else if n =? SYS_DUP then of_current (sys_dup (a Reg.a0))
  else if n =? SYS_FSTAT then of_current (sys_fstat (a Reg.a0) (a Reg.a1))
  else if n =? SYS_GET_DENTRIES then of_current (sys_get_dentries (a Reg.a0) (a Reg.a1) (a Reg.a2))
  else if n =? SYS_MKDIR then of_current (sys_mkdir (a Reg.a0))
  else if n =? SYS_CHDIR then of_current (sys_chdir (a Reg.a0))
  else if n =? SYS_PRINT_CWD then sys_print_cwd
  else if n =? SYS_LINK then of_current (sys_link (a Reg.a0) (a Reg.a1))
  else if n =? SYS_UNLINK then of_current (sys_unlink (a Reg.a0))
  else mret USIZE_MAX.
End syscall.

(** ** Properties *)

(** A system call number that is not one of the 54 calls returns
    [usize::MAX] and leaves the machine as it is. *)
Theorem unknown_syscall_rejected {D} `{!BlockDevice D} {P} `{!Mmio P} e fuel switch (m : machine D P) ctx :
  ~ (1 <= ctx Reg.a7 <= 54) -> dispatch e fuel switch ctx m = Ret USIZE_MAX m.
Proof.
  intros Hn. assert (H : forall k, 1 <= k <= 54 -> (ctx Reg.a7 =? k) = false) by (intros k Hk; apply Z.eqb_neq; lia).
  unfold dispatch. cbv zeta. rewrite !H by (vm_compute; split; discriminate). reflexivity.
Qed.

Lemma unknown_syscall_rejected_witness :
  dispatch demo_env 5 (mret tt) (fun _ => 55) (one_process demo_pt demo_root) = Ret USIZE_MAX (one_process demo_pt demo_root).
Proof. apply unknown_syscall_rejected. lia. Defined.

(** The machine once process [i] has the heap top [top], in memory [s']. *)
Definition brk_done {D P} (m : machine D P) (i top : Z) (s' : pmem) : machine D P :=
  set_m_procs (<[i := set_heap top (p_heap_base (m_procs m i)) (m_procs m i)]> (m_procs m)) (set_m_pm s' m).

Lemma caller_run {D} `{!BlockDevice D} {P} `{!Mmio P} (m : machine D P) i : running m i -> caller m = Ret (i, m_procs m i) m.
Proof.
  intros Hrun. enough (H : wp caller (fun r m' => r = (i, m_procs m i) /\ m' = m) m) by (destruct (wp_elim _ _ _ H) as (r & m' & -> & -> & ->); done).
  unfold caller. mstep. apply (wp_current_proc _ i); [done|]. by msteps.
Qed.

(** A top that is not refused: what is left of [brk]. *)
Lemma wp_brk_moves {D} `{!BlockDevice D} {P} `{!Mmio P} (m : machine D P) i new_top Q :
  let p := m_procs m i in let old := p_heap_top p in let top := align_up_val new_top in
  running m i -> new_top <> 0 -> p_heap_base p <= new_top <= 274794012672 -> 0 <= new_top ->
  wp (res ← (if old <? top then on_pmem (heap_grow (p_root p) old top)
             else if top <? old then on_pmem (heap_ungrow (p_root p) old top) else mret (Ok tt));
      match res with Ok _ => upd_pm i (fun p => set_heap top (p_heap_base p) p);; mret top | Err _ => mret USIZE_MAX end) Q m ->
  wp (sys_brk new_top) Q m.
Proof.
  intros p old top Hrun Hnz Hok H0 HQ. unfold sys_brk. mstep. eapply wp_intro; [by apply caller_run|]. cbv beta iota.
  change MMAP_BEGIN with 274794012672. fold p.
  rewrite (proj2 (Z.eqb_neq new_top 0)), (proj2 (Z.ltb_ge 274794012672 new_top)), (proj2 (Z.ltb_ge new_top _)) by lia.
  mstep. apply wp_align_up; [lia|page_lia|]. exact HQ.
Qed.

(** C28: [brk], on every branch. 0 asks for the top of the heap; a top beyond
    the heap's room or below its base is refused, and neither changes anything.
    Otherwise the top rounded up to a page becomes the top and is returned, and
    of the machine only that and the memory change: above the present top,
    zeroed pages of their own are mapped up to the new one (when there are
    pages and addresses for them); below it, exactly the pages from the new top
    to the old are unmapped and their frames given back (when they are mapped
    to frames of the process); and when the tops are equal memory stays. *)
Theorem sys_brk_correct {D} `{!BlockDevice D} {P} `{!Mmio P} kb ub (m : machine D P) i T new_top :
  let p := m_procs m i in let old := p_heap_top p in let top := align_up_val new_top in
  running m i -> pmem_inv kb ub (m_pm m) -> pt_wf kb ub (m_pm m) (p_root p) T -> 0 <= old <= MMAP_BEGIN -> old mod PGSIZE = 0 -> 0 <= new_top ->
  (new_top = 0 -> sys_brk new_top m = Ret old m) /\
  (MMAP_BEGIN < new_top \/ 0 < new_top < p_heap_base p -> sys_brk new_top m = Ret USIZE_MAX m) /\
  (p_heap_base p <= new_top <= MMAP_BEGIN -> new_top <> 0 ->
    (old < top -> user_room (m_pm m) T old top ->
      wp (sys_brk new_top) (fun r m' => r = top /\ m' = brk_done m i top (m_pm m') /\
        exists fr T', user_grown (kb := kb) (ub := ub) (root := p_root p) (m_pm m) T old top fr (m_pm m') T') m) /\
    (top < old -> unmappable (kb := kb) (ub := ub) (m_pm m) T top (old - PGSIZE) true false ->
      wp (sys_brk new_top) (fun r m' => r = top /\ m' = brk_done m i top (m_pm m') /\
        unmapped (kb := kb) (ub := ub) (root := p_root p) (m_pm m) T top true false old (m_pm m')) m) /\
    (top = old -> wp (sys_brk new_top) (fun r m' => r = top /\ m' = brk_done m i top (m_pm m)) m)).
Proof.
  intros p old top Hrun Hinv Hwf Ho Hal Hnt.
  split; [|split].
  - intros ->. unfold sys_brk. by rewrite (bind_run _ _ _ _ _ (caller_run m i Hrun)).
  - intros Hbad. unfold sys_brk. rewrite (bind_run _ _ _ _ _ (caller_run m i Hrun)). fold p. rewrite (proj2 (Z.eqb_neq new_top 0)) by (change MMAP_BEGIN with 274794012672 in *; lia).
    destruct (Z.ltb_spec MMAP_BEGIN new_top); [done|]. by rewrite (proj2 (Z.ltb_lt new_top _)) by lia.
  - intros Hok Hnz. change MMAP_BEGIN with 274794012672 in *. destruct (align_up_val_spec new_top) as [Ha1 Ha2]. fold top in Ha1, Ha2.
    assert (Hup : align_up_val old = old) by by apply align_up_aligned. assert (Htt : align_up_val top = top) by by apply align_up_aligned.
    assert (Hmx : top <= 274794012672) by (unfold PGSIZE in *; pose proof (Z.div_mod top 4096); lia).
    pose proof (fun Q => wp_brk_moves m i new_top Q Hrun Hnz Hok Hnt) as Hstart. fold p old top in Hstart.
    split; [|split].
    + intros Hlt Hroom. apply Hstart. rewrite (proj2 (Z.ltb_lt old top)) by lia.
      mstep. mstep. eapply wp_mono; [|apply (wp_heap_grow (kb := kb) (ub := ub) (m_pm m) T old top); [done|done|lia|done|by rewrite Hup, Htt]].
      intros r s' (-> & fr & T' & Hg). rewrite Hup, Htt in Hg. msteps. split; [done|]. split; [done|]. by exists fr, T'.
    + intros Hlt Hum. apply Hstart. rewrite (proj2 (Z.ltb_ge old top)), (proj2 (Z.ltb_lt top old)) by lia.
      mstep. mstep. eapply wp_mono; [|apply (wp_heap_ungrow (kb := kb) (ub := ub) (m_pm m) T old top); try done; change VA_MAX with 274877906944; lia].
      intros r s' [-> Hu]. by msteps.
    + intros Heq. apply Hstart. rewrite (proj2 (Z.ltb_ge old top)), (proj2 (Z.ltb_ge top old)) by lia. msteps.
      split; [done|]. by destruct m.
Qed.

Lemma sys_brk_correct_witness :
  wp (sys_brk 0x3800) (fun r m' => r = 0x4000 /\ allocable (inner (region false (m_pm m'))) = 14) (one_process demo_pt demo_root).
Proof.
  assert (Hrun : running (one_process demo_pt demo_root) 0) by (split; [split; [discriminate|reflexivity]|reflexivity]).
  destruct (sys_brk_correct demo_kb demo_ub (one_process demo_pt demo_root) 0 demo_tree 0x3800 Hrun demo_pt_inv demo_pt_wf) as (_ & _ & H);
    [split; discriminate|reflexivity|discriminate|].
  destruct H as (H & _ & _); [split; discriminate|discriminate|].
  eapply wp_mono; [|apply H].
  - intros r m' (-> & _ & fr & T' & Hg). split; [reflexivity|].
    change (m_pm (one_process demo_pt demo_root)) with demo_pt in Hg.
    rewrite (gr_user _ _ _ _ _ _ _ _ _ _ Hg). vm_compute. reflexivity.
  - reflexivity.
  - split; [intros _; vm_compute; discriminate|]. split; [vm_compute; discriminate|]. intros va _. apply demo_pt_trans.
Defined.
