(* ===== verification/Trap.v ===== *)
(** * Traps and interrupts ([irq/trap/], [irq/interrupt.rs], [irq/vector.rs], [irq/mod.rs], [asm/trampoline.S])

    From the instruction a user program traps at to the one it resumes at: the
    trampoline saves its registers in the trap frame, the handlers run, the
    trampoline restores them. The trampoline reaches the trap frame through
    the user page table, which maps it at [sscratch]; here it is named by its
    physical address. *)
From stdpp Require Import functions.
From S2P Require Import Prelude Addr PhysMem PageTable FreshPages Vm MmapWarehouse Uvm.
From S2P Require Import Lru BufferCache FsState Bitmap InodeLayer Directory FileTable FsSyscall RunQueue Scheduler.
From S2P Require Import Plic Utf8 Uart Virtio Machine Process Exec Syscall.

Definition SPP_BIT : Z := Z.shiftl 1 8.

Section trap.
Context {D : Type} `{!BlockDevice D} {P : Type} `{!Mmio P}.
(** The linker's addresses, [dtb::plic_base()], and the bound on polls. *)
Variables (e : kenv) (plic : option Z) (fuel : nat).
Local Abbreviation machine := (machine D P).
(** What runs between a switch away from a process and its resumption. *)
Variable switch : M machine unit.

(** ** [irq/interrupt.rs], [irq/vector.rs], [irq/mod.rs] *)

Definition clear_sie : M machine unit := on_sched (modify (set_sie false)).
Definition set_sie_ : M machine unit := on_sched (modify (set_sie true)).

(** [sie::set_sext], [set_ssoft], [set_stimer] *)
Definition set_sie_bit (b : Z) : M machine unit := upd_csr (fun c => set_sie_bits (Z.lor (sie_bits c) (Z.shiftl 1 b)) c).
Definition enable_s : M machine unit :=
  hartid ← getid;
  upd_csr (set_sscratch hartid);;
  set_sie_;;
  set_sie_bit 9;;
  set_sie_bit 1;;
  set_sie_bit 5;;
  timer_start hartid.
Definition disable_s : M machine unit := clear_sie.

Definition upd_nest (h : Z) (n : Z) : M machine unit := modify (fun m => set_m_nest (<[h := n]> (m_nest m)) m).
Definition enter : M machine unit :=
  h ← hart_get;
  n ← gets (fun m => m_nest m h);
  n' ← uadd n 1;
  upd_nest h n'.
Definition leave : M machine unit :=
  h ← hart_get;
  n ← gets (fun m => m_nest m h);
  if 0 <? n then upd_nest h (n - 1) else mret tt.

Definition vector_init : M machine unit := upd_csr (set_stvec (e_kernel_vector e)).

Definition irq_init : M machine unit :=
  on_mmio (plic_init plic);;
  timer_create;;
  u ← gets m_uart;
  on_mmio (uart_enable u).
Definition irq_init_hart (hartid : Z) : M machine unit :=
  on_mmio (plic_init_hart plic hartid);;
  vector_init;;
  enable_s.

(** ** [trap/kernel.rs] *)

(** [sstatus::read().bits()]: the bits [SIE] and [SPP] *)
Definition sstatus_bits : M machine Z :=
  s ← gets (fun m => sie (m_sched m));
  p ← csr spp;
  mret ((if s : bool then 2 else 0) + (if p : bool then SPP_BIT else 0)).

(** [disk::intr]; [rw] holds [DISK] only while interrupts are off, so a handler
    finds it free. *)
Definition disk_intr : M machine unit :=
  zoom (fun m => mkVdisk (m_pm m) (m_dev m) None true false (sie (m_sched m))) (fun v m => set_m_dev (v_dev v) m) intr.

Definition external_handler : M machine unit :=
  hartid ← getid;
  id ← on_mmio (claim plic hartid);
  if id =? 0 then mret tt
  else
    (if id =? UART_IRQ then
       u ← gets m_uart;
       on_mmio (handler fuel u)
     else if id =? VIRTIO0_IRQ then disk_intr
     else panic "Unexpected interrupt id");;
    on_mmio (complete plic hartid id).

(** Only a trap from user mode gives the processor up. *)
Definition yield_from_user (sstatus_bits : Z) : M machine unit :=
  if Z.land sstatus_bits SPP_BIT =? 0 then yield_ e switch else mret tt.

Definition timer_handler_ssip (sstatus_bits : Z) : M machine unit :=
  hartid ← getid;
  (if hartid =? 0 then timer_update e else mret tt);;
  upd_csr (set_ssip false);;
  yield_from_user sstatus_bits.
Definition timer_handler_stip (sstatus_bits : Z) : M machine unit :=
  hartid ← getid;
  (if hartid =? 0 then timer_update e else mret tt);;
  program_next_tick;;
  yield_from_user sstatus_bits.

Definition interrupt_handler (code sstatus_bits : Z) : M machine unit :=
  if code =? 9 then external_handler
  else if code =? 5 then timer_handler_stip sstatus_bits
  else if code =? 1 then timer_handler_ssip sstatus_bits
  else mret tt.

(** [user::syscall_handler] *)
Definition syscall_handler (ctx : TrapContext) : M machine TrapContext :=
  ret ← dispatch e fuel switch ctx;
  mret (set_reg Reg.a0 ret ctx).

(** [Process::ustack_grow] *)
Definition proc_ustack_grow (i fault_va : Z) : M machine (result unit unit) :=
  p ← proc_mem i;
  r ← on_pmem (ustack_grow (p_root p) fault_va);
  mret (match r with Ok _ => Ok tt | Err _ => Err tt end).

Definition exception_handler (code epc tval : Z) (ctx : TrapContext) : M machine TrapContext :=
  if code =? 8 then
    ctx' ← syscall_handler ctx;
    upd_csr (set_sepc (wrap64 (epc + 4)));;
    mret ctx'
  else
    grown ← (if (code =? 13) || (code =? 15) then
               i ← current_proc;
               r ← proc_ustack_grow i tval;
               mret (match r with Ok _ => true | Err _ => false end)
             else mret false);
    if grown : bool then mret ctx else panic "Kernel panic due to exception".

Definition trap_kernel_handler (ctx : TrapContext) : M machine TrapContext :=
  enter;;
  sc ← csr scause;
  epc ← csr sepc;
  tval ← csr stval;
  bits ← sstatus_bits;
  ctx' ← (if sc.1 : bool then
            interrupt_handler sc.2 bits;;
            mret ctx
          else exception_handler sc.2 epc tval ctx);
  leave;;
  mret ctx'.

(** ** [trap/user.rs], [asm/trampoline.S] *)

(** [user_return]: the trap frame's registers, [sret] to [sepc]. *)
Definition user_return (tf tf_va satp : Z) : M machine TrapContext :=
  upd_csr (set_satp satp);;
  upd_csr (set_sscratch tf_va);;
  on_pmem (tf_regs tf).

Definition trap_user_return : M machine TrapContext :=
  i ← current_proc;
  p ← proc_mem i;
  let tf := p_trapframe p in
  clear_sie;;
  off ← usub (e_user_vector e) (e_trampoline e);
  user_vec_addr ← uadd TRAMP_VA off;
  upd_csr (set_stvec user_vec_addr);;
  epc ← on_pmem (tf_load tf KERNEL_EPC);
  upd_csr (set_sepc epc);;
  upd_csr (set_spp false);;
  on_pmem (tf_store tf (tf_reg Reg.t6) tf);;
  on_pmem (tf_store tf KERNEL_TRAPVECTOR (e_trap_user_handler e));;
  satp ← csr satp;
  on_pmem (tf_store tf KERNEL_SATP satp);;
  hartid ← getid;
  on_pmem (tf_store tf KERNEL_HARTID hartid);;
  kstack ← expect (p_kstack p) "called `Option::unwrap()` on a `None` value";
  on_pmem (tf_store tf KERNEL_SP (ks_top kstack));;
  upd_csr (set_sscratch (p_trapframe_va p));;
  pid ← proc_pid i;
  off ← usub (e_user_return e) (e_trampoline e);
  uadd TRAMP_VA off;;
  user_return tf (p_trapframe_va p) (root_satp (p_root p) pid).

(** [fs_init_wrapper] of [proc/process.rs], where the first process starts:
    the file system is set up in its context, then it goes to user mode. *)
Definition fs_init_wrapper : M machine TrapContext :=
  i ← current_proc;
  on_kernel i (on_fs fs_init);;
  trap_user_return.

Definition trap_user_handler (tf : Z) : M machine TrapContext :=
  upd_csr (set_stvec (e_kernel_vector e));;
  epc ← csr sepc;
  on_pmem (tf_store tf KERNEL_EPC epc);;
  kctx ← on_pmem (tf_regs tf);
  kctx' ← trap_kernel_handler kctx;
  on_pmem (put_regs tf kctx');;
  epc ← csr sepc;
  on_pmem (tf_store tf KERNEL_EPC epc);;
  trap_user_return.

(** [user_vector], [tf] the page [sscratch] points to: the registers are saved,
    the kernel's are loaded, and the handler gets the pointer kept in [t6]. *)
Definition user_vector (tf : Z) (x : TrapContext) : M machine Z :=
  a3 ← on_pmem (tf_load tf (tf_reg Reg.t6));
  on_pmem (put_regs tf (set_reg Reg.a3 a3 x));;
  upd_csr (set_sscratch (x Reg.a0));;
  hartid ← on_pmem (tf_load tf KERNEL_HARTID);
  on_pmem (tf_store tf (tf_reg Reg.tp) hartid);;
  satp ← on_pmem (tf_load tf KERNEL_SATP);
  upd_csr (set_satp satp);;
  mret a3.

(** The hart takes a trap: [sepc], [scause], [stval], [sstatus]. *)
Definition take_trap (pc : Z) (cause : bool * Z) (tval : Z) : M machine unit :=
  upd_csr (fun c => mkCsrs pc cause tval false (stvec c) (sscratch c) (satp c) (ssip c) (sie_bits c) (time c) (stimecmp c) (tp c));;
  clear_sie.

(** A user program of process [i] with registers [x] traps at [pc]; the answer
    is its registers when it runs again, at [sepc]. *)
Definition user_trap (i : Z) (x : TrapContext) (pc : Z) (cause : bool * Z) (tval : Z) : M machine TrapContext :=
  take_trap pc cause tval;;
  p ← proc_mem i;
  arg ← user_vector (p_trapframe p) x;
  trap_user_handler arg.
End trap.

(** ** Into the kernel and back *)

Section round.
Context {D : Type} `{!BlockDevice D} {P : Type} `{!Mmio P}.
Context (e : kenv) (plic : option Z) (fuel : nat) (switch : M (machine D P) unit).
Implicit Types (m : machine D P) (x c : TrapContext).

(** The trampoline is one page. *)
Record env_fits : Prop := {
  ef_vector : 0 <= e_user_vector e - e_trampoline e < PGSIZE;
  ef_return : 0 <= e_user_return e - e_trampoline e < PGSIZE;
}.

(** Process [i] runs and can be returned to: its trap frame is [tf], its kernel
    stack is there. *)
Record resumable m (i tf : Z) : Prop := {
  re_running : running m i;
  re_frame : p_trapframe (m_procs m i) = tf;
  re_kstack : exists k, p_kstack (m_procs m i) = Some k;
}.

(** The program runs: the last return to it left the pointer and the hart in
    the trap frame. *)
Record in_user m (i tf : Z) : Prop := {
  iu_resumable : resumable m i tf;
  iu_self : mem (m_pm m) (tf + tf_reg Reg.t6) = tf;
  iu_hart : mem (m_pm m) (tf + KERNEL_HARTID) = tp (m_csr m);
}.

(** The registers the trampoline hands to the kernel: the program's, apart from
    [a3] and [tp]. *)
Definition saved (tf hartid : Z) x : TrapContext := set_reg Reg.tp hartid (set_reg Reg.a3 tf x).

(** The state in which [trap_kernel_handler] starts. *)
Record kernel_entry m (i tf : Z) x (pc : Z) (cause : bool * Z) (tval : Z) (kctx : TrapContext) m1 : Prop := {
  ke_ctx : forall r, kctx r = saved tf (tp (m_csr m)) x r;
  ke_sepc : sepc (m_csr m1) = pc;
  ke_cause : scause (m_csr m1) = cause;
  ke_tval : stval (m_csr m1) = tval;
  ke_spp : spp (m_csr m1) = false;
  ke_time : time (m_csr m1) = time (m_csr m);
  ke_tp : tp (m_csr m1) = tp (m_csr m);
  ke_stvec : stvec (m_csr m1) = e_kernel_vector e;
  ke_satp : satp (m_csr m1) = mem (m_pm m) (tf + KERNEL_SATP);
  ke_sched : m_sched m1 = set_sie false (m_sched m);
  ke_procs : m_procs m1 = m_procs m;
  ke_dev : m_dev m1 = m_dev m;
  ke_uart : m_uart m1 = m_uart m;
  ke_nest : m_nest m1 = m_nest m;
  ke_ticks : m_ticks m1 = m_ticks m;
  ke_mem : forall a, ~ (tf <= a <= tf + 280) -> mem (m_pm m1) a = mem (m_pm m) a;
}.

(** The program as it runs again after the handler returned [c] in [m2]. *)
Record resumed (i tf : Z) c m2 x' m' : Prop := {
  rs_regs : forall r, x' r = if decide (r = Reg.t6) then tf else c r;
  rs_sepc : sepc (m_csr m') = sepc (m_csr m2);
  rs_spp : spp (m_csr m') = false;
  rs_sscratch : sscratch (m_csr m') = p_trapframe_va (m_procs m2 i);
  rs_satp : satp (m_csr m') = root_satp (p_root (m_procs m2 i)) (pid (PROC_TABLE (m_sched m2) i));
  rs_procs : m_procs m' = m_procs m2;
  rs_nest : m_nest m' = m_nest m2;
  rs_ticks : m_ticks m' = m_ticks m2;
  rs_sched : m_sched m' = set_sie false (m_sched m2);
  rs_dev : m_dev m' = m_dev m2;
  rs_time : time (m_csr m') = time (m_csr m2) /\ stimecmp (m_csr m') = stimecmp (m_csr m2);
  rs_user : in_user m' i tf;
}.

Lemma wp_trap_user_return m2 i tf c (Q : TrapContext -> machine D P -> Prop) : env_fits -> resumable m2 i tf ->
  (forall r, mem (m_pm m2) (tf + tf_reg r) = c r) -> mem (m_pm m2) (tf + KERNEL_EPC) = sepc (m_csr m2) ->
  (forall x' m', resumed i tf c m2 x' m' -> Q x' m') -> wp (trap_user_return e) Q m2.
Proof.
  intros [[Hv1 Hv2] [Hr1 Hr2]] [Hrun Hf [k Hk]] Hc Hepc HQ. assert (Hpg : PGSIZE = 4096) by done.
  assert (Hva : TRAMP_VA = 0x3FFFFFF000) by done. unfold trap_user_return.
  mstep. apply (wp_current_proc _ i); [done|]. apply at_start. asteps. cbv zeta. rewrite Hf. unfold clear_sie. asteps.
  eapply wp_expect; [exact Hk|]. asteps. unfold proc_pid at 1. mstep. asteps. unfold user_return. asteps.
  apply HQ. clear HQ.
  assert (Hne : forall r off, off < 40 -> tf + tf_reg r <> tf + off) by (intros r off; pose proof (tf_reg_range r); lia).
  split; cbn.
  - intros r. rewrite !upd_ne by (apply Hne; unfold KERNEL_SP, KERNEL_HARTID, KERNEL_SATP, KERNEL_TRAPVECTOR; lia).
    destruct (decide (r = Reg.t6)) as [->|Hr]; [apply upd_eq|]. rewrite upd_ne; [apply Hc|]. intros E. apply Hr, tf_reg_inj. lia.
  - exact Hepc.
  - done.
  - done.
  - done.
  - done.
  - done.
  - done.
  - done.
  - done.
  - done.
  - split; [split|..]; cbn.
    + destruct Hrun. by split.
    + done.
    + by exists k.
    + rewrite !upd_ne by (apply Hne; unfold KERNEL_SP, KERNEL_HARTID, KERNEL_SATP, KERNEL_TRAPVECTOR; lia). apply upd_eq.
    + rewrite upd_ne by (unfold KERNEL_SP, KERNEL_HARTID; lia). apply upd_eq.
Qed.
(** A trap from user mode: whatever the kernel's handler does from the entry
    state, the program sees its result, or the process is not resumable. *)
Lemma wp_user_trap m i tf x pc cause tval (Q : TrapContext -> machine D P -> Prop) : env_fits -> in_user m i tf ->
  (forall kctx m1, kernel_entry m i tf x pc cause tval kctx m1 -> resumable m1 i tf ->
    wp (trap_kernel_handler e plic fuel switch kctx) (fun c m2 => resumable m2 i tf /\
      forall x' m', resumed i tf c m2 x' m' -> Q x' m') m1) ->
  wp (user_trap e plic fuel switch i x pc cause tval) Q m.
Proof.
  intros Hfit [Hres Hself Hhart] HH. pose proof Hres as [[Hh Hp] Hf Hk].
  unfold user_trap, take_trap, clear_sie. msteps. cbn [m_procs set_m_csr set_m_sched]. rewrite Hf.
  unfold user_vector. msteps. unfold trap_user_handler. cbn [m_pm m_csr set_m_csr set_m_sched set_m_pm set_mem mem].
  rewrite Hself. msteps.
  eapply wp_mono; [|apply HH].
  - intros c m2 [Hres2 HQ]. msteps. eapply (wp_trap_user_return _ i tf c); [done| | | |].
    + destruct Hres2 as [[Hh2 Hp2] Hf2 Hk2]. by split; [split|..].
    + intros r. cbn. rewrite upd_ne by (pose proof (tf_reg_range r); unfold KERNEL_EPC; lia). apply put_regs_in.
    + cbn. apply upd_eq.
    + intros x' m' [H1 H2 H3 H4 H5 H6 H7 H8 H9 H10 H11 H12]. apply HQ. by split.
  - split; cbn -[foldl]; try done.
    + intros r. rewrite upd_ne by (pose proof (tf_reg_range r); unfold KERNEL_EPC; lia). unfold saved.
      destruct (decide (r = Reg.tp)) as [->|Hr].
      * rewrite set_reg_eq, upd_eq. rewrite put_regs_low by (unfold KERNEL_HARTID; lia). done.
      * rewrite set_reg_ne, upd_ne by (done || intros E; apply Hr, tf_reg_inj; lia). apply put_regs_in.
    + rewrite upd_ne by (unfold KERNEL_SATP, tf_reg; simpl; lia). apply put_regs_low. unfold KERNEL_SATP. lia.
    + intros a Ha. rewrite upd_ne by (unfold KERNEL_EPC; lia). rewrite upd_ne by (unfold tf_reg; simpl; lia).
      apply put_regs_out. intros r. pose proof (tf_reg_range r). lia.
  - split; [split|..]; done.
Qed.
(** *** Inside the handler *)

Definition nested m : machine D P := set_m_nest (<[tp (m_csr m) := m_nest m (tp (m_csr m)) + 1]> (m_nest m)) m.
Definition nest_ok m : Prop := 0 <= m_nest m (tp (m_csr m)) < U64 - 1.

Lemma wp_enter m (Q : unit -> machine D P -> Prop) : tp (m_csr m) < MAX_HARTS -> nest_ok m -> Q tt (nested m) -> wp enter Q m.
Proof.
  intros Hh [H1 H2] HQ. unfold enter. mstep. apply wp_hart_get; [done|]. mstep. mstep. mstep.
  mstep. unfold upd_nest. by mstep.
Qed.

(** The handler on an interrupt taken in user mode. *)
Lemma wp_user_interrupt m1 code kctx (Q : TrapContext -> machine D P -> Prop) :
  tp (m_csr m1) < MAX_HARTS -> nest_ok m1 -> scause (m_csr m1) = (true, code) -> spp (m_csr m1) = false -> sie (m_sched m1) = false ->
  wp (interrupt_handler e plic fuel switch code 0) (fun _ m2 => tp (m_csr m2) < MAX_HARTS /\ wp leave (fun _ m3 => Q kctx m3) m2) (nested m1) ->
  wp (trap_kernel_handler e plic fuel switch kctx) Q m1.
Proof.
  intros Hh Hn Hc Hs Hi HH. unfold trap_kernel_handler. mstep. apply wp_enter; [done|done|]. msteps. unfold sstatus_bits. msteps.
  change (m_csr (nested m1)) with (m_csr m1). change (m_sched (nested m1)) with (m_sched m1). rewrite Hc, Hs, Hi. cbn [fst snd].
  change (0 + 0) with 0. mstep. eapply wp_mono; [|exact HH]. intros [] m2 [_ Hl]. mstep. mstep.
  eapply wp_mono; [|exact Hl]. intros [] m3 HQ. by mstep.
Qed.

Lemma wp_leave_nested m m2 (Q : unit -> machine D P -> Prop) : tp (m_csr m2) = tp (m_csr m) -> tp (m_csr m) < MAX_HARTS -> nest_ok m ->
  m_nest m2 = m_nest (nested m) ->
  (forall n, n (tp (m_csr m)) = m_nest m (tp (m_csr m)) -> (forall h, h <> tp (m_csr m) -> n h = m_nest m h) -> Q tt (set_m_nest n m2)) ->
  wp leave Q m2.
Proof.
  intros Ht Hh [Hn _] Hnest HQ. unfold leave. mstep. apply wp_hart_get; [lia|]. mstep. mstep. rewrite Ht, Hnest.
  unfold nested. cbn [m_nest set_m_nest]. rewrite fn_lookup_insert, (proj2 (Z.ltb_lt _ _)) by lia.
  unfold upd_nest. mstep. rewrite Hnest. apply HQ.
  - unfold nested. cbn [m_nest set_m_nest]. rewrite fn_lookup_insert. lia.
  - intros h Hne. unfold nested. cbn [m_nest set_m_nest]. by rewrite !fn_lookup_insert_ne.
Qed.
End round.

(** ** External interrupts *)

Section external.
Context {D : Type} `{!BlockDevice D} {P : Type} `{!Mmio P}.
Context (plic : option Z) (fuel : nat).
Implicit Types (m : machine D P) (d : P).

(** What the devices see of [external_handler]. *)
Definition external_dev (u : option Uart) (hartid : Z) : M P unit :=
  id ← claim plic hartid;
  if id =? 0 then mret tt
  else
    (if id =? UART_IRQ then handler fuel u
     else if id =? VIRTIO0_IRQ then
       status ← volatile_read 4 (VIRTIO0 + VIRTIO_MMIO_INTERRUPT_STATUS);
       volatile_write 4 (VIRTIO0 + VIRTIO_MMIO_INTERRUPT_ACK) (Z.land status 3)
     else panic "Unexpected interrupt id");;
    complete plic hartid id.

Lemma disk_intr_dev m : disk_intr m =
  on_mmio (status ← volatile_read 4 (VIRTIO0 + VIRTIO_MMIO_INTERRUPT_STATUS);
           volatile_write 4 (VIRTIO0 + VIRTIO_MMIO_INTERRUPT_ACK) (Z.land status 3)) m.
Proof.
  unfold disk_intr, intr, on_mmio, zoom, reg_read, reg_write, v_mmio, zoom, lock_disk, unlock_disk, mbind, M_bind, gets, modify.
  cbn [v_locked v_dev set_v_locked]. unfold volatile_read, volatile_write. by destruct (mmio_read 4 _ (m_dev m)).
Qed.

Lemma wp_external m (Q : unit -> machine D P -> Prop) :
  wp (external_dev (m_uart m) (tp (m_csr m))) (fun _ d' => Q tt (set_m_dev d' m)) (m_dev m) -> wp (external_handler plic fuel) Q m.
Proof.
  unfold external_dev, external_handler. intros H. msteps. unfold wp in H |- *. unfold mbind, M_bind in H.
  destruct (claim plic (tp (m_csr m)) (m_dev m)) as [id d1| |]; [|done|done]. destruct (id =? 0); [exact H|].
  unfold mbind, M_bind. destruct (id =? UART_IRQ).
  - unfold gets, on_mmio, zoom. cbn [m_uart m_dev set_m_dev]. destruct (handler fuel (m_uart m) d1) as [[] d2| |]; [|done|done].
    cbn [m_dev set_m_dev]. destruct (complete _ _ _ d2) as [[] ?| |]; done.
  - destruct (id =? VIRTIO0_IRQ); [|done]. rewrite disk_intr_dev. unfold on_mmio, zoom, mbind, M_bind.
    cbn [m_dev set_m_dev]. destruct (volatile_read 4 _ d1) as [st d2| |]; [|done|done].
    destruct (volatile_write _ _ _ d2) as [[] d3| |]; [|done|done]. cbn [m_dev set_m_dev]. destruct (complete _ _ _ d3) as [[] ?| |]; done.
Qed.
End external.

Section served.
Context {D : Type} `{!BlockDevice D} {P : Type} `{!Mmio P}.
Context (e : kenv) (plic : option Z) (fuel : nat) (switch : M (machine D P) unit).
Implicit Types (m : machine D P) (x c : TrapContext).

(** The scheduler's part of a yield: the process keeps the hart until the switch. *)
Lemma wp_yield_half base psize s i (Q : unit -> sched -> Prop) : 0 < psize -> 0 <= i < NPROC -> hart_proc s = Some i -> table_locked s = false ->
  (forall s', hart_proc s' = Some i -> (forall j, j <> i -> PROC_TABLE s' j = PROC_TABLE s j) -> Q tt s') -> wp (yield_proc base psize) Q s.
Proof.
  intros Hp Hi Hh Hl HQ. unfold yield_proc, current. do 3 wp_step. rewrite Hh. apply (wp_expect _ _ i); [done|].
  unfold make_runnable. do 2 mstep. destruct (decide _); [|wp_step; by apply HQ].
  wp_step. wp_step. wp_step. eapply wp_intro; [by apply find_proc_index_run|]. apply wp_mark; [done|].
  apply HQ; [done|]. intros j Hj. cbn. by apply fn_lookup_insert_ne.
Qed.

(** The registers a program keeps through any trap. *)
Definition kept (r : reg) : Prop := r <> Reg.a3 /\ r <> Reg.tp /\ r <> Reg.t6.

Lemma saved_kept tf h x r : kept r -> saved tf h x r = x r.
Proof. intros (H1 & H2 & H3). unfold saved. by rewrite !set_reg_ne. Qed.

(** An interrupt whose handling changes devices only. *)
Lemma wp_device_interrupt m i tf x pc tval R : env_fits e -> in_user m i tf -> nest_ok m ->
  wp (external_dev plic fuel (m_uart m) (tp (m_csr m))) (fun _ d' => R d') (m_dev m) ->
  wp (user_trap e plic fuel switch i x pc (true, 9) tval) (fun x' m' =>
    R (m_dev m') /\ sepc (m_csr m') = pc /\ (forall r, x' r = if decide (r = Reg.t6) then tf else saved tf (tp (m_csr m)) x r) /\
    (forall h, m_nest m' h = m_nest m h) /\ m_procs m' = m_procs m /\ m_sched m' = set_sie false (m_sched m) /\ in_user m' i tf) m.
Proof.
  intros Hfit Hu Hn Hd. pose proof (ru_hart _ _ (re_running _ _ _ (iu_resumable _ _ _ Hu))) as [_ Hh].
  apply (wp_user_trap e plic fuel switch m i tf); [done|done|]. intros kctx m1 He Hr. pose proof He as [].
  assert (Hn1 : nest_ok m1) by (unfold nest_ok; by rewrite ke_nest0, ke_tp0).
  assert (Hh1 : tp (m_csr m1) < MAX_HARTS) by by rewrite ke_tp0.
  apply (wp_user_interrupt e plic fuel switch m1 9); [done|done|done|done|by rewrite ke_sched0|].
  unfold interrupt_handler. cbn [Z.eqb Pos.eqb]. apply wp_external. eapply wp_mono; [|].
  2: { change (m_uart (nested m1)) with (m_uart m1). change (m_dev (nested m1)) with (m_dev m1). change (m_csr (nested m1)) with (m_csr m1).
       rewrite ke_uart0, ke_dev0, ke_tp0. exact Hd. }
  intros [] d' HR. split; [done|]. apply (wp_leave_nested m1); [done|done|done|done|].
  intros n Hn1' Hn2'. split; [by destruct Hr as [[] ? ?]; split; [split|..]|].
  intros x' m' []. split_and!.
  - by rewrite rs_dev0.
  - by rewrite rs_sepc0.
  - intros r. rewrite rs_regs0. by destruct (decide _).
  - intros h. rewrite rs_nest0. cbn [m_nest set_m_nest]. rewrite ke_nest0, ke_tp0 in *.
    destruct (decide (h = tp (m_csr m))) as [->|]; auto.
  - by rewrite rs_procs0.
  - rewrite rs_sched0. cbn [m_sched set_m_nest set_m_dev nested]. by rewrite ke_sched0.
  - done.
Qed.
Lemma wp_leave_any m (Q : unit -> machine D P -> Prop) : tp (m_csr m) < MAX_HARTS -> (forall n, Q tt (set_m_nest n m)) -> wp leave Q m.
Proof.
  intros Hh HQ. unfold leave. mstep. apply wp_hart_get; [done|]. mstep. mstep. destruct (0 <? _).
  - unfold upd_nest. mstep. apply HQ.
  - mstep. specialize (HQ (m_nest m)). by destruct m.
Qed.

Lemma resumable_nest n m i tf : resumable m i tf -> resumable (set_m_nest n m) i tf.
Proof. intros [[] ? ?]. by split; [split|..]. Qed.
Lemma resumable_sepc y m i tf : resumable m i tf -> resumable (set_m_csr (set_sepc y (m_csr m)) m) i tf.
Proof. intros [[] ? ?]. by split; [split|..]. Qed.

(** A system call: the result in [a0], the next instruction, and the rest of the
    registers that are kept at all. *)
Lemma wp_user_syscall m i tf x pc tval ret (R : machine D P -> Prop) : env_fits e -> in_user m i tf -> nest_ok m ->
  (forall kctx m1, kernel_entry e m i tf x pc (false, 8) tval kctx m1 -> resumable m1 i tf ->
    wp (dispatch e fuel switch kctx) (fun r m2 => r = ret /\ resumable m2 i tf /\ R m2) (nested m1)) ->
  wp (user_trap e plic fuel switch i x pc (false, 8) tval) (fun x' m' =>
    x' Reg.a0 = ret /\ sepc (m_csr m') = wrap64 (pc + 4) /\
    (forall r, r <> Reg.a0 -> x' r = if decide (r = Reg.t6) then tf else saved tf (tp (m_csr m)) x r) /\ in_user m' i tf /\
    exists m2, R m2 /\ m_procs m' = m_procs m2 /\ m_dev m' = m_dev m2 /\ m_sched m' = set_sie false (m_sched m2)) m.
Proof.
  intros Hfit Hu Hn HH. pose proof (ru_hart _ _ (re_running _ _ _ (iu_resumable _ _ _ Hu))) as [_ Hh].
  apply (wp_user_trap e plic fuel switch m i tf); [done|done|]. intros kctx m1 He Hr. specialize (HH kctx m1 He Hr). pose proof He as [].
  unfold trap_kernel_handler. mstep. apply wp_enter; [by rewrite ke_tp0|unfold nest_ok; by rewrite ke_nest0, ke_tp0|].
  msteps. unfold sstatus_bits. msteps. change (m_csr (nested m1)) with (m_csr m1). rewrite ke_cause0. cbn [fst snd].
  unfold exception_handler. cbn [Z.eqb Pos.eqb]. mstep. unfold syscall_handler. mstep. eapply wp_mono; [|exact HH].
  intros r m2 (-> & Hr2 & HR). msteps. apply wp_leave_any; [apply Hr2|]. intros n. mstep.
  split; [by apply resumable_nest, resumable_sepc|]. intros x' m' [].
  split_and!; [by rewrite rs_regs0, set_reg_eq|by rewrite rs_sepc0; cbn; rewrite ke_sepc0| |done|by exists m2].
  intros r Ha. rewrite rs_regs0. case_decide; [done|]. by rewrite set_reg_ne, ke_ctx0 by done.
Qed.

(** A timer interrupt in user mode on hart 0: the tick is counted, the process
    yields, and runs again where [sepc] points after the switch. *)
Lemma wp_user_timer m i tf x pc tval y : env_fits e -> in_user m i tf -> nest_ok m -> tp (m_csr m) = 0 ->
  0 < e_psize e -> sched_inv (m_sched m) ->
  (forall m2, resumable m2 i tf -> wp switch (fun _ m3 => resumable m3 i tf /\ sepc (m_csr m3) = y) m2) ->
  wp (user_trap e plic fuel switch i x pc (true, 5) tval) (fun x' m' =>
    sepc (m_csr m') = y /\ (forall r, kept r -> x' r = x r)) m.
Proof.
  intros Hfit Hu Hn H0 Hp Hinv Hsw. apply (wp_user_trap e plic fuel switch m i tf); [done|done|]. intros kctx m1 He Hr. pose proof He as [].
  apply (wp_user_interrupt e plic fuel switch m1 5); [rewrite ke_tp0, H0; done|unfold nest_ok; by rewrite ke_nest0, ke_tp0|done|done|by rewrite ke_sched0|].
  unfold interrupt_handler. cbn [Z.eqb Pos.eqb]. unfold timer_handler_stip. msteps.
  change (m_csr (nested m1)) with (m_csr m1). rewrite ke_tp0, H0. cbn [Z.eqb]. unfold timer_update. msteps.
  set (s1 := m_sched (set_m_ticks _ _)). assert (Hs1 : s1 = set_sie false (m_sched m)) by by rewrite <-ke_sched0.
  destruct Hinv as [Hl Hm Hb Hbits Hrun Hcur Hdy].
  eapply wp_mono; [|apply wp_wakeup; rewrite Hs1; done]. intros [] s2 Hw. destruct (wo_same _ _ _ Hw) as (Hh2 & _ & Hl2 & Hm2 & _).
  unfold program_next_tick. msteps. unfold yield_from_user. change (Z.land 0 SPP_BIT =? 0) with true. cbv iota. unfold yield_. msteps.
  assert (Hhp : hart_proc s2 = Some i) by (rewrite Hh2, Hs1; apply Hu).
  destruct (Hcur i) as [Hi _]; [by apply Hu|].
  apply (wp_yield_half _ _ _ i); [done|done|done|done|]. intros s3 Hh3 _.
  eapply wp_mono; [|apply Hsw; destruct Hr as [[] ? ?]; by split; [split|..]].
  intros [] m3 [Hr3 Hy]. split; [apply Hr3|]. apply wp_leave_any; [apply Hr3|]. intros n.
  split; [by apply resumable_nest|]. intros x' m' []. split; [by rewrite rs_sepc0|].
  intros r Hk. rewrite rs_regs0, decide_False by apply Hk. rewrite ke_ctx0. by apply saved_kept.
Qed.
End served.

(** ** A hart with one process *)

(** The trap frame as the last return left it; [keys] wait at the UART. *)
Definition demo_machine (keys : list Z) : machine ramdisk sim :=
  set_m_dev (mkSim keys []) (one_process (set_mem (upd (fun _ => 0) (demo_tf + tf_reg Reg.t6) demo_tf) demo_pt) 0x80310000).
Definition demo_plic : option Z := Some 0xc000000.

Lemma demo_fits : env_fits demo_env.
Proof. split; vm_compute; split; congruence. Qed.
Lemma demo_sched_inv : sched_inv demo_sched.
Proof.
  assert (Ht : forall j, PROC_TABLE demo_sched j = if decide (j = 0) then mkProc Running 0 0 0 1 else Process_new).
  { intros j. cbn [PROC_TABLE demo_sched]. destruct (decide (j = 0)) as [->|Hj]; [apply fn_lookup_insert|by apply fn_lookup_insert_ne]. }
  split; try done; intros i.
  - intros Hi. rewrite Ht. cbn [RUNNABLE_BITMAP demo_sched]. rewrite Z.bits_0. by destruct (decide _).
  - intros Hi. rewrite Ht. by destruct (decide _) as [->|].
  - intros [= <-]. split; [done|]. by rewrite Ht.
  - intros Hi. rewrite Ht. by destruct (decide _).
Qed.
Lemma demo_in_user keys : in_user (demo_machine keys) 0 demo_tf.
Proof.
  split; [split|..]; try reflexivity.
  - by split.
  - by exists (mkKStack 1 0x3FF0008000).
Qed.
Lemma demo_nest keys : nest_ok (demo_machine keys).
Proof. split; vm_compute; congruence. Qed.

(** ** Properties *)

(** An external interrupt is served and completed: id 0 ends the
    handler, the UART's and the disk's handlers run and the same id is then
    written back to the claim register once, and any other id panics. *)
Theorem external_interrupt_served {D} `{!BlockDevice D} {P} `{!Mmio P} b fuel (m : machine D P) :
  plic_args b (tp (m_csr m)) 0 ->
  let '(id, d1) := mmio_read 4 (claim_addr b (tp (m_csr m))) (m_dev m) in
  let completed d := set_m_dev (mmio_write 4 (claim_addr b (tp (m_csr m))) (wrap32 id) d) m in
  if id =? 0 then external_handler (Some b) fuel m = Ret tt (set_m_dev d1 m)
  else if id =? UART_IRQ then forall R, wp (handler fuel (m_uart m)) R d1 ->
    wp (external_handler (Some b) fuel) (fun _ m' => exists d2, R tt d2 /\ m' = completed d2) m
  else if id =? VIRTIO0_IRQ then external_handler (Some b) fuel m =
    let '(status, d2) := mmio_read 4 (VIRTIO0 + VIRTIO_MMIO_INTERRUPT_STATUS) d1 in
    Ret tt (completed (mmio_write 4 (VIRTIO0 + VIRTIO_MMIO_INTERRUPT_ACK) (Z.land status 3) d2))
  else external_handler (Some b) fuel m = Panic "Unexpected interrupt id".
Proof.
  intros Ha. destruct (mmio_read 4 (claim_addr b (tp (m_csr m))) (m_dev m)) as [id d1] eqn:Er. cbv zeta.
  assert (Hrun : claim (Some b) (tp (m_csr m)) (m_dev m) = Ret id d1).
  { rewrite (claim_run b _ 0 Ha). by rewrite Er. }
  assert (Hc : forall d, complete (Some b) (tp (m_csr m)) id d = Ret tt (mmio_write 4 (claim_addr b (tp (m_csr m))) (wrap32 id) d))
    by (intros d; apply (complete_run b _ 0 Ha)).
  unfold external_handler, wp, getid, csr, gets, on_mmio, zoom, mbind, M_bind. rewrite Hrun.
  destruct (id =? 0); [done|]. destruct (id =? UART_IRQ).
  - intros R HR. cbn [m_uart m_dev set_m_dev]. destruct (handler fuel (m_uart m) d1) as [[] d2| |]; [|done|done].
    cbn [m_dev set_m_dev]. rewrite Hc. by exists d2.
  - destruct (id =? VIRTIO0_IRQ); [|done]. rewrite disk_intr_dev. unfold on_mmio, zoom, mbind, M_bind, volatile_read, volatile_write.
    cbn [m_dev set_m_dev]. destruct (mmio_read 4 (VIRTIO0 + _) d1). cbn [m_dev set_m_dev]. rewrite Hc. done.
Qed.

Lemma external_interrupt_served_witness :
  wp (external_handler (Some 0xc000000) 5) (fun _ m' => sim_rx (m_dev m') = []) (demo_machine [104]).
Proof.
  assert (Ha : plic_args 0xc000000 0 0) by (unfold plic_args; lia).
  eapply wp_mono; [|exact (external_interrupt_served 0xc000000 5 (demo_machine [104]) Ha (fun _ d => sim_rx d = []) eq_refl)].
  intros [] m' (d2 & Hr & ->). exact Hr.
Defined.

(** C6: an interrupt of a device does not disturb the program it
    interrupts: it resumes at the same instruction, with the registers it had
    apart from [a3], [tp] and [t6], its kernel state (process table, scheduler,
    nesting) as before, ready for the next trap. *)
Theorem interrupt_preserves_program {D} `{!BlockDevice D} {P} `{!Mmio P} e plic fuel switch (m : machine D P) i tf x pc tval R :
  env_fits e -> in_user m i tf -> nest_ok m ->
  wp (external_dev plic fuel (m_uart m) (tp (m_csr m))) (fun _ d' => R d') (m_dev m) ->
  wp (user_trap e plic fuel switch i x pc (true, 9) tval) (fun x' m' =>
    sepc (m_csr m') = pc /\ (forall r, kept r -> x' r = x r) /\ R (m_dev m') /\
    (forall h, m_nest m' h = m_nest m h) /\ m_procs m' = m_procs m /\ m_sched m' = set_sie false (m_sched m) /\ in_user m' i tf) m.
Proof.
  intros Hf Hu Hn Hd. eapply wp_mono; [|by apply (wp_device_interrupt e plic fuel switch m i tf x pc tval R)].
  intros x' m' (HR & Hpc & Hx & Hns & Hp & Hs & Hu'). split_and!; try done.
  intros r Hk. rewrite Hx, decide_False by apply Hk. by apply saved_kept.
Qed.

Lemma interrupt_preserves_program_witness :
  wp (user_trap demo_env demo_plic 5 (mret tt) 0 (fun r => Reg.pos r) 0x1234 (true, 9) 0) (fun x' m' =>
    sepc (m_csr m') = 0x1234 /\ x' Reg.a0 = 9 /\ sim_tx (m_dev m') = [104]) (demo_machine [104]).
Proof.
  eapply wp_mono; [|apply (interrupt_preserves_program demo_env demo_plic 5 (mret tt) (demo_machine [104]) 0 demo_tf
    (fun r => Reg.pos r) 0x1234 0 (fun d => sim_tx d = [104]) demo_fits (demo_in_user _) (demo_nest _)); reflexivity].
  intros x' m' (H1 & H2 & H3 & _). split; [exact H1|]. split; [|exact H3]. rewrite H2; [reflexivity|]. repeat split; discriminate.
Defined.

(** The registers a trap does not keep: after any device interrupt
    the program finds the kernel address of its trap frame in [a3] and in [t6],
    and the hart number in [tp], whatever it had there. *)
Theorem trap_clobbers_registers {D} `{!BlockDevice D} {P} `{!Mmio P} e plic fuel switch (m : machine D P) i tf x pc tval :
  env_fits e -> in_user m i tf -> nest_ok m ->
  wp (external_dev plic fuel (m_uart m) (tp (m_csr m))) (fun _ _ => True) (m_dev m) ->
  wp (user_trap e plic fuel switch i x pc (true, 9) tval) (fun x' m' =>
    x' Reg.a3 = tf /\ x' Reg.t6 = tf /\ x' Reg.tp = tp (m_csr m)) m.
Proof.
  intros Hf Hu Hn Hd. eapply wp_mono; [|by apply (wp_device_interrupt e plic fuel switch m i tf x pc tval (fun _ => True))].
  intros x' m' (_ & _ & Hx & _). by rewrite !Hx.
Qed.

Lemma trap_clobbers_registers_witness :
  wp (user_trap demo_env demo_plic 5 (mret tt) 0 (fun _ => 7) 0x1234 (true, 9) 0) (fun x' _ => x' Reg.a3 = 0x80300000) (demo_machine []).
Proof.
  eapply wp_mono; [|apply (trap_clobbers_registers demo_env demo_plic 5 (mret tt) (demo_machine []) 0 demo_tf (fun _ => 7) 0x1234 0
    demo_fits (demo_in_user _) (demo_nest _)); vm_compute; exact I].
  intros x' m' [H _]. exact H.
Defined.

(** C13: a system call that returns. The dispatcher runs on the registers the
    trampoline saved, [saved]: the program's, with the address of the trap frame
    in place of [a3] and the hart number in place of [tp]. When it answers
    [ret], the program goes on at the instruction after the [ecall] with [ret]
    in [a0], the address of the trap frame in [a3] and [t6], the hart number in
    [tp] and every other register as it was; what the call did to the machine
    is what stays. *)
Theorem syscall_returns {D} `{!BlockDevice D} {P} `{!Mmio P} e plic fuel switch (m : machine D P) i tf x pc tval ret (R : machine D P -> Prop) :
  env_fits e -> in_user m i tf -> nest_ok m ->
  (forall kctx m1, (forall r, kctx r = saved tf (tp (m_csr m)) x r) -> kernel_entry e m i tf x pc (false, 8) tval kctx m1 -> resumable m1 i tf ->
    wp (dispatch e fuel switch kctx) (fun r m2 => r = ret /\ resumable m2 i tf /\ R m2) (nested m1)) ->
  wp (user_trap e plic fuel switch i x pc (false, 8) tval) (fun x' m' =>
    x' Reg.a0 = ret /\ sepc (m_csr m') = wrap64 (pc + 4) /\
    (forall r, r <> Reg.a0 -> x' r = if decide (r = Reg.t6) then tf else saved tf (tp (m_csr m)) x r) /\ in_user m' i tf /\
    exists m2, R m2 /\ m_procs m' = m_procs m2 /\ m_dev m' = m_dev m2 /\ m_sched m' = set_sie false (m_sched m2)) m.
Proof.
  intros Hf Hu Hn HH. apply (wp_user_syscall e plic fuel switch m i tf x pc tval ret R Hf Hu Hn). intros kctx m1 He.
  by apply (HH kctx m1 (ke_ctx _ _ _ _ _ _ _ _ _ _ He)).
Qed.

(** [getpid] *)
Lemma syscall_returns_witness :
  wp (user_trap demo_env demo_plic 5 (mret tt) 0 (fun r => if decide (r = Reg.a7) then SYS_GETPID else 3) 0x1000 (false, 8) 0)
    (fun x' m' => x' Reg.a0 = 1 /\ sepc (m_csr m') = 0x1004 /\ x' Reg.s0 = 3) (demo_machine []).
Proof.
  eapply wp_mono; [|apply (syscall_returns demo_env demo_plic 5 (mret tt) (demo_machine []) 0 demo_tf
    (fun r => if decide (r = Reg.a7) then SYS_GETPID else 3) 0x1000 0 1 (fun _ => True) demo_fits (demo_in_user _) (demo_nest _))].
  - intros x' m' (H1 & H2 & H3 & _). split; [exact H1|]. split; [exact H2|]. rewrite H3 by discriminate. reflexivity.
  - intros kctx m1 Hctx [] Hr. unfold dispatch. rewrite (Hctx Reg.a7).
    change (saved _ _ _ Reg.a7) with SYS_GETPID. cbv zeta. cbn [Z.eqb Pos.eqb].
    change (wp sys_getpid (fun r m2 => r = 1 /\ resumable m2 0 demo_tf /\ True) (nested m1)).
    unfold sys_getpid. mstep. apply (wp_current_proc _ 0); [destruct Hr as [[] ? ?]; by split|].
    unfold proc_pid. mstep. split; [|split; [by apply resumable_nest|exact I]].
    change (m_sched (nested m1)) with (m_sched m1). rewrite ke_sched0. reflexivity.
Defined.

(** A fourth argument of a system call is lost: what the program has in [a3]
    makes no difference to a trap, yet [sys_inode_write_data] and
    [sys_inode_read_data] take their length from there. *)
Theorem a3_argument_lost {D} `{!BlockDevice D} {P} `{!Mmio P} e plic fuel switch (m : machine D P) i x pc cause tval v :
  user_trap e plic fuel switch i (set_reg Reg.a3 v x) pc cause tval m = user_trap e plic fuel switch i x pc cause tval m.
Proof.
  unfold user_trap. assert (Hv : forall tf (m1 : machine D P), user_vector tf (set_reg Reg.a3 v x) m1 = user_vector tf x m1).
  { intros tf m1. reflexivity. }
  unfold mbind, M_bind. destruct (take_trap pc cause tval m) as [[] m1| |]; [|done|done].
  destruct (proc_mem i m1) as [p m2| |]; [|done|done]. by rewrite Hv.
Qed.

(** A program that loses the processor to a timer interrupt resumes
    where [sepc] happens to point when it gets the processor back, with its own
    registers: the address it was interrupted at is read from the control
    register again, after the switch, where the traps of the processes that ran
    in between have left theirs. *)
Theorem timer_yield_resumes_at_sepc {D} `{!BlockDevice D} {P} `{!Mmio P} e plic fuel switch (m : machine D P) i tf x pc tval y :
  env_fits e -> in_user m i tf -> nest_ok m -> tp (m_csr m) = 0 -> 0 < e_psize e -> sched_inv (m_sched m) ->
  (forall m2, resumable m2 i tf -> wp switch (fun _ m3 => resumable m3 i tf /\ sepc (m_csr m3) = y) m2) ->
  wp (user_trap e plic fuel switch i x pc (true, 5) tval) (fun x' m' =>
    sepc (m_csr m') = y /\ (forall r, kept r -> x' r = x r)) m.
Proof. apply wp_user_timer. Qed.

(** Interrupted at 0x1000; another process was interrupted at 0x5678 since. *)
Lemma timer_yield_resumes_at_sepc_witness :
  wp (user_trap demo_env demo_plic 5 (upd_csr (set_sepc 0x5678)) 0 (fun _ => 7) 0x1000 (true, 5) 0)
    (fun _ m' => sepc (m_csr m') = 0x5678) (demo_machine []).
Proof.
  eapply wp_mono; [|apply (timer_yield_resumes_at_sepc demo_env demo_plic 5 (upd_csr (set_sepc 0x5678)) (demo_machine []) 0 demo_tf
    (fun _ => 7) 0x1000 0 0x5678 demo_fits (demo_in_user _) (demo_nest _) eq_refl eq_refl demo_sched_inv)].
  - intros x' m' [H _]. exact H.
  - intros m2 Hr. mstep. split; [by apply resumable_sepc|reflexivity].
Defined.

(** A fault of a user program stops the kernel: an exception that
    is neither a system call nor a page fault, or a page fault outside the
    stack, panics instead of ending the process. *)
Theorem user_fault_panics {D} `{!BlockDevice D} {P} `{!Mmio P} e plic fuel switch (m : machine D P) i code ctx :
  running m i -> nest_ok m -> scause (m_csr m) = (false, code) -> code <> 8 ->
  ~ (STACK_BASE <= stval (m_csr m) < STACK_TOP) ->
  trap_kernel_handler e plic fuel switch ctx m = Panic "Kernel panic due to exception".
Proof.
  intros [[Hh1 Hh2] Hp] Hn Hc Hne Hout. unfold trap_kernel_handler.
  assert (He : enter m = Ret tt (nested m)).
  { destruct (wp_elim _ _ _ (wp_enter m (fun _ m' => m' = nested m) Hh2 Hn eq_refl)) as ([] & m' & -> & ->). done. }
  unfold mbind, M_bind. rewrite He. unfold csr, sstatus_bits, gets, mbind, M_bind, mret, M_ret, csr, gets. cbn [m_csr nested set_m_nest].
  rewrite Hc. cbn [fst snd]. unfold exception_handler. rewrite (proj2 (Z.eqb_neq code 8)) by done.
  unfold mbind, M_bind, mret, M_ret. destruct (_ || _); [|done].
  assert (Hcur : current_proc (nested m) = Ret i (nested m)).
  { destruct (wp_elim _ _ _ (wp_current_proc (nested m) i (fun j m' => j = i /\ m' = nested m) ltac:(by split) (conj eq_refl eq_refl)))
      as (j & m' & -> & -> & ->). done. }
  rewrite Hcur. unfold proc_ustack_grow, proc_mem, gets, on_pmem, zoom, mbind, M_bind, ustack_grow.
  replace ((STACK_BASE <=? stval (m_csr m)) && (stval (m_csr m) <? STACK_TOP)) with false; [done|].
  symmetry. apply andb_false_iff. destruct (Z.leb_spec STACK_BASE (stval (m_csr m))); [right; apply Z.ltb_ge; lia|by left].
Qed.

(** An illegal instruction. *)
Lemma user_fault_panics_witness :
  trap_kernel_handler demo_env demo_plic 5 (mret tt) (fun _ => 0)
    (set_m_csr (mkCsrs 0x1000 (false, 2) 0 false 0 0 0 false 0 0 0 0) (demo_machine [])) = Panic "Kernel panic due to exception".
Proof.
  apply (user_fault_panics demo_env demo_plic 5 (mret tt) _ 0 2); [by split|split; vm_compute; congruence|done|done|].
  cbn [m_csr set_m_csr stval]. unfold STACK_BASE. lia.
Defined.
